(* ===== verification/_CoqProject ===== *)
-Q . S2P
Prelude.v
Effects.v
Keyed.v
Tree.v
Bitcoin.v
Encode.v
Concrete.v
Policy.v
Vtxo.v
VtxoEncoding.v
Validation.v
Board.v
Extend.v
Arkoor.v
ArkoorPackage.v
PackageBuilt.v
CheckpointArkoor.v
SignedTree.v
TreeTxs.v
TreeVtxos.v
TreeCosign.v
TreeBuilder.v
TreeEncoding.v
ChainSource.v
ExitStates.v
Persist.v
Movement.v
MovementFacts.v
ExitManager.v
ExitProgress.v
ExitVtxo.v
ExitSample.v
ExitSafety.v
ExitDurable.v
ExitTermination.v
ExitManagerFacts.v
Flux.v
Rounds.v
CheckpointPackage.v
Connectors.v
Forfeit.v
ServerDb.v
Threads.v
ServerOor.v
RoundCollect.v
RoundSigning.v
ServerRound.v
RoundSafety.v
RoundOutcome.v
RoundSuccess.v
RoundTermination.v
RoundPanics.v
WalletRoundState.v
WalletRound.v
WalletRoundSafety.v
WalletRoundReach.v
WalletRoundErrors.v
WalletKeys.v
Selection.v
SelectionFacts.v
RefreshFacts.v
WalletTables.v
WalletState.v
LightningReceive.v
LightningReceiveFacts.v
LightningReceiveReach.v
LightningPay.v
LightningPayFacts.v
LightningPaySend.v
LightningPayReach.v
Mailbox.v
Address.v
ServerMailbox.v
ServerMailboxFacts.v
ServerMailboxReach.v
