(* ===== verification/Prelude.v ===== *)
(** * Bark: a verification development

    Bark is an implementation of the Ark protocol on Bitcoin: users hold VTXOs,
    outputs at the end of chains of pre-signed transactions, pay each other out
    of round with the cosignature of a server, refresh them in rounds, and can
    always leave by broadcasting the chain.  This library models the protocol
    crate (src/lib), the Bitcoin helpers it uses (src/bitcoin-ext), the
    wallet's database, unilateral exits, movements, rounds and selection of
    VTXOs (src/bark), and the server's out-of-round payments and rounds
    (src/server), and proves what makes them correct.

    ** Parts of the program and their files

    Shared: [Prelude] (outcomes of Rust functions, checked integers, loops,
    lists), [Effects] (stateful code with errors, its weakest preconditions),
    [Bitcoin] (transactions, scripts, taproots, musig; the interface to
    third-party code), [Concrete] (an executable instance of that interface).

    Protocol data.
    - [Tree]: the radix-4 tree, lib/src/tree/mod.rs.  [new] is [Tree::new] with
      its loop; [leaves], [iter_branch], [children] are the iterators.
    - [Encode], [VtxoEncoding], [TreeEncoding]: lib/src/encode.rs and the
      [ProtocolEncoding] implementations of lib/src/vtxo/mod.rs and
      lib/src/tree/signed.rs.
    - [Policy]: lib/src/vtxo/policy/ and lib/src/lightning.rs.
    - [Vtxo]: lib/src/vtxo/mod.rs; [transactions] is the iterator over the exit
      transactions, [iter_next] its step.
    - [Validation]: lib/src/vtxo/validation.rs; [validate] replays the chain.

    Protocol builders.  Each is a record with the fields of the Rust struct; the
    typestate of the source is a phantom argument, so operations exist only in
    the states that offer them.
    - [Board]: lib/src/board.rs.
    - [Arkoor], [ArkoorPackage]: lib/src/arkoor/mod.rs, lib/src/arkoor/package.rs.
    - [CheckpointArkoor]: lib/src/arkoor/checkpoint.rs.
    - [SignedTree], [TreeTxs], [TreeCosign], [TreeVtxos], [TreeBuilder]:
      lib/src/tree/signed.rs, its specification, transactions, cosigning, VTXOs
      and the builder for a single user.
    - [Extend]: what appending a signed transition does to a valid VTXO; shared
      by both arkoor builders.

    Wallet.
    - [ChainSource]: what the wallet asks of the network and of the on-chain
      wallet (bark/src/onchain/, bitcoin-ext/src/cpfp.rs), as interfaces.
    - [ExitStates]: bark/src/vtxo/state.rs and bark/src/exit/models/.
    - [Persist]: the database as an interface and its sqlite implementation
      (bark/src/persist/sqlite/query.rs), the state updates of
      bark/src/vtxo/mod.rs.
    - [ExitManager]: bark/src/exit/transaction_manager.rs.
    - [ExitProgress]: bark/src/exit/progress/.
    - [ExitVtxo]: bark/src/exit/vtxo.rs and bark/src/exit/mod.rs.
    - [ExitSafety], [ExitDurable], [ExitTermination], [ExitManagerFacts]: the
      theorems about exits; [ExitSample]: a small executable outside world.

    - [CheckpointPackage]: lib/src/arkoor/checkpointed_package.rs.
    - [Connectors], [Forfeit]: lib/src/connectors.rs, lib/src/forfeit.rs, the
      server's checks and completion of forfeits (server/src/forfeits.rs,
      server/src/round/mod.rs) and the user's signatures (bark/src/round.rs).
    - [Rounds]: offboard requests (lib/src/lib.rs, lib/src/rounds.rs) and the
      messages of lib/src/challenges.rs.

    Server.
    - [Flux]: server/src/flux.rs, the VTXOs in use and the guards on them.
    - [ServerDb]: the tables vtxo and round and their transactions
      (server/src/database/).
    - [Threads], [ServerOor]: the handlers of out-of-round payments
      (server/src/lib.rs, server/src/arkoor.rs) as steps that interleave.
    - [RoundCollect], [RoundSigning], [ServerRound]: server/src/round/mod.rs;
      [CollectingPayments], [SigningVtxoTree] and [SigningForfeits] are the
      states, [handle_event] is [perform_round] between two points where it
      waits, for one message or timeout.
    - [RoundSafety], [RoundOutcome]: the invariant of a round and what a step
      does; [RoundSuccess], [RoundTermination], [RoundPanics]: the theorems.
    - [Keyed]: maps kept as lists in the order in which they are walked.

    Movements and rounds of the wallet.
    - [Movement], [MovementFacts]: bark/src/movement/ with the tables behind it
      (bark/src/persist/sqlite/query.rs); the manager is a state monad over its
      cache and the database.
    - [WalletRoundState]: the state of a participation (bark/src/round.rs), its
      database models (bark/src/persist/models.rs) and tables.
    - [WalletRound]: what the wallet does in a round, over a [World] of
      database, chain, server and movements; [process_event], [round_sync] and
      [try_cancel] are the methods of the code's [RoundState] (here
      [WalletRound]).
    - [WalletRoundSafety], [WalletRoundReach]: the invariant of a participation,
      the states it can reach, and a sample round; [WalletRoundErrors]: paths on
      which the wallet loses track of funds.
    - [WalletKeys]: the keys of the wallet, single VTXOs (bark/src/lib.rs) and
      the table of keys.
    - [Selection]: bark/src/vtxo/selection.rs and the operations of
      bark/src/lib.rs that select VTXOs and enter a round with them: refreshes,
      offboards and payments on chain; [SelectionFacts], [RefreshFacts]: their
      theorems.
    - [WalletTables]: the tables of lightning payments and of boards
      (bark/src/persist/), as an interface with laws and as tables that meet it.
    - [WalletState]: the [World] of [WalletRound] with the exits of the wallet.
    - [LightningReceive]: bark/src/lightning/receive.rs.  [LightningReceiveFacts]:
      the invariant of the table of receives, and what each operation does to a
      payment; [LightningReceiveReach]: the theorems, and a sample payment.
    - [LightningPay]: bark/src/lightning/pay.rs with the invoices of
      lib/src/lightning.rs.  [PackageBuilt]: what the builder of packages
      returns; [LightningPayFacts], [LightningPaySend]: a check and the start of
      a payment; [LightningPayReach]: the theorems, and sample payments.

    Payments to others.
    - [Mailbox], [Address]: lib/src/mailbox.rs and lib/src/address.rs.
    - [ServerMailbox]: the server's mailboxes (server/src/rpcserver/mailbox.rs,
      server/src/mailbox_manager.rs, server/src/database/mod.rs), with requests
      as tasks of [Threads]; [ServerMailboxFacts], [ServerMailboxReach]: their
      theorems, and sample histories.

    The builders of VTXOs meet the wallet in [Vtxo]: every builder's theorem
    ends in [validate] accepting the VTXO, [validated_exit_spends] turns that
    into a chain of spendable transactions, and the exit code broadcasts exactly
    these ([exit_txs] is [transactions]).

    ** What the theorems show

    - VTXOs are what they claim: [validate_spec], [validated_exit_spends],
      [exit_chain], [transactions_total], [validate_no_panic].
    - Builders make valid VTXOs: [board_vtxo_valid], [arkoor_vtxos_good],
      [checkpoint_vtxos_good], [tree_vtxos_good], [tree_builder_good]; what one
      party signs the other accepts: [board_cosign_accepted],
      [arkoor_cosign_accepted], [checkpoint_cosign_accepted],
      [tree_builder_cosign_accepted], [tree_signing_completes],
      [tree_combine_valid].
    - Amounts: [package_pays], [arkoor_underpaid_invalid],
      [package_subdust_change_invalid].
    - Scripts: [policy_clauses_agree], [htlc_delays].
    - Wire formats: [vtxo_roundtrip], [signed_tree_roundtrip].
    - The tree: [tree_new_total], [tree_leaves], [tree_branch], [nb_nodes_bound].
    - Exits: legal transitions and the timelock for every behaviour of network,
      wallet and database ([exit_history_legal], [exit_timelock]), progress that
      always returns ([exit_progress_settles]), a database in step with the
      memory ([exit_progress_durable], [start_exits_spec], [spent_stays_spent]),
      a manager whose lookups never fail ([manager_well_formed]).
    - Packages with checkpoints: [checkpoint_package_completes].  Connectors and
      forfeits: [connector_chain_spendable], [connector_forfeits_enforceable],
      [hark_forfeit_enforceable].  Requests and challenges: [challenge_commits].
    - The server: VTXOs in flux are exclusive ([flux_exclusive]); no VTXO is
      spent twice in any history of the database ([vtxo_spent_once]) and no two
      out-of-round payments of it are signed ([oor_signs_once]).
    - Rounds: requests that are registered are sound ([process_payment_sound]);
      a round that succeeds has paid everything and its forfeits are
      enforceable ([round_success_sound]); locks ([round_step_locks]); an end
      for every round ([round_terminates]); no panics ([signing_never_panics],
      [round_nonces_suffice]).
    - The wallet: movements are updated as told ([update_movement_spec]); a
      participation in a round never exposes the inputs, whatever events, syncs
      and cancels come in any order ([wallet_round_safe]).
    - Selection: enough VTXOs are found when there are enough
      ([select_vtxos_covers]); a refresh leaves none out that is due and loses
      no value ([maintenance_refresh_complete]); the server accepts what the
      wallet builds ([built_accepted]).
    - Lightning receives: a preimage is only told for VTXOs the wallet can claim
      with it ([preimage_revealed_safely]); what a failed claim leaves
      ([failed_claim_outcome]).  Lightning payments: VTXOs are only spent for
      HTLC VTXOs that are worth the payment ([payment_funded]), and these are
      only given up when they were paid, returned or exited
      ([htlcs_never_lost]).
    - Addresses: strings round-trip ([address_roundtrip]); one built for a
      mailbox delivers to it ([mailbox_address_delivers]); a reader of a
      mailbox misses nothing ([mailbox_read_continues]) that was not being
      posted while it read ([late_message_lost]).
    - Where the code falls short, a theorem shows how: [validate_ignores_point],
      [validate_empty_panics], [tree_builder_extra_sigs_panics],
      [tree_spec_decode_count_panics], [refused_exit_left_in_db],
      [reorg_blocks_progress],
      [flux_not_respected], [htlc_outputs_unfunded], [bad_htlc_expiry_panics],
      [free_outputs_stall], [cpp_remainder_refused],
      [crash_forgets_forfeits], [decoy_leaf_taken], [confirmed_round_lost],
      [failed_claim_outcome], [change_lost], [update_never_refused],
      [address_length_panics], [bad_identifier_panics],
      [late_message_lost], [late_arkoor_lost],
      [subscription_skips_history], [exhausted_checkpoints_hang].

    ** Conventions

    A Rust function returns an [outcome]: a value, an error, or a panic
    ([unwrap], [expect], [assert!], indices out of range; [debug_assert!] and
    arithmetic overflow count as panics, as in a build with debug assertions and
    overflow checks).  Machine integers are [Z]; conversions with [as] wrap and
    are written out, checked operations return options.  Handlers with effects
    are functions of type [M S E A], from a state to an outcome and the state
    left behind, also on errors; an asynchronous function is its sequence of
    effects, and a lock is taken where the source takes it, since all code here
    runs with exclusive access.

    Third-party code is a parameter: [Bitcoin] has the operations of
    rust-bitcoin, secp256k1 and musig, and the law classes of Bitcoin.v,
    [EncodingLaws], [ChainSourceLaws] and [PersisterLaws] state what the program
    relies on.  [Concrete] and [ExitSample] give executable instances that
    satisfy them, which the witnesses use.

    Fuel: the construction of a tree gets one step per leaf and one more and
    [tree_new_total] shows it finishes; collecting the exit transactions gets
    two steps more than there are genesis items ([transactions_total]);
    [progress_loop] has the limit [MAX_ITERATIONS] of the source, which
    [exit_progress_settles] shows is not reached; a round is a relation on
    states, and [round_terminates] bounds the timeouts it can take.  All other loops are
    structural.

    ** Not modelled, and why

    - Of bark/src/lib.rs and bark/src/arkoor.rs boarding, arkoor payments,
      onboarding and syncing: calls of server and database in turn, around the
      builders that are modelled.
    - In the wallet: the claims of lightning receives that the code runs three
      at a time run in turn; futures that the code joins or runs concurrently
      run one after the other; the stream of events is a list; MessagePack,
      JSON and the cast of row ids to 32 bits.
    - Draining exits (bark/src/exit/mod.rs): PSBT construction and signing in
      third-party code.
    - The clients behind the chain source and the on-chain wallet
      (bark/src/onchain/): calls to bitcoind, esplora and bdk.
    - The server's on-chain wallet, broadcasting, telemetry and the text of
      SQL statements: what they answer is an argument ([Answers], the database
      calls); boards, lightning, sweeps and the VTXO pool of the server are
      not modelled.
    - Command line, REST and RPC layers, logging and generated bindings: no
      logic of their own. *)
From stdpp Require Export base list list_numbers gmap strings.
From Stdlib Require Export ZArith Lia.

#[global] Open Scope Z_scope.
#[global] Set Default Goal Selector "!".

(** ** Outcomes of Rust functions

    A Rust function returns a value, returns an error with [?], or panics
    ([unwrap], [expect], [assert!], an index out of range, an arithmetic
    overflow in a build with overflow checks). *)

Inductive outcome (E A : Type) : Type :=
  | Ok (a : A)
  | Err (e : E)
  | Panic.

Arguments Ok {E A} a.
Arguments Err {E A} e.
Arguments Panic {E A}.

#[export] Instance outcome_ret E : MRet (outcome E) := fun A a => Ok a.

#[export] Instance outcome_bind E : MBind (outcome E) := fun A B f m =>
  match m with
  | Ok a => f a
  | Err e => Err e
  | Panic => Panic
  end.

#[export] Instance outcome_fmap E : FMap (outcome E) := fun A B f m =>
  match m with
  | Ok a => Ok (f a)
  | Err e => Err e
  | Panic => Panic
  end.

#[export] Instance outcome_eq_dec E A `{EqDecision E, EqDecision A} :
  EqDecision (outcome E A).
Proof. solve_decision. Defined.

(** [opt.expect(..)] and [opt.unwrap()]. *)
Definition expect {E A} (o : option A) : outcome E A :=
  match o with Some a => Ok a | None => Panic end.

(** [opt.ok_or(e)]. *)
Definition ok_or {E A} (o : option A) (e : E) : outcome E A :=
  match o with Some a => Ok a | None => Err e end.

(** [if !b { return Err(e) }]. *)
Definition ensure {E} (b : bool) (e : E) : outcome E unit :=
  if b then Ok tt else Err e.

(** [assert!(b)]. *)
Definition assert {E} (b : bool) : outcome E unit :=
  if b then Ok tt else Panic.

(** [res.map_err(f)]. *)
Definition map_err {E F A} (f : E -> F) (m : outcome E A) : outcome F A :=
  match m with
  | Ok a => Ok a
  | Err e => Err (f e)
  | Panic => Panic
  end.

Definition is_ok {E A} (m : outcome E A) : bool :=
  match m with Ok _ => true | _ => false end.

Section outcome_lemmas.
Context {E A B : Type}.

Lemma bind_Ok (f : A -> outcome E B) (m : outcome E A) (b : B) :
  m ≫= f = Ok b <-> exists a, m = Ok a /\ f a = Ok b.
Proof. destruct m; cbn; naive_solver. Qed.

Lemma bind_Err (f : A -> outcome E B) (m : outcome E A) (e : E) :
  m ≫= f = Err e <-> m = Err e \/ exists a, m = Ok a /\ f a = Err e.
Proof. destruct m; cbn; naive_solver. Qed.

Lemma bind_Panic (f : A -> outcome E B) (m : outcome E A) :
  m ≫= f = Panic <-> m = Panic \/ exists a, m = Ok a /\ f a = Panic.
Proof. destruct m; cbn; naive_solver. Qed.

Lemma fmap_Ok (f : A -> B) (m : outcome E A) (b : B) :
  f <$> m = Ok b <-> exists a, m = Ok a /\ b = f a.
Proof. destruct m; cbn; naive_solver. Qed.

Lemma expect_Ok (o : option A) (a : A) : expect (E:=E) o = Ok a <-> o = Some a.
Proof. destruct o; cbn; naive_solver. Qed.

Lemma expect_Err (o : option A) (e : E) : expect o = Err e <-> False.
Proof. destruct o; cbn; naive_solver. Qed.

Lemma ok_or_Ok (o : option A) (e : E) (a : A) : ok_or o e = Ok a <-> o = Some a.
Proof. destruct o; cbn; naive_solver. Qed.

Lemma ok_or_Err (o : option A) (e e' : E) :
  ok_or o e = Err e' <-> o = None /\ e = e'.
Proof. destruct o; cbn; naive_solver. Qed.

Lemma ensure_Ok (b : bool) (e : E) u : ensure b e = Ok u <-> b = true.
Proof. destruct b, u; cbn; naive_solver. Qed.

Lemma ensure_Err (b : bool) (e e' : E) : ensure b e = Err e' <-> b = false /\ e = e'.
Proof. destruct b; cbn; naive_solver. Qed.

Lemma assert_Ok (b : bool) u : assert (E:=E) b = Ok u <-> b = true.
Proof. destruct b, u; cbn; naive_solver. Qed.
End outcome_lemmas.

(** Continuations may be rewritten pointwise under a bind. *)
#[export] Instance outcome_bind_proper E A B :
  Proper (pointwise_relation A eq ==> eq ==> eq) (@mbind (outcome E) _ A B).
Proof. intros f g Hfg m ? <-. destruct m; cbn; [apply Hfg|done..]. Qed.

Lemma Ok_inj {E A} (a b : A) : Ok (E:=E) a = Ok b -> a = b.
Proof. by intros [=]. Qed.

Lemma map_err_Ok {E F A} (f : E -> F) (m : outcome E A) a :
  map_err f m = Ok a <-> m = Ok a.
Proof. destruct m; cbn; naive_solver. Qed.

(** [mapM f l] visits the elements from left to right and stops at the first
    error or panic: the [collect::<Result<Vec<_>, _>>()] of the source. *)
Lemma mapM_outcome_Ok {E A B} (f : A -> outcome E B) (l : list A) (k : list B) :
  mapM f l = Ok k <-> Forall2 (fun a b => f a = Ok b) l k.
Proof.
  split.
  - revert k. induction l as [|a l IH]; cbn; intros k H.
    + injection H as <-. constructor.
    + apply bind_Ok in H as (b & Hb & H). apply bind_Ok in H as (k' & Hk & H).
      injection H as <-. constructor; auto.
  - induction 1 as [|a b l k Hab _ IH]; cbn; [done|]. rewrite Hab. cbn. by rewrite IH.
Qed.

Lemma mapM_lookup {E A B} (f : A -> outcome E B) (l : list A) (k : list B) i a :
  mapM f l = Ok k -> l !! i = Some a -> exists b, k !! i = Some b /\ f a = Ok b.
Proof. intros H%mapM_outcome_Ok Ha. destruct (Forall2_lookup_l _ _ _ _ _ H Ha) as (b & ? & ?). eauto. Qed.

Lemma mapM_length {E A B} (f : A -> outcome E B) (l : list A) (k : list B) :
  mapM f l = Ok k -> length k = length l.
Proof. intros H%mapM_outcome_Ok. symmetry. by eapply Forall2_length. Qed.

Lemma mapM_total {E A B} (f : A -> outcome E B) (l : list A) :
  (forall i a, l !! i = Some a -> exists b, f a = Ok b) -> exists k, mapM f l = Ok k.
Proof.
  induction l as [|a l IH]; intros H; [by eexists|]. destruct (H O a eq_refl) as [b Hb].
  destruct IH as [k Hk]; [intros i x Hx; exact (H (S i) x Hx)|]. exists (b :: k). cbn. rewrite Hb. cbn. by rewrite Hk.
Qed.

(** [mapM] over a list with indices, and what it yields when every call succeeds. *)
Definition imapM {E A B} (f : nat -> A -> outcome E B) (l : list A) : outcome E (list B) :=
  mapM (fun p : nat * A => f p.1 p.2) (imap pair l).

Lemma mapM_by_lookup {E A B} (f : A -> outcome E B) (l : list A) (k : list B) : length k = length l ->
  (forall i a b, l !! i = Some a -> k !! i = Some b -> f a = Ok b) -> mapM f l = Ok k.
Proof. intros Hl H. apply mapM_outcome_Ok, Forall2_same_length_lookup_2; [done|]. exact H. Qed.

Lemma imapM_by_lookup {E A B} (f : nat -> A -> outcome E B) (l : list A) (k : list B) : length k = length l ->
  (forall i a b, l !! i = Some a -> k !! i = Some b -> f i a = Ok b) -> imapM f l = Ok k.
Proof.
  intros Hl H. apply mapM_by_lookup; [by rewrite length_imap|]. intros i p b Hp Hb. rewrite list_lookup_imap in Hp.
  destruct (l !! i) as [a|] eqn:Ha; [|done]. injection Hp as <-. by apply H.
Qed.

(** Choosing an element for every element of a list. *)
Lemma list_choice {A B} (R : nat -> A -> B -> Prop) (l : list A) :
  (forall i a, l !! i = Some a -> exists b, R i a b) ->
  exists k, length k = length l /\ forall i a b, l !! i = Some a -> k !! i = Some b -> R i a b.
Proof.
  revert R. induction l as [|a l IH]; intros R H; [by exists []|]. destruct (H O a eq_refl) as [b Hb].
  destruct (IH (fun i => R (S i))) as (k & Hl & Hk); [intros i x; apply (H (S i))|]. exists (b :: k). split; [cbn; by f_equal|].
  intros [|i] x y; cbn; [by intros [= <-] [= <-]|apply Hk].
Qed.

Lemma elem_of_concat {A} (x : A) ls : x ∈ concat ls <-> exists l, l ∈ ls /\ x ∈ l.
Proof. setoid_rewrite list_elem_of_In. apply in_concat. Qed.

Lemma forallb_Forall {A} (f : A -> bool) (l : list A) :
  forallb f l = true <-> Forall (fun a => f a = true) l.
Proof. induction l; cbn; [done|]. rewrite andb_true_iff, Forall_cons. tauto. Qed.

Create HintDb outcome discriminated.
#[export] Hint Rewrite @bind_Ok @bind_Err @fmap_Ok @expect_Ok @expect_Err @ok_or_Ok @ok_or_Err
  @ensure_Ok @ensure_Err @assert_Ok @map_err_Ok @mapM_outcome_Ok : outcome.

(** [outcome_inv H] turns [H : x ← m; k = Ok v] into the chain of successful
    steps that led to [v]. *)
Ltac outcome_inv H :=
  autorewrite with outcome in H;
  lazymatch type of H with
  | ex _ => let x := fresh "x" in destruct H as [x H]; outcome_inv H
  | _ /\ _ => let H' := fresh "H" in destruct H as [H' H]; outcome_inv H'; try outcome_inv H
  | _ => simplify_eq/=
  end.

(** [use_eqs] rewrites with the known results of calls. *)
Ltac use_eqs :=
  repeat (cbn; match goal with
  | H : ?t = Some _ |- context [?t] => rewrite H
  | H : ?t = Ok _ |- context [?t] => rewrite H
  | H : ?t = true |- context [?t] => rewrite H
  | H : ?t = false |- context [?t] => rewrite H
  end); cbn.

(** [vm_eq] proves a closed equation by evaluating both sides in the kernel's
    virtual machine, without reading the result back. *)
Ltac vm_eq := lazymatch goal with |- _ = ?r => vm_cast_no_check (eq_refl r) end.

(** ** Machine integers

    Values of width [w] are integers in [0, 2^w). *)
Definition in_width (w : Z) (z : Z) : bool := (0 <=? z) && (z <? 2 ^ w).

Notation in_u8 := (in_width 8).
Notation in_u16 := (in_width 16).
Notation in_u32 := (in_width 32).
Notation in_u64 := (in_width 64).

(** [a + b] and [k * a] on an unsigned type of width [w], in a build with
    overflow checks. *)
Definition u_add {E} (w a b : Z) : outcome E Z :=
  if in_width w (a + b) then Ok (a + b) else Panic.

Definition u_mul {E} (w a b : Z) : outcome E Z :=
  if in_width w (a * b) then Ok (a * b) else Panic.

(** [a.checked_sub(b)]. *)
Definition checked_sub (a b : Z) : option Z :=
  if b <=? a then Some (a - b) else None.

(** [iter.sum::<Amount>()]: the satoshis added one by one. *)
Definition amount_sum {E} (l : list Z) : outcome E Z :=
  foldl (fun acc a => s ← acc; u_add 64 s a) (Ok 0) l.

Definition sum_Z (l : list Z) : Z := foldr Z.add 0 l.

Lemma max_above (x : Z) l a : x ∈ l -> x <= foldr Z.max a l.
Proof. induction 1; cbn; lia. Qed.

Lemma sum_Z_cons a l : sum_Z (a :: l) = a + sum_Z l.
Proof. done. Qed.

Lemma sum_Z_app l k : sum_Z (l ++ k) = sum_Z l + sum_Z k.
Proof. induction l; cbn; unfold sum_Z in *; cbn in *; lia. Qed.

Lemma sum_Z_perm l k : l ≡ₚ k -> sum_Z l = sum_Z k.
Proof. unfold sum_Z. induction 1; cbn [foldr]; lia. Qed.

#[export] Instance sum_Z_Permutation : Proper ((≡ₚ) ==> (=)) sum_Z.
Proof. intros l k. apply sum_Z_perm. Qed.

Lemma in_width_spec w z : in_width w z = true <-> 0 <= z < 2 ^ w.
Proof. unfold in_width. rewrite andb_true_iff, Z.leb_le, Z.ltb_lt. done. Qed.

Lemma sum_Z_nonneg l : Forall (fun a => 0 <= a) l -> 0 <= sum_Z l.
Proof. induction 1; cbn; [lia|]. unfold sum_Z in *. cbn. lia. Qed.

Lemma foldl_amount_stuck {E} (l : list Z) :
  foldl (fun acc a => s ← acc; u_add 64 s a) (Panic : outcome E Z) l = Panic.
Proof. induction l; cbn; auto. Qed.

Lemma foldl_amount_sum {E} (l : list Z) (s : Z) :
  Forall (fun a => 0 <= a) l -> 0 <= s < 2 ^ 64 ->
  foldl (fun acc a => s ← acc; u_add 64 s a) (Ok s : outcome E Z) l
  = if s + sum_Z l <? 2 ^ 64 then Ok (s + sum_Z l) else Panic.
Proof.
  intros Hl. revert s. induction Hl as [|a l Ha Hl IH]; intros s Hs.
  - cbn. rewrite Z.add_0_r. by destruct (Z.ltb_spec s (2 ^ 64)); [|lia].
  - change (sum_Z (a :: l)) with (a + sum_Z l).
    pose proof (sum_Z_nonneg l Hl).
    cbn [foldl mbind outcome_bind]. unfold u_add at 2.
    destruct (in_width 64 (s + a)) eqn:Hw.
    + apply in_width_spec in Hw. rewrite IH by lia.
      by replace (s + a + sum_Z l) with (s + (a + sum_Z l)) by lia.
    + rewrite foldl_amount_stuck.
      destruct (Z.ltb_spec (s + (a + sum_Z l)) (2 ^ 64)); [|done].
      exfalso. apply not_true_iff_false in Hw. apply Hw, in_width_spec. lia.
Qed.

(** The sum is the exact total when it fits 64 bits, and a panic otherwise. *)
Lemma amount_sum_exact {E} (l : list Z) :
  Forall (fun a => 0 <= a) l ->
  amount_sum (E:=E) l = if sum_Z l <? 2 ^ 64 then Ok (sum_Z l) else Panic.
Proof. intros H. unfold amount_sum. by rewrite foldl_amount_sum by (auto; lia). Qed.

Lemma amount_sum_Ok {E} (l : list Z) (s : Z) :
  Forall (fun a => 0 <= a) l -> amount_sum (E:=E) l = Ok s -> s = sum_Z l /\ s < 2 ^ 64.
Proof.
  intros Hl. rewrite amount_sum_exact by done.
  destruct (Z.ltb_spec (sum_Z l) (2 ^ 64)); naive_solver.
Qed.

Lemma checked_sub_Some a b c : checked_sub a b = Some c <-> b <= a /\ c = a - b.
Proof. unfold checked_sub. destruct (Z.leb_spec b a); naive_solver lia. Qed.

(** Sums of sums: [iter.map(|i| i.iter().sum()).sum()]. *)
Definition sum_sums {A} (f : A -> list Z) (l : list A) : Z := sum_Z ((fun a => sum_Z (f a)) <$> l).

Lemma mapM_amount_sum {E A} (f : A -> list Z) (l : list A) :
  Forall (fun a => Forall (fun z => 0 <= z) (f a)) l ->
  mapM (fun a => amount_sum (E:=E) (f a)) l =
  if forallb (fun a => sum_Z (f a) <? 2 ^ 64) l then Ok ((fun a => sum_Z (f a)) <$> l) else Panic.
Proof.
  induction 1 as [|a l Ha Hl IH]; [done|]. cbn [mapM forallb]. rewrite amount_sum_exact by done.
  destruct (sum_Z (f a) <? 2 ^ 64); cbn; [|done]. rewrite IH. by destruct (forallb _ l).
Qed.

Lemma sum_sums_nonneg {A} (f : A -> list Z) l :
  Forall (fun a => Forall (fun z => 0 <= z) (f a)) l -> 0 <= sum_sums f l.
Proof.
  intros H. apply sum_Z_nonneg, Forall_fmap. eapply Forall_impl; [exact H|].
  intros a Ha. by apply sum_Z_nonneg.
Qed.

Lemma sum_sums_cons {A} (f : A -> list Z) a l : sum_sums f (a :: l) = sum_Z (f a) + sum_sums f l.
Proof. done. Qed.

Lemma sum_sums_exact {E A} (f : A -> list Z) (l : list A) :
  Forall (fun a => Forall (fun z => 0 <= z) (f a)) l ->
  (others ← mapM (fun a => amount_sum (E:=E) (f a)) l; amount_sum others) =
  if sum_sums f l <? 2 ^ 64 then Ok (sum_sums f l) else Panic.
Proof.
  intros Hl. rewrite mapM_amount_sum by done. destruct (forallb _ l) eqn:Hall; cbn [mbind outcome_bind].
  - rewrite amount_sum_exact; [done|]. apply Forall_fmap. eapply Forall_impl; [exact Hl|].
    intros a Ha. by apply sum_Z_nonneg.
  - destruct (Z.ltb_spec (sum_sums f l) (2 ^ 64)) as [Hlt|]; [exfalso|done].
    apply not_true_iff_false in Hall. apply Hall. clear Hall.
    induction Hl as [|a l Ha Hl IH]; [done|]. rewrite sum_sums_cons in Hlt.
    pose proof (sum_Z_nonneg _ Ha). pose proof (sum_sums_nonneg f l Hl).
    cbn [forallb]. rewrite IH by lia. rewrite andb_true_r. apply Z.ltb_lt. lia.
Qed.
