(* ===== verification/Effects.v ===== *)
(** * Effectful code

    The wallet's handlers read and change a state (the database, the on-chain
    wallet, the network, caches in memory) and may fail at any call, keeping
    what was changed before.  [M S E A] is the type of such code: it returns an
    outcome together with the state it leaves behind, also on errors and
    panics.  The predicate [wp m Q s] says that running [m] in [s] ends with an
    outcome and a state that satisfy [Q]; its rules follow the structure of the
    code, and [preserves] is the special case of an invariant. *)
From S2P Require Import Prelude.

Open Scope Z_scope.

Definition M (S E A : Type) : Type := S -> outcome E A * S.

#[export] Instance M_ret S E : MRet (M S E) := fun A a s => (Ok a, s).

#[export] Instance M_bind S E : MBind (M S E) := fun A B f m s =>
  match m s with
  | (Ok a, s') => f a s'
  | (Err e, s') => (Err e, s')
  | (Panic, s') => (Panic, s')
  end.

(** Code without effects, an error, a read and a write. *)
Definition lift {S E A} (m : outcome E A) : M S E A := fun s => (m, s).
Definition throw {S E A} (e : E) : M S E A := lift (Err e).
Definition gets {S E A} (f : S -> A) : M S E A := fun s => (Ok (f s), s).
Definition modify {S E} (f : S -> S) : M S E unit := fun s => (Ok tt, f s).

(** Code that returns no error: it can only panic. *)
Definition infallible {S E A} (m : outcome Empty_set A) : M S E A :=
  lift (map_err (fun e : Empty_set => match e with end) m).

(** [m.map_err(f)] and [match m { Ok(_) => .., Err(e) => .. }]. *)
Definition map_err_m {S E F A} (f : E -> F) (m : M S E A) : M S F A := fun s =>
  ((map_err f (m s).1), (m s).2).

Definition try_m {S E F A} (m : M S E A) : M S F (E + A) := fun s =>
  (match (m s).1 with Ok a => Ok (inr a) | Err e => Ok (inl e) | Panic => Panic end, (m s).2).

(** Code on a part of the state. *)
Definition zoom {S T E A} (get : S -> T) (set : T -> S -> S) (m : M T E A) : M S E A := fun s =>
  ((m (get s)).1, set (m (get s)).2 s).

(** [for x in l { f(x)?; }] with a value that is carried along. *)
Fixpoint foldM {S E A B} (f : B -> A -> M S E B) (b : B) (l : list A) : M S E B :=
  match l with
  | [] => mret b
  | a :: l' => b' ← f b a; foldM f b' l'
  end.

Definition forM_ {S E A} (l : list A) (f : A -> M S E unit) : M S E unit :=
  foldM (fun _ a => f a) tt l.

(** ** Weakest preconditions *)
Definition wp {S E A} (m : M S E A) (Q : outcome E A -> S -> Prop) (s : S) : Prop :=
  Q (m s).1 (m s).2.
Arguments wp : simpl never.

(** The postcondition of a first step, given the one of the rest. *)
Definition and_then {S E A B} (f : A -> M S E B) (Q : outcome E B -> S -> Prop) (r : outcome E A) (s : S) : Prop :=
  match r with
  | Ok a => wp (f a) Q s
  | Err e => Q (Err e) s
  | Panic => Q Panic s
  end.

Section rules.
Context {S E : Type}.

Lemma wp_ret {A} (a : A) (Q : outcome E A -> S -> Prop) s : Q (Ok a) s -> wp (mret a) Q s.
Proof. done. Qed.

Lemma wp_bind {A B} (m : M S E A) (f : A -> M S E B) Q s :
  wp m (and_then f Q) s -> wp (m ≫= f) Q s.
Proof. unfold wp, and_then. unfold mbind, M_bind. by destruct (m s) as [[a|e|] s']. Qed.

Lemma wp_lift {A} (m : outcome E A) (Q : outcome E A -> S -> Prop) s : Q m s -> wp (lift m) Q s.
Proof. done. Qed.

Lemma wp_gets {A} (f : S -> A) (Q : outcome E A -> S -> Prop) s : Q (Ok (f s)) s -> wp (gets f) Q s.
Proof. done. Qed.

Lemma wp_modify (f : S -> S) (Q : outcome E unit -> S -> Prop) s : Q (Ok tt) (f s) -> wp (modify f) Q s.
Proof. done. Qed.

Lemma wp_mono {A} (m : M S E A) (P Q : outcome E A -> S -> Prop) s :
  wp m P s -> (forall r s', P r s' -> Q r s') -> wp m Q s.
Proof. unfold wp. auto. Qed.

Lemma wp_run {A} (m : M S E A) (Q : outcome E A -> S -> Prop) s r s' :
  m s = (r, s') -> wp m Q s -> Q r s'.
Proof. unfold wp. by intros ->. Qed.

Lemma wp_eq {A} (m : M S E A) (Q : outcome E A -> S -> Prop) s r s' : m s = (r, s') -> Q r s' -> wp m Q s.
Proof. unfold wp. by intros ->. Qed.

(** A loop keeps an invariant of the carried value and the state. *)
Lemma wp_foldM {A B} (f : B -> A -> M S E B) (I : B -> S -> Prop) (R : outcome E B -> S -> Prop) l b s :
  I b s ->
  (forall a b s, a ∈ l -> I b s ->
     wp (f b a) (fun r s' => match r with Ok b' => I b' s' | _ => R r s' end) s) ->
  wp (foldM f b l) (fun r s' => match r with Ok b' => I b' s' | _ => R r s' end) s.
Proof.
  revert b s. induction l as [|a l IH]; intros b s HI Hf; [done|].
  cbn [foldM]. apply wp_bind. eapply wp_mono; [apply Hf; [left|done]|].
  intros [b'|e|] s' H; cbn; [|done..]. apply IH; [done|]. intros. apply Hf; [by right|done].
Qed.
End rules.

(** ** Relations kept by every run

    [keeps R m]: the states before and after any run of [m], successful or
    not, are related.  For a reflexive and transitive [R] it is enough to look
    at the basic steps. *)
Definition keeps {S E A} (R : relation S) (m : M S E A) : Prop := forall s, R s (m s).2.

Section keeps.
Context {S E : Type} (R : relation S) `{!PreOrder R}.

Lemma keeps_ret {A} (a : A) : keeps R (mret a : M S E A).
Proof. by intros s. Qed.

Lemma keeps_lift {A} (m : outcome E A) : keeps R (lift m : M S E A).
Proof. by intros s. Qed.

Lemma keeps_throw {A} (e : E) : keeps R (throw e : M S E A).
Proof. by intros s. Qed.

Lemma keeps_gets {A} (f : S -> A) : keeps R (gets f : M S E A).
Proof. by intros s. Qed.

Lemma keeps_modify (f : S -> S) : (forall s, R s (f s)) -> keeps R (modify f : M S E unit).
Proof. intros H s. apply H. Qed.

Lemma keeps_bind {A B} (m : M S E A) (f : A -> M S E B) :
  keeps R m -> (forall a, keeps R (f a)) -> keeps R (m ≫= f).
Proof.
  intros Hm Hf s. specialize (Hm s). unfold mbind, M_bind.
  destruct (m s) as [[a|e|] s']; cbn in *; [|done..]. etrans; [exact Hm|apply Hf].
Qed.

Lemma keeps_foldM {A B} (f : B -> A -> M S E B) b l :
  (forall b a, keeps R (f b a)) -> keeps R (foldM f b l).
Proof.
  intros Hf. revert b. induction l as [|a l IH]; intros b; cbn [foldM]; [apply keeps_ret|].
  by apply keeps_bind.
Qed.

Lemma keeps_try {F A} (m : M S F A) : keeps R m -> keeps R (try_m m : M S E (F + A)).
Proof. intros H s. apply H. Qed.

Lemma keeps_map_err {F A} (f : F -> E) (m : M S F A) : keeps R m -> keeps R (map_err_m f m).
Proof. intros H s. apply H. Qed.

Lemma keeps_if {A} (b : bool) (m n : M S E A) : keeps R m -> keeps R n -> keeps R (if b then m else n).
Proof. by destruct b. Qed.
End keeps.

Create HintDb effects discriminated.
#[export] Hint Resolve keeps_ret keeps_lift keeps_throw keeps_gets keeps_bind keeps_foldM keeps_try
  keeps_map_err keeps_if : effects.

(** [solve_keeps] walks through the code; the steps it does not know are looked
    up in the database [effects] or left as goals. *)
Ltac solve_keeps :=
  repeat first
    [ progress intros
    | progress cbn beta iota
    | apply keeps_ret; apply _ | apply keeps_lift; apply _ | apply keeps_throw; apply _ | apply keeps_gets; apply _
    | solve [eauto with effects typeclass_instances]
    | apply keeps_bind; [apply _| |] | apply keeps_foldM; [apply _|] | apply keeps_try
    | apply keeps_map_err | apply keeps_if
    | match goal with |- keeps _ (match ?x with _ => _ end) => destruct x end ].

(** The rest of a run after a successful first step. *)
Lemma bind_run_Ok {S E A B} (m : M S E A) (f : A -> M S E B) s b s2 :
  (m ≫= f) s = (Ok b, s2) <-> exists a s1, m s = (Ok a, s1) /\ f a s1 = (Ok b, s2).
Proof. unfold mbind, M_bind. destruct (m s) as [[a|e|] s1]; naive_solver. Qed.
