(* ===== verification/Keyed.v ===== *)
(** * Hash maps as lists without repeated keys

    The keys of some of the program's hash maps have no countable type in the
    model, and sometimes the code depends on the order in which a map is
    walked.  Such a map is a list of pairs, in that order. *)
From S2P Require Import Prelude.

Section Keyed.
Context {K : Type} `{EqDecision K} {A : Type}.
Implicit Types m : list (K * A).

Fixpoint kget (m : list (K * A)) (k : K) : option A :=
  match m with
  | [] => None
  | (k', a) :: m => if decide (k' = k) then Some a else kget m k
  end.

Definition kset (k : K) (a : A) (m : list (K * A)) : list (K * A) := (k, a) :: filter (fun p => p.1 <> k) m.

Lemma kget_Some_elem m k a : kget m k = Some a -> (k, a) ∈ m.
Proof.
  induction m as [|[k' a'] m IH]; cbn; [done|]. destruct (decide (k' = k)) as [->|]; [intros [= ->]; left|intros; right; auto].
Qed.

Lemma kget_filter m k k' : k' <> k -> kget (filter (fun p => p.1 <> k) m) k' = kget m k'.
Proof.
  intros Hne. induction m as [|[j a] m IH]; [done|]. rewrite filter_cons. cbn [fst]. destruct (decide (j <> k)) as [Hj|Hj]; cbn.
  - by rewrite IH.
  - destruct (decide (j = k)) as [->|]; [|done]. by rewrite decide_False.
Qed.

Lemma kget_kset m k a k' : kget (kset k a m) k' = if decide (k' = k) then Some a else kget m k'.
Proof.
  unfold kset. cbn. destruct (decide (k = k')) as [->|Hne]; [by rewrite decide_True|]. rewrite decide_False by done.
  by apply kget_filter.
Qed.

Lemma kget_None_notin m k : kget m k = None <-> k ∉ m.*1.
Proof.
  induction m as [|[k' a] m IH]; [split; [intros _ ?%elem_of_nil|]; done|]. cbn. rewrite not_elem_of_cons.
  destruct (decide (k' = k)) as [->|Hne]; [split; [done|by intros []]|]. rewrite IH. split; [by intros|by intros []].
Qed.

Lemma kget_is_Some m k : is_Some (kget m k) <-> k ∈ m.*1.
Proof. pose proof (kget_None_notin m k) as H. destruct (kget m k); split; [intros _|by eexists|by intros []|]; destruct (decide (k ∈ m.*1)); naive_solver. Qed.

Lemma kset_fresh m k a : kget m k = None -> kset k a m = (k, a) :: m.
Proof.
  intros H. unfold kset. f_equal. apply kget_None_notin in H. induction m as [|[j b] m IH]; [done|].
  cbn in H. apply not_elem_of_cons in H as [H1 H2]. rewrite filter_cons_True by (cbn; congruence). f_equal. by apply IH.
Qed.

Lemma kset_NoDup m k a : NoDup m.*1 -> NoDup (kset k a m).*1.
Proof.
  intros H. unfold kset. cbn. apply NoDup_cons. split.
  - intros ([j b] & -> & [Hj _]%list_elem_of_filter)%list_elem_of_fmap. by apply Hj.
  - induction m as [|[j b] m IH]; [constructor|]. cbn in H. apply NoDup_cons in H as [H1 H2]. rewrite filter_cons.
    destruct (decide _); [|by apply IH]. cbn. apply NoDup_cons. split; [|by apply IH].
    intros ([i c] & -> & [_ Hi]%list_elem_of_filter)%list_elem_of_fmap. apply H1, list_elem_of_fmap. by exists (i, c).
Qed.
End Keyed.
