(* ===== verification/Tree.v ===== *)
(** * The radix-4 transaction tree (lib/src/tree/mod.rs)

    [Tree::new] lays out a tree over [nb_leaves] leaves as one vector: the
    leaves first, then the internal nodes, each pushed after its children, up
    to the root, which is last.  This file models the construction loop as it
    is written, the iterators over a node's leaves and over a branch, and the
    index lookups, and proves the shape that every user of the tree relies on:
    parents and children agree, the leaves of a node are those of its children,
    and the nodes that hold a leaf are exactly the branch of that leaf. *)
From Equations Require Import Equations.
From S2P Require Import Prelude.

Open Scope nat_scope.

Definition RADIX : nat := 4.

(** [u32] and [usize] indices are natural numbers here; [nb_nodes_bound] shows
    that the casts between them are exact up to 2^31 leaves. *)
Record Node := mkNode {
  node_idx : nat;
  node_parent : option nat;
  node_children : list (option nat);
  node_leaves : nat * nat;
  nb_tree_leaves : nat;
  node_level : nat;
}.

Record Tree := mkTree {
  nodes : list Node;
  tree_nb_leaves : nat;
}.

Definition new_leaf (idx nb_tree_leaves : nat) : Node :=
  mkNode idx None (replicate RADIX None)
    (idx, (idx + 1) `mod` nb_tree_leaves) nb_tree_leaves 0.

Definition set_parent (n : Node) (p : nat) : Node :=
  mkNode (node_idx n) (Some p) (node_children n) (node_leaves n)
    (nb_tree_leaves n) (node_level n).

(** [Node::children]. *)
Definition children (n : Node) : list nat := omap id (node_children n).

(** [take_while]. *)
Fixpoint take_while {A} (p : A -> bool) (l : list A) : list A :=
  match l with
  | [] => []
  | a :: l' => if p a then a :: take_while p l' else []
  end.

(** [Node::leaves]: from [first], at most [nb] leaves, wrapping around, until
    the exclusive bound [last]. *)
Definition leaves (n : Node) : list nat :=
  let '(first, last) := node_leaves n in
  let nb := nb_tree_leaves n in
  take_while (fun e => bool_decide (first = last) || negb (bool_decide (e = last)))
    ((fun e => e `mod` nb) <$> seq first nb).

Definition is_leaf (n : Node) : bool := forallb (fun o => bool_decide (o = None)) (node_children n).
Definition is_root (n : Node) : bool := bool_decide (node_parent n = None).

(** [Tree::nb_nodes_for_leaves]: the loop runs while more than one node is
    left; [fuel] bounds its iterations. *)
Fixpoint nb_nodes_loop (fuel ret left : nat) : option nat :=
  match fuel with
  | O => None
  | S fuel' =>
      if 1 <? left then
        let radix := Nat.min left RADIX in
        nb_nodes_loop fuel' (ret + 1) (left - radix + 1)
      else Some ret
  end.

Definition nb_nodes_for_leaves (nb_leaves : nat) : option nat :=
  nb_nodes_loop (S nb_leaves) nb_leaves nb_leaves.

(** The inner loop of [Tree::new]: it hands up to [slots] nodes from [cursor]
    on to the node that is about to be pushed.  [children] is the array being
    filled; the result is the nodes with their parent set, the new cursor, the
    children and the highest level among them. *)
Fixpoint take_children (slots : nat) (ns : list Node) (cursor nb_children : nat)
    (children : list (option nat)) (max_child_level : nat)
  : list Node * nat * list (option nat) * nat :=
  match slots with
  | O => (ns, cursor, children, max_child_level)
  | S slots' =>
      match ns !! cursor with
      | None => (ns, cursor, children, max_child_level)
      | Some child =>
          let children := <[nb_children := Some cursor]> children in
          let new_idx := length ns in
          let ns := <[cursor := set_parent child new_idx]> ns in
          let max_child_level :=
            if max_child_level <? node_level child then node_level child else max_child_level in
          take_children slots' ns (cursor + 1) (nb_children + 1) children max_child_level
      end
  end.

(** The node pushed at the end of an iteration.  [children.first().unwrap()]
    and [last()] are the first and the last filled slot; the lookups panic when
    they fail. *)
Definition push_parent (nb_leaves : nat) (ns : list Node) (children : list (option nat))
    (max_child_level : nat) : option (list Node) :=
  first_idx ← mjoin (head children);
  last_idx ← last (omap id children);
  first_node ← ns !! first_idx;
  last_node ← ns !! last_idx;
  Some (ns ++ [mkNode (length ns) None children
                 ((node_leaves first_node).1, (node_leaves last_node).2)
                 nb_leaves (max_child_level + 1)]).

Fixpoint build_loop (fuel nb_leaves : nat) (ns : list Node) (cursor : nat) : option (list Node) :=
  match fuel with
  | O => None
  | S fuel' =>
      if cursor <? length ns - 1 then
        let '(ns, cursor, children, max_child_level) :=
          take_children RADIX ns cursor 0 (replicate RADIX None) 0 in
        ns ← push_parent nb_leaves ns children max_child_level;
        build_loop fuel' nb_leaves ns cursor
      else Some ns
  end.

(** [Tree::new].  [None] is the panic of [assert_ne!(nb_leaves, 0)]. *)
Definition new (nb_leaves : nat) : option Tree :=
  if bool_decide (nb_leaves = 0) then None
  else
    ns ← build_loop (S nb_leaves) nb_leaves ((fun i => new_leaf i nb_leaves) <$> seq 0 nb_leaves) 0;
    Some (mkTree ns nb_leaves).

Definition nb_nodes (t : Tree) : nat := length (nodes t).
Definition root (t : Tree) : option Node := last (nodes t).

(** [BranchIter]: follow the parents from [cursor]; [nodes[cursor]] panics when
    out of range, which ends the list here ([branch_in_range] excludes it). *)
Fixpoint branch_loop (fuel : nat) (t : Tree) (cursor : option nat) : list Node :=
  match fuel, cursor with
  | S fuel', Some c =>
      match nodes t !! c with
      | Some n => n :: branch_loop fuel' t (node_parent n)
      | None => []
      end
  | _, _ => []
  end.

Definition iter_branch (t : Tree) (leaf_idx : nat) : list Node :=
  branch_loop (nb_nodes t) t (Some leaf_idx).

Definition parent_idx_of (t : Tree) (idx : nat) : option nat :=
  n ← nodes t !! idx; node_parent n.

(** [iter.position(p)]. *)
Fixpoint position {A} (p : A -> bool) (l : list A) : option nat :=
  match l with
  | [] => None
  | a :: l' => if p a then Some 0 else S <$> position p l'
  end.

(** [None] inside is the panic "broken tree". *)
Definition parent_idx_of_with_sibling_idx (t : Tree) (idx : nat) : option (option (nat * nat)) :=
  match parent_idx_of t idx with
  | None => Some None
  | Some p =>
      pn ← nodes t !! p;
      child_idx ← position (fun c => bool_decide (c = Some idx)) (node_children pn);
      Some (Some (node_idx pn, child_idx))
  end.

(** ** The shape of the tree in closed form

    Node [n + j] of a tree over [n] leaves is pushed by iteration [j] and has
    the (at most four) children starting at [4 * j]; the parent of node [i] is
    therefore [n + i / 4]. *)
Definition kids (n j : nat) : list nat := seq (4 * j) (4 `min` (n - 3 * j)).

Definition slots (l : list nat) : list (option nat) :=
  (Some <$> l) ++ replicate (RADIX - length l) None.

Definition nb_inner (n : nat) : nat := (n + 1) / 3.

(** The number of nodes that have a parent after [j] iterations. *)
Definition cursor_after (n j : nat) : nat := (4 * j) `min` (n + j - 1).

Definition level_at (ns : list Node) (i : nat) : nat := default 0 (node_level <$> ns !! i).
Definition range_at (ns : list Node) (i : nat) : nat * nat :=
  default (0, 0) (node_leaves <$> ns !! i).

Definition node_ok (n : nat) (ns : list Node) (i : nat) (nd : Node) : Prop :=
  node_idx nd = i /\ nb_tree_leaves nd = n /\
  if i <? n then
    node_children nd = replicate RADIX None /\
    node_leaves nd = (i, (i + 1) `mod` n) /\ node_level nd = 0
  else
    let ks := kids n (i - n) in
    node_children nd = slots ks /\
    node_leaves nd = ((range_at ns (4 * (i - n))).1,
                      (range_at ns (4 * (i - n) + length ks - 1)).2) /\
    node_level nd = max_list_with (level_at ns) ks + 1.

Definition parent_upto (n cur i : nat) : option nat :=
  if i <? cur then Some (n + i / 4) else None.

(** The state of the construction loop after [j] iterations. *)
Record build_inv (n j : nat) (ns : list Node) : Prop := {
  inv_length : length ns = n + j;
  inv_node : forall i nd, ns !! i = Some nd -> node_ok n ns i nd;
  inv_parent : forall i nd, ns !! i = Some nd ->
    node_parent nd = parent_upto n (cursor_after n j) i;
}.

(** What [Tree::new n] returns. *)
Record tree_ok (n : nat) (t : Tree) : Prop := {
  ok_leaves : tree_nb_leaves t = n;
  ok_length : nb_nodes t = n + nb_inner n;
  ok_node : forall i nd, nodes t !! i = Some nd -> node_ok n (nodes t) i nd;
  ok_parent : forall i nd, nodes t !! i = Some nd ->
    node_parent nd = parent_upto n (n + nb_inner n - 1) i;
}.

Definition mark (ns : list Node) (c cnt : nat) : list Node :=
  imap (fun i nd => if (c <=? i) && (i <? c + cnt) then set_parent nd (length ns) else nd) ns.

Lemma lookup_mark ns c cnt i :
  mark ns c cnt !! i =
  (fun nd => if (c <=? i) && (i <? c + cnt) then set_parent nd (length ns) else nd) <$> ns !! i.
Proof. unfold mark. by rewrite list_lookup_imap. Qed.

Lemma length_mark ns c cnt : length (mark ns c cnt) = length ns.
Proof. unfold mark. by rewrite length_imap. Qed.

Lemma mark_zero ns c : mark ns c 0 = ns.
Proof.
  apply list_eq. intros i. rewrite lookup_mark.
  destruct (ns !! i); cbn [fmap option_fmap option_map]; [|done]. f_equal.
  destruct (Nat.leb_spec c i), (Nat.ltb_spec i (c + 0)); cbn; done || lia.
Qed.

Lemma mark_step ns c cnt child :
  ns !! c = Some child ->
  mark (<[c := set_parent child (length ns)]> ns) (c + 1) cnt = mark ns c (S cnt).
Proof.
  intros Hc. pose proof (lookup_lt_Some _ _ _ Hc) as Hlt.
  apply list_eq. intros i. rewrite !lookup_mark, length_insert.
  destruct (decide (i = c)) as [->|Hne].
  - rewrite list_lookup_insert_eq by done. rewrite Hc. cbn [fmap option_fmap option_map]. f_equal.
    rewrite Nat.leb_refl. destruct (Nat.leb_spec (c + 1) c); [lia|].
    by destruct (Nat.ltb_spec c (c + S cnt)); [|lia].
  - rewrite list_lookup_insert_ne by done. destruct (ns !! i); cbn [fmap option_fmap option_map]; [|done]. f_equal.
    destruct (Nat.leb_spec (c + 1) i), (Nat.leb_spec c i), (Nat.ltb_spec i (c + 1 + cnt)),
      (Nat.ltb_spec i (c + S cnt)); cbn; done || lia.
Qed.

Lemma level_at_insert ns c child p i :
  ns !! c = Some child -> level_at (<[c := set_parent child p]> ns) i = level_at ns i.
Proof.
  intros Hc. unfold level_at. destruct (decide (i = c)) as [->|Hne].
  - rewrite list_lookup_insert_eq by eauto using lookup_lt_Some. by rewrite Hc.
  - by rewrite list_lookup_insert_ne.
Qed.

Lemma slots_grow c k s :
  <[k := Some (c + k)]> ((Some <$> seq c k) ++ replicate (S s) None) =
  (Some <$> seq c (k + 1)) ++ replicate s None.
Proof.
  rewrite insert_app_r_alt by (rewrite length_fmap, length_seq; lia).
  rewrite length_fmap, length_seq, Nat.sub_diag. cbn.
  rewrite seq_app, fmap_app, <- app_assoc. done.
Qed.

(** The inner loop takes [slots] nodes, or as many as are left. *)
Lemma take_children_spec s : forall ns c0 k m,
  let cur := c0 + k in
  let cnt := s `min` (length ns - cur) in
  take_children s ns cur k ((Some <$> seq c0 k) ++ replicate s None) m =
  (mark ns cur cnt, cur + cnt,
   (Some <$> seq c0 (k + cnt)) ++ replicate (s - cnt) None,
   m `max` max_list_with (level_at ns) (seq cur cnt)).
Proof.
  induction s as [|s IH]; intros ns c0 k m cur cnt.
  - subst cnt. cbn. rewrite mark_zero, !Nat.add_0_r. by rewrite Nat.max_0_r.
  - subst cnt cur. cbn [take_children].
    destruct (ns !! (c0 + k)) as [child|] eqn:Hc.
    + pose proof (lookup_lt_Some _ _ _ Hc) as Hlt.
      rewrite slots_grow.
      replace (c0 + k + 1) with (c0 + (k + 1)) by lia.
      rewrite IH, length_insert.
      replace (S s `min` (length ns - (c0 + k)))
        with (S (s `min` (length ns - (c0 + (k + 1))))) by lia.
      set (cnt := s `min` (length ns - (c0 + (k + 1)))).
      replace (c0 + (k + 1)) with (c0 + k + 1) by lia.
      rewrite (mark_step _ _ _ _ Hc). cbn [seq max_list_with].
      assert (level_at ns (c0 + k) = node_level child) as ->
        by (unfold level_at; by rewrite Hc).
      replace (S (c0 + k)) with (c0 + k + 1) by lia.
      replace (max_list_with (level_at (<[c0 + k:=set_parent child (length ns)]> ns))
        (seq (c0 + k + 1) cnt)) with (max_list_with (level_at ns) (seq (c0 + k + 1) cnt)).
      2: { generalize (seq (c0 + k + 1) cnt) as l. induction l as [|a l IHl]; cbn; [done|].
           by rewrite IHl, level_at_insert. }
      replace (c0 + k + 1 + cnt) with (c0 + k + S cnt) by lia.
      replace (k + 1 + cnt) with (k + S cnt) by lia.
      replace (S s - S cnt) with (s - cnt) by lia.
      f_equal.
      destruct (Nat.ltb_spec m (node_level child)); lia.
    + apply lookup_ge_None in Hc.
      replace (S s `min` (length ns - (c0 + k))) with 0 by lia.
      rewrite mark_zero, !Nat.add_0_r, Nat.sub_0_r. cbn [seq max_list_with]. by rewrite Nat.max_0_r.
Qed.

(** ** The construction loop keeps the invariant *)

Lemma mark_same_core ns c cnt i :
  level_at (mark ns c cnt) i = level_at ns i /\ range_at (mark ns c cnt) i = range_at ns i.
Proof.
  unfold level_at, range_at. rewrite lookup_mark.
  destruct (ns !! i); cbn [fmap option_fmap option_map]; [|done].
  by destruct (_ && _).
Qed.

Lemma app_same_core ns nd i :
  i < length ns -> level_at (ns ++ [nd]) i = level_at ns i /\ range_at (ns ++ [nd]) i = range_at ns i.
Proof. intros H. unfold level_at, range_at. by rewrite lookup_app_l. Qed.

Lemma kids_lt n j c : 3 * j < n - 1 -> In c (kids n j) -> c < n + j.
Proof. unfold kids. rewrite in_seq. lia. Qed.

Lemma max_list_with_ext {A} (f g : A -> nat) l :
  (forall x, In x l -> f x = g x) -> max_list_with f l = max_list_with g l.
Proof. induction l as [|a l IH]; cbn; intros H; [done|]. rewrite (H a), IH; auto. Qed.

Lemma max_list_with_le {A} (f : A -> nat) l x : In x l -> f x <= max_list_with f l.
Proof. induction l as [|a l IH]; cbn; intros Hx; [done|]. destruct Hx as [->|Hx]; [|specialize (IH Hx)]; lia. Qed.

(** [node_ok] looks at the nodes below [i] only. *)
Lemma node_ok_ext n ns ns' i nd :
  (forall c, c < i -> level_at ns' c = level_at ns c /\ range_at ns' c = range_at ns c) ->
  (n <= i -> 3 * (i - n) < n - 1) ->
  node_ok n ns i nd -> node_ok n ns' i nd.
Proof.
  intros Hsame Hi (Hidx & Hnb & Hbody). split_and!; [done..|].
  destruct (Nat.ltb_spec i n) as [Hlt|Hge]; [done|].
  specialize (Hi Hge). destruct Hbody as (Hch & Hlv & Hlev).
  assert (0 < length (kids n (i - n)) <= 4 /\ 4 * (i - n) + length (kids n (i - n)) <= i) as [Hlen Hle].
  { unfold kids. rewrite length_seq. lia. }
  split_and!; [done|..].
  - rewrite Hlv. destruct (Hsame (4 * (i - n))) as [_ ->]; [lia|].
    by destruct (Hsame (4 * (i - n) + length (kids n (i - n)) - 1)) as [_ ->]; [lia|].
  - rewrite Hlev. f_equal. apply max_list_with_ext. intros c Hc. symmetry.
    apply Hsame. apply kids_lt in Hc; lia.
Qed.

Lemma node_ok_set_parent n ns i nd p : node_ok n ns i nd -> node_ok n ns i (set_parent nd p).
Proof. done. Qed.

Lemma omap_slots l : omap id (slots l) = l.
Proof.
  unfold slots. rewrite omap_app.
  assert (omap id (replicate (RADIX - length l) None) = ([] : list nat)) as ->.
  { induction (RADIX - length l); done. }
  rewrite app_nil_r. induction l as [|a l IH]; [done|]. cbn. by f_equal.
Qed.

Lemma kids_eq n j : 3 * j < n - 1 ->
  kids n j = 4 * j :: seq (4 * j + 1) (length (kids n j) - 1) /\
  last (kids n j) = Some (4 * j + length (kids n j) - 1).
Proof.
  intros H. unfold kids. rewrite length_seq.
  destruct (4 `min` (n - 3 * j)) as [|k] eqn:Hk; [lia|]. split.
  - cbn [seq]. replace (S k - 1) with k by lia. by rewrite Nat.add_1_r.
  - replace (S k) with (k + 1) by lia. rewrite seq_app. cbn [seq]. rewrite last_snoc. f_equal. lia.
Qed.

Lemma push_parent_spec n j ns m :
  3 * j < n - 1 -> length ns = n + j ->
  push_parent n ns (slots (kids n j)) m =
  Some (ns ++ [mkNode (n + j) None (slots (kids n j))
                 ((range_at ns (4 * j)).1, (range_at ns (4 * j + length (kids n j) - 1)).2)
                 n (m + 1)]).
Proof.
  intros Hj Hlen. destruct (kids_eq n j Hj) as [Hk Hlast].
  assert (length (kids n j) <= n - 3 * j) as Hkl by (unfold kids; rewrite length_seq; lia).
  unfold push_parent. rewrite omap_slots, Hlast.
  assert (head (slots (kids n j)) = Some (Some (4 * j))) as -> by (by rewrite Hk).
  cbn [mjoin option_join mbind option_bind]. unfold range_at.
  destruct (lookup_lt_is_Some_2 ns (4 * j)) as [a Ha]; [lia|].
  destruct (lookup_lt_is_Some_2 ns (4 * j + length (kids n j) - 1)) as [b Hb]; [lia|].
  rewrite Ha, Hb, Hlen. done.
Qed.

(** *** One iteration of the outer loop

    [step_nodes] is the vector after iteration [j]: the children marked, then
    the new node. *)
Definition step_nodes (n j : nat) (ns : list Node) : list Node :=
  let ns1 := mark ns (4 * j) (length (kids n j)) in
  ns1 ++ [mkNode (n + j) None (slots (kids n j))
            ((range_at ns1 (4 * j)).1, (range_at ns1 (4 * j + length (kids n j) - 1)).2)
            n (max_list_with (level_at ns) (kids n j) + 1)].

Lemma length_kids n j : length (kids n j) = 4 `min` (n - 3 * j).
Proof. unfold kids. by rewrite length_seq. Qed.

Lemma length_step_nodes n j ns : length (step_nodes n j ns) = S (length ns).
Proof. unfold step_nodes. rewrite length_app, length_mark. cbn. lia. Qed.

Lemma step_same_core n j ns i :
  i < length ns ->
  level_at (step_nodes n j ns) i = level_at ns i /\ range_at (step_nodes n j ns) i = range_at ns i.
Proof.
  intros Hi. unfold step_nodes. cbn zeta.
  destruct (app_same_core (mark ns (4 * j) (length (kids n j)))
    (mkNode (n + j) None (slots (kids n j))
            ((range_at (mark ns (4 * j) (length (kids n j))) (4 * j)).1,
             (range_at (mark ns (4 * j) (length (kids n j))) (4 * j + length (kids n j) - 1)).2)
            n (max_list_with (level_at ns) (kids n j) + 1)) i) as [-> ->];
    [by rewrite length_mark|]. apply mark_same_core.
Qed.

Lemma lookup_step_nodes n j ns i nd :
  step_nodes n j ns !! i = Some nd ->
  (i < length ns /\ exists nd0, ns !! i = Some nd0 /\
     nd = if (4 * j <=? i) && (i <? 4 * j + length (kids n j)) then set_parent nd0 (length ns) else nd0)
  \/ (i = length ns /\ nd = mkNode (n + j) None (slots (kids n j))
      ((range_at ns (4 * j)).1, (range_at ns (4 * j + length (kids n j) - 1)).2)
      n (max_list_with (level_at ns) (kids n j) + 1)).
Proof.
  unfold step_nodes. cbn zeta. intros Hi. apply lookup_app_Some in Hi as [Hi|[Hge Hi]].
  - left. rewrite lookup_mark in Hi. apply fmap_Some in Hi as (nd0 & Hi & ->).
    split; [by eapply lookup_lt_Some|]. by exists nd0.
  - right. rewrite length_mark in *. apply list_lookup_singleton_Some in Hi as [Hi <-].
    split; [lia|].
    destruct (mark_same_core ns (4 * j) (length (kids n j)) (4 * j)) as [_ ->].
    by destruct (mark_same_core ns (4 * j) (length (kids n j)) (4 * j + length (kids n j) - 1))
      as [_ ->].
Qed.

Lemma build_step_node n j ns :
  build_inv n j ns -> 3 * j < n - 1 ->
  forall i nd, step_nodes n j ns !! i = Some nd -> node_ok n (step_nodes n j ns) i nd.
Proof.
  intros [Hlen Hnode _] Hj i nd Hi.
  apply node_ok_ext with ns.
  - intros c Hc. apply step_same_core.
    apply lookup_lt_Some in Hi. rewrite length_step_nodes in Hi. lia.
  - apply lookup_lt_Some in Hi. rewrite length_step_nodes in Hi. lia.
  - apply lookup_step_nodes in Hi as [(Hlt & nd0 & Hi & ->)|[-> ->]].
    + destruct (_ && _); [apply node_ok_set_parent|]; by apply Hnode.
    + rewrite Hlen. split_and!; [done..|].
      destruct (Nat.ltb_spec (n + j) n); [lia|]. by replace (n + j - n) with j by lia.
Qed.

Lemma build_step_parent n j ns :
  build_inv n j ns -> 3 * j < n - 1 ->
  forall i nd, step_nodes n j ns !! i = Some nd ->
    node_parent nd = parent_upto n (cursor_after n (S j)) i.
Proof.
  intros [Hlen _ Hpar] Hj i nd Hi. pose proof (length_kids n j) as Hk.
  apply lookup_step_nodes in Hi as [(Hlt & nd0 & Hi & ->)|[-> ->]].
  - specialize (Hpar _ _ Hi). unfold parent_upto, cursor_after in *.
    destruct (Nat.leb_spec (4 * j) i), (Nat.ltb_spec i (4 * j + length (kids n j)));
      cbn [andb set_parent node_parent]; rewrite ?Hpar;
      destruct (Nat.ltb_spec i ((4 * j) `min` (n + j - 1))),
        (Nat.ltb_spec i ((4 * S j) `min` (n + S j - 1))); try done; try lia.
    rewrite Hlen. do 2 f_equal. apply (Nat.div_unique _ _ _ (i - 4 * j)); lia.
  - unfold parent_upto, cursor_after. rewrite Hlen. cbn [node_parent].
    by destruct (Nat.ltb_spec (n + j) ((4 * S j) `min` (n + S j - 1))); [lia|].
Qed.

Lemma build_step_loop n j ns fuel :
  length ns = n + j -> 3 * j < n - 1 ->
  build_loop (S fuel) n ns (cursor_after n j) =
  build_loop fuel n (step_nodes n j ns) (cursor_after n (S j)).
Proof.
  intros Hlen Hj. pose proof (length_kids n j) as Hk.
  assert (cursor_after n j = 4 * j) as -> by (unfold cursor_after; lia).
  cbn [build_loop]. destruct (Nat.ltb_spec (4 * j) (length ns - 1)); [|lia].
  pose proof (take_children_spec RADIX ns (4 * j) 0 0) as Htc. cbn zeta in Htc.
  rewrite !Nat.add_0_r in Htc. change ((Some <$> seq (4 * j) 0) ++ ?r) with r in Htc.
  rewrite Htc. clear Htc.
  replace (RADIX `min` (length ns - 4 * j)) with (length (kids n j)) by (unfold RADIX; lia).
  assert (seq (4 * j) (length (kids n j)) = kids n j) as Hseq by (by rewrite Hk).
  rewrite Nat.add_0_l, Hseq. change (_ ++ replicate _ None) with (slots (kids n j)).
  rewrite push_parent_spec by (rewrite ?length_mark; done). cbn [mbind option_bind].
  rewrite Nat.max_0_l. fold (step_nodes n j ns). f_equal. unfold cursor_after. lia.
Qed.

Lemma build_step n j ns :
  build_inv n j ns -> 3 * j < n - 1 -> build_inv n (S j) (step_nodes n j ns).
Proof.
  intros Hinv Hj. split.
  - rewrite length_step_nodes, (inv_length _ _ _ Hinv). lia.
  - by apply build_step_node.
  - by apply build_step_parent.
Qed.

Lemma build_init n : 0 < n -> build_inv n 0 ((fun i => new_leaf i n) <$> seq 0 n).
Proof.
  intros Hn. split.
  - rewrite length_fmap, length_seq. lia.
  - intros i nd Hi. apply list_lookup_fmap_Some in Hi as (k & -> & Hk).
    apply lookup_seq in Hk as [-> Hlt]. split_and!; [done..|].
    rewrite Nat.add_0_l. by destruct (Nat.ltb_spec i n); [|lia].
  - intros i nd Hi. apply list_lookup_fmap_Some in Hi as (k & -> & Hk).
    unfold parent_upto, cursor_after. destruct (Nat.ltb_spec i ((4 * 0) `min` (n + 0 - 1))); [lia|done].
Qed.

Lemma nb_inner_spec n : 0 < n -> 3 * nb_inner n = n - 1 \/ 3 * nb_inner n = n \/ 3 * nb_inner n = n + 1.
Proof.
  intros Hn. unfold nb_inner. pose proof (Nat.div_mod_eq (n + 1) 3).
  pose proof (Nat.mod_upper_bound (n + 1) 3). lia.
Qed.

(** The loop ends after [nb_inner n] iterations. *)
Lemma build_loop_spec n fuel j ns :
  0 < n -> build_inv n j ns -> j <= nb_inner n -> nb_inner n - j < fuel ->
  exists ns', build_loop fuel n ns (cursor_after n j) = Some ns' /\ build_inv n (nb_inner n) ns'.
Proof.
  intros Hn. pose proof (nb_inner_spec n Hn) as Hm.
  revert j ns. induction fuel as [|fuel IH]; intros j ns Hinv Hj Hfuel; [lia|].
  destruct (decide (3 * j < n - 1)) as [Hlt|Hge].
  - rewrite build_step_loop by (auto using inv_length).
    apply IH; [by apply build_step|lia..].
  - assert (j = nb_inner n) as -> by lia.
    exists ns. split; [|done]. cbn [build_loop].
    destruct (Nat.ltb_spec (cursor_after n (nb_inner n)) (length ns - 1)); [|done].
    rewrite (inv_length _ _ _ Hinv) in *. unfold cursor_after in *. lia.
Qed.

Lemma new_spec n : 0 < n -> exists t, new n = Some t /\ tree_ok n t.
Proof.
  intros Hn. pose proof (nb_inner_spec n Hn) as Hm.
  destruct (build_loop_spec n (S n) 0 _ Hn (build_init n Hn)) as (ns & Hns & [Hl Hnd Hp]); [lia..|].
  unfold new. case_bool_decide; [lia|].
  change (cursor_after n 0) with 0 in Hns. rewrite Hns. cbn [mbind option_bind].
  eexists. split; [done|]. split; [done..|]. cbn [nodes]. intros i nd Hi.
  rewrite (Hp _ _ Hi). f_equal. unfold cursor_after. lia.
Qed.

Lemma new_zero : new 0 = None.
Proof. done. Qed.

Lemma new_tree_ok n t : new n = Some t -> 0 < n /\ tree_ok n t.
Proof.
  intros H. destruct (decide (n = 0)) as [->|Hn]; [done|].
  destruct (new_spec n) as (t' & Ht & Hok); [lia|]. split; [lia|congruence].
Qed.

(** ** The leaves below a node

    Reading the leaves of the nodes in index order, node after node, walks
    around the cycle of the [n] leaves without a gap: [apos n i] is the total
    number of leaves passed before node [i].  Node [i] covers the positions
    from [apos n i] to [apos n (i + 1)], modulo [n]. *)
Equations? apos (n i : nat) : nat by wf i lt :=
  apos n i with le_lt_dec i n => {
    | left _ := i;
    | right _ := n + apos n ((4 * (i - n)) `min` (i - 1)) }.
Proof. lia. Qed.

Lemma apos_small n i : i <= n -> apos n i = i.
Proof. intros H. simp apos. by destruct (le_lt_dec i n); [|lia]. Qed.

Lemma apos_big n i : n < i -> apos n i = n + apos n ((4 * (i - n)) `min` (i - 1)).
Proof. intros H. rewrite apos_equation_1 at 1. by destruct (le_lt_dec i n); [lia|]. Qed.

Lemma apos_lt n i : 0 < n -> apos n i < apos n (S i).
Proof.
  intros Hn. induction i as [i IH] using lt_wf_ind.
  assert (forall a b, a < b -> b <= i -> apos n a < apos n b) as Hmono.
  { intros a b Hab Hb. induction Hab as [|b Hab IHb]; [apply IH; lia|].
    transitivity (apos n b); [apply IHb; lia|apply IH; lia]. }
  destruct (decide (i < n)).
  - rewrite !apos_small by lia. lia.
  - rewrite (apos_big n (S i)) by lia. destruct (decide (i = n)) as [->|].
    + rewrite (apos_small n n), (apos_small n (_ `min` _)) by lia. lia.
    + rewrite (apos_big n i) by lia. apply Nat.add_lt_mono_l, Hmono; lia.
Qed.

Lemma apos_le n a b : 0 < n -> a <= b -> apos n a <= apos n b.
Proof.
  intros Hn. induction 1 as [|b _ IH]; [done|]. pose proof (apos_lt n b Hn). lia.
Qed.

(** The nodes waiting for a parent cover every leaf exactly once. *)
Lemma apos_queue n j : 3 * j <= n - 1 -> 0 < n -> apos n (n + j) = n + apos n (4 * j).
Proof.
  intros Hj Hn. destruct (decide (j = 0)) as [->|].
  - rewrite !apos_small by lia. lia.
  - rewrite apos_big by lia. do 2 f_equal. lia.
Qed.

Lemma apos_kids n j : 3 * j < n - 1 ->
  apos n (n + S j) = n + apos n (4 * j + length (kids n j)).
Proof. intros Hj. rewrite length_kids, apos_big by lia. do 2 f_equal. lia. Qed.

(** [cyc n a k]: the [k] leaves from position [a] on. *)
Definition cyc (n a k : nat) : list nat := (fun e => e `mod` n) <$> seq a k.

Lemma cyc_app n a k k' : cyc n a (k + k') = cyc n a k ++ cyc n (a + k) k'.
Proof. unfold cyc. by rewrite seq_app, fmap_app. Qed.

Lemma mod_ne n x y : x < y -> y < x + n -> x `mod` n <> y `mod` n.
Proof.
  intros Hxy Hyn Heq. pose proof (Nat.div_mod_eq x n). pose proof (Nat.div_mod_eq y n).
  destruct (le_lt_dec (y / n) (x / n)) as [Hle|Hle].
  - pose proof (Nat.mul_le_mono_l _ _ n Hle). lia.
  - apply Nat.le_succ_l in Hle. pose proof (Nat.mul_le_mono_l _ _ n Hle). lia.
Qed.

Lemma cyc_mod n a k : 0 < n -> cyc n (a `mod` n) k = cyc n a k.
Proof.
  intros Hn. unfold cyc. revert a. induction k as [|k IH]; intros a; [done|].
  cbn [seq]. rewrite !fmap_cons, Nat.Div0.mod_mod. f_equal.
  rewrite <- (IH (S a)), <- (IH (S (a `mod` n))). do 2 f_equal.
  rewrite <- (Nat.add_1_l (a `mod` n)), <- (Nat.add_1_l a). apply Nat.Div0.add_mod_idemp_r.
Qed.

Lemma cyc_NoDup n a k : k <= n -> NoDup (cyc n a k).
Proof.
  intros Hk. apply NoDup_alt. intros i j x Hi Hj. unfold cyc in *.
  apply list_lookup_fmap_Some in Hi as (p & -> & Hp), Hj as (q & Heq & Hq).
  apply lookup_seq in Hp as [-> Hp], Hq as [-> Hq].
  destruct (lt_eq_lt_dec i j) as [[Hlt|]|Hlt]; [|done|]; exfalso.
  - by apply (mod_ne n (a + i) (a + j)); [lia..|].
  - by apply (mod_ne n (a + j) (a + i)); [lia..|].
Qed.

Lemma take_while_all {A} (p : A -> bool) l : (forall x, In x l -> p x = true) -> take_while p l = l.
Proof. induction l as [|a l IH]; cbn; intros H; [done|]. rewrite H, IH; auto. Qed.

Lemma take_while_stop {A} (p : A -> bool) l x k :
  (forall y, In y l -> p y = true) -> p x = false -> take_while p (l ++ x :: k) = l.
Proof.
  induction l as [|a l IH]; cbn; intros H Hx; [by rewrite Hx|]. rewrite H, IH; auto.
Qed.

(** The iterator stops where the range ends, also across the wrap-around. *)
Lemma take_range n a k : 1 <= k <= n ->
  let b := (a + k) `mod` n in
  take_while (fun e => bool_decide (a `mod` n = b) || negb (bool_decide (e = b))) (cyc n (a `mod` n) n)
  = cyc n a k.
Proof.
  intros Hk b. rewrite cyc_mod by lia. destruct (decide (k = n)) as [->|Hne].
  - apply take_while_all. intros x _. rewrite bool_decide_true; [done|]. subst b.
    replace (a + n) with (a + 1 * n) by lia. by rewrite Nat.Div0.mod_add.
  - rewrite (bool_decide_false (a `mod` n = b)) by (apply mod_ne; lia). cbn [orb].
    replace n with (k + S (n - k - 1)) at 2 by lia. rewrite cyc_app.
    apply take_while_stop.
    + intros y Hy. unfold cyc in Hy. apply list_elem_of_In, list_elem_of_fmap in Hy as (p & -> & Hp).
      apply elem_of_seq in Hp. rewrite bool_decide_false; [done|]. apply mod_ne; lia.
    + by rewrite bool_decide_true.
Qed.

Section TreeOk.
Context (n : nat) (t : Tree) (Hn : 0 < n) (Hok : tree_ok n t).

Lemma inner_bound i : i < nb_nodes t -> n <= i -> 3 * (i - n) < n - 1.
Proof. rewrite (ok_length _ _ Hok). pose proof (nb_inner_spec n Hn). lia. Qed.

Lemma node_at i : i < nb_nodes t -> exists nd, nodes t !! i = Some nd.
Proof. intros H. by apply lookup_lt_is_Some_2. Qed.

Lemma node_idx_at i nd : nodes t !! i = Some nd -> node_idx nd = i.
Proof. intros H. by apply (ok_node _ _ Hok). Qed.

Lemma leaf_node i nd : nodes t !! i = Some nd -> i < n ->
  node_children nd = replicate RADIX None /\ node_leaves nd = (i, (i + 1) `mod` n) /\ node_level nd = 0.
Proof.
  intros H Hi. destruct (ok_node _ _ Hok _ _ H) as (_ & _ & Hb).
  by destruct (Nat.ltb_spec i n); [|lia].
Qed.

Lemma inner_node i nd : nodes t !! i = Some nd -> n <= i ->
  let ks := kids n (i - n) in
  node_children nd = slots ks /\
  node_leaves nd = ((range_at (nodes t) (4 * (i - n))).1,
                    (range_at (nodes t) (4 * (i - n) + length ks - 1)).2) /\
  node_level nd = max_list_with (level_at (nodes t)) ks + 1.
Proof.
  intros H Hi. destruct (ok_node _ _ Hok _ _ H) as (_ & _ & Hb).
  by destruct (Nat.ltb_spec i n); [lia|].
Qed.

Lemma children_at i nd : nodes t !! i = Some nd ->
  children nd = if i <? n then [] else kids n (i - n).
Proof.
  intros H. unfold children. destruct (Nat.ltb_spec i n).
  - by rewrite (proj1 (leaf_node _ _ H ltac:(lia))).
  - rewrite (proj1 (inner_node _ _ H ltac:(lia))). apply omap_slots.
Qed.

Lemma mod_add_n a : (n + a) `mod` n = a `mod` n.
Proof. replace (n + a) with (a + 1 * n) by lia. apply Nat.Div0.mod_add. Qed.

Lemma inner_apos i : i < nb_nodes t -> n <= i -> apos n i = n + apos n (4 * (i - n)).
Proof.
  intros Hi Hge. pose proof (inner_bound i Hi Hge).
  rewrite <- apos_queue by lia. f_equal. lia.
Qed.

Lemma inner_apos_S i : i < nb_nodes t -> n <= i ->
  apos n (S i) = n + apos n (4 * (i - n) + length (kids n (i - n))).
Proof.
  intros Hi Hge. pose proof (inner_bound i Hi Hge).
  rewrite <- apos_kids by lia. f_equal. lia.
Qed.

(** The stored range of node [i], in terms of positions. *)
Lemma range_apos i : i < nb_nodes t ->
  range_at (nodes t) i = (apos n i `mod` n, apos n (S i) `mod` n).
Proof.
  induction i as [i IH] using lt_wf_ind. intros Hi.
  destruct (node_at i Hi) as [nd Hnd]. unfold range_at. rewrite Hnd.
  cbn [fmap option_fmap option_map default from_option].
  destruct (decide (i < n)).
  - rewrite (proj1 (proj2 (leaf_node _ _ Hnd ltac:(lia)))), !apos_small by lia.
    rewrite (Nat.mod_small i n) by lia. by rewrite Nat.add_1_r.
  - assert (n <= i) as Hge by lia. pose proof (inner_bound i Hi Hge) as Hj.
    pose proof (length_kids n (i - n)) as Hk.
    rewrite (proj1 (proj2 (inner_node _ _ Hnd ltac:(lia)))).
    rewrite (IH (4 * (i - n))), (IH (4 * (i - n) + length (kids n (i - n)) - 1)) by lia.
    cbn [fst snd].
    replace (S (4 * (i - n) + length (kids n (i - n)) - 1))
      with (4 * (i - n) + length (kids n (i - n))) by lia.
    rewrite (inner_apos i), (inner_apos_S i) by done. by rewrite !mod_add_n.
Qed.

(** A node covers at least one leaf and at most all of them. *)
Lemma apos_width i : i < nb_nodes t -> apos n i < apos n (S i) <= apos n i + n.
Proof.
  intros Hi. split; [by apply apos_lt|]. destruct (decide (i < n)).
  - rewrite !apos_small by lia. lia.
  - pose proof (inner_bound i Hi ltac:(lia)). pose proof (length_kids n (i - n)).
    rewrite inner_apos_S by lia.
    rewrite (Nat.add_comm n). apply Nat.add_le_mono_r, apos_le; lia.
Qed.

Lemma leaves_apos i nd : nodes t !! i = Some nd ->
  leaves nd = cyc n (apos n i) (apos n (S i) - apos n i).
Proof.
  intros Hi. pose proof (lookup_lt_Some _ _ _ Hi) as Hlt.
  pose proof (apos_width i Hlt) as Hw. pose proof (range_apos i Hlt) as Hr.
  unfold range_at in Hr. rewrite Hi in Hr. cbn in Hr.
  unfold leaves. rewrite Hr, (proj1 (proj2 (ok_node _ _ Hok _ _ Hi))).
  pose proof (take_range n (apos n i) (apos n (S i) - apos n i) ltac:(lia)) as Htr.
  cbn zeta in Htr.
  replace (apos n i + (apos n (S i) - apos n i)) with (apos n (S i)) in Htr by lia.
  rewrite <- Htr. done.
Qed.

Lemma apos_concat a k :
  concat ((fun c => cyc n (apos n c) (apos n (S c) - apos n c)) <$> seq a k)
  = cyc n (apos n a) (apos n (a + k) - apos n a).
Proof.
  induction k as [|k IH].
  - by rewrite Nat.add_0_r, Nat.sub_diag.
  - replace (S k) with (k + 1) by lia. rewrite seq_app, fmap_app, concat_app, IH. cbn [seq].
    rewrite fmap_cons, fmap_nil. cbn [concat]. rewrite app_nil_r.
    pose proof (apos_lt n (a + k) Hn). pose proof (apos_le n a (a + k) Hn ltac:(lia)).
    rewrite Nat.add_assoc, Nat.add_1_r.
    replace (apos n (S (a + k)) - apos n a)
      with ((apos n (a + k) - apos n a) + (apos n (S (a + k)) - apos n (a + k))) by lia.
    rewrite cyc_app. do 2 f_equal. lia.
Qed.

(** The leaves of the node at [i]. *)
Definition leaves_at (i : nat) : list nat := default [] (leaves <$> nodes t !! i).

Lemma leaves_at_apos i : i < nb_nodes t ->
  leaves_at i = cyc n (apos n i) (apos n (S i) - apos n i).
Proof.
  intros Hi. destruct (node_at i Hi) as [nd Hnd]. unfold leaves_at. rewrite Hnd.
  by apply leaves_apos.
Qed.

Lemma leaves_leaf i : i < n -> leaves_at i = [i].
Proof.
  intros Hi. rewrite leaves_at_apos by (rewrite (ok_length _ _ Hok); lia).
  rewrite !apos_small by lia. replace (S i - i) with 1 by lia.
  unfold cyc. cbn. by rewrite Nat.mod_small.
Qed.

Lemma leaves_inner i : n <= i < nb_nodes t ->
  leaves_at i = concat (leaves_at <$> kids n (i - n)).
Proof.
  intros Hi. pose proof (inner_bound i ltac:(lia) ltac:(lia)).
  rewrite leaves_at_apos, inner_apos, inner_apos_S by lia.
  rewrite <- (cyc_mod n (n + _)), mod_add_n, cyc_mod by lia.
  replace (n + apos n (4 * (i - n) + length (kids n (i - n))) - (n + apos n (4 * (i - n))))
    with (apos n (4 * (i - n) + length (kids n (i - n))) - apos n (4 * (i - n))) by lia.
  rewrite <- apos_concat, length_kids. f_equal. apply list_fmap_ext.
  intros k c Hc. apply lookup_seq in Hc as [-> Hk]. symmetry. apply leaves_at_apos. lia.
Qed.

Lemma leaves_NoDup i : NoDup (leaves_at i).
Proof.
  destruct (decide (i < nb_nodes t)).
  - rewrite leaves_at_apos by done. apply cyc_NoDup. pose proof (apos_width i). lia.
  - unfold leaves_at. rewrite lookup_ge_None_2 by (unfold nb_nodes in *; lia). constructor.
Qed.

(** ** Parents, children and branches *)
Lemma parent_at i nd : nodes t !! i = Some nd ->
  node_parent nd = if i <? nb_nodes t - 1 then Some (n + i / 4) else None.
Proof. intros H. rewrite (ok_parent _ _ Hok _ _ H). by rewrite (ok_length _ _ Hok). Qed.

Lemma div4_lt a b : a / 4 < b <-> a < 4 * b.
Proof. pose proof (Nat.div_mod_eq a 4). pose proof (Nat.mod_upper_bound a 4). lia. Qed.

Lemma parent_lt i : i < nb_nodes t - 1 -> i < n + i / 4 < nb_nodes t.
Proof.
  rewrite (ok_length _ _ Hok). intros Hi. pose proof (nb_inner_spec n Hn).
  pose proof (Nat.div_mod_eq i 4). pose proof (Nat.mod_upper_bound i 4). lia.
Qed.

(** Node [c] is a child of the inner node [p] exactly when [p] is its parent. *)
Lemma kids_parent p c : n <= p < nb_nodes t ->
  In c (kids n (p - n)) <-> c < nb_nodes t - 1 /\ p = n + c / 4.
Proof.
  intros Hp. pose proof (inner_bound p ltac:(lia) ltac:(lia)). unfold kids. rewrite in_seq.
  pose proof (Nat.div_mod_eq c 4). pose proof (Nat.mod_upper_bound c 4).
  rewrite (ok_length _ _ Hok) in *. pose proof (nb_inner_spec n Hn). lia.
Qed.

(** One step from a node to its parent. *)
Definition up (c p : nat) : Prop := c < nb_nodes t - 1 /\ p = n + c / 4.

Lemma up_lt c p : up c p -> c < p < nb_nodes t.
Proof. intros [Hc ->]. by apply parent_lt. Qed.

Lemma rtc_up_le c p : rtc up c p -> c <= p.
Proof. induction 1 as [|a b c Hab _ IH]; [done|]. apply up_lt in Hab. lia. Qed.

Lemma rtc_up_linear l c i : rtc up l c -> rtc up l i -> c <= i -> rtc up c i.
Proof.
  induction 1 as [|a b c Hab Hbc IH]; intros Hi Hle; [done|].
  inversion Hi as [|a' b' i' Hab' Hbi]; subst.
  - apply up_lt in Hab. apply rtc_up_le in Hbc. lia.
  - destruct Hab as [Ha ->], Hab' as [_ ->]. by apply IH.
Qed.

(** The nodes that hold leaf [l] are those reached from it through parents. *)
Lemma leaves_rtc l i : l < n -> i < nb_nodes t -> l ∈ leaves_at i <-> rtc up l i.
Proof.
  intros Hl Hi. split.
  - revert Hi. induction i as [i IH] using lt_wf_ind. intros Hi Hin.
    destruct (decide (i < n)) as [Hlt|].
    + rewrite leaves_leaf in Hin by done. apply list_elem_of_singleton in Hin as ->. constructor.
    + rewrite leaves_inner in Hin by lia.
      apply elem_of_concat in Hin as (lc & Hc & Hl').
      apply list_elem_of_fmap in Hc as (c & -> & Hc). apply list_elem_of_In in Hc.
      apply kids_parent in Hc as [Hc ->]; [|lia].
      eapply rtc_r; [apply IH; [by apply up_lt|lia|done]|done].
  - intros Hli. revert i Hli Hi.
    refine (rtc_ind_r (fun i => i < nb_nodes t -> l ∈ leaves_at i) l _ _).
    + intros _. rewrite leaves_leaf by done. by apply list_elem_of_singleton.
    + intros c p Hlc Hup IH Hp. pose proof (up_lt _ _ Hup). destruct Hup as [Hc ->].
      rewrite leaves_inner by lia. apply elem_of_concat. exists (leaves_at c).
      split; [|apply IH; lia]. apply list_elem_of_fmap. exists c. split; [done|].
      apply list_elem_of_In, kids_parent; lia.
Qed.

(** Every node leads to the root. *)
Lemma rtc_up_root c : c < nb_nodes t -> rtc up c (nb_nodes t - 1).
Proof.
  remember (nb_nodes t - c) as d eqn:Hd. revert c Hd.
  induction d as [d IH] using lt_wf_ind. intros c -> Hc.
  destruct (decide (c = nb_nodes t - 1)) as [->|]; [constructor|].
  pose proof (parent_lt c ltac:(lia)). eapply rtc_l; [split; [lia|done]|].
  eapply IH; [|reflexivity|]; lia.
Qed.

Lemma leaves_at_lt l i : l ∈ leaves_at i -> l < n.
Proof.
  unfold leaves_at. destruct (nodes t !! i) as [nd|] eqn:Hnd; [|by intros H%elem_of_nil]. cbn.
  rewrite (leaves_apos _ _ Hnd). unfold cyc. intros (x & -> & _)%list_elem_of_fmap.
  by apply Nat.mod_upper_bound; lia.
Qed.

Lemma root_leaves : leaves_at (nb_nodes t - 1) ≡ₚ seq 0 n.
Proof.
  apply NoDup_Permutation; [apply leaves_NoDup|apply NoDup_seq|]. intros l. rewrite elem_of_seq.
  pose proof (ok_length _ _ Hok) as Hlen. split; [intros Hin%leaves_at_lt; lia|].
  intros Hln. apply leaves_rtc; [lia..|]. apply rtc_up_root. lia.
Qed.

Definition holds (l : nat) (nd : Node) : Prop := l ∈ leaves nd.
#[export] Instance holds_dec l nd : Decision (holds l nd).
Proof. unfold holds. apply _. Defined.

Lemma holds_rtc l i nd : l < n -> nodes t !! i = Some nd -> holds l nd <-> rtc up l i.
Proof.
  intros Hl Hi. rewrite <- leaves_rtc by (eauto using lookup_lt_Some).
  unfold leaves_at. by rewrite Hi.
Qed.

Lemma filter_drop_skip l c d :
  (forall i nd, c <= i < d -> nodes t !! i = Some nd -> ~ holds l nd) -> c <= d ->
  filter (holds l) (drop c (nodes t)) = filter (holds l) (drop d (nodes t)).
Proof.
  intros Hno Hle. induction Hle as [|d Hle IH]; [done|].
  rewrite IH by (intros i nd Hi Hnd; apply (Hno i nd); [lia|done]).
  destruct (nodes t !! d) as [nd|] eqn:Hd.
  - rewrite (drop_S _ _ _ Hd), filter_cons_False by (apply (Hno d nd); [lia|done]). done.
  - apply lookup_ge_None in Hd. by rewrite !drop_ge by lia.
Qed.

Lemma branch_filter l fuel : forall c, l < n -> c < nb_nodes t -> nb_nodes t - c <= fuel ->
  rtc up l c ->
  branch_loop fuel t (Some c) = filter (holds l) (drop c (nodes t)).
Proof.
  induction fuel as [|fuel IH]; intros c Hl Hc Hfuel Hup; [lia|].
  destruct (node_at c Hc) as [nd Hnd]. cbn [branch_loop]. rewrite Hnd.
  rewrite (drop_S _ _ _ Hnd), filter_cons_True by (by apply (holds_rtc l c)).
  f_equal. rewrite (parent_at _ _ Hnd).
  destruct (Nat.ltb_spec c (nb_nodes t - 1)) as [Hlt|Hge].
  - pose proof (parent_lt c Hlt) as Hp.
    rewrite IH; [|lia..|by eapply rtc_r; [done|split]]. symmetry.
    apply filter_drop_skip; [|lia]. intros i nd' Hi Hnd' Hh.
    apply (holds_rtc l i) in Hh; [|done..].
    pose proof (rtc_up_linear _ _ _ Hup Hh ltac:(lia)) as Hci.
    inversion Hci as [|? b ? Hab Hbi]; subst; [lia|].
    destruct Hab as [_ ->]. apply rtc_up_le in Hbi. lia.
  - rewrite drop_ge by (unfold nb_nodes in *; lia). by destruct fuel.
Qed.

Lemma iter_branch_filter l : l < n -> iter_branch t l = filter (holds l) (nodes t).
Proof.
  intros Hl. unfold iter_branch. assert (l < nb_nodes t) by (rewrite (ok_length _ _ Hok); lia).
  rewrite (branch_filter l) by (done || lia || constructor).
  symmetry. rewrite <- (filter_drop_skip l 0); [by rewrite drop_0| |lia].
  intros i nd Hi Hnd Hh. apply (holds_rtc l i) in Hh; [|done..]. apply rtc_up_le in Hh. lia.
Qed.

Lemma level_up c p : up c p -> level_at (nodes t) c < level_at (nodes t) p.
Proof.
  intros Hup. pose proof (up_lt _ _ Hup) as Hp. destruct (node_at p ltac:(lia)) as [nd Hnd].
  destruct Hup as [Hc ->]. unfold level_at at 2. rewrite Hnd. cbn.
  destruct (inner_node _ _ Hnd ltac:(lia)) as (_ & _ & ->). rewrite Nat.add_1_r.
  apply Nat.lt_succ_r, max_list_with_le. apply kids_parent; lia.
Qed.

(** A level is never above the index of its node. *)
Lemma level_le_idx i nd : nodes t !! i = Some nd -> node_level nd <= i.
Proof.
  revert nd. induction (lt_wf i) as [i _ IH]. intros nd Hnd. pose proof (lookup_lt_Some _ _ _ Hnd) as Hi. fold (nb_nodes t) in Hi.
  destruct (decide (i < n)) as [Hlt|Hge].
  - destruct (leaf_node _ _ Hnd Hlt) as (_ & _ & ->). lia.
  - destruct (inner_node _ _ Hnd ltac:(lia)) as (_ & _ & ->).
    assert (Hm : forall ks, (forall c, In c ks -> c < i) -> max_list_with (level_at (nodes t)) ks <= i - 1).
    { induction ks as [|c ks IHk]; intros Hks; [cbn; lia|]. cbn. pose proof (Hks c (or_introl eq_refl)) as Hc.
      assert (level_at (nodes t) c <= i - 1).
      { unfold level_at. destruct (nodes t !! c) as [nc|] eqn:E; cbn; [|lia]. pose proof (IH c Hc nc E). lia. }
      pose proof (IHk (fun c' Hc' => Hks c' (or_intror Hc'))). lia. }
    pose proof (Hm (kids n (i - n))) as Hk. assert (forall c, In c (kids n (i - n)) -> c < i) as Hc.
    { intros c Hc%kids_parent; [|lia]. destruct Hc as [Hc ->]. pose proof (parent_lt c Hc). lia. }
    specialize (Hk Hc). lia.
Qed.

(** Consecutive nodes of a branch are linked and their levels increase. *)
Lemma branch_links fuel : forall c k a b, c < nb_nodes t ->
  branch_loop fuel t (Some c) !! k = Some a ->
  branch_loop fuel t (Some c) !! S k = Some b ->
  node_parent a = Some (node_idx b) /\ node_level a < node_level b.
Proof.
  induction fuel as [|fuel IH]; intros c k a b Hc Ha Hb; [done|].
  cbn [branch_loop] in *. destruct (node_at c Hc) as [nd Hnd]. rewrite Hnd in *.
  rewrite (parent_at _ _ Hnd) in *.
  destruct (Nat.ltb_spec c (nb_nodes t - 1)) as [Hlt|Hge].
  2: { destruct k; cbn in Hb; by destruct fuel. }
  pose proof (parent_lt c Hlt) as Hp. destruct k as [|k].
  - injection Ha as <-.
    destruct fuel; [done|]. cbn [branch_loop] in Hb. destruct (node_at (n + c / 4) ltac:(lia)) as [p Hp'].
    rewrite Hp' in Hb. cbn in Hb. injection Hb as <-.
    rewrite (parent_at _ _ Hnd), (node_idx_at _ _ Hp').
    destruct (Nat.ltb_spec c (nb_nodes t - 1)); [|lia]. split; [done|].
    pose proof (level_up c (n + c / 4) (conj Hlt eq_refl)) as Hl.
    unfold level_at in Hl. by rewrite Hnd, Hp' in Hl.
  - by apply (IH (n + c / 4) k a b); [lia|..].
Qed.

Lemma branch_last fuel : forall c, c < nb_nodes t -> nb_nodes t - c <= fuel ->
  last (branch_loop fuel t (Some c)) = root t.
Proof.
  induction fuel as [|fuel IH]; intros c Hc Hfuel; [lia|].
  cbn [branch_loop]. destruct (node_at c Hc) as [nd Hnd]. rewrite Hnd, (parent_at _ _ Hnd).
  destruct (Nat.ltb_spec c (nb_nodes t - 1)) as [Hlt|Hge].
  - pose proof (parent_lt c Hlt) as Hp. specialize (IH (n + c / 4) ltac:(lia) ltac:(lia)).
    rewrite last_cons, IH. unfold root. rewrite last_lookup.
    destruct (node_at (pred (length (nodes t)))) as [r Hr]; [unfold nb_nodes in *; lia|].
    by rewrite Hr.
  - assert (branch_loop fuel t None = []) as -> by (by destruct fuel).
    change (last [nd]) with (Some nd). unfold root. rewrite last_lookup, <- Hnd.
    f_equal. unfold nb_nodes in *. lia.
Qed.
End TreeOk.

(** ** The properties of the tree *)

Lemma nb_nodes_loop_spec fuel : forall ret left,
  (left + 1) / 3 < fuel -> nb_nodes_loop fuel ret left = Some (ret + (left + 1) / 3).
Proof.
  induction fuel as [|fuel IH]; intros ret left Hf; [lia|]. cbn [nb_nodes_loop].
  destruct (Nat.ltb_spec 1 left) as [Hlt|Hge].
  - assert ((left + 1) / 3 = S ((left - left `min` RADIX + 1 + 1) / 3)) as Hs.
    { unfold RADIX. destruct (le_lt_dec 4 left).
      - replace (left + 1) with ((left - left `min` 4 + 1 + 1) + 1 * 3) by lia.
        rewrite Nat.div_add by lia. lia.
      - destruct left as [|[|[|[|left]]]]; [lia|lia|done|done|lia]. }
    rewrite IH by lia. f_equal. lia.
  - destruct left as [|[|left]]; [cbn; f_equal; lia..|lia].
Qed.

Lemma is_leaf_at n t i nd : 0 < n -> tree_ok n t -> nodes t !! i = Some nd ->
  is_leaf nd = true <-> i < n.
Proof.
  intros Hn Hok Hi. pose proof (lookup_lt_Some _ _ _ Hi) as Hlt. unfold is_leaf. split.
  - intros Hall. destruct (decide (i < n)); [done|exfalso].
    rewrite (proj1 (inner_node n t Hn Hok _ _ Hi ltac:(lia))) in Hall.
    destruct (kids_eq n (i - n)) as [Hk _]; [by apply (inner_bound n t Hn Hok); [|lia]|].
    rewrite Hk in Hall. cbn in Hall. done.
  - intros Hlt'. by rewrite (proj1 (leaf_node n t Hn Hok _ _ Hi Hlt')).
Qed.

(** The predicted number of nodes is the number of nodes built. *)
Lemma nb_nodes_for_leaves_tree n t : 0 < n -> tree_ok n t -> nb_nodes_for_leaves n = Some (nb_nodes t).
Proof.
  intros Hn Hok. unfold nb_nodes_for_leaves. rewrite nb_nodes_loop_spec, (ok_length _ _ Hok); [done|].
  apply Nat.lt_succ_r. pose proof (nb_inner_spec n Hn). unfold nb_inner in *. lia.
Qed.

(** [Tree::new] returns for every non-zero number of leaves; the node count
    is the one [nb_nodes_for_leaves] predicts, in closed form [n + ceil((n-1)/3)];
    the root is the last node and the only one without parent, and the leaves
    are the first [n] nodes. *)
Theorem tree_new_total n : 0 < n ->
  exists t, new n = Some t /\
    nb_nodes_for_leaves n = Some (nb_nodes t) /\ nb_nodes t = n + (n + 1) / 3 /\
    forall i nd, nodes t !! i = Some nd ->
      node_idx nd = i /\
      (is_root nd = true <-> S i = nb_nodes t) /\ (is_leaf nd = true <-> i < n).
Proof.
  intros Hn. destruct (new_spec n Hn) as (t & Ht & Hok). exists t.
  pose proof (ok_length _ _ Hok) as Hlen. split_and!; [done| |done|].
  - by apply nb_nodes_for_leaves_tree.
  - intros i nd Hi. pose proof (lookup_lt_Some _ _ _ Hi) as Hlt. split_and!.
    + by apply (node_idx_at n t Hok).
    + unfold is_root. rewrite (parent_at n t Hok _ _ Hi), bool_decide_eq_true.
      unfold nb_nodes in *. destruct (Nat.ltb_spec i (length (nodes t) - 1)); split; done || lia.
    + by apply is_leaf_at with t.
Qed.

Lemma tree_new_total_witness :
  exists t, new 7 = Some t /\ nb_nodes_for_leaves 7 = Some (nb_nodes t) /\ nb_nodes t = 7 + (7 + 1) / 3 /\
    forall i nd, nodes t !! i = Some nd ->
      node_idx nd = i /\
      (is_root nd = true <-> S i = nb_nodes t) /\ (is_leaf nd = true <-> i < 7).
Proof. apply (tree_new_total 7). lia. Defined.

(** The [u32] casts of node indices in [Tree::new] are exact: up to 2^31
    leaves, every node index fits 32 bits. *)
Theorem nb_nodes_bound n t : new n = Some t -> (Z.of_nat n <= 2 ^ 31)%Z ->
  forall i nd, nodes t !! i = Some nd ->
    in_u32 (Z.of_nat (node_idx nd)) = true /\
    forall p, node_parent nd = Some p -> in_u32 (Z.of_nat p) = true.
Proof.
  intros Ht Hb i nd Hi. destruct (new_tree_ok n t Ht) as [Hn Hok].
  pose proof (lookup_lt_Some _ _ _ Hi) as Hlt. fold (nb_nodes t) in Hlt.
  assert (Z.of_nat (nb_nodes t) < 2 ^ 32)%Z as Hnb.
  { rewrite (ok_length _ _ Hok). pose proof (nb_inner_spec n Hn). lia. }
  setoid_rewrite in_width_spec. rewrite (node_idx_at n t Hok _ _ Hi). split; [lia|].
  intros p Hp. rewrite (parent_at n t Hok _ _ Hi) in Hp.
  destruct (Nat.ltb_spec i (nb_nodes t - 1)); [|done]. injection Hp as <-.
  destruct (parent_lt n t Hn Hok i ltac:(lia)) as [_ Hp]. apply Nat2Z.inj_lt in Hp.
  split; [apply Nat2Z.is_nonneg|]. by eapply Z.lt_trans.
Qed.

Lemma nb_nodes_bound_witness : exists t nd, new 5 = Some t /\ nodes t !! 4 = Some nd /\
  in_u32 (Z.of_nat (node_idx nd)) = true.
Proof.
  destruct (new_spec 5) as (t & Ht & Hok); [lia|].
  destruct (node_at t 4) as [nd Hnd]; [rewrite (ok_length _ _ Hok); cbn; lia|].
  exists t, nd. split_and!; [done..|]. exact (proj1 (nb_nodes_bound 5 t Ht ltac:(lia) 4 nd Hnd)).
Defined.

Lemma position_app_first {A} (p : A -> bool) l x k :
  Forall (fun y => p y = false) l -> p x = true -> position p (l ++ x :: k) = Some (length l).
Proof. induction 1 as [|y l Hy _ IH]; cbn; intros Hx; [by rewrite Hx|]. by rewrite Hy, IH. Qed.

(** The slot of a child among its siblings. *)
Lemma position_slots a k c : a <= c < a + k ->
  position (fun o => bool_decide (o = Some c)) (slots (seq a k)) = Some (c - a).
Proof.
  intros Hc. unfold slots. replace k with ((c - a) + S (a + k - c - 1)) at 1 by lia.
  rewrite seq_app, fmap_app, <- app_assoc. cbn [seq]. rewrite fmap_cons. cbn [app].
  rewrite position_app_first.
  - by rewrite length_fmap, length_seq.
  - apply Forall_fmap, Forall_seq. intros j Hj. cbn. apply bool_decide_eq_false.
    intros [= ?]. lia.
  - apply bool_decide_eq_true. f_equal. lia.
Qed.

(** Parents and children agree: [p] is the parent of node [i] exactly when
    [i] is among the children of node [p], and children always come before their
    parent in the vector. *)
Theorem tree_links n t i p ni np : new n = Some t ->
  nodes t !! i = Some ni -> nodes t !! p = Some np ->
  (node_parent ni = Some p <-> i ∈ children np) /\ (node_parent ni = Some p -> i < p).
Proof.
  intros Ht Hi Hp. destruct (new_tree_ok n t Ht) as [Hn Hok].
  pose proof (lookup_lt_Some _ _ _ Hi) as Hlt. pose proof (lookup_lt_Some _ _ _ Hp) as Hltp.
  rewrite (parent_at n t Hok _ _ Hi), (children_at n t Hn Hok _ _ Hp), list_elem_of_In.
  fold (nb_nodes t) in *. split.
  - destruct (Nat.ltb_spec p n) as [Hpn|Hpn].
    + split; [|done]. destruct (Nat.ltb_spec i (nb_nodes t - 1)); [|done]. intros [= ?]. lia.
    + rewrite (kids_parent n t Hn Hok) by lia.
      destruct (Nat.ltb_spec i (nb_nodes t - 1)); naive_solver lia.
  - destruct (Nat.ltb_spec i (nb_nodes t - 1)); [|done]. intros [= <-].
    apply (parent_lt n t Hn Hok). lia.
Qed.

Lemma tree_links_witness : exists t ni np, new 6 = Some t /\
  nodes t !! 5 = Some ni /\ nodes t !! 7 = Some np /\
  ((node_parent ni = Some 7 <-> 5 ∈ children np) /\ (node_parent ni = Some 7 -> 5 < 7)).
Proof.
  destruct (new_spec 6) as (t & Ht & Hok); [lia|]. pose proof (ok_length _ _ Hok) as Hl.
  destruct (node_at t 5) as [a Ha]; [rewrite Hl; cbn; lia|].
  destruct (node_at t 7) as [b Hb]; [rewrite Hl; cbn; lia|].
  exists t, a, b. do 3 (split; [done|]). apply (tree_links 6 t 5 7 a b Ht Ha Hb).
Defined.

(** [parent_idx_of_with_sibling_idx] never panics with "broken tree" on a
    tree made by [new]: it returns nothing for the root, and for any other node
    the parent and the position of the node among the parent's children. *)
Lemma sibling_idx_spec n t i ni : new n = Some t -> nodes t !! i = Some ni ->
  (S i = nb_nodes t /\ parent_idx_of_with_sibling_idx t i = Some None) \/
  (exists p k np, parent_idx_of_with_sibling_idx t i = Some (Some (p, k)) /\
     node_parent ni = Some p /\ nodes t !! p = Some np /\ children np !! k = Some i /\ k < RADIX).
Proof.
  intros Ht Hi. destruct (new_tree_ok n t Ht) as [Hn Hok].
  pose proof (lookup_lt_Some _ _ _ Hi) as Hlt. fold (nb_nodes t) in Hlt.
  unfold parent_idx_of_with_sibling_idx, parent_idx_of. rewrite Hi. cbn [mbind option_bind].
  rewrite (parent_at n t Hok _ _ Hi).
  destruct (Nat.ltb_spec i (nb_nodes t - 1)) as [Hlt'|Hge]; [right|left; split; [lia|done]].
  pose proof (parent_lt n t Hn Hok i Hlt') as Hp. destruct (node_at t (n + i / 4)) as [np Hnp]; [lia|].
  pose proof (inner_bound n t Hn Hok (n + i / 4) ltac:(lia) ltac:(lia)) as Hin.
  assert (In i (kids n (n + i / 4 - n))) as Hk by (apply (kids_parent n t Hn Hok); lia).
  unfold kids in Hk. rewrite in_seq in Hk.
  exists (n + i / 4), (i - 4 * (n + i / 4 - n)), np. rewrite Hnp. cbn [mbind option_bind].
  rewrite (proj1 (inner_node n t Hn Hok _ _ Hnp ltac:(lia))). unfold kids.
  rewrite position_slots by lia. cbn [mbind option_bind].
  rewrite (node_idx_at n t Hok _ _ Hnp). split_and!; [done..| |unfold RADIX; lia].
  rewrite (children_at n t Hn Hok _ _ Hnp). destruct (Nat.ltb_spec (n + i / 4) n); [lia|].
  unfold kids. apply lookup_seq. lia.
Qed.

(** The leaves a node reports are the leaves of the subtree below it: a
    leaf reports itself, an inner node reports those of its children in order
    (also where the stored range wraps around past leaf 0), no leaf twice, and
    only leaves of the tree; the root reports every leaf. *)
Theorem tree_leaves n t i ni : new n = Some t -> nodes t !! i = Some ni ->
  leaves ni = (if is_leaf ni then [i] else concat (leaves_at t <$> children ni)) /\
  NoDup (leaves ni) /\ Forall (fun l => l < n) (leaves ni) /\
  (is_root ni = true -> leaves ni ≡ₚ seq 0 n).
Proof.
  intros Ht Hi. destruct (new_tree_ok n t Ht) as [Hn Hok].
  pose proof (lookup_lt_Some _ _ _ Hi) as Hlt. fold (nb_nodes t) in Hlt.
  assert (leaves ni = leaves_at t i) as Hl by (unfold leaves_at; by rewrite Hi).
  pose proof (is_leaf_at n t i ni Hn Hok Hi) as Hleaf.
  assert (forall l, l ∈ leaves ni -> l < n) as Hall by (rewrite Hl; intros l; apply (leaves_at_lt n t Hn Hok)).
  split_and!.
  - rewrite Hl, (children_at n t Hn Hok _ _ Hi). destruct (is_leaf ni).
    + apply (leaves_leaf n t Hn Hok). by apply Hleaf.
    + assert (~ i < n) by (intros ?; by apply Hleaf in H).
      destruct (Nat.ltb_spec i n); [lia|]. by apply (leaves_inner n t Hn Hok).
  - rewrite Hl. by apply (leaves_NoDup n t Hn Hok).
  - by apply Forall_forall.
  - unfold is_root. rewrite bool_decide_eq_true, (parent_at n t Hok _ _ Hi). intros Hroot.
    destruct (Nat.ltb_spec i (nb_nodes t - 1)) as [|Hge]; [done|].
    rewrite Hl. replace i with (nb_nodes t - 1) by lia. apply (root_leaves n t Hn Hok).
Qed.

Lemma tree_leaves_witness : exists t ni, new 5 = Some t /\ nodes t !! 6 = Some ni /\
  leaves ni = [4; 0; 1; 2; 3] /\
  (leaves ni = (if is_leaf ni then [6] else concat (leaves_at t <$> children ni)) /\
  NoDup (leaves ni) /\ Forall (fun l => l < 5) (leaves ni) /\
  (is_root ni = true -> leaves ni ≡ₚ seq 0 5)).
Proof.
  eexists _, _. do 3 (split; [vm_compute; reflexivity|]).
  apply (tree_leaves 5); vm_compute; reflexivity.
Defined.

(** The branch of a leaf, from the leaf to the root, is exactly the list of
    the nodes whose leaves include it, in the order of the vector. *)
Theorem tree_branch n t l : new n = Some t -> l < n ->
  iter_branch t l = filter (holds l) (nodes t).
Proof.
  intros Ht Hl. destruct (new_tree_ok n t Ht) as [Hn Hok]. by apply (iter_branch_filter n t Hn Hok).
Qed.

Lemma tree_branch_witness : exists t, new 9 = Some t /\ iter_branch t 6 = filter (holds 6) (nodes t).
Proof. eexists. split; [vm_compute; reflexivity|]. by apply (tree_branch 9); [vm_compute|lia]. Defined.

(** A branch starts at its leaf and ends in the root; each node is followed
    by its parent, whose level is strictly higher (levels may be skipped). *)
Theorem tree_branch_path n t l : new n = Some t -> l < n ->
  head (iter_branch t l) = nodes t !! l /\ last (iter_branch t l) = root t /\
  forall k a b, iter_branch t l !! k = Some a -> iter_branch t l !! S k = Some b ->
    node_parent a = Some (node_idx b) /\ node_level a < node_level b.
Proof.
  intros Ht Hl. destruct (new_tree_ok n t Ht) as [Hn Hok]. pose proof (ok_length _ _ Hok) as Hlen.
  unfold iter_branch. split_and!.
  - destruct (node_at t l) as [nd Hnd]; [lia|].
    destruct (nb_nodes t) eqn:E; [lia|]. cbn [branch_loop]. by rewrite Hnd.
  - apply (branch_last n t Hn Hok); lia.
  - intros k a b. apply (branch_links n t Hn Hok). lia.
Qed.

Lemma tree_branch_path_witness : exists t, new 9 = Some t /\
  (head (iter_branch t 8) = nodes t !! 8 /\ last (iter_branch t 8) = root t /\
  forall k a b, iter_branch t 8 !! k = Some a -> iter_branch t 8 !! S k = Some b ->
    node_parent a = Some (node_idx b) /\ node_level a < node_level b).
Proof. eexists. split; [vm_compute; reflexivity|]. by apply (tree_branch_path 9); [vm_compute|lia]. Defined.
