(* ===== verification/Bitcoin.v ===== *)
(** * Bitcoin data and the third-party interfaces (bitcoin-ext, lib/src/lib.rs, lib/src/musig.rs)

    Transactions, scripts and taproots as the program builds them, the helper
    functions of the crate [bitcoin-ext] and of [ark::scripts] and [ark::musig].
    What rust-bitcoin, secp256k1 and the musig library compute is the class
    [Bitcoin]: its members are parameters of the whole development.  What the
    program relies on about them is stated in the law classes at the end. *)
From Stdlib Require Strings.Byte.
From coqutil Require Export Word.LittleEndianList Byte.
From stdpp Require Export sorting.
From S2P Require Import Prelude.

Open Scope Z_scope.

Abbreviation bytes := (list Byte.byte).

#[export] Instance byte_eq_dec : EqDecision Byte.byte.
Proof. intros a b. apply Strings.Byte.byte_eq_dec. Defined.

(** Ids and outpoints are the keys of [HashMap]s. *)
#[export] Instance byte_countable : Countable Byte.byte.
Proof. exact (inj_countable Strings.Byte.to_N Strings.Byte.of_N Strings.Byte.of_to_N). Defined.

(** ** Data of the bitcoin crate *)
Record OutPoint := mkOutPoint { op_txid : bytes; op_vout : Z }.
Record TxOut := mkTxOut { value : Z; script_pubkey : bytes }.
Record TxIn := mkTxIn {
  previous_output : OutPoint;
  script_sig : bytes;
  sequence : Z;
  witness : list bytes;
}.
Record Transaction := mkTx {
  tx_version : Z;
  lock_time : Z;
  input : list TxIn;
  output : list TxOut;
}.

#[export] Instance OutPoint_eq_dec : EqDecision OutPoint.
Proof. solve_decision. Defined.
#[export] Instance TxOut_eq_dec : EqDecision TxOut.
Proof. solve_decision. Defined.
#[export] Instance TxIn_eq_dec : EqDecision TxIn.
Proof. solve_decision. Defined.
#[export] Instance Transaction_eq_dec : EqDecision Transaction.
Proof. solve_decision. Defined.

#[export] Instance OutPoint_countable : Countable OutPoint.
Proof.
  refine (inj_countable' (fun p => (op_txid p, op_vout p)) (fun p => mkOutPoint p.1 p.2) _). by intros [].
Defined.

(** [OutPoint::null()]. *)
Definition null_outpoint : OutPoint := mkOutPoint (replicate 32 Byte.x00) (2 ^ 32 - 1).

(** ** Functions of the third-party crates *)
Inductive script_kind := P2pkh | P2sh | P2wpkh | P2wsh | P2tr | OpReturn | OtherScript.

(** A tapscript as the sequence of builder calls that makes it. *)
Inductive script_op (X : Type) :=
  | PushInt (z : Z)
  | PushSlice (b : bytes)
  | PushXOnlyKey (x : X)
  | OP_CSV | OP_CLTV | OP_DROP | OP_HASH160 | OP_EQUALVERIFY | OP_CHECKSIG.
Arguments PushInt {X} z.
Arguments PushSlice {X} b.
Arguments PushXOnlyKey {X} x.
Arguments OP_CSV {X}.
Arguments OP_CLTV {X}.
Arguments OP_DROP {X}.
Arguments OP_HASH160 {X}.
Arguments OP_EQUALVERIFY {X}.
Arguments OP_CHECKSIG {X}.

#[export] Instance script_op_eq_dec X `{EqDecision X} : EqDecision (script_op X).
Proof. solve_decision. Defined.

Class Bitcoin := {
  (* secp256k1 *)
  PublicKey : Type;
  XOnlyPublicKey : Type;
  Signature : Type;
  Keypair : Type;
  PublicKey_eq_dec :: EqDecision PublicKey;
  XOnlyPublicKey_eq_dec :: EqDecision XOnlyPublicKey;
  Signature_eq_dec :: EqDecision Signature;
  keypair_public_key : Keypair -> PublicKey;
  x_only_public_key : PublicKey -> XOnlyPublicKey;
  pk_serialize : PublicKey -> bytes;
  pk_from_slice : bytes -> option PublicKey;
  sig_serialize : Signature -> bytes;
  sig_from_slice : bytes -> option Signature;
  verify_schnorr : Signature -> bytes -> XOnlyPublicKey -> bool;
  (* hashes *)
  sha256 : bytes -> bytes;
  ripemd160 : bytes -> bytes;
  (* musig: key aggregation over a list of keys, with an optional tweak, and
     one signing session *)
  PublicNonce : Type;
  SecretNonce : Type;
  PartialSignature : Type;
  AggregatedNonce : Type;
  agg_pk : list PublicKey -> XOnlyPublicKey;
  new_nonce_pair : Keypair -> option bytes -> Z -> SecretNonce * PublicNonce;
  keyagg_nonce_gen : list PublicKey -> option bytes -> PublicKey -> bytes -> Z -> SecretNonce * PublicNonce;
  sec_to_pub_nonce : SecretNonce -> PublicNonce;
  nonce_agg : list PublicNonce -> AggregatedNonce;
  session_partial_sign : list PublicKey -> option bytes -> AggregatedNonce -> bytes ->
    SecretNonce -> Keypair -> PartialSignature;
  session_partial_verify : list PublicKey -> option bytes -> AggregatedNonce -> bytes ->
    PartialSignature -> PublicNonce -> PublicKey -> bool;
  session_sig_agg : list PublicKey -> option bytes -> AggregatedNonce -> bytes ->
    list PartialSignature -> Signature;
  (* transactions *)
  compute_txid : Transaction -> bytes;
  key_spend_sighash : Transaction -> TxOut -> bytes;
  script_spend_sighash : Transaction -> TxOut -> list (script_op XOnlyPublicKey) -> bytes;
  (* scripts and taproot *)
  locktime_from_height : Z -> option Z;
  script_bytes : list (script_op XOnlyPublicKey) -> bytes;
  taproot_output_key : XOnlyPublicKey -> list (nat * list (script_op XOnlyPublicKey)) -> XOnlyPublicKey;
  taproot_tap_tweak : XOnlyPublicKey -> list (nat * list (script_op XOnlyPublicKey)) -> bytes;
  control_block_bytes : XOnlyPublicKey -> list (nat * list (script_op XOnlyPublicKey)) ->
    list (script_op XOnlyPublicKey) -> bytes;
  p2tr_script : XOnlyPublicKey -> bytes;
  p2a_script : bytes;
  classify_script : bytes -> script_kind;
}.

Section Bitcoin.
Context `{B : Bitcoin}.

Definition Script : Type := list (script_op XOnlyPublicKey).

(** ** bitcoin-ext *)
Definition P2TR_DUST : Z := 110 * 3.
Definition P2WPKH_DUST : Z := 90 * 3.
Definition P2PKH_DUST : Z := 182 * 3.
Definition P2SH_DUST : Z := 180 * 3.
Definition P2WSH_DUST : Z := 110 * 3.

Definition fee_anchor : TxOut := mkTxOut 0 p2a_script.

Definition is_p2a_fee_anchor (o : TxOut) : bool := bool_decide (script_pubkey o = p2a_script).

Definition is_standard (o : TxOut) : bool :=
  match classify_script (script_pubkey o) with
  | P2pkh => P2PKH_DUST <=? value o
  | P2sh => P2SH_DUST <=? value o
  | P2wpkh => P2WPKH_DUST <=? value o
  | P2wsh => P2WSH_DUST <=? value o
  | P2tr => P2TR_DUST <=? value o
  | OpReturn => Z.of_nat (length (script_pubkey o)) <=? 83
  | OtherScript => false
  end.

Definition output_value {E} (tx : Transaction) : outcome E Z := amount_sum (value <$> output tx).

(** ** ark::scripts *)
Definition delayed_sign (delay_blocks : Z) (pubkey : XOnlyPublicKey) : Script :=
  [PushInt delay_blocks; OP_CSV; OP_DROP; PushXOnlyKey pubkey; OP_CHECKSIG].

Definition timelock_sign {E} (timelock_height : Z) (pubkey : XOnlyPublicKey) : outcome E Script :=
  lt ← expect (locktime_from_height timelock_height);
  Ok [PushInt lt; OP_CLTV; OP_DROP; PushXOnlyKey pubkey; OP_CHECKSIG].

Definition delay_timelock_sign {E} (delay_blocks timelock_height : Z) (pubkey : XOnlyPublicKey)
  : outcome E Script :=
  lt ← expect (locktime_from_height timelock_height);
  Ok [PushInt lt; OP_CLTV; OP_DROP; PushInt delay_blocks; OP_CSV; OP_DROP;
      PushXOnlyKey pubkey; OP_CHECKSIG].

Definition hash_and_sign (hash : bytes) (pubkey : XOnlyPublicKey) : Script :=
  [OP_HASH160; PushSlice (ripemd160 hash); OP_EQUALVERIFY; PushXOnlyKey pubkey; OP_CHECKSIG].

Definition hash_delay_sign (hash : bytes) (delay_blocks : Z) (pubkey : XOnlyPublicKey) : Script :=
  [PushInt delay_blocks; OP_CSV; OP_DROP; OP_HASH160; PushSlice (ripemd160 hash); OP_EQUALVERIFY;
   PushXOnlyKey pubkey; OP_CHECKSIG].

(** ** ark::musig

    Keys are sorted by their serialization before aggregation. *)
Fixpoint lex_le (a b : list Z) : bool :=
  match a, b with
  | [], _ => true
  | _ :: _, [] => false
  | x :: a', y :: b' => (x <? y) || ((x =? y) && lex_le a' b')
  end.

Definition key_le (a b : PublicKey) : Prop :=
  lex_le (byte.unsigned <$> pk_serialize a) (byte.unsigned <$> pk_serialize b) = true.
#[export] Instance key_le_dec a b : Decision (key_le a b).
Proof. unfold key_le. apply _. Defined.

Definition sort_keys (keys : list PublicKey) : list PublicKey := merge_sort key_le keys.

Definition combine_keys (keys : list PublicKey) : XOnlyPublicKey := agg_pk (sort_keys keys).

Definition nonce_pair (key : Keypair) (rand : Z) : SecretNonce * PublicNonce := new_nonce_pair key None rand.
Definition nonce_pair_with_msg (key : Keypair) (msg : bytes) (rand : Z) : SecretNonce * PublicNonce :=
  new_nonce_pair key (Some msg) rand.

Definition combine_partial_signatures (pubkeys : list PublicKey) (agg_nonce : AggregatedNonce)
    (sighash : bytes) (tweak : option bytes) (sigs : list PartialSignature) : Signature :=
  session_sig_agg (sort_keys pubkeys) tweak agg_nonce sighash sigs.

Definition partial_sign (pubkeys : list PublicKey) (agg_nonce : AggregatedNonce) (key : Keypair)
    (sec_nonce : SecretNonce) (sighash : bytes) (tweak : option bytes)
    (other_sigs : option (list PartialSignature)) : PartialSignature * option Signature :=
  let keys := sort_keys pubkeys in
  let my_sig := session_partial_sign keys tweak agg_nonce sighash sec_nonce key in
  (my_sig, (fun others => session_sig_agg keys tweak agg_nonce sighash (others ++ [my_sig])) <$> other_sigs).

Definition deterministic_partial_sign (my_key : Keypair) (their_pubkeys : list PublicKey)
    (their_nonces : list PublicNonce) (msg : bytes) (tweak : option bytes) (rand : Z)
  : PublicNonce * PartialSignature :=
  let keys := sort_keys (their_pubkeys ++ [keypair_public_key my_key]) in
  let '(sec_nonce, pub_nonce) := new_nonce_pair my_key (Some msg) rand in
  let agg_nonce := nonce_agg (their_nonces ++ [pub_nonce]) in
  (pub_nonce, session_partial_sign keys tweak agg_nonce msg sec_nonce my_key).

(** [scripts::verify_partial_sig]. *)
Definition verify_partial_sig (sighash tweak : bytes) (signer other : PublicKey * PublicNonce)
    (partial_signature : PartialSignature) : bool :=
  let agg_nonce := nonce_agg [signer.2; other.2] in
  session_partial_verify (sort_keys [signer.1; other.1]) (Some tweak) agg_nonce sighash
    partial_signature signer.2 signer.1.

(** [scripts::fill_taproot_sigs]. *)
Definition push_sig (i : TxIn) (sig : Signature) : TxIn :=
  mkTxIn (previous_output i) (script_sig i) (sequence i) (witness i ++ [sig_serialize sig]).

Definition fill_taproot_sigs {E} (tx : Transaction) (sigs : list Signature) : outcome E Transaction :=
  _ ← assert (bool_decide (length (input tx) = length sigs));
  _ ← assert (forallb (fun i => bool_decide (witness i = [])) (input tx));
  Ok (mkTx (tx_version tx) (lock_time tx) (zip_with push_sig (input tx) sigs) (output tx)).

(** ** Taproot spend info *)
Record Taproot := mkTaproot { internal_key : XOnlyPublicKey; tap_leaves : list (nat * Script) }.

Definition output_key (tr : Taproot) : XOnlyPublicKey :=
  taproot_output_key (internal_key tr) (tap_leaves tr).
Definition tap_tweak (tr : Taproot) : bytes := taproot_tap_tweak (internal_key tr) (tap_leaves tr).
Definition taproot_script_pubkey (tr : Taproot) : bytes := p2tr_script (output_key tr).

(** [TaprootSpendInfo::control_block]: only for a script of the tree. *)
Definition control_block (tr : Taproot) (s : Script) : option bytes :=
  if bool_decide (s ∈ (snd <$> tap_leaves tr))
  then Some (control_block_bytes (internal_key tr) (tap_leaves tr) s) else None.

(** A transaction without its witnesses: what the txid and the sighashes
    commit to. *)
Definition strip_input (i : TxIn) : TxIn :=
  mkTxIn (previous_output i) (script_sig i) (sequence i) [].
Definition strip (tx : Transaction) : Transaction :=
  mkTx (tx_version tx) (lock_time tx) (strip_input <$> input tx) (output tx).
End Bitcoin.

Arguments Script {B}.
Arguments Taproot {B}.

(** ** What the program relies on *)

(** Serialization of keys and signatures (secp256k1): fixed sizes, a compressed
    public key starts with 2 or 3, and parsing inverts serializing. *)
Class SerializeLaws (B : Bitcoin) := {
  pk_serialize_length : forall k : PublicKey, length (pk_serialize k) = 33%nat;
  pk_serialize_head : forall k : PublicKey, head (pk_serialize k) <> Some Byte.x00;
  pk_roundtrip : forall k : PublicKey, pk_from_slice (pk_serialize k) = Some k;
  sig_serialize_length : forall s : Signature, length (sig_serialize s) = 64%nat;
  sig_roundtrip : forall s : Signature, sig_from_slice (sig_serialize s) = Some s;
}.

(** Txids are 32 bytes; txids and taproot sighashes do not commit to witnesses
    (BIP 141, BIP 341); pay-to-taproot and pay-to-anchor scripts differ. *)
Class WitnessLaws (B : Bitcoin) := {
  txid_strip : forall tx, compute_txid (strip tx) = compute_txid tx;
  txid_length : forall tx, length (compute_txid tx) = 32%nat;
  key_sighash_strip : forall tx o, key_spend_sighash (strip tx) o = key_spend_sighash tx o;
  p2tr_not_p2a : forall k : XOnlyPublicKey, p2tr_script k <> p2a_script;
  p2tr_kind : forall k : XOnlyPublicKey, classify_script (p2tr_script k) = P2tr;
}.

(** Different keys serialize differently. *)
Class KeyLaws (B : Bitcoin) := {
  pk_serialize_inj :: Inj (=) (=) (pk_serialize : PublicKey -> bytes);
}.

#[export] Instance serialize_key_laws (B : Bitcoin) `{!SerializeLaws B} : KeyLaws B.
Proof.
  split. intros k k' H. apply (f_equal pk_from_slice) in H. rewrite !pk_roundtrip in H. by injection H.
Qed.

(** Correctness of musig (BIP 327): nonce generation gives a secret nonce with
    its public nonce; a partial signature made with a nonce of the session
    verifies; the aggregate nonce does not depend on the order of the nonces;
    and the aggregate of valid partial signatures of all keys is a valid
    signature for the taproot output key of the aggregate. *)
Class MusigLaws (B : Bitcoin) := {
  new_nonce_pair_pub : forall (kp : Keypair) m r,
    (new_nonce_pair kp m r).2 = sec_to_pub_nonce (new_nonce_pair kp m r).1;
  keyagg_nonce_gen_pub : forall keys tweak (pk : PublicKey) m r,
    (keyagg_nonce_gen keys tweak pk m r).2 = sec_to_pub_nonce (keyagg_nonce_gen keys tweak pk m r).1;
  partial_sign_verifies : forall keys tweak ns msg (kp : Keypair) sn,
    sec_to_pub_nonce sn ∈ ns -> keypair_public_key kp ∈ keys ->
    session_partial_verify keys tweak (nonce_agg ns) msg
      (session_partial_sign keys tweak (nonce_agg ns) msg sn kp) (sec_to_pub_nonce sn)
      (keypair_public_key kp) = true;
  nonce_agg_perm : forall a b : list PublicNonce, a ≡ₚ b -> nonce_agg a = nonce_agg b;
  sig_agg_verifies : forall (keys : list PublicKey) leaves msg ks ns sigs,
    ks ≡ₚ keys -> length ns = length ks -> length sigs = length ks ->
    (forall i k n s, ks !! i = Some k -> ns !! i = Some n -> sigs !! i = Some s ->
      session_partial_verify (sort_keys keys) (Some (taproot_tap_tweak (combine_keys keys) leaves))
        (nonce_agg ns) msg s n k = true) ->
    verify_schnorr
      (session_sig_agg (sort_keys keys) (Some (taproot_tap_tweak (combine_keys keys) leaves))
         (nonce_agg ns) msg sigs) msg (taproot_output_key (combine_keys keys) leaves) = true;
}.

(** ** Key order *)
Section KeyOrder.
Context `{B : Bitcoin} `{K : !KeyLaws B}.

Lemma lex_le_total a : forall b, lex_le a b = true \/ lex_le b a = true.
Proof.
  induction a as [|x a IH]; intros [|y b]; cbn; auto. rewrite !orb_true_iff, !andb_true_iff, !Z.ltb_lt, !Z.eqb_eq.
  destruct (IH b), (Z.lt_total x y) as [?|[?|?]]; auto.
Qed.

Lemma lex_le_trans a : forall b c, lex_le a b = true -> lex_le b c = true -> lex_le a c = true.
Proof.
  induction a as [|x a IH]; intros [|y b] [|z c]; cbn; try done.
  rewrite !orb_true_iff, !andb_true_iff, !Z.ltb_lt, !Z.eqb_eq. intros [?|[-> ?]] [?|[-> ?]]; eauto; left; lia.
Qed.

Lemma lex_le_antisym a : forall b, lex_le a b = true -> lex_le b a = true -> a = b.
Proof.
  induction a as [|x a IH]; intros [|y b]; cbn; try done.
  rewrite !orb_true_iff, !andb_true_iff, !Z.ltb_lt, !Z.eqb_eq. intros [?|[-> ?]] [?|[? ?]]; try lia.
  f_equal. auto.
Qed.

#[local] Instance key_le_total : Total (key_le (B := B)).
Proof. intros a b. apply lex_le_total. Qed.
#[local] Instance key_le_trans : Transitive (key_le (B := B)).
Proof. intros a b c. apply lex_le_trans. Qed.
#[local] Instance byte_unsigned_inj : Inj (=) (=) byte.unsigned.
Proof. intros a b. apply byte.unsigned_inj. Qed.
#[local] Instance key_le_antisym : AntiSymm (=) (key_le (B := B)).
Proof. intros a b Hab Hba. by apply (inj pk_serialize), (inj (fmap byte.unsigned)), lex_le_antisym. Qed.

Lemma sort_keys_perm ks ks' : ks ≡ₚ ks' -> sort_keys ks = sort_keys ks'.
Proof.
  intros H. apply (Sorted_unique key_le); [apply Sorted_merge_sort; apply _..|].
  unfold sort_keys. by rewrite !merge_sort_Permutation.
Qed.

Lemma sort_keys_swap a b : sort_keys [a; b] = sort_keys [b; a].
Proof. apply sort_keys_perm. constructor. Qed.

Lemma elem_of_sort_keys k ks : k ∈ sort_keys ks <-> k ∈ ks.
Proof. unfold sort_keys. by rewrite merge_sort_Permutation. Qed.

(** The order in which keys are given does not matter: the aggregate key
    and every signing session over them depend only on the keys themselves. *)
Theorem combine_keys_order ks ks' agg_nonce msg tweak sigs : ks ≡ₚ ks' ->
  combine_keys ks = combine_keys ks' /\
  combine_partial_signatures ks agg_nonce msg tweak sigs = combine_partial_signatures ks' agg_nonce msg tweak sigs.
Proof.
  intros H. unfold combine_keys, combine_partial_signatures. by rewrite (sort_keys_perm _ _ H).
Qed.
End KeyOrder.

(** ** Musig sessions *)
Section Sessions.
Context `{B : Bitcoin} `{K : !KeyLaws B} `{M : !MusigLaws B}.

(** A deterministic cosignature verifies for the other signer. *)
Lemma deterministic_partial_sign_verifies key other_pk other_nonce msg tweak r :
  let '(pn, ps) := deterministic_partial_sign key [other_pk] [other_nonce] msg (Some tweak) r in
  verify_partial_sig msg tweak (keypair_public_key key, pn) (other_pk, other_nonce) ps = true.
Proof.
  unfold deterministic_partial_sign, verify_partial_sig. cbn [app].
  pose proof (new_nonce_pair_pub key (Some msg) r) as Hp. destruct (new_nonce_pair key (Some msg) r) as [sn pn].
  cbn [fst snd] in *. subst pn.
  rewrite (sort_keys_swap other_pk), (nonce_agg_perm [other_nonce; _] [_; other_nonce]) by constructor.
  apply partial_sign_verifies; [set_solver|]. rewrite elem_of_sort_keys. set_solver.
Qed.

(** When the other signer's partial signature verifies, the partial signature
    [partial_sign] makes verifies too and the final signature is valid for the
    taproot output key. *)
Lemma partial_sign_final pk1 pk2 key n2 sn ps2 msg leaves : keypair_public_key key = pk1 ->
  let tr_key := combine_keys [pk1; pk2] in
  let n1 := sec_to_pub_nonce sn in
  let tweak := taproot_tap_tweak tr_key leaves in
  verify_partial_sig msg tweak (pk2, n2) (pk1, n1) ps2 = true ->
  exists ps1 sig, partial_sign [pk1; pk2] (nonce_agg [n1; n2]) key sn msg (Some tweak) (Some [ps2]) = (ps1, Some sig) /\
    verify_partial_sig msg tweak (pk1, n1) (pk2, n2) ps1 = true /\
    verify_schnorr sig msg (taproot_output_key tr_key leaves) = true.
Proof.
  intros Hkey tr_key n1 tweak Hv. do 2 eexists. split; [reflexivity|].
  assert (session_partial_verify (sort_keys [pk1; pk2]) (Some tweak) (nonce_agg [n1; n2]) msg
    (session_partial_sign (sort_keys [pk1; pk2]) (Some tweak) (nonce_agg [n1; n2]) msg sn key) n1 pk1 = true) as H1.
  { rewrite <- Hkey. apply partial_sign_verifies; [set_solver|]. rewrite elem_of_sort_keys. set_solver. }
  split; [exact H1|]. unfold tr_key.
  rewrite (nonce_agg_perm [n1; n2] [n2; n1]) in * by constructor.
  apply (sig_agg_verifies [pk1; pk2] leaves msg [pk2; pk1] [n2; n1]); [constructor|done..|].
  unfold verify_partial_sig in Hv. cbn [fst snd] in Hv. rewrite (sort_keys_swap pk2) in Hv.
  intros [|[|i]] k n s; cbn; intros [= <-] [= <-] [= <-]; done.
Qed.
End Sessions.
