(* ===== verification/Encode.v ===== *)
(** * The protocol encoding (lib/src/encode.rs)

    Writers append bytes, readers consume a prefix of the input; a reader
    fails with an I/O error when the input is too short.  The interface
    [ProtocolEncoding] is the trait of the same name, and [EncodingLaws] is what
    the rest of the program expects of every implementation: decoding what was
    encoded gives the value back and leaves the rest of the input untouched. *)
From S2P Require Import Prelude Bitcoin.

Open Scope Z_scope.

Inductive DecodingError :=
  | Io
  | NonMinimalVarint
  | Invalid (message : string).

#[export] Instance DecodingError_eq_dec : EqDecision DecodingError.
Proof. solve_decision. Defined.

(** A reader: the value read and the input left. *)
Definition reader (A : Type) : Type := bytes -> outcome DecodingError (A * bytes).

#[export] Instance reader_ret : MRet reader := fun A a inp => Ok (a, inp).
#[export] Instance reader_bind : MBind reader := fun A B f r inp =>
  match r inp with
  | Ok (a, inp') => f a inp'
  | Err e => Err e
  | Panic => Panic
  end.

Definition fail {A} (e : DecodingError) : reader A := fun _ => Err e.

(** [Result]s inside a reader. *)
Definition lift {A} (m : outcome DecodingError A) : reader A := fun inp => a ← m; Ok (a, inp).

(** ** [ReadExt] and [WriteExt] *)

(** [read_exact] on a buffer of [n] bytes. *)
Definition read_exact (n : nat) : reader bytes := fun inp =>
  if bool_decide (n <= length inp)%nat then Ok (take n inp, drop n inp) else Err Io.

Definition read_int (n : nat) : reader Z := bs ← read_exact n; mret (le_combine bs).
Definition emit_int (n : nat) (v : Z) : bytes := le_split n v.

Definition emit_u8 : Z -> bytes := emit_int 1.
Definition emit_u16 : Z -> bytes := emit_int 2.
Definition emit_u32 : Z -> bytes := emit_int 4.
Definition emit_u64 : Z -> bytes := emit_int 8.
Definition read_u8 : reader Z := read_int 1.
Definition read_u16 : reader Z := read_int 2.
Definition read_u32 : reader Z := read_int 4.
Definition read_u64 : reader Z := read_int 8.

(** The bytes written and the count [emit_compact_size] returns. *)
Definition emit_compact_size_counted (value : Z) : bytes * nat :=
  if value <=? 0xFC then (emit_u8 value, 1%nat)
  else if value <=? 0xFFFF then (emit_u8 0xFD ++ emit_u16 value, 3%nat)
  else if value <=? 0xFFFFFFFF then (emit_u8 0xFE ++ emit_u32 value, 5%nat)
  else (emit_u8 0xFF ++ emit_u64 value, 9%nat).

Definition emit_compact_size (value : Z) : bytes := (emit_compact_size_counted value).1.

Definition read_compact_size : reader Z :=
  b ← read_u8;
  if b =? 0xFF then
    x ← read_u64; if x <? 0x100000000 then fail NonMinimalVarint else mret x
  else if b =? 0xFE then
    x ← read_u32; if x <? 0x10000 then fail NonMinimalVarint else mret x
  else if b =? 0xFD then
    x ← read_u16; if x <? 0xFD then fail NonMinimalVarint else mret x
  else mret b.

(** A loop that reads [n] items. *)
Fixpoint read_n {A} (r : reader A) (n : nat) : reader (list A) :=
  match n with
  | O => mret []
  | S n' => a ← r; l ← read_n r n'; mret (a :: l)
  end.

(** ** The trait

    [encode] panics where the source calls [expect] on a length conversion. *)
Class ProtocolEncoding (A : Type) := {
  encode : A -> outcome DecodingError bytes;
  decode : reader A;
}.

(** What an implementation promises for the values in [valid]. *)
Class EncodingLaws (A : Type) `{ProtocolEncoding A} (valid : A -> Prop) := {
  encode_total : forall a, valid a -> exists bs, encode a = Ok bs;
  decode_encode : forall a bs rest, valid a -> encode a = Ok bs -> decode (bs ++ rest) = Ok (a, rest);
}.

(** [serialize] and [deserialize]; the latter ignores what follows the value. *)
Definition serialize {A} `{ProtocolEncoding A} (a : A) : outcome DecodingError bytes := encode a.
Definition deserialize {A} `{ProtocolEncoding A} (bs : bytes) : outcome DecodingError A :=
  r ← decode bs; Ok (r.1).

(** Encoding a sequence of items, one after the other. *)
Definition encode_all {A} `{ProtocolEncoding A} (l : list A) : outcome DecodingError bytes :=
  bss ← mapM encode l; Ok (concat bss).

(** ** Lemmas on readers *)
Lemma bind_reader_Ok {A B} (r : reader A) (f : A -> reader B) inp a inp' :
  r inp = Ok (a, inp') -> (r ≫= f) inp = f a inp'.
Proof. unfold mbind, reader_bind. by intros ->. Qed.

Lemma read_exact_app bs rest n : length bs = n -> read_exact n (bs ++ rest) = Ok (bs, rest).
Proof.
  intros <-. unfold read_exact. rewrite bool_decide_true by (rewrite length_app; lia).
  by rewrite take_app_length, drop_app_length.
Qed.

Lemma read_int_emit n v rest :
  0 <= v < 2 ^ (Z.of_nat n * 8) -> read_int n (emit_int n v ++ rest) = Ok (v, rest).
Proof.
  intros Hv. unfold read_int, emit_int.
  rewrite (bind_reader_Ok _ _ _ _ _ (read_exact_app _ rest n (length_le_split _ _))).
  cbn. by rewrite le_combine_split, Z.mod_small.
Qed.

Lemma read_u8_emit v rest : in_u8 v = true -> read_u8 (emit_u8 v ++ rest) = Ok (v, rest).
Proof. intros H%in_width_spec. by apply read_int_emit. Qed.
Lemma read_u16_emit v rest : in_u16 v = true -> read_u16 (emit_u16 v ++ rest) = Ok (v, rest).
Proof. intros H%in_width_spec. by apply read_int_emit. Qed.
Lemma read_u32_emit v rest : in_u32 v = true -> read_u32 (emit_u32 v ++ rest) = Ok (v, rest).
Proof. intros H%in_width_spec. by apply read_int_emit. Qed.
Lemma read_u64_emit v rest : in_u64 v = true -> read_u64 (emit_u64 v ++ rest) = Ok (v, rest).
Proof. intros H%in_width_spec. by apply read_int_emit. Qed.

Lemma read_u8_range inp v rest : read_u8 inp = Ok (v, rest) -> 0 <= v < 256.
Proof.
  unfold read_u8, read_int, mbind, reader_bind, read_exact. case_bool_decide; [|done].
  cbn. intros [= <- _]. pose proof (le_combine_bound (take 1 inp)) as Hb.
  rewrite length_take in Hb. replace (1 `min` length inp)%nat with 1%nat in Hb by lia. cbn in Hb. lia.
Qed.

(** Rewriting one step of a reader whose input starts with what was emitted. *)
Ltac read_side := first [assumption | done | apply in_width_spec; lia].
Ltac read_step :=
  lazymatch goal with
  | |- (read_u8 ≫= ?f) _ = _ => erewrite (bind_reader_Ok read_u8 f) by (apply read_u8_emit; read_side)
  | |- (read_u16 ≫= ?f) _ = _ => erewrite (bind_reader_Ok read_u16 f) by (apply read_u16_emit; read_side)
  | |- (read_u32 ≫= ?f) _ = _ => erewrite (bind_reader_Ok read_u32 f) by (apply read_u32_emit; read_side)
  | |- (read_u64 ≫= ?f) _ = _ => erewrite (bind_reader_Ok read_u64 f) by (apply read_u64_emit; read_side)
  | |- (read_exact ?n ≫= ?f) _ = _ =>
      erewrite (bind_reader_Ok (read_exact n) f) by (apply read_exact_app; read_side)
  | |- (decode ≫= ?f) _ = _ =>
      erewrite (bind_reader_Ok decode f) by (eapply decode_encode; [|eassumption]; read_side)
  end.

Lemma encode_all_cons {A} `{ProtocolEncoding A} (a : A) l bs :
  encode_all (a :: l) = Ok bs ->
  exists b1 b2, encode a = Ok b1 /\ encode_all l = Ok b2 /\ bs = b1 ++ b2.
Proof.
  unfold encode_all. intros H0. apply bind_Ok in H0 as (bss & Hm & [= <-]).
  apply mapM_outcome_Ok in Hm. inversion Hm as [|? b ? bss' Hb Hbss]; subst.
  exists b, (concat bss'). split_and!; [done| |done].
  by rewrite (proj2 (mapM_outcome_Ok _ _ _) Hbss).
Qed.

Lemma read_n_encode_all {A} `{EncodingLaws A valid} (l : list A) bs rest :
  Forall valid l -> encode_all l = Ok bs ->
  read_n decode (length l) (bs ++ rest) = Ok (l, rest).
Proof.
  intros Hl. revert bs. induction Hl as [|a l Ha Hl IH]; intros bs Hbs.
  - injection Hbs as <-. done.
  - apply encode_all_cons in Hbs as (b1 & b2 & H1 & H2 & ->). cbn [read_n length].
    rewrite <- app_assoc. erewrite bind_reader_Ok by (by eapply decode_encode).
    erewrite bind_reader_Ok by (by apply IH). done.
Qed.

Lemma encode_all_total {A} `{EncodingLaws A valid} (l : list A) :
  Forall valid l -> exists bs, encode_all l = Ok bs.
Proof.
  induction 1 as [|a l Ha _ [bs IH]]; [by exists []|].
  destruct (encode_total a Ha) as [b Hb]. unfold encode_all in *.
  apply bind_Ok in IH as (bss & Hm & [= <-]). exists (concat (b :: bss)).
  cbn. rewrite Hb. cbn. by rewrite Hm.
Qed.

(** ** Compact size integers *)
Lemma read_compact_size_emit v rest :
  in_u64 v = true -> read_compact_size (emit_compact_size v ++ rest) = Ok (v, rest).
Proof.
  intros Hv%in_width_spec. unfold emit_compact_size, emit_compact_size_counted, read_compact_size.
  destruct (Z.leb_spec v 0xFC); [|destruct (Z.leb_spec v 0xFFFF);
    [|destruct (Z.leb_spec v 0xFFFFFFFF)]]; cbn [fst]; rewrite <- ?app_assoc.
  - erewrite bind_reader_Ok by (apply read_u8_emit, in_width_spec; lia). cbv beta.
    destruct (Z.eqb_spec v 255), (Z.eqb_spec v 254), (Z.eqb_spec v 253); done || lia.
  - read_step. cbn -[read_u16].
    erewrite bind_reader_Ok by (apply read_u16_emit, in_width_spec; lia).
    destruct (Z.ltb_spec v 253); done || lia.
  - read_step. cbn -[read_u32].
    erewrite bind_reader_Ok by (apply read_u32_emit, in_width_spec; lia).
    destruct (Z.ltb_spec v 65536); done || lia.
  - read_step. cbn -[read_u64].
    erewrite bind_reader_Ok by (apply read_u64_emit, in_width_spec; lia).
    destruct (Z.ltb_spec v 4294967296); done || lia.
Qed.

(** A successful read consumed exactly the little-endian bytes of the value. *)
Lemma read_int_inv n inp v rest :
  read_int n inp = Ok (v, rest) -> inp = emit_int n v ++ rest /\ 0 <= v < 2 ^ (Z.of_nat n * 8).
Proof.
  unfold read_int, mbind, reader_bind, read_exact. case_bool_decide; [|done].
  intros [= <- <-]. unfold emit_int. split.
  - rewrite split_le_combine' by (rewrite length_take; lia). by rewrite take_drop.
  - pose proof (le_combine_bound (take n inp)) as Hb. rewrite length_take, Nat.min_l in Hb by lia.
    by rewrite Z.mul_comm.
Qed.

Lemma bind_reader_inv {A B} (r : reader A) (f : A -> reader B) inp b rest :
  (r ≫= f) inp = Ok (b, rest) -> exists a inp', r inp = Ok (a, inp') /\ f a inp' = Ok (b, rest).
Proof. unfold mbind, reader_bind. destruct (r inp) as [[a inp']|e|]; [|done..]. eauto. Qed.

(** A compact size written by [emit_compact_size] reads back as the same
    value with the rest of the input untouched, and the count it returns is the
    number of bytes it wrote. *)
Theorem compact_size_roundtrip v rest : in_u64 v = true ->
  read_compact_size (emit_compact_size v ++ rest) = Ok (v, rest) /\
  length (emit_compact_size v) = (emit_compact_size_counted v).2.
Proof.
  intros Hv. split; [by apply read_compact_size_emit|].
  unfold emit_compact_size, emit_compact_size_counted, emit_u8, emit_u16, emit_u32, emit_u64, emit_int.
  repeat destruct (_ <=? _); cbn [fst snd]; by rewrite ?length_app, ?length_le_split.
Qed.

Lemma compact_size_roundtrip_witness :
  read_compact_size (emit_compact_size 70000 ++ [Byte.x01]) = Ok (70000, [Byte.x01]) /\
  length (emit_compact_size 70000) = (emit_compact_size_counted 70000).2.
Proof. apply (compact_size_roundtrip 70000 [Byte.x01]). reflexivity. Defined.

(** Compact sizes are canonical: whatever input [read_compact_size] accepts
    starts with exactly the bytes [emit_compact_size] writes for the value read,
    so no value has two encodings. *)
Theorem compact_size_canonical inp v rest :
  read_compact_size inp = Ok (v, rest) -> inp = emit_compact_size v ++ rest /\ in_u64 v = true.
Proof.
  unfold read_compact_size. intros H. apply bind_reader_inv in H as (b & i1 & Hb & H).
  apply read_int_inv in Hb as [-> Hb]. change (2 ^ (Z.of_nat 1 * 8)) with 256 in Hb.
  rewrite in_width_spec. unfold emit_compact_size, emit_compact_size_counted.
  destruct (Z.eqb_spec b 255) as [->|]; [|destruct (Z.eqb_spec b 254) as [->|];
    [|destruct (Z.eqb_spec b 253) as [->|]]].
  1-3: apply bind_reader_inv in H as (x & i2 & Hx & H); apply read_int_inv in Hx as [-> Hx];
    cbn in Hx.
  1: destruct (Z.ltb_spec x 4294967296); [done|].
  2: destruct (Z.ltb_spec x 65536); [done|].
  3: destruct (Z.ltb_spec x 253); [done|].
  all: injection H as <- <-.
  all: repeat match goal with |- context [?a <=? ?b] => destruct (Z.leb_spec a b); [try lia|try lia] end.
  all: split; [cbn [fst]; rewrite <- ?app_assoc; done|lia].
Qed.

Lemma compact_size_canonical_witness :
  emit_u8 0xFD ++ emit_u16 300 = emit_compact_size 300 ++ [] /\ in_u64 300 = true.
Proof. apply (compact_size_canonical (emit_u8 0xFD ++ emit_u16 300) 300 []). reflexivity. Defined.

(** ** Keys, signatures and hashes *)
Section Crypto.
Context `{B : Bitcoin}.

#[export] Instance PublicKey_encoding : ProtocolEncoding PublicKey := {
  encode k := Ok (pk_serialize k);
  decode :=
    buf ← read_exact 33;
    lift (ok_or (pk_from_slice buf) (Invalid "invalid public key"));
}.

(** No key is the single byte 0; a key starts with its own non-zero byte. *)
#[export] Instance option_PublicKey_encoding : ProtocolEncoding (option PublicKey) := {
  encode o := Ok (match o with Some k => pk_serialize k | None => emit_u8 0 end);
  decode :=
    first ← read_u8;
    if first =? 0 then mret None
    else
      tl ← read_exact 32;
      k ← lift (ok_or (pk_from_slice (emit_u8 first ++ tl)) (Invalid "invalid public key"));
      mret (Some k);
}.

#[export] Instance Signature_encoding : ProtocolEncoding Signature := {
  encode s := Ok (sig_serialize s);
  decode :=
    buf ← read_exact 64;
    lift (ok_or (sig_from_slice buf) (Invalid "invalid schnorr signature"));
}.

(** 64 zero bytes stand for no signature. *)
#[export] Instance option_Signature_encoding : ProtocolEncoding (option Signature) := {
  encode o := Ok (match o with Some s => sig_serialize s | None => replicate 64 Byte.x00 end);
  decode :=
    buf ← read_exact 64;
    if bool_decide (buf = replicate 64 Byte.x00) then mret None
    else
      s ← lift (ok_or (sig_from_slice buf) (Invalid "invalid schnorr signature"));
      mret (Some s);
}.

(** [sha256::Hash] and [[u8; 32]]. *)
Definition encode_hash (h : bytes) : bytes := h.
Definition decode_hash : reader bytes := read_exact 32.

Definition encode_option_hash (o : option bytes) : bytes :=
  match o with Some h => emit_u8 1 ++ h | None => emit_u8 0 end.
Definition decode_option_hash : reader (option bytes) :=
  first ← read_u8;
  if first =? 0 then mret None
  else if first =? 1 then h ← read_exact 32; mret (Some h)
  else fail (Invalid "invalid optional hash prefix byte").

Definition valid_option_sig (o : option Signature) : Prop :=
  forall s, o = Some s -> sig_serialize s <> replicate 64 Byte.x00.

Context `{L : !SerializeLaws B}.

#[export] Instance PublicKey_laws : EncodingLaws PublicKey (fun _ => True).
Proof.
  split; [intros a _; by eexists|]. intros a bs rest _ [= <-]. cbn.
  erewrite bind_reader_Ok by (apply read_exact_app, pk_serialize_length).
  unfold lift. by rewrite pk_roundtrip.
Qed.

#[export] Instance option_PublicKey_laws : EncodingLaws (option PublicKey) (fun _ => True).
Proof.
  split; [intros a _; by eexists|]. intros [k|] bs rest _ [= <-]; cbn; [|done].
  pose proof (pk_serialize_length k) as Hl. pose proof (pk_serialize_head k) as Hh.
  destruct (pk_serialize k) as [|b tl] eqn:E; [done|]. cbn in Hl.
  assert (emit_u8 (byte.unsigned b) = [b]) as Hb.
  { unfold emit_u8, emit_int. rewrite <- (le_combine_1 b). by apply (split_le_combine' [b]). }
  change ((b :: tl) ++ rest) with ([b] ++ (tl ++ rest)). rewrite <- Hb.
  erewrite bind_reader_Ok by (apply read_u8_emit, in_width_spec, byte.unsigned_range).
  destruct (Z.eqb_spec (byte.unsigned b) 0) as [H0|_].
  - exfalso. apply Hh. cbn. f_equal. by apply byte.unsigned_inj.
  - erewrite bind_reader_Ok by (apply read_exact_app; lia).
    rewrite Hb. change ([b] ++ tl) with (b :: tl). rewrite <- E.
    unfold lift, mbind, reader_bind. rewrite pk_roundtrip. done.
Qed.

#[export] Instance Signature_laws : EncodingLaws Signature (fun _ => True).
Proof.
  split; [intros a _; by eexists|]. intros a bs rest _ [= <-]. cbn.
  erewrite bind_reader_Ok by (apply read_exact_app, sig_serialize_length).
  unfold lift. by rewrite sig_roundtrip.
Qed.

#[export] Instance option_Signature_laws : EncodingLaws (option Signature) valid_option_sig.
Proof.
  split; [intros a _; by eexists|]. intros [s|] bs rest Hv [= <-]; cbn [decode option_Signature_encoding].
  - erewrite bind_reader_Ok by (apply read_exact_app, sig_serialize_length).
    rewrite bool_decide_false by (by apply Hv).
    unfold lift, mbind, reader_bind. by rewrite sig_roundtrip.
  - erewrite bind_reader_Ok by (by apply read_exact_app). by rewrite bool_decide_true.
Qed.

Lemma decode_hash_encode h rest :
  length h = 32%nat -> decode_hash (encode_hash h ++ rest) = Ok (h, rest).
Proof. apply read_exact_app. Qed.

(** The optional hash, key and signature encodings round trip; for
    signatures this needs the signature not to be the 64 zero bytes that stand
    for "no signature". *)
Theorem optional_roundtrip (h : option bytes) (k : option PublicKey) (s : option Signature) rest :
  from_option (fun b => length b = 32%nat) True h -> valid_option_sig s ->
  decode_option_hash (encode_option_hash h ++ rest) = Ok (h, rest) /\
  (exists bk, encode k = Ok bk /\ decode (bk ++ rest) = Ok (k, rest)) /\
  (exists bs, encode s = Ok bs /\ decode (bs ++ rest) = Ok (s, rest)).
Proof.
  intros Hh Hs. split_and!.
  - unfold decode_option_hash. destruct h as [h|]; cbn [encode_option_hash from_option] in *.
    + rewrite <- app_assoc. read_step. cbn -[read_exact].
      by erewrite bind_reader_Ok by (by apply read_exact_app).
    + by read_step.
  - eexists. split; [done|]. by eapply (decode_encode (valid := fun _ => True)).
  - eexists. split; [done|]. by eapply (decode_encode (valid := valid_option_sig)).
Qed.
End Crypto.

(** ** Consensus encodings of rust-bitcoin

    [OutPoint] and [TxOut] are written with their bitcoin consensus encoding. *)
Class Consensus := {
  OutPoint_encoding :: ProtocolEncoding OutPoint;
  TxOut_encoding :: ProtocolEncoding TxOut;
}.

Definition valid_outpoint (p : OutPoint) : Prop :=
  length (op_txid p) = 32%nat /\ in_u32 (op_vout p) = true.
Definition valid_txout (o : TxOut) : Prop :=
  in_u64 (value o) = true /\ in_u64 (Z.of_nat (length (script_pubkey o))) = true.

Class ConsensusLaws (C : Consensus) := {
  OutPoint_laws :: EncodingLaws OutPoint valid_outpoint;
  TxOut_laws :: EncodingLaws TxOut valid_txout;
}.
