(* ===== verification/Concrete.v ===== *)
(** * A concrete instance of the third-party interfaces

    The class [Bitcoin] stands for rust-bitcoin, secp256k1 and musig.  This file
    gives executable instances that satisfy the law classes, so that every
    theorem with such a hypothesis can be applied to a concrete input.  Keys are
    single bytes, hashes a polynomial checksum, a signature the pair of the key
    and the message it signs ([model]) or a single byte ([ser_model], used where
    signatures are serialized). *)
From S2P Require Import Prelude Bitcoin Encode.

Open Scope Z_scope.

(** The value of a computation that succeeds. *)
Definition ok_value {E A} (d : A) (m : outcome E A) : A := match m with Ok a => a | _ => d end.

Definition hash (bs : bytes) : bytes :=
  le_split 32 (foldl (fun acc b => Z.land (acc * 5 + byte.unsigned b + 1) (Z.ones 20)) 7 bs).

Definition int_bytes (z : Z) : bytes := le_split 8 z.

Definition op_bytes (o : script_op bytes) : bytes :=
  match o with
  | PushInt z => Byte.x01 :: int_bytes z
  | PushSlice b => Byte.x02 :: b
  | PushXOnlyKey k => Byte.x03 :: k
  | OP_CSV => [Byte.xb2]
  | OP_CLTV => [Byte.xb1]
  | OP_DROP => [Byte.x75]
  | OP_HASH160 => [Byte.xa9]
  | OP_EQUALVERIFY => [Byte.x88]
  | OP_CHECKSIG => [Byte.xac]
  end.

Definition leaves_bytes (l : list (nat * list (script_op bytes))) : bytes :=
  l ≫= fun p => snd p ≫= op_bytes.

Definition txout_bytes (o : TxOut) : bytes := int_bytes (value o) ++ script_pubkey o.
Definition txin_bytes (i : TxIn) : bytes :=
  op_txid (previous_output i) ++ int_bytes (op_vout (previous_output i)) ++ int_bytes (sequence i).
Definition tx_bytes (tx : Transaction) : bytes :=
  int_bytes (tx_version tx) ++ int_bytes (lock_time tx) ++
  (input tx ≫= txin_bytes) ++ (output tx ≫= txout_bytes).

Definition model_output_key (k : bytes) (l : list (nat * list (script_op bytes))) : bytes :=
  match l with [] => k | _ => hash (k ++ leaves_bytes l) end.

Definition model : Bitcoin := {|
  PublicKey := Byte.byte;
  XOnlyPublicKey := bytes;
  Signature := bytes * bytes;
  Keypair := Byte.byte;
  keypair_public_key k := k;
  x_only_public_key k := [k];
  pk_serialize k := Byte.x02 :: replicate 31 Byte.x00 ++ [k];
  pk_from_slice bs := last bs;
  sig_serialize s := hash (s.1 ++ s.2) ++ hash s.2;
  sig_from_slice _ := None;
  verify_schnorr s msg key := bool_decide (s = (key, msg));
  sha256 := hash;
  ripemd160 bs := take 20 (hash bs);
  PublicNonce := Z;
  SecretNonce := Z;
  PartialSignature := Byte.byte * Z * bytes;
  AggregatedNonce := Z;
  agg_pk ks := ks;
  new_nonce_pair _ _ r := (r, r);
  keyagg_nonce_gen _ _ _ _ r := (r, r);
  sec_to_pub_nonce r := r;
  nonce_agg := sum_Z;
  session_partial_sign _ _ _ msg sn kp := (kp, sn, msg);
  session_partial_verify _ _ _ msg s pn pk := bool_decide (s = (pk, pn, msg));
  session_sig_agg keys tweak _ msg _ := (default keys tweak, msg);
  compute_txid tx := hash (tx_bytes (strip tx));
  key_spend_sighash tx o := hash (tx_bytes (strip tx) ++ txout_bytes o);
  script_spend_sighash tx o s := hash (tx_bytes (strip tx) ++ txout_bytes o ++ (s ≫= op_bytes));
  locktime_from_height h := if (0 <=? h) && (h <? 500000000) then Some h else None;
  script_bytes s := s ≫= op_bytes;
  taproot_output_key := model_output_key;
  taproot_tap_tweak := model_output_key;
  control_block_bytes k l _ := k ++ leaves_bytes l;
  p2tr_script k := Byte.x51 :: Byte.x20 :: k;
  p2a_script := [Byte.x51; Byte.x02; Byte.x4e; Byte.x73];
  classify_script bs :=
    match bs with Byte.x51 :: Byte.x20 :: _ => P2tr | _ => OtherScript end;
|}.

Lemma strip_strip tx : strip (strip tx) = strip tx.
Proof.
  unfold strip. cbn. f_equal. rewrite <- list_fmap_compose. apply list_fmap_ext. done.
Qed.

#[export] Instance model_witness_laws : WitnessLaws model.
Proof.
  split.
  - intros tx. cbn. by rewrite strip_strip.
  - intros tx. apply length_le_split.
  - intros tx o. cbn. by rewrite strip_strip.
  - intros k. cbn. done.
  - done.
Qed.

#[export] Instance model_key_laws : KeyLaws model.
Proof. split. intros k k' H. apply (f_equal last) in H. cbn in H. by injection H. Qed.

#[export] Instance model_musig_laws : MusigLaws model.
Proof.
  split; [done..| | |].
  - intros keys tweak ns msg kp sn _ _. by apply bool_decide_eq_true.
  - apply sum_Z_perm.
  - intros keys leaves msg ks ns sigs _ _ _ _. cbn. by apply bool_decide_eq_true.
Qed.

(** The same with one-byte signatures, which serialize to 64 bytes. *)
Definition ser_model : Bitcoin := {|
  PublicKey := Byte.byte;
  XOnlyPublicKey := bytes;
  Signature := Byte.byte;
  Keypair := Byte.byte;
  keypair_public_key k := k;
  x_only_public_key k := [k];
  pk_serialize k := Byte.x02 :: replicate 31 Byte.x00 ++ [k];
  pk_from_slice bs := last bs;
  sig_serialize s := replicate 63 Byte.x00 ++ [s];
  sig_from_slice bs := last bs;
  verify_schnorr _ _ _ := true;
  sha256 := hash;
  ripemd160 bs := take 20 (hash bs);
  PublicNonce := Z;
  SecretNonce := Z;
  PartialSignature := Byte.byte * Z * bytes;
  AggregatedNonce := Z;
  agg_pk ks := ks;
  new_nonce_pair _ _ r := (r, r);
  keyagg_nonce_gen _ _ _ _ r := (r, r);
  sec_to_pub_nonce r := r;
  nonce_agg := sum_Z;
  session_partial_sign _ _ _ msg sn kp := (kp, sn, msg);
  session_partial_verify _ _ _ msg s pn pk := bool_decide (s = (pk, pn, msg));
  session_sig_agg _ _ _ _ _ := Byte.x01;
  compute_txid tx := hash (tx_bytes (strip tx));
  key_spend_sighash tx o := hash (tx_bytes (strip tx) ++ txout_bytes o);
  script_spend_sighash tx o s := hash (tx_bytes (strip tx) ++ txout_bytes o ++ (s ≫= op_bytes));
  locktime_from_height h := if (0 <=? h) && (h <? 500000000) then Some h else None;
  script_bytes s := s ≫= op_bytes;
  taproot_output_key := model_output_key;
  taproot_tap_tweak := model_output_key;
  control_block_bytes k l _ := k ++ leaves_bytes l;
  p2tr_script k := Byte.x51 :: Byte.x20 :: k;
  p2a_script := [Byte.x51; Byte.x02; Byte.x4e; Byte.x73];
  classify_script bs :=
    match bs with Byte.x51 :: Byte.x20 :: _ => P2tr | _ => OtherScript end;
|}.

#[export] Instance ser_model_laws : SerializeLaws ser_model.
Proof.
  split; cbn [ser_model pk_serialize sig_serialize pk_from_slice sig_from_slice PublicKey Signature].
  - intros k. by rewrite length_cons, length_app.
  - done.
  - intros k. rewrite (last_cons Byte.x02). by rewrite last_snoc.
  - intros s. by rewrite length_app.
  - intros s. by rewrite last_snoc.
Qed.

(** The consensus encodings of bitcoin. *)
#[export] Instance model_consensus : Consensus := {|
  OutPoint_encoding := {|
    encode p := Ok (op_txid p ++ emit_u32 (op_vout p));
    decode := txid ← read_exact 32; vout ← read_u32; mret (mkOutPoint txid vout);
  |};
  TxOut_encoding := {|
    encode o := Ok (emit_u64 (value o) ++
      emit_compact_size (Z.of_nat (length (script_pubkey o))) ++ script_pubkey o);
    decode :=
      v ← read_u64; n ← read_compact_size; s ← read_exact (Z.to_nat n); mret (mkTxOut v s);
  |};
|}.

#[export] Instance model_consensus_laws : ConsensusLaws model_consensus.
Proof.
  split; split.
  - intros p _. by eexists.
  - intros [txid vout] bs rest [Ht Hv] [= <-]. cbn in *. rewrite <- app_assoc.
    read_step. by read_step.
  - intros o _. by eexists.
  - intros [v s] bs rest [Hv Hs] [= <-]. cbn -[read_compact_size emit_compact_size] in *.
    rewrite <- !app_assoc. read_step.
    erewrite bind_reader_Ok by (by apply read_compact_size_emit).
    rewrite Nat2Z.id. by read_step.
Qed.

Lemma optional_roundtrip_witness :
  decode_option_hash (encode_option_hash (Some (hash [])) ++ [Byte.x01]) = Ok (Some (hash []), [Byte.x01]) /\
    (exists bk, encode (Some Byte.x05 : option (@PublicKey ser_model)) = Ok bk /\
       decode (bk ++ [Byte.x01]) = Ok (Some Byte.x05 : option (@PublicKey ser_model), [Byte.x01])) /\
    (exists bs, encode (Some Byte.x07 : option (@Signature ser_model)) = Ok bs /\
       decode (bs ++ [Byte.x01]) = Ok (Some Byte.x07 : option (@Signature ser_model), [Byte.x01])).
Proof.
  apply (optional_roundtrip (B := ser_model) (Some (hash [])) (Some Byte.x05) (Some Byte.x07) [Byte.x01]).
  - reflexivity.
  - intros s [= <-]. vm_compute. discriminate.
Defined.

Lemma combine_keys_order_witness :
  combine_keys (B := model) [Byte.x05; Byte.x01; Byte.x03] = combine_keys (B := model) [Byte.x01; Byte.x03; Byte.x05] /\
  combine_partial_signatures (B := model) [Byte.x05; Byte.x01; Byte.x03] 4 [] None [] =
  combine_partial_signatures (B := model) [Byte.x01; Byte.x03; Byte.x05] 4 [] None [].
Proof.
  apply (combine_keys_order (B := model) [Byte.x05; Byte.x01; Byte.x03] [Byte.x01; Byte.x03; Byte.x05]).
  apply (bool_decide_unpack _). vm_compute. exact I.
Defined.
