(* ===== verification/Policy.v ===== *)
(** * VTXO policies and their spending clauses
      (lib/src/vtxo/policy/mod.rs, lib/src/vtxo/policy/clause.rs, lib/src/lightning.rs)

    A policy says who may spend a VTXO output and how.  The program describes
    the script paths of a policy twice: once as the taproot that makes the
    scriptPubkey, once as the list of clauses used to spend it.  The theorems
    show that the two descriptions agree for every policy, and that the delays of
    the HTLC policies leave the counterparty the time it needs. *)
From S2P Require Import Prelude Bitcoin Encode Concrete.

Open Scope Z_scope.

Inductive VtxoPolicyKind := KPubkey | KCheckpoint | KServerHtlcSend | KServerHtlcRecv.

#[export] Instance VtxoPolicyKind_eq_dec : EqDecision VtxoPolicyKind.
Proof. solve_decision. Defined.

(** [Display] and [FromStr]. *)
Definition kind_to_string (k : VtxoPolicyKind) : string :=
  match k with
  | KPubkey => "pubkey"
  | KCheckpoint => "checkpoint"
  | KServerHtlcSend => "server-htlc-send"
  | KServerHtlcRecv => "server-htlc-receive"
  end.

Definition kind_from_string (s : string) : option VtxoPolicyKind :=
  if String.eqb s "pubkey" then Some KPubkey
  else if String.eqb s "checkpoint" then Some KCheckpoint
  else if String.eqb s "server-htlc-send" then Some KServerHtlcSend
  else if String.eqb s "server-htlc-receive" then Some KServerHtlcRecv
  else None.

Section Policy.
Context `{B : Bitcoin}.

(** ** Clauses *)
Record DelayedSignClause := mkDelayedSign { ds_pubkey : PublicKey; ds_block_delta : Z }.
Record TimelockSignClause := mkTimelockSign { ts_pubkey : PublicKey; ts_timelock_height : Z }.
Record DelayedTimelockSignClause := mkDelayedTimelockSign {
  dts_pubkey : PublicKey; dts_timelock_height : Z; dts_block_delta : Z }.
Record HashDelaySignClause := mkHashDelaySign {
  hds_pubkey : PublicKey; hds_payment_hash : bytes; hds_block_delta : Z }.

Inductive VtxoClause :=
  | DelayedSign (c : DelayedSignClause)
  | TimelockSign (c : TimelockSignClause)
  | DelayedTimelockSign (c : DelayedTimelockSignClause)
  | HashDelaySign (c : HashDelaySignClause).

Definition nonzero_delta {E} (d : Z) : outcome E unit := assert (negb (d =? 0)).

Definition ds_tapscript {E} (c : DelayedSignClause) : outcome E Script :=
  _ ← nonzero_delta (ds_block_delta c);
  Ok (delayed_sign (ds_block_delta c) (x_only_public_key (ds_pubkey c))).

Definition ts_tapscript {E} (c : TimelockSignClause) : outcome E Script :=
  timelock_sign (ts_timelock_height c) (x_only_public_key (ts_pubkey c)).

Definition dts_tapscript {E} (c : DelayedTimelockSignClause) : outcome E Script :=
  _ ← nonzero_delta (dts_block_delta c);
  delay_timelock_sign (dts_block_delta c) (dts_timelock_height c) (x_only_public_key (dts_pubkey c)).

Definition hds_tapscript {E} (c : HashDelaySignClause) : outcome E Script :=
  _ ← nonzero_delta (hds_block_delta c);
  Ok (hash_delay_sign (hds_payment_hash c) (hds_block_delta c) (x_only_public_key (hds_pubkey c))).

Definition clause_pubkey (c : VtxoClause) : PublicKey :=
  match c with
  | DelayedSign c => ds_pubkey c
  | TimelockSign c => ts_pubkey c
  | DelayedTimelockSign c => dts_pubkey c
  | HashDelaySign c => hds_pubkey c
  end.

Definition tapscript {E} (c : VtxoClause) : outcome E Script :=
  match c with
  | DelayedSign c => ds_tapscript c
  | TimelockSign c => ts_tapscript c
  | DelayedTimelockSign c => dts_tapscript c
  | HashDelaySign c => hds_tapscript c
  end.

(** [VtxoClause::sequence]: the relative delay, when there is one. *)
Definition clause_sequence {E} (c : VtxoClause) : outcome E (option Z) :=
  match c with
  | DelayedSign c => Ok (Some (ds_block_delta c))
  | TimelockSign _ => Ok None
  | DelayedTimelockSign c => Ok (Some (dts_block_delta c))
  | HashDelaySign c => _ ← nonzero_delta (hds_block_delta c); Ok (Some (hds_block_delta c))
  end.

(** [control_block] panics with "clause is not in taproot tree". *)
Definition clause_control_block {E} (c : VtxoClause) (output_taproot : Taproot) : outcome E bytes :=
  s ← tapscript c; expect (control_block output_taproot s).

(** ** Policies *)
Record PubkeyVtxoPolicy := mkPubkeyPolicy { pk_user_pubkey : PublicKey }.
Record CheckpointVtxoPolicy := mkCheckpointPolicy { cp_user_pubkey : PublicKey }.
Record ServerHtlcSendVtxoPolicy := mkHtlcSendPolicy {
  hs_user_pubkey : PublicKey; hs_payment_hash : bytes; hs_htlc_expiry : Z }.
Record ServerHtlcRecvVtxoPolicy := mkHtlcRecvPolicy {
  hr_user_pubkey : PublicKey; hr_payment_hash : bytes;
  hr_htlc_expiry_delta : Z; hr_htlc_expiry : Z }.

Inductive VtxoPolicy :=
  | Pubkey (p : PubkeyVtxoPolicy)
  | Checkpoint (p : CheckpointVtxoPolicy)
  | ServerHtlcSend (p : ServerHtlcSendVtxoPolicy)
  | ServerHtlcRecv (p : ServerHtlcRecvVtxoPolicy).

#[export] Instance PubkeyVtxoPolicy_eq_dec : EqDecision PubkeyVtxoPolicy.
Proof. solve_decision. Defined.
#[export] Instance CheckpointVtxoPolicy_eq_dec : EqDecision CheckpointVtxoPolicy.
Proof. solve_decision. Defined.
#[export] Instance ServerHtlcSendVtxoPolicy_eq_dec : EqDecision ServerHtlcSendVtxoPolicy.
Proof. solve_decision. Defined.
#[export] Instance ServerHtlcRecvVtxoPolicy_eq_dec : EqDecision ServerHtlcRecvVtxoPolicy.
Proof. solve_decision. Defined.
#[export] Instance VtxoPolicy_eq_dec : EqDecision VtxoPolicy.
Proof. solve_decision. Defined.

Definition user_pubkey_claim_clause (p : PubkeyVtxoPolicy) (exit_delta : Z) : DelayedSignClause :=
  mkDelayedSign (pk_user_pubkey p) exit_delta.

Definition server_sweeping_clause (expiry_height : Z) (server_pubkey : PublicKey) : TimelockSignClause :=
  mkTimelockSign server_pubkey expiry_height.

Definition server_reveals_preimage_clause (p : ServerHtlcSendVtxoPolicy) (server_pubkey : PublicKey)
    (exit_delta : Z) : HashDelaySignClause :=
  mkHashDelaySign server_pubkey (hs_payment_hash p) exit_delta.

Definition user_claim_after_expiry_clause {E} (p : ServerHtlcSendVtxoPolicy) (exit_delta : Z)
  : outcome E DelayedTimelockSignClause :=
  d ← u_mul 16 2 exit_delta;
  Ok (mkDelayedTimelockSign (hs_user_pubkey p) (hs_htlc_expiry p) d).

Definition user_reveals_preimage_clause {E} (p : ServerHtlcRecvVtxoPolicy) (exit_delta : Z)
  : outcome E HashDelaySignClause :=
  d ← u_add 16 (hr_htlc_expiry_delta p) exit_delta;
  Ok (mkHashDelaySign (hr_user_pubkey p) (hr_payment_hash p) d).

Definition server_claim_after_expiry_clause (p : ServerHtlcRecvVtxoPolicy) (server_pubkey : PublicKey)
    (exit_delta : Z) : DelayedTimelockSignClause :=
  mkDelayedTimelockSign server_pubkey (hr_htlc_expiry p) exit_delta.

(** [VtxoPolicy::clauses]. *)
Definition clauses {E} (p : VtxoPolicy) (exit_delta expiry_height : Z) (server_pubkey : PublicKey)
  : outcome E (list VtxoClause) :=
  match p with
  | Pubkey p => Ok [DelayedSign (user_pubkey_claim_clause p exit_delta)]
  | Checkpoint _ => Ok [TimelockSign (server_sweeping_clause expiry_height server_pubkey)]
  | ServerHtlcSend p =>
      c ← user_claim_after_expiry_clause p exit_delta;
      Ok [HashDelaySign (server_reveals_preimage_clause p server_pubkey exit_delta);
          DelayedTimelockSign c]
  | ServerHtlcRecv p =>
      c ← user_reveals_preimage_clause p exit_delta;
      Ok [HashDelaySign c;
          DelayedTimelockSign (server_claim_after_expiry_clause p server_pubkey exit_delta)]
  end.

Definition new_pubkey (user_pubkey : PublicKey) : VtxoPolicy := Pubkey (mkPubkeyPolicy user_pubkey).
Definition new_checkpoint (user_pubkey : PublicKey) : VtxoPolicy :=
  Checkpoint (mkCheckpointPolicy user_pubkey).
Definition new_server_htlc_send (user_pubkey : PublicKey) (payment_hash : bytes) (htlc_expiry : Z)
  : VtxoPolicy := ServerHtlcSend (mkHtlcSendPolicy user_pubkey payment_hash htlc_expiry).
Definition new_server_htlc_recv (user_pubkey : PublicKey) (payment_hash : bytes)
    (htlc_expiry htlc_expiry_delta : Z) : VtxoPolicy :=
  ServerHtlcRecv (mkHtlcRecvPolicy user_pubkey payment_hash htlc_expiry_delta htlc_expiry).

Definition policy_type (p : VtxoPolicy) : VtxoPolicyKind :=
  match p with
  | Pubkey _ => KPubkey
  | Checkpoint _ => KCheckpoint
  | ServerHtlcSend _ => KServerHtlcSend
  | ServerHtlcRecv _ => KServerHtlcRecv
  end.

Definition is_arkoor_compatible (p : VtxoPolicy) : bool :=
  match p with
  | Pubkey _ => true
  | Checkpoint _ => true
  | ServerHtlcSend _ => false
  | ServerHtlcRecv _ => false
  end.

Definition arkoor_pubkey (p : VtxoPolicy) : option PublicKey :=
  match p with
  | Pubkey p => Some (pk_user_pubkey p)
  | Checkpoint p => Some (cp_user_pubkey p)
  | ServerHtlcSend p => Some (hs_user_pubkey p)
  | ServerHtlcRecv p => Some (hr_user_pubkey p)
  end.

Definition user_pubkey (p : VtxoPolicy) : PublicKey :=
  match p with
  | Pubkey p => pk_user_pubkey p
  | Checkpoint p => cp_user_pubkey p
  | ServerHtlcSend p => hs_user_pubkey p
  | ServerHtlcRecv p => hr_user_pubkey p
  end.

(** ** Taproots *)
Definition exit_clause (user_pubkey : PublicKey) (exit_delta : Z) : Script :=
  delayed_sign exit_delta (x_only_public_key user_pubkey).

Definition exit_taproot (user_pubkey server_pubkey : PublicKey) (exit_delta : Z) : Taproot :=
  mkTaproot (combine_keys [user_pubkey; server_pubkey]) [(0%nat, exit_clause user_pubkey exit_delta)].

Definition expiry_clause {E} (server_pubkey : PublicKey) (expiry_height : Z) : outcome E Script :=
  timelock_sign expiry_height (x_only_public_key server_pubkey).

Definition checkpoint_taproot {E} (user_pubkey server_pubkey : PublicKey) (expiry_height : Z)
  : outcome E Taproot :=
  s ← expiry_clause server_pubkey expiry_height;
  Ok (mkTaproot (combine_keys [user_pubkey; server_pubkey]) [(0%nat, s)]).

Definition server_htlc_send_taproot {E} (payment_hash : bytes) (server_pubkey user_pubkey : PublicKey)
    (exit_delta htlc_expiry : Z) : outcome E Taproot :=
  let server_branch := hash_delay_sign payment_hash exit_delta (x_only_public_key server_pubkey) in
  d ← u_mul 16 2 exit_delta;
  user_branch ← delay_timelock_sign d htlc_expiry (x_only_public_key user_pubkey);
  Ok (mkTaproot (combine_keys [user_pubkey; server_pubkey])
        [(1%nat, server_branch); (1%nat, user_branch)]).

Definition server_htlc_receive_taproot {E} (payment_hash : bytes) (server_pubkey user_pubkey : PublicKey)
    (exit_delta htlc_expiry_delta htlc_expiry : Z) : outcome E Taproot :=
  server_branch ← delay_timelock_sign exit_delta htlc_expiry (x_only_public_key server_pubkey);
  d ← u_add 16 exit_delta htlc_expiry_delta;
  let user_branch := hash_delay_sign payment_hash d (x_only_public_key user_pubkey) in
  Ok (mkTaproot (combine_keys [user_pubkey; server_pubkey])
        [(1%nat, server_branch); (1%nat, user_branch)]).

Definition taproot {E} (p : VtxoPolicy) (server_pubkey : PublicKey) (exit_delta expiry_height : Z)
  : outcome E Taproot :=
  match p with
  | Pubkey p => Ok (exit_taproot (pk_user_pubkey p) server_pubkey exit_delta)
  | Checkpoint p => checkpoint_taproot (cp_user_pubkey p) server_pubkey expiry_height
  | ServerHtlcSend p =>
      server_htlc_send_taproot (hs_payment_hash p) server_pubkey (hs_user_pubkey p)
        exit_delta (hs_htlc_expiry p)
  | ServerHtlcRecv p =>
      server_htlc_receive_taproot (hr_payment_hash p) server_pubkey (hr_user_pubkey p)
        exit_delta (hr_htlc_expiry_delta p) (hr_htlc_expiry p)
  end.

(** [user_exit_clause]: [todo!] for a checkpoint. *)
Definition user_exit_clause {E} (p : VtxoPolicy) (exit_delta : Z) : outcome E Script :=
  match p with
  | Pubkey p => Ok (exit_clause (pk_user_pubkey p) exit_delta)
  | Checkpoint _ => Panic
  | ServerHtlcSend p =>
      d ← u_mul 16 2 exit_delta;
      delay_timelock_sign d (hs_htlc_expiry p) (x_only_public_key (hs_user_pubkey p))
  | ServerHtlcRecv p =>
      d ← u_add 16 exit_delta (hr_htlc_expiry_delta p);
      Ok (hash_delay_sign (hr_payment_hash p) d (x_only_public_key (hr_user_pubkey p)))
  end.

Definition policy_script_pubkey {E} (p : VtxoPolicy) (server_pubkey : PublicKey)
    (exit_delta expiry_height : Z) : outcome E bytes :=
  taproot_script_pubkey <$> taproot p server_pubkey exit_delta expiry_height.

Definition policy_txout {E} (p : VtxoPolicy) (amount : Z) (server_pubkey : PublicKey)
    (exit_delta expiry_height : Z) : outcome E TxOut :=
  spk ← policy_script_pubkey p server_pubkey exit_delta expiry_height;
  Ok (mkTxOut amount spk).
End Policy.

Arguments VtxoPolicy {B}.
Arguments VtxoClause {B}.

(** ** Properties *)

(** Policy kinds print and parse back. *)
Theorem policy_kind_roundtrip k s :
  kind_from_string (kind_to_string k) = Some k /\
  (kind_from_string s = Some k -> s = kind_to_string k).
Proof.
  split; [by destruct k|]. unfold kind_from_string.
  repeat match goal with |- context [String.eqb ?a ?b] => destruct (String.eqb_spec a b) as [->|] end;
    by intros [= <-].
Qed.

Section Agreement.
Context `{B : Bitcoin}.

(** The script paths of a policy: those of its taproot are those of its clauses. *)
Lemma taproot_clauses (p : VtxoPolicy) server_pubkey exit_delta expiry_height (tr : Taproot) :
  0 < exit_delta -> (forall r, p = ServerHtlcRecv r -> 0 <= hr_htlc_expiry_delta r) ->
  taproot (E:=unit) p server_pubkey exit_delta expiry_height = Ok tr ->
  exists cs scripts, clauses (E:=unit) p exit_delta expiry_height server_pubkey = Ok cs /\
    mapM (tapscript (E:=unit)) cs = Ok scripts /\ scripts ≡ₚ (tap_leaves tr).*2.
Proof.
  intros Hd Hr Htr. assert (nonzero_delta (E:=unit) exit_delta = Ok tt) as Hnz.
  { unfold nonzero_delta, assert. by destruct (Z.eqb_spec exit_delta 0); [lia|]. }
  destruct p as [[k]|[k]|[k h e]|[k h d e]]; cbn in Htr.
  - injection Htr as <-. eexists _, _. split; [done|]. cbn. unfold ds_tapscript. cbn.
    rewrite Hnz. done.
  - unfold checkpoint_taproot, expiry_clause, timelock_sign in Htr. outcome_inv Htr.
    eexists _, _. split; [done|]. cbn. unfold ts_tapscript, timelock_sign. cbn.
    by use_eqs.
  - unfold server_htlc_send_taproot, delay_timelock_sign in Htr. outcome_inv Htr.
    unfold u_mul in *. destruct (in_width 16 (2 * exit_delta)) eqn:Hw; [|done]. simplify_eq.
    eexists _, _. split; [cbn; unfold user_claim_after_expiry_clause, u_mul; by rewrite Hw|].
    cbn. unfold hds_tapscript, dts_tapscript, delay_timelock_sign. cbn.
    rewrite Hnz. cbn. unfold nonzero_delta, assert.
    destruct (Z.eqb_spec (2 * exit_delta) 0); [lia|]. by use_eqs.
  - unfold server_htlc_receive_taproot, delay_timelock_sign in Htr. outcome_inv Htr.
    unfold u_add in *. destruct (in_width 16 (exit_delta + d)) eqn:Hw; [|done]. simplify_eq.
    specialize (Hr _ eq_refl). cbn in Hr.
    eexists _, _. split.
    { cbn. unfold user_reveals_preimage_clause, u_add. cbn. rewrite Z.add_comm, Hw. done. }
    cbn. unfold hds_tapscript, dts_tapscript, delay_timelock_sign. cbn.
    rewrite Hnz. cbn. unfold nonzero_delta, assert.
    destruct (Z.eqb_spec (exit_delta + d) 0); [lia|]. use_eqs.
    split; [done|]. apply Permutation_swap.
Qed.

Lemma user_exit_in_taproot (p : VtxoPolicy) server_pubkey exit_delta expiry_height (tr : Taproot) s :
  taproot (E:=unit) p server_pubkey exit_delta expiry_height = Ok tr ->
  user_exit_clause (E:=unit) p exit_delta = Ok s -> s ∈ (tap_leaves tr).*2.
Proof.
  intros Htr Hs. destruct p as [[k]|[k]|[k h e]|[k h d e]]; cbn in Htr, Hs.
  - injection Htr as <-. injection Hs as <-. cbn. by apply list_elem_of_singleton.
  - done.
  - unfold server_htlc_send_taproot in Htr. outcome_inv Htr. outcome_inv Hs.
    apply list_elem_of_In. cbn. right. left. congruence.
  - unfold server_htlc_receive_taproot in Htr. outcome_inv Htr. outcome_inv Hs.
    apply list_elem_of_In. cbn. right. left. congruence.
Qed.

(** C40. The two descriptions of a policy agree: whenever the taproot of a
    policy can be built (with a non-zero exit delta), its clauses can be too,
    every clause finds its control block in the taproot (so
    [TapScriptClause::control_block] does not panic), the taproot has no script
    path that is not a clause, and the user's exit clause is one of them. *)
Theorem policy_clauses_agree (p : VtxoPolicy) server_pubkey exit_delta expiry_height (tr : Taproot) :
  0 < exit_delta -> (forall r, p = ServerHtlcRecv r -> 0 <= hr_htlc_expiry_delta r) ->
  taproot (E:=unit) p server_pubkey exit_delta expiry_height = Ok tr ->
  exists cs, clauses (E:=unit) p exit_delta expiry_height server_pubkey = Ok cs /\
    (forall c, c ∈ cs -> exists cb, clause_control_block (E:=unit) c tr = Ok cb) /\
    (forall s, s ∈ (tap_leaves tr).*2 -> exists c, c ∈ cs /\ tapscript (E:=unit) c = Ok s) /\
    (forall s, user_exit_clause (E:=unit) p exit_delta = Ok s ->
       exists c, c ∈ cs /\ tapscript (E:=unit) c = Ok s /\ is_Some (control_block tr s)).
Proof.
  intros Hd Hr Htr.
  destruct (taproot_clauses p _ _ _ _ Hd Hr Htr) as (cs & scripts & Hcs & Hscripts & Hperm).
  apply mapM_outcome_Ok in Hscripts. exists cs. split; [done|].
  assert (forall s, s ∈ (tap_leaves tr).*2 -> exists c, c ∈ cs /\ tapscript (E:=unit) c = Ok s) as Hback.
  { intros s Hs. rewrite <- Hperm in Hs. apply list_elem_of_lookup in Hs as [i Hi].
    destruct (Forall2_lookup_r _ _ _ _ _ Hscripts Hi) as (c & Hc & Ht).
    exists c. split; [by eapply list_elem_of_lookup_2|done]. }
  split_and!; [|done|].
  - intros c Hc. apply list_elem_of_lookup in Hc as [i Hi].
    destruct (Forall2_lookup_l _ _ _ _ _ Hscripts Hi) as (s & Hs & Ht).
    unfold clause_control_block, control_block. rewrite Ht. cbn.
    rewrite bool_decide_true; [by eexists|]. rewrite <- Hperm. by eapply list_elem_of_lookup_2.
  - intros s Hs. pose proof (user_exit_in_taproot p _ _ _ _ _ Htr Hs) as Hin.
    destruct (Hback s Hin) as (c & Hc & Ht). exists c. split_and!; [done..|].
    unfold control_block. by rewrite bool_decide_true.
Qed.

(** The HTLC policies give the other party its head start: to get back an
    outgoing payment after its expiry, the user waits [exit_delta] blocks longer
    than the server needs to claim with the preimage; to claim an incoming
    payment with the preimage, the user waits [htlc_expiry_delta] blocks longer
    than the server needs after the expiry. *)
Theorem htlc_delays (s : ServerHtlcSendVtxoPolicy) (r : ServerHtlcRecvVtxoPolicy)
    server_pubkey exit_delta expiry_height cs cr :
  clauses (E:=unit) (ServerHtlcSend s) exit_delta expiry_height server_pubkey = Ok cs ->
  clauses (E:=unit) (ServerHtlcRecv r) exit_delta expiry_height server_pubkey = Ok cr ->
  (exists srv usr, cs = [HashDelaySign srv; DelayedTimelockSign usr] /\
     hds_pubkey srv = server_pubkey /\ dts_pubkey usr = hs_user_pubkey s /\
     hds_payment_hash srv = hs_payment_hash s /\ dts_timelock_height usr = hs_htlc_expiry s /\
     dts_block_delta usr = hds_block_delta srv + exit_delta) /\
  (exists usr srv, cr = [HashDelaySign usr; DelayedTimelockSign srv] /\
     hds_pubkey usr = hr_user_pubkey r /\ dts_pubkey srv = server_pubkey /\
     hds_payment_hash usr = hr_payment_hash r /\ dts_timelock_height srv = hr_htlc_expiry r /\
     hds_block_delta usr = dts_block_delta srv + hr_htlc_expiry_delta r).
Proof.
  unfold clauses, user_claim_after_expiry_clause, user_reveals_preimage_clause, u_mul, u_add.
  intros Hs Hr.
  destruct (in_width 16 (2 * exit_delta)); [|done]. injection Hs as <-.
  destruct (in_width 16 (hr_htlc_expiry_delta r + exit_delta)); [|done]. injection Hr as <-.
  split; eexists _, _; split_and!; try done; cbn -[Z.mul Z.add]; lia.
Qed.

(** Contrary to its documentation, [arkoor_pubkey] never returns [None]:
    it is the user's key for every policy, also for the HTLC policies for which
    [is_arkoor_compatible] is false. *)
Theorem arkoor_pubkey_always_some (p : VtxoPolicy) : arkoor_pubkey p = Some (user_pubkey p).
Proof. by destruct p as [[]|[]|[]|[]]. Qed.
End Agreement.

(** *** Witnesses *)
Lemma policy_kind_roundtrip_witness :
  kind_from_string (kind_to_string KCheckpoint) = Some KCheckpoint /\
  (kind_from_string "checkpoint" = Some KCheckpoint -> "checkpoint"%string = kind_to_string KCheckpoint).
Proof. apply (policy_kind_roundtrip KCheckpoint "checkpoint"). Defined.

Lemma policy_clauses_agree_witness :
  let p := ServerHtlcRecv (B := model) (mkHtlcRecvPolicy (B := model) Byte.x05 (hash []) 40 1000) in
  exists tr cs, taproot (E:=unit) p Byte.x09 144 2000 = Ok tr /\
    clauses (E:=unit) p 144 2000 Byte.x09 = Ok cs /\
      (forall c, c ∈ cs -> exists cb, clause_control_block (E:=unit) c tr = Ok cb) /\
      (forall s, s ∈ (tap_leaves tr).*2 -> exists c, c ∈ cs /\ tapscript (E:=unit) c = Ok s) /\
      (forall s, user_exit_clause (E:=unit) p 144 = Ok s ->
         exists c, c ∈ cs /\ tapscript (E:=unit) c = Ok s /\ is_Some (control_block tr s)).
Proof.
  intros p. eexists. pose proof (policy_clauses_agree (B := model) p Byte.x09 144 2000) as H.
  edestruct H as [cs Hcs]; [lia| |reflexivity|].
  - intros r [= <-]. cbn. lia.
  - exists cs. split; [reflexivity|exact Hcs].
Defined.

Lemma htlc_delays_witness : exists cs cr,
  clauses (E:=unit) (ServerHtlcSend (B := model) (mkHtlcSendPolicy (B := model) Byte.x05 (hash []) 1000))
    144 2000 Byte.x09 = Ok cs /\
  clauses (E:=unit) (ServerHtlcRecv (B := model) (mkHtlcRecvPolicy (B := model) Byte.x05 (hash []) 40 1000))
    144 2000 Byte.x09 = Ok cr /\ length cs = 2%nat /\ length cr = 2%nat.
Proof.
  eexists _, _. split; [reflexivity|]. split; [reflexivity|].
  destruct (htlc_delays (B := model) (mkHtlcSendPolicy (B := model) Byte.x05 (hash []) 1000)
    (mkHtlcRecvPolicy (B := model) Byte.x05 (hash []) 40 1000) Byte.x09 144 2000 _ _ eq_refl eq_refl)
    as [(a & b & Hc & _) (c & d & Hd & _)].
  split; reflexivity.
Defined.
