(* ===== verification/Vtxo.v ===== *)
(** * VTXOs (lib/src/vtxo/mod.rs)

    A VTXO is an output at the end of a chain of pre-signed exit transactions
    that starts at an on-chain anchor.  The chain is stored as the "genesis": for
    each transaction the policy and witness of the input it spends and its other
    outputs.  This file models the type, the exit transactions it describes
    ([VtxoTxIter]) and its wire encoding. *)
From S2P Require Import Prelude Bitcoin Encode Concrete Policy.

Open Scope Z_scope.

Section Vtxo.
Context `{B : Bitcoin}.

(** ** Taproots of the transaction tree (lib/src/tree/signed.rs) *)
Definition unlock_clause (pubkey : XOnlyPublicKey) (unlock_hash : bytes) : Script :=
  hash_and_sign unlock_hash pubkey.

Definition leaf_cosign_taproot {E} (agg_pk : XOnlyPublicKey) (server_pubkey : PublicKey)
    (expiry_height : Z) (unlock_hash : bytes) : outcome E Taproot :=
  s ← expiry_clause server_pubkey expiry_height;
  Ok (mkTaproot agg_pk [(1%nat, s); (1%nat, unlock_clause agg_pk unlock_hash)]).

Definition cosign_taproot {E} (agg_pk : XOnlyPublicKey) (server_pubkey : PublicKey)
    (expiry_height : Z) : outcome E Taproot :=
  s ← expiry_clause server_pubkey expiry_height;
  Ok (mkTaproot agg_pk [(0%nat, s)]).

(** [create_exit_tx]. *)
Definition create_exit_tx (prevout : OutPoint) (out : TxOut) (signature : option Signature)
  : Transaction :=
  mkTx 3 0
    [mkTxIn prevout [] 0 (match signature with Some s => [sig_serialize s] | None => [] end)]
    [out; fee_anchor].

(** ** Genesis *)
Inductive MaybePreimage := Preimage (p : bytes) | Hash (h : bytes).

Definition preimage_hash (m : MaybePreimage) : bytes :=
  match m with Preimage p => sha256 p | Hash h => h end.

Inductive GenesisTransition :=
  | Cosigned (pubkeys : list PublicKey) (signature : Signature)
  | HashLockedCosigned (user_pubkey : PublicKey) (signature : Signature) (unlock : MaybePreimage)
  | Arkoor (policy : VtxoPolicy) (signature : option Signature).

Definition input_taproot {E} (t : GenesisTransition) (server_pubkey : PublicKey)
    (expiry_height exit_delta : Z) : outcome E Taproot :=
  match t with
  | Cosigned pubkeys _ => cosign_taproot (combine_keys pubkeys) server_pubkey expiry_height
  | HashLockedCosigned user_pubkey _ unlock =>
      leaf_cosign_taproot (combine_keys [user_pubkey; server_pubkey]) server_pubkey expiry_height
        (preimage_hash unlock)
  | Arkoor policy _ => taproot policy server_pubkey exit_delta expiry_height
  end.

Definition input_txout {E} (t : GenesisTransition) (amount : Z) (server_pubkey : PublicKey)
    (expiry_height exit_delta : Z) : outcome E TxOut :=
  tr ← input_taproot t server_pubkey expiry_height exit_delta;
  Ok (mkTxOut amount (taproot_script_pubkey tr)).

(** [GenesisTransition::witness]. *)
Definition transition_witness {E} (t : GenesisTransition) (server_pubkey : PublicKey)
    (expiry_height : Z) : outcome E (list bytes) :=
  match t with
  | Cosigned _ signature => Ok [sig_serialize signature]
  | HashLockedCosigned user_pubkey signature (Preimage preimage) =>
      let unlock_hash := sha256 preimage in
      let agg_pk := combine_keys [user_pubkey; server_pubkey] in
      tr ← leaf_cosign_taproot agg_pk server_pubkey expiry_height unlock_hash;
      let clause := unlock_clause agg_pk unlock_hash in
      cb ← expect (control_block tr clause);
      Ok [sig_serialize signature; preimage; script_bytes clause; cb]
  | HashLockedCosigned _ _ (Hash _) => Ok []
  | Arkoor _ (Some sig) => Ok [sig_serialize sig]
  | Arkoor _ None => Ok []
  end.

Definition transition_is_fully_signed (t : GenesisTransition) : bool :=
  match t with
  | Cosigned _ _ => true
  | HashLockedCosigned _ _ (Hash _) => false
  | HashLockedCosigned _ _ (Preimage _) => true
  | Arkoor _ signature => bool_decide (is_Some signature)
  end.

Definition transition_type (t : GenesisTransition) : string :=
  match t with
  | Cosigned _ _ => "cosigned"
  | HashLockedCosigned _ _ _ => "hash-locked-cosigned"
  | Arkoor _ _ => "arkoor"
  end.

Record GenesisItem := mkItem {
  transition : GenesisTransition;
  output_idx : Z;
  other_outputs : list TxOut;
}.

(** The outputs of an exit transaction: [next] is put at [output_idx] among
    the others, or last when there are fewer others, and the fee anchor ends
    the list. *)
Definition item_outputs (i : GenesisItem) (next : TxOut) : list TxOut :=
  take (Z.to_nat (output_idx i)) (other_outputs i) ++ [next] ++
  drop (Z.to_nat (output_idx i)) (other_outputs i) ++ [fee_anchor].

(** [GenesisItem::tx]. *)
Definition item_tx {E} (i : GenesisItem) (prev : OutPoint) (next : TxOut) (server_pubkey : PublicKey)
    (expiry_height : Z) : outcome E Transaction :=
  w ← transition_witness (transition i) server_pubkey expiry_height;
  Ok (mkTx 3 0 [mkTxIn prev [] 0 w] (item_outputs i next)).

(** ** The type *)
Record Vtxo := mkVtxo {
  policy : VtxoPolicy;
  amount : Z;
  expiry_height : Z;
  server_pubkey : PublicKey;
  exit_delta : Z;
  anchor_point : OutPoint;
  genesis : list GenesisItem;
  point : OutPoint;
}.

(** [VtxoId]: 36 bytes, the txid and the output index. *)
Definition VtxoId : Type := bytes.
Definition id_of_outpoint (p : OutPoint) : VtxoId := op_txid p ++ le_split 4 (op_vout p).
Definition id_from_slice (b : bytes) : option VtxoId :=
  if bool_decide (length b = 36%nat) then Some b else None.
Definition id_utxo (i : VtxoId) : OutPoint := mkOutPoint (take 32 i) (le_combine (drop 32 i)).
Definition vtxo_id (v : Vtxo) : VtxoId := id_of_outpoint (point v).

Record VtxoSpec := mkVtxoSpec {
  spec_policy : VtxoPolicy; spec_amount : Z; spec_expiry_height : Z;
  spec_server_pubkey : PublicKey; spec_exit_delta : Z }.
Definition vtxo_spec (v : Vtxo) : VtxoSpec :=
  mkVtxoSpec (policy v) (amount v) (expiry_height v) (server_pubkey v) (exit_delta v).

(** [genesis.len() as u16]. *)
Definition exit_depth (v : Vtxo) : Z := Z.of_nat (length (genesis v)) mod 2 ^ 16.

Definition server_htlc_out_payment_hash (v : Vtxo) : option bytes :=
  match policy v with
  | ServerHtlcSend p => Some (hs_payment_hash p)
  | ServerHtlcRecv _ => None
  | Pubkey _ => None
  | Checkpoint _ => None
  end.

Definition past_arkoor_pubkeys (v : Vtxo) : list PublicKey :=
  omap (fun g => match transition g with Arkoor p _ => arkoor_pubkey p | _ => None end) (genesis v).

Definition vtxo_user_pubkey (v : Vtxo) : PublicKey := user_pubkey (policy v).

Definition output_taproot {E} (v : Vtxo) : outcome E Taproot :=
  taproot (policy v) (server_pubkey v) (exit_delta v) (expiry_height v).

Definition vtxo_txout {E} (v : Vtxo) : outcome E TxOut :=
  policy_txout (policy v) (amount v) (server_pubkey v) (exit_delta v) (expiry_height v).

Definition is_fully_signed (v : Vtxo) : bool :=
  forallb (fun g => transition_is_fully_signed (transition g)) (genesis v).

(** ** Exit transactions *)
Definition other_value {E} (i : GenesisItem) : outcome E Z := amount_sum (value <$> other_outputs i).

(** The amount of the chain anchor: the VTXO's amount plus everything that
    leaves the chain on the way. *)
Definition onchain_amount {E} (v : Vtxo) : outcome E Z :=
  others ← mapM other_value (genesis v);
  total ← amount_sum others;
  u_add 64 (amount v) total.

Record VtxoTxIter := mkIter {
  it_prev : OutPoint;
  it_genesis_idx : nat;
  it_current_amount : Z;
  it_done : bool;
}.

Definition iter_new {E} (v : Vtxo) : outcome E VtxoTxIter :=
  total ← onchain_amount v;
  Ok (mkIter (anchor_point v) 0 total false).

(** The output spent by the transaction after [idx], or the VTXO's own. *)
Definition next_output {E} (v : Vtxo) (idx : nat) (next_amount : Z) : outcome E TxOut :=
  match genesis v !! S idx with
  | Some item => input_txout (transition item) next_amount (server_pubkey v) (expiry_height v) (exit_delta v)
  | None => policy_txout (policy v) (amount v) (server_pubkey v) (exit_delta v) (expiry_height v)
  end.

(** [VtxoTxIter::next]: the transaction with the index of its relevant output. *)
Definition iter_next {E} (v : Vtxo) (it : VtxoTxIter)
  : outcome E (option (Transaction * Z) * VtxoTxIter) :=
  if it_done it then Ok (None, it)
  else
    item ← expect (genesis v !! it_genesis_idx it);
    others ← other_value item;
    next_amount ← expect (checked_sub (it_current_amount it) others);
    next ← next_output v (it_genesis_idx it) next_amount;
    tx ← item_tx item (it_prev it) next (server_pubkey v) (expiry_height v);
    Ok (Some (tx, output_idx item),
        mkIter (mkOutPoint (compute_txid tx) (output_idx item)) (S (it_genesis_idx it)) next_amount
          (bool_decide (genesis v !! S (it_genesis_idx it) = None))).

(** [vtxo.transactions().collect()], with at most [fuel] calls of [next]. *)
Fixpoint iter_collect {E} (fuel : nat) (v : Vtxo) (it : VtxoTxIter)
  : outcome E (option (list (Transaction * Z))) :=
  match fuel with
  | O => Ok None
  | S fuel' =>
      r ← iter_next v it;
      match r with
      | (None, _) => Ok (Some [])
      | (Some x, it') => xs ← iter_collect fuel' v it'; Ok (option_map (cons x) xs)
      end
  end.

Definition transactions {E} (v : Vtxo) : outcome E (option (list (Transaction * Z))) :=
  it ← iter_new v; iter_collect (length (genesis v) + 2) v it.
End Vtxo.

Arguments Vtxo {B}.
Arguments GenesisItem {B}.
Arguments GenesisTransition {B}.

(** ** The chain of exit transactions *)
Section ExitChain.
Context `{B : Bitcoin}.

Definition other_values (i : GenesisItem) : list Z := value <$> other_outputs i.
Definition items_value (l : list GenesisItem) : Z := sum_sums other_values l.

(** What is left of the anchor amount when transaction [k] is reached. *)
Definition chain_amount (v : Vtxo) (k : nat) : Z := amount v + items_value (drop k (genesis v)).

(** Amounts are never negative, and all taproots of the chain can be built
    (the heights are valid lock times and the deltas do not overflow). *)
Definition amounts_ok (v : Vtxo) : Prop :=
  0 <= amount v /\ Forall (fun i => Forall (fun o => 0 <= value o) (other_outputs i)) (genesis v).
Definition taproots_ok (v : Vtxo) : Prop :=
  Forall (fun i => exists tr, forall E,
    input_taproot (E:=E) (transition i) (server_pubkey v) (expiry_height v) (exit_delta v) = Ok tr)
    (genesis v) /\
  exists tr, forall E, output_taproot (E:=E) v = Ok tr.

Lemma items_nonneg l :
  Forall (fun i : GenesisItem => Forall (fun o => 0 <= value o) (other_outputs i)) l ->
  Forall (fun i => Forall (fun z => 0 <= z) (other_values i)) l.
Proof. intros H. eapply Forall_impl; [exact H|]. intros i Hi. apply Forall_fmap. exact Hi. Qed.

Lemma chain_amount_step v k item : genesis v !! k = Some item ->
  chain_amount v k = chain_amount v (S k) + sum_Z (other_values item).
Proof.
  intros Hk. unfold chain_amount, items_value. rewrite (drop_S _ _ _ Hk), sum_sums_cons. lia.
Qed.

Lemma chain_amount_bounds v k : amounts_ok v -> 0 <= chain_amount v k <= chain_amount v 0.
Proof.
  intros [Ha Hg]. unfold chain_amount, items_value. rewrite drop_0.
  pose proof (sum_sums_nonneg _ _ (items_nonneg _ (Forall_drop _ k _ Hg))).
  pose proof (sum_sums_nonneg _ _ (items_nonneg _ (Forall_take _ k _ Hg))).
  rewrite <- (take_drop k (genesis v)) at 3. unfold sum_sums in *. rewrite fmap_app, sum_Z_app. lia.
Qed.

(** The amount of the anchor: exact when it fits, a panic otherwise. *)
Lemma onchain_amount_exact {E} v : amounts_ok v ->
  onchain_amount (E:=E) v = if chain_amount v 0 <? 2 ^ 64 then Ok (chain_amount v 0) else Panic.
Proof.
  intros [Ha Hg]. unfold onchain_amount, chain_amount, items_value. rewrite drop_0.
  pose proof (sum_sums_exact (E:=E) other_values _ (items_nonneg _ Hg)) as Hsum.
  pose proof (sum_sums_nonneg _ _ (items_nonneg _ Hg)).
  change (fun a => amount_sum (other_values a)) with (other_value (E:=E)) in Hsum.
  destruct (mapM other_value (genesis v)) as [os|e|]; cbn [mbind outcome_bind] in *.
  - rewrite Hsum. destruct (Z.ltb_spec (sum_sums other_values (genesis v)) (2 ^ 64)); cbn.
    + unfold u_add, in_width.
      destruct (Z.ltb_spec (amount v + sum_sums other_values (genesis v)) (2 ^ 64)),
        (Z.leb_spec 0 (amount v + sum_sums other_values (genesis v))); cbn; done || lia.
    + by destruct (Z.ltb_spec (amount v + sum_sums other_values (genesis v)) (2 ^ 64)); [lia|].
  - by destruct (_ <? _).
  - destruct (Z.ltb_spec (sum_sums other_values (genesis v)) (2 ^ 64)); [done|].
    by destruct (Z.ltb_spec (amount v + sum_sums other_values (genesis v)) (2 ^ 64)); [lia|].
Qed.

Lemma other_value_Ok {E} v k item : amounts_ok v -> chain_amount v 0 < 2 ^ 64 ->
  genesis v !! k = Some item -> other_value (E:=E) item = Ok (sum_Z (other_values item)).
Proof.
  intros Hok Hlt Hk. pose proof (chain_amount_bounds v k Hok). pose proof (chain_amount_bounds v (S k) Hok).
  pose proof (chain_amount_step v k item Hk).
  unfold other_value. rewrite amount_sum_exact.
  - fold (other_values item). by destruct (Z.ltb_spec (sum_Z (other_values item)) (2 ^ 64)); [|lia].
  - apply Forall_fmap. by apply (Forall_lookup_1 _ _ _ _ (proj2 Hok) Hk).
Qed.

(** The exit transactions, defined by recursion on the genesis: transaction
    [k] spends [prev] and pays [chain_amount v (S k)] on. *)
Fixpoint chain_from {E} (v : Vtxo) (items : list GenesisItem) (k : nat) (prev : OutPoint)
  : outcome E (list (Transaction * Z)) :=
  match items with
  | [] => Ok []
  | item :: rest =>
      next ← next_output v k (chain_amount v (S k));
      tx ← item_tx item prev next (server_pubkey v) (expiry_height v);
      xs ← chain_from v rest (S k) (mkOutPoint (compute_txid tx) (output_idx item));
      Ok ((tx, output_idx item) :: xs)
  end.

Lemma iter_collect_chain {E} v fuel : forall k prev,
  amounts_ok v -> chain_amount v 0 < 2 ^ 64 -> (k < length (genesis v))%nat ->
  (length (genesis v) - k < fuel)%nat ->
  iter_collect (E:=E) fuel v (mkIter prev k (chain_amount v k) false) =
  Some <$> chain_from v (drop k (genesis v)) k prev.
Proof.
  induction fuel as [|fuel IH]; intros k prev Hok Hlt Hk Hfuel; [lia|].
  destruct (lookup_lt_is_Some_2 (genesis v) k Hk) as [item Hitem].
  pose proof (chain_amount_bounds v (S k) Hok) as Hb.
  pose proof (chain_amount_step v k item Hitem) as Hstep.
  rewrite (drop_S _ _ _ Hitem). cbn [iter_collect chain_from]. unfold iter_next. cbn [it_done it_genesis_idx it_current_amount it_prev].
  rewrite Hitem. cbn [expect mbind outcome_bind]. rewrite (other_value_Ok v k) by done.
  cbn [mbind outcome_bind].
  assert (checked_sub (chain_amount v k) (sum_Z (other_values item)) = Some (chain_amount v (S k))) as ->
    by (apply checked_sub_Some; lia).
  cbn [expect mbind outcome_bind].
  destruct (next_output v k (chain_amount v (S k))) as [next|e|]; cbn [mbind outcome_bind]; [|done..].
  destruct (item_tx item prev next (server_pubkey v) (expiry_height v)) as [tx|e|];
    cbn [mbind outcome_bind]; [|done..].
  destruct (decide (S k < length (genesis v))%nat) as [Hlt'|Hge].
  - rewrite bool_decide_false by (intros Hn; apply lookup_ge_None in Hn; lia).
    rewrite IH by (done || lia). by destruct (chain_from v _ _ _).
  - rewrite bool_decide_true by (apply lookup_ge_None; lia).
    rewrite (drop_ge (genesis v) (S k)) by lia. destruct fuel; [lia|]. done.
Qed.

Lemma transactions_chain {E} v : amounts_ok v -> genesis v <> [] ->
  transactions (E:=E) v =
  if chain_amount v 0 <? 2 ^ 64 then Some <$> chain_from v (genesis v) 0 (anchor_point v) else Panic.
Proof.
  intros Hok Hne. unfold transactions, iter_new. rewrite onchain_amount_exact by done.
  destruct (Z.ltb_spec (chain_amount v 0) (2 ^ 64)); cbn [mbind outcome_bind]; [|done].
  destruct (genesis v) as [|g gs] eqn:Hg; [done|]. rewrite <- Hg.
  rewrite iter_collect_chain; [by rewrite drop_0|done..| |]; rewrite Hg; cbn; lia.
Qed.

(** The previous output of transaction [k] of a chain. *)
Definition prev_of (v : Vtxo) (txs : list (Transaction * Z)) (k : nat) : option OutPoint :=
  match k with
  | O => Some (anchor_point v)
  | S j => (fun p => mkOutPoint (compute_txid p.1) p.2) <$> txs !! j
  end.

Lemma chain_from_length {E} v items : forall k prev txs,
  chain_from (E:=E) v items k prev = Ok txs -> length txs = length items.
Proof.
  induction items as [|item rest IH]; cbn; intros k prev txs H; [by injection H as <-|].
  outcome_inv H. cbn. f_equal. eauto.
Qed.

Lemma chain_from_lookup {E} v items : forall k prev txs j tx oi,
  chain_from (E:=E) v items k prev = Ok txs -> txs !! j = Some (tx, oi) ->
  exists item next w, items !! j = Some item /\ oi = output_idx item /\
    next_output (E:=E) v (k + j) (chain_amount v (S (k + j))) = Ok next /\
    transition_witness (E:=E) (transition item) (server_pubkey v) (expiry_height v) = Ok w /\
    tx = mkTx 3 0
      [mkTxIn (match j with O => prev | S i => default prev ((fun p => mkOutPoint (compute_txid p.1) p.2) <$> txs !! i) end) [] 0 w]
      (item_outputs item next).
Proof.
  induction items as [|item rest IH]; cbn [chain_from]; intros k prev txs j tx oi H Hj.
  - injection H as <-. done.
  - apply bind_Ok in H as (next & Hnext & H). apply bind_Ok in H as (tx0 & Htx0 & H).
    apply bind_Ok in H as (xs & Hxs & [= <-]).
    unfold item_tx in Htx0. apply bind_Ok in Htx0 as (w & Hw & [= <-]).
    destruct j as [|j]; cbn in Hj.
    + injection Hj as <- <-. exists item, next, w. rewrite Nat.add_0_r. done.
    + destruct (IH _ _ _ _ _ _ Hxs Hj) as (it & nx & w' & Hit & -> & Hnx & Hw' & ->).
      exists it, nx, w'. rewrite Nat.add_succ_r. split_and!; [done..|].
      destruct j as [|i]; [done|]. apply lookup_lt_Some in Hj.
      destruct (lookup_lt_is_Some_2 xs i ltac:(lia)) as [p Hp].
      assert (forall x, (x :: xs) !! S i = Some p) as Hp' by done. by rewrite Hp, Hp'.
Qed.

(** The converse: transactions that are linked like the chain are the chain. *)
Lemma chain_from_intro {E} v items : forall k prev txs, length txs = length items ->
  (forall j item tx oi, items !! j = Some item -> txs !! j = Some (tx, oi) ->
    oi = output_idx item /\ exists next w,
    next_output (E:=E) v (k + j) (chain_amount v (S (k + j))) = Ok next /\
    transition_witness (E:=E) (transition item) (server_pubkey v) (expiry_height v) = Ok w /\
    tx = mkTx 3 0
      [mkTxIn (match j with O => prev | S i => default prev ((fun p => mkOutPoint (compute_txid p.1) p.2) <$> txs !! i) end) [] 0 w]
      (item_outputs item next)) ->
  chain_from (E:=E) v items k prev = Ok txs.
Proof.
  induction items as [|item rest IH]; intros k prev [|[tx oi] txs] Hlen H; cbn in Hlen; try done.
  destruct (H O item tx oi eq_refl eq_refl) as (-> & next & w & Hn & Hw & Htx). rewrite Nat.add_0_r in Hn.
  cbn [chain_from]. rewrite Hn. cbn [mbind outcome_bind]. unfold item_tx. rewrite Hw. cbn [mbind outcome_bind].
  rewrite (IH (S k) _ txs); [by rewrite Htx|lia|].
  intros j it tx' oi' Hit Htx'. destruct (H (S j) it tx' oi' Hit Htx') as (-> & nx & w' & Hn' & Hw' & ->).
  split; [done|]. exists nx, w'. rewrite Nat.add_succ_r in Hn'. split; [done|]. split; [done|].
  destruct j as [|i]; [by rewrite Htx|]. apply lookup_lt_Some in Htx'.
  destruct (lookup_lt_is_Some_2 txs i ltac:(lia)) as [q Hq].
  assert (forall x, (x :: txs) !! S i = Some q) as Hq' by done. by rewrite Hq, Hq'.
Qed.

Lemma item_outputs_value item next :
  sum_Z (value <$> item_outputs item next) = value next + sum_Z (other_values item).
Proof.
  unfold item_outputs, other_values. rewrite !fmap_app, !sum_Z_app.
  assert (sum_Z (value <$> [fee_anchor]) = 0) as -> by done.
  assert (sum_Z (value <$> [next]) = value next) as -> by (cbn; lia).
  set (n := Z.to_nat (output_idx item)).
  rewrite <- (take_drop n (other_outputs item)) at 3. rewrite fmap_app, sum_Z_app. lia.
Qed.

Lemma next_output_value {E} v k a next : next_output (E:=E) v k a = Ok next ->
  (S k < length (genesis v))%nat -> value next = a.
Proof.
  unfold next_output, input_txout. intros H Hk.
  destruct (lookup_lt_is_Some_2 (genesis v) (S k) Hk) as [i Hi]. rewrite Hi in H.
  by outcome_inv H.
Qed.

Lemma next_output_last {E} v k a next : next_output (E:=E) v k a = Ok next ->
  (length (genesis v) <= S k)%nat -> vtxo_txout (E:=E) v = Ok next /\ value next = amount v.
Proof.
  unfold next_output, vtxo_txout. intros H Hk. rewrite lookup_ge_None_2 in H by lia.
  split; [done|]. unfold policy_txout in H. by outcome_inv H.
Qed.

Lemma item_outputs_next item next : 0 <= output_idx item <= Z.of_nat (length (other_outputs item)) ->
  item_outputs item next !! Z.to_nat (output_idx item) = Some next.
Proof.
  intros Hi. unfold item_outputs. rewrite lookup_app_r; rewrite length_take; [|lia].
  by replace (Z.to_nat (output_idx item) - _ `min` _)%nat with O by lia.
Qed.

Lemma chain_from_total {E} v items : forall k prev,
  (forall j, exists next, next_output (E:=E) v (k + j) (chain_amount v (S (k + j))) = Ok next) ->
  Forall (fun i => exists w, transition_witness (E:=E) (transition i) (server_pubkey v) (expiry_height v) = Ok w)
    items ->
  exists txs, chain_from (E:=E) v items k prev = Ok txs.
Proof.
  induction items as [|item rest IH]; intros k prev Hnext Hw; [by eexists|].
  apply Forall_cons in Hw as [[w Hw] Hrest]. cbn [chain_from].
  destruct (Hnext O) as [next Hn]. rewrite Nat.add_0_r in Hn. rewrite Hn. cbn [mbind outcome_bind].
  unfold item_tx at 1. rewrite Hw. cbn [mbind outcome_bind].
  edestruct (IH (S k)) as [txs Htxs]; [|exact Hrest|].
  - intros j. destruct (Hnext (S j)) as [nx Hnx]. exists nx. by rewrite Nat.add_succ_r in Hnx.
  - eexists. by rewrite Htxs.
Qed.

(** A transition whose input taproot exists has a witness. *)
Lemma transition_witness_total {E} t spk eh ed tr :
  input_taproot (E:=E) t spk eh ed = Ok tr -> exists w, transition_witness (E:=E) t spk eh = Ok w.
Proof.
  destruct t as [pks s|u s [p|h]|p [s|]]; cbn; [by eexists| |by eexists..].
  intros H. unfold leaf_cosign_taproot in *. outcome_inv H. rewrite H0. cbn.
  unfold control_block. cbn. rewrite bool_decide_true by set_solver. by eexists.
Qed.

Lemma transition_signed_witness {E} t spk eh w : transition_witness (E:=E) t spk eh = Ok w ->
  transition_is_fully_signed t = negb (bool_decide (w = [])).
Proof.
  destruct t as [pks s|u s [p|h]|p [s|]]; cbn; intros H; outcome_inv H; done.
Qed.

(** The chain [transactions] returns, when it returns. *)
Lemma transactions_inv {E} v txs : amounts_ok v -> transactions (E:=E) v = Ok (Some txs) ->
  genesis v <> [] /\ chain_amount v 0 < 2 ^ 64 /\
  chain_from (E:=E) v (genesis v) 0 (anchor_point v) = Ok txs.
Proof.
  intros Hok H. destruct (genesis v) as [|g gs] eqn:Hg.
  - unfold transactions, iter_new in H. apply bind_Ok in H as (it & Hit & H).
    apply bind_Ok in Hit as (t & _ & [= <-]). rewrite Hg in H. cbn in H. by rewrite Hg in H.
  - rewrite <- Hg. rewrite transactions_chain in H; [|done|by rewrite Hg].
    destruct (Z.ltb_spec (chain_amount v 0) (2 ^ 64)); [|done].
    apply fmap_Ok in H as (xs & Hxs & [= ->]). split_and!; [by rewrite Hg|done..].
Qed.

Lemma prev_of_eq v txs k p : txs !! k = Some p ->
  prev_of v txs k = Some (match k with O => anchor_point v
    | S i => default (anchor_point v) ((fun p => mkOutPoint (compute_txid p.1) p.2) <$> txs !! i) end).
Proof.
  intros Hk. destruct k as [|i]; [done|]. apply lookup_lt_Some in Hk.
  destruct (lookup_lt_is_Some_2 txs i ltac:(lia)) as [q Hq].
  cbn. by rewrite Hq.
Qed.

Lemma next_output_total {E} v k a : taproots_ok v -> exists next, next_output (E:=E) v k a = Ok next.
Proof.
  intros [Hts [tr Hout]]. unfold next_output. destruct (genesis v !! S k) as [it|] eqn:Hk.
  - pose proof (Forall_lookup_1 _ _ _ _ Hts Hk) as [t Ht]. unfold input_txout. rewrite (Ht E). by eexists.
  - unfold policy_txout, policy_script_pubkey. unfold output_taproot in Hout. rewrite Hout. by eexists.
Qed.

(** Building the exit transactions terminates with one transaction per
    genesis item whenever the heights and deltas of the VTXO make its taproots
    and the anchor amount fits in 64 bits. *)
Theorem transactions_total {E} v : amounts_ok v -> taproots_ok v -> genesis v <> [] ->
  chain_amount v 0 < 2 ^ 64 ->
  exists txs, transactions (E:=E) v = Ok (Some txs) /\ length txs = length (genesis v).
Proof.
  intros Hok [Hts [tr Hout]] Hne Hlt. rewrite transactions_chain by done.
  destruct (Z.ltb_spec (chain_amount v 0) (2 ^ 64)); [|lia].
  destruct (chain_from_total (E:=E) v (genesis v) 0 (anchor_point v)) as [txs Htxs].
  - intros j. apply next_output_total. by split; [|exists tr].
  - eapply Forall_impl; [exact Hts|]. intros it [t Ht]. by eapply transition_witness_total.
  - exists txs. rewrite Htxs. split; [done|]. by eapply chain_from_length.
Qed.

Lemma exit_chain_facts {E} v txs k tx oi item : amounts_ok v -> transactions (E:=E) v = Ok (Some txs) ->
  txs !! k = Some (tx, oi) -> genesis v !! k = Some item ->
  oi = output_idx item /\
  (exists prev w, prev_of v txs k = Some prev /\ input tx = [mkTxIn prev [] 0 w]) /\
  sum_Z (value <$> output tx) = chain_amount v k /\
  (0 <= output_idx item <= Z.of_nat (length (other_outputs item)) ->
    exists o, output tx !! Z.to_nat (output_idx item) = Some o /\
    value o = chain_amount v (S k) /\
    (forall item', genesis v !! S k = Some item' -> exists tr,
       input_taproot (E:=E) (transition item') (server_pubkey v) (expiry_height v) (exit_delta v) = Ok tr /\
       script_pubkey o = taproot_script_pubkey tr) /\
    (S k = length (genesis v) -> vtxo_txout (E:=E) v = Ok o)).
Proof.
  intros Hok Htxs Hk Hitem. destruct (transactions_inv v txs Hok Htxs) as (Hne & Hlt & Hc).
  destruct (chain_from_lookup v _ _ _ _ _ _ _ Hc Hk) as (it & next & w & Hit & -> & Hnext & Hw & ->).
  assert (it = item) as -> by congruence.
  assert (value next = chain_amount v (S k)) as Hval.
  { destruct (decide (S k < length (genesis v))%nat); [by eapply next_output_value|].
    destruct (next_output_last _ _ _ _ Hnext ltac:(cbn; lia)) as [_ ->].
    unfold chain_amount. rewrite drop_ge by lia. cbn. lia. }
  split_and!; [done| | |].
  - do 2 eexists. split; [by eapply prev_of_eq|done].
  - cbn [output]. rewrite item_outputs_value, Hval. by rewrite (chain_amount_step v k item).
  - intros Hoi. exists next. split_and!; [by apply item_outputs_next|done| |].
    + intros item' Hi'. unfold next_output, input_txout in Hnext. cbn [Nat.add] in Hnext. rewrite Hi' in Hnext.
      apply bind_Ok in Hnext as (tr & Htr & <-%Ok_inj). by exists tr.
    + intros Hl. by destruct (next_output_last _ _ _ _ Hnext ltac:(cbn; lia)).
Qed.

(** C33. The exit transactions form a chain: transaction [k] has a single input
    that spends the relevant output of transaction [k-1] (the chain anchor for
    [k = 0]); no transaction pays a fee, so the outputs of transaction [k] sum
    to the amount that is left at that point of the chain; and the relevant
    output carries exactly what the next transaction distributes, locked by
    the taproot of the next transition, the last one being the VTXO's own
    output. *)
Theorem exit_chain {E} v txs k tx oi item : amounts_ok v -> transactions (E:=E) v = Ok (Some txs) ->
  txs !! k = Some (tx, oi) -> genesis v !! k = Some item ->
  oi = output_idx item /\
  (exists prev w, prev_of v txs k = Some prev /\ input tx = [mkTxIn prev [] 0 w]) /\
  sum_Z (value <$> output tx) = chain_amount v k /\
  (0 <= output_idx item <= Z.of_nat (length (other_outputs item)) ->
    exists o, output tx !! Z.to_nat (output_idx item) = Some o /\
    value o = chain_amount v (S k) /\
    (forall item', genesis v !! S k = Some item' -> exists tr,
       input_taproot (E:=E) (transition item') (server_pubkey v) (expiry_height v) (exit_delta v) = Ok tr /\
       script_pubkey o = taproot_script_pubkey tr) /\
    (S k = length (genesis v) -> vtxo_txout (E:=E) v = Ok o)).
Proof. apply exit_chain_facts. Qed.

(** [is_fully_signed] holds exactly when every exit transaction carries a
    witness. *)
Theorem fully_signed_witnesses {E} v txs : amounts_ok v -> transactions (E:=E) v = Ok (Some txs) ->
  is_fully_signed v = true <-> Forall (fun p => Forall (fun i => witness i <> []) (input p.1)) txs.
Proof.
  intros Hok Htxs. destruct (transactions_inv v txs Hok Htxs) as (_ & _ & Hc).
  pose proof (chain_from_length v _ _ _ _ Hc) as Hlen.
  unfold is_fully_signed. rewrite forallb_Forall, !Forall_lookup. split.
  - intros H k [tx oi] Hk. destruct (chain_from_lookup v _ _ _ _ _ _ _ Hc Hk) as (it & next & w & Hit & _ & _ & Hw & ->).
    apply Forall_singleton. cbn. specialize (H _ _ Hit). rewrite (transition_signed_witness _ _ _ _ Hw) in H.
    by case_bool_decide.
  - intros H k it Hit. destruct (lookup_lt_is_Some_2 txs k) as [[tx oi] Hk].
    { rewrite Hlen. by apply lookup_lt_is_Some_1; eexists. }
    specialize (H _ _ Hk). destruct (chain_from_lookup v _ _ _ _ _ _ _ Hc Hk) as (it' & next & w & Hit' & _ & _ & Hw & ->).
    apply Forall_inv in H. cbn in H. assert (it' = it) as -> by congruence.
    rewrite (transition_signed_witness _ _ _ _ Hw). by rewrite bool_decide_false.
Qed.

(** A VTXO without genesis items has no exit transactions to build:
    iterating over them panics. *)
Theorem transactions_empty_panics {E} v : amounts_ok v -> genesis v = [] ->
  transactions (E:=E) v = Panic.
Proof.
  intros Hok Hg. unfold transactions, iter_new. rewrite onchain_amount_exact by done.
  destruct (_ <? _); [|done]. rewrite Hg. cbn. by rewrite Hg.
Qed.
End ExitChain.

(** ** Identifiers *)

Lemma id_utxo_of_outpoint (p : OutPoint) : valid_outpoint p -> id_utxo (id_of_outpoint p) = p.
Proof.
  intros [Ht Hv%in_width_spec]. unfold id_utxo, id_of_outpoint.
  rewrite take_app_length', drop_app_length' by done. rewrite le_combine_split, Z.mod_small by done. by destruct p.
Qed.

(** A VTXO id is the 36 bytes of its outpoint: the conversions between ids
    and outpoints are inverse to each other, and every id is accepted by
    [from_slice]. *)
Theorem vtxo_id_roundtrip (p : OutPoint) (i : bytes) : valid_outpoint p -> length i = 36%nat ->
  id_from_slice (id_of_outpoint p) = Some (id_of_outpoint p) /\
  id_utxo (id_of_outpoint p) = p /\ id_of_outpoint (id_utxo i) = i.
Proof.
  intros Hp Hi. split_and!; [|by apply id_utxo_of_outpoint|].
  - unfold id_from_slice, id_of_outpoint. rewrite bool_decide_true; [done|].
    rewrite length_app, length_le_split. destruct Hp. lia.
  - unfold id_utxo, id_of_outpoint. cbn. rewrite split_le_combine' by (rewrite length_drop; lia). apply take_drop.
Qed.

(** *** Witnesses *)

(** A VTXO two transactions away from its anchor: a cosigned one with another
    output of 5000 sat and an arkoor spend with change of 1000 sat. *)
Definition sample_vtxo : Vtxo (B := model) :=
  mkVtxo (B := model) (new_pubkey (B := model) Byte.x07) 3000 2000 Byte.x09 144
    (mkOutPoint (hash []) 0)
    [mkItem (Cosigned (B := model) [Byte.x01; Byte.x09] ([], [])) 1
       [mkTxOut 5000 [Byte.x51; Byte.x20]];
     mkItem (Arkoor (B := model) (new_pubkey (B := model) Byte.x05) (Some ([], []))) 0
       [mkTxOut 1000 [Byte.x51; Byte.x20]]]
    (mkOutPoint (hash [Byte.x01]) 0).

Definition sample_txs : list (Transaction * Z) :=
  match transactions (E := unit) sample_vtxo with Ok (Some txs) => txs | _ => [] end.

Lemma sample_amounts : amounts_ok sample_vtxo.
Proof. split; [cbn; lia|]. repeat constructor; cbn; lia. Qed.

Lemma sample_taproots : taproots_ok sample_vtxo.
Proof. split; [repeat constructor; by eexists|by eexists]. Qed.

Lemma transactions_total_witness :
  exists txs, transactions (E := unit) sample_vtxo = Ok (Some txs) /\ length txs = 2%nat.
Proof.
  apply (transactions_total (E := unit) sample_vtxo sample_amounts sample_taproots); [done|reflexivity].
Defined.

Lemma exit_chain_witness : exists tx,
  sample_txs !! 0%nat = Some (tx, 1) /\ sum_Z (value <$> output tx) = 9000.
Proof.
  eexists. split; [reflexivity|].
  eapply (exit_chain (E := unit) sample_vtxo sample_txs 0 _ 1 _ sample_amounts); reflexivity.
Defined.

Lemma fully_signed_witnesses_witness :
  is_fully_signed sample_vtxo = true /\
  Forall (fun p => Forall (fun i => witness i <> []) (input p.1)) sample_txs.
Proof.
  split; [reflexivity|].
  apply (fully_signed_witnesses (E := unit) sample_vtxo sample_txs sample_amounts); reflexivity.
Defined.

Lemma transactions_empty_panics_witness :
  transactions (E := unit) (mkVtxo (B := model) (new_pubkey (B := model) Byte.x07) 3000 2000 Byte.x09 144
    null_outpoint [] null_outpoint) = Panic.
Proof.
  apply transactions_empty_panics; [|done]. split; [cbn; lia|constructor].
Defined.

Lemma vtxo_id_roundtrip_witness :
  let p := mkOutPoint (hash []) 7 in
  id_from_slice (id_of_outpoint p) = Some (id_of_outpoint p) /\ id_utxo (id_of_outpoint p) = p /\
  id_of_outpoint (id_utxo (hash [] ++ le_split 4 9)) = hash [] ++ le_split 4 9.
Proof. apply vtxo_id_roundtrip; [split|]; reflexivity. Defined.
