(* ===== verification/VtxoEncoding.v ===== *)
(** * The wire encoding of VTXOs (lib/src/vtxo/mod.rs)

    The [ProtocolEncoding] implementations of policies, genesis transitions and
    whole VTXOs, and the identifier of a VTXO. *)
From S2P Require Import Prelude Bitcoin Encode Concrete Policy Vtxo.

Open Scope Z_scope.

(** [n.try_into().expect(..)] from [usize] to a [w]-bit integer. *)
Definition try_into {E} (w n : Z) : outcome E Z := expect (if in_width w n then Some n else None).

Definition VTXO_POLICY_PUBKEY : Z := 0x00.
Definition VTXO_POLICY_SERVER_HTLC_SEND : Z := 0x01.
Definition VTXO_POLICY_SERVER_HTLC_RECV : Z := 0x02.
Definition VTXO_CHECKPOINT_CHECKPOINT : Z := 0x03.
Definition GENESIS_TRANSITION_TYPE_COSIGNED : Z := 1.
Definition GENESIS_TRANSITION_TYPE_ARKOOR : Z := 2.
Definition GENESIS_TRANSITION_TYPE_HASH_LOCKED_COSIGNED : Z := 3.
Definition VTXO_ENCODING_VERSION : Z := 1.

Section Codec.
Context `{B : Bitcoin} `{C : Consensus}.

Definition encode_policy (p : VtxoPolicy) : outcome DecodingError bytes :=
  match p with
  | Pubkey p =>
      k ← encode (pk_user_pubkey p); Ok (emit_u8 VTXO_POLICY_PUBKEY ++ k)
  | Checkpoint p =>
      k ← encode (cp_user_pubkey p); Ok (emit_u8 VTXO_CHECKPOINT_CHECKPOINT ++ k)
  | ServerHtlcSend p =>
      k ← encode (hs_user_pubkey p);
      Ok (emit_u8 VTXO_POLICY_SERVER_HTLC_SEND ++ k ++ encode_hash (hs_payment_hash p) ++
          emit_u32 (hs_htlc_expiry p))
  | ServerHtlcRecv p =>
      k ← encode (hr_user_pubkey p);
      Ok (emit_u8 VTXO_POLICY_SERVER_HTLC_RECV ++ k ++ encode_hash (hr_payment_hash p) ++
          emit_u32 (hr_htlc_expiry p) ++ emit_u16 (hr_htlc_expiry_delta p))
  end.

Definition decode_policy : reader VtxoPolicy :=
  t ← read_u8;
  if t =? VTXO_POLICY_PUBKEY then
    user_pubkey ← decode; mret (Pubkey (mkPubkeyPolicy user_pubkey))
  else if t =? VTXO_CHECKPOINT_CHECKPOINT then
    user_pubkey ← decode; mret (new_checkpoint user_pubkey)
  else if t =? VTXO_POLICY_SERVER_HTLC_SEND then
    user_pubkey ← decode;
    payment_hash ← decode_hash;
    htlc_expiry ← read_u32;
    mret (ServerHtlcSend (mkHtlcSendPolicy user_pubkey payment_hash htlc_expiry))
  else if t =? VTXO_POLICY_SERVER_HTLC_RECV then
    user_pubkey ← decode;
    payment_hash ← decode_hash;
    htlc_expiry ← read_u32;
    htlc_expiry_delta ← read_u16;
    mret (ServerHtlcRecv (mkHtlcRecvPolicy user_pubkey payment_hash htlc_expiry_delta htlc_expiry))
  else fail (Invalid "invalid VtxoType type byte").

#[export] Instance VtxoPolicy_encoding : ProtocolEncoding VtxoPolicy :=
  { encode := encode_policy; decode := decode_policy }.

Definition encode_preimage (m : MaybePreimage) : bytes :=
  match m with
  | Preimage p => emit_u8 0 ++ p
  | Hash h => emit_u8 1 ++ h
  end.

Definition decode_preimage : reader MaybePreimage :=
  t ← read_u8;
  if t =? 0 then p ← read_exact 32; mret (Preimage p)
  else if t =? 1 then h ← decode_hash; mret (Hash h)
  else fail (Invalid "invalid HashLockedCosignedTransitionWitness type byte").

Definition encode_transition (t : GenesisTransition) : outcome DecodingError bytes :=
  match t with
  | Cosigned pubkeys signature =>
      n ← try_into 16 (Z.of_nat (length pubkeys));
      pks ← encode_all pubkeys;
      s ← encode signature;
      Ok (emit_u8 GENESIS_TRANSITION_TYPE_COSIGNED ++ emit_u16 n ++ pks ++ s)
  | HashLockedCosigned user_pubkey signature unlock =>
      k ← encode user_pubkey;
      s ← encode signature;
      Ok (emit_u8 GENESIS_TRANSITION_TYPE_HASH_LOCKED_COSIGNED ++ k ++ s ++ encode_preimage unlock)
  | Arkoor policy signature =>
      p ← encode policy;
      s ← encode signature;
      Ok (emit_u8 GENESIS_TRANSITION_TYPE_ARKOOR ++ p ++ s)
  end.

Definition decode_transition : reader GenesisTransition :=
  t ← read_u8;
  if t =? GENESIS_TRANSITION_TYPE_COSIGNED then
    nb_pubkeys ← read_u16;
    pubkeys ← read_n decode (Z.to_nat nb_pubkeys);
    signature ← decode;
    mret (Cosigned pubkeys signature)
  else if t =? GENESIS_TRANSITION_TYPE_HASH_LOCKED_COSIGNED then
    user_pubkey ← decode;
    signature ← decode;
    unlock ← decode_preimage;
    mret (HashLockedCosigned user_pubkey signature unlock)
  else if t =? GENESIS_TRANSITION_TYPE_ARKOOR then
    policy ← decode;
    signature ← decode;
    mret (Arkoor policy signature)
  else fail (Invalid "invalid GenesisTransistion type byte").

#[export] Instance GenesisTransition_encoding : ProtocolEncoding GenesisTransition :=
  { encode := encode_transition; decode := decode_transition }.

(** One iteration of the loops over the genesis. *)
Definition encode_item (item : GenesisItem) : outcome DecodingError bytes :=
  t ← encode (transition item);
  nb_outputs ← try_into 8 (Z.of_nat (length (other_outputs item)) + 1);
  os ← encode_all (other_outputs item);
  Ok (t ++ emit_u8 nb_outputs ++ emit_u8 (output_idx item) ++ os).

Definition decode_item : reader GenesisItem :=
  transition ← decode;
  nb_outputs ← read_u8;
  output_idx ← read_u8;
  nb_other ← lift (ok_or (checked_sub nb_outputs 1) (Invalid "genesis item with 0 outputs"));
  other_outputs ← read_n decode (Z.to_nat nb_other);
  mret (mkItem transition output_idx other_outputs).

#[export] Instance GenesisItem_encoding : ProtocolEncoding GenesisItem :=
  { encode := encode_item; decode := decode_item }.

Definition encode_vtxo (v : Vtxo) : outcome DecodingError bytes :=
  server_pubkey ← encode (server_pubkey v);
  anchor_point ← encode (anchor_point v);
  n ← try_into 8 (Z.of_nat (length (genesis v)));
  items ← encode_all (genesis v);
  policy ← encode (policy v);
  point ← encode (point v);
  Ok (emit_u16 VTXO_ENCODING_VERSION ++ emit_u64 (amount v) ++ emit_u32 (expiry_height v) ++
      server_pubkey ++ emit_u16 (exit_delta v) ++ anchor_point ++ emit_u8 n ++ items ++
      policy ++ point).

Definition decode_vtxo : reader Vtxo :=
  version ← read_u16;
  if negb (version =? VTXO_ENCODING_VERSION) then
    fail (Invalid "invalid Vtxo encoding version byte")
  else
    amount ← read_u64;
    expiry_height ← read_u32;
    server_pubkey ← decode;
    exit_delta ← read_u16;
    anchor_point ← decode;
    nb_genesis_items ← read_u8;
    genesis ← read_n decode (Z.to_nat nb_genesis_items);
    output ← decode;
    point ← decode;
    mret (mkVtxo output amount expiry_height server_pubkey exit_delta anchor_point genesis point).

#[export] Instance Vtxo_encoding : ProtocolEncoding Vtxo :=
  { encode := encode_vtxo; decode := decode_vtxo }.

(** ** The values that fit the format *)
Definition valid_policy (p : VtxoPolicy) : Prop :=
  match p with
  | Pubkey _ | Checkpoint _ => True
  | ServerHtlcSend p => length (hs_payment_hash p) = 32%nat /\ in_u32 (hs_htlc_expiry p) = true
  | ServerHtlcRecv p => length (hr_payment_hash p) = 32%nat /\ in_u32 (hr_htlc_expiry p) = true /\
      in_u16 (hr_htlc_expiry_delta p) = true
  end.

Definition valid_preimage (m : MaybePreimage) : Prop :=
  match m with Preimage p => length p = 32%nat | Hash h => length h = 32%nat end.

Definition valid_transition (t : GenesisTransition) : Prop :=
  match t with
  | Cosigned pubkeys _ => in_u16 (Z.of_nat (length pubkeys)) = true
  | HashLockedCosigned _ _ unlock => valid_preimage unlock
  | Arkoor policy signature => valid_policy policy /\ valid_option_sig signature
  end.

Definition valid_item (i : GenesisItem) : Prop :=
  valid_transition (transition i) /\ in_u8 (Z.of_nat (length (other_outputs i)) + 1) = true /\
  in_u8 (output_idx i) = true /\ Forall valid_txout (other_outputs i).

Definition valid_vtxo (v : Vtxo) : Prop :=
  in_u64 (amount v) = true /\ in_u32 (expiry_height v) = true /\ in_u16 (exit_delta v) = true /\
  valid_outpoint (anchor_point v) /\ in_u8 (Z.of_nat (length (genesis v))) = true /\
  Forall valid_item (genesis v) /\ valid_policy (policy v) /\ valid_outpoint (point v).

Context `{L : !SerializeLaws B} `{CL : !ConsensusLaws C}.

Lemma try_into_Ok {E} w n : in_width w n = true -> try_into (E:=E) w n = Ok n.
Proof. unfold try_into. by intros ->. Qed.

#[export] Instance VtxoPolicy_laws : EncodingLaws VtxoPolicy valid_policy.
Proof.
  split.
  - intros [p|p|p|p] _; by eexists.
  - intros [[k]|[k]|[k h e]|[k h d e]] bs rest Hv Henc; cbn [valid_policy hs_payment_hash hs_htlc_expiry
      hr_payment_hash hr_htlc_expiry hr_htlc_expiry_delta] in Hv; destruct_and?;
    cbn [encode VtxoPolicy_encoding encode_policy] in Henc; apply bind_Ok in Henc as (bk & Hk & <-%Ok_inj);
    cbn [decode VtxoPolicy_encoding]; unfold decode_policy, decode_hash, encode_hash; rewrite <- !app_assoc;
    read_step; cbn -[decode read_exact read_u32 read_u16 encode]; read_step; try done.
    all: repeat read_step; done.
Qed.

Lemma decode_preimage_encode m rest : valid_preimage m ->
  decode_preimage (encode_preimage m ++ rest) = Ok (m, rest).
Proof.
  unfold decode_preimage, decode_hash. destruct m; cbn [valid_preimage encode_preimage]; intros Hm;
    rewrite <- app_assoc; read_step; cbn -[read_exact]; by read_step.
Qed.

#[export] Instance GenesisTransition_laws : EncodingLaws GenesisTransition valid_transition.
Proof.
  split.
  - intros [pks s|u s m|p s] Hv; cbn [encode GenesisTransition_encoding encode_transition valid_transition] in *.
    + rewrite try_into_Ok by done. cbn [mbind outcome_bind].
      destruct (encode_all_total (valid := fun _ => True) pks) as [bs ->]; [by apply Forall_true|]. by eexists.
    + by eexists.
    + destruct Hv as [Hp Hs]. destruct (encode_total p Hp) as [bp ->]. cbn [mbind outcome_bind].
      destruct (encode_total s Hs) as [bs ->]. by eexists.
  - intros [pks s|u s m|p s] bs rest Hv Henc;
      cbn [encode decode GenesisTransition_encoding encode_transition valid_transition] in *.
    + rewrite try_into_Ok in Henc by done. cbn [mbind outcome_bind] in Henc.
      apply bind_Ok in Henc as (bp & Hp & Henc). apply bind_Ok in Henc as (bs' & Hs & <-%Ok_inj).
      unfold decode_transition. rewrite <- !app_assoc. read_step. cbn -[decode read_u16 read_n emit_u16].
      read_step. rewrite Nat2Z.id.
      erewrite bind_reader_Ok by (eapply (read_n_encode_all (valid := fun _ => True)); [by apply Forall_true|done]).
      by read_step.
    + apply bind_Ok in Henc as (bp & Hp & Henc). apply bind_Ok in Henc as (bs' & Hs & <-%Ok_inj).
      unfold decode_transition. rewrite <- !app_assoc. read_step. cbn -[decode decode_preimage].
      do 2 read_step. by erewrite bind_reader_Ok by (by apply decode_preimage_encode).
    + destruct Hv as [Hvp Hvs].
      apply bind_Ok in Henc as (bp & Hp & Henc). apply bind_Ok in Henc as (bs' & Hs & <-%Ok_inj).
      unfold decode_transition. rewrite <- !app_assoc. read_step. cbn -[decode]. by do 2 read_step.
Qed.

#[export] Instance GenesisItem_laws : EncodingLaws GenesisItem valid_item.
Proof.
  split.
  - intros i (Ht & Hn & Hi & Ho). cbn [encode GenesisItem_encoding]. unfold encode_item.
    destruct (encode_total _ Ht) as [bt ->]. cbn [mbind outcome_bind]. rewrite try_into_Ok by done.
    cbn [mbind outcome_bind]. destruct (encode_all_total _ Ho) as [bo ->]. by eexists.
  - intros [t oi os] bs rest (Ht & Hn & Hi & Ho) Henc. cbn [transition output_idx other_outputs] in *.
    cbn [encode decode GenesisItem_encoding] in *. unfold encode_item in Henc.
    apply bind_Ok in Henc as (bt & Hbt & Henc). cbn [transition output_idx other_outputs] in *.
    rewrite try_into_Ok in Henc by done. cbn [mbind outcome_bind] in Henc.
    apply bind_Ok in Henc as (bo & Hbo & <-%Ok_inj). unfold decode_item. rewrite <- !app_assoc.
    do 3 read_step.
    assert (checked_sub (Z.of_nat (length os) + 1) 1 = Some (Z.of_nat (length os))) as ->
      by (apply checked_sub_Some; lia).
    erewrite bind_reader_Ok by done. rewrite Nat2Z.id.
    by erewrite bind_reader_Ok by (by eapply read_n_encode_all).
Qed.

#[export] Instance Vtxo_laws : EncodingLaws Vtxo valid_vtxo.
Proof.
  split.
  - intros v (_ & _ & _ & Ha & Hn & Hg & Hp & Hpt). cbn [encode Vtxo_encoding]. unfold encode_vtxo.
    destruct (encode_total (valid := fun _ => True) (server_pubkey v) I) as [bk ->]. cbn [mbind outcome_bind].
    destruct (encode_total _ Ha) as [ba ->]. cbn [mbind outcome_bind]. rewrite try_into_Ok by done.
    cbn [mbind outcome_bind]. destruct (encode_all_total _ Hg) as [bg ->]. cbn [mbind outcome_bind].
    destruct (encode_total _ Hp) as [bp ->]. cbn [mbind outcome_bind].
    destruct (encode_total _ Hpt) as [bt ->]. by eexists.
  - intros v bs rest (Ham & He & Hd & Ha & Hn & Hg & Hp & Hpt) Henc.
    cbn [encode decode Vtxo_encoding] in *. unfold encode_vtxo in Henc.
    apply bind_Ok in Henc as (bk & Hbk & Henc). apply bind_Ok in Henc as (ba & Hba & Henc).
    rewrite try_into_Ok in Henc by done. cbn [mbind outcome_bind] in Henc.
    apply bind_Ok in Henc as (bg & Hbg & Henc). apply bind_Ok in Henc as (bp & Hbp & Henc).
    apply bind_Ok in Henc as (bt & Hbt & <-%Ok_inj). unfold decode_vtxo. rewrite <- !app_assoc.
    read_step. cbn -[decode read_u64 read_u32 read_u16 read_u8 read_n emit_u64 emit_u32 emit_u16 emit_u8].
    do 6 read_step. rewrite Nat2Z.id. erewrite bind_reader_Ok by (by eapply read_n_encode_all).
    do 2 read_step. by destruct v.
Qed.

(** C34. A VTXO whose fields fit the format (at most 255 genesis items, 254
    other outputs per item, 65535 cosign keys, no all-zero arkoor signature)
    serializes, and deserializing the bytes, with anything after them, gives
    the same VTXO back. *)
Theorem vtxo_roundtrip (v : Vtxo) rest : valid_vtxo v ->
  exists bs, serialize v = Ok bs /\ decode (bs ++ rest) = Ok (v, rest) /\ deserialize bs = Ok v.
Proof.
  intros Hv. destruct (encode_total v Hv) as [bs Hbs]. exists bs.
  pose proof (fun r => decode_encode v bs r Hv Hbs) as Hdec. split_and!; [done..|].
  unfold deserialize. specialize (Hdec []). rewrite app_nil_r in Hdec. by rewrite Hdec.
Qed.
End Codec.

(** *** Witnesses *)
Definition wire_vtxo : Vtxo (B := ser_model) :=
  mkVtxo (B := ser_model) (ServerHtlcRecv (B := ser_model) (mkHtlcRecvPolicy (B := ser_model) Byte.x07 (hash []) 40 1000))
    3000 2000 Byte.x09 144 (mkOutPoint (hash []) 0)
    [mkItem (Cosigned (B := ser_model) [Byte.x01; Byte.x09] Byte.x33) 1 [mkTxOut 5000 [Byte.x51]];
     mkItem (HashLockedCosigned (B := ser_model) Byte.x01 Byte.x33 (Hash (hash [Byte.x02]))) 0 [];
     mkItem (Arkoor (B := ser_model) (new_pubkey (B := ser_model) Byte.x05) None) 0
       [mkTxOut 1000 [Byte.x51]]]
    (mkOutPoint (hash [Byte.x01]) 0).

Lemma vtxo_roundtrip_witness : exists bs, serialize wire_vtxo = Ok bs /\
  decode (bs ++ [Byte.x01]) = Ok (wire_vtxo, [Byte.x01]) /\ deserialize bs = Ok wire_vtxo.
Proof.
  apply (vtxo_roundtrip (B := ser_model) wire_vtxo [Byte.x01]).
  split_and!; try reflexivity; [by split| |by split|by split].
  repeat constructor; try reflexivity. done.
Defined.
