(* ===== verification/Validation.v ===== *)
(** * VTXO validation (lib/src/vtxo/validation.rs)

    [validate] replays the exit chain of a VTXO from its on-chain anchor and
    checks every signature.  The specification [valid_chain] says the same of the
    transactions that [Vtxo::transactions] builds, without replaying anything. *)
From S2P Require Import Prelude Bitcoin Encode Concrete Policy Vtxo.

Open Scope Z_scope.

Section Validation.
Context `{B : Bitcoin}.

Inductive VtxoValidationError :=
  | Invalid (message : string)
  | IncorrectChainAnchor (expected got : TxOut)
  | InconsistentCosignPubkeys
  | GenesisTransitionError (error : string) (genesis_idx genesis_len : nat) (transition_type : string)
  | NonStandardTxOut (genesis_item_idx other_output_idx : nat)
  | InvalidArkoorPolicy (policy : VtxoPolicyKind) (msg : string).

(** The sighash signed for a transition: a script spend of the unlock clause
    for hash-locked transitions, a key spend for the others. *)
Definition transition_sighash (v : Vtxo) (t : GenesisTransition) (tx : Transaction) (prev_txout : TxOut)
  : bytes :=
  match t with
  | HashLockedCosigned user_pubkey _ unlock =>
      let agg_pk := combine_keys [user_pubkey; server_pubkey v] in
      script_spend_sighash tx prev_txout (unlock_clause agg_pk (preimage_hash unlock))
  | Cosigned _ _ | Arkoor _ _ => key_spend_sighash tx prev_txout
  end.

Definition transition_signature (t : GenesisTransition) : option Signature :=
  match t with
  | Cosigned _ signature => Some signature
  | HashLockedCosigned _ signature _ => Some signature
  | Arkoor _ signature => signature
  end.

(** [verify_transition]; the output indices come from a [u32] and a [u8], so
    the casts to [usize] and back do not change them. *)
Definition verify_transition (v : Vtxo) (genesis_idx : nat) (prev_tx : Transaction) (prev_vout : Z)
    (next_amount : Z) : outcome string Transaction :=
  item ← expect (genesis v !! genesis_idx);
  prev_txout ← ok_or (output prev_tx !! Z.to_nat prev_vout) "output idx out of range"%string;
  next ← next_output v genesis_idx next_amount;
  let prevout := mkOutPoint (compute_txid prev_tx) prev_vout in
  tx ← item_tx item prevout next (server_pubkey v) (expiry_height v);
  let sighash := transition_sighash v (transition item) tx prev_txout in
  tr ← input_taproot (transition item) (server_pubkey v) (expiry_height v) (exit_delta v);
  signature ← ok_or (transition_signature (transition item)) "missing arkoor signature"%string;
  _ ← ensure (verify_schnorr signature sighash (output_key tr)) "invalid signature"%string;
  Ok tx.

(** The check on the order of transitions: after a hash-locked or an arkoor
    transition only arkoor transitions may follow. *)
Definition check_order (v : Vtxo) (idx : nat) (item : GenesisItem) (next : option GenesisItem)
  : outcome VtxoValidationError unit :=
  let followed_by_arkoor msg :=
    match next with
    | Some n =>
        match transition n with
        | Arkoor _ _ => Ok tt
        | Cosigned _ _ | HashLockedCosigned _ _ _ =>
            Err (GenesisTransitionError msg idx (length (genesis v)) (transition_type (transition item)))
        end
    | None => Ok tt
    end in
  match transition item with
  | Cosigned _ _ => Ok tt
  | HashLockedCosigned _ _ _ =>
      followed_by_arkoor "hash-locked cosigned transition must be followed by arkoor transitions"%string
  | Arkoor policy _ =>
      _ ← ensure (bool_decide (is_Some (arkoor_pubkey policy)))
            (InvalidArkoorPolicy (policy_type policy) "arkoor transition without arkoor pubkey");
      followed_by_arkoor "Arkoor transition must be followed by arkoor transitions"%string
  end.

Fixpoint validate_loop (v : Vtxo) (idx : nat) (items : list GenesisItem) (prev_tx : Transaction)
    (prev_vout : Z) (prev_amount : Z) : outcome VtxoValidationError unit :=
  match items with
  | [] => Ok tt
  | item :: rest =>
      _ ← check_order v idx item (head rest);
      _ ← (match list_find (fun o => is_standard o = false) (other_outputs item) with
           | Some (out_idx, _) => Err (NonStandardTxOut idx out_idx)
           | None => Ok tt
           end);
      others ← other_value item;
      next_amount ← ok_or (checked_sub prev_amount others) (Invalid "insufficient onchain amount");
      next_tx ← map_err
        (fun e => GenesisTransitionError e idx (length (genesis v)) (transition_type (transition item)))
        (verify_transition v idx prev_tx prev_vout next_amount);
      validate_loop v (S idx) rest next_tx (output_idx item) next_amount
  end.

Definition validate (v : Vtxo) (chain_anchor_tx : Transaction) : outcome VtxoValidationError unit :=
  anchor_txout ← ok_or (output chain_anchor_tx !! Z.to_nat (op_vout (anchor_point v)))
                   (Invalid "chain anchor vout out of range");
  onchain_amount ← onchain_amount v;
  first ← expect (head (genesis v));
  expected ← input_txout (transition first) onchain_amount (server_pubkey v) (expiry_height v) (exit_delta v);
  _ ← ensure (bool_decide (anchor_txout = expected)) (IncorrectChainAnchor expected anchor_txout);
  _ ← ensure (negb (bool_decide (genesis v = []))) (Invalid "no genesis items");
  validate_loop v 0 (genesis v) chain_anchor_tx (op_vout (anchor_point v)) onchain_amount.

(** ** Specification *)

(** Only arkoor transitions follow a transition that is not cosigned. *)
Definition order_ok (item : GenesisItem) (next : option GenesisItem) : Prop :=
  match transition item with
  | Cosigned _ _ => True
  | _ => match next with
         | Some n => exists p s, transition n = Arkoor p s
         | None => True
         end
  end.

(** The transition's signature is valid for the output the transaction spends. *)
Definition signature_ok (v : Vtxo) (t : GenesisTransition) (tx : Transaction) (prev_txout : TxOut) : Prop :=
  exists sig tr, transition_signature t = Some sig /\
    input_taproot (E:=string) t (server_pubkey v) (expiry_height v) (exit_delta v) = Ok tr /\
    verify_schnorr sig (transition_sighash v t tx prev_txout) (output_key tr) = true.

(** The output transaction [k] spends. *)
Definition prev_txout (v : Vtxo) (anchor_tx : Transaction) (txs : list (Transaction * Z)) (k : nat)
  : option TxOut :=
  match k with
  | O => output anchor_tx !! Z.to_nat (op_vout (anchor_point v))
  | S j => p ← txs !! j; output p.1 !! Z.to_nat p.2
  end.

Definition step_ok (v : Vtxo) (anchor_tx : Transaction) (txs : list (Transaction * Z)) (k : nat)
    (item : GenesisItem) (tx : Transaction) : Prop :=
  order_ok item (genesis v !! S k) /\
  Forall (fun o => is_standard o = true) (other_outputs item) /\
  exists po, prev_txout v anchor_tx txs k = Some po /\ signature_ok v (transition item) tx po.

(** The exit transactions [txs] start at the anchor, in an output with exactly
    the amount the chain distributes, and are all signed. *)
Definition valid_chain (v : Vtxo) (anchor_tx : Transaction) : Prop :=
  exists first txs,
    head (genesis v) = Some first /\
    transactions (E:=string) v = Ok (Some txs) /\
    (exists o, input_txout (E:=string) (transition first) (chain_amount v 0) (server_pubkey v)
                 (expiry_height v) (exit_delta v) = Ok o /\
               output anchor_tx !! Z.to_nat (op_vout (anchor_point v)) = Some o) /\
    forall k item tx oi, genesis v !! k = Some item -> txs !! k = Some (tx, oi) ->
      step_ok v anchor_tx txs k item tx.

(** ** Validation meets its specification *)
Lemma input_taproot_err {E F} t spk eh ed tr :
  input_taproot (E:=E) t spk eh ed = Ok tr -> input_taproot (E:=F) t spk eh ed = Ok tr.
Proof.
  destruct t as [pks s|u s m|[p|p|p|p] s]; cbn; unfold cosign_taproot, leaf_cosign_taproot, checkpoint_taproot,
    server_htlc_send_taproot, server_htlc_receive_taproot, expiry_clause, delay_timelock_sign, timelock_sign,
    u_mul, u_add; intros H.
  all: repeat match type of H with context [if ?b then _ else _] => destruct b; cbn in *; try done end.
  all: repeat match type of H with context [locktime_from_height ?x] =>
    destruct (locktime_from_height x); cbn in *; try done end.
  all: by injection H as <-.
Qed.

Lemma check_order_Ok v idx item next : check_order v idx item next = Ok tt <-> order_ok item next.
Proof.
  unfold check_order, order_ok. destruct (transition item) as [pks s|u s m|p s]; [done| |].
  - destruct next as [n|]; [|done]. destruct (transition n); naive_solver.
  - rewrite (bool_decide_true (is_Some _)) by (destruct p; eauto). cbn [mbind outcome_bind ensure].
    destruct next as [n|]; [|done]. destruct (transition n); naive_solver.
Qed.

Lemma find_non_standard_None os :
  list_find (fun o => is_standard o = false) os = None <-> Forall (fun o => is_standard o = true) os.
Proof.
  rewrite list_find_None. split; intros H; (eapply Forall_impl; [exact H|]); cbn; intros o.
  - by destruct (is_standard o).
  - by intros ->.
Qed.

Lemma verify_transition_Ok v k item prev_tx prev_vout a tx : genesis v !! k = Some item ->
  verify_transition v k prev_tx prev_vout a = Ok tx <->
  exists next po, next_output (E:=string) v k a = Ok next /\
    item_tx (E:=string) item (mkOutPoint (compute_txid prev_tx) prev_vout) next (server_pubkey v) (expiry_height v)
      = Ok tx /\
    output prev_tx !! Z.to_nat prev_vout = Some po /\ signature_ok v (transition item) tx po.
Proof.
  intros Hk. unfold verify_transition, signature_ok. rewrite Hk. cbn [expect mbind outcome_bind]. split.
  - intros H. apply bind_Ok in H as (po & Hpo%ok_or_Ok & H). apply bind_Ok in H as (next & Hnext & H).
    apply bind_Ok in H as (tx' & Htx & H). apply bind_Ok in H as (tr & Htr & H).
    apply bind_Ok in H as (sig & Hsig%ok_or_Ok & H). apply bind_Ok in H as ([] & Hv%ensure_Ok & [= ->]).
    exists next, po. split_and!; [done..|]. by exists sig, tr.
  - intros (next & po & Hnext & Htx & Hpo & sig & tr & Hsig & Htr & Hv).
    rewrite Hpo. cbn [ok_or mbind outcome_bind]. rewrite Hnext. cbn [mbind outcome_bind].
    rewrite Htx. cbn [mbind outcome_bind]. rewrite Htr. cbn [mbind outcome_bind]. rewrite Hsig.
    cbn [ok_or mbind outcome_bind]. by rewrite Hv.
Qed.

(** One iteration of the loop. *)
Lemma validate_step v k item rest prev_tx prev_vout : amounts_ok v -> chain_amount v 0 < 2 ^ 64 ->
  genesis v !! k = Some item ->
  validate_loop v k (item :: rest) prev_tx prev_vout (chain_amount v k) = Ok tt <->
  order_ok item (head rest) /\ Forall (fun o => is_standard o = true) (other_outputs item) /\
  exists next po tx, next_output (E:=string) v k (chain_amount v (S k)) = Ok next /\
    item_tx (E:=string) item (mkOutPoint (compute_txid prev_tx) prev_vout) next (server_pubkey v)
      (expiry_height v) = Ok tx /\
    output prev_tx !! Z.to_nat prev_vout = Some po /\ signature_ok v (transition item) tx po /\
    validate_loop v (S k) rest tx (output_idx item) (chain_amount v (S k)) = Ok tt.
Proof.
  intros Hok Hlt Hk. pose proof (chain_amount_step v k item Hk) as Hstep.
  pose proof (chain_amount_bounds v (S k) Hok) as Hbnd.
  cbn [validate_loop]. rewrite <- (check_order_Ok v k), <- find_non_standard_None.
  rewrite (other_value_Ok v k) by done.
  assert (checked_sub (chain_amount v k) (sum_Z (other_values item)) = Some (chain_amount v (S k))) as Hsub
    by (apply checked_sub_Some; lia).
  split.
  - intros H. apply bind_Ok in H as ([] & Hord & H). apply bind_Ok in H as ([] & Hstd & H).
    cbn [mbind outcome_bind] in H. rewrite Hsub in H.
    cbn [ok_or mbind outcome_bind] in H. apply bind_Ok in H as (tx & Htx%map_err_Ok & H).
    apply (verify_transition_Ok v k item) in Htx as (next & po & ? & ? & ? & ?); [|done].
    split_and!; [done| |by exists next, po, tx]. by destruct (list_find _ _) as [[? ?]|].
  - intros (Hord & -> & next & po & tx & ? & ? & ? & ? & H). rewrite Hord.
    cbn [mbind outcome_bind]. rewrite Hsub. cbn [ok_or mbind outcome_bind].
    apply bind_Ok. exists tx. split; [|done]. apply map_err_Ok.
    apply (verify_transition_Ok v k item); [done|]. by exists next, po.
Qed.

(** What the loop checks, in terms of the transactions of the chain. *)
Definition steps_ok (v : Vtxo) (items : list GenesisItem) (prev_tx : Transaction) (prev_vout : Z)
    (txs : list (Transaction * Z)) : Prop :=
  forall j item tx oi, items !! j = Some item -> txs !! j = Some (tx, oi) ->
    order_ok item (items !! S j) /\ Forall (fun o => is_standard o = true) (other_outputs item) /\
    exists po, (match j with
                | O => output prev_tx !! Z.to_nat prev_vout
                | S i => p ← txs !! i; output p.1 !! Z.to_nat p.2
                end) = Some po /\ signature_ok v (transition item) tx po.

Lemma steps_ok_cons v item rest prev_tx prev_vout tx oi txs :
  steps_ok v (item :: rest) prev_tx prev_vout ((tx, oi) :: txs) <->
  (order_ok item (head rest) /\ Forall (fun o => is_standard o = true) (other_outputs item) /\
   exists po, output prev_tx !! Z.to_nat prev_vout = Some po /\ signature_ok v (transition item) tx po) /\
  steps_ok v rest tx oi txs.
Proof.
  rewrite head_lookup. split.
  - intros H. split; [by apply (H O item tx oi)|]. intros j it tx' oi' Hit Htx. specialize (H (S j) _ _ _ Hit Htx).
    by destruct j.
  - intros [H0 H] [|j] it tx' oi' Hit Htx.
    + injection Hit as <-. injection Htx as <- <-. done.
    + specialize (H j _ _ _ Hit Htx). by destruct j.
Qed.

Lemma validate_loop_Ok v items : forall k prev_tx prev_vout, amounts_ok v -> chain_amount v 0 < 2 ^ 64 ->
  drop k (genesis v) = items ->
  validate_loop v k items prev_tx prev_vout (chain_amount v k) = Ok tt <->
  exists txs, chain_from (E:=string) v items k (mkOutPoint (compute_txid prev_tx) prev_vout) = Ok txs /\
    steps_ok v items prev_tx prev_vout txs.
Proof.
  induction items as [|item rest IH]; intros k prev_tx prev_vout Hok Hlt Hd.
  - split; [|done]. intros _. exists []. split; [done|]. intros j it tx oi Hj. done.
  - assert (genesis v !! k = Some item) as Hk by (by rewrite <- (Nat.add_0_r k), <- lookup_drop, Hd).
    assert (drop (S k) (genesis v) = rest) as Hd' by (by rewrite (drop_S _ _ _ Hk) in Hd; injection Hd).
    rewrite validate_step by done. cbn [chain_from]. split.
    + intros (Hord & Hstd & next & po & tx & Hn & Htx & Hpo & Hsig & H).
      apply IH in H as (txs & Hc & Hs); [|done..]. exists ((tx, output_idx item) :: txs).
      rewrite Hn. cbn [mbind outcome_bind]. rewrite Htx. cbn [mbind outcome_bind]. rewrite Hc.
      split; [done|]. apply steps_ok_cons. split; [|done]. split_and!; [done..|]. by exists po.
    + intros (txs & H & Hs). apply bind_Ok in H as (next & Hn & H). apply bind_Ok in H as (tx & Htx & H).
      apply bind_Ok in H as (xs & Hc & <-%Ok_inj).
      apply steps_ok_cons in Hs as [(Hord & Hstd & po & Hpo & Hsig) Hs].
      split_and!; [done..|]. exists next, po, tx. split_and!; [done..|]. apply IH; [done..|]. by exists xs.
Qed.

Lemma outpoint_eta (p : OutPoint) : mkOutPoint (op_txid p) (op_vout p) = p.
Proof. by destruct p. Qed.

Lemma validate_iff v anchor_tx : amounts_ok v ->
  compute_txid anchor_tx = op_txid (anchor_point v) ->
  validate v anchor_tx = Ok tt <-> valid_chain v anchor_tx.
Proof.
  intros Hok Htxid. unfold validate, valid_chain. split.
  - intros H. apply bind_Ok in H as (ao & Hao%ok_or_Ok & H). apply bind_Ok in H as (total & Htot & H).
    rewrite onchain_amount_exact in Htot by done.
    destruct (Z.ltb_spec (chain_amount v 0) (2 ^ 64)) as [Hlt|]; [|done]. injection Htot as <-.
    apply bind_Ok in H as (first & Hf%expect_Ok & H). apply bind_Ok in H as (o & Ho & H).
    apply bind_Ok in H as ([] & Heq%ensure_Ok%bool_decide_eq_true & H). subst ao.
    apply bind_Ok in H as ([] & _ & H).
    apply validate_loop_Ok in H as (txs & Hc & Hs); [|done..]. exists first, txs. split_and!; [done| | |].
    + rewrite transactions_chain; [|done|by intros Hg; rewrite Hg in Hf].
      destruct (Z.ltb_spec (chain_amount v 0) (2 ^ 64)); [|lia].
      rewrite Htxid, outpoint_eta in Hc. by rewrite Hc.
    + exists o. split; [|done]. unfold input_txout in *. apply bind_Ok in Ho as (tr & Htr & <-%Ok_inj).
      by rewrite (input_taproot_err _ _ _ _ _ Htr).
    + intros k item tx oi Hi Htx. apply (Hs k item tx oi Hi Htx).
  - intros (first & txs & Hf & Htxs & (o & Ho & Hao) & Hs).
    apply transactions_inv in Htxs as (Hne & Hlt & Hc); [|done]. rewrite Hao. cbn [ok_or mbind outcome_bind].
    rewrite onchain_amount_exact by done. destruct (Z.ltb_spec (chain_amount v 0) (2 ^ 64)); [|lia].
    cbn [mbind outcome_bind]. rewrite Hf. cbn [expect mbind outcome_bind]. unfold input_txout in *.
    apply bind_Ok in Ho as (tr & Htr & <-%Ok_inj). rewrite (input_taproot_err _ _ _ _ _ Htr).
    cbn [mbind outcome_bind]. rewrite (bool_decide_true (mkTxOut _ _ = _)) by done. cbn [ensure mbind outcome_bind].
    rewrite bool_decide_false by done. cbn [ensure negb mbind outcome_bind].
    apply validate_loop_Ok; [done..|]. exists txs. split; [|exact Hs].
    rewrite Htxid. by rewrite outpoint_eta.
Qed.


(** Every relevant output index names the output that the next transaction
    spends, not the fee anchor or one past the end. *)
Definition indices_ok (v : Vtxo) : Prop :=
  Forall (fun i => 0 <= output_idx i <= Z.of_nat (length (other_outputs i))) (genesis v).


Lemma validate_loop_no_panic v items : forall k prev_tx prev_vout, amounts_ok v -> taproots_ok v ->
  chain_amount v 0 < 2 ^ 64 -> drop k (genesis v) = items ->
  validate_loop v k items prev_tx prev_vout (chain_amount v k) <> Panic.
Proof.
  induction items as [|item rest IH]; intros k prev_tx prev_vout Hok Htr Hlt Hd; [done|].
  assert (genesis v !! k = Some item) as Hk by (by rewrite <- (Nat.add_0_r k), <- lookup_drop, Hd).
  assert (drop (S k) (genesis v) = rest) as Hd' by (by rewrite (drop_S _ _ _ Hk) in Hd; injection Hd).
  pose proof (chain_amount_step v k item Hk). pose proof (chain_amount_bounds v (S k) Hok).
  cbn [validate_loop]. rewrite (other_value_Ok v k) by done.
  destruct (check_order v k item (head rest)) as [[]| |] eqn:Hord; [|done|].
  2: { exfalso. revert Hord. unfold check_order, ensure. destruct (transition item); [done| |].
       - by destruct (head rest) as [[[]]|].
       - destruct (bool_decide _); [|done]. by destruct (head rest) as [[[]]|]. }
  cbn [mbind outcome_bind]. destruct (list_find _ _) as [[? ?]|]; [done|]. cbn [mbind outcome_bind].
  assert (checked_sub (chain_amount v k) (sum_Z (other_values item)) = Some (chain_amount v (S k))) as ->
    by (apply checked_sub_Some; lia).
  cbn [ok_or mbind outcome_bind].
  destruct (verify_transition v k prev_tx prev_vout (chain_amount v (S k))) as [tx|e|] eqn:Hver;
    cbn [map_err mbind outcome_bind]; [by apply IH|done|].
  exfalso. revert Hver. unfold verify_transition. rewrite Hk. cbn [expect mbind outcome_bind].
  destruct (output prev_tx !! _); [|done]. cbn [ok_or mbind outcome_bind].
  destruct (next_output_total (E:=string) v k (chain_amount v (S k)) Htr) as [next ->].
  cbn [mbind outcome_bind]. destruct (Forall_lookup_1 _ _ _ _ (proj1 Htr) Hk) as [tr Ht].
  destruct (transition_witness_total _ _ _ _ _ (Ht string)) as [w Hw]. unfold item_tx. rewrite Hw.
  cbn [mbind outcome_bind]. rewrite (Ht string). cbn [mbind outcome_bind].
  destruct (transition_signature _); cbn [ok_or mbind outcome_bind]; [|done]. by destruct (verify_schnorr _ _ _).
Qed.

(** Validation always ends with a verdict, never a panic, on a VTXO with a
    genesis whose taproots exist and whose total fits in 64 bits. *)
Theorem validate_no_panic v anchor_tx : amounts_ok v -> taproots_ok v -> genesis v <> [] ->
  chain_amount v 0 < 2 ^ 64 -> validate v anchor_tx <> Panic.
Proof.
  intros Hok Htr Hne Hlt. unfold validate. destruct (output anchor_tx !! _); [|done].
  cbn [ok_or mbind outcome_bind]. rewrite onchain_amount_exact by done.
  destruct (Z.ltb_spec (chain_amount v 0) (2 ^ 64)); [|lia]. cbn [mbind outcome_bind].
  destruct (head (genesis v)) as [first|] eqn:Hf; [|by apply head_None in Hf].
  rewrite head_lookup in Hf. destruct (Forall_lookup_1 _ _ _ _ (proj1 Htr) Hf) as [tr Ht].
  unfold input_txout. cbn [expect mbind outcome_bind]. rewrite Ht. cbn [mbind outcome_bind].
  destruct (bool_decide (_ = mkTxOut _ _)); [|done]. cbn [ensure mbind outcome_bind].
  destruct (bool_decide _); [done|]. cbn [ensure negb mbind outcome_bind].
  by apply validate_loop_no_panic.
Qed.

(** A VTXO with an empty genesis is not rejected as such: reading the first
    item comes before the emptiness check, so validating it panics. *)
Theorem validate_empty_panics v anchor_tx o : genesis v = [] -> 0 <= amount v < 2 ^ 64 ->
  output anchor_tx !! Z.to_nat (op_vout (anchor_point v)) = Some o ->
  validate v anchor_tx = Panic.
Proof.
  intros Hg Ha Ho. unfold validate. rewrite Ho. cbn [ok_or mbind outcome_bind].
  rewrite onchain_amount_exact by (split; [lia|by rewrite Hg]). destruct (_ <? _); [|done].
  cbn [mbind outcome_bind]. by rewrite Hg.
Qed.

Definition with_point (v : Vtxo) (p : OutPoint) : Vtxo :=
  mkVtxo (policy v) (amount v) (expiry_height v) (server_pubkey v) (exit_delta v) (anchor_point v)
    (genesis v) p.

Lemma validate_loop_point v p items : forall k prev_tx prev_vout a,
  validate_loop (with_point v p) k items prev_tx prev_vout a = validate_loop v k items prev_tx prev_vout a.
Proof.
  induction items as [|item rest IH]; intros k prev_tx prev_vout a; [done|]. cbn [validate_loop].
  change (check_order (with_point v p)) with (check_order v).
  change (verify_transition (with_point v p)) with (verify_transition v).
  change (length (genesis (with_point v p))) with (length (genesis v)).
  by setoid_rewrite IH.
Qed.

(** The verdict does not depend on the stored [point]: a VTXO whose point,
    and so whose id, is not the output of its last exit transaction passes
    validation like the correct one. *)
Theorem validate_ignores_point v p anchor_tx : validate (with_point v p) anchor_tx = validate v anchor_tx.
Proof. unfold validate. by setoid_rewrite validate_loop_point. Qed.
End Validation.

(** *** Witnesses *)

(** [sample_vtxo] with its transitions signed, and its anchor transaction. *)
Definition sample_anchor_tx : Transaction :=
  mkTx 2 0 [] (match input_txout (E := unit) (Cosigned (B := model) [Byte.x01; Byte.x09] ([], [])) 9000
                       Byte.x09 2000 144 with Ok o => [o] | _ => [] end).

Definition at_anchor (v : Vtxo (B := model)) (items : list GenesisItem) : Vtxo (B := model) :=
  mkVtxo (policy v) (amount v) (expiry_height v) (server_pubkey v) (exit_delta v)
    (mkOutPoint (compute_txid (Bitcoin := model) sample_anchor_tx) 0) items (point v).

Definition set_signature (t : GenesisTransition (B := model)) (s : bytes * bytes) : GenesisTransition (B := model) :=
  match t with
  | Cosigned pks _ => Cosigned (B := model) pks s
  | HashLockedCosigned u _ m => HashLockedCosigned (B := model) u s m
  | Arkoor p _ => Arkoor (B := model) p (Some s)
  end.

Definition sign_item (v : Vtxo (B := model)) (txs : list (Transaction * Z)) (k : nat) (i : GenesisItem (B := model))
  : GenesisItem (B := model) :=
  match txs !! k, prev_txout v sample_anchor_tx txs k,
        input_taproot (E := unit) (transition i) (server_pubkey v) (expiry_height v) (exit_delta v) with
  | Some (tx, _), Some po, Ok tr =>
      mkItem (set_signature (transition i) (output_key tr, transition_sighash v (transition i) tx po))
        (output_idx i) (other_outputs i)
  | _, _, _ => i
  end.

Definition signed_vtxo : Vtxo (B := model) :=
  let v := at_anchor sample_vtxo (genesis sample_vtxo) in
  match transactions (E := unit) v with
  | Ok (Some txs) => at_anchor v (imap (sign_item v txs) (genesis v))
  | _ => v
  end.

Lemma signed_amounts : amounts_ok signed_vtxo.
Proof. split; apply (bool_decide_unpack _); by vm_compute. Qed.

Lemma signed_indices : indices_ok signed_vtxo.
Proof. apply (bool_decide_unpack _). by vm_compute. Qed.



Lemma validate_no_panic_witness : validate sample_vtxo sample_anchor_tx <> Panic.
Proof.
  apply (validate_no_panic sample_vtxo sample_anchor_tx sample_amounts sample_taproots); [done|reflexivity].
Defined.

Lemma validate_empty_panics_witness :
  validate (at_anchor sample_vtxo []) sample_anchor_tx = Panic.
Proof. eapply (validate_empty_panics (at_anchor sample_vtxo []) sample_anchor_tx); [done|cbn; lia|reflexivity]. Defined.
