(* ===== verification/Board.v ===== *)
(** * Boarding (lib/src/board.rs)

    The builder with which user and server turn an on-chain output into a VTXO
    with a single cosigned exit transaction.  The state marker of the builder is
    a phantom parameter of its type, as in the source, so an operation can only
    be applied in the states that offer it. *)
From S2P Require Import Prelude Bitcoin Encode Concrete Policy Vtxo Validation.

Open Scope Z_scope.

Definition BOARD_FUNDING_TX_VTXO_VOUT : Z := 0.

Inductive BuilderState := Preparing | CanGenerateNonces | ServerCanCosign | CanFinish.

(** The states with enough information to sign. *)
Class CanSign (s : BuilderState) := {}.
#[export] Instance ServerCanCosign_CanSign : CanSign ServerCanCosign := {}.
#[export] Instance CanFinish_CanSign : CanSign CanFinish := {}.

(** lib/src/error.rs. *)
Record IncorrectSigningKeyError `{B : Bitcoin} := mkIncorrectKey {
  required : option PublicKey; provided : PublicKey }.

Section Board.
Context `{B : Bitcoin}.

Definition exit_tx_sighash (prev_utxo : TxOut) (utxo : OutPoint) (output : TxOut) : bytes * Transaction :=
  let exit_tx := create_exit_tx utxo output None in
  (key_spend_sighash exit_tx prev_utxo, exit_tx).

Record BoardCosignResponse := mkBoardCosign {
  pub_nonce : PublicNonce; partial_signature : PartialSignature }.

Record BoardBuilder (s : BuilderState) := mkBuilder {
  bb_user_pubkey : PublicKey;
  bb_expiry_height : Z;
  bb_server_pubkey : PublicKey;
  bb_exit_delta : Z;
  bb_amount : option Z;
  bb_utxo : option OutPoint;
  bb_user_pub_nonce : option PublicNonce;
  bb_user_sec_nonce : option SecretNonce;
}.
#[global] Arguments mkBuilder {s}.
#[global] Arguments bb_user_pubkey {s}.
#[global] Arguments bb_expiry_height {s}.
#[global] Arguments bb_server_pubkey {s}.
#[global] Arguments bb_exit_delta {s}.
#[global] Arguments bb_amount {s}.
#[global] Arguments bb_utxo {s}.
#[global] Arguments bb_user_pub_nonce {s}.
#[global] Arguments bb_user_sec_nonce {s}.

Definition funding_script_pubkey {E s} (b : BoardBuilder s) : outcome E bytes :=
  let combined_pubkey := combine_keys [bb_user_pubkey b; bb_server_pubkey b] in
  tr ← cosign_taproot combined_pubkey (bb_server_pubkey b) (bb_expiry_height b);
  Ok (taproot_script_pubkey tr).

Definition board_new (user_pubkey : PublicKey) (expiry_height : Z) (server_pubkey : PublicKey)
    (exit_delta : Z) : BoardBuilder Preparing :=
  mkBuilder user_pubkey expiry_height server_pubkey exit_delta None None None None.

Definition set_funding_details (b : BoardBuilder Preparing) (amount : Z) (utxo : OutPoint)
  : BoardBuilder CanGenerateNonces :=
  mkBuilder (bb_user_pubkey b) (bb_expiry_height b) (bb_server_pubkey b) (bb_exit_delta b)
    (Some amount) (Some utxo) (bb_user_pub_nonce b) (bb_user_sec_nonce b).

(** The funding output, the exit output and the transaction between them;
    [generate_user_nonces] and [exit_tx_sighash_data] compute them alike. *)
Definition exit_data {E s} (b : BoardBuilder s) : outcome E (bytes * Taproot * Transaction) :=
  let combined_pubkey := combine_keys [bb_user_pubkey b; bb_server_pubkey b] in
  funding_taproot ← cosign_taproot combined_pubkey (bb_server_pubkey b) (bb_expiry_height b);
  amount ← expect (bb_amount b);
  let funding_txout := mkTxOut amount (taproot_script_pubkey funding_taproot) in
  let exit_tr := exit_taproot (bb_user_pubkey b) (bb_server_pubkey b) (bb_exit_delta b) in
  let exit_txout := mkTxOut amount (taproot_script_pubkey exit_tr) in
  utxo ← expect (bb_utxo b);
  let '(sighash, tx) := exit_tx_sighash funding_txout utxo exit_txout in
  Ok (sighash, funding_taproot, tx).

(** [rand] is the session randomness. *)
Definition generate_user_nonces {E} (b : BoardBuilder CanGenerateNonces) (rand : Z)
  : outcome E (BoardBuilder CanFinish) :=
  d ← exit_data b;
  let '(reveal_sighash, funding_taproot, _) := d in
  let '(sec_nonce, pub_nonce) :=
    keyagg_nonce_gen (sort_keys [bb_user_pubkey b; bb_server_pubkey b]) (Some (tap_tweak funding_taproot))
      (bb_user_pubkey b) reveal_sighash rand in
  Ok (mkBuilder (bb_user_pubkey b) (bb_expiry_height b) (bb_server_pubkey b) (bb_exit_delta b)
        (bb_amount b) (bb_utxo b) (Some pub_nonce) (Some sec_nonce)).

Definition user_pub_nonce {E s} `{CanSign s} (b : BoardBuilder s) : outcome E PublicNonce :=
  expect (bb_user_pub_nonce b).

Definition exit_tx_sighash_data {E s} `{CanSign s} (b : BoardBuilder s) : outcome E (bytes * Taproot * bytes) :=
  d ← exit_data b;
  let '(sighash, funding_taproot, tx) := d in
  Ok (sighash, funding_taproot, compute_txid tx).

Definition new_for_cosign (user_pubkey : PublicKey) (expiry_height : Z) (server_pubkey : PublicKey)
    (exit_delta amount : Z) (utxo : OutPoint) (user_pub_nonce : PublicNonce)
  : BoardBuilder ServerCanCosign :=
  mkBuilder user_pubkey expiry_height server_pubkey exit_delta (Some amount) (Some utxo)
    (Some user_pub_nonce) None.

Definition server_cosign {E} (b : BoardBuilder ServerCanCosign) (key : Keypair) (rand : Z)
  : outcome E BoardCosignResponse :=
  d ← exit_tx_sighash_data b;
  let '(sighash, taproot, _) := d in
  n ← user_pub_nonce b;
  let '(pub_nonce, partial_signature) :=
    deterministic_partial_sign key [bb_user_pubkey b] [n] sighash (Some (tap_tweak taproot)) rand in
  Ok (mkBoardCosign pub_nonce partial_signature).

Definition verify_cosign_response {E} (b : BoardBuilder CanFinish) (server_cosign : BoardCosignResponse)
  : outcome E bool :=
  d ← exit_tx_sighash_data b;
  let '(sighash, taproot, _) := d in
  n ← user_pub_nonce b;
  Ok (verify_partial_sig sighash (tap_tweak taproot) (bb_server_pubkey b, pub_nonce server_cosign)
        (bb_user_pubkey b, n) (partial_signature server_cosign)).

(** [build_vtxo], with its debug assertions. *)
Definition board_build_vtxo (b : BoardBuilder CanFinish) (server_cosign : BoardCosignResponse)
    (user_key : Keypair) : outcome IncorrectSigningKeyError Vtxo :=
  _ ← ensure (bool_decide (keypair_public_key user_key = bb_user_pubkey b))
        (mkIncorrectKey _ (Some (bb_user_pubkey b)) (keypair_public_key user_key));
  d ← exit_tx_sighash_data b;
  let '(sighash, taproot, exit_txid) := d in
  n ← user_pub_nonce b;
  let agg_nonce := nonce_agg [n; pub_nonce server_cosign] in
  sec_nonce ← expect (bb_user_sec_nonce b);
  let '(user_sig, final_sig) :=
    partial_sign [bb_user_pubkey b; bb_server_pubkey b] agg_nonce user_key sec_nonce sighash
      (Some (tap_tweak taproot)) (Some [partial_signature server_cosign]) in
  _ ← assert (verify_partial_sig sighash (tap_tweak taproot) (bb_user_pubkey b, n)
                (bb_server_pubkey b, pub_nonce server_cosign) user_sig);
  final_sig ← expect final_sig;
  _ ← assert (verify_schnorr final_sig sighash (output_key taproot));
  amount ← expect (bb_amount b);
  utxo ← expect (bb_utxo b);
  Ok (mkVtxo (new_pubkey (bb_user_pubkey b)) amount (bb_expiry_height b) (bb_server_pubkey b)
        (bb_exit_delta b) utxo
        [mkItem (Cosigned [bb_user_pubkey b; bb_server_pubkey b] final_sig) 0 []]
        (mkOutPoint exit_txid BOARD_FUNDING_TX_VTXO_VOUT)).
End Board.

(** ** Correctness of the board flow *)
Section BoardFlow.
Context `{B : Bitcoin} `{K : !KeyLaws B} `{W : !WitnessLaws B} `{M : !MusigLaws B}.

(** The data of a builder that has passed through the user's steps. *)
Lemma generate_user_nonces_inv {E} up eh spk ed amount utxo rand b :
  generate_user_nonces (E:=E) (set_funding_details (board_new up eh spk ed) amount utxo) rand = Ok b ->
  exists sn, b = mkBuilder up eh spk ed (Some amount) (Some utxo) (Some (sec_to_pub_nonce sn)) (Some sn).
Proof.
  intros H. unfold generate_user_nonces in H. apply bind_Ok in H as ([[sh tr] tx] & Hd & H).
  cbn [bb_user_pubkey bb_server_pubkey set_funding_details board_new] in H.
  pose proof (keyagg_nonce_gen_pub (sort_keys [up; spk]) (Some (tap_tweak tr)) up sh rand) as Hn.
  destruct (keyagg_nonce_gen _ _ _ _ _) as [sn pn]. cbn in Hn. subst pn. injection H as <-. by exists sn.
Qed.

(** The exit transaction of a board VTXO and what is signed for it. *)
Definition board_funding_txout (up spk : PublicKey) (amount : Z) (s : Script) : TxOut :=
  mkTxOut amount (taproot_script_pubkey (mkTaproot (combine_keys [up; spk]) [(0%nat, s)])).
Definition board_exit_tx (up spk : PublicKey) (ed amount : Z) (utxo : OutPoint) : Transaction :=
  create_exit_tx utxo (mkTxOut amount (taproot_script_pubkey (exit_taproot up spk ed))) None.

Lemma exit_data_eq {E s} up eh spk ed amount utxo n sn :
  exit_data (E:=E) (mkBuilder (s:=s) up eh spk ed (Some amount) (Some utxo) n sn) =
  sc ← expiry_clause spk eh;
  Ok (key_spend_sighash (board_exit_tx up spk ed amount utxo) (board_funding_txout up spk amount sc),
      mkTaproot (combine_keys [up; spk]) [(0%nat, sc)], board_exit_tx up spk ed amount utxo).
Proof.
  unfold exit_data, cosign_taproot. cbn. by destruct (expiry_clause spk eh).
Qed.

Lemma expiry_clause_err {E F} spk eh s : expiry_clause (E:=E) spk eh = Ok s -> expiry_clause (E:=F) spk eh = Ok s.
Proof. unfold expiry_clause, timelock_sign. destruct (locktime_from_height eh); [|done]. by intros [= <-]. Qed.

(** A VTXO with the exit transaction of a board validates. *)
Lemma board_vtxo_validates up eh spk ed amt utxo sc sig funding_tx p :
  0 <= amt < 2 ^ 64 -> expiry_clause (E:=string) spk eh = Ok sc ->
  compute_txid funding_tx = op_txid utxo ->
  output funding_tx !! Z.to_nat (op_vout utxo) = Some (board_funding_txout up spk amt sc) ->
  verify_schnorr sig (key_spend_sighash (board_exit_tx up spk ed amt utxo) (board_funding_txout up spk amt sc))
    (taproot_output_key (combine_keys [up; spk]) [(0%nat, sc)]) = true ->
  let v := mkVtxo (new_pubkey up) amt eh spk ed utxo [mkItem (Cosigned [up; spk] sig) 0 []] p in
  validate v funding_tx = Ok tt /\
  exists tx, transactions (E:=string) v = Ok (Some [(tx, 0)]) /\ compute_txid tx = compute_txid (board_exit_tx up spk ed amt utxo).
Proof.
  intros Ha Hsc Htxid Ho Hsig v.
  assert (amounts_ok v) as Hok by (split; [cbn; lia|by repeat constructor]).
  set (tx := mkTx 3 0 [mkTxIn utxo [] 0 [sig_serialize sig]]
    [mkTxOut amt (taproot_script_pubkey (exit_taproot up spk ed)); fee_anchor]).
  assert (strip tx = strip (board_exit_tx up spk ed amt utxo)) as Hstrip by done.
  assert (transactions (E:=string) v = Ok (Some [(tx, 0)])) as Htxs.
  { rewrite transactions_chain by done. replace (chain_amount v 0) with amt by (unfold chain_amount; cbn; lia).
    destruct (Z.ltb_spec amt (2 ^ 64)); [|lia]. done. }
  split.
  - apply validate_iff; [done|done|]. eexists _, _. split; [done|]. split; [exact Htxs|]. split.
    + exists (board_funding_txout up spk amt sc). split; [|exact Ho].
      unfold input_txout, input_taproot, cosign_taproot. cbn [transition]. rewrite (expiry_clause_err _ _ _ Hsc).
      cbn. unfold board_funding_txout. do 2 f_equal. unfold chain_amount. cbn. lia.
    + intros [|k] item tx' oi; cbn; [|done]. intros [= <-] [= <- <-].
      split; [done|]. split; [constructor|]. eexists. split; [exact Ho|].
      do 2 eexists. split; [done|]. unfold input_taproot, cosign_taproot. cbn [transition].
      rewrite (expiry_clause_err _ _ _ Hsc). split; [done|]. cbn [transition_sighash].
      rewrite <- key_sighash_strip, Hstrip, key_sighash_strip. exact Hsig.
  - exists tx. split; [done|]. by rewrite <- txid_strip, Hstrip, txid_strip.
Qed.

(** C32. The VTXO a user builds from a response that passed
    [verify_cosign_response] is valid: [build_vtxo] succeeds, the VTXO passes
    validation against the funding transaction, is fully signed, has the
    user's key and amount, and its point is the output of its exit
    transaction. *)
Theorem board_vtxo_valid up eh spk ed amt utxo rand b resp user_key funding_tx script :
  keypair_public_key user_key = up -> 0 <= amt < 2 ^ 64 ->
  generate_user_nonces (E:=IncorrectSigningKeyError)
    (set_funding_details (board_new up eh spk ed) amt utxo) rand = Ok b ->
  verify_cosign_response (E:=IncorrectSigningKeyError) b resp = Ok true ->
  funding_script_pubkey (E:=IncorrectSigningKeyError) b = Ok script ->
  output funding_tx !! Z.to_nat (op_vout utxo) = Some (mkTxOut amt script) ->
  compute_txid funding_tx = op_txid utxo ->
  exists v tx, board_build_vtxo b resp user_key = Ok v /\ validate v funding_tx = Ok tt /\
    is_fully_signed v = true /\ vtxo_spec v = mkVtxoSpec (new_pubkey up) amt eh spk ed /\
    anchor_point v = utxo /\ transactions (E:=string) v = Ok (Some [(tx, 0)]) /\
    point v = mkOutPoint (compute_txid tx) 0.
Proof.
  intros Hkey Ha Hb Hver Hscript Ho Htxid.
  apply generate_user_nonces_inv in Hb as [sn ->].
  unfold verify_cosign_response, exit_tx_sighash_data in Hver. rewrite exit_data_eq in Hver.
  apply bind_Ok in Hver as ([[sh tr] txid] & Hd & Hver). apply bind_Ok in Hd as ([[sh' tr'] tx'] & Hd & [= <- <- <-]).
  apply bind_Ok in Hd as (sc & Hsc & [= <- <- <-]). cbn in Hver. injection Hver as Hver.
  unfold funding_script_pubkey, cosign_taproot in Hscript. cbn in Hscript. rewrite Hsc in Hscript.
  cbn in Hscript. injection Hscript as <-.
  destruct (partial_sign_final up spk user_key (pub_nonce resp) sn (partial_signature resp) _ [(0%nat, sc)] Hkey Hver)
    as (ps1 & sig & Hps & Hv1 & Hsig).
  destruct (board_vtxo_validates up eh spk ed amt utxo sc sig funding_tx
    (mkOutPoint (compute_txid (board_exit_tx up spk ed amt utxo)) 0)) as (Hval & tx & Htxs & Htx); [done|by eapply expiry_clause_err|done..|].
  eexists _, tx. split.
  - unfold board_build_vtxo, exit_tx_sighash_data, user_pub_nonce, tap_tweak. rewrite exit_data_eq. cbn [bb_user_pubkey].
    rewrite bool_decide_true by done. cbn [ensure mbind outcome_bind]. rewrite Hsc.
    cbn [mbind outcome_bind user_pub_nonce expect bb_user_pub_nonce bb_user_sec_nonce bb_server_pubkey tap_tweak internal_key tap_leaves].
    rewrite Hps. rewrite Hv1. cbn [assert mbind outcome_bind expect output_key internal_key tap_leaves].
    unfold output_key. cbn [internal_key tap_leaves]. rewrite Hsig. reflexivity.
  - split_and!; [done..|]. cbn. by rewrite Htx.
Qed.

(** The server's cosignature for the same request always passes the user's
    check, so an honest board flow completes. *)
Theorem board_cosign_accepted {E} up eh spk ed amt utxo rand srand b n server_key resp :
  keypair_public_key server_key = spk ->
  generate_user_nonces (E:=E) (set_funding_details (board_new up eh spk ed) amt utxo) rand = Ok b ->
  user_pub_nonce (E:=E) b = Ok n ->
  server_cosign (E:=E) (new_for_cosign up eh spk ed amt utxo n) server_key srand = Ok resp ->
  verify_cosign_response (E:=E) b resp = Ok true.
Proof.
  intros Hkey Hb Hn Hresp. apply generate_user_nonces_inv in Hb as [sn ->]. injection Hn as <-.
  unfold server_cosign, verify_cosign_response, exit_tx_sighash_data, new_for_cosign in *.
  rewrite exit_data_eq in Hresp. rewrite exit_data_eq. apply bind_Ok in Hresp as ([[sh tr] txid] & Hd & Hresp).
  apply bind_Ok in Hd as ([[sh' tr'] tx'] & Hd & [= <- <- <-]).
  apply bind_Ok in Hd as (sc & Hsc & [= <- <- <-]). rewrite Hsc.
  cbn [mbind outcome_bind user_pub_nonce expect bb_user_pub_nonce bb_user_pubkey bb_server_pubkey] in *.
  unfold user_pub_nonce in *. cbn [mbind outcome_bind expect bb_user_pub_nonce] in *.
  match type of Hresp with context [deterministic_partial_sign ?a [?b] [?c] ?d (Some ?e) ?f] =>
    pose proof (deterministic_partial_sign_verifies a b c d e f) as Hv end.
  destruct (deterministic_partial_sign _ _ _ _ _ _) as [pn ps]. injection Hresp as <-.
  rewrite Hkey in Hv. cbn [pub_nonce partial_signature]. by rewrite Hv.
Qed.

(** Building a board VTXO with another key than the one the builder was
    made for is an error that names both keys. *)
Theorem board_wrong_key b resp user_key : keypair_public_key user_key <> bb_user_pubkey b ->
  board_build_vtxo b resp user_key =
  Err (mkIncorrectKey _ (Some (bb_user_pubkey b)) (keypair_public_key user_key)).
Proof. intros H. unfold board_build_vtxo. by rewrite bool_decide_false. Qed.
End BoardFlow.

(** *** Witnesses *)
(** The funding transaction and a complete honest flow with it. *)
Definition board_preparing := board_new (B := model) Byte.x05 100000 Byte.x09 144.
Definition board_funding_tx : Transaction :=
  match funding_script_pubkey (E := unit) board_preparing with
  | Ok s => mkTx 2 0 [] [mkTxOut 10000 s] | _ => mkTx 2 0 [] [] end.
Definition board_utxo : OutPoint := mkOutPoint (compute_txid (Bitcoin := model) board_funding_tx) 0.
Definition board_finishing : outcome (@IncorrectSigningKeyError model) (BoardBuilder (B := model) CanFinish) :=
  generate_user_nonces (set_funding_details board_preparing 10000 board_utxo) 3.
Definition board_response : outcome (@IncorrectSigningKeyError model) (BoardCosignResponse (B := model)) :=
  server_cosign (new_for_cosign (B := model) Byte.x05 100000 Byte.x09 144 10000 board_utxo 3) Byte.x09 8.

Definition board_b : BoardBuilder (B := model) CanFinish :=
  mkBuilder (B := model) Byte.x05 100000 Byte.x09 144 (Some 10000) (Some board_utxo) (Some 3) (Some 3).
Definition board_resp : BoardCosignResponse (B := model) :=
  match board_response with Ok r => r | _ => mkBoardCosign (B := model) 0 (Byte.x00, 0, []) end.

Lemma board_cosign_accepted_witness : board_finishing = Ok board_b /\ board_response = Ok board_resp /\
  verify_cosign_response (E := @IncorrectSigningKeyError model) board_b board_resp = Ok true.
Proof.
  split; [vm_eq|]. split; [vm_eq|].
  apply (board_cosign_accepted (B := model) Byte.x05 100000 Byte.x09 144 10000 board_utxo 3 8 _ 3 Byte.x09);
    vm_eq.
Defined.

Lemma board_vtxo_valid_witness : exists v tx,
  board_build_vtxo board_b board_resp Byte.x05 = Ok v /\ validate v board_funding_tx = Ok tt /\
      is_fully_signed v = true /\ vtxo_spec v = mkVtxoSpec (B := model) (new_pubkey (B := model) Byte.x05) 10000 100000 Byte.x09 144 /\
      anchor_point v = board_utxo /\ transactions (E:=string) v = Ok (Some [(tx, 0)]) /\
      point v = mkOutPoint (compute_txid (Bitcoin := model) tx) 0.
Proof.
  apply (board_vtxo_valid (B := model) Byte.x05 100000 Byte.x09 144 10000 board_utxo 3 board_b board_resp Byte.x05
    board_funding_tx (default [] (script_pubkey <$> head (output board_funding_tx)))).
  2: lia.
  all: vm_eq.
Defined.

Lemma board_wrong_key_witness :
  board_build_vtxo board_b board_resp Byte.x06 = Err (mkIncorrectKey model (Some Byte.x05) Byte.x06).
Proof. apply (board_wrong_key (B := model)). discriminate. Defined.
