(* ===== verification/Extend.v ===== *)
(** * Extending the exit chain of a VTXO

    Out-of-round payments append an arkoor transition to the genesis of the VTXO
    they spend (lib/src/arkoor/mod.rs, lib/src/arkoor/checkpoint.rs).  This file
    defines what a good VTXO is and proves that appending a correctly signed and
    balanced transition gives a good VTXO again; both builders use it. *)
From S2P Require Import Prelude Bitcoin Encode Concrete Policy Vtxo Validation.

Open Scope Z_scope.

Section Extend.
Context `{B : Bitcoin}.

(** The stored point is the relevant output of the last exit transaction. *)
Definition point_ok (v : Vtxo) : Prop :=
  exists txs tx oi, transactions (E:=string) v = Ok (Some txs) /\ last txs = Some (tx, oi) /\
    point v = mkOutPoint (compute_txid tx) oi.

(** A VTXO that validates against [anchor_tx] and whose id is right. *)
Record good (anchor_tx : Transaction) (v : Vtxo) : Prop := {
  good_amounts : amounts_ok v;
  good_indices : indices_ok v;
  good_anchor : compute_txid anchor_tx = op_txid (anchor_point v);
  good_valid : validate v anchor_tx = Ok tt;
  good_point : point_ok v;
}.

(** [v] with an arkoor transition appended, owned by policy [p]. *)
Definition extend (v : Vtxo) (p : VtxoPolicy) (a : Z) (sig : option Signature) (oi : Z)
    (others : list TxOut) (pt : OutPoint) : Vtxo :=
  mkVtxo p a (expiry_height v) (server_pubkey v) (exit_delta v) (anchor_point v)
    (genesis v ++ [mkItem (Arkoor (policy v) sig) oi others]) pt.

Lemma chain_from_app {E} v items1 items2 : forall k prev,
  chain_from (E:=E) v (items1 ++ items2) k prev =
  xs ← chain_from v items1 k prev;
  ys ← chain_from v items2 (k + length items1)
         (match last xs with Some (tx, oi) => mkOutPoint (compute_txid tx) oi | None => prev end);
  Ok (xs ++ ys).
Proof.
  induction items1 as [|item rest IH]; intros k prev; cbn [app chain_from length].
  - cbn. rewrite Nat.add_0_r. by destruct (chain_from v items2 k prev).
  - destruct (next_output v k _) as [next|e|]; cbn [mbind outcome_bind]; [|done..].
    destruct (item_tx item prev next _ _) as [tx|e|]; cbn [mbind outcome_bind]; [|done..].
    rewrite IH. rewrite Nat.add_succ_l, Nat.add_succ_r.
    destruct (chain_from v rest (S k) _) as [xs|e|]; cbn [mbind outcome_bind]; [|done..].
    destruct xs as [|x xs] using rev_ind.
    + cbn [last]. by destruct (chain_from v items2 _ _).
    + destruct x as [t o]. rewrite app_comm_cons, !last_snoc. cbv beta iota.
      set (q := chain_from _ items2 _ _). by destruct q.
Qed.

Lemma chain_from_ext {E} v v' items : forall k prev,
  server_pubkey v' = server_pubkey v -> expiry_height v' = expiry_height v ->
  (forall j, (j < length items)%nat -> next_output (E:=E) v' (k + j) (chain_amount v' (S (k + j))) =
                              next_output (E:=E) v (k + j) (chain_amount v (S (k + j)))) ->
  chain_from (E:=E) v' items k prev = chain_from (E:=E) v items k prev.
Proof.
  induction items as [|item rest IH]; intros k prev Hs He Hn; [done|]. cbn [chain_from].
  pose proof (Hn O ltac:(cbn; lia)) as H0. rewrite Nat.add_0_r in H0. rewrite H0, Hs, He.
  destruct (next_output v k _) as [next|e|]; cbn [mbind outcome_bind]; [|done..].
  destruct (item_tx item prev next _ _) as [tx|e|]; cbn [mbind outcome_bind]; [|done..].
  rewrite IH; [done..|]. intros j Hj. specialize (Hn (S j) ltac:(cbn; lia)). by rewrite Nat.add_succ_r in Hn.
Qed.

Section ExtendOne.
Context (anchor_tx : Transaction) (v : Vtxo) (p : VtxoPolicy) (a oi : Z) (sig : option Signature)
  (others : list TxOut) (pt : OutPoint).
Let v' := extend v p a sig oi others pt.
Context (Hgood : good anchor_tx v) (Hbal : a + sum_Z (value <$> others) = amount v).

Lemma extend_chain_amount k : (k <= length (genesis v))%nat -> chain_amount v' k = chain_amount v k.
Proof.
  intros Hk. unfold chain_amount, items_value. cbn. rewrite drop_app_le by done.
  unfold sum_sums. rewrite fmap_app, sum_Z_app, <- Hbal.
  change (sum_Z ((fun i => sum_Z (other_values i)) <$> [mkItem (Arkoor (policy v) sig) oi others]))
    with (sum_Z (value <$> others) + 0). lia.
Qed.

Lemma extend_next_output {E} k : (k < length (genesis v))%nat ->
  next_output (E:=E) v' k (chain_amount v' (S k)) = next_output (E:=E) v k (chain_amount v (S k)).
Proof.
  intros Hk. rewrite extend_chain_amount by lia. unfold next_output. cbn [genesis v' extend].
  destruct (decide (S k < length (genesis v))%nat).
  - rewrite lookup_app_l by done. by destruct (lookup_lt_is_Some_2 (genesis v) (S k) ltac:(lia)) as [i ->].
  - rewrite lookup_app_r by lia. rewrite (lookup_ge_None_2 (genesis v)) by lia.
    replace (S k - length (genesis v))%nat with O by lia. cbn.
    unfold chain_amount. rewrite drop_ge by lia. cbn. rewrite Z.add_0_r.
    unfold input_txout, policy_txout, policy_script_pubkey. cbn.
    by destruct (taproot (policy v) (server_pubkey v) (exit_delta v) (expiry_height v)).
Qed.

(** The exit chain of the extended VTXO is that of [v] and one transaction
    that spends the point of [v]. *)
Lemma extend_transactions next w txs : 0 <= a -> Forall (fun o => 0 <= value o) others ->
  transactions (E:=string) v = Ok (Some txs) ->
  policy_txout (E:=string) p a (server_pubkey v) (exit_delta v) (expiry_height v) = Ok next ->
  transition_witness (E:=string) (Arkoor (policy v) sig) (server_pubkey v) (expiry_height v) = Ok w ->
  amounts_ok v' /\
  transactions (E:=string) v' = Ok (Some (txs ++
    [(mkTx 3 0 [mkTxIn (point v) [] 0 w] (item_outputs (mkItem (Arkoor (policy v) sig) oi others) next), oi)])).
Proof.
  intros Ha Ho Htxs Hnext Hw. destruct Hgood as [[Hav Hgv] _ _ _ (txs' & tx & oi' & Htxs' & Hlast & Hpt)].
  assert (txs' = txs) as -> by congruence.
  assert (amounts_ok v') as Hok by (split; [done|apply Forall_app; by repeat constructor]).
  split; [done|]. destruct (transactions_inv v txs (conj Hav Hgv) Htxs) as (Hne & Hlt & Hc).
  rewrite transactions_chain; [|done|cbn; by destruct (genesis v)].
  rewrite extend_chain_amount by lia. destruct (Z.ltb_spec (chain_amount v 0) (2 ^ 64)); [|lia].
  cbn [genesis anchor_point v' extend]. rewrite chain_from_app.
  rewrite (chain_from_ext v v') by (done || (intros j Hj; by apply extend_next_output)).
  rewrite Hc. cbn [mbind outcome_bind]. rewrite Hlast, <- Hpt. cbn [chain_from Nat.add].
  assert (next_output (E:=string) v' (length (genesis v)) (chain_amount v' (S (length (genesis v)))) = Ok next) as ->.
  { unfold next_output. cbn [genesis v' extend]. rewrite lookup_ge_None_2 by (rewrite length_app; cbn; lia). done. }
  cbn [mbind outcome_bind]. unfold item_tx. cbn [transition]. cbn [server_pubkey expiry_height v' extend].
  rewrite Hw. done.
Qed.
End ExtendOne.

Lemma policy_txout_err {E F} (p : VtxoPolicy) a spk ed eh o :
  policy_txout (E:=E) p a spk ed eh = Ok o -> policy_txout (E:=F) p a spk ed eh = Ok o.
Proof.
  unfold policy_txout, policy_script_pubkey. intros H. apply bind_Ok in H as (s & Hs & <-%Ok_inj).
  apply fmap_Ok in Hs as (tr & Htr & ->).
  pose proof (input_taproot_err (E:=E) (F:=F) (Arkoor p None) spk eh ed tr Htr) as Htr'. cbn in Htr'. by rewrite Htr'.
Qed.

(** The output of a good VTXO and the taproot that locks it. *)
Lemma good_output anchor_tx v txs : good anchor_tx v -> transactions (E:=string) v = Ok (Some txs) ->
  exists tr, output_taproot (E:=string) v = Ok tr /\
    vtxo_txout (E:=string) v = Ok (mkTxOut (amount v) (taproot_script_pubkey tr)) /\
    length txs = length (genesis v) /\
    prev_txout v anchor_tx txs (length (genesis v)) = Some (mkTxOut (amount v) (taproot_script_pubkey tr)).
Proof.
  intros [Hok Hidx _ _ (txs' & tx & oi & Htxs' & Hlast & Hpt)] Htxs. assert (txs' = txs) as -> by congruence.
  destruct (transactions_inv v txs Hok Htxs) as (Hne & Hlt & Hc).
  pose proof (chain_from_length _ _ _ _ _ Hc) as Hlen.
  rewrite last_lookup in Hlast. destruct (genesis v) as [|g gs] eqn:Hg; [done|]. rewrite <- Hg in *.
  assert (length (genesis v) = S (length gs)) as Hn by (by rewrite Hg). rewrite Hlen, Hn in Hlast. cbn in Hlast.
  destruct (lookup_lt_is_Some_2 (genesis v) (length gs) ltac:(lia)) as [item Hitem].
  destruct (exit_chain_facts v txs _ tx oi item Hok Htxs Hlast Hitem) as (-> & _ & _ & Hnext).
  destruct (Hnext (Forall_lookup_1 _ _ _ _ Hidx Hitem)) as (o & Ho & Hval & _ & Hout).
  specialize (Hout ltac:(lia)). pose proof Hout as Hout'. unfold vtxo_txout, policy_txout, policy_script_pubkey in Hout'.
  apply bind_Ok in Hout' as (s & Hs & <-%Ok_inj). apply fmap_Ok in Hs as (tr & Htr & ->).
  exists tr. split_and!; [done..|]. rewrite Hn. cbn. by rewrite Hlast.
Qed.

Context `{W : !WitnessLaws B}.

(** The unsigned transaction that spends [v] into [outs]. *)
Definition spend_tx (v : Vtxo) (outs : list TxOut) : Transaction :=
  mkTx 3 0 [mkTxIn (point v) [] 0 []] outs.

(** Appending a balanced and signed arkoor transition keeps a VTXO good. *)
Lemma extend_good anchor_tx v p a sig oi others next tr :
  good anchor_tx v -> a + sum_Z (value <$> others) = amount v -> 0 <= a ->
  Forall (fun o => 0 <= value o /\ is_standard o = true) others ->
  0 <= oi <= Z.of_nat (length others) ->
  output_taproot (E:=string) v = Ok tr ->
  policy_txout (E:=string) p a (server_pubkey v) (exit_delta v) (expiry_height v) = Ok next ->
  let item := mkItem (Arkoor (policy v) (Some sig)) oi others in
  let tx := spend_tx v (item_outputs item next) in
  verify_schnorr sig (key_spend_sighash tx (mkTxOut (amount v) (taproot_script_pubkey tr))) (output_key tr) = true ->
  good anchor_tx (extend v p a (Some sig) oi others (mkOutPoint (compute_txid tx) oi)).
Proof.
  intros Hgood Hbal Ha Hothers Hoi Htr Hnext item tx Hsig. set (v' := extend _ _ _ _ _ _ _).
  pose proof Hgood as [Hok Hidx Hanchor Hvalid (txs & tx0 & oi0 & Htxs & Hlast & Hpt)].
  destruct (good_output anchor_tx v txs Hgood Htxs) as (tr' & Htr' & Hout & Hlen & Hprev).
  assert (tr' = tr) as -> by congruence.
  destruct (extend_transactions anchor_tx v p a oi (Some sig) others (mkOutPoint (compute_txid tx) oi)
    Hgood Hbal next [sig_serialize sig] txs Ha) as [Hok' Htxs'];
    [eapply Forall_impl; [exact Hothers|naive_solver]|done..|].
  set (stx := mkTx 3 0 [mkTxIn (point v) [] 0 [sig_serialize sig]] (item_outputs item next)) in *.
  assert (strip stx = strip tx) as Hstrip by done.
  fold v' in Hok', Htxs'. split; [done| |done| |].
  - apply Forall_app. split; [done|]. by apply Forall_singleton.
  - apply validate_iff; [done|done|]. apply validate_iff in Hvalid; [|done..].
    destruct Hvalid as (first & txs1 & Hf & Htxs1 & Hanc & Hsteps). assert (txs1 = txs) as -> by congruence.
    exists first, (txs ++ [(stx, oi)]). split_and!; [|done| |].
    + cbn. by destruct (genesis v).
    + assert (chain_amount v' 0 = chain_amount v 0) as -> by (apply extend_chain_amount; [done|lia]). exact Hanc.
    + intros k it tx' oi' Hit Htx'. cbn [genesis v' extend] in Hit.
      apply lookup_snoc_Some in Hit as [[Hk Hit]|[-> <-]].
      * rewrite lookup_app_l in Htx' by lia. destruct (Hsteps k it tx' oi' Hit Htx') as (Hord & Hstd & po & Hpo & Hs).
        split; [|split; [done|]].
        -- cbn [genesis v' extend]. destruct (decide (S k < length (genesis v))%nat).
           ++ by rewrite lookup_app_l.
           ++ rewrite lookup_app_r by lia. replace (S k - length (genesis v))%nat with O by lia.
              unfold order_ok. destruct (transition it); [done|by do 2 eexists..].
        -- exists po. split; [|exact Hs]. destruct k as [|j]; [done|]. cbn [prev_txout] in *.
           by rewrite lookup_app_l by (apply lookup_lt_Some in Htx'; lia).
      * rewrite <- Hlen in Htx'. rewrite list_lookup_middle in Htx' by done. injection Htx' as <- <-.
        split; [|split].
        -- unfold order_ok. cbn [genesis v' extend transition]. rewrite lookup_ge_None_2; [done|].
           rewrite length_app. cbn. lia.
        -- eapply Forall_impl; [exact Hothers|]. naive_solver.
        -- exists (mkTxOut (amount v) (taproot_script_pubkey tr)). split.
           ++ revert Hprev. destruct (genesis v) as [|g gs] eqn:Hg; [done|]. cbn [length prev_txout].
              intros Hprev. rewrite lookup_app_l by (cbn in Hlen; lia). done.
           ++ exists sig, tr. split; [done|]. split; [exact Htr|]. cbn [transition_sighash transition].
              by rewrite <- key_sighash_strip, Hstrip, key_sighash_strip.
  - exists (txs ++ [(stx, oi)]), stx, oi. split; [done|]. rewrite last_snoc. split; [done|].
    cbn [point v' extend]. by rewrite <- (txid_strip stx), Hstrip, txid_strip.
Qed.
End Extend.
