(* ===== verification/Arkoor.v ===== *)
(** * Out-of-round payments (lib/src/arkoor/mod.rs, lib/src/arkoor/package.rs)

    An arkoor transaction spends one VTXO into at most two new ones with the
    cosignature of the server; a package pays one request from several VTXOs. *)
From S2P Require Import Prelude Bitcoin Encode Concrete Policy Vtxo Validation Board Extend.

Open Scope Z_scope.

Section Arkoor.
Context `{B : Bitcoin}.

(** [VtxoRequest] of lib/src/lib.rs. *)
Record VtxoRequest := mkRequest { req_amount : Z; req_policy : VtxoPolicy }.

Inductive ArkoorError :=
  | Unbalanced (input output : Z)
  | Dust
  | TooManyOutputs.

Definition arkoor_sighash (prevout : TxOut) (arkoor_tx : Transaction) : bytes :=
  key_spend_sighash arkoor_tx prevout.

Definition unsigned_arkoor_tx (input : Vtxo) (outputs : list TxOut) : Transaction :=
  mkTx 3 0 [mkTxIn (point input) [] 0 []] (outputs ++ [fee_anchor]).

(** [txouts.iter().enumerate().filter(|(i, _)| *i != idx).map(|(_, o)| o)]. *)
Definition others_of (idx : nat) (txouts : list TxOut) : list TxOut :=
  snd <$> filter (fun p => p.1 <> idx) (imap pair txouts).

Definition build_arkoor_vtxos (input : Vtxo) (outputs : list VtxoRequest) (txouts : list TxOut)
    (arkoor_txid : bytes) (arkoor_signature : option Signature) : list Vtxo :=
  imap (fun idx output =>
    mkVtxo (req_policy output) (req_amount output) (expiry_height input) (server_pubkey input)
      (exit_delta input) (anchor_point input)
      (genesis input ++
        [mkItem (Arkoor (policy input) arkoor_signature) (Z.of_nat idx mod 2 ^ 8) (others_of idx txouts)])
      (mkOutPoint arkoor_txid (Z.of_nat idx mod 2 ^ 32))) outputs.

Definition signed_arkoor_tx {E} (input : Vtxo) (signature : Signature) (outputs : list TxOut)
  : outcome E Transaction :=
  fill_taproot_sigs (unsigned_arkoor_tx input outputs) [signature].

Record ArkoorCosignResponse := mkArkoorCosign {
  ac_pub_nonce : PublicNonce; ac_partial_signature : PartialSignature }.

Record ArkoorBuilder := mkArkoor {
  ab_input : Vtxo; ab_user_nonce : PublicNonce; ab_outputs : list VtxoRequest }.

Definition arkoor_new (input : Vtxo) (user_nonce : PublicNonce) (outputs : list VtxoRequest)
  : outcome ArkoorError ArkoorBuilder :=
  _ ← ensure (negb (existsb (fun o => req_amount o <? P2TR_DUST) outputs)) Dust;
  output_amount ← amount_sum (req_amount <$> outputs);
  _ ← ensure (negb (amount input <? output_amount)) (Unbalanced (amount input) output_amount);
  _ ← ensure (negb (2 <? length outputs)%nat) TooManyOutputs;
  Ok (mkArkoor input user_nonce outputs).

Definition request_txouts {E} (input : Vtxo) (outputs : list VtxoRequest) : outcome E (list TxOut) :=
  mapM (fun out => policy_txout (req_policy out) (req_amount out) (server_pubkey input)
                     (exit_delta input) (expiry_height input)) outputs.

Definition arkoor_txouts {E} (b : ArkoorBuilder) : outcome E (list TxOut) :=
  request_txouts (ab_input b) (ab_outputs b).

Definition unsigned_transaction {E} (b : ArkoorBuilder) : outcome E Transaction :=
  txouts ← arkoor_txouts b; Ok (unsigned_arkoor_tx (ab_input b) txouts).

Definition sighash {E} (b : ArkoorBuilder) : outcome E bytes :=
  txout ← vtxo_txout (ab_input b);
  tx ← unsigned_transaction b;
  Ok (arkoor_sighash txout tx).

Definition arkoor_server_cosign {E} (b : ArkoorBuilder) (keypair : Keypair) (rand : Z)
  : outcome E ArkoorCosignResponse :=
  sh ← sighash b;
  tr ← output_taproot (ab_input b);
  let '(pub_nonce, partial_signature) :=
    deterministic_partial_sign keypair [vtxo_user_pubkey (ab_input b)] [ab_user_nonce b] sh
      (Some (tap_tweak tr)) rand in
  Ok (mkArkoorCosign pub_nonce partial_signature).

Definition arkoor_verify_cosign_response {E} (b : ArkoorBuilder) (server_cosign : ArkoorCosignResponse)
  : outcome E bool :=
  sh ← sighash b;
  tr ← output_taproot (ab_input b);
  Ok (verify_partial_sig sh (tap_tweak tr)
        (server_pubkey (ab_input b), ac_pub_nonce server_cosign)
        (vtxo_user_pubkey (ab_input b), ab_user_nonce b) (ac_partial_signature server_cosign)).

Definition unsigned_output_vtxos {E} (b : ArkoorBuilder) : outcome E (list Vtxo) :=
  txouts ← arkoor_txouts b;
  let tx := unsigned_arkoor_tx (ab_input b) txouts in
  Ok (build_arkoor_vtxos (ab_input b) (ab_outputs b) txouts (compute_txid tx) None).

(** [build_vtxos], with its debug assertions. *)
Definition arkoor_build_vtxos (b : ArkoorBuilder) (user_sec_nonce : SecretNonce) (user_key : Keypair)
    (cosign_resp : ArkoorCosignResponse) : outcome IncorrectSigningKeyError (list Vtxo) :=
  let input := ab_input b in
  _ ← ensure (bool_decide (keypair_public_key user_key = vtxo_user_pubkey input))
        (mkIncorrectKey _ (Some (vtxo_user_pubkey input)) (keypair_public_key user_key));
  txouts ← arkoor_txouts b;
  let tx := unsigned_arkoor_tx input txouts in
  txout ← vtxo_txout input;
  let sh := arkoor_sighash txout tx in
  tr ← output_taproot input;
  let agg_nonce := nonce_agg [ab_user_nonce b; ac_pub_nonce cosign_resp] in
  let '(part_sig, final_sig) :=
    partial_sign [vtxo_user_pubkey input; server_pubkey input] agg_nonce user_key user_sec_nonce sh
      (Some (tap_tweak tr)) (Some [ac_partial_signature cosign_resp]) in
  final_sig ← expect final_sig;
  _ ← assert (verify_partial_sig sh (tap_tweak tr) (vtxo_user_pubkey input, ab_user_nonce b)
                (server_pubkey input, ac_pub_nonce cosign_resp) part_sig);
  _ ← assert (verify_schnorr final_sig sh (output_key tr));
  Ok (build_arkoor_vtxos input (ab_outputs b) txouts (compute_txid tx) (Some final_sig)).
End Arkoor.

Arguments VtxoRequest {B}.
Arguments ArkoorBuilder {B}.

(** ** The VTXOs an arkoor creates *)
Section ArkoorCorrect.
Context `{B : Bitcoin}.

Lemma taproot_internal_key {E} (p : VtxoPolicy) spk ed eh tr :
  taproot (E:=E) p spk ed eh = Ok tr -> internal_key tr = combine_keys [user_pubkey p; spk].
Proof.
  destruct p; cbn; unfold checkpoint_taproot, server_htlc_send_taproot, server_htlc_receive_taproot;
    intros H; outcome_inv H; done.
Qed.

Lemma request_txouts_err {E F} input outs txouts :
  request_txouts (E:=E) input outs = Ok txouts -> request_txouts (E:=F) input outs = Ok txouts.
Proof.
  unfold request_txouts. rewrite !mapM_outcome_Ok. intros H. eapply Forall2_impl; [exact H|].
  intros o t. apply policy_txout_err.
Qed.

Lemma imap_pair_filter (f : nat -> nat) (idx : nat) (l : list TxOut) : (forall i, f i = f O + i)%nat ->
  snd <$> filter (fun p => p.1 <> idx) (imap (fun i o => (f i, o)) l) =
  if bool_decide (f O <= idx)%nat then take (idx - f O) l ++ drop (S (idx - f O)) l else l.
Proof.
  revert f. induction l as [|o l IH]; intros f Hf; cbn [imap].
  - rewrite take_nil, drop_nil. by destruct (bool_decide _).
  - assert (forall i, f (S i) = f 1 + i)%nat as HfS by (intros i; rewrite (Hf (S i)), (Hf 1%nat); lia).
    specialize (IH (fun i => f (S i)) HfS). pose proof (Hf 1%nat) as H1.
    rewrite filter_cons. cbn [fst]. destruct (decide (f O <> idx)) as [Hne|Heq].
    + rewrite fmap_cons. cbn [snd]. setoid_rewrite IH.
      destruct (decide (f O <= idx)%nat); [|by rewrite !bool_decide_false by lia].
      rewrite !bool_decide_true by lia.
      replace (idx - f O)%nat with (S (idx - f 1))%nat by lia. done.
    + apply dec_stable in Heq. subst idx. setoid_rewrite IH. rewrite bool_decide_false by lia.
      rewrite bool_decide_true by lia. by rewrite Nat.sub_diag.
Qed.

Lemma others_of_eq idx txouts : others_of idx txouts = take idx txouts ++ drop (S idx) txouts.
Proof.
  unfold others_of. change (imap pair txouts) with (imap (fun i o => (i, o)) txouts).
  rewrite (imap_pair_filter (fun i => i)) by done. rewrite bool_decide_true by lia. by rewrite Nat.sub_0_r.
Qed.

Lemma others_of_outputs t idx o txouts : txouts !! idx = Some o -> Z.of_nat idx mod 2 ^ 8 = Z.of_nat idx ->
  item_outputs (mkItem t (Z.of_nat idx mod 2 ^ 8) (others_of idx txouts)) o = txouts ++ [fee_anchor].
Proof.
  intros Ho Hidx. pose proof (lookup_lt_Some _ _ _ Ho). unfold item_outputs. cbn [output_idx other_outputs].
  rewrite Hidx, Nat2Z.id, others_of_eq.
  rewrite take_app_length', drop_app_length' by (rewrite length_take; lia).
  rewrite app_assoc. rewrite app_assoc. f_equal. rewrite <- app_assoc. cbn. by rewrite take_drop_middle.
Qed.

Lemma others_of_sum idx o txouts : txouts !! idx = Some o ->
  value o + sum_Z (value <$> others_of idx txouts) = sum_Z (value <$> txouts).
Proof.
  intros Ho. rewrite others_of_eq. rewrite <- (take_drop_middle txouts idx o Ho) at 3.
  rewrite !fmap_app, fmap_cons, !sum_Z_app, sum_Z_cons. lia.
Qed.

Lemma others_of_incl idx txouts o : o ∈ others_of idx txouts -> o ∈ txouts.
Proof.
  rewrite others_of_eq, elem_of_app. intros [H|H].
  - exact (subseteq_take _ _ _ H).
  - exact (subseteq_drop _ _ _ H).
Qed.

(** What [txouts] makes of a request. *)
Lemma request_txouts_lookup {E} input outs txouts idx r :
  request_txouts (E:=E) input outs = Ok txouts -> outs !! idx = Some r ->
  exists o, txouts !! idx = Some o /\
    policy_txout (E:=E) (req_policy r) (req_amount r) (server_pubkey input) (exit_delta input) (expiry_height input) = Ok o.
Proof.
  intros H Hr. apply mapM_outcome_Ok in H. destruct (Forall2_lookup_l _ _ _ _ _ H Hr) as (o & Ho & Hp). eauto.
Qed.

Lemma policy_txout_value {E} (p : VtxoPolicy) a spk ed eh o :
  policy_txout (E:=E) p a spk ed eh = Ok o -> value o = a.
Proof. unfold policy_txout. intros H. apply bind_Ok in H as (s & _ & <-%Ok_inj). done. Qed.

Lemma request_txouts_values {E} input outs txouts :
  request_txouts (E:=E) input outs = Ok txouts -> value <$> txouts = req_amount <$> outs.
Proof.
  intros H. apply mapM_outcome_Ok in H. induction H as [|r o rs os Ho _ IH]; [done|].
  rewrite !fmap_cons, IH. f_equal. by eapply policy_txout_value.
Qed.

Context `{W : !WitnessLaws B}.

Lemma request_txouts_standard {E} input outs txouts :
  request_txouts (E:=E) input outs = Ok txouts -> Forall (fun r => P2TR_DUST <= req_amount r) outs ->
  Forall (fun o => 0 <= value o /\ is_standard o = true) txouts.
Proof.
  intros H Hd. apply mapM_outcome_Ok in H. induction H as [|r o rs os Ho _ IH]; [constructor|].
  apply Forall_cons in Hd as [Hr Hd]. constructor; [|auto].
  unfold policy_txout, policy_script_pubkey in Ho. apply bind_Ok in Ho as (s & Hs & <-%Ok_inj).
  apply fmap_Ok in Hs as (tr & _ & ->). unfold P2TR_DUST in *. cbn [value]. split; [lia|].
  unfold is_standard. cbn [script_pubkey value]. unfold taproot_script_pubkey. rewrite p2tr_kind.
  unfold P2TR_DUST. by apply Z.leb_le.
Qed.

(** The output VTXOs are extensions of the input. *)
Lemma build_arkoor_vtxos_extend input outs txouts txid sig idx r : outs !! idx = Some r ->
  build_arkoor_vtxos input outs txouts txid sig !! idx =
  Some (extend input (req_policy r) (req_amount r) sig (Z.of_nat idx mod 2 ^ 8) (others_of idx txouts)
          (mkOutPoint txid (Z.of_nat idx mod 2 ^ 32))).
Proof. intros Hr. unfold build_arkoor_vtxos. rewrite list_lookup_imap, Hr. done. Qed.

Lemma no_dust outs : existsb (fun o => req_amount o <? P2TR_DUST) outs = false ->
  Forall (fun r => P2TR_DUST <= req_amount r) outs.
Proof.
  intros Hd. apply Forall_forall. intros r Hr. destruct (Z.ltb_spec (req_amount r) P2TR_DUST) as [Hlt|]; [|done].
  assert (existsb (fun o => req_amount o <? P2TR_DUST) outs = true); [|congruence].
  apply existsb_exists. exists r. split; [by apply list_elem_of_In|by apply Z.ltb_lt].
Qed.

Lemma arkoor_new_inv input n outs b : arkoor_new input n outs = Ok b ->
  b = mkArkoor input n outs /\ Forall (fun r => P2TR_DUST <= req_amount r) outs /\ (length outs <= 2)%nat /\
  sum_Z (req_amount <$> outs) <= amount input.
Proof.
  unfold arkoor_new. intros H. apply bind_Ok in H as ([] & Hd%ensure_Ok & H).
  apply bind_Ok in H as (s & Hs & H). apply bind_Ok in H as ([] & Hle%ensure_Ok & H).
  apply bind_Ok in H as ([] & Hn%ensure_Ok & <-%Ok_inj).
  apply negb_true_iff, Z.ltb_ge in Hle. apply negb_true_iff, Nat.ltb_ge in Hn. apply negb_true_iff in Hd.
  assert (Forall (fun r => P2TR_DUST <= req_amount r) outs) as Hdust by (by apply no_dust).
  split_and!; [done..|].
  apply amount_sum_Ok in Hs as [-> _]; [done|].
  apply Forall_fmap. eapply Forall_impl; [exact Hdust|]. unfold P2TR_DUST. cbn. lia.
Qed.

Context `{K : !KeyLaws B} `{M : !MusigLaws B}.

(** The data of a successful check of the server's response. *)
Lemma arkoor_verify_inv {E} input n outs resp r :
  arkoor_verify_cosign_response (E:=E) (mkArkoor input n outs) resp = Ok r ->
  exists txouts tr, request_txouts (E:=E) input outs = Ok txouts /\ output_taproot (E:=E) input = Ok tr /\
    vtxo_txout (E:=E) input = Ok (mkTxOut (amount input) (taproot_script_pubkey tr)) /\
    r = verify_partial_sig
      (key_spend_sighash (unsigned_arkoor_tx input txouts) (mkTxOut (amount input) (taproot_script_pubkey tr)))
      (tap_tweak tr) (server_pubkey input, ac_pub_nonce resp) (vtxo_user_pubkey input, n)
      (ac_partial_signature resp).
Proof.
  unfold arkoor_verify_cosign_response, sighash, unsigned_transaction, arkoor_txouts. cbn [ab_input ab_outputs ab_user_nonce].
  intros H. apply bind_Ok in H as (sh & Hsh & H). apply bind_Ok in Hsh as (o & Ho & Hsh).
  apply bind_Ok in Hsh as (tx & Htx & <-%Ok_inj). apply bind_Ok in Htx as (txouts & Htxouts & <-%Ok_inj).
  apply bind_Ok in H as (tr & Htr & <-%Ok_inj). exists txouts, tr.
  assert (o = mkTxOut (amount input) (taproot_script_pubkey tr)) as ->.
  { unfold vtxo_txout, policy_txout, policy_script_pubkey in Ho. unfold output_taproot in Htr. rewrite Htr in Ho.
    by injection Ho as <-. }
  done.
Qed.

Lemma output_taproot_err {E F} v tr : output_taproot (E:=E) v = Ok tr -> output_taproot (E:=F) v = Ok tr.
Proof. apply (input_taproot_err (Arkoor (policy v) None)). Qed.

(** With a verified response, [build_vtxos] returns the VTXOs with a signature
    that is valid for the output the arkoor transaction spends. *)
Lemma arkoor_build_Ok input n outs resp sn key : keypair_public_key key = vtxo_user_pubkey input ->
  n = sec_to_pub_nonce sn ->
  arkoor_verify_cosign_response (E:=IncorrectSigningKeyError) (mkArkoor input n outs) resp = Ok true ->
  exists txouts tr sig, request_txouts (E:=string) input outs = Ok txouts /\
    output_taproot (E:=string) input = Ok tr /\
    arkoor_build_vtxos (mkArkoor input n outs) sn key resp =
      Ok (build_arkoor_vtxos input outs txouts (compute_txid (unsigned_arkoor_tx input txouts)) (Some sig)) /\
    verify_schnorr sig (key_spend_sighash (unsigned_arkoor_tx input txouts)
      (mkTxOut (amount input) (taproot_script_pubkey tr))) (output_key tr) = true.
Proof.
  intros Hkey Hn Hver. apply arkoor_verify_inv in Hver as (txouts & tr & Htxouts & Htr & Ho & Hver).
  symmetry in Hver. exists txouts, tr.
  pose proof (taproot_internal_key _ _ _ _ _ Htr) as Hik.
  destruct tr as [ik leaves]. cbn [internal_key] in Hik. subst ik n.
  destruct (partial_sign_final (vtxo_user_pubkey input) (server_pubkey input) key (ac_pub_nonce resp) sn
    (ac_partial_signature resp) _ leaves Hkey Hver) as (ps1 & sig & Hps & Hv1 & Hsig).
  exists sig. split; [by eapply request_txouts_err|]. split; [by eapply output_taproot_err|]. split; [|exact Hsig].
  unfold arkoor_build_vtxos, arkoor_txouts. cbn [ab_input ab_outputs ab_user_nonce].
  rewrite bool_decide_true by done. cbn [ensure mbind outcome_bind]. rewrite Htxouts. cbn [mbind outcome_bind].
  rewrite Ho. cbn [mbind outcome_bind]. rewrite Htr. cbn [mbind outcome_bind].
  unfold tap_tweak, output_key, arkoor_sighash in *. cbn [internal_key tap_leaves] in *. unfold vtxo_user_pubkey in *.
  rewrite Hps. cbn [expect mbind outcome_bind]. rewrite Hv1. cbn [assert mbind outcome_bind].
  by rewrite Hsig.
Qed.

(** The VTXOs an arkoor builds: the requests, and good ones when the request is
    balanced. *)
Lemma arkoor_built_good input sn outs b resp key : arkoor_new input (sec_to_pub_nonce sn) outs = Ok b ->
  keypair_public_key key = vtxo_user_pubkey input ->
  arkoor_verify_cosign_response (E:=IncorrectSigningKeyError) b resp = Ok true ->
  exists vtxos, arkoor_build_vtxos b sn key resp = Ok vtxos /\
    (forall anchor_tx, good anchor_tx input -> sum_Z (req_amount <$> outs) = amount input -> Forall (good anchor_tx) vtxos) /\
    (fun v => mkRequest (amount v) (policy v)) <$> vtxos = outs.
Proof.
  intros Hnew Hkey Hver. apply arkoor_new_inv in Hnew as (-> & Hdust & Hlen & _).
  destruct (arkoor_build_Ok input _ outs resp sn key Hkey eq_refl Hver) as (txouts & tr & sig & Htxouts & Htr & Hb & Hsig).
  eexists. split; [exact Hb|].
  pose proof (request_txouts_standard _ _ _ Htxouts Hdust) as Hstd.
  pose proof (request_txouts_values _ _ _ Htxouts) as Hvals.
  split.
  - intros anchor_tx Hgood Hbal. apply Forall_lookup. intros idx v Hv.
    assert (exists r, outs !! idx = Some r) as [r Hr].
    { unfold build_arkoor_vtxos in Hv. rewrite list_lookup_imap in Hv. destruct (outs !! idx); [by eexists|done]. }
    rewrite (build_arkoor_vtxos_extend _ _ _ _ _ _ r) in Hv by done. injection Hv as <-.
    destruct (request_txouts_lookup _ _ _ _ _ Htxouts Hr) as (o & Ho & Hpo).
    pose proof (lookup_lt_Some _ _ _ Hr). pose proof (lookup_lt_Some _ _ _ Ho).
    assert (Z.of_nat idx mod 2 ^ 8 = Z.of_nat idx) as Hm8 by (apply Z.mod_small; lia).
    assert (Z.of_nat idx mod 2 ^ 32 = Z.of_nat idx mod 2 ^ 8) as Hm by (rewrite Hm8; apply Z.mod_small; lia).
    rewrite Hm.
    assert (unsigned_arkoor_tx input txouts = spend_tx input (item_outputs
      (mkItem (Arkoor (policy input) (Some sig)) (Z.of_nat idx mod 2 ^ 8) (others_of idx txouts)) o)) as Htx.
    { unfold spend_tx. by rewrite others_of_outputs. }
    rewrite Htx in *. eapply extend_good; [done| | | | |done..].
    + rewrite <- (policy_txout_value _ _ _ _ _ _ Hpo), others_of_sum by done. by rewrite Hvals.
    + eapply Forall_lookup_1 in Hdust; [|done]. unfold P2TR_DUST in Hdust. lia.
    + apply Forall_forall. intros o' Ho'. apply (proj1 (Forall_forall _ _) Hstd). by eapply others_of_incl.
    + rewrite Hm8, others_of_eq, length_app, length_take, length_drop. lia.
  - unfold build_arkoor_vtxos. rewrite fmap_imap. apply list_eq. intros i. rewrite list_lookup_imap.
    by destruct (outs !! i) as [[a p]|].
Qed.

(** C8. Out-of-round payments preserve validity: when a good VTXO is spent by a
    balanced request that the builder accepts, and the server's response passes
    the check, [build_vtxos] succeeds and every VTXO it creates validates
    against the same on-chain anchor, has the right id, and carries the
    requested policy and amount. *)
Theorem arkoor_vtxos_good anchor_tx input sn outs b resp key : good anchor_tx input ->
  arkoor_new input (sec_to_pub_nonce sn) outs = Ok b ->
  sum_Z (req_amount <$> outs) = amount input ->
  keypair_public_key key = vtxo_user_pubkey input ->
  arkoor_verify_cosign_response (E:=IncorrectSigningKeyError) b resp = Ok true ->
  exists vtxos, arkoor_build_vtxos b sn key resp = Ok vtxos /\
    Forall (good anchor_tx) vtxos /\
    (fun v => mkRequest (amount v) (policy v)) <$> vtxos = outs.
Proof.
  intros Hgood Hnew Hbal Hkey Hver. destruct (arkoor_built_good input sn outs b resp key Hnew Hkey Hver) as (vtxos & H1 & H2 & H3).
  exists vtxos. split; [done|]. split; [by apply H2|done].
Qed.

(** The check does not depend on the type of errors. *)
Lemma arkoor_verify_err {E F} b resp r : arkoor_verify_cosign_response (E:=E) b resp = Ok r -> arkoor_verify_cosign_response (E:=F) b resp = Ok r.
Proof.
  destruct b as [input n outs]. intros H. apply arkoor_verify_inv in H as (txouts & tr & Htx & Htr & Ho & ->).
  unfold arkoor_verify_cosign_response, sighash, unsigned_transaction, arkoor_txouts. cbn [ab_input ab_outputs ab_user_nonce].
  rewrite (request_txouts_err _ _ _ Htx), (output_taproot_err _ _ Htr). unfold vtxo_txout in *. by rewrite (policy_txout_err _ _ _ _ _ _ Ho).
Qed.

(** The server's cosignature of the same request always passes the user's
    check. *)
Theorem arkoor_cosign_accepted {E} b server_key rand resp :
  keypair_public_key server_key = server_pubkey (ab_input b) ->
  arkoor_server_cosign (E:=E) b server_key rand = Ok resp ->
  arkoor_verify_cosign_response (E:=E) b resp = Ok true.
Proof.
  intros Hkey H. unfold arkoor_server_cosign, arkoor_verify_cosign_response in *.
  apply bind_Ok in H as (sh & -> & H). apply bind_Ok in H as (tr & -> & H). cbn [mbind outcome_bind].
  pose proof (deterministic_partial_sign_verifies server_key (vtxo_user_pubkey (ab_input b)) (ab_user_nonce b) sh
    (tap_tweak tr) rand) as Hv.
  destruct (deterministic_partial_sign _ _ _ _ _ _) as [pn ps]. injection H as <-.
  rewrite Hkey in Hv. cbn [ac_pub_nonce ac_partial_signature]. by rewrite Hv.
Qed.

Lemma validate_anchor_value v anchor_tx : amounts_ok v -> validate v anchor_tx = Ok tt ->
  exists o, output anchor_tx !! Z.to_nat (op_vout (anchor_point v)) = Some o /\ value o = chain_amount v 0.
Proof.
  intros Hok H. unfold validate in H. apply bind_Ok in H as (o & Ho%ok_or_Ok & H). exists o. split; [done|].
  apply bind_Ok in H as (t & Ht & H). rewrite onchain_amount_exact in Ht by done.
  destruct (_ <? _) in Ht; [|done]. injection Ht as <-. apply bind_Ok in H as (f & _ & H).
  apply bind_Ok in H as (e & He & H). apply bind_Ok in H as ([] & Heq%ensure_Ok%bool_decide_eq_true & _).
  subst e. unfold input_txout in He. by apply bind_Ok in He as (tr & _ & <-%Ok_inj).
Qed.

Lemma arkoor_underpaid anchor_tx input n outs b txouts txid sig v : good anchor_tx input ->
  arkoor_new input n outs = Ok b -> sum_Z (req_amount <$> outs) < amount input ->
  arkoor_txouts (E:=string) b = Ok txouts ->
  v ∈ build_arkoor_vtxos input outs txouts txid sig ->
  validate v anchor_tx <> Ok tt.
Proof.
  intros Hgood Hnew Hlt Htxouts Hv Hval. apply arkoor_new_inv in Hnew as (-> & Hdust & Hlen & _).
  unfold arkoor_txouts in Htxouts. cbn [ab_input ab_outputs] in Htxouts.
  pose proof (request_txouts_standard _ _ _ Htxouts Hdust) as Hstd.
  pose proof (request_txouts_values _ _ _ Htxouts) as Hvals.
  apply list_elem_of_lookup in Hv as [idx Hv].
  assert (exists r, outs !! idx = Some r) as [r Hr].
  { unfold build_arkoor_vtxos in Hv. rewrite list_lookup_imap in Hv. destruct (outs !! idx); [by eexists|done]. }
  rewrite (build_arkoor_vtxos_extend _ _ _ _ _ _ r) in Hv by done. injection Hv as <-.
  destruct (request_txouts_lookup _ _ _ _ _ Htxouts Hr) as (o & Ho & Hpo).
  pose proof (others_of_sum _ _ _ Ho) as Hsum. rewrite Hvals, (policy_txout_value _ _ _ _ _ _ Hpo) in Hsum.
  destruct Hgood as [Hok _ _ Hvin _].
  destruct (validate_anchor_value _ _ Hok Hvin) as (o1 & Ho1 & Hval1).
  apply validate_anchor_value in Hval as (o2 & Ho2 & Hval2).
  - assert (o2 = o1) as -> by (cbn in Ho2; congruence). revert Hval2. rewrite Hval1.
    unfold chain_amount, items_value. cbn [genesis extend amount]. rewrite !drop_0. unfold sum_sums.
    rewrite fmap_app, sum_Z_app. cbn [fmap list_fmap]. rewrite sum_Z_cons.
    change (other_values (mkItem (Arkoor (policy input) sig) (Z.of_nat idx mod 2 ^ 8) (others_of idx txouts)))
      with (value <$> others_of idx txouts). change (sum_Z []) with 0. lia.
  - destruct Hok as [Ha Hg]. split.
    + cbn. eapply Forall_lookup_1 in Hdust; [|done]. unfold P2TR_DUST in Hdust. lia.
    + apply Forall_app. split; [done|]. apply Forall_singleton. cbn. apply Forall_forall. intros o' Ho'.
      by apply (proj1 (Forall_forall _ _) Hstd o'), (others_of_incl idx).
Qed.

(** The builder also accepts requests that pay out less than the input,
    but what is left over cannot be validated: every VTXO built from such a
    request fails validation against the anchor of the input. *)
Theorem arkoor_underpaid_invalid anchor_tx input n outs b txouts txid sig v : good anchor_tx input ->
  arkoor_new input n outs = Ok b -> sum_Z (req_amount <$> outs) < amount input ->
  arkoor_txouts (E:=string) b = Ok txouts ->
  v ∈ build_arkoor_vtxos input outs txouts txid sig ->
  validate v anchor_tx <> Ok tt.
Proof. apply arkoor_underpaid. Qed.
End ArkoorCorrect.

(** *** Witnesses *)
Definition board_built : outcome (@IncorrectSigningKeyError model) (Vtxo (B := model)) :=
  board_build_vtxo board_b board_resp Byte.x05.
Definition board_vtxo : Vtxo (B := model) :=
  ok_value sample_vtxo board_built.

Lemma board_vtxo_good : good board_funding_tx board_vtxo.
Proof.
  split.
  - split; apply (bool_decide_unpack _); vm_compute; exact I.
  - apply (bool_decide_unpack _). vm_compute. exact I.
  - vm_eq.
  - vm_eq.
  - exists (match transactions (E := string) board_vtxo with Ok (Some t) => t | _ => [] end).
    exists (match transactions (E := string) board_vtxo with Ok (Some [(t, _)]) => t | _ => mkTx 0 0 [] [] end), 0.
    split; [vm_eq|]. split; vm_eq.
Qed.

Definition arkoor_outs : list (VtxoRequest (B := model)) :=
  [mkRequest (B := model) 6000 (new_pubkey (B := model) Byte.x06);
   mkRequest (B := model) 4000 (new_pubkey (B := model) Byte.x05)].
Definition arkoor_b : ArkoorBuilder (B := model) := mkArkoor (B := model) board_vtxo 4 arkoor_outs.
Definition arkoor_cosigned : outcome unit (ArkoorCosignResponse (B := model)) :=
  arkoor_server_cosign arkoor_b Byte.x09 11.
Definition arkoor_resp : ArkoorCosignResponse (B := model) :=
  ok_value (mkArkoorCosign (B := model) 0 (Byte.x00, 0, [])) arkoor_cosigned.

Lemma arkoor_vtxos_good_witness : exists vtxos,
  arkoor_build_vtxos arkoor_b 4 Byte.x05 arkoor_resp = Ok vtxos /\ Forall (good board_funding_tx) vtxos /\
  (fun v => mkRequest (B := model) (amount v) (policy v)) <$> vtxos = arkoor_outs.
Proof.
  apply (arkoor_vtxos_good (B := model) board_funding_tx board_vtxo 4 arkoor_outs arkoor_b arkoor_resp Byte.x05
    board_vtxo_good); vm_eq.
Defined.

Lemma arkoor_cosign_accepted_witness :
  arkoor_verify_cosign_response (E := unit) arkoor_b arkoor_resp = Ok true.
Proof. apply (arkoor_cosign_accepted (B := model) arkoor_b Byte.x09 11); vm_eq. Defined.

Definition underpaid_outs : list (VtxoRequest (B := model)) :=
  [mkRequest (B := model) 9900 (new_pubkey (B := model) Byte.x06)].
Definition underpaid_txouts : list TxOut :=
  ok_value [] (arkoor_txouts (E := string) (mkArkoor (B := model) board_vtxo 4 underpaid_outs)).
Definition underpaid_vtxo : Vtxo (B := model) :=
  default sample_vtxo (head (build_arkoor_vtxos board_vtxo underpaid_outs underpaid_txouts [] None)).

Lemma arkoor_underpaid_invalid_witness : validate underpaid_vtxo board_funding_tx <> Ok tt.
Proof.
  apply (arkoor_underpaid_invalid (B := model) board_funding_tx board_vtxo 4 underpaid_outs
    (mkArkoor (B := model) board_vtxo 4 underpaid_outs) underpaid_txouts [] None underpaid_vtxo board_vtxo_good);
    [vm_eq|by vm_compute|vm_eq|].
  apply list_elem_of_lookup_2 with (i := O). vm_eq.
Defined.
