(* ===== verification/ArkoorPackage.v ===== *)
(** * Arkoor packages (lib/src/arkoor/package.rs)

    One payment request paid from several input VTXOs, one arkoor per input,
    with the change of the last one going back to the sender. *)
From stdpp Require Import gmap.
From S2P Require Import Prelude Bitcoin Encode Concrete Policy Vtxo Validation Board Extend Arkoor.

Open Scope Z_scope.

Section Package.
Context `{B : Bitcoin}.

Record ArkoorPackageBuilder := mkPackage {
  arkoors : list ArkoorBuilder;
  spending_tx_by_input : gmap VtxoId Transaction;
}.

Inductive ArkoorPackageError :=
  | MissingChangePk
  | InvalidLength
  | MissingVtxo
  | InvalidRevocationSpk
  | InvalidUserNoncesLength
  | InvalidHtlcAmount
  | PkgArkoorError (e : ArkoorError)
  | PkgTooManyOutputs
  | Signing (e : IncorrectSigningKeyError).

(** What one input pays: the output amount and the change request. *)
Definition split_input (input_amount remaining_amount : Z) (change_pubkey : option PublicKey)
  : outcome ArkoorPackageError (Z * option VtxoRequest) :=
  match checked_sub input_amount remaining_amount with
  | Some change_amount =>
      change ← (if change_amount <? P2TR_DUST then Ok None
                else pk ← ok_or change_pubkey MissingChangePk;
                     Ok (Some (mkRequest change_amount (new_pubkey pk))));
      Ok (remaining_amount, change)
  | None => Ok (input_amount, None)
  end.

(** The loop of [new] over the inputs; [Amount] subtraction panics below zero. *)
Fixpoint package_loop (idx : nat) (inputs : list Vtxo) (user_nonces : list PublicNonce)
    (policy : VtxoPolicy) (change_pubkey : option PublicKey) (remaining_amount : Z)
    (acc : list ArkoorBuilder) (spends : gmap VtxoId Transaction)
  : outcome ArkoorPackageError ArkoorPackageBuilder :=
  match inputs with
  | [] => Ok (mkPackage acc spends)
  | input :: rest =>
      user_nonce ← ok_or (user_nonces !! idx) InvalidUserNoncesLength;
      oc ← split_input (amount input) remaining_amount change_pubkey;
      let '(output_amount, change) := oc in
      let output := mkRequest output_amount policy in
      let pay_reqs := output :: option_list change in
      arkoor ← map_err PkgArkoorError (arkoor_new input user_nonce pay_reqs);
      tx ← unsigned_transaction arkoor;
      let spends := <[vtxo_id input := tx]> spends in
      remaining ← expect (checked_sub remaining_amount output_amount);
      if remaining =? 0 then Ok (mkPackage (acc ++ [arkoor]) spends)
      else package_loop (S idx) rest user_nonces policy change_pubkey remaining (acc ++ [arkoor]) spends
  end.

Definition package_new (inputs : list Vtxo) (user_nonces : list PublicNonce) (vtxo_request : VtxoRequest)
    (change_pubkey : option PublicKey) : outcome ArkoorPackageError ArkoorPackageBuilder :=
  package_loop 0 inputs user_nonces (req_policy vtxo_request) change_pubkey (req_amount vtxo_request) [] ∅.

Definition from_arkoors (l : list ArkoorBuilder) : outcome ArkoorPackageError ArkoorPackageBuilder :=
  txs ← mapM (fun a => tx ← unsigned_transaction a; Ok (vtxo_id (ab_input a), tx)) l;
  Ok (mkPackage l (foldl (fun m p => <[p.1 := p.2]> m) ∅ txs)).

Definition revocation_arkoor (p : Vtxo * PublicNonce) : outcome ArkoorPackageError ArkoorBuilder :=
  let '(v, u) := p in
  match policy v with
  | ServerHtlcSend _ =>
      let refund := mkRequest (amount v) (new_pubkey (vtxo_user_pubkey v)) in
      map_err PkgArkoorError (arkoor_new v u [refund])
  | _ => Err InvalidRevocationSpk
  end.

Definition new_htlc_revocation (htlc_vtxos : list Vtxo) (user_nonces : list PublicNonce)
  : outcome ArkoorPackageError ArkoorPackageBuilder :=
  l ← mapM revocation_arkoor (zip htlc_vtxos user_nonces); from_arkoors l.

Definition inputs (p : ArkoorPackageBuilder) : list Vtxo := ab_input <$> arkoors p.

Definition spending_tx (p : ArkoorPackageBuilder) (input_id : VtxoId) : option Transaction :=
  spending_tx_by_input p !! input_id.

(** The loop of [build_vtxos] over the zipped iterators. *)
Fixpoint build_loop (l : list ArkoorBuilder) (sigs : list ArkoorCosignResponse) (keypairs : list Keypair)
    (sec_nonces : list SecretNonce) (sent : list Vtxo) (change_vtxo : option Vtxo)
  : outcome ArkoorPackageError (list Vtxo * option Vtxo) :=
  match l, sigs, keypairs, sec_nonces with
  | arkoor :: l, cosign :: sigs, keypair :: keypairs, sec_nonce :: sec_nonces =>
      vtxos ← map_err Signing (arkoor_build_vtxos arkoor sec_nonce keypair cosign);
      user_vtxo ← ok_or (head vtxos) MissingVtxo;
      change ← (match vtxos !! 1%nat with
                | Some vtxo => _ ← assert (bool_decide (change_vtxo = None)); Ok (Some vtxo)
                | None => Ok change_vtxo
                end);
      build_loop l sigs keypairs sec_nonces (sent ++ [user_vtxo]) change
  | _, _, _, _ => Ok (sent, change_vtxo)
  end.

Definition package_build_vtxos (p : ArkoorPackageBuilder) (sigs : list ArkoorCosignResponse)
    (keypairs : list Keypair) (sec_nonces : list SecretNonce)
  : outcome ArkoorPackageError (list Vtxo * option Vtxo) :=
  r ← build_loop (arkoors p) sigs keypairs sec_nonces [] None;
  _ ← ensure (bool_decide (length r.1 = length (arkoors p))) InvalidLength;
  Ok r.

Definition new_vtxos {E} (p : ArkoorPackageBuilder) : outcome E (list (list Vtxo)) :=
  mapM unsigned_output_vtxos (arkoors p).

Definition package_server_cosign {E} (p : ArkoorPackageBuilder) (keypair : Keypair) (rands : list Z)
  : outcome E (list ArkoorCosignResponse) :=
  mapM (fun '(a, r) => arkoor_server_cosign a keypair r) (zip (arkoors p) rands).

Fixpoint verify_loop {E} (idx : nat) (l : list ArkoorBuilder) (server_cosign : list ArkoorCosignResponse)
  : outcome E bool :=
  match l with
  | [] => Ok true
  | builder :: l =>
      match server_cosign !! idx with
      | Some cosign =>
          ok ← arkoor_verify_cosign_response builder cosign;
          if negb ok then Ok false else verify_loop (S idx) l server_cosign
      | None => Ok false
      end
  end.

Definition package_verify_cosign_response {E} (p : ArkoorPackageBuilder)
    (server_cosign : list ArkoorCosignResponse) : outcome E bool :=
  verify_loop 0 (arkoors p) server_cosign.
End Package.

(** ** What a package pays *)
Section PackageCorrect.
Context `{B : Bitcoin}.

(** The amount an arkoor of a package pays to the recipient, and what is left
    of its input as on-chain fee. *)
Definition paid (a : ArkoorBuilder) : Z := from_option req_amount 0 (head (ab_outputs a)).
Definition leftover (a : ArkoorBuilder) : Z := amount (ab_input a) - sum_Z (req_amount <$> ab_outputs a).

(** The first output has the requested policy, a second one is change to the
    change key, and less than the dust limit is left over. *)
Definition pays (pol : VtxoPolicy) (change_pubkey : option PublicKey) (a : ArkoorBuilder) : Prop :=
  exists rest, ab_outputs a = mkRequest (paid a) pol :: rest /\ 0 <= leftover a < P2TR_DUST /\
    (rest = [] \/ exists k c, change_pubkey = Some k /\ P2TR_DUST <= c /\ rest = [mkRequest c (new_pubkey k)]).

Lemma split_input_Ok ia rem cpk oa change : 0 <= ia -> 0 <= rem ->
  split_input ia rem cpk = Ok (oa, change) ->
  oa = Z.min ia rem /\ 0 <= ia - oa - from_option req_amount 0 change < P2TR_DUST /\
  (change = None \/ exists k c, cpk = Some k /\ P2TR_DUST <= c /\ change = Some (mkRequest c (new_pubkey k))).
Proof.
  intros Hi Hr. unfold split_input, checked_sub. destruct (Z.leb_spec rem ia); cbn [mbind outcome_bind].
  - destruct (Z.ltb_spec (ia - rem) P2TR_DUST); cbn [mbind outcome_bind].
    + intros [= <- <-]. cbn. split_and!; [lia|lia|lia|by left].
    + destruct cpk as [k|]; cbn; [|done]. intros [= <- <-]. cbn. unfold P2TR_DUST in *.
      split_and!; [lia|lia|lia|]. right. by exists k, (ia - rem).
  - intros [= <- <-]. cbn. unfold P2TR_DUST. split_and!; [lia|lia|lia|by left].
Qed.

Lemma package_loop_spec inputs : forall idx nonces pol cpk rem acc sp pkg,
  package_loop idx inputs nonces pol cpk rem acc sp = Ok pkg ->
  0 <= rem -> Forall (fun v => 0 <= amount v) inputs ->
  exists new, arkoors pkg = acc ++ new /\ ab_input <$> new = take (length new) inputs /\
    sum_Z (paid <$> new) = Z.min rem (sum_Z (amount <$> inputs)) /\ Forall (pays pol cpk) new.
Proof.
  induction inputs as [|input rest IH]; cbn [package_loop]; intros idx nonces pol cpk rem acc sp pkg H Hrem Hins.
  - injection H as <-. exists []. rewrite app_nil_r. split_and!; [done..| |constructor]. cbn. lia.
  - apply Forall_cons in Hins as [Hin Hins].
    apply bind_Ok in H as (n & _ & H). apply bind_Ok in H as ([oa change] & Hsplit & H).
    apply bind_Ok in H as (a & Ha%map_err_Ok & H). apply bind_Ok in H as (tx & _ & H).
    apply bind_Ok in H as (rem' & Hrem'%expect_Ok & H). apply checked_sub_Some in Hrem' as [Hle ->].
    apply split_input_Ok in Hsplit as (-> & Hleft & Hch); [|done..].
    assert (0 <= sum_Z (amount <$> rest)) as Hrest by (apply sum_Z_nonneg, Forall_fmap; exact Hins).
    assert (paid a = Z.min (amount input) rem /\ ab_input a = input /\ pays pol cpk a) as (Hpaid & Hai & Hpays).
    { unfold arkoor_new in Ha. apply bind_Ok in Ha as ([] & _ & Ha). apply bind_Ok in Ha as (s & _ & Ha).
      apply bind_Ok in Ha as ([] & _ & Ha). apply bind_Ok in Ha as ([] & _ & <-%Ok_inj).
      split_and!; [done..|]. exists (option_list change). split; [done|]. unfold leftover. cbn [ab_input ab_outputs].
      destruct Hch as [->|(k & c & -> & Hc & ->)]; cbn in *; (split; [lia|]); [by left|]. right. by exists k, c. }
    rewrite fmap_cons, sum_Z_cons.
    destruct (Z.eqb_spec (rem - Z.min (amount input) rem) 0) as [H0|H0].
    + injection H as <-. exists [a]. split_and!; [done|by rewrite fmap_cons, Hai| |by constructor].
      cbn. rewrite Hpaid. lia.
    + apply IH in H as (new & -> & Hin' & Hsum & Hall); [|lia|done]. exists (a :: new).
      rewrite <- app_assoc. split_and!; [done| | |by constructor].
      * cbn. by rewrite Hai, Hin'.
      * rewrite fmap_cons, sum_Z_cons, Hpaid, Hsum. lia.
Qed.

(** A package pays exactly the requested amount, or all of the inputs when
    they are not enough: the payments of its arkoors add up to the smaller of
    the two.  It uses the inputs in order, every arkoor pays the requested
    policy first, change goes to the change key, and what is left over of an
    input is less than the dust limit. *)
Theorem package_pays ins nonces req cpk p : package_new ins nonces req cpk = Ok p ->
  0 <= req_amount req -> Forall (fun v => 0 <= amount v) ins ->
  sum_Z (paid <$> arkoors p) = Z.min (req_amount req) (sum_Z (amount <$> ins)) /\
  inputs p = take (length (arkoors p)) ins /\ Forall (pays (req_policy req) cpk) (arkoors p).
Proof.
  intros H Hr Hi. apply package_loop_spec in H as (new & Hnew & Hin & Hsum & Hall); [|done..].
  unfold inputs. rewrite Hnew. done.
Qed.

Context `{W : !WitnessLaws B}.

(** When the change of a payment would be dust the package drops it, and
    the VTXOs it then builds do not validate: the amounts of their exit chain
    no longer add up to the anchor. *)
Theorem package_subdust_change_invalid anchor_tx input n req cpk p a txouts txid sig v :
  good anchor_tx input -> 0 <= req_amount req ->
  0 < amount input - req_amount req < P2TR_DUST ->
  package_new [input] [n] req cpk = Ok p -> a ∈ arkoors p -> arkoor_txouts (E:=string) a = Ok txouts ->
  v ∈ build_arkoor_vtxos (ab_input a) (ab_outputs a) txouts txid sig ->
  validate v anchor_tx <> Ok tt.
Proof.
  intros Hgood Hr Hdust Hp Ha Htx Hv. unfold package_new in Hp. cbn [package_loop lookup list_lookup ok_or] in Hp.
  apply bind_Ok in Hp as (n' & _ & Hp). unfold split_input, checked_sub in Hp.
  destruct (Z.leb_spec (req_amount req) (amount input)); [|lia].
  destruct (Z.ltb_spec (amount input - req_amount req) P2TR_DUST); [|lia]. cbn [mbind outcome_bind] in Hp.
  apply bind_Ok in Hp as (a' & Ha'%map_err_Ok & Hp). apply bind_Ok in Hp as (tx & _ & Hp).
  apply bind_Ok in Hp as (r & _ & Hp).
  assert (arkoors p = [a']) as Harks by (destruct (_ =? _); by injection Hp as <-). rewrite Harks in Ha.
  apply list_elem_of_singleton in Ha as ->. pose proof (arkoor_new_inv _ _ _ _ Ha') as (-> & _ & _ & _).
  eapply (arkoor_underpaid anchor_tx input n' _ _ txouts txid sig v Hgood Ha'); [|done|done].
  cbn. lia.
Qed.
End PackageCorrect.

(** *** Witnesses *)
Definition other_board_vtxo : Vtxo (B := model) :=
  mkVtxo (policy board_vtxo) 7000 (expiry_height board_vtxo) (server_pubkey board_vtxo) (exit_delta board_vtxo)
    (anchor_point board_vtxo) (genesis board_vtxo) (mkOutPoint (hash [Byte.x07]) 1).
Definition package_req : VtxoRequest (B := model) := mkRequest (B := model) 12000 (new_pubkey (B := model) Byte.x06).
Definition empty_package : ArkoorPackageBuilder (B := model) := mkPackage (B := model) [] ∅.
Definition sample_package : ArkoorPackageBuilder (B := model) :=
  ok_value empty_package (package_new [board_vtxo; other_board_vtxo] [4; 5] package_req (Some Byte.x05 : option (@PublicKey model))).

Lemma package_pays_witness :
  sum_Z (paid <$> arkoors sample_package) = Z.min 12000 (sum_Z (amount <$> [board_vtxo; other_board_vtxo])) /\
  inputs sample_package = take (length (arkoors sample_package)) [board_vtxo; other_board_vtxo] /\
  Forall (pays (req_policy package_req) (Some Byte.x05 : option (@PublicKey model))) (arkoors sample_package).
Proof.
  apply (package_pays (B := model) [board_vtxo; other_board_vtxo] [4; 5] package_req
    (Some Byte.x05 : option (@PublicKey model)) sample_package); [vm_eq|by vm_compute|].
  apply (bool_decide_unpack _). by vm_compute.
Defined.

Definition subdust_req : VtxoRequest (B := model) := mkRequest (B := model) 9900 (new_pubkey (B := model) Byte.x06).
Definition subdust_package : ArkoorPackageBuilder (B := model) :=
  ok_value empty_package (package_new [board_vtxo] [4] subdust_req (Some Byte.x05 : option (@PublicKey model))).

Lemma package_subdust_change_invalid_witness : validate underpaid_vtxo board_funding_tx <> Ok tt.
Proof.
  apply (package_subdust_change_invalid (B := model) board_funding_tx board_vtxo 4 subdust_req
    (Some Byte.x05 : option (@PublicKey model)) subdust_package (mkArkoor (B := model) board_vtxo 4 underpaid_outs)
    underpaid_txouts [] None underpaid_vtxo board_vtxo_good).
  - by vm_compute.
  - by vm_compute.
  - vm_eq.
  - apply list_elem_of_lookup_2 with (i := O). vm_eq.
  - vm_eq.
  - apply list_elem_of_lookup_2 with (i := O). vm_eq.
Defined.
