(* ===== verification/PackageBuilt.v ===== *)
(** * What the builder of packages returns

    Facts about [package_build_vtxos] (lib/src/arkoor/package.rs) that the
    wallet's payments rely on: every VTXO is made as its arkoor requests, and a
    revocation gives back for every VTXO another one of the same amount that is
    as good as the first. *)
From stdpp Require Import gmap.
From S2P Require Import Prelude Bitcoin Encode Concrete Policy Vtxo Validation Board Extend Arkoor ArkoorPackage.

Open Scope Z_scope.

Section Built.
Context `{B : Bitcoin} `{K : !KeyLaws B} `{M : !MusigLaws B} `{Wl : !WitnessLaws B}.

(** The first request of an arkoor, and the VTXO made for it. *)
Definition made_for (a : ArkoorBuilder) (v : Vtxo) : Prop := head (ab_outputs a) = Some (mkRequest (amount v) (policy v)).

Lemma arkoor_build_requests a sn key resp vtxos : arkoor_build_vtxos a sn key resp = Ok vtxos ->
  (fun v => mkRequest (amount v) (policy v)) <$> vtxos = ab_outputs a.
Proof.
  unfold arkoor_build_vtxos. intros H. apply bind_Ok in H as ([] & _ & H). apply bind_Ok in H as (txouts & _ & H).
  apply bind_Ok in H as (txout & _ & H). apply bind_Ok in H as (tr & _ & H). destruct (partial_sign _ _ _ _ _ _ _) as [ps fs].
  apply bind_Ok in H as (sig & _ & H). apply bind_Ok in H as ([] & _ & H). apply bind_Ok in H as ([] & _ & [= <-]).
  unfold build_arkoor_vtxos. rewrite fmap_imap. apply list_eq. intros i. rewrite list_lookup_imap. by destruct (ab_outputs a !! i) as [[x p]|].
Qed.

Lemma package_loop_built l : forall sigs keys secs sent ch r, build_loop l sigs keys secs sent ch = Ok r ->
  length r.1 = (length sent + length l)%nat ->
  exists new, r.1 = sent ++ new /\ Forall2 made_for l new /\
    forall i a v, l !! i = Some a -> new !! i = Some v -> exists sn key resp vtxos, secs !! i = Some sn /\ keys !! i = Some key /\
      sigs !! i = Some resp /\ arkoor_build_vtxos a sn key resp = Ok vtxos /\ head vtxos = Some v.
Proof.
  induction l as [|a l IH]; intros sigs keys secs sent ch r H Hlen; cbn [build_loop] in H.
  { injection H as <-. exists []. rewrite app_nil_r. split_and!; [done|constructor|]. by intros i a v. }
  destruct sigs as [|sig sigs]; [injection H as <-; cbn in Hlen; lia|]. destruct keys as [|key keys]; [injection H as <-; cbn in Hlen; lia|].
  destruct secs as [|sec secs]; [injection H as <-; cbn in Hlen; lia|].
  apply bind_Ok in H as (vtxos & Hb%map_err_Ok & H). apply bind_Ok in H as (v & Hv%ok_or_Ok & H). apply bind_Ok in H as (ch' & _ & H).
  apply IH in H as (new & Hr & Hf & Hi); [|rewrite length_app; cbn in *; lia]. exists (v :: new). rewrite Hr, <- app_assoc. split; [done|]. split.
  - constructor; [|done]. unfold made_for. apply arkoor_build_requests in Hb. rewrite <- Hb. destruct vtxos; [done|]. by injection Hv as ->.
  - intros [|i] a' v' Ha Hv'; cbn in *; [|by eapply Hi]. injection Ha as <-. injection Hv' as <-. by exists sec, key, sig, vtxos.
Qed.

(** What a package pays, with one VTXO for every arkoor. *)
Lemma package_build_spec p sigs keys secs vtxos ch : package_build_vtxos p sigs keys secs = Ok (vtxos, ch) -> Forall2 made_for (arkoors p) vtxos.
Proof.
  unfold package_build_vtxos. intros H. apply bind_Ok in H as (r & Hr & H). apply bind_Ok in H as ([] & Hl%ensure_Ok%bool_decide_eq_true & H).
  injection H as ->. destruct (package_loop_built _ _ _ _ _ _ _ Hr) as (new & Hn & Hf & _); [cbn in *; lia|]. cbn in Hn. by subst new.
Qed.

Lemma made_amounts l vs : Forall2 made_for l vs -> amount <$> vs = paid <$> l.
Proof. induction 1 as [|a v l vs Ha _ IH]; [done|]. cbn. rewrite IH. f_equal. unfold paid. unfold made_for in Ha. by rewrite Ha. Qed.

(** A payment: all VTXOs have the policy, and are worth what was asked for or
    all of the inputs. *)
Lemma package_new_built ins nonces req cpk p sigs keys secs vtxos ch : package_new ins nonces req cpk = Ok p ->
  0 <= req_amount req -> Forall (fun v => 0 <= amount v) ins -> package_build_vtxos p sigs keys secs = Ok (vtxos, ch) ->
  Forall (fun v => policy v = req_policy req) vtxos /\ sum_Z (amount <$> vtxos) = Z.min (req_amount req) (sum_Z (amount <$> ins)).
Proof.
  intros Hp Hr Hi Hb. apply package_build_spec in Hb. destruct (package_pays _ _ _ _ _ Hp Hr Hi) as (Hsum & _ & Hpays). split.
  - clear Hsum. induction Hb as [|a v l vs Ha Hb IH]; [constructor|]. apply Forall_cons in Hpays as [Hpay Hpays]. constructor; [|by apply IH].
    destruct Hpay as (rest & Ho & _). unfold made_for in Ha. rewrite Ho in Ha. by injection Ha.
  - by rewrite (made_amounts _ _ Hb).
Qed.

(** ** Revocations *)

(** The VTXO that replaces an HTLC: the user's alone, of the same amount, and
    good wherever the HTLC was. *)
Definition replaces (v n : Vtxo) : Prop :=
  policy n = new_pubkey (vtxo_user_pubkey v) /\ amount n = amount v /\ forall anchor_tx, good anchor_tx v -> good anchor_tx n.

Lemma verify_loop_lookup {E} l : forall idx resps, verify_loop (E := E) idx l resps = Ok true -> forall i a, l !! i = Some a ->
  exists resp, resps !! (idx + i)%nat = Some resp /\ arkoor_verify_cosign_response (E := E) a resp = Ok true.
Proof.
  induction l as [|b l IH]; intros idx resps H i a Ha; [done|]. cbn [verify_loop] in H. destruct (resps !! idx) as [resp|] eqn:Hr; [|done].
  apply bind_Ok in H as (ok & Hok & H). destruct ok; [|done]. cbn [negb] in H. destruct i as [|i]; cbn in Ha.
  - injection Ha as <-. exists resp. by rewrite Nat.add_0_r.
  - destruct (IH _ _ H i a Ha) as (resp' & H1 & H2). exists resp'. split; [|done]. rewrite <- H1. f_equal. lia.
Qed.

Lemma revocation_arkoors vs ns p : new_htlc_revocation vs ns = Ok p -> length ns = length vs ->
  Forall2 (fun vn a => arkoor_new vn.1 vn.2 [mkRequest (amount vn.1) (new_pubkey (vtxo_user_pubkey vn.1))] = Ok a) (zip vs ns) (arkoors p).
Proof.
  intros H Hl. unfold new_htlc_revocation in H. apply bind_Ok in H as (l & Hl' & H). unfold from_arkoors in H.
  apply bind_Ok in H as (txs & _ & [= <-]). cbn [arkoors]. apply mapM_outcome_Ok in Hl'. eapply Forall2_impl; [exact Hl'|].
  intros [v n] a Ha. cbn in *. destruct (policy v); try done. by apply map_err_Ok in Ha.
Qed.

(** The user's keys and nonces in the order of the VTXOs, and a response that
    passed the check: what is built replaces the VTXOs one by one. *)
Lemma revocation_built {E} vs p resps (keys : list Keypair) (secs : list SecretNonce) news ch :
  new_htlc_revocation vs (sec_to_pub_nonce <$> secs) = Ok p -> length secs = length vs ->
  Forall2 (fun k v => keypair_public_key k = vtxo_user_pubkey v) keys vs ->
  package_verify_cosign_response (E := E) p resps = Ok true -> package_build_vtxos p resps keys secs = Ok (news, ch) ->
  Forall2 replaces vs news.
Proof.
  intros Hp Hl Hk Hv Hb. pose proof (revocation_arkoors _ _ _ Hp ltac:(by rewrite length_fmap)) as Ha.
  unfold package_build_vtxos in Hb. apply bind_Ok in Hb as (r & Hr & Hb). apply bind_Ok in Hb as ([] & Hlen%ensure_Ok%bool_decide_eq_true & Hb).
  injection Hb as ->. destruct (package_loop_built _ _ _ _ _ _ _ Hr) as (new & Hn & _ & Hi); [cbn in *; lia|]. cbn in Hn, Hlen. subst new.
  pose proof (Forall2_length _ _ _ Ha) as Hla. rewrite length_zip, length_fmap, Hl, Nat.min_id in Hla.
  apply Forall2_same_length_lookup_2; [lia|]. intros i v n Hvi Hni.
  assert (is_Some (arkoors p !! i)) as [a Hai] by (apply lookup_lt_is_Some; apply lookup_lt_Some in Hvi; lia).
  destruct (Hi i a n Hai Hni) as (sn & key & resp & vtxos & Hsn & Hkey & Hresp & Hbuild & Hhead).
  destruct (verify_loop_lookup _ _ _ Hv i a Hai) as (resp' & Hresp' & Hver). cbn in Hresp'. pose proof (eq_trans (eq_sym Hresp) Hresp') as [= <-].
  assert (Hz : zip vs (sec_to_pub_nonce <$> secs) !! i = Some (v, sec_to_pub_nonce sn)).
  { rewrite lookup_zip_Some. split; [done|]. by rewrite list_lookup_fmap, Hsn. }
  pose proof (Forall2_lookup_lr _ _ _ _ _ _ Ha Hz Hai) as Hnew. cbn in Hnew.
  pose proof (Forall2_lookup_lr _ _ _ _ _ _ Hk Hkey Hvi) as Hown. cbn in Hown.
  destruct (arkoor_built_good v sn _ a resp key Hnew Hown) as (vs' & Hb' & Hgood & Hreq); [by eapply arkoor_verify_err|].
  rewrite Hbuild in Hb'. injection Hb' as <-. destruct vtxos as [|n' vtxos]; [done|]. injection Hhead as ->.
  injection Hreq as Hra Hrp Hnil. apply fmap_nil_inv in Hnil as ->. split; [done|]. split; [done|].
  intros anchor_tx Hg. specialize (Hgood anchor_tx Hg). apply Forall_cons in Hgood; [apply Hgood|]. cbn. unfold sum_Z. cbn. lia.
Qed.
End Built.
