(* ===== verification/CheckpointArkoor.v ===== *)
(** * Checkpointed out-of-round payments (lib/src/arkoor/checkpoint.rs)

    The input is first spent into a checkpoint transaction with one output per
    request, and each checkpoint output into the requested VTXO.  User and server
    run the same builder through their own sequence of states. *)
From S2P Require Import Prelude Bitcoin Encode Concrete Policy Vtxo VtxoEncoding Validation Board Extend Arkoor.

Open Scope Z_scope.

Module CpState.
Inductive t := Initial | UserGeneratedNonces | UserSigned | ServerCanCosign | ServerSigned.
End CpState.

Section Checkpoint.
Context `{B : Bitcoin}.

Inductive ArkoorConstructionError :=
  | CpUnbalanced (input output : Z)
  | CpDust
  | TooManyInputs.

Inductive ArkoorSigningError :=
  | SigningConstruction (e : ArkoorConstructionError)
  | InvalidNbUserNonces (expected got : nat)
  | InvalidNbServerNonces (expected got : nat)
  | IncorrectKey (expected got : PublicKey)
  | InvalidNbServerPartialSigs (expected got : nat)
  | InvalidPartialSignature (index : nat)
  | InvalidNbPackages (expected got : nat)
  | InvalidNbKeypairs (expected got : nat).

Record CosignResponse := mkCosignResponse {
  server_pub_nonces : list PublicNonce; server_partial_sigs : list PartialSignature }.

Record CosignRequest (V : Type) := mkCosignRequest {
  cr_user_pub_nonces : list PublicNonce; cr_input : V; cr_outputs : list VtxoRequest }.
#[global] Arguments mkCosignRequest {V}.
#[global] Arguments cr_user_pub_nonces {V}.
#[global] Arguments cr_input {V}.
#[global] Arguments cr_outputs {V}.

Definition with_vtxo (r : CosignRequest VtxoId) (vtxo : Vtxo) : outcome string (CosignRequest Vtxo) :=
  _ ← ensure (bool_decide (cr_input r = vtxo_id vtxo)) "Input vtxo id does not match the provided vtxo id"%string;
  Ok (mkCosignRequest (cr_user_pub_nonces r) vtxo (cr_outputs r)).

Record CheckpointedArkoorBuilder (s : CpState.t) := mkCp {
  cp_input : Vtxo;
  cp_outputs : list VtxoRequest;
  unsigned_checkpoint_tx : Transaction;
  unsigned_checkpoint_txid : bytes;
  unsigned_arkoor_txs : list Transaction;
  sighashes : list bytes;
  checkpoint_taptweak : bytes;
  arkoor_taptweak : bytes;
  new_vtxo_ids : list VtxoId;
  cp_user_pub_nonces : option (list PublicNonce);
  cp_user_sec_nonces : option (list SecretNonce);
  cp_server_pub_nonces : option (list PublicNonce);
  cp_server_partial_sigs : option (list PartialSignature);
  full_signatures : option (list Signature);
}.
#[global] Arguments mkCp {s}.
#[global] Arguments cp_input {s}.
#[global] Arguments cp_outputs {s}.
#[global] Arguments unsigned_checkpoint_tx {s}.
#[global] Arguments unsigned_checkpoint_txid {s}.
#[global] Arguments unsigned_arkoor_txs {s}.
#[global] Arguments sighashes {s}.
#[global] Arguments checkpoint_taptweak {s}.
#[global] Arguments arkoor_taptweak {s}.
#[global] Arguments new_vtxo_ids {s}.
#[global] Arguments cp_user_pub_nonces {s}.
#[global] Arguments cp_user_sec_nonces {s}.
#[global] Arguments cp_server_pub_nonces {s}.
#[global] Arguments cp_server_partial_sigs {s}.
#[global] Arguments full_signatures {s}.

(** [v[idx]]. *)
Definition index {E A} (l : list A) (idx : nat) : outcome E A := expect (l !! idx).

(** The other outputs of the checkpoint transaction, fee anchor excluded. *)
Definition checkpoint_others (tx : Transaction) (output_idx : nat) : list TxOut :=
  omap (fun p => if bool_decide (p.1 = output_idx) || is_p2a_fee_anchor p.2 then None else Some p.2)
    (imap pair (output tx)).

Definition checkpoint_vtxo_at {E s} (b : CheckpointedArkoorBuilder s) (output_idx : nat)
    (checkpoint_sig : option Signature) : outcome E Vtxo :=
  output ← index (cp_outputs b) output_idx;
  let checkpoint_txid := compute_txid (unsigned_checkpoint_tx b) in
  let input := cp_input b in
  Ok (mkVtxo (new_checkpoint (vtxo_user_pubkey input)) (req_amount output) (expiry_height input)
        (server_pubkey input) (exit_delta input) (anchor_point input)
        (genesis input ++
          [mkItem (Arkoor (policy input) checkpoint_sig) (Z.of_nat output_idx mod 2 ^ 8)
             (checkpoint_others (unsigned_checkpoint_tx b) output_idx)])
        (mkOutPoint checkpoint_txid (Z.of_nat output_idx mod 2 ^ 32))).

Definition vtxo_at {E s} (b : CheckpointedArkoorBuilder s) (output_idx : nat)
    (checkpoint_sig arkoor_sig : option Signature) : outcome E Vtxo :=
  output ← index (cp_outputs b) output_idx;
  let input := cp_input b in
  let checkpoint_policy := new_checkpoint (vtxo_user_pubkey input) in
  id ← index (new_vtxo_ids b) output_idx;
  Ok (mkVtxo (req_policy output) (req_amount output) (expiry_height input)
        (server_pubkey input) (exit_delta input) (anchor_point input)
        (genesis input ++
          [mkItem (Arkoor (policy input) checkpoint_sig) (Z.of_nat output_idx mod 2 ^ 8)
             (checkpoint_others (unsigned_checkpoint_tx b) output_idx);
           mkItem (Arkoor checkpoint_policy arkoor_sig) 0 []])
        (id_utxo id)).

Definition nb_sigs {s} (b : CheckpointedArkoorBuilder s) : nat := length (cp_outputs b) + 1.
Definition nb_outputs {s} (b : CheckpointedArkoorBuilder s) : nat := length (cp_outputs b).

Definition build_unsigned_vtxos {E s} (b : CheckpointedArkoorBuilder s) : outcome E (list Vtxo) :=
  mapM (fun i => vtxo_at b i None None) (seq 0 (nb_outputs b)).

Definition build_unsigned_checkpoint_vtxos {E s} (b : CheckpointedArkoorBuilder s) : outcome E (list Vtxo) :=
  mapM (fun i => checkpoint_vtxo_at b i None) (seq 0 (nb_outputs b)).

(** Each id with the transaction that spends it out of round. *)
Definition spend_info {E s} (b : CheckpointedArkoorBuilder s) : outcome E (list (VtxoId * bytes)) :=
  others ← mapM (fun idx =>
    tx ← index (unsigned_arkoor_txs b) idx;
    Ok (id_of_outpoint (mkOutPoint (unsigned_checkpoint_txid b) (Z.of_nat idx mod 2 ^ 32)), compute_txid tx))
    (seq 0 (nb_outputs b));
  Ok ((vtxo_id (cp_input b), unsigned_checkpoint_txid b) :: others).

Definition checkpoint_spend_info {E s} (b : CheckpointedArkoorBuilder s) : outcome E (list (Vtxo * bytes)) :=
  mapM (fun idx =>
    vtxo ← checkpoint_vtxo_at b idx None;
    id ← index (new_vtxo_ids b) idx;
    Ok (vtxo, op_txid (id_utxo id))) (seq 0 (nb_outputs b)).

Definition taptweak_at {s} (b : CheckpointedArkoorBuilder s) (idx : nat) : bytes :=
  if bool_decide (idx = O) then checkpoint_taptweak b else arkoor_taptweak b.

Definition construct_unsigned_checkpoint_tx {E} (input : Vtxo) (outputs : list VtxoRequest)
  : outcome E Transaction :=
  let output_policy := new_checkpoint (vtxo_user_pubkey input) in
  checkpoint_spk ← policy_script_pubkey output_policy (server_pubkey input) (exit_delta input) (expiry_height input);
  Ok (mkTx 3 0 [mkTxIn (point input) [] 0 []]
        (((fun o => mkTxOut (req_amount o) checkpoint_spk) <$> outputs) ++ [fee_anchor])).

Definition construct_unsigned_arkoor_txs {E} (input : Vtxo) (outputs : list VtxoRequest)
    (checkpoint_txid : bytes) : outcome E (list Transaction) :=
  mapM (fun p : nat * VtxoRequest =>
    txout ← policy_txout (req_policy p.2) (req_amount p.2) (server_pubkey input) (exit_delta input)
              (expiry_height input);
    Ok (mkTx 3 0 [mkTxIn (mkOutPoint checkpoint_txid (Z.of_nat p.1 mod 2 ^ 32)) [] 0 []] [txout; fee_anchor]))
    (imap pair outputs).

Definition validate_amounts (input : Vtxo) (outputs : list VtxoRequest) : outcome ArkoorConstructionError unit :=
  output_amount ← amount_sum (req_amount <$> outputs);
  _ ← ensure (bool_decide (amount input = output_amount)) (CpUnbalanced (amount input) output_amount);
  ensure (negb (existsb (fun o => req_amount o <? P2TR_DUST) outputs)) CpDust.

Definition to_state {s} (s2 : CpState.t) (b : CheckpointedArkoorBuilder s) : CheckpointedArkoorBuilder s2 :=
  mkCp (cp_input b) (cp_outputs b) (unsigned_checkpoint_tx b) (unsigned_checkpoint_txid b)
    (unsigned_arkoor_txs b) (sighashes b) (checkpoint_taptweak b) (arkoor_taptweak b) (new_vtxo_ids b)
    (cp_user_pub_nonces b) (cp_user_sec_nonces b) (cp_server_pub_nonces b) (cp_server_partial_sigs b)
    (full_signatures b).

Definition cp_new (input : Vtxo) (outputs : list VtxoRequest)
  : outcome ArkoorConstructionError (CheckpointedArkoorBuilder CpState.Initial) :=
  _ ← validate_amounts input outputs;
  checkpoint_tx ← construct_unsigned_checkpoint_tx input outputs;
  let checkpoint_txid := compute_txid checkpoint_tx in
  arkoor_txs ← construct_unsigned_arkoor_txs input outputs checkpoint_txid;
  let ids := (fun tx => id_of_outpoint (mkOutPoint (compute_txid tx) 0)) <$> arkoor_txs in
  txout ← vtxo_txout input;
  rest ← mapM (fun vout =>
    prevout ← index (output checkpoint_tx) vout;
    tx ← index arkoor_txs vout;
    Ok (arkoor_sighash prevout tx)) (seq 0 (length outputs));
  let hashes := arkoor_sighash txout checkpoint_tx :: rest in
  tr ← output_taproot input;
  cp_tr ← taproot (new_checkpoint (vtxo_user_pubkey input)) (server_pubkey input) (exit_delta input)
            (expiry_height input);
  Ok (mkCp input outputs checkpoint_tx checkpoint_txid arkoor_txs hashes (tap_tweak tr) (tap_tweak cp_tr) ids
        None None None None None).

(** [rands] is the randomness of the nonces. *)
Definition cp_generate_user_nonces {E} (b : CheckpointedArkoorBuilder CpState.Initial) (user_keypair : Keypair)
    (rands : nat -> Z) : outcome E (CheckpointedArkoorBuilder CpState.UserGeneratedNonces) :=
  nonces ← mapM (fun idx => sh ← index (sighashes b) idx; Ok (nonce_pair_with_msg user_keypair sh (rands idx)))
             (seq 0 (nb_sigs b));
  Ok (to_state CpState.UserGeneratedNonces
        (mkCp (s := CpState.Initial) (cp_input b) (cp_outputs b) (unsigned_checkpoint_tx b) (unsigned_checkpoint_txid b)
           (unsigned_arkoor_txs b) (sighashes b) (checkpoint_taptweak b) (arkoor_taptweak b) (new_vtxo_ids b)
           (Some (snd <$> nonces)) (Some (fst <$> nonces)) (cp_server_pub_nonces b) (cp_server_partial_sigs b)
           (full_signatures b))).

Definition set_user_pub_nonces (b : CheckpointedArkoorBuilder CpState.Initial) (user_pub_nonces : list PublicNonce)
  : outcome ArkoorSigningError (CheckpointedArkoorBuilder CpState.ServerCanCosign) :=
  _ ← ensure (bool_decide (length user_pub_nonces = nb_sigs b))
        (InvalidNbUserNonces (nb_sigs b) (length user_pub_nonces));
  Ok (to_state CpState.ServerCanCosign
        (mkCp (s := CpState.Initial) (cp_input b) (cp_outputs b) (unsigned_checkpoint_tx b) (unsigned_checkpoint_txid b)
           (unsigned_arkoor_txs b) (sighashes b) (checkpoint_taptweak b) (arkoor_taptweak b) (new_vtxo_ids b)
           (Some user_pub_nonces) (cp_user_sec_nonces b) (cp_server_pub_nonces b) (cp_server_partial_sigs b)
           (full_signatures b))).

Definition from_cosign_request (r : CosignRequest Vtxo)
  : outcome ArkoorSigningError (CheckpointedArkoorBuilder CpState.ServerCanCosign) :=
  b ← map_err SigningConstruction (cp_new (cr_input r) (cr_outputs r));
  set_user_pub_nonces b (cr_user_pub_nonces r).

Definition cp_server_cosign (b : CheckpointedArkoorBuilder CpState.ServerCanCosign) (server_keypair : Keypair)
    (rands : nat -> Z) : outcome ArkoorSigningError (CheckpointedArkoorBuilder CpState.ServerSigned) :=
  _ ← ensure (bool_decide (keypair_public_key server_keypair = server_pubkey (cp_input b)))
        (IncorrectKey (server_pubkey (cp_input b)) (keypair_public_key server_keypair));
  sigs ← mapM (fun idx =>
    ns ← expect (cp_user_pub_nonces b);
    n ← index ns idx;
    sh ← index (sighashes b) idx;
    Ok (deterministic_partial_sign server_keypair [vtxo_user_pubkey (cp_input b)] [n] sh
          (Some (taptweak_at b idx)) (rands idx))) (seq 0 (nb_sigs b));
  Ok (to_state CpState.ServerSigned
        (mkCp (s := CpState.ServerCanCosign) (cp_input b) (cp_outputs b) (unsigned_checkpoint_tx b)
           (unsigned_checkpoint_txid b) (unsigned_arkoor_txs b) (sighashes b) (checkpoint_taptweak b)
           (arkoor_taptweak b) (new_vtxo_ids b) (cp_user_pub_nonces b) (cp_user_sec_nonces b)
           (Some (fst <$> sigs)) (Some (snd <$> sigs)) (full_signatures b))).

Definition cosign_response {E} (b : CheckpointedArkoorBuilder CpState.ServerSigned) : outcome E CosignResponse :=
  ns ← expect (cp_server_pub_nonces b);
  sigs ← expect (cp_server_partial_sigs b);
  Ok (mkCosignResponse ns sigs).

Definition cosign_request {E} (b : CheckpointedArkoorBuilder CpState.UserGeneratedNonces)
  : outcome E (CosignRequest Vtxo) :=
  ns ← expect (cp_user_pub_nonces b);
  Ok (mkCosignRequest ns (cp_input b) (cp_outputs b)).

Definition verify_sig_at (b : CheckpointedArkoorBuilder CpState.UserGeneratedNonces) (data : CosignResponse)
    (idx : nat) : outcome ArkoorSigningError unit :=
  sh ← index (sighashes b) idx;
  sn ← index (server_pub_nonces data) idx;
  ns ← expect (cp_user_pub_nonces b);
  n ← index ns idx;
  sig ← index (server_partial_sigs data) idx;
  ensure (verify_partial_sig sh (taptweak_at b idx) (server_pubkey (cp_input b), sn)
            (vtxo_user_pubkey (cp_input b), n) sig) (InvalidPartialSignature idx).

Definition validate_server_cosign_response (b : CheckpointedArkoorBuilder CpState.UserGeneratedNonces)
    (data : CosignResponse) : outcome ArkoorSigningError unit :=
  _ ← ensure (bool_decide (length (server_pub_nonces data) = nb_sigs b))
        (InvalidNbServerNonces (nb_sigs b) (length (server_pub_nonces data)));
  _ ← ensure (bool_decide (length (server_partial_sigs data) = nb_sigs b))
        (InvalidNbServerPartialSigs (nb_sigs b) (length (server_partial_sigs data)));
  _ ← mapM (verify_sig_at b data) (seq 0 (nb_sigs b));
  Ok tt.

Definition sign_at (b : CheckpointedArkoorBuilder CpState.UserGeneratedNonces) (user_keypair : Keypair)
    (data : CosignResponse) (p : nat * SecretNonce) : outcome ArkoorSigningError Signature :=
  let '(idx, user_sec_nonce) := p in
  ns ← expect (cp_user_pub_nonces b);
  user_pub_nonce ← index ns idx;
  server_pub_nonce ← index (server_pub_nonces data) idx;
  let agg_nonce := nonce_agg [user_pub_nonce; server_pub_nonce] in
  sh ← index (sighashes b) idx;
  ps ← index (server_partial_sigs data) idx;
  let '(_, maybe_sig) :=
    partial_sign [vtxo_user_pubkey (cp_input b); server_pubkey (cp_input b)] agg_nonce user_keypair
      user_sec_nonce sh (Some (taptweak_at b idx)) (Some [ps]) in
  expect maybe_sig.

Definition user_cosign (b : CheckpointedArkoorBuilder CpState.UserGeneratedNonces) (user_keypair : Keypair)
    (server_cosign_data : CosignResponse)
  : outcome ArkoorSigningError (CheckpointedArkoorBuilder CpState.UserSigned) :=
  _ ← ensure (bool_decide (keypair_public_key user_keypair = vtxo_user_pubkey (cp_input b)))
        (IncorrectKey (vtxo_user_pubkey (cp_input b)) (keypair_public_key user_keypair));
  _ ← validate_server_cosign_response b server_cosign_data;
  user_sec_nonces ← expect (cp_user_sec_nonces b);
  sigs ← mapM (sign_at b user_keypair server_cosign_data) (imap pair user_sec_nonces);
  Ok (to_state CpState.UserSigned
        (mkCp (s := CpState.UserGeneratedNonces) (cp_input b) (cp_outputs b) (unsigned_checkpoint_tx b)
           (unsigned_checkpoint_txid b) (unsigned_arkoor_txs b) (sighashes b) (checkpoint_taptweak b)
           (arkoor_taptweak b) (new_vtxo_ids b) (cp_user_pub_nonces b) None
           (cp_server_pub_nonces b) (cp_server_partial_sigs b) (Some sigs))).

(** [full_signatures[0]] and the slice [full_signatures[1..]]. *)
Definition build_signed_vtxos {E} (b : CheckpointedArkoorBuilder CpState.UserSigned) : outcome E (list Vtxo) :=
  sigs ← expect (full_signatures b);
  checkpoint_sig ← index sigs 0;
  let arkoor_sigs := drop 1 sigs in
  mapM (fun i => arkoor_sig ← index arkoor_sigs i; vtxo_at b i (Some checkpoint_sig) (Some arkoor_sig))
    (seq 0 (nb_outputs b)).
End Checkpoint.

(** ** Correctness *)
Section CheckpointCorrect.
Context `{B : Bitcoin}.

(** The checkpoint outputs and the transaction that spends one of them. *)
Definition cp_txouts (cp_tr : Taproot) (outs : list VtxoRequest) : list TxOut :=
  (fun o => mkTxOut (req_amount o) (taproot_script_pubkey cp_tr)) <$> outs.
Definition cp_arkoor_tx (checkpoint_txid : bytes) (i : nat) (o : TxOut) : Transaction :=
  mkTx 3 0 [mkTxIn (mkOutPoint checkpoint_txid (Z.of_nat i mod 2 ^ 32)) [] 0 []] [o; fee_anchor].

(** What the constructor establishes and no later step changes. *)
Record cp_core {s} (b : CheckpointedArkoorBuilder s) (tr cp_tr : Taproot) (txouts : list TxOut) : Prop := {
  core_sum : sum_Z (req_amount <$> cp_outputs b) = amount (cp_input b);
  core_dust : Forall (fun r => P2TR_DUST <= req_amount r) (cp_outputs b);
  core_tr : output_taproot (E:=string) (cp_input b) = Ok tr;
  core_cp_tr : taproot (E:=string) (new_checkpoint (vtxo_user_pubkey (cp_input b))) (server_pubkey (cp_input b))
                 (exit_delta (cp_input b)) (expiry_height (cp_input b)) = Ok cp_tr;
  core_txouts : request_txouts (E:=string) (cp_input b) (cp_outputs b) = Ok txouts;
  core_ctx : unsigned_checkpoint_tx b = unsigned_arkoor_tx (cp_input b) (cp_txouts cp_tr (cp_outputs b));
  core_txid : unsigned_checkpoint_txid b = compute_txid (unsigned_checkpoint_tx b);
  core_tweak0 : checkpoint_taptweak b = tap_tweak tr;
  core_tweak1 : arkoor_taptweak b = tap_tweak cp_tr;
  core_hash0 : sighashes b !! O = Some (key_spend_sighash (unsigned_checkpoint_tx b)
                 (mkTxOut (amount (cp_input b)) (taproot_script_pubkey tr)));
  core_hash : forall i r o, cp_outputs b !! i = Some r -> txouts !! i = Some o ->
    sighashes b !! S i = Some (key_spend_sighash (cp_arkoor_tx (unsigned_checkpoint_txid b) i o)
                                 (mkTxOut (req_amount r) (taproot_script_pubkey cp_tr)));
  core_ids : forall i o, txouts !! i = Some o ->
    new_vtxo_ids b !! i = Some (id_of_outpoint (mkOutPoint (compute_txid (cp_arkoor_tx (unsigned_checkpoint_txid b) i o)) 0));
}.

Lemma taproot_err {E F} (p : VtxoPolicy) spk ed eh tr :
  taproot (E:=E) p spk ed eh = Ok tr -> taproot (E:=F) p spk ed eh = Ok tr.
Proof. apply (input_taproot_err (Arkoor p None)). Qed.

Lemma validate_amounts_Ok input outs : validate_amounts input outs = Ok tt ->
  sum_Z (req_amount <$> outs) = amount input /\ Forall (fun r => P2TR_DUST <= req_amount r) outs.
Proof.
  unfold validate_amounts. intros H. apply bind_Ok in H as (s & Hs & H).
  apply bind_Ok in H as ([] & Heq%ensure_Ok%bool_decide_eq_true & Hd%ensure_Ok). apply negb_true_iff in Hd.
  assert (Forall (fun r => P2TR_DUST <= req_amount r) outs) as Hdust by (by apply no_dust).
  split; [|done]. apply amount_sum_Ok in Hs as [-> _]; [done|].
  apply Forall_fmap. eapply Forall_impl; [exact Hdust|]. unfold P2TR_DUST. cbn. lia.
Qed.

Lemma arkoor_txs_lookup {E} input outs txid atxs i r o : construct_unsigned_arkoor_txs (E:=E) input outs txid = Ok atxs ->
  outs !! i = Some r ->
  policy_txout (E:=E) (req_policy r) (req_amount r) (server_pubkey input) (exit_delta input) (expiry_height input) = Ok o ->
  atxs !! i = Some (cp_arkoor_tx txid i o).
Proof.
  unfold construct_unsigned_arkoor_txs. intros H Hr Ho.
  destruct (mapM_lookup _ _ _ i (i, r) H) as (tx & Htx & Hf); [by rewrite list_lookup_imap, Hr|].
  cbn [fst snd] in Hf. rewrite Ho in Hf. by injection Hf as <-.
Qed.

Lemma cp_new_core input outs b : cp_new input outs = Ok b ->
  cp_input b = input /\ cp_outputs b = outs /\ exists tr cp_tr txouts, cp_core b tr cp_tr txouts.
Proof.
  unfold cp_new. intros H. apply bind_Ok in H as ([] & [Hsum Hdust]%validate_amounts_Ok & H).
  apply bind_Ok in H as (ctx & Hctx & H). apply bind_Ok in H as (atxs & Hatxs & H).
  apply bind_Ok in H as (txout & Htxout & H). apply bind_Ok in H as (rest & Hrest & H).
  apply bind_Ok in H as (tr & Htr & H). apply bind_Ok in H as (cp_tr & Hcp & <-%Ok_inj).
  split; [done|]. split; [done|]. exists tr, cp_tr.
  assert (txout = mkTxOut (amount input) (taproot_script_pubkey tr)) as ->.
  { unfold vtxo_txout, policy_txout, policy_script_pubkey in Htxout. unfold output_taproot in Htr.
    rewrite Htr in Htxout. by injection Htxout as <-. }
  assert (ctx = unsigned_arkoor_tx input (cp_txouts cp_tr outs)) as ->.
  { unfold construct_unsigned_checkpoint_tx, policy_script_pubkey in Hctx. rewrite Hcp in Hctx. by injection Hctx as <-. }
  assert (exists txouts, request_txouts (E:=string) input outs = Ok txouts) as [txouts Htxouts].
  { apply mapM_total. intros i r Hr. unfold construct_unsigned_arkoor_txs in Hatxs.
    destruct (mapM_lookup _ _ _ i (i, r) Hatxs) as (tx & Htx & Hf); [by rewrite list_lookup_imap, Hr|].
    apply bind_Ok in Hf as (o & Ho & _). exists o. by eapply policy_txout_err. }
  exists txouts. split; cbn [cp_input cp_outputs unsigned_checkpoint_tx unsigned_checkpoint_txid sighashes
    checkpoint_taptweak arkoor_taptweak new_vtxo_ids]; try done.
  - by eapply output_taproot_err.
  - by eapply taproot_err.
  - intros i r o Hr Ho. destruct (request_txouts_lookup _ _ _ _ _ Htxouts Hr) as (o' & Ho' & Hpo).
    assert (o' = o) as -> by congruence. apply (policy_txout_err (F:=ArkoorConstructionError)) in Hpo.
    pose proof (arkoor_txs_lookup _ _ _ _ _ _ _ Hatxs Hr Hpo) as Hatx.
    destruct (mapM_lookup _ _ _ i i Hrest) as (sh & Hsh & Hf).
    { apply lookup_seq. split; [done|]. by eapply lookup_lt_Some. }
    transitivity (rest !! i); [done|]. rewrite Hsh. f_equal. unfold index in Hf. rewrite Hatx in Hf.
    unfold unsigned_arkoor_tx, cp_txouts in Hf. cbn [output] in Hf.
    rewrite lookup_app_l in Hf by (rewrite length_fmap; by eapply lookup_lt_Some).
    rewrite list_lookup_fmap, Hr in Hf. by injection Hf as <-.
  - intros i o Ho. rewrite list_lookup_fmap.
    assert (exists r, outs !! i = Some r) as [r Hr].
    { apply lookup_lt_is_Some_2. rewrite <- (mapM_length _ _ _ Htxouts). by eapply lookup_lt_Some. }
    destruct (request_txouts_lookup _ _ _ _ _ Htxouts Hr) as (o' & Ho' & Hpo).
    assert (o' = o) as -> by congruence. apply (policy_txout_err (F:=ArkoorConstructionError)) in Hpo.
    by rewrite (arkoor_txs_lookup _ _ _ _ _ _ _ Hatxs Hr Hpo).
Qed.

Context `{W : !WitnessLaws B} `{K : !KeyLaws B} `{M : !MusigLaws B}.

Lemma omap_others idx (l : list (nat * TxOut)) : Forall (fun p => is_p2a_fee_anchor p.2 = false) l ->
  omap (fun p => if bool_decide (p.1 = idx) || is_p2a_fee_anchor p.2 then None else Some p.2) l =
  snd <$> filter (fun p => p.1 <> idx) l.
Proof.
  induction 1 as [|[i o] l Ho _ IH]; [done|]. rewrite filter_cons. cbn [omap list_omap fst snd] in *. rewrite Ho, orb_false_r.
  case_bool_decide; [rewrite decide_False by tauto|rewrite decide_True by done; rewrite fmap_cons; cbn [snd]; f_equal]; exact IH.
Qed.

Lemma checkpoint_others_eq input cp_tr outs idx :
  checkpoint_others (unsigned_arkoor_tx input (cp_txouts cp_tr outs)) idx = others_of idx (cp_txouts cp_tr outs).
Proof.
  unfold checkpoint_others, unsigned_arkoor_tx. cbn [output]. rewrite imap_app, omap_app, omap_others.
  - unfold others_of. rewrite <- (app_nil_r (snd <$> _)) at 2. f_equal. cbn.
    unfold is_p2a_fee_anchor. cbn. rewrite (bool_decide_true (p2a_script = p2a_script)) by done. by rewrite orb_true_r.
  - apply Forall_lookup. intros i [j o]. rewrite list_lookup_imap. unfold cp_txouts. rewrite list_lookup_fmap.
    destruct (outs !! i) as [r|]; [|done]. cbn. intros [= <- <-]. unfold is_p2a_fee_anchor. cbn.
    apply bool_decide_eq_false. apply p2tr_not_p2a.
Qed.

Lemma cp_txouts_values cp_tr outs : value <$> cp_txouts cp_tr outs = req_amount <$> outs.
Proof. unfold cp_txouts. by rewrite <- list_fmap_compose. Qed.

Lemma cp_txouts_standard cp_tr outs : Forall (fun r => P2TR_DUST <= req_amount r) outs ->
  Forall (fun o => 0 <= value o /\ is_standard o = true) (cp_txouts cp_tr outs).
Proof.
  intros H. apply Forall_fmap. eapply Forall_impl; [exact H|]. intros r Hr. unfold compose, is_standard.
  cbn [value script_pubkey]. unfold taproot_script_pubkey. rewrite p2tr_kind. unfold P2TR_DUST in *.
  split; [lia|]. by apply Z.leb_le.
Qed.

(** The checkpoint VTXO and the VTXO behind it are good once the two
    transactions that lead to them are signed. *)
Lemma vtxo_at_good {s} (b : CheckpointedArkoorBuilder s) tr cp_tr txouts anchor_tx i r o sig0 sig1 :
  cp_core b tr cp_tr txouts -> good anchor_tx (cp_input b) -> (length (cp_outputs b) <= 256)%nat ->
  cp_outputs b !! i = Some r -> txouts !! i = Some o ->
  verify_schnorr sig0 (key_spend_sighash (unsigned_checkpoint_tx b)
    (mkTxOut (amount (cp_input b)) (taproot_script_pubkey tr))) (output_key tr) = true ->
  verify_schnorr sig1 (key_spend_sighash (cp_arkoor_tx (unsigned_checkpoint_txid b) i o)
    (mkTxOut (req_amount r) (taproot_script_pubkey cp_tr))) (output_key cp_tr) = true ->
  exists cv v, checkpoint_vtxo_at (E:=string) b i (Some sig0) = Ok cv /\ good anchor_tx cv /\
    (forall E, vtxo_at (E:=E) b i (Some sig0) (Some sig1) = Ok v) /\ good anchor_tx v /\
    mkRequest (amount v) (policy v) = r.
Proof.
  intros Hcore Hgood Hlen Hr Ho Hs0 Hs1. destruct Hcore as [Hsum Hdust Htr Hcp Htxouts Hctx Htxid _ _ _ _ Hids].
  set (input := cp_input b) in *. set (outs := cp_outputs b) in *.
  pose proof (lookup_lt_Some _ _ _ Hr) as Hi.
  assert (Z.of_nat i mod 2 ^ 8 = Z.of_nat i) as Hm8 by (apply Z.mod_small; lia).
  assert (Z.of_nat i mod 2 ^ 32 = Z.of_nat i) as Hm32 by (apply Z.mod_small; lia).
  assert (0 <= req_amount r) as Hr0.
  { eapply Forall_lookup_1 in Hdust; [|exact Hr]. unfold P2TR_DUST in Hdust. lia. }
  assert (cp_txouts cp_tr outs !! i = Some (mkTxOut (req_amount r) (taproot_script_pubkey cp_tr))) as Hco.
  { unfold cp_txouts. by rewrite list_lookup_fmap, Hr. }
  set (cpol := new_checkpoint (vtxo_user_pubkey input)) in *.
  set (co := mkTxOut (req_amount r) (taproot_script_pubkey cp_tr)) in *.
  assert (policy_txout (E:=string) cpol (req_amount r) (server_pubkey input) (exit_delta input) (expiry_height input) = Ok co) as Hcpo.
  { unfold policy_txout, policy_script_pubkey. rewrite Hcp. done. }
  assert (unsigned_checkpoint_tx b = spend_tx input (item_outputs (mkItem (Arkoor (policy input) (Some sig0))
    (Z.of_nat i) (others_of i (cp_txouts cp_tr outs))) co)) as Hctx'.
  { rewrite Hctx. unfold spend_tx. rewrite <- Hm8 at 1. by rewrite others_of_outputs. }
  set (cv := extend input cpol (req_amount r) (Some sig0) (Z.of_nat i) (others_of i (cp_txouts cp_tr outs))
    (mkOutPoint (compute_txid (unsigned_checkpoint_tx b)) (Z.of_nat i))).
  assert (good anchor_tx cv) as Hcv.
  { unfold cv. rewrite Hctx' in *. eapply extend_good; [done| |done| | |done..].
    - rewrite <- Hsum, <- (cp_txouts_values cp_tr). exact (others_of_sum _ _ _ Hco).
    - apply Forall_forall. intros o' Ho'.
      apply (proj1 (Forall_forall _ _) (cp_txouts_standard cp_tr outs Hdust)). by eapply others_of_incl.
    - rewrite others_of_eq, length_app, length_take, length_drop. unfold cp_txouts. rewrite length_fmap. lia. }
  destruct (request_txouts_lookup _ _ _ _ _ Htxouts Hr) as (o' & Ho' & Hpo). assert (o' = o) as -> by congruence.
  assert (cp_arkoor_tx (unsigned_checkpoint_txid b) i o = spend_tx cv (item_outputs (mkItem (Arkoor (policy cv) (Some sig1)) 0 []) o)) as Htx.
  { unfold cp_arkoor_tx, spend_tx. rewrite Hm32, Htxid. done. }
  exists cv. eexists. split.
  { unfold checkpoint_vtxo_at, index. fold outs. rewrite Hr. cbn [expect mbind outcome_bind]. fold input.
    rewrite Hctx, checkpoint_others_eq, <- Hctx, Hm8, Hm32. done. }
  split; [done|]. split.
  { intros E. unfold vtxo_at, index. fold outs. rewrite Hr. cbn [expect mbind outcome_bind]. rewrite (Hids i o Ho).
    cbn [expect mbind outcome_bind]. fold input. rewrite Hctx, checkpoint_others_eq, Hm8. reflexivity. }
  split; [|by destruct r].
  rewrite id_utxo_of_outpoint by (split; [apply txid_length|done]).
  replace (genesis input ++ _) with (genesis cv ++ [mkItem (Arkoor (policy cv) (Some sig1)) 0 []])
    by (cbn; by rewrite <- app_assoc).
  rewrite Htx in *. apply (extend_good anchor_tx cv (req_policy r) (req_amount r) sig1 0 [] o cp_tr); try done.
  cbn. lia.
Qed.

(** The nonces a user's builder holds belong together. *)
Definition nonces_match (b : CheckpointedArkoorBuilder CpState.UserGeneratedNonces) (sns : list SecretNonce) : Prop :=
  cp_user_sec_nonces b = Some sns /\ cp_user_pub_nonces b = Some (sec_to_pub_nonce <$> sns) /\
  length sns = nb_sigs b.

Lemma generate_nonces_core {E} b0 key rands b1 tr cp_tr txouts : cp_core b0 tr cp_tr txouts ->
  cp_generate_user_nonces (E:=E) b0 key rands = Ok b1 ->
  cp_core b1 tr cp_tr txouts /\ cp_input b1 = cp_input b0 /\ cp_outputs b1 = cp_outputs b0 /\
  exists sns, nonces_match b1 sns.
Proof.
  intros Hcore H. unfold cp_generate_user_nonces in H. apply bind_Ok in H as (ns & Hns & <-%Ok_inj).
  split; [by destruct Hcore; split|]. split; [done|]. split; [done|]. exists (fst <$> ns). split; [done|]. split.
  - cbn. f_equal. rewrite <- list_fmap_compose. apply mapM_outcome_Ok in Hns. clear Hcore.
    induction Hns as [|idx p idxs ps Hp _ IH]; [done|]. rewrite !fmap_cons. f_equal; [|done].
    apply bind_Ok in Hp as (sh & _ & <-%Ok_inj). apply new_nonce_pair_pub.
  - rewrite length_fmap, (mapM_length _ _ _ Hns), length_seq. done.
Qed.

(** The tweak of signature [idx] is that of the taproot whose output it spends. *)
Lemma sign_at_valid b key resp sns idx sn sh leaves ik :
  keypair_public_key key = vtxo_user_pubkey (cp_input b) ->
  nonces_match b sns -> validate_server_cosign_response b resp = Ok tt ->
  sns !! idx = Some sn -> sighashes b !! idx = Some sh ->
  ik = combine_keys [vtxo_user_pubkey (cp_input b); server_pubkey (cp_input b)] ->
  taptweak_at b idx = taproot_tap_tweak ik leaves ->
  exists sig, sign_at b key resp (idx, sn) = Ok sig /\
    verify_schnorr sig sh (taproot_output_key ik leaves) = true.
Proof.
  intros Hkey (Hsec & Hpub & Hlen) Hval Hsn Hsh -> Htw. unfold validate_server_cosign_response in Hval.
  apply bind_Ok in Hval as ([] & _ & Hval). apply bind_Ok in Hval as ([] & _ & Hval).
  apply bind_Ok in Hval as (us & Hus & _).
  destruct (mapM_lookup _ _ _ idx idx Hus) as (u & _ & Hv).
  { apply lookup_seq. split; [done|]. rewrite <- Hlen. by eapply lookup_lt_Some. }
  unfold verify_sig_at, index in Hv. rewrite Hsh, Hpub in Hv. cbn [expect mbind outcome_bind] in Hv.
  rewrite list_lookup_fmap, Hsn in Hv. cbn [fmap option_fmap option_map expect mbind outcome_bind] in Hv.
  apply bind_Ok in Hv as (n2 & Hn2%expect_Ok & Hv). apply bind_Ok in Hv as (ps & Hps%expect_Ok & Hv%ensure_Ok).
  rewrite Htw in Hv.
  destruct (partial_sign_final _ _ key n2 sn ps sh leaves Hkey Hv) as (ps1 & sig & Hsign & _ & Hsig).
  exists sig. split; [|done]. unfold sign_at, index. rewrite Hpub. cbn [expect mbind outcome_bind].
  rewrite list_lookup_fmap, Hsn. cbn [fmap option_fmap option_map expect mbind outcome_bind].
  rewrite Hn2. cbn [expect mbind outcome_bind]. rewrite Hsh. cbn [expect mbind outcome_bind]. rewrite Hps.
  cbn [expect mbind outcome_bind]. rewrite Htw, Hsign. done.
Qed.

(** Signature [idx] of the user is valid: the first for the checkpoint
    transaction, the others for the transactions behind it. *)
Lemma signatures_valid b tr cp_tr txouts key resp sns : cp_core b tr cp_tr txouts ->
  keypair_public_key key = vtxo_user_pubkey (cp_input b) ->
  nonces_match b sns -> validate_server_cosign_response b resp = Ok tt ->
  exists sigs, mapM (sign_at b key resp) (imap pair sns) = Ok sigs /\ length sigs = S (length (cp_outputs b)) /\
    (exists sig0, sigs !! O = Some sig0 /\
      verify_schnorr sig0 (key_spend_sighash (unsigned_checkpoint_tx b)
        (mkTxOut (amount (cp_input b)) (taproot_script_pubkey tr))) (output_key tr) = true) /\
    forall i r o, cp_outputs b !! i = Some r -> txouts !! i = Some o -> exists sig, sigs !! S i = Some sig /\
      verify_schnorr sig (key_spend_sighash (cp_arkoor_tx (unsigned_checkpoint_txid b) i o)
        (mkTxOut (req_amount r) (taproot_script_pubkey cp_tr))) (output_key cp_tr) = true.
Proof.
  intros Hcore Hkey Hn Hval. pose proof Hn as (_ & _ & Hlen). unfold nb_sigs in Hlen.
  assert (forall idx sn, sns !! idx = Some sn -> exists sh tr', sighashes b !! idx = Some sh /\
    (exists sig, sign_at b key resp (idx, sn) = Ok sig /\ verify_schnorr sig sh (output_key tr') = true) /\
    (idx = O -> tr' = tr) /\ (idx <> O -> tr' = cp_tr)) as Hsign.
  { intros idx sn Hsn. destruct Hcore as [_ _ Htr Hcp Htxouts _ _ Ht0 Ht1 Hh0 Hh _].
    pose proof (lookup_lt_Some _ _ _ Hsn) as Hidx. destruct idx as [|i].
    - eexists _, tr. split; [exact Hh0|]. split; [|done].
      eapply sign_at_valid; [done..|by apply (taproot_internal_key (E:=string) (policy (cp_input b)) _ _ _ _ Htr)|].
      unfold taptweak_at. rewrite bool_decide_true by done. rewrite Ht0. done.
    - destruct (lookup_lt_is_Some_2 (cp_outputs b) i ltac:(lia)) as [r Hr].
      destruct (request_txouts_lookup _ _ _ _ _ Htxouts Hr) as (o & Ho & _).
      eexists _, cp_tr. split; [exact (Hh i r o Hr Ho)|]. split; [|done].
      eapply sign_at_valid; [done|done|done|done| | |].
      + exact (Hh i r o Hr Ho).
      + apply (taproot_internal_key (E:=string) (new_checkpoint (vtxo_user_pubkey (cp_input b))) _ _ _ _ Hcp).
      + unfold taptweak_at. rewrite bool_decide_false by done. rewrite Ht1. done. }
  destruct (mapM_total (sign_at b key resp) (imap pair sns)) as [sigs Hsigs].
  { intros i [idx sn]. rewrite list_lookup_imap. destruct (sns !! i) eqn:Hi; [|done]. intros [= <- <-].
    destruct (Hsign i _ Hi) as (sh & tr' & _ & (sig & Hsig & _) & _). by exists sig. }
  assert (forall idx, (idx < length sns)%nat -> exists sh tr' sig, sighashes b !! idx = Some sh /\ sigs !! idx = Some sig /\
    verify_schnorr sig sh (output_key tr') = true /\ (idx = O -> tr' = tr) /\ (idx <> O -> tr' = cp_tr)) as Hall.
  { intros idx Hidx. destruct (lookup_lt_is_Some_2 sns idx Hidx) as [sn Hsn].
    destruct (Hsign idx sn Hsn) as (sh & tr' & Hsh & (sig & Hsig & Hv) & Htr').
    destruct (mapM_lookup _ _ _ idx (idx, sn) Hsigs) as (sig' & Hsig' & Heq); [by rewrite list_lookup_imap, Hsn|].
    exists sh, tr', sig. split_and!; try tauto. congruence. }
  exists sigs. split; [done|]. split; [rewrite (mapM_length _ _ _ Hsigs), length_imap; lia|]. split.
  - destruct (Hall O ltac:(lia)) as (sh & tr' & sig & Hsh & Hsig & Hv & H0 & _). rewrite (H0 eq_refl) in Hv.
    rewrite (core_hash0 _ _ _ _ Hcore) in Hsh. injection Hsh as <-. by exists sig.
  - intros i r o Hr Ho. pose proof (lookup_lt_Some _ _ _ Hr).
    destruct (Hall (S i) ltac:(lia)) as (sh & tr' & sig & Hsh & Hsig & Hv & _ & H1). rewrite (H1 ltac:(done)) in Hv.
    rewrite (core_hash _ _ _ _ Hcore i r o Hr Ho) in Hsh. injection Hsh as <-. by exists sig.
Qed.

(** With a verified response, signing and building succeed, see below. *)
Lemma checkpoint_good anchor_tx input outs b0 b1 key rands resp : good anchor_tx input ->
  cp_new input outs = Ok b0 -> (length outs <= 256)%nat ->
  cp_generate_user_nonces (E:=ArkoorSigningError) b0 key rands = Ok b1 ->
  keypair_public_key key = vtxo_user_pubkey input ->
  validate_server_cosign_response b1 resp = Ok tt ->
  exists b2 vtxos, user_cosign b1 key resp = Ok b2 /\
    build_signed_vtxos (E:=ArkoorSigningError) b2 = Ok vtxos /\ Forall (good anchor_tx) vtxos /\
    (fun v => mkRequest (amount v) (policy v)) <$> vtxos = outs.
Proof.
  intros Hgood Hnew Hlen Hgen Hkey Hval. apply cp_new_core in Hnew as (Hin & Houts & tr & cp_tr & txouts & Hcore).
  apply (generate_nonces_core _ _ _ _ _ _ _ Hcore) in Hgen as (Hcore1 & Hin1 & Houts1 & sns & Hn).
  rewrite Hin in Hin1. rewrite Houts in Houts1. subst input outs. rewrite <- Hin1, <- Houts1 in *.
  destruct (signatures_valid b1 tr cp_tr txouts key resp sns Hcore1 Hkey Hn Hval)
    as (sigs & Hsigs & Hl & (sig0 & Hs0 & Hv0) & Hrest).
  set (b2 := to_state CpState.UserSigned
    (mkCp (s := CpState.UserGeneratedNonces) (cp_input b1) (cp_outputs b1) (unsigned_checkpoint_tx b1)
       (unsigned_checkpoint_txid b1) (unsigned_arkoor_txs b1) (sighashes b1) (checkpoint_taptweak b1)
       (arkoor_taptweak b1) (new_vtxo_ids b1) (cp_user_pub_nonces b1) None
       (cp_server_pub_nonces b1) (cp_server_partial_sigs b1) (Some sigs))).
  assert (cp_core b2 tr cp_tr txouts) as Hcore2 by (by destruct Hcore1; split).
  assert (forall i r, cp_outputs b1 !! i = Some r -> exists sig v, drop 1 sigs !! i = Some sig /\
    (forall E, vtxo_at (E:=E) b2 i (Some sig0) (Some sig) = Ok v) /\ good anchor_tx v /\
    mkRequest (amount v) (policy v) = r) as Hvtxo.
  { intros i r Hr. destruct (request_txouts_lookup _ _ _ _ _ (core_txouts _ _ _ _ Hcore1) Hr) as (o & Ho & _).
    destruct (Hrest i r o Hr Ho) as (sig & Hsig & Hv).
    destruct (vtxo_at_good b2 tr cp_tr txouts anchor_tx i r o sig0 sig Hcore2) as (cv & v & _ & _ & Hvat & Hg & Hreq);
      [done..|]. exists sig, v. split_and!; try done. by rewrite lookup_drop. }
  destruct (mapM_total (fun i => arkoor_sig ← index (E:=ArkoorSigningError) (drop 1 sigs) i;
    vtxo_at b2 i (Some sig0) (Some arkoor_sig)) (seq 0 (nb_outputs b2))) as [vtxos Hvs].
  { intros i j [-> Hj]%lookup_seq. destruct (lookup_lt_is_Some_2 (cp_outputs b1) i Hj) as [r Hr].
    destruct (Hvtxo i r Hr) as (sig & v & Hsig & Hv & _). exists v. cbn [Nat.add]. unfold index.
    rewrite Hsig. cbn [expect mbind outcome_bind]. apply Hv. }
  assert (forall i r, cp_outputs b1 !! i = Some r -> exists v, vtxos !! i = Some v /\ good anchor_tx v /\
    mkRequest (amount v) (policy v) = r) as Hfin.
  { intros i r Hr. destruct (Hvtxo i r Hr) as (sig & v & Hsig & Hv & Hg & Hreq).
    destruct (mapM_lookup _ _ _ i i Hvs) as (v' & Hv' & Heq).
    { apply lookup_seq. split; [done|]. by eapply lookup_lt_Some. }
    unfold index in Heq. rewrite Hsig in Heq. cbn [expect mbind outcome_bind] in Heq. rewrite Hv in Heq.
    injection Heq as <-. by exists v. }
  pose proof (mapM_length _ _ _ Hvs) as Hvl. rewrite length_seq in Hvl. unfold nb_outputs in Hvl. cbn in Hvl.
  exists b2, vtxos. split; [|split; [|split]].
  - unfold user_cosign. rewrite bool_decide_true by done. cbn [ensure mbind outcome_bind]. rewrite Hval.
    cbn [mbind outcome_bind]. destruct Hn as (Hsec & _). rewrite Hsec. cbn [expect mbind outcome_bind].
    by rewrite Hsigs.
  - unfold build_signed_vtxos. cbn [full_signatures b2 to_state expect mbind outcome_bind]. unfold index.
    rewrite Hs0. cbn [expect mbind outcome_bind]. exact Hvs.
  - apply Forall_lookup. intros i v Hv. destruct (lookup_lt_is_Some_2 (cp_outputs b1) i) as [r Hr].
    { rewrite <- Hvl. by eapply lookup_lt_Some. }
    destruct (Hfin i r Hr) as (v' & Hv' & Hg & _). congruence.
  - apply list_eq. intros i. rewrite list_lookup_fmap. destruct (cp_outputs b1 !! i) as [r|] eqn:Hr.
    + destruct (Hfin i r Hr) as (v & -> & _ & Hreq). cbn. by f_equal.
    + rewrite lookup_ge_None_2; [done|]. rewrite Hvl. by apply lookup_ge_None.
Qed.

(** C7. Checkpointed payments preserve validity: when a good VTXO is spent by a
    request the builder accepts (exactly balanced, no dust) into at most 256
    outputs and the server's response passes the check, the user's signing
    succeeds and every VTXO it then builds validates against the anchor of the
    input, has the right id, and carries the requested policy and amount. *)
Theorem checkpoint_vtxos_good anchor_tx input outs b0 b1 key rands resp : good anchor_tx input ->
  cp_new input outs = Ok b0 -> (length outs <= 256)%nat ->
  cp_generate_user_nonces (E:=ArkoorSigningError) b0 key rands = Ok b1 ->
  keypair_public_key key = vtxo_user_pubkey input ->
  validate_server_cosign_response b1 resp = Ok tt ->
  exists b2 vtxos, user_cosign b1 key resp = Ok b2 /\
    build_signed_vtxos (E:=ArkoorSigningError) b2 = Ok vtxos /\ Forall (good anchor_tx) vtxos /\
    (fun v => mkRequest (amount v) (policy v)) <$> vtxos = outs.
Proof. apply checkpoint_good. Qed.

(** The server's answer to the user's request always passes the user's
    check: both sides derive the same transactions from the request. *)
Lemma checkpoint_cosign_accepted input outs b0 b1 user_key rands req sb sb' server_key srands resp :
  cp_new input outs = Ok b0 ->
  cp_generate_user_nonces (E:=ArkoorSigningError) b0 user_key rands = Ok b1 ->
  cosign_request (E:=ArkoorSigningError) b1 = Ok req -> from_cosign_request req = Ok sb ->
  cp_server_cosign sb server_key srands = Ok sb' ->
  cosign_response (E:=ArkoorSigningError) sb' = Ok resp ->
  validate_server_cosign_response b1 resp = Ok tt.
Proof.
  intros Hnew Hgen Hreq Hfrom Hcos Hresp. pose proof (cp_new_core _ _ _ Hnew) as (Hin & Houts & _).
  unfold cp_generate_user_nonces in Hgen. apply bind_Ok in Hgen as (ns & Hns & <-%Ok_inj).
  unfold cosign_request in Hreq. cbn in Hreq. injection Hreq as <-.
  unfold from_cosign_request in Hfrom. cbn [cr_input cr_outputs cr_user_pub_nonces] in Hfrom.
  rewrite Hin, Houts, Hnew in Hfrom. cbn [map_err mbind outcome_bind] in Hfrom.
  unfold set_user_pub_nonces in Hfrom. apply bind_Ok in Hfrom as ([] & _ & <-%Ok_inj).
  unfold cp_server_cosign in Hcos. apply bind_Ok in Hcos as ([] & Hkey%ensure_Ok%bool_decide_eq_true & Hcos).
  apply bind_Ok in Hcos as (ss & Hss & <-%Ok_inj). unfold cosign_response in Hresp. cbn in Hresp. injection Hresp as <-.
  pose proof (mapM_length _ _ _ Hss) as Hl. rewrite length_seq in Hl. cbn [nb_sigs to_state cp_outputs] in Hl.
  unfold validate_server_cosign_response. cbn [server_pub_nonces server_partial_sigs]. rewrite !length_fmap.
  unfold nb_sigs in *. cbn [to_state cp_outputs] in *.
  rewrite bool_decide_true by done. cbn [ensure mbind outcome_bind].
  match goal with |- context [mapM (verify_sig_at ?b ?d) ?l] =>
    destruct (mapM_total (verify_sig_at b d) l) as [us ->]; [|done] end.
  intros i j [-> Hj]%lookup_seq. cbn [Nat.add]. exists tt.
  destruct (mapM_lookup _ _ _ i i Hss) as ([pn ps] & Hps & Hf); [by apply lookup_seq|].
  cbn [to_state cp_user_pub_nonces sighashes cp_input expect mbind outcome_bind] in Hf. unfold index in Hf.
  apply bind_Ok in Hf as (n & Hn%expect_Ok & Hf). apply bind_Ok in Hf as (sh & Hsh%expect_Ok & Hf).
  unfold verify_sig_at, index. cbn [to_state cp_user_pub_nonces sighashes cp_input server_pub_nonces server_partial_sigs].
  rewrite Hsh. cbn [expect mbind outcome_bind]. rewrite !list_lookup_fmap, Hps. cbn. rewrite list_lookup_fmap in Hn.
  rewrite Hn. cbn [expect mbind outcome_bind].
  match type of Hf with Ok (deterministic_partial_sign ?k [?o] [?m] ?x (Some ?t) ?r) = _ =>
    pose proof (deterministic_partial_sign_verifies k o m x t r) as Hv; apply Ok_inj in Hf; rewrite Hf in Hv end.
  rewrite Hkey in Hv. cbn [to_state cp_input] in Hv.
  match goal with |- ensure ?b _ = _ => replace b with true by (symmetry; exact Hv) end. done.
Qed.
End CheckpointCorrect.

(** *** Witnesses *)
Definition cp_outs : list (VtxoRequest (B := model)) :=
  [mkRequest (B := model) 6000 (new_pubkey (B := model) Byte.x06);
   mkRequest (B := model) 3000 (new_pubkey (B := model) Byte.x07);
   mkRequest (B := model) 1000 (new_pubkey (B := model) Byte.x05)].
Definition cp_empty {s} : CheckpointedArkoorBuilder (B := model) s :=
  mkCp (B := model) board_vtxo [] (mkTx 0 0 [] []) [] [] [] [] [] [] None None None None None.
Definition cp_b0 : CheckpointedArkoorBuilder (B := model) CpState.Initial :=
  ok_value cp_empty (cp_new board_vtxo cp_outs).
Definition cp_b1 : CheckpointedArkoorBuilder (B := model) CpState.UserGeneratedNonces :=
  ok_value cp_empty (cp_generate_user_nonces (E := @ArkoorSigningError model) cp_b0 Byte.x05 (fun i => 20 + Z.of_nat i)).
Definition cp_req : CosignRequest (B := model) (Vtxo (B := model)) :=
  ok_value (mkCosignRequest (B := model) [] board_vtxo []) (cosign_request (E := @ArkoorSigningError model) cp_b1).
Definition cp_sb : CheckpointedArkoorBuilder (B := model) CpState.ServerCanCosign :=
  ok_value cp_empty (from_cosign_request cp_req).
Definition cp_sb' : CheckpointedArkoorBuilder (B := model) CpState.ServerSigned :=
  ok_value cp_empty (cp_server_cosign cp_sb Byte.x09 (fun i => 40 + Z.of_nat i)).
Definition cp_resp : CosignResponse (B := model) :=
  ok_value (mkCosignResponse (B := model) [] []) (cosign_response (E := @ArkoorSigningError model) cp_sb').

Lemma checkpoint_vtxos_good_witness : exists b2 vtxos, user_cosign cp_b1 Byte.x05 cp_resp = Ok b2 /\
  build_signed_vtxos (E := @ArkoorSigningError model) b2 = Ok vtxos /\ Forall (good board_funding_tx) vtxos /\
  (fun v => mkRequest (B := model) (amount v) (policy v)) <$> vtxos = cp_outs.
Proof.
  apply (checkpoint_vtxos_good (B := model) board_funding_tx board_vtxo cp_outs cp_b0 cp_b1 Byte.x05
    (fun i => 20 + Z.of_nat i) cp_resp board_vtxo_good); [vm_eq|cbn; lia|vm_eq|vm_eq|vm_eq].
Defined.
