(* ===== verification/SignedTree.v ===== *)
(** * Signed VTXO trees (lib/src/tree/signed.rs)

    A round pays many VTXOs from one funding output through a tree of
    pre-signed transactions.  This file models the specification of a tree, the
    construction of its transactions, the musig cosigning of all nodes by the
    owners of the leaves and the global signers, and the VTXOs that are read
    off a signed tree.

    A [HashMap] from public keys is its lookup function.  Error messages that
    the source formats are kept without their arguments. *)
From S2P Require Import Prelude Tree Bitcoin Encode Concrete Policy Vtxo Validation Board Extend Arkoor.

Open Scope Z_scope.

Section SignedTree.
Context `{B : Bitcoin}.

(** [SignedVtxoRequest] of lib/src/lib.rs. *)
Record SignedVtxoRequest := mkSignedRequest {
  sr_vtxo : VtxoRequest;
  cosign_pubkey : option PublicKey;
}.
#[export] Instance VtxoRequest_eq_dec : EqDecision VtxoRequest.
Proof. solve_decision. Defined.
#[export] Instance SignedVtxoRequest_eq_dec : EqDecision SignedVtxoRequest.
Proof. solve_decision. Defined.

Record VtxoTreeSpec := mkTreeSpec {
  ts_vtxos : list SignedVtxoRequest;
  ts_expiry_height : Z;
  ts_server_pubkey : PublicKey;
  ts_exit_delta : Z;
  global_cosign_pubkeys : list PublicKey;
}.

(** [slice[idx]]. *)
Definition at_idx {E A} (l : list A) (idx : nat) : outcome E A := expect (l !! idx).

(** ** [VtxoTreeSpec] *)
Definition tree_spec_new {E} (vtxos : list SignedVtxoRequest) (server_pubkey : PublicKey)
    (expiry_height exit_delta : Z) (global_cosign_pubkeys : list PublicKey) : outcome E VtxoTreeSpec :=
  _ ← assert (negb (bool_decide (length vtxos = O)));
  Ok (mkTreeSpec vtxos expiry_height server_pubkey exit_delta global_cosign_pubkeys).

Definition nb_leaves (s : VtxoTreeSpec) : nat := length (ts_vtxos s).
Definition spec_nb_nodes (s : VtxoTreeSpec) : option nat := nb_nodes_for_leaves (nb_leaves s).

Definition leaf_idx_of (s : VtxoTreeSpec) (r : SignedVtxoRequest) : option nat :=
  position (fun e => bool_decide (e = r)) (ts_vtxos s).

Definition total_required_value {E} (s : VtxoTreeSpec) : outcome E Z :=
  amount_sum ((fun d => req_amount (sr_vtxo d)) <$> ts_vtxos s).

Definition node_taproot {E} (s : VtxoTreeSpec) (agg_pk : XOnlyPublicKey) : outcome E Taproot :=
  cosign_taproot agg_pk (ts_server_pubkey s) (ts_expiry_height s).

Definition funding_tx_cosign_pubkey (s : VtxoTreeSpec) : XOnlyPublicKey :=
  combine_keys (omap cosign_pubkey (ts_vtxos s) ++ global_cosign_pubkeys s).

Definition funding_tx_script_pubkey {E} (s : VtxoTreeSpec) : outcome E bytes :=
  taproot_script_pubkey <$> node_taproot s (funding_tx_cosign_pubkey s).

Definition funding_tx_txout {E} (s : VtxoTreeSpec) : outcome E TxOut :=
  script ← funding_tx_script_pubkey s;
  v ← total_required_value s;
  Ok (mkTxOut v script).

(** [VtxoTreeSpec::node_tx]. *)
Definition node_txout {E} (s : VtxoTreeSpec) (child : Transaction * XOnlyPublicKey) : outcome E TxOut :=
  tr ← node_taproot s child.2;
  v ← output_value child.1;
  Ok (mkTxOut v (taproot_script_pubkey tr)).

Definition node_tx {E} (s : VtxoTreeSpec) (children : list (Transaction * XOnlyPublicKey))
  : outcome E Transaction :=
  outs ← mapM (node_txout s) children;
  Ok (mkTx 3 0 [mkTxIn null_outpoint [] 0 []] (outs ++ [fee_anchor])).

Definition leaf_tx {E} (s : VtxoTreeSpec) (vtxo : VtxoRequest) : outcome E Transaction :=
  script ← policy_script_pubkey (req_policy vtxo) (ts_server_pubkey s) (ts_exit_delta s) (ts_expiry_height s);
  Ok (create_exit_tx null_outpoint (mkTxOut (req_amount vtxo) script) None).

(** The keys that cosign a node: those of its leaves and the global ones. *)
Definition node_cosign_pubkeys {E} (s : VtxoTreeSpec) (node : Node) : outcome E (list PublicKey) :=
  vs ← mapM (at_idx (ts_vtxos s)) (leaves node);
  Ok (omap cosign_pubkey vs ++ global_cosign_pubkeys s).

Definition cosign_agg_pks {E} (s : VtxoTreeSpec) : outcome E (list XOnlyPublicKey) :=
  tree ← expect (new (nb_leaves s));
  mapM (fun node => combine_keys <$> node_cosign_pubkeys s node) (nodes tree).

(** The first loop of [unsigned_transactions]. *)
Definition build_node_tx {E} (s : VtxoTreeSpec) (agg_pks : list XOnlyPublicKey) (txs : list Transaction)
    (node : Node) : outcome E Transaction :=
  if is_leaf node then v ← at_idx (ts_vtxos s) (node_idx node); leaf_tx s (sr_vtxo v)
  else
    buf ← mapM (fun child => tx ← at_idx txs child; pk ← at_idx agg_pks child; Ok (tx, pk)) (children node);
    node_tx s buf.

Fixpoint build_txs {E} (s : VtxoTreeSpec) (agg_pks : list XOnlyPublicKey) (ns : list Node)
    (txs : list Transaction) : outcome E (list Transaction) :=
  match ns with
  | [] => Ok txs
  | node :: rest => tx ← build_node_tx s agg_pks txs node; build_txs s agg_pks rest (txs ++ [tx])
  end.

(** [txs[idx].input[0].previous_output = point]. *)
Definition set_prevout {E} (tx : Transaction) (point : OutPoint) : outcome E Transaction :=
  match input tx with
  | i :: rest =>
      Ok (mkTx (tx_version tx) (lock_time tx)
            (mkTxIn point (script_sig i) (sequence i) (witness i) :: rest) (output tx))
  | [] => Panic
  end.

Definition set_prevout_at {E} (txs : list Transaction) (idx : nat) (point : OutPoint)
  : outcome E (list Transaction) :=
  tx ← at_idx txs idx;
  tx' ← set_prevout tx point;
  Ok (<[idx := tx']> txs).

Fixpoint set_children {E} (txid : bytes) (i : nat) (cs : list nat) (txs : list Transaction)
  : outcome E (list Transaction) :=
  match cs with
  | [] => Ok txs
  | child :: rest =>
      txs ← set_prevout_at txs child (mkOutPoint txid (Z.of_nat i));
      set_children txid (S i) rest txs
  end.

(** The second loop: from the root down. *)
Fixpoint set_prevouts {E} (ns : list Node) (txs : list Transaction) : outcome E (list Transaction) :=
  match ns with
  | [] => Ok txs
  | node :: rest =>
      tx ← at_idx txs (node_idx node);
      txs ← set_children (compute_txid tx) 0 (children node) txs;
      set_prevouts rest txs
  end.

Definition unsigned_transactions {E} (s : VtxoTreeSpec) (utxo : OutPoint) : outcome E (list Transaction) :=
  tree ← expect (new (nb_leaves s));
  agg_pks ← cosign_agg_pks s;
  txs ← build_txs s agg_pks (nodes tree) [];
  txs ← set_prevout_at txs (pred (length txs)) utxo;
  set_prevouts (reverse (nodes tree)) txs.

(** [tx.input[0].witness.push(sig)] on the transactions that have a signature. *)
Definition push_signature {E} (tx : Transaction) (sig : Signature) : outcome E Transaction :=
  match input tx with
  | i :: rest => Ok (mkTx (tx_version tx) (lock_time tx) (push_sig i sig :: rest) (output tx))
  | [] => Panic
  end.

Fixpoint push_signatures {E} (txs : list Transaction) (sigs : list Signature) : outcome E (list Transaction) :=
  match txs, sigs with
  | tx :: txs, sig :: sigs =>
      tx ← push_signature tx sig; rest ← push_signatures txs sigs; Ok (tx :: rest)
  | txs, _ => Ok txs
  end.

Definition signed_transactions {E} (s : VtxoTreeSpec) (utxo : OutPoint) (signatures : list Signature)
  : outcome E (list Transaction) :=
  txs ← unsigned_transactions s utxo;
  push_signatures txs signatures.

Definition KeyMap (A : Type) : Type := PublicKey -> option A.

Definition calculate_cosign_agg_nonces (s : VtxoTreeSpec) (leaf_cosign_nonces : KeyMap (list PublicNonce))
    (global_signer_cosign_nonces : list (list PublicNonce)) : outcome string (list AggregatedNonce) :=
  _ ← ensure (bool_decide (length global_signer_cosign_nonces = length (global_cosign_pubkeys s)))
        "missing global signer nonces"%string;
  tree ← expect (new (nb_leaves s));
  mapM (fun p : nat * Node =>
    vs ← mapM (at_idx (ts_vtxos s)) (leaves p.2);
    leaf_nonces ← mapM (fun pk =>
      ns ← ok_or (leaf_cosign_nonces pk) "missing nonces for leaf pk"%string;
      ok_or (ns !! node_level p.2) "not enough nonces for leaf_pk"%string) (omap cosign_pubkey vs);
    global_nonces ← mapM (fun glob : list PublicNonce =>
      ok_or (glob !! p.1) "not enough global cosign nonces"%string) global_signer_cosign_nonces;
    Ok (nonce_agg (leaf_nonces ++ global_nonces))) (imap pair (nodes tree)).

(** ** [UnsignedVtxoTree] *)
Record UnsignedVtxoTree := mkUnsignedTree {
  ut_spec : VtxoTreeSpec;
  ut_utxo : OutPoint;
  ut_cosign_agg_pks : list XOnlyPublicKey;
  ut_txs : list Transaction;
  ut_sighashes : list bytes;
  ut_tree : Tree;
}.

(** The output a node's transaction spends. *)
Definition node_prevout {E} (tree : Tree) (txs : list Transaction) (root_txout : TxOut) (node : Node)
  : outcome E TxOut :=
  r ← expect (parent_idx_of_with_sibling_idx tree (node_idx node));
  match r with
  | Some (parent, sibling_idx) =>
      _ ← assert (negb (is_root node));
      tx ← at_idx txs parent;
      at_idx (output tx) sibling_idx
  | None => _ ← assert (is_root node); Ok root_txout
  end.

Definition unsigned_tree_new {E} (spec : VtxoTreeSpec) (utxo : OutPoint) : outcome E UnsignedVtxoTree :=
  tree ← expect (new (nb_leaves spec));
  agg_pks ← cosign_agg_pks spec;
  txs ← unsigned_transactions spec utxo;
  root_txout ← funding_tx_txout spec;
  sighashes ← mapM (fun node =>
    prev ← node_prevout tree txs root_txout node;
    tx ← at_idx txs (node_idx node);
    Ok (key_spend_sighash tx prev)) (nodes tree);
  Ok (mkUnsignedTree spec utxo agg_pks txs sighashes tree).

Definition into_unsigned_tree {E} (spec : VtxoTreeSpec) (utxo : OutPoint) : outcome E UnsignedVtxoTree :=
  unsigned_tree_new spec utxo.

(** [loop { let next = iter.next()..; if next.0 == level { break next.1 } }] on
    an enumerated vector: the items up to the level's one are consumed. *)
Fixpoint skip_to {A} (level : nat) (iter : list (nat * A)) : option (A * list (nat * A)) :=
  match iter with
  | [] => None
  | (i, x) :: rest => if bool_decide (i = level) then Some (x, rest) else skip_to level rest
  end.

(** The taproot tweak of a node's input. *)
Definition node_tweak {E} (u : UnsignedVtxoTree) (node : Node) : outcome E bytes :=
  agg_pk ← at_idx (ut_cosign_agg_pks u) (node_idx node);
  tap_tweak <$> node_taproot (ut_spec u) agg_pk.

(** The call of [musig::partial_sign] for one node. *)
Definition node_partial_sign {E} (u : UnsignedVtxoTree) (agg_nonces : list AggregatedNonce) (key : Keypair)
    (node : Node) (sec_nonce : SecretNonce) : outcome E PartialSignature :=
  pubkeys ← node_cosign_pubkeys (ut_spec u) node;
  sighash ← at_idx (ut_sighashes u) (node_idx node);
  tweak ← node_tweak u node;
  agg_nonce ← at_idx agg_nonces (node_idx node);
  Ok (partial_sign pubkeys agg_nonce key sec_nonce sighash (Some tweak) None).1.

Fixpoint cosign_branch_loop {E} (u : UnsignedVtxoTree) (agg_nonces : list AggregatedNonce) (key : Keypair)
    (branch : list Node) (nonces : list (nat * SecretNonce)) : outcome E (list PartialSignature) :=
  match branch with
  | [] => Ok []
  | node :: rest =>
      r ← expect (skip_to (node_level node) nonces);
      sig ← node_partial_sign u agg_nonces key node r.1;
      sigs ← cosign_branch_loop u agg_nonces key rest r.2;
      Ok (sig :: sigs)
  end.

Definition cosign_branch (u : UnsignedVtxoTree) (cosign_agg_nonces : list AggregatedNonce) (leaf_idx : nat)
    (cosign_key : Keypair) (cosign_sec_nonces : list SecretNonce)
  : outcome IncorrectSigningKeyError (list PartialSignature) :=
  req ← expect (ts_vtxos (ut_spec u) !! leaf_idx);
  _ ← ensure (bool_decide (Some (keypair_public_key cosign_key) = cosign_pubkey req))
        (mkIncorrectKey _ (cosign_pubkey req) (keypair_public_key cosign_key));
  cosign_branch_loop u cosign_agg_nonces cosign_key (iter_branch (ut_tree u) leaf_idx)
    (imap pair cosign_sec_nonces).

Definition cosign_tree {E} (u : UnsignedVtxoTree) (cosign_agg_nonces : list AggregatedNonce) (keypair : Keypair)
    (cosign_sec_nonces : list SecretNonce) : outcome E (list PartialSignature) :=
  _ ← assert (bool_decide (length cosign_agg_nonces = nb_nodes (ut_tree u)));
  _ ← assert (bool_decide (length cosign_sec_nonces = nb_nodes (ut_tree u)));
  mapM (fun p : Node * SecretNonce =>
    agg_pk ← at_idx (ut_cosign_agg_pks u) (node_idx p.1);
    pubkeys ← node_cosign_pubkeys (ut_spec u) p.1;
    _ ← assert (bool_decide (agg_pk = combine_keys pubkeys));
    node_partial_sign u cosign_agg_nonces keypair p.1 p.2) (zip (nodes (ut_tree u)) cosign_sec_nonces).

Inductive CosignSignatureError :=
  | MissingSignature (pk : PublicKey)
  | InvalidSignature (pk : PublicKey)
  | NotEnoughNonces
  | InvalidCosign (msg : string).

Definition verify_node_cosign_partial_sig (u : UnsignedVtxoTree) (node : Node) (pk : PublicKey)
    (agg_nonces : list AggregatedNonce) (part_sig : PartialSignature) (pub_nonce : PublicNonce)
  : outcome CosignSignatureError unit :=
  pubkeys ← node_cosign_pubkeys (ut_spec u) node;
  sighash ← at_idx (ut_sighashes u) (node_idx node);
  tweak ← node_tweak u node;
  agg_nonce ← ok_or (agg_nonces !! node_idx node) NotEnoughNonces;
  ensure (session_partial_verify (sort_keys pubkeys) (Some tweak) agg_nonce sighash part_sig pub_nonce pk)
    (InvalidSignature pk).

Fixpoint verify_branch_loop (u : UnsignedVtxoTree) (agg_nonces : list AggregatedNonce) (pk : PublicKey)
    (branch : list Node) (nonces : list (nat * PublicNonce)) (sigs : list PartialSignature)
  : outcome string unit :=
  match branch with
  | [] => Ok tt
  | node :: rest =>
      r ← ok_or (skip_to (node_level node) nonces) "not enough pub nonces"%string;
      sig ← ok_or (head sigs) "not enough sigs"%string;
      _ ← map_err (fun _ => "part sig verification failed"%string)
            (verify_node_cosign_partial_sig u node pk agg_nonces sig r.1);
      verify_branch_loop u agg_nonces pk rest r.2 (tail sigs)
  end.

Definition verify_branch_cosign_partial_sigs (u : UnsignedVtxoTree) (cosign_agg_nonces : list AggregatedNonce)
    (request : SignedVtxoRequest) (cosign_pub_nonces : list PublicNonce)
    (cosign_part_sigs : list PartialSignature) : outcome string unit :=
  _ ← assert (bool_decide (length cosign_agg_nonces = nb_nodes (ut_tree u)));
  pk ← ok_or (cosign_pubkey request) "no cosign pubkey for request"%string;
  leaf_idx ← ok_or (leaf_idx_of (ut_spec u) request) "request not in tree"%string;
  let branch := iter_branch (ut_tree u) leaf_idx in
  match (length branch ?= length cosign_part_sigs)%nat with
  | Lt => Err "too few partial signatures"%string
  | Gt => Err "too many partial signatures"%string
  | Eq =>
      verify_branch_loop u cosign_agg_nonces pk branch (imap pair cosign_pub_nonces) cosign_part_sigs
  end.

Definition verify_global_cosign_partial_sigs (u : UnsignedVtxoTree) (pk : PublicKey)
    (agg_nonces : list AggregatedNonce) (pub_nonces : list PublicNonce) (part_sigs : list PartialSignature)
  : outcome CosignSignatureError unit :=
  (fun _ => tt) <$> mapM (fun node =>
    sig ← ok_or (part_sigs !! node_idx node) (MissingSignature pk);
    pub_nonce ← ok_or (pub_nonces !! node_idx node) NotEnoughNonces;
    verify_node_cosign_partial_sig u node pk agg_nonces sig pub_nonce) (nodes (ut_tree u)).

(** [leaf_part_sigs.get_mut(&pk)?.pop_front()?] for the leaves of a node. *)
Definition set_key {A} (m : KeyMap A) (pk : PublicKey) (a : A) : KeyMap A :=
  fun k => if decide (k = pk) then Some a else m k.

Fixpoint pop_leaf_sigs (s : VtxoTreeSpec) (ls : list nat) (m : KeyMap (list PartialSignature))
  : outcome CosignSignatureError (list PublicKey * list PartialSignature * KeyMap (list PartialSignature)) :=
  match ls with
  | [] => Ok ([], [], m)
  | leaf :: rest =>
      v ← at_idx (ts_vtxos s) leaf;
      match cosign_pubkey v with
      | None => pop_leaf_sigs s rest m
      | Some pk =>
          queue ← ok_or (m pk) (MissingSignature pk);
          sig ← ok_or (head queue) (MissingSignature pk);
          r ← pop_leaf_sigs s rest (set_key m pk (tail queue));
          Ok (pk :: r.1.1, sig :: r.1.2, r.2)
      end
  end.

Fixpoint combine_loop (u : UnsignedVtxoTree) (agg_nonces : list AggregatedNonce)
    (global_sigs : list (list PartialSignature)) (idx : nat) (ns : list Node)
    (m : KeyMap (list PartialSignature)) : outcome CosignSignatureError (list Signature) :=
  match ns with
  | [] => Ok []
  | node :: rest =>
      r ← pop_leaf_sigs (ut_spec u) (leaves node) m;
      globals ← mapM (fun sigs : list PartialSignature => expect (sigs !! idx)) global_sigs;
      tweak ← node_tweak u node;
      agg_nonce ← ok_or (agg_nonces !! node_idx node) NotEnoughNonces;
      sighash ← at_idx (ut_sighashes u) (node_idx node);
      let sig := combine_partial_signatures (r.1.1 ++ global_cosign_pubkeys (ut_spec u)) agg_nonce sighash
                   (Some tweak) (r.1.2 ++ globals) in
      sigs ← combine_loop u agg_nonces global_sigs (S idx) rest r.2;
      Ok (sig :: sigs)
  end.

Definition tree_combine_partial_signatures (u : UnsignedVtxoTree) (cosign_agg_nonces : list AggregatedNonce)
    (leaf_part_sigs : KeyMap (list PartialSignature)) (global_signer_part_sigs : list (list PartialSignature))
  : outcome CosignSignatureError (list Signature) :=
  _ ← ensure (bool_decide (length global_signer_part_sigs = length (global_cosign_pubkeys (ut_spec u))))
        (InvalidCosign "invalid nb of global cosigner partial signatures");
  _ ← mapM (fun p : PublicKey * list PartialSignature =>
        ensure (bool_decide (length p.2 = nb_nodes (ut_tree u))) (MissingSignature p.1))
      (zip (global_cosign_pubkeys (ut_spec u)) global_signer_part_sigs);
  combine_loop u cosign_agg_nonces global_signer_part_sigs 0 (nodes (ut_tree u)) leaf_part_sigs.

Definition verify_cosign_sigs (u : UnsignedVtxoTree) (signatures : list Signature)
  : outcome XOnlyPublicKey unit :=
  (fun _ => tt) <$> mapM (fun node =>
    sighash ← at_idx (ut_sighashes u) (node_idx node);
    agg_pk ← at_idx (ut_cosign_agg_pks u) (node_idx node);
    tr ← node_taproot (ut_spec u) agg_pk;
    sig ← ok_or (signatures !! node_idx node) (output_key tr);
    ensure (verify_schnorr sig sighash (output_key tr)) (output_key tr)) (nodes (ut_tree u)).

(** ** [SignedVtxoTreeSpec] and [CachedSignedVtxoTree] *)
Record SignedVtxoTreeSpec := mkSignedTree {
  st_spec : VtxoTreeSpec;
  st_utxo : OutPoint;
  cosign_sigs : list Signature;
}.

Definition into_signed_tree (u : UnsignedVtxoTree) (signatures : list Signature) : SignedVtxoTreeSpec :=
  mkSignedTree (ut_spec u) (ut_utxo u) signatures.

Definition all_signed_txs {E} (st : SignedVtxoTreeSpec) : outcome E (list Transaction) :=
  signed_transactions (st_spec st) (st_utxo st) (cosign_sigs st).

(** The transactions of a branch, from the root to the leaf. *)
Definition branch_txs {E} (s : VtxoTreeSpec) (txs : list Transaction) (leaf_idx : nat)
  : outcome E (option (list Transaction)) :=
  if (nb_leaves s <=? leaf_idx)%nat then Ok None
  else
    tree ← expect (new (nb_leaves s));
    ret ← mapM (fun n => at_idx txs (node_idx n)) (iter_branch tree leaf_idx);
    Ok (Some (reverse ret)).

Definition exit_branch {E} (st : SignedVtxoTreeSpec) (leaf_idx : nat) : outcome E (option (list Transaction)) :=
  txs ← all_signed_txs st;
  branch_txs (st_spec st) txs leaf_idx.

Record CachedSignedVtxoTree := mkCachedTree { ct_spec : SignedVtxoTreeSpec; ct_txs : list Transaction }.

Definition into_cached_tree {E} (st : SignedVtxoTreeSpec) : outcome E CachedSignedVtxoTree :=
  txs ← all_signed_txs st;
  Ok (mkCachedTree st txs).

Definition cached_exit_branch {E} (c : CachedSignedVtxoTree) (leaf_idx : nat)
  : outcome E (option (list Transaction)) :=
  branch_txs (st_spec (ct_spec c)) (ct_txs c) leaf_idx.

(** One iteration of the loop of [build_vtxo]. *)
Definition genesis_item {E} (c : CachedSignedVtxoTree) (last_node : option nat) (node : Node)
  : outcome E GenesisItem :=
  pubkeys ← node_cosign_pubkeys (st_spec (ct_spec c)) node;
  signature ← expect (cosign_sigs (ct_spec c) !! node_idx node);
  output_idx ←
    (match last_node with
     | Some last => (fun i => Z.of_nat i mod 2 ^ 8) <$> expect (position (fun child => bool_decide (last = child)) (children node))
     | None => Ok 0
     end);
  tx ← expect (ct_txs c !! node_idx node);
  let other_outputs :=
    omap (fun p : nat * TxOut =>
            if negb (is_p2a_fee_anchor p.2) && negb (bool_decide (Z.of_nat p.1 = output_idx)) then Some p.2 else None)
      (imap pair (output tx)) in
  Ok (mkItem (Cosigned pubkeys signature) output_idx other_outputs).

Fixpoint genesis_loop {E} (c : CachedSignedVtxoTree) (last_node : option nat) (branch : list Node)
  : outcome E (list GenesisItem) :=
  match branch with
  | [] => Ok []
  | node :: rest =>
      item ← genesis_item c last_node node;
      items ← genesis_loop c (Some (node_idx node)) rest;
      Ok (item :: items)
  end.

Definition build_vtxo {E} (c : CachedSignedVtxoTree) (leaf_idx : nat) : outcome E (option Vtxo) :=
  let spec := st_spec (ct_spec c) in
  match ts_vtxos spec !! leaf_idx with
  | None => Ok None
  | Some req =>
      tree ← expect (new (nb_leaves spec));
      items ← genesis_loop c None (iter_branch tree leaf_idx);
      leaf_tx ← expect (ct_txs c !! leaf_idx);
      Ok (Some (mkVtxo (req_policy (sr_vtxo req)) (req_amount (sr_vtxo req)) (ts_expiry_height spec)
                  (ts_server_pubkey spec) (ts_exit_delta spec) (st_utxo (ct_spec c)) (reverse items)
                  (mkOutPoint (compute_txid leaf_tx) 0)))
  end.

(** [all_vtxos], collected. *)
Definition all_vtxos {E} (c : CachedSignedVtxoTree) : outcome E (list Vtxo) :=
  mapM (fun idx => v ← build_vtxo c idx; expect v) (seq 0 (nb_leaves (st_spec (ct_spec c)))).
End SignedTree.

Arguments SignedVtxoRequest {B}.
Arguments VtxoTreeSpec {B}.
Arguments UnsignedVtxoTree {B}.
Arguments SignedVtxoTreeSpec {B}.
Arguments CachedSignedVtxoTree {B}.
Arguments KeyMap {B} A.
