(* ===== verification/TreeTxs.v ===== *)
(** * The transactions of a VTXO tree

    [VtxoTreeSpec::unsigned_transactions] and [UnsignedVtxoTree::new] in closed
    form: for a well-formed specification they return, the transaction of a node
    spends the output its parent makes for it (the root spends the funding
    output), it passes on exactly the value of the leaves below it, and the
    sighash stored for it commits to that output. *)
From S2P Require Import Prelude Tree Bitcoin Encode Concrete Policy Vtxo Validation Board Extend Arkoor SignedTree.

Open Scope Z_scope.

Section TreeTxs.
Context `{B : Bitcoin}.

(** The scripts below only fail by a panic, which a well-formed specification
    excludes. *)
Definition exp_script (s : VtxoTreeSpec) : Script :=
  ok_value [] (expiry_clause (E:=unit) (ts_server_pubkey s) (ts_expiry_height s)).
Definition leaf_script (s : VtxoTreeSpec) (r : VtxoRequest) : bytes :=
  ok_value [] (policy_script_pubkey (E:=unit) (req_policy r) (ts_server_pubkey s) (ts_exit_delta s) (ts_expiry_height s)).
Definition leaf_out (s : VtxoTreeSpec) (r : VtxoRequest) : TxOut := mkTxOut (req_amount r) (leaf_script s r).

Definition request_ok (s : VtxoTreeSpec) (r : SignedVtxoRequest) : Prop :=
  0 <= req_amount (sr_vtxo r) /\
  exists sc, policy_script_pubkey (E:=unit) (req_policy (sr_vtxo r)) (ts_server_pubkey s) (ts_exit_delta s)
    (ts_expiry_height s) = Ok sc.

(** There is a leaf, the expiry height is a lock time, the policies of the
    leaves have scripts and the amounts add up to at most 64 bits. *)
Record spec_ok (s : VtxoTreeSpec) : Prop := {
  so_nonempty : (0 < nb_leaves s)%nat;
  so_expiry : is_Some (locktime_from_height (ts_expiry_height s));
  so_requests : Forall (request_ok s) (ts_vtxos s);
  so_total : sum_Z ((fun r => req_amount (sr_vtxo r)) <$> ts_vtxos s) < 2 ^ 64;
}.

Definition leaf_amount (s : VtxoTreeSpec) (l : nat) : Z :=
  default 0 ((fun r => req_amount (sr_vtxo r)) <$> ts_vtxos s !! l).
Definition leaf_key (s : VtxoTreeSpec) (l : nat) : option PublicKey := ts_vtxos s !! l ≫= cosign_pubkey.
Definition node_keys (s : VtxoTreeSpec) (ls : list nat) : list PublicKey :=
  omap (leaf_key s) ls ++ global_cosign_pubkeys s.
Definition leaves_value (s : VtxoTreeSpec) (ls : list nat) : Z := sum_Z (leaf_amount s <$> ls).

Definition node_tr (s : VtxoTreeSpec) (pk : XOnlyPublicKey) : Taproot := mkTaproot pk [(0%nat, exp_script s)].

(** The output that the transaction over the leaves [ls] spends. *)
Definition cosign_out (s : VtxoTreeSpec) (ls : list nat) : TxOut :=
  mkTxOut (leaves_value s ls) (taproot_script_pubkey (node_tr s (combine_keys (node_keys s ls)))).

Definition node_outs (s : VtxoTreeSpec) (t : Tree) (nd : Node) : list TxOut :=
  if is_leaf nd then from_option (fun r => [leaf_out s (sr_vtxo r)]) [] (ts_vtxos s !! node_idx nd)
  else (fun c => cosign_out s (leaves_at t c)) <$> children nd.

Definition unsigned_tx (p : OutPoint) (outs : list TxOut) : Transaction :=
  mkTx 3 0 [mkTxIn p [] 0 []] (outs ++ [fee_anchor]).

(** Node [i]'s transaction has the right outputs. *)
Definition outs_at (s : VtxoTreeSpec) (t : Tree) (txs : list Transaction) (i : nat) (p : OutPoint) : Prop :=
  exists nd, nodes t !! i = Some nd /\ txs !! i = Some (unsigned_tx p (node_outs s t nd)).

(** [p] is output [k] of the transaction of node [i]'s parent, where [k] is the
    place of [i] among the children, or the funding outpoint for the root. *)
Definition prev_at (utxo : OutPoint) (t : Tree) (txs : list Transaction) (i : nat) (p : OutPoint) : Prop :=
  match parent_idx_of t i with
  | None => p = utxo
  | Some par => exists np k ptx, nodes t !! par = Some np /\ children np !! k = Some i /\
      txs !! par = Some ptx /\ p = mkOutPoint (compute_txid ptx) (Z.of_nat k)
  end.

Record txs_ok (s : VtxoTreeSpec) (utxo : OutPoint) (t : Tree) (txs : list Transaction) : Prop := {
  to_length : length txs = nb_nodes t;
  to_tx : forall i, (i < nb_nodes t)%nat -> exists p, outs_at s t txs i p /\ prev_at utxo t txs i p;
}.

Lemma at_idx_Some {E A} (l : list A) i a : l !! i = Some a -> at_idx (E:=E) l i = Ok a.
Proof. unfold at_idx. by intros ->. Qed.

Section Spec.
Context (s : VtxoTreeSpec) (Hs : spec_ok s) (t : Tree) (Hnew : new (nb_leaves s) = Some t).
Let n := nb_leaves s.

Lemma Hpos : (0 < n)%nat.
Proof. apply Hs. Qed.
Lemma Htree : tree_ok n t.
Proof. by apply new_tree_ok. Qed.

Lemma node_taproot_Ok {E} pk : node_taproot (E:=E) s pk = Ok (node_tr s pk).
Proof.
  unfold node_taproot, node_tr, cosign_taproot, exp_script, expiry_clause, timelock_sign.
  destruct (so_expiry _ Hs) as [lt ->]. done.
Qed.

Lemma policy_script_Ok {E} l r : ts_vtxos s !! l = Some r ->
  policy_script_pubkey (E:=E) (req_policy (sr_vtxo r)) (ts_server_pubkey s) (ts_exit_delta s) (ts_expiry_height s)
  = Ok (leaf_script s (sr_vtxo r)).
Proof.
  intros Hr. destruct (Forall_lookup_1 _ _ _ _ (so_requests _ Hs) Hr) as [_ [sc Hsc]].
  unfold leaf_script. rewrite Hsc. cbn. unfold policy_script_pubkey in *. apply fmap_Ok in Hsc as (tr & Htr & ->).
  pose proof (input_taproot_err (E:=unit) (F:=E) (Arkoor (req_policy (sr_vtxo r)) None) _ _ _ _ Htr) as Htr'.
  cbn in Htr'. by rewrite Htr'.
Qed.

Lemma leaf_bound i nd l : nodes t !! i = Some nd -> l ∈ leaves nd -> (l < n)%nat.
Proof.
  intros Hnd Hl. apply (leaves_at_lt n t Hpos Htree l i). unfold leaves_at. by rewrite Hnd.
Qed.

Lemma leaf_request l : (l < n)%nat -> exists r, ts_vtxos s !! l = Some r.
Proof. apply lookup_lt_is_Some_2. Qed.

Lemma leaf_requests_Ok {E} i nd : nodes t !! i = Some nd ->
  exists vs, mapM (at_idx (E:=E) (ts_vtxos s)) (leaves nd) = Ok vs /\
    omap cosign_pubkey vs = omap (leaf_key s) (leaves nd).
Proof.
  intros Hnd. assert (Forall (fun l => (l < n)%nat) (leaves nd)) as Hl.
  { apply Forall_forall. intros l Hl. eauto using leaf_bound. }
  induction Hl as [|l ls Hlt _ (vs & Hvs & Hom)]; [by eexists|]. destruct (leaf_request l Hlt) as [r Hr].
  exists (r :: vs). cbn [mapM]. rewrite (at_idx_Some _ _ _ Hr). cbn. rewrite Hvs. cbn. split; [done|].
  unfold leaf_key at 1. rewrite Hr. cbn. by rewrite Hom.
Qed.

Lemma node_cosign_pubkeys_Ok {E} i nd : nodes t !! i = Some nd ->
  node_cosign_pubkeys (E:=E) s nd = Ok (node_keys s (leaves nd)).
Proof.
  intros Hnd. unfold node_cosign_pubkeys, node_keys. destruct (leaf_requests_Ok (E:=E) i nd Hnd) as (vs & -> & Hvs).
  cbn. by rewrite Hvs.
Qed.

Definition agg_pk_of (nd : Node) : XOnlyPublicKey := combine_keys (node_keys s (leaves nd)).

Lemma cosign_agg_pks_Ok {E} : cosign_agg_pks (E:=E) s = Ok (agg_pk_of <$> nodes t).
Proof.
  unfold cosign_agg_pks. rewrite Hnew. cbn. apply mapM_outcome_Ok, Forall2_fmap_r, Forall_Forall2_diag.
  apply Forall_lookup. intros i nd Hnd. by rewrite (node_cosign_pubkeys_Ok i nd Hnd).
Qed.

Lemma leaf_amount_nonneg l : 0 <= leaf_amount s l.
Proof.
  unfold leaf_amount. destruct (ts_vtxos s !! l) as [r|] eqn:Hr; cbn; [|lia].
  by destruct (Forall_lookup_1 _ _ _ _ (so_requests _ Hs) Hr).
Qed.

Lemma leaves_value_nonneg ls : 0 <= leaves_value s ls.
Proof. apply sum_Z_nonneg, Forall_fmap, Forall_true. intros l. apply leaf_amount_nonneg. Qed.

Lemma amounts_leaves : (fun r => req_amount (sr_vtxo r)) <$> ts_vtxos s = leaf_amount s <$> seq 0 n.
Proof.
  apply list_eq. intros i. rewrite !list_lookup_fmap. destruct (decide (i < n)%nat) as [Hi|Hi].
  - rewrite lookup_seq_lt by done. cbn. unfold leaf_amount. by destruct (leaf_request i Hi) as [r ->].
  - rewrite (lookup_ge_None_2 (ts_vtxos s)), lookup_seq_ge by (unfold n, nb_leaves in *; lia). done.
Qed.

Lemma leaves_value_total : leaves_value s (seq 0 n) = sum_Z ((fun r => req_amount (sr_vtxo r)) <$> ts_vtxos s).
Proof. by rewrite amounts_leaves. Qed.

Lemma leaves_value_app a b : leaves_value s (a ++ b) = leaves_value s a + leaves_value s b.
Proof. unfold leaves_value. by rewrite fmap_app, sum_Z_app. Qed.

Lemma leaves_value_bound i : (i < nb_nodes t)%nat -> 0 <= leaves_value s (leaves_at t i) < 2 ^ 64.
Proof.
  intros Hi. split; [apply leaves_value_nonneg|].
  assert (leaves_at t i ⊆+ seq 0 n) as (k & Hk)%submseteq_Permutation.
  { apply NoDup_submseteq; [apply (leaves_NoDup n t Hpos Htree)|]. intros l Hl. apply elem_of_seq.
    destruct (node_at t i Hi) as [nd Hnd]. unfold leaves_at in Hl. rewrite Hnd in Hl. cbn in Hl.
    pose proof (leaf_bound i nd l Hnd Hl). lia. }
  pose proof (so_total _ Hs). rewrite <- leaves_value_total in *.
  assert (leaves_value s (seq 0 n) = leaves_value s (leaves_at t i ++ k)) as Heq
    by (apply sum_Z_perm; by rewrite Hk).
  rewrite Heq, leaves_value_app in *. pose proof (leaves_value_nonneg k). lia.
Qed.
Lemma child_bound i nd c : nodes t !! i = Some nd -> c ∈ children nd ->
  (c < i /\ i < nb_nodes t /\ parent_idx_of t c = Some i)%nat.
Proof.
  intros Hnd Hc. pose proof (lookup_lt_Some _ _ _ Hnd) as Hi. pose proof Hpos. pose proof Htree.
  rewrite (children_at n t Hpos Htree i nd Hnd) in Hc.
  destruct (Nat.ltb_spec i n) as [|Hge]; [by apply elem_of_nil in Hc|]. apply list_elem_of_In in Hc.
  apply (kids_parent n t Hpos Htree) in Hc as [Hlt Hp]; [|done].
  pose proof (parent_lt n t Hpos Htree c Hlt). destruct (node_at t c ltac:(lia)) as [cn Hcn].
  unfold parent_idx_of. rewrite Hcn. cbn. rewrite (parent_at n t Htree _ _ Hcn).
  destruct (Nat.ltb_spec c (nb_nodes t - 1)); [|lia]. rewrite <- Hp. by split_and!; [lia|..].
Qed.

Lemma parent_child i par np : parent_idx_of t i = Some par -> nodes t !! par = Some np -> i ∈ children np.
Proof.
  unfold parent_idx_of. intros (ni & Hni & Hp)%bind_Some Hnp. pose proof (lookup_lt_Some _ _ _ Hnp) as Hlt.
  rewrite (parent_at n t Htree _ _ Hni) in Hp. destruct (Nat.ltb_spec i (nb_nodes t - 1)); [|done].
  injection Hp as Hp. assert (n <= par)%nat by (rewrite <- Hp; apply Nat.le_add_r).
  rewrite (children_at n t Hpos Htree _ np Hnp). destruct (Nat.ltb_spec par n); [lia|].
  by apply list_elem_of_In, (kids_parent n t Hpos Htree).
Qed.

Lemma leaves_at_node i nd : nodes t !! i = Some nd -> leaves_at t i = leaves nd.
Proof. intros Hnd. unfold leaves_at. by rewrite Hnd. Qed.

(** A transaction pays out what its leaves are worth. *)
Lemma node_outs_value i nd : nodes t !! i = Some nd ->
  sum_Z (value <$> node_outs s t nd) = leaves_value s (leaves nd).
Proof.
  intros Hnd. pose proof (lookup_lt_Some _ _ _ Hnd) as Hi. unfold node_outs.
  pose proof (is_leaf_at n t i nd Hpos Htree Hnd) as Hl. rewrite <- (leaves_at_node i nd Hnd).
  destruct (is_leaf nd).
  - rewrite (node_idx_at n t Htree _ _ Hnd), (leaves_leaf n t Hpos Htree) by tauto. unfold leaves_value, leaf_amount. cbn.
    by destruct (leaf_request i) as [r ->]; [tauto|].
  - assert (n <= i)%nat as Hge by (destruct (decide (i < n)%nat) as [H|]; [by apply Hl in H|lia]).
    rewrite (leaves_inner n t Hpos Htree) by done. rewrite (children_at n t Hpos Htree i nd Hnd).
    destruct (Nat.ltb_spec i n); [lia|]. induction (kids n (i - n)) as [|c cs IH]; [done|].
    rewrite !fmap_cons, sum_Z_cons, IH. cbn [concat]. by rewrite leaves_value_app.
Qed.

Lemma node_output_value {E} i nd p : nodes t !! i = Some nd ->
  output_value (E:=E) (unsigned_tx p (node_outs s t nd)) = Ok (leaves_value s (leaves nd)).
Proof.
  intros Hnd. pose proof (lookup_lt_Some _ _ _ Hnd) as Hi. pose proof (leaves_value_bound i Hi) as Hb.
  rewrite (leaves_at_node i nd Hnd) in Hb.
  assert (Forall (fun z => 0 <= z) (value <$> node_outs s t nd)) as Hnn.
  { apply Forall_fmap. unfold node_outs. destruct (is_leaf nd).
    - destruct (ts_vtxos s !! node_idx nd) as [r|] eqn:Hr; cbn; [|by constructor].
      constructor; [|by constructor]. by destruct (Forall_lookup_1 _ _ _ _ (so_requests _ Hs) Hr).
    - apply Forall_fmap, Forall_true. intros c. apply leaves_value_nonneg. }
  unfold output_value, unsigned_tx. cbn [output]. rewrite fmap_app, amount_sum_exact by (apply Forall_app; split; [done|by repeat constructor]).
  rewrite sum_Z_app, (node_outs_value i nd Hnd). change (sum_Z (value <$> [fee_anchor])) with 0. rewrite Z.add_0_r.
  destruct (Z.ltb_spec (leaves_value s (leaves nd)) (2 ^ 64)); [done|lia].
Qed.

(** The first loop. *)
Lemma build_node_tx_Ok {E} txs i nd : nodes t !! i = Some nd -> length txs = i ->
  (forall c, (c < i)%nat -> outs_at s t txs c null_outpoint) ->
  build_node_tx (E:=E) s (agg_pk_of <$> nodes t) txs nd = Ok (unsigned_tx null_outpoint (node_outs s t nd)).
Proof.
  intros Hnd Hlen Hprev. unfold build_node_tx, node_outs. pose proof (is_leaf_at n t i nd Hpos Htree Hnd) as Hl.
  destruct (is_leaf nd).
  - rewrite (node_idx_at n t Htree _ _ Hnd). destruct (leaf_request i) as [r Hr]; [tauto|].
    rewrite (at_idx_Some _ _ _ Hr), Hr. cbn. unfold leaf_tx. by rewrite (policy_script_Ok i r Hr).
  - assert (forall c, c ∈ children nd -> exists cn, nodes t !! c = Some cn /\
      txs !! c = Some (unsigned_tx null_outpoint (node_outs s t cn))) as Hc.
    { intros c Hc. destruct (child_bound i nd c Hnd Hc) as (Hlt & _ & _). destruct (Hprev c Hlt) as (cn & ? & ?). eauto. }
    set (f := fun child => _ ← at_idx txs child; _).
    assert (exists buf, mapM f (children nd) = Ok buf /\
      mapM (node_txout (E:=E) s) buf = Ok ((fun c => cosign_out s (leaves_at t c)) <$> children nd)) as (buf & -> & Hbuf).
    { induction (children nd) as [|c cs IH]; [by exists []|].
      destruct IH as (buf & Hbuf & Houts); [intros c' Hc'; apply Hc; by right|].
      destruct (Hc c ltac:(by left)) as (cn & Hcn & Htx).
      assert ((agg_pk_of <$> nodes t) !! c = Some (agg_pk_of cn)) as Hpk by (rewrite list_lookup_fmap; by rewrite Hcn).
      assert (f c = Ok (unsigned_tx null_outpoint (node_outs s t cn), agg_pk_of cn)) as Hf
        by (unfold f; by rewrite (at_idx_Some _ _ _ Htx), (at_idx_Some _ _ _ Hpk)).
      eexists (_ :: buf). cbn [mapM]. rewrite Hf. cbn [mbind outcome_bind]. rewrite Hbuf.
      split; [reflexivity|]. cbn [mapM]. rewrite Houts. unfold node_txout. rewrite node_taproot_Ok. cbn [mbind outcome_bind fst].
      rewrite (node_output_value c cn _ Hcn). cbn [mbind outcome_bind mret outcome_ret fmap list_fmap]. unfold cosign_out. by rewrite (leaves_at_node c cn Hcn). }
    cbn. unfold node_tx. by rewrite Hbuf.
Qed.

Lemma build_txs_Ok {E} k : forall txs, (length txs + k = nb_nodes t)%nat ->
  (forall c, (c < length txs)%nat -> outs_at s t txs c null_outpoint) ->
  exists txs', build_txs (E:=E) s (agg_pk_of <$> nodes t) (drop (length txs) (nodes t)) txs = Ok txs' /\
    length txs' = nb_nodes t /\ forall c, (c < nb_nodes t)%nat -> outs_at s t txs' c null_outpoint.
Proof.
  induction k as [|k IH]; intros txs Hlen Hprev.
  - exists txs. rewrite drop_ge by (unfold nb_nodes in *; lia). rewrite Nat.add_0_r in Hlen. rewrite Hlen in *. done.
  - destruct (node_at t (length txs) ltac:(lia)) as [nd Hnd]. rewrite (drop_S _ _ _ Hnd). cbn [build_txs].
    rewrite (build_node_tx_Ok txs (length txs) nd Hnd eq_refl Hprev). cbn [mbind outcome_bind].
    set (tx := unsigned_tx _ _). specialize (IH (txs ++ [tx])). rewrite length_app in IH. cbn [length] in IH.
    rewrite Nat.add_1_r in IH. apply IH; [lia|]. intros c Hc.
    destruct (decide (c = length txs)) as [->|Hne].
    + exists nd. split; [done|]. by rewrite list_lookup_middle.
    + destruct (Hprev c ltac:(lia)) as (cn & Hcn & Htx). exists cn. split; [done|]. by rewrite lookup_app_l by lia.
Qed.
(** The second loop. *)
Lemma set_prevout_at_Ok {E} txs i p q outs : txs !! i = Some (unsigned_tx p outs) ->
  set_prevout_at (E:=E) txs i q = Ok (<[i := unsigned_tx q outs]> txs).
Proof. intros Hi. unfold set_prevout_at. by rewrite (at_idx_Some _ _ _ Hi). Qed.

Lemma set_children_Ok {E} txid cs : forall j txs, NoDup cs ->
  (forall c, c ∈ cs -> exists p outs, txs !! c = Some (unsigned_tx p outs)) ->
  exists txs', set_children (E:=E) txid j cs txs = Ok txs' /\ length txs' = length txs /\
    (forall i, i ∉ cs -> txs' !! i = txs !! i) /\
    (forall m c p outs, cs !! m = Some c -> txs !! c = Some (unsigned_tx p outs) ->
       txs' !! c = Some (unsigned_tx (mkOutPoint txid (Z.of_nat (j + m))) outs)).
Proof.
  induction cs as [|c cs IH]; intros j txs Hnd Hsh; [by exists txs|]. apply NoDup_cons in Hnd as [Hc Hnd].
  destruct (Hsh c ltac:(by left)) as (p & outs & Htx). cbn [set_children].
  rewrite (set_prevout_at_Ok _ _ _ _ _ Htx). cbn [mbind outcome_bind]. set (txs1 := <[c := _]> txs).
  assert (forall i, i <> c -> txs1 !! i = txs !! i) as Hne by (intros i Hi; by apply list_lookup_insert_ne).
  destruct (IH (S j) txs1 Hnd) as (txs' & -> & Hlen & Hout & Hin).
  { intros c' Hc'. destruct (Hsh c' ltac:(by right)) as (p' & outs' & Htx'). exists p', outs'.
    rewrite Hne; [done|]. by intros ->. }
  exists txs'. split_and!; [done|rewrite Hlen; apply length_insert| |].
  - intros i Hi%not_elem_of_cons. destruct Hi as [Hi1 Hi2]. rewrite Hout by done. by apply Hne.
  - intros [|m] c' p' outs' Hm Htx'; cbn in Hm.
    + injection Hm as <-. rewrite Hout by done. unfold txs1.
      rewrite list_lookup_insert_eq by eauto using lookup_lt_Some. rewrite Nat.add_0_r.
      rewrite Htx in Htx'. injection Htx' as _ Ho. apply app_inv_tail in Ho as ->. done.
    + rewrite (Hin m c' p' outs' Hm); [do 3 f_equal; lia|]. rewrite Hne; [done|].
      intros ->. by apply Hc, (list_elem_of_lookup_2 _ m).
Qed.

Lemma children_NoDup i nd : nodes t !! i = Some nd -> NoDup (children nd).
Proof.
  intros Hnd. rewrite (children_at n t Hpos Htree i nd Hnd). destruct (i <? n)%nat; [constructor|apply NoDup_seq].
Qed.

(** What holds when the nodes from [k] on have been visited. *)
Definition prevs_from (utxo : OutPoint) (k : nat) (txs : list Transaction) : Prop :=
  length txs = nb_nodes t /\
  forall i, (i < nb_nodes t)%nat -> exists p, outs_at s t txs i p /\
    ((forall par, parent_idx_of t i = Some par -> (k <= par)%nat) -> prev_at utxo t txs i p).

Lemma prevs_step {E} utxo k nd txs : nodes t !! k = Some nd ->
  prevs_from utxo (S k) txs ->
  exists tx txs', txs !! k = Some tx /\ set_children (E:=E) (compute_txid tx) 0 (children nd) txs = Ok txs' /\
    prevs_from utxo k txs' /\ forall i, (k <= i)%nat -> txs' !! i = txs !! i.
Proof.
  intros Hnd [Hlen Hinv]. pose proof (lookup_lt_Some _ _ _ Hnd) as Hk.
  destruct (Hinv k Hk) as (pk & (nd' & Hnd' & Htx) & _). eexists _.
  destruct (set_children_Ok (E:=E) (compute_txid (unsigned_tx pk (node_outs s t nd'))) (children nd) 0 txs)
    as (txs' & Hset & Hlen' & Hout & Hin).
  { by eapply children_NoDup. }
  { intros c Hc. destruct (child_bound k nd c Hnd Hc) as (Hck & _ & _).
    destruct (Hinv c ltac:(unfold nb_nodes; lia)) as (p & (cn & _ & Hc') & _). eauto. }
  exists txs'. split; [done|]. split; [done|].
  assert (forall i, (k <= i)%nat -> txs' !! i = txs !! i) as Hhigh.
  { intros i Hi. apply Hout. intros Hc. pose proof (child_bound k nd i Hnd Hc). lia. }
  split; [|done]. split; [by rewrite Hlen'|]. intros i Hi.
  destruct (Hinv i Hi) as (p & (ni & Hni & Hti) & Hpar).
  destruct (decide (i ∈ children nd)) as [[m Hm]%list_elem_of_lookup_1|Hni'].
  - exists (mkOutPoint (compute_txid (unsigned_tx pk (node_outs s t nd'))) (Z.of_nat m)).
    split; [exists ni; split; [done|by rewrite (Hin m i p _ Hm Hti)]|].
    intros _. pose proof (child_bound k nd i Hnd (list_elem_of_lookup_2 _ _ _ Hm)) as (_ & _ & Hp').
    unfold prev_at. rewrite Hp'. exists nd, m, (unsigned_tx pk (node_outs s t nd')). split_and!; [done..| |done].
    by rewrite Hhigh.
  - exists p. split; [exists ni; split; [done|by rewrite Hout]|]. intros Hkp. unfold prev_at in *.
    destruct (parent_idx_of t i) as [par|] eqn:Hp; [|by apply Hpar]. specialize (Hkp par eq_refl).
    destruct (decide (par = k)) as [->|Hne]; [by destruct (Hni' (parent_child i k nd Hp Hnd))|].
    destruct Hpar as (np & m & ptx & Hnp & Hm & Hptx & ->); [intros ? [= <-]; lia|].
    exists np, m, ptx. split_and!; [done..| |done]. by rewrite Hhigh by lia.
Qed.

Lemma set_prevouts_Ok {E} utxo k : forall txs, (k <= nb_nodes t)%nat -> prevs_from utxo k txs ->
  exists txs', set_prevouts (E:=E) (reverse (take k (nodes t))) txs = Ok txs' /\ prevs_from utxo 0 txs'.
Proof.
  induction k as [|k IH]; intros txs Hk Hinv; [by exists txs|].
  destruct (node_at t k Hk) as [nd Hnd]. rewrite (take_S_r _ _ _ Hnd), reverse_app.
  destruct (prevs_step (E:=E) utxo k nd txs Hnd Hinv) as (tx & txs1 & Htx & Hset & Hinv1 & _).
  rewrite reverse_singleton. cbn [app set_prevouts].
  rewrite (node_idx_at n t Htree _ _ Hnd), (at_idx_Some _ _ _ Htx). cbn [mbind outcome_bind]. rewrite Hset. cbn [mbind outcome_bind].
  apply IH; [lia|done].
Qed.

Lemma root_parent i : (i < nb_nodes t)%nat -> parent_idx_of t i = None <-> S i = nb_nodes t.
Proof.
  intros Hi. unfold parent_idx_of. destruct (node_at t i Hi) as [nd Hnd]. rewrite Hnd.
  change (node_parent nd = None <-> S i = nb_nodes t). rewrite (parent_at n t Htree _ _ Hnd).
  destruct (Nat.ltb_spec i (nb_nodes t - 1)); split; done || lia.
Qed.

(** The transactions of the tree. *)
Lemma unsigned_transactions_Ok {E} utxo :
  exists txs, unsigned_transactions (E:=E) s utxo = Ok txs /\ txs_ok s utxo t txs.
Proof.
  pose proof Hpos as Hn0. unfold unsigned_transactions. rewrite Hnew, cosign_agg_pks_Ok. cbn [expect mbind outcome_bind].
  destruct (build_txs_Ok (E:=E) (nb_nodes t) []) as (txs0 & Hb & Hlen & Houts); [done|cbn; lia|].
  cbn [length] in Hb. rewrite drop_0 in Hb. rewrite Hb. cbn [mbind outcome_bind]. rewrite Hlen.
  assert (0 < nb_nodes t)%nat as Hnn by (rewrite (ok_length _ _ Htree); fold n; lia).
  destruct (Houts (pred (nb_nodes t)) ltac:(lia)) as (rn & Hrn & Hrtx).
  rewrite (set_prevout_at_Ok _ _ _ _ _ Hrtx). cbn [mbind outcome_bind].
  destruct (set_prevouts_Ok (E:=E) utxo (nb_nodes t) (<[pred (nb_nodes t) := unsigned_tx utxo (node_outs s t rn)]> txs0))
    as (txs & Hset & Hlen' & Hinv); [done| |].
  - split; [by rewrite length_insert|]. intros i Hi. destruct (Houts i Hi) as (nd & Hnd & Htx).
    destruct (decide (i = pred (nb_nodes t))) as [->|Hne].
    + exists utxo. split; [exists rn; split; [done|by apply list_lookup_insert_eq; lia]|].
      intros _. unfold prev_at. by rewrite (proj2 (root_parent _ Hi)) by lia.
    + exists null_outpoint. split; [exists nd; split; [done|by rewrite list_lookup_insert_ne]|].
      intros Hp. exfalso. destruct (parent_idx_of t i) as [par|] eqn:Hpar; [|apply root_parent in Hpar; lia].
      specialize (Hp par eq_refl). unfold parent_idx_of in Hpar. rewrite Hnd in Hpar.
      change (node_parent nd = Some par) in Hpar. rewrite (parent_at n t Htree _ _ Hnd) in Hpar.
      destruct (Nat.ltb_spec i (nb_nodes t - 1)) as [Hlt|]; [|done]. injection Hpar as <-.
      pose proof (parent_lt n t Hpos Htree i Hlt) as [_ Hq]. exact (Nat.lt_irrefl _ (Nat.lt_le_trans _ _ _ Hq Hp)).
  - rewrite take_ge in Hset by done. exists txs. split; [done|]. split; [done|]. intros i Hi.
    destruct (Hinv i Hi) as (p & Ho & Hp). exists p. split; [done|]. apply Hp. intros; lia.
Qed.
Lemma node_keys_seq : node_keys s (seq 0 n) = omap cosign_pubkey (ts_vtxos s) ++ global_cosign_pubkeys s.
Proof.
  unfold node_keys. f_equal. unfold n, nb_leaves, leaf_key. induction (ts_vtxos s) as [|r rs IH] using rev_ind; [done|].
  rewrite length_app, seq_app, !omap_app. f_equal.
  - rewrite <- IH. apply list_omap_ext, Forall_Forall2_diag, Forall_forall. intros l Hl%elem_of_seq.
    by rewrite lookup_app_l by lia.
  - cbn. by rewrite list_lookup_middle.
Qed.

Context `{K : !KeyLaws B}.

(** The funding output is the one the root transaction spends. *)
Lemma funding_tx_txout_Ok {E} :
  funding_tx_txout (E:=E) s = Ok (cosign_out s (leaves_at t (nb_nodes t - 1))).
Proof.
  pose proof (root_leaves n t Hpos Htree) as Hroot. unfold funding_tx_txout, funding_tx_script_pubkey.
  rewrite node_taproot_Ok. cbn [fmap outcome_fmap mbind outcome_bind]. unfold total_required_value.
  rewrite amount_sum_exact.
  2: { rewrite amounts_leaves. apply Forall_fmap, Forall_true. intros l. apply leaf_amount_nonneg. }
  pose proof (so_total _ Hs) as Htot. destruct (Z.ltb_spec (sum_Z ((fun d => req_amount (sr_vtxo d)) <$> ts_vtxos s)) (2 ^ 64)); [|lia].
  cbn [mbind outcome_bind]. unfold cosign_out, funding_tx_cosign_pubkey, combine_keys.
  rewrite <- node_keys_seq, <- leaves_value_total. do 2 f_equal.
  - unfold leaves_value. symmetry. apply sum_Z_perm. by rewrite Hroot.
  - do 3 f_equal. apply sort_keys_perm. unfold node_keys. by rewrite Hroot.
Qed.
(** ** The unsigned tree *)
Record utree_ok (utxo : OutPoint) (u : UnsignedVtxoTree) : Prop := {
  uo_spec : ut_spec u = s;
  uo_utxo : ut_utxo u = utxo;
  uo_tree : ut_tree u = t;
  uo_pks : ut_cosign_agg_pks u = agg_pk_of <$> nodes t;
  uo_txs : txs_ok s utxo t (ut_txs u);
  uo_sighash : forall i nd tx, nodes t !! i = Some nd -> ut_txs u !! i = Some tx ->
    ut_sighashes u !! i = Some (key_spend_sighash tx (cosign_out s (leaves nd)));
}.

Lemma txs_ok_lookup utxo txs i nd : txs_ok s utxo t txs -> nodes t !! i = Some nd ->
  exists p, txs !! i = Some (unsigned_tx p (node_outs s t nd)) /\ prev_at utxo t txs i p.
Proof.
  intros [_ Htx] Hnd. destruct (Htx i (lookup_lt_Some _ _ _ Hnd)) as (p & (nd' & Hnd' & Hp) & Hprev).
  assert (nd' = nd) as -> by congruence. eauto.
Qed.

(** The links determine all transactions, from the root down. *)
Lemma txs_ok_unique utxo txs1 txs2 : txs_ok s utxo t txs1 -> txs_ok s utxo t txs2 -> txs1 = txs2.
Proof.
  intros H1 H2. apply list_eq. intros i. remember (nb_nodes t - i)%nat as d eqn:Hd. revert i Hd.
  induction d as [d IH] using lt_wf_ind. intros i Hd.
  destruct (decide (i < nb_nodes t)%nat) as [Hi|Hi].
  2: { rewrite !lookup_ge_None_2; [done|rewrite (to_length _ _ _ _ H2); lia|rewrite (to_length _ _ _ _ H1); lia]. }
  destruct (node_at t i Hi) as [nd Hnd].
  destruct (txs_ok_lookup _ _ _ _ H1 Hnd) as (p1 & -> & Hp1), (txs_ok_lookup _ _ _ _ H2 Hnd) as (p2 & -> & Hp2).
  do 2 f_equal. unfold prev_at in *. destruct (parent_idx_of t i) as [par|]; [|congruence].
  destruct Hp1 as (np & k1 & ptx1 & Hnp & Hk1 & Hptx1 & ->), Hp2 as (np' & k2 & ptx2 & Hnp' & Hk2 & Hptx2 & ->).
  assert (np' = np) as -> by congruence.
  destruct (child_bound par np i Hnp (list_elem_of_lookup_2 _ _ _ Hk1)) as (Hlt & Hb & _).
  rewrite (IH (nb_nodes t - par)%nat) in Hptx1 by lia. assert (ptx2 = ptx1) as -> by congruence.
  assert (k2 = k1) as -> by (eapply NoDup_lookup; [by eapply children_NoDup|done..]). done.
Qed.

(** Output [k] of a node's transaction is what its [k]-th child spends. *)
Lemma child_out i nd k c : nodes t !! i = Some nd -> children nd !! k = Some c ->
  node_outs s t nd !! k = Some (cosign_out s (leaves_at t c)).
Proof.
  intros Hnd Hk. unfold node_outs. pose proof (is_leaf_at n t i nd Hpos Htree Hnd) as Hl.
  rewrite (children_at n t Hpos Htree i nd Hnd) in *. destruct (Nat.ltb_spec i n); [done|].
  destruct (is_leaf nd); [by pose proof (proj1 Hl eq_refl); lia|]. rewrite list_lookup_fmap. by rewrite Hk.
Qed.

Lemma node_prevout_Ok {E} utxo txs i nd : txs_ok s utxo t txs -> nodes t !! i = Some nd ->
  node_prevout (E:=E) t txs (cosign_out s (leaves_at t (nb_nodes t - 1))) nd = Ok (cosign_out s (leaves nd)).
Proof.
  intros Htxs Hnd. unfold node_prevout. rewrite (node_idx_at n t Htree _ _ Hnd).
  pose proof (lookup_lt_Some _ _ _ Hnd) as Hi. fold (nb_nodes t) in Hi.
  destruct (sibling_idx_spec n t i nd Hnew Hnd) as [[Hr ->]|(par & k & np & -> & Hp & Hnp & Hk & _)]; cbn [expect mbind outcome_bind].
  - unfold is_root. rewrite bool_decide_true by (rewrite (parent_at n t Htree _ _ Hnd); by destruct (Nat.ltb_spec i (nb_nodes t - 1)); [lia|]).
    cbn. replace (nb_nodes t - 1)%nat with i by lia. by rewrite (leaves_at_node i nd Hnd).
  - unfold is_root. rewrite bool_decide_false by (by rewrite Hp). cbn.
    destruct (txs_ok_lookup utxo txs par np Htxs Hnp) as (p & Hptx & _). rewrite (at_idx_Some _ _ _ Hptx). cbn.
    pose proof (child_out par np k i Hnp Hk) as Ho. apply at_idx_Some.
    rewrite lookup_app_l by eauto using lookup_lt_Some. by rewrite Ho, (leaves_at_node i nd Hnd).
Qed.

Lemma unsigned_tree_new_Ok {E} utxo : exists u, unsigned_tree_new (E:=E) s utxo = Ok u /\ utree_ok utxo u.
Proof.
  unfold unsigned_tree_new. rewrite Hnew, cosign_agg_pks_Ok. cbn [expect mbind outcome_bind].
  destruct (unsigned_transactions_Ok (E:=E) utxo) as (txs & -> & Htxs). cbn [mbind outcome_bind].
  rewrite funding_tx_txout_Ok. cbn [mbind outcome_bind]. set (f := fun node : Node => _).
  assert (forall i nd, nodes t !! i = Some nd -> exists tx, txs !! i = Some tx /\
    f nd = Ok (key_spend_sighash tx (cosign_out s (leaves nd)))) as Hf.
  { intros i nd Hnd. destruct (txs_ok_lookup utxo txs i nd Htxs Hnd) as (p & Htx & _). eexists. split; [done|].
    unfold f. rewrite (node_prevout_Ok utxo txs i nd Htxs Hnd), (node_idx_at n t Htree _ _ Hnd). cbn.
    by rewrite (at_idx_Some _ _ _ Htx). }
  destruct (mapM_total f (nodes t)) as [shs Hshs]; [intros i nd Hnd; destruct (Hf i nd Hnd) as (? & _ & ->); eauto|].
  rewrite Hshs. cbn. eexists. split; [done|]. split; [done..|]. cbn. intros i nd tx Hnd Htx.
  destruct (mapM_lookup f _ _ i nd Hshs Hnd) as (sh & -> & Hsh). destruct (Hf i nd Hnd) as (tx' & Htx' & Hsh').
  congruence.
Qed.
End Spec.
End TreeTxs.
