(* ===== verification/TreeVtxos.v ===== *)
(** * The VTXOs of a signed tree

    Once the node signatures of a tree verify, every leaf is a good VTXO: the
    VTXO that [CachedSignedVtxoTree::build_vtxo] reads off the tree validates
    against the funding transaction, and its exit transactions are exactly the
    branch of the tree that [exit_branch] returns. *)
From S2P Require Import Prelude Tree Bitcoin Encode Concrete Policy Vtxo Validation Board Extend Arkoor SignedTree TreeTxs.

Open Scope Z_scope.

Section TreeVtxos.
Context `{B : Bitcoin} `{W : !WitnessLaws B} `{K : !KeyLaws B}.

Definition signed_tx (p : OutPoint) (outs : list TxOut) (sig : Signature) : Transaction :=
  mkTx 3 0 [mkTxIn p [] 0 [sig_serialize sig]] (outs ++ [fee_anchor]).

Lemma signed_tx_strip p outs sig : strip (signed_tx p outs sig) = strip (unsigned_tx p outs).
Proof. done. Qed.

Lemma signed_tx_txid p outs sig : compute_txid (signed_tx p outs sig) = compute_txid (unsigned_tx p outs).
Proof. by rewrite <- txid_strip, signed_tx_strip, txid_strip. Qed.

(** Signing leaves the transactions as they are but for the witness. *)
Lemma push_signatures_Ok {E} txs : forall sigs,
  (forall i tx, txs !! i = Some tx -> exists p outs, tx = unsigned_tx p outs) ->
  exists stxs, push_signatures (E:=E) txs sigs = Ok stxs /\ length stxs = length txs /\
    forall i p outs sig, txs !! i = Some (unsigned_tx p outs) -> sigs !! i = Some sig ->
      stxs !! i = Some (signed_tx p outs sig).
Proof.
  induction txs as [|tx txs IH]; intros sigs Hsh; [by exists []|].
  destruct (Hsh O tx eq_refl) as (p & outs & ->). destruct sigs as [|sig sigs].
  { eexists. split; [done|]. split; [done|]. by intros [|i]. }
  destruct (IH sigs) as (stxs & Hst & Hlen & Hlook); [intros i tx Hi; exact (Hsh (S i) tx Hi)|].
  cbn [push_signatures]. unfold push_signature, unsigned_tx. cbn [input mbind outcome_bind]. rewrite Hst.
  eexists. split; [done|]. split; [cbn; by rewrite Hlen|]. intros [|i] p' outs' sig' Htx Hsig; cbn in *.
  - injection Htx as <- Ho. injection Hsig as <-. apply app_inv_tail in Ho as <-. done.
  - by apply Hlook.
Qed.

(** Looking for the other outputs skips the fee anchor. *)
Lemma omap_other_outputs j outs : Forall (fun o => is_p2a_fee_anchor o = false) outs ->
  omap (fun p : nat * TxOut =>
    if negb (is_p2a_fee_anchor p.2) && negb (bool_decide (Z.of_nat p.1 = Z.of_nat j)) then Some p.2 else None)
    (imap pair (outs ++ [fee_anchor])) = others_of j outs.
Proof.
  intros Houts. rewrite imap_app, omap_app.
  rewrite <- (app_nil_r (others_of j outs)). f_equal.
  2: { cbn. unfold is_p2a_fee_anchor. cbn. by rewrite (bool_decide_true (p2a_script = p2a_script)). }
  unfold others_of.
  assert (Forall (fun p : nat * TxOut => is_p2a_fee_anchor p.2 = false) (imap pair outs)) as Hall.
  { apply Forall_lookup. intros i [k o]. rewrite list_lookup_imap. destruct (outs !! i) as [o'|] eqn:Ho; [|done].
    cbn. intros [= <- <-]. exact (Forall_lookup_1 _ _ _ _ Houts Ho). }
  induction Hall as [|[i o] l Ho _ IH]; [done|]. rewrite filter_cons. cbn [omap list_omap fst snd] in *. rewrite Ho.
  cbn [negb andb]. destruct (decide (i <> j)) as [Hne|Heq].
  - rewrite bool_decide_false by lia. cbn. f_equal. exact IH.
  - rewrite bool_decide_true by lia. exact IH.
Qed.

Lemma genesis_loop_spec {E} ct branch : forall last,
  (forall i nd, branch !! i = Some nd ->
    exists item, genesis_item (E:=E) ct (match i with O => last | S j => node_idx <$> branch !! j end) nd = Ok item) ->
  exists items, genesis_loop (E:=E) ct last branch = Ok items /\ length items = length branch /\
    forall i nd, branch !! i = Some nd -> exists item, items !! i = Some item /\
      genesis_item (E:=E) ct (match i with O => last | S j => node_idx <$> branch !! j end) nd = Ok item.
Proof.
  induction branch as [|nd0 branch IH]; intros last H; [by exists []|].
  destruct (H O nd0 eq_refl) as [item0 H0]. destruct (IH (Some (node_idx nd0))) as (items & Hitems & Hlen & Hlook).
  - intros i nd Hi. destruct (H (S i) nd Hi) as [item Hitem]. exists item. by destruct i.
  - exists (item0 :: items). cbn [genesis_loop]. rewrite H0. cbn [mbind outcome_bind]. rewrite Hitems.
    split; [done|]. split; [cbn; by rewrite Hlen|]. intros [|i] nd Hi; cbn in Hi.
    + injection Hi as <-. by exists item0.
    + destruct (Hlook i nd Hi) as (item & ? & ?). exists item. split; [done|]. by destruct i.
Qed.

Section Leaf.
Context (s : VtxoTreeSpec) (Hs : spec_ok s) (t : Tree) (Hnew : new (nb_leaves s) = Some t).
Let n := nb_leaves s.
Let Hn0 : (0 < n)%nat := Hpos s Hs.
Let Ht : tree_ok n t := Htree s t Hnew.

(** ** The path from the root to a leaf *)
Definition path (l : nat) : list Node := reverse (iter_branch t l).

Lemma branch_elem l k nd : (l < n)%nat -> iter_branch t l !! k = Some nd -> nodes t !! node_idx nd = Some nd /\ l ∈ leaves nd.
Proof.
  intros Hl Hk. apply list_elem_of_lookup_2 in Hk. rewrite (iter_branch_filter n t Hn0 Ht l Hl) in Hk.
  apply list_elem_of_filter in Hk as [Hh [i Hi]%list_elem_of_lookup_1]. split; [|done].
  by rewrite (node_idx_at n t Ht i nd Hi).
Qed.

Lemma branch_nonempty l : (l < n)%nat -> exists nl rest, nodes t !! l = Some nl /\ iter_branch t l = nl :: rest.
Proof.
  intros Hl. pose proof (ok_length _ _ Ht) as Hlen. destruct (node_at t l ltac:(lia)) as [nl Hnl].
  unfold iter_branch. destruct (nb_nodes t) as [|m]; [lia|]. cbn. rewrite Hnl. eauto.
Qed.

Lemma path_length l : length (path l) = length (iter_branch t l).
Proof. unfold path. apply length_reverse. Qed.

Lemma path_lookup l k nd : path l !! k = Some nd ->
  iter_branch t l !! (length (path l) - S k)%nat = Some nd /\ (k < length (path l))%nat.
Proof.
  unfold path. intros Hk. rewrite length_reverse. apply reverse_lookup_Some in Hk as [Hk Hlt]. done.
Qed.

Lemma path_node l k nd : (l < n)%nat -> path l !! k = Some nd -> nodes t !! node_idx nd = Some nd.
Proof. intros Hl [Hk _]%path_lookup. by eapply branch_elem. Qed.

Lemma path_root l : (l < n)%nat -> exists rn, path l !! 0%nat = Some rn /\ node_idx rn = (nb_nodes t - 1)%nat.
Proof.
  intros Hl. pose proof (ok_length _ _ Ht) as Hlen.
  pose proof (branch_last n t Hn0 Ht (nb_nodes t) l ltac:(lia) ltac:(lia)) as Hlast. fold (iter_branch t l) in Hlast.
  unfold root in Hlast. rewrite !last_lookup in Hlast. destruct (node_at t (nb_nodes t - 1) ltac:(lia)) as [rn Hrn].
  exists rn. split; [|by rewrite (node_idx_at n t Ht _ _ Hrn)]. unfold path.
  destruct (branch_nonempty l Hl) as (nl & rest & _ & Hb).
  rewrite reverse_lookup by (rewrite Hb; cbn; lia). replace (length (iter_branch t l) - 1)%nat with (pred (length (iter_branch t l))) by lia.
  rewrite Hlast. replace (pred (length (nodes t))) with (nb_nodes t - 1)%nat by (unfold nb_nodes; lia). done.
Qed.

Lemma path_leaf l k nd : (l < n)%nat -> path l !! k = Some nd -> S k = length (path l) -> node_idx nd = l /\ is_leaf nd = true.
Proof.
  intros Hl [Hk _]%path_lookup Hlen. replace (length (path l) - S k)%nat with O in Hk by lia.
  destruct (branch_nonempty l Hl) as (nl & rest & Hnl & Hb). rewrite Hb in Hk. injection Hk as <-.
  rewrite (node_idx_at n t Ht _ _ Hnl). split; [done|]. by apply (is_leaf_at n t l nl Hn0 Ht Hnl).
Qed.

(** Each node of the path is a child of the one before it. *)
Lemma path_child l k nd c : (l < n)%nat -> path l !! k = Some nd -> path l !! S k = Some c ->
  exists j, children nd !! j = Some (node_idx c) /\ (j < RADIX)%nat /\
    position (fun x => bool_decide (node_idx c = x)) (children nd) = Some j.
Proof.
  intros Hl Hk HSk. pose proof (path_node l k nd Hl Hk) as Hnd. pose proof (path_node l (S k) c Hl HSk) as Hc.
  apply path_lookup in Hk as [Hk Hlt]. apply path_lookup in HSk as [HSk HSlt].
  destruct (branch_links n t Hn0 Ht (nb_nodes t) l (length (path l) - S (S k)) c nd) as [Hp _].
  { rewrite (ok_length _ _ Ht). lia. }
  { exact HSk. }
  { replace (S (length (path l) - S (S k))) with (length (path l) - S k)%nat by lia. exact Hk. }
  assert (node_idx c ∈ children nd) as Hin.
  { apply (parent_child s Hs t Hnew (node_idx c) (node_idx nd) nd); [|done]. unfold parent_idx_of. by rewrite Hc. }
  pose proof (children_NoDup s Hs t Hnew _ _ Hnd) as Hnodup.
  assert (length (children nd) <= RADIX)%nat as Hrad.
  { rewrite (children_at n t Hn0 Ht _ _ Hnd). destruct (_ <? _)%nat; [cbn; lia|]. rewrite length_kids. unfold RADIX. lia. }
  apply list_elem_of_lookup_1 in Hin as [j Hj]. exists j. split; [done|]. pose proof (lookup_lt_Some _ _ _ Hj).
  split; [lia|]. rewrite <- (take_drop_middle _ _ _ Hj).
  rewrite position_app_first; [f_equal; rewrite length_take; lia| |by apply bool_decide_eq_true].
  apply Forall_lookup. intros i x Hx. apply bool_decide_eq_false. intros <-. apply lookup_take_Some in Hx as [Hx Hlt'].
  pose proof (NoDup_lookup _ _ _ _ Hnodup Hj Hx). lia.
Qed.
(** ** The genesis of a leaf *)

(** The place of the next node of the path among the children, 0 at the leaf. *)
Definition out_pos (nd : Node) (next : option Node) : nat :=
  match next with
  | Some c => default 0%nat (position (fun x => bool_decide (node_idx c = x)) (children nd))
  | None => 0%nat
  end.

Definition path_item (nd : Node) (next : option Node) (sig : Signature) : GenesisItem :=
  mkItem (Cosigned (node_keys s (leaves nd)) sig) (Z.of_nat (out_pos nd next))
    (others_of (out_pos nd next) (node_outs s t nd)).

Lemma leaf_script_p2tr l r : ts_vtxos s !! l = Some r -> exists k, leaf_script s (sr_vtxo r) = p2tr_script k.
Proof.
  intros Hr. destruct (Forall_lookup_1 _ _ _ _ (so_requests _ Hs) Hr) as [_ [sc Hsc]]. unfold leaf_script. rewrite Hsc.
  unfold policy_script_pubkey in Hsc. apply fmap_Ok in Hsc as (tr & _ & ->). by eexists.
Qed.

Lemma node_outs_p2tr i nd : nodes t !! i = Some nd ->
  Forall (fun o => exists k, script_pubkey o = p2tr_script k) (node_outs s t nd).
Proof.
  intros Hnd. unfold node_outs. destruct (is_leaf nd).
  - destruct (ts_vtxos s !! node_idx nd) as [r|] eqn:Hr; cbn; [|constructor].
    constructor; [by eapply leaf_script_p2tr|constructor].
  - apply Forall_fmap, Forall_true. intros c. by eexists.
Qed.

Lemma node_outs_no_anchor i nd : nodes t !! i = Some nd ->
  Forall (fun o => is_p2a_fee_anchor o = false) (node_outs s t nd).
Proof.
  intros Hnd. eapply Forall_impl; [exact (node_outs_p2tr i nd Hnd)|]. intros o [k Hk].
  unfold is_p2a_fee_anchor. rewrite Hk. apply bool_decide_eq_false, p2tr_not_p2a.
Qed.

(** The output of a path node that the next transaction spends. *)
Definition path_out (nd : Node) (next : option Node) : TxOut :=
  match next with
  | Some c => cosign_out s (leaves c)
  | None => from_option (fun r => leaf_out s (sr_vtxo r)) (mkTxOut 0 []) (ts_vtxos s !! node_idx nd)
  end.

Lemma path_out_pos l k nd : (l < n)%nat -> path l !! k = Some nd ->
  node_outs s t nd !! out_pos nd (path l !! S k) = Some (path_out nd (path l !! S k)) /\
  (out_pos nd (path l !! S k) < RADIX)%nat.
Proof.
  intros Hl Hk. pose proof (path_node l k nd Hl Hk) as Hnd. destruct (path l !! S k) as [c|] eqn:HSk.
  - destruct (path_child l k nd c Hl Hk HSk) as (j & Hj & Hr & Hpos). cbn [out_pos]. rewrite Hpos. split; [|exact Hr].
    cbn [from_option id path_out].
    rewrite (child_out s Hs t Hnew _ _ _ _ Hnd Hj). cbn. do 2 f_equal. apply leaves_at_node. exact (path_node l (S k) c Hl HSk).
  - apply lookup_ge_None in HSk. destruct (path_leaf l k nd Hl Hk) as [Hi Hleaf]; [apply lookup_lt_Some in Hk; lia|].
    unfold node_outs. rewrite Hleaf. cbn [out_pos path_out]. rewrite Hi. destruct (leaf_request s l Hl) as [r ->].
    split; [done|]. unfold RADIX. lia.
Qed.

Definition sigs_cover (sigs : list Signature) : Prop := forall i, (i < nb_nodes t)%nat -> is_Some (sigs !! i).

Context (utxo : OutPoint) (txs : list Transaction) (Htxs : txs_ok s utxo t txs).
Context (sigs : list Signature) (Hcov : sigs_cover sigs) (stxs : list Transaction).
Context (Hstxs : forall i p outs sig, txs !! i = Some (unsigned_tx p outs) -> sigs !! i = Some sig ->
  stxs !! i = Some (signed_tx p outs sig)).

Lemma node_signed i nd : nodes t !! i = Some nd -> exists p sig, sigs !! i = Some sig /\
  txs !! i = Some (unsigned_tx p (node_outs s t nd)) /\ stxs !! i = Some (signed_tx p (node_outs s t nd) sig) /\
  prev_at utxo t txs i p.
Proof.
  intros Hnd. destruct (Hcov i (lookup_lt_Some _ _ _ Hnd)) as [sig Hsig].
  destruct (txs_ok_lookup s t utxo txs i nd Htxs Hnd) as (p & Htx & Hp). eauto 10.
Qed.

Let c := mkCachedTree (mkSignedTree s utxo sigs) stxs.

Lemma genesis_item_Ok {E} l k nd : (l < n)%nat -> path l !! k = Some nd ->
  exists sig, sigs !! node_idx nd = Some sig /\
    genesis_item (E:=E) c (node_idx <$> path l !! S k) nd = Ok (path_item nd (path l !! S k) sig).
Proof.
  intros Hl Hk. pose proof (path_node l k nd Hl Hk) as Hnd. destruct (node_signed _ _ Hnd) as (p & sig & Hsig & _ & Hst & _).
  exists sig. split; [done|]. unfold genesis_item. cbn [ct_spec st_spec cosign_sigs ct_txs c].
  rewrite (node_cosign_pubkeys_Ok s Hs t Hnew _ _ Hnd), Hsig, Hst. cbn [expect mbind outcome_bind].
  destruct (path_out_pos l k nd Hl Hk) as [_ Hrad]. unfold RADIX in Hrad.
  assert ((match node_idx <$> path l !! S k with
     | Some last => (fun i => Z.of_nat i mod 2 ^ 8) <$> expect (E:=E) (position (fun child => bool_decide (last = child)) (children nd))
     | None => Ok 0
     end) = Ok (Z.of_nat (out_pos nd (path l !! S k)))) as ->.
  { destruct (path l !! S k) as [cn|] eqn:HSk; cbn [fmap option_fmap option_map]; [|done].
    destruct (path_child l k nd cn Hl Hk HSk) as (j & _ & Hj & Hpos). unfold out_pos. rewrite Hpos. cbn.
    rewrite Z.mod_small; [done|]. unfold RADIX in Hj. lia. }
  cbn [mbind outcome_bind]. unfold signed_tx. cbn [output].
  rewrite omap_other_outputs by exact (node_outs_no_anchor _ _ Hnd). done.
Qed.
Lemma genesis_Ok {E} l : (l < n)%nat ->
  exists items, genesis_loop (E:=E) c None (iter_branch t l) = Ok items /\ length items = length (path l) /\
    forall k nd, path l !! k = Some nd -> exists sig, sigs !! node_idx nd = Some sig /\
      reverse items !! k = Some (path_item nd (path l !! S k) sig).
Proof.
  intros Hl. pose proof (path_length l) as Hlen.
  assert (forall i nd, iter_branch t l !! i = Some nd -> exists k, path l !! k = Some nd /\
    k = (length (path l) - S i)%nat /\
    (match i with O => None | S j => node_idx <$> iter_branch t l !! j end) = node_idx <$> path l !! S k) as Hidx.
  { intros i nd Hi. pose proof (lookup_lt_Some _ _ _ Hi) as Hlt. exists (length (path l) - S i)%nat. unfold path.
    rewrite length_reverse, reverse_lookup by lia.
    replace (length (iter_branch t l) - S (length (iter_branch t l) - S i))%nat with i by lia.
    split; [done|]. split; [done|]. destruct i as [|j].
    - rewrite lookup_ge_None_2; [done|rewrite length_reverse; lia].
    - rewrite reverse_lookup by lia. do 2 f_equal. lia. }
  destruct (genesis_loop_spec (E:=E) c (iter_branch t l) None) as (items & Hit & Hlen' & Hlook).
  { intros i nd Hi. destruct (Hidx i nd Hi) as (k & Hk & _ & ->).
    destruct (genesis_item_Ok (E:=E) l k nd Hl Hk) as (sig & _ & Hitem). eauto. }
  exists items. split; [exact Hit|]. split; [by rewrite Hlen', Hlen|]. intros k nd Hk.
  destruct (genesis_item_Ok (E:=E) l k nd Hl Hk) as (sig & Hsig & Hitem). exists sig. split; [done|].
  destruct (path_lookup l k nd Hk) as [Hb Hlt]. destruct (Hlook _ _ Hb) as (item & Hi & Hitem').
  destruct (Hidx _ _ Hb) as (k' & _ & Hk' & Hlast). rewrite Hlast in Hitem'. replace k' with k in Hitem' by lia.
  rewrite Hitem in Hitem'. apply Ok_inj in Hitem' as ->. rewrite reverse_lookup by lia.
  rewrite Hlen', <- Hlen. exact Hi.
Qed.
(** ** The exit transactions of a leaf *)

(** The stored point of output [k] of a node's transaction, for the next one. *)
Lemma path_prev l k nd cn p : (l < n)%nat -> path l !! k = Some nd -> path l !! S k = Some cn ->
  prev_at utxo t txs (node_idx cn) p -> forall stx, stxs !! node_idx nd = Some stx ->
  p = mkOutPoint (compute_txid stx) (Z.of_nat (out_pos nd (Some cn))).
Proof.
  intros Hl Hk HSk Hp stx Hstx. pose proof (path_node l k nd Hl Hk) as Hnd.
  destruct (path_child l k nd cn Hl Hk HSk) as (j & Hj & _ & Hpos).
  destruct (child_bound s Hs t Hnew _ _ _ Hnd (list_elem_of_lookup_2 _ _ _ Hj)) as (_ & _ & Hpar).
  unfold prev_at in Hp. rewrite Hpar in Hp. destruct Hp as (np & k' & ptx & Hnp & Hk' & Hptx & ->).
  assert (np = nd) as -> by congruence.
  assert (k' = j) as -> by (eapply NoDup_lookup; [exact (children_NoDup s Hs t Hnew _ _ Hnd)|done..]).
  destruct (node_signed _ _ Hnd) as (q & sig & _ & Htx & Hst & _).
  assert (ptx = unsigned_tx q (node_outs s t nd)) as -> by congruence.
  assert (stx = signed_tx q (node_outs s t nd) sig) as -> by congruence.
  unfold out_pos. rewrite Hpos. cbn. by rewrite signed_tx_txid.
Qed.

Lemma others_value nd j o : node_outs s t nd !! j = Some o -> forall i, nodes t !! i = Some nd ->
  leaves_value s (leaves nd) = value o + sum_Z (value <$> others_of j (node_outs s t nd)).
Proof. intros Ho i Hnd. rewrite (others_of_sum j o) by done. symmetry. by eapply node_outs_value. Qed.

Lemma node_outs_nonneg i nd : nodes t !! i = Some nd -> Forall (fun o => 0 <= value o) (node_outs s t nd).
Proof.
  intros Hnd. unfold node_outs. destruct (is_leaf nd).
  - destruct (ts_vtxos s !! node_idx nd) as [r|] eqn:Hr; cbn; [|constructor].
    constructor; [|constructor]. by destruct (Forall_lookup_1 _ _ _ _ (so_requests _ Hs) Hr).
  - apply Forall_fmap, Forall_true. intros x. apply leaves_value_nonneg. exact Hs.
Qed.

Section OneLeaf.
Context (l : nat) (Hl : (l < n)%nat) (r : SignedVtxoRequest) (Hr : ts_vtxos s !! l = Some r).
Context (gen : list GenesisItem) (pt : OutPoint) (Hlen : length gen = length (path l)).
Context (Hgen : forall k nd, path l !! k = Some nd -> exists sig, sigs !! node_idx nd = Some sig /\
  gen !! k = Some (path_item nd (path l !! S k) sig)).
Let v := mkVtxo (req_policy (sr_vtxo r)) (req_amount (sr_vtxo r)) (ts_expiry_height s) (ts_server_pubkey s)
  (ts_exit_delta s) utxo gen pt.

Lemma gen_lookup k item : gen !! k = Some item ->
  exists nd sig, path l !! k = Some nd /\ sigs !! node_idx nd = Some sig /\ item = path_item nd (path l !! S k) sig.
Proof.
  intros Hk. destruct (lookup_lt_is_Some_2 (path l) k) as [nd Hnd]; [apply lookup_lt_Some in Hk; lia|].
  destruct (Hgen k nd Hnd) as (sig & Hsig & Hitem). exists nd, sig. split_and!; [done..|congruence].
Qed.

Lemma tree_amounts_ok : amounts_ok v.
Proof.
  split; [by destruct (Forall_lookup_1 _ _ _ _ (so_requests _ Hs) Hr)|]. apply Forall_lookup. intros k item Hk.
  destruct (gen_lookup k item Hk) as (nd & sig & Hnd & _ & ->). cbn. apply Forall_forall. intros o Ho.
  pose proof (node_outs_nonneg _ _ (path_node l k nd Hl Hnd)) as Hnn. rewrite Forall_forall in Hnn.
  apply Hnn. by eapply others_of_incl.
Qed.

Lemma tree_indices_ok : indices_ok v.
Proof.
  apply Forall_lookup. intros k item Hk. destruct (gen_lookup k item Hk) as (nd & sig & Hnd & _ & ->). cbn.
  destruct (path_out_pos l k nd Hl Hnd) as [Ho _]. apply lookup_lt_Some in Ho.
  rewrite others_of_eq, length_app, length_take, length_drop. lia.
Qed.

(** What is left of the funding amount at a node is what its leaves are worth. *)
Lemma tree_chain_amount k nd : path l !! k = Some nd ->
  chain_amount v k = leaves_value s (leaves nd) /\ value (path_out nd (path l !! S k)) = chain_amount v (S k).
Proof.
  remember (length (path l) - k)%nat as d eqn:Hd. revert k nd Hd. induction d as [d IH] using lt_wf_ind. intros k nd Hd Hk.
  destruct (Hgen k nd Hk) as (sig & _ & Hitem). destruct (path_out_pos l k nd Hl Hk) as [Ho _].
  assert (value (path_out nd (path l !! S k)) = chain_amount v (S k)) as Hval.
  { pose proof (lookup_lt_Some _ _ _ Hk) as Hlt. destruct (path l !! S k) as [cn|] eqn:HSk.
    - destruct (IH (length (path l) - S k)%nat ltac:(lia) (S k) cn eq_refl HSk) as [-> _]. done.
    - apply lookup_ge_None in HSk. destruct (path_leaf l k nd Hl Hk ltac:(lia)) as [Hi _]. cbn [path_out]. rewrite Hi, Hr.
      cbn. unfold chain_amount. cbn [amount genesis v]. rewrite drop_ge by lia. change (items_value []) with 0. lia. }
  split; [|exact Hval]. rewrite (chain_amount_step v k _ Hitem), <- Hval.
  symmetry. exact (others_value nd _ _ Ho _ (path_node l k nd Hl Hk)).
Qed.

Lemma tree_next_output {E} k nd : path l !! k = Some nd ->
  next_output (E:=E) v k (chain_amount v (S k)) = Ok (path_out nd (path l !! S k)).
Proof.
  intros Hk. destruct (tree_chain_amount k nd Hk) as [_ Hval]. unfold next_output. cbn [genesis v].
  pose proof (lookup_lt_Some _ _ _ Hk) as Hlt. destruct (path l !! S k) as [cn|] eqn:HSk.
  - destruct (Hgen (S k) cn HSk) as (sig & _ & Hitem). cbn [genesis v]. rewrite Hitem. cbn [transition path_item].
    unfold input_txout, input_taproot. fold (node_taproot (E:=E) s (combine_keys (node_keys s (leaves cn)))).
    cbn [server_pubkey expiry_height v]. fold (node_taproot (E:=E) s (combine_keys (node_keys s (leaves cn)))).
    rewrite node_taproot_Ok by done. rewrite <- Hval. done.
  - rewrite lookup_ge_None_2 by (apply lookup_ge_None in HSk; lia). apply lookup_ge_None in HSk.
    destruct (path_leaf l k nd Hl Hk ltac:(lia)) as [Hi _]. cbn [path_out]. rewrite Hi, Hr.
    unfold policy_txout. cbn [policy amount server_pubkey exit_delta expiry_height v].
    by rewrite (policy_script_Ok s Hs l r Hr).
Qed.
(** The exit transactions are the signed transactions of the path. *)
Definition exit_tx_at (k : nat) (nd : Node) : Transaction * Z :=
  (default (unsigned_tx null_outpoint []) (stxs !! node_idx nd), Z.of_nat (out_pos nd (path l !! S k))).
Definition exit_txs : list (Transaction * Z) := imap exit_tx_at (path l).

Lemma exit_txs_lookup k nd : path l !! k = Some nd -> exists p sig,
  exit_txs !! k = Some (signed_tx p (node_outs s t nd) sig, Z.of_nat (out_pos nd (path l !! S k))) /\
  sigs !! node_idx nd = Some sig /\ txs !! node_idx nd = Some (unsigned_tx p (node_outs s t nd)) /\
  stxs !! node_idx nd = Some (signed_tx p (node_outs s t nd) sig) /\ prev_at utxo t txs (node_idx nd) p.
Proof.
  intros Hk. destruct (node_signed _ _ (path_node l k nd Hl Hk)) as (p & sig & Hsig & Htx & Hst & Hp).
  exists p, sig. split; [|done]. unfold exit_txs. rewrite list_lookup_imap, Hk. cbn. unfold exit_tx_at. by rewrite Hst.
Qed.

Lemma exit_txs_prev k nd p : path l !! k = Some nd -> prev_at utxo t txs (node_idx nd) p ->
  p = match k with
      | O => utxo
      | S i => default utxo ((fun q => mkOutPoint (compute_txid q.1) q.2) <$> exit_txs !! i)
      end.
Proof.
  intros Hk Hp. destruct k as [|i].
  - destruct (path_root l Hl) as (rn & Hrn & Hi). assert (rn = nd) as -> by congruence.
    pose proof (ok_length _ _ Ht) as Hlen'. assert (parent_idx_of t (node_idx nd) = None) as Hpar.
    { apply (root_parent s t Hnew); rewrite Hi; lia. }
    unfold prev_at in Hp. by rewrite Hpar in Hp.
  - destruct (lookup_lt_is_Some_2 (path l) i) as [pn Hpn]; [apply lookup_lt_Some in Hk; lia|].
    destruct (exit_txs_lookup i pn Hpn) as (q & sig & Hi & _ & _ & Hst & _). rewrite Hi. cbn. rewrite Hk.
    exact (path_prev l i pn nd p Hl Hpn Hk Hp _ Hst).
Qed.

Lemma tree_chain {E} : chain_from (E:=E) v gen 0 utxo = Ok exit_txs.
Proof.
  apply chain_from_intro; [unfold exit_txs; by rewrite length_imap|]. intros k item tx oi Hitem Htx.
  destruct (gen_lookup k item Hitem) as (nd & sig & Hk & Hsig & ->).
  destruct (exit_txs_lookup k nd Hk) as (p & sig' & Hx & Hsig' & _ & _ & Hp).
  assert (sig' = sig) as -> by congruence. rewrite Hx in Htx. injection Htx as <- <-. split; [done|].
  exists (path_out nd (path l !! S k)), [sig_serialize sig]. split; [by apply tree_next_output|]. split; [done|].
  rewrite <- (exit_txs_prev k nd p Hk Hp). unfold signed_tx. do 2 f_equal.
  destruct (path_out_pos l k nd Hl Hk) as [Ho Hrad]. unfold RADIX in Hrad. unfold path_item.
  rewrite <- (Z.mod_small (Z.of_nat (out_pos nd (path l !! S k))) (2 ^ 8)) at 1 by lia.
  symmetry. apply others_of_outputs; [exact Ho|]. apply Z.mod_small. lia.
Qed.

Lemma path_length_pos : (0 < length (path l))%nat.
Proof. destruct (path_root l Hl) as (rn & Hrn & _). by apply lookup_lt_Some in Hrn. Qed.

Lemma tree_transactions {E} : chain_amount v 0 < 2 ^ 64 -> transactions (E:=E) v = Ok (Some exit_txs).
Proof.
  intros Hlt. pose proof path_length_pos as Hp.
  rewrite transactions_chain; [|exact tree_amounts_ok|intros Hnil; rewrite <- Hlen in Hp; change gen with (genesis v) in Hp; rewrite Hnil in Hp; cbn in Hp; lia].
  destruct (Z.ltb_spec (chain_amount v 0) (2 ^ 64)); [|lia]. cbn [genesis anchor_point v]. by rewrite tree_chain.
Qed.
(** ** The leaf is a good VTXO *)
Context (Hdust : Forall (fun q => P2TR_DUST <= req_amount (sr_vtxo q)) (ts_vtxos s)).
Context (Hsigned : forall i nd sig tx, nodes t !! i = Some nd -> sigs !! i = Some sig -> txs !! i = Some tx ->
  verify_schnorr sig (key_spend_sighash tx (cosign_out s (leaves nd)))
    (output_key (node_tr s (combine_keys (node_keys s (leaves nd))))) = true).
Context (anchor_tx : Transaction) (Hanchor : compute_txid anchor_tx = op_txid utxo).
Context (Hfund : output anchor_tx !! Z.to_nat (op_vout utxo) = Some (cosign_out s (leaves_at t (nb_nodes t - 1)))).

Lemma leaves_value_dust i : (i < nb_nodes t)%nat -> P2TR_DUST <= leaves_value s (leaves_at t i).
Proof.
  intros Hi. pose proof (apos_width n t Hn0 Ht i Hi) as Hw. rewrite (leaves_at_apos n t Hn0 Ht i Hi).
  destruct (cyc n (apos n i) (apos n (S i) - apos n i)) as [|a ls] eqn:Hc.
  { apply (f_equal length) in Hc. unfold cyc in Hc. rewrite length_fmap, length_seq in Hc. cbn in Hc. lia. }
  assert (a < n)%nat as Ha.
  { apply (leaves_at_lt n t Hn0 Ht a i). rewrite (leaves_at_apos n t Hn0 Ht i Hi), Hc. by left. }
  unfold leaves_value. rewrite fmap_cons, sum_Z_cons. pose proof (leaves_value_nonneg s Hs ls) as Hnn.
  unfold leaves_value in Hnn. unfold leaf_amount at 1. destruct (leaf_request s a Ha) as [q Hq]. rewrite Hq. cbn [fmap option_fmap option_map from_option id].
  pose proof (Forall_lookup_1 _ _ _ _ Hdust Hq) as Hge. cbn in Hge. lia.
Qed.

Lemma node_outs_standard i nd : nodes t !! i = Some nd -> Forall (fun o => is_standard o = true) (node_outs s t nd).
Proof.
  intros Hnd. pose proof (node_outs_p2tr i nd Hnd) as Hp. apply Forall_lookup. intros j o Ho.
  destruct (Forall_lookup_1 _ _ _ _ Hp Ho) as [k Hk]. unfold is_standard. rewrite Hk, p2tr_kind. apply Z.leb_le.
  unfold node_outs in Ho. destruct (is_leaf nd).
  - destruct (ts_vtxos s !! node_idx nd) as [q|] eqn:Hq; [|done]. destruct j; [|done]. injection Ho as <-.
    exact (Forall_lookup_1 _ _ _ _ Hdust Hq).
  - rewrite list_lookup_fmap in Ho. destruct (children nd !! j) as [cn|] eqn:Hcn; [|done]. injection Ho as <-.
    destruct (child_bound s Hs t Hnew _ _ _ Hnd (list_elem_of_lookup_2 _ _ _ Hcn)) as (Hlt & Hb & _).
    apply leaves_value_dust. lia.
Qed.

Lemma tree_anchor_amount : exists rn, path l !! 0%nat = Some rn /\ leaves rn = leaves_at t (nb_nodes t - 1) /\
  chain_amount v 0 = leaves_value s (leaves rn) /\ chain_amount v 0 < 2 ^ 64.
Proof.
  destruct (path_root l Hl) as (rn & Hrn & Hi). exists rn. pose proof (path_node l _ rn Hl Hrn) as Hnd. rewrite Hi in Hnd.
  pose proof (leaves_at_node t _ _ Hnd) as Hlv. destruct (tree_chain_amount 0 rn Hrn) as [Hca _].
  pose proof (leaves_value_bound s Hs t Hnew _ (lookup_lt_Some _ _ _ Hnd)) as Hb. rewrite Hlv in Hb. rewrite Hca. split_and!; [done|done|done|lia].
Qed.

Lemma tree_prev_txout k nd : path l !! k = Some nd ->
  prev_txout v anchor_tx exit_txs k = Some (cosign_out s (leaves nd)).
Proof.
  intros Hk. destruct k as [|i].
  - destruct tree_anchor_amount as (rn & Hrn & Hlv & _). assert (rn = nd) as -> by congruence. rewrite Hlv. exact Hfund.
  - destruct (lookup_lt_is_Some_2 (path l) i) as [pn Hpn]; [apply lookup_lt_Some in Hk; lia|].
    destruct (exit_txs_lookup i pn Hpn) as (p & sig & Hx & _). cbn [prev_txout]. rewrite Hx. cbn [mbind option_bind fst snd].
    destruct (path_out_pos l i pn Hl Hpn) as [Ho _]. rewrite Hk in *. rewrite Nat2Z.id. unfold signed_tx. cbn [output].
    rewrite lookup_app_l by eauto using lookup_lt_Some. exact Ho.
Qed.

Lemma tree_step_ok k item tx oi : gen !! k = Some item -> exit_txs !! k = Some (tx, oi) ->
  step_ok v anchor_tx exit_txs k item tx.
Proof.
  intros Hitem Htx. destruct (gen_lookup k item Hitem) as (nd & sig & Hk & Hsig & ->).
  destruct (exit_txs_lookup k nd Hk) as (p & sig' & Hx & Hsig' & Hutx & _ & _).
  assert (sig' = sig) as -> by congruence. rewrite Hx in Htx. injection Htx as <- _.
  pose proof (path_node l k nd Hl Hk) as Hnd. split; [done|]. split.
  - cbn. apply Forall_forall. intros o Ho%others_of_incl. pose proof (node_outs_standard _ _ Hnd) as Hst.
    rewrite Forall_forall in Hst. by apply Hst.
  - exists (cosign_out s (leaves nd)). split; [by apply tree_prev_txout|].
    exists sig, (node_tr s (combine_keys (node_keys s (leaves nd)))). split; [done|]. split.
    + exact (node_taproot_Ok s Hs (combine_keys (node_keys s (leaves nd)))).
    + cbn [transition_sighash transition path_item].
      rewrite <- key_sighash_strip, signed_tx_strip, key_sighash_strip. by apply (Hsigned (node_idx nd)).
Qed.

Lemma tree_vtxo_good : (forall nd p sig, nodes t !! l = Some nd -> stxs !! l = Some (signed_tx p (node_outs s t nd) sig) ->
    pt = mkOutPoint (compute_txid (signed_tx p (node_outs s t nd) sig)) 0) -> good anchor_tx v.
Proof.
  intros Hpt. destruct tree_anchor_amount as (rn & Hrn & Hlv & Hca & Hlt).
  pose proof (tree_transactions (E:=string) Hlt) as Htx. destruct (Hgen 0 rn Hrn) as (rsig & _ & Hfirst).
  split; [exact tree_amounts_ok|exact tree_indices_ok|exact Hanchor| |].
  - apply validate_iff; [exact tree_amounts_ok|exact Hanchor|]. eexists _, exit_txs.
    split; [cbn [genesis v]; by rewrite head_lookup, Hfirst|]. split; [exact Htx|]. split; [|exact tree_step_ok].
    exists (cosign_out s (leaves rn)). split; [|cbn [anchor_point v]; by rewrite Hfund, Hlv].
    unfold input_txout. cbn [transition path_item input_taproot].
    pose proof (node_taproot_Ok (E:=string) s Hs (combine_keys (node_keys s (leaves rn)))) as Htr.
    unfold node_taproot in Htr. cbn [server_pubkey expiry_height v]. rewrite Htr. cbn. unfold cosign_out. by rewrite Hca.
  - pose proof path_length_pos as Hp. destruct (lookup_lt_is_Some_2 (path l) (length (path l) - 1) ltac:(lia)) as [nd Hk].
    destruct (exit_txs_lookup _ nd Hk) as (p & sig & Hx & _ & _ & Hst & _).
    destruct (path_leaf l _ nd Hl Hk ltac:(lia)) as [Hi _]. pose proof (path_node l _ nd Hl Hk) as Hnd. rewrite Hi in *.
    exists exit_txs. do 2 eexists. split; [exact Htx|]. split.
    + rewrite last_lookup. unfold exit_txs at 1. rewrite length_imap. replace (pred (length (path l))) with (length (path l) - 1)%nat by lia. exact Hx.
    + rewrite lookup_ge_None_2 by lia. cbn [point v out_pos]. by apply Hpt.
Qed.
End OneLeaf.
End Leaf.
(** ** Signatures of a whole tree *)

(** Every node has a signature for the output it spends. *)
Definition node_signature_ok (s : VtxoTreeSpec) (u : UnsignedVtxoTree) (sigs : list Signature) (i : nat) (nd : Node) : Prop :=
  exists sig tx, sigs !! i = Some sig /\ ut_txs u !! i = Some tx /\
    verify_schnorr sig (key_spend_sighash tx (cosign_out s (leaves nd)))
      (output_key (node_tr s (combine_keys (node_keys s (leaves nd))))) = true.

Lemma verify_cosign_sigs_iff s t utxo u sigs : spec_ok s -> new (nb_leaves s) = Some t -> utree_ok s t utxo u ->
  verify_cosign_sigs u sigs = Ok tt <->
  forall i nd, nodes t !! i = Some nd -> node_signature_ok s u sigs i nd.
Proof.
  intros Hs Hnew [Hus Huu Hut Hpks Htxs Hsh]. pose proof (Htree s t Hnew) as Ht. unfold verify_cosign_sigs. rewrite Hut.
  set (f := fun node : Node => _).
  assert (forall i nd, nodes t !! i = Some nd -> f nd = Ok tt <-> node_signature_ok s u sigs i nd) as Hf.
  { intros i nd Hnd. unfold f, node_signature_ok. rewrite (node_idx_at _ t Ht _ _ Hnd).
    destruct (txs_ok_lookup s t utxo _ i nd Htxs Hnd) as (p & Htx & _).
    assert ((agg_pk_of s <$> nodes t) !! i = Some (agg_pk_of s nd)) as Hpk by (rewrite list_lookup_fmap; by rewrite Hnd).
    rewrite (at_idx_Some _ _ _ (Hsh i nd _ Hnd Htx)), Hpks, (at_idx_Some _ _ _ Hpk), Hus. cbn [mbind outcome_bind].
    rewrite (node_taproot_Ok s Hs). cbn [mbind outcome_bind]. destruct (sigs !! i) as [sig|]; cbn [ok_or mbind outcome_bind].
    - rewrite ensure_Ok. split; [intros Hv; eauto 10|]. intros (sig' & tx & [= <-] & Htx' & Hv).
      rewrite Htx in Htx'. by injection Htx' as <-.
    - split; [done|]. by intros (? & ? & ? & _). }
  destruct (mapM f (nodes t)) as [us|e|] eqn:Hm; cbn.
  - split; [|done]. intros _ i nd Hnd. apply (Hf i nd Hnd). destruct (mapM_lookup f _ _ i nd Hm Hnd) as ([] & _ & ->). done.
  - split; [done|]. intros Hall. destruct (mapM_total f (nodes t)) as [k Hk]; [|congruence].
    intros i nd Hnd. exists tt. by apply (Hf i nd Hnd), Hall.
  - split; [done|]. intros Hall. destruct (mapM_total f (nodes t)) as [k Hk]; [|congruence].
    intros i nd Hnd. exists tt. by apply (Hf i nd Hnd), Hall.
Qed.

(** [anchor_tx] pays the tree at [utxo]. *)
Definition tree_funded (anchor_tx : Transaction) (s : VtxoTreeSpec) (utxo : OutPoint) : Prop :=
  compute_txid anchor_tx = op_txid utxo /\
  exists o, funding_tx_txout (E:=unit) s = Ok o /\ output anchor_tx !! Z.to_nat (op_vout utxo) = Some o.

(** The VTXO of a leaf is what was requested. *)
Definition vtxo_of_request (s : VtxoTreeSpec) (utxo : OutPoint) (r : SignedVtxoRequest) (v : Vtxo) : Prop :=
  policy v = req_policy (sr_vtxo r) /\ amount v = req_amount (sr_vtxo r) /\ expiry_height v = ts_expiry_height s /\
  server_pubkey v = ts_server_pubkey s /\ exit_delta v = ts_exit_delta s /\ anchor_point v = utxo.

(** No leaf of the tree is below the dust limit. *)
Definition no_dust_leaves (s : VtxoTreeSpec) : Prop :=
  Forall (fun q => P2TR_DUST <= req_amount (sr_vtxo q)) (ts_vtxos s).

Lemma into_cached_tree_Ok {E} s t utxo u sigs : spec_ok s -> new (nb_leaves s) = Some t -> utree_ok s t utxo u ->
  exists stxs, into_cached_tree (E:=E) (into_signed_tree u sigs) = Ok (mkCachedTree (mkSignedTree s utxo sigs) stxs) /\
    forall i p outs sig, ut_txs u !! i = Some (unsigned_tx p outs) -> sigs !! i = Some sig ->
      stxs !! i = Some (signed_tx p outs sig).
Proof.
  intros Hs Hnew [Hus Huu _ _ Htxs _]. unfold into_cached_tree, into_signed_tree, all_signed_txs, signed_transactions.
  cbn [st_spec st_utxo cosign_sigs]. rewrite Hus, Huu.
  destruct (unsigned_transactions_Ok s Hs t Hnew (E:=E) utxo) as (txs & -> & Htxs'). cbn [mbind outcome_bind].
  assert (txs = ut_txs u) as -> by (by eapply txs_ok_unique).
  destruct (push_signatures_Ok (E:=E) (ut_txs u) sigs) as (stxs & -> & _ & Hst).
  - intros i tx Hi. destruct (node_at t i) as [nd Hnd]; [rewrite <- (to_length _ _ _ _ Htxs); by eapply lookup_lt_Some|].
    destruct (txs_ok_lookup s t utxo _ i nd Htxs Hnd) as (p & Htx & _). exists p, (node_outs s t nd). congruence.
  - exists stxs. done.
Qed.

Section Signed.
Context (s : VtxoTreeSpec) (t : Tree) (utxo : OutPoint) (u : UnsignedVtxoTree) (sigs : list Signature).
Context (Hs : spec_ok s) (Hnew : new (nb_leaves s) = Some t) (Hu : utree_ok s t utxo u).
Context (Hv : verify_cosign_sigs u sigs = Ok tt).
Let Htxs := uo_txs _ _ _ _ Hu.
Let Hsig := proj1 (verify_cosign_sigs_iff s t utxo u sigs Hs Hnew Hu) Hv.
Context (stxs : list Transaction).
Context (Hst : forall i p outs sig, ut_txs u !! i = Some (unsigned_tx p outs) -> sigs !! i = Some sig ->
  stxs !! i = Some (signed_tx p outs sig)).

Lemma verified_cover : sigs_cover t sigs.
Proof. intros i Hi. destruct (node_at t i Hi) as [nd Hnd]. destruct (Hsig i nd Hnd) as (sig & _ & -> & _). done. Qed.

Lemma verified_signed i nd sig tx : nodes t !! i = Some nd -> sigs !! i = Some sig -> ut_txs u !! i = Some tx ->
  verify_schnorr sig (key_spend_sighash tx (cosign_out s (leaves nd)))
    (output_key (node_tr s (combine_keys (node_keys s (leaves nd))))) = true.
Proof. intros Hnd Hsg Htx. destruct (Hsig i nd Hnd) as (sg' & tx' & Hsg' & Htx' & Hvf). congruence. Qed.

Let ct := mkCachedTree (mkSignedTree s utxo sigs) stxs.

Lemma build_vtxo_Ok {E} l r : ts_vtxos s !! l = Some r ->
  exists gen nl p sig, nodes t !! l = Some nl /\ stxs !! l = Some (signed_tx p (node_outs s t nl) sig) /\
    build_vtxo (E:=E) ct l = Ok (Some (mkVtxo (req_policy (sr_vtxo r)) (req_amount (sr_vtxo r)) (ts_expiry_height s)
      (ts_server_pubkey s) (ts_exit_delta s) utxo gen (mkOutPoint (compute_txid (signed_tx p (node_outs s t nl) sig)) 0))) /\
    length gen = length (path t l) /\
    forall k nd, path t l !! k = Some nd -> exists sig, sigs !! node_idx nd = Some sig /\
      gen !! k = Some (path_item s t nd (path t l !! S k) sig).
Proof.
  intros Hr. pose proof (lookup_lt_Some _ _ _ Hr) as Hl.
  destruct (genesis_Ok s Hs t Hnew utxo _ Htxs sigs verified_cover stxs Hst (E:=E) l Hl) as (items & Hitems & Hlen & Hgen).
  destruct (branch_nonempty s Hs t Hnew l Hl) as (nl & rest & Hnl & Hb).
  destruct (node_signed s t utxo _ Htxs sigs verified_cover stxs Hst l nl Hnl) as (p & sig & _ & _ & Hstl & _).
  exists (reverse items), nl, p, sig. split_and!; [done..| |by rewrite length_reverse|exact Hgen].
  unfold build_vtxo. cbn [ct_spec st_spec ct_txs st_utxo ct]. rewrite Hr, Hnew. cbn [expect mbind outcome_bind].
  fold ct in Hitems. rewrite Hitems. cbn [mbind outcome_bind]. rewrite Hstl. reflexivity.
Qed.

Lemma exit_branch_Ok {E} l : (l < nb_leaves s)%nat ->
  cached_exit_branch (E:=E) ct l = Ok (Some (fst <$> exit_txs t stxs l)).
Proof.
  intros Hl. unfold cached_exit_branch, branch_txs. cbn [ct_spec st_spec ct_txs ct].
  destruct (Nat.leb_spec (nb_leaves s) l); [lia|]. rewrite Hnew. cbn [expect mbind outcome_bind].
  assert (mapM (fun nd => at_idx (E:=E) stxs (node_idx nd)) (iter_branch t l) =
    Ok ((fun nd => default (unsigned_tx null_outpoint []) (stxs !! node_idx nd)) <$> iter_branch t l)) as ->.
  { apply mapM_outcome_Ok, Forall2_fmap_r, Forall_Forall2_diag, Forall_lookup. intros k nd Hk.
    destruct (branch_elem s Hs t Hnew l k nd Hl Hk) as [Hnd _].
    destruct (node_signed s t utxo _ Htxs sigs verified_cover stxs Hst _ nd Hnd) as (q & sg & _ & _ & Hq & _).
    unfold compose. by rewrite (at_idx_Some _ _ _ Hq), Hq. }
  cbn [mbind outcome_bind]. do 2 f_equal. unfold exit_txs, path. rewrite <- fmap_reverse, fmap_imap. apply list_eq. intros k.
  rewrite list_lookup_imap, list_lookup_fmap. done.
Qed.
End Signed.

Lemma build_vtxo_good {E} s t utxo u sigs anchor_tx l r : spec_ok s -> no_dust_leaves s ->
  new (nb_leaves s) = Some t -> utree_ok s t utxo u -> verify_cosign_sigs u sigs = Ok tt ->
  tree_funded anchor_tx s utxo -> ts_vtxos s !! l = Some r ->
  exists c v txs, into_cached_tree (E:=E) (into_signed_tree u sigs) = Ok c /\ build_vtxo (E:=E) c l = Ok (Some v) /\
    good anchor_tx v /\ vtxo_of_request s utxo r v /\ is_fully_signed v = true /\
    transactions (E:=string) v = Ok (Some txs) /\ cached_exit_branch (E:=E) c l = Ok (Some (fst <$> txs)).
Proof.
  intros Hs Hdust Hnew Hu Hv [Htxid (o & Ho & Hout)] Hr. pose proof (lookup_lt_Some _ _ _ Hr) as Hl.
  destruct (into_cached_tree_Ok (E:=E) s t utxo u sigs Hs Hnew Hu) as (stxs & Hc & Hst).
  rewrite (funding_tx_txout_Ok s Hs t Hnew) in Ho. apply Ok_inj in Ho as <-. pose proof (uo_txs _ _ _ _ Hu) as Htxs.
  pose proof (verified_cover s t utxo u sigs Hs Hnew Hu Hv) as Hcov.
  destruct (build_vtxo_Ok (E:=E) s t utxo u sigs Hs Hnew Hu Hv stxs Hst l r Hr) as (gen & nl & p & sig & Hnl & Hstl & Hbv & Hlen & Hgen).
  eexists _, _, _. split; [exact Hc|]. split; [exact Hbv|]. split.
  { apply (tree_vtxo_good s Hs t Hnew utxo _ Htxs sigs Hcov stxs Hst l Hl r Hr _ _ Hlen Hgen Hdust
      (verified_signed s t utxo u sigs Hs Hnew Hu Hv) anchor_tx Htxid Hout). intros nd q sg Hnd Hq. congruence. }
  split; [by split_and!|]. split.
  { apply forallb_Forall, Forall_lookup. cbn [genesis]. intros k item Hk.
    destruct (gen_lookup s Hs t sigs l Hl gen Hlen Hgen k item Hk) as (nd & sg & _ & _ & ->). done. }
  split; [|by apply (exit_branch_Ok s t utxo u sigs Hs Hnew Hu Hv)].
  apply (tree_transactions s Hs t Hnew utxo _ Htxs sigs Hcov stxs Hst l Hl r Hr _ _ Hlen Hgen).
  by destruct (tree_anchor_amount s Hs t Hnew utxo sigs l Hl r Hr gen
    (mkOutPoint (compute_txid (signed_tx p (node_outs s t nl) sig)) 0) Hlen Hgen) as (rn & _ & _ & _ & Hlt).
Qed.

(** C3. The users of a round get what they asked for: once every node signature
    of a tree passes [verify_cosign_sigs], each leaf gives a VTXO with the
    requested policy and amount that is fully signed, has the right id and
    validates against any transaction that funds the tree; and the exit branch
    of the tree is exactly the chain of its exit transactions. *)
Theorem tree_vtxos_good {E} s utxo u sigs anchor_tx l r : spec_ok s -> no_dust_leaves s ->
  unsigned_tree_new (E:=E) s utxo = Ok u -> verify_cosign_sigs u sigs = Ok tt ->
  tree_funded anchor_tx s utxo -> ts_vtxos s !! l = Some r ->
  exists c v txs, into_cached_tree (E:=E) (into_signed_tree u sigs) = Ok c /\ build_vtxo (E:=E) c l = Ok (Some v) /\
    good anchor_tx v /\ vtxo_of_request s utxo r v /\ is_fully_signed v = true /\
    transactions (E:=string) v = Ok (Some txs) /\ cached_exit_branch (E:=E) c l = Ok (Some (fst <$> txs)).
Proof.
  intros Hs Hdust Hu Hv Hf Hr. destruct (new_spec (nb_leaves s) (so_nonempty _ Hs)) as (t & Hnew & _).
  destruct (unsigned_tree_new_Ok s Hs t Hnew (E:=E) utxo) as (u' & Hu' & Hok).
  assert (u' = u) as -> by congruence. by eapply build_vtxo_good.
Qed.
End TreeVtxos.

(** *** Witnesses *)

(** A tree of five leaves (two inner nodes), one of them without a cosign key. *)
Definition tree_req (owner : Byte.byte) (amount : Z) (cosign : option Byte.byte) : SignedVtxoRequest (B := model) :=
  mkSignedRequest (B := model) (mkRequest (B := model) amount (new_pubkey (B := model) owner)) cosign.
Definition tree_s : VtxoTreeSpec (B := model) :=
  mkTreeSpec (B := model)
    [tree_req Byte.x01 1000 (Some Byte.x11); tree_req Byte.x02 2000 (Some Byte.x12); tree_req Byte.x03 3000 None;
     tree_req Byte.x04 4000 (Some Byte.x14); tree_req Byte.x05 5000 (Some Byte.x15)]
    100000 Byte.x09 144 [Byte.x19].
Definition tree_funding_tx : Transaction :=
  mkTx 2 0 [] [ok_value (mkTxOut 0 []) (funding_tx_txout (B := model) (E := unit) tree_s)].
Definition tree_utxo : OutPoint := mkOutPoint (compute_txid (Bitcoin := model) tree_funding_tx) 0.
Definition tree_u : UnsignedVtxoTree (B := model) :=
  ok_value (mkUnsignedTree (B := model) tree_s tree_utxo [] [] [] (mkTree [] 0))
    (unsigned_tree_new (B := model) (E := unit) tree_s tree_utxo).
Definition tree_sigs : list (@Signature model) :=
  zip_with (fun nd sh => (output_key (B := model) (node_tr tree_s (agg_pk_of tree_s nd)), sh))
    (nodes (ut_tree tree_u)) (ut_sighashes tree_u).

Lemma tree_s_ok : spec_ok tree_s.
Proof.
  split; [cbn; lia|by eexists| |cbn; lia].
  repeat constructor; cbn; try lia; eexists; reflexivity.
Qed.

Lemma tree_s_dust : no_dust_leaves tree_s.
Proof. repeat constructor; cbn; unfold P2TR_DUST; lia. Qed.

Lemma tree_s_funded : tree_funded tree_funding_tx tree_s tree_utxo.
Proof. split; [reflexivity|]. eexists. split; [vm_compute; reflexivity|vm_compute; reflexivity]. Qed.

Lemma tree_vtxos_good_witness : exists c v txs,
  into_cached_tree (E:=unit) (into_signed_tree tree_u tree_sigs) = Ok c /\ build_vtxo (E:=unit) c 4 = Ok (Some v) /\
  good tree_funding_tx v /\ vtxo_of_request tree_s tree_utxo (tree_req Byte.x05 5000 (Some Byte.x15)) v /\
  is_fully_signed v = true /\ transactions (E:=string) v = Ok (Some txs) /\
  cached_exit_branch (E:=unit) c 4 = Ok (Some (fst <$> txs)).
Proof.
  apply (tree_vtxos_good (B := model) (E:=unit) tree_s tree_utxo tree_u tree_sigs tree_funding_tx 4
    (tree_req Byte.x05 5000 (Some Byte.x15)) tree_s_ok tree_s_dust); [vm_eq|vm_eq|exact tree_s_funded|reflexivity].
Defined.
