(* ===== verification/TreeCosign.v ===== *)
(** * Cosigning a VTXO tree

    The owners of the leaves sign their branch, the global signers sign all
    nodes, and the partial signatures are combined per node.  This file proves
    that honest partial signatures pass the checks of
    [verify_branch_cosign_partial_sigs] and [verify_global_cosign_partial_sigs],
    and that partial signatures that pass these checks combine into signatures
    that pass [verify_cosign_sigs]: the queue that [combine_partial_signatures]
    keeps per cosign key always holds the signature of the node at hand first. *)
From S2P Require Import Prelude Tree Bitcoin Encode Concrete Policy Vtxo Validation Board Extend Arkoor SignedTree TreeTxs TreeVtxos.

Open Scope Z_scope.

(** ** Enumerated vectors *)
Definition enum {A} (off : nat) (l : list A) : list (nat * A) := imap (fun i x => (off + i, x)%nat) l.

Lemma enum_cons {A} off (x : A) l : enum off (x :: l) = (off, x) :: enum (S off) l.
Proof.
  unfold enum. cbn [imap]. rewrite Nat.add_0_r. f_equal. apply imap_ext. intros i y _. cbn. f_equal. lia.
Qed.

Lemma tail_drop {A} (l : list A) k : tail (drop k l) = drop (S k) l.
Proof. revert k. induction l as [|x l IH]; intros [|k]; cbn; [done..|]. exact (IH k). Qed.

Lemma skip_to_spec {A} lvl (l : list A) : forall off, (off <= lvl)%nat ->
  skip_to lvl (enum off (drop off l)) = (fun x => (x, enum (S lvl) (drop (S lvl) l))) <$> l !! lvl.
Proof.
  intros off Hle. remember (lvl - off)%nat as d eqn:Hd. revert off Hle Hd. induction d as [|d IH]; intros off Hle Hd.
  - assert (off = lvl) as -> by lia. destruct (l !! lvl) as [x|] eqn:Hx.
    + rewrite (drop_S _ _ _ Hx), enum_cons. cbn [skip_to]. by rewrite bool_decide_true.
    + apply lookup_ge_None in Hx. by rewrite drop_ge.
  - destruct (l !! off) as [x|] eqn:Hx.
    + rewrite (drop_S _ _ _ Hx), enum_cons. cbn [skip_to]. rewrite bool_decide_false by lia. apply IH; lia.
    + apply lookup_ge_None in Hx. rewrite drop_ge by lia. cbn. by rewrite lookup_ge_None_2 by lia.
Qed.

(** The levels along a branch increase, from at least [off] on. *)
Fixpoint levels_from (off : nat) (branch : list Node) : Prop :=
  match branch with
  | [] => True
  | nd :: rest => (off <= node_level nd)%nat /\ levels_from (S (node_level nd)) rest
  end.

Lemma levels_from_links branch : forall off,
  (forall nd, head branch = Some nd -> (off <= node_level nd)%nat) ->
  (forall k a b, branch !! k = Some a -> branch !! S k = Some b -> (node_level a < node_level b)%nat) ->
  levels_from off branch.
Proof.
  induction branch as [|nd branch IH]; intros off Hoff H; [done|]. cbn. split; [by apply Hoff|]. apply IH.
  - intros b Hb. apply (H O nd b); [done|]. destruct branch; [done|]. exact Hb.
  - intros k a b Ha Hb. exact (H (S k) a b Ha Hb).
Qed.

Section Cosign.
Context `{B : Bitcoin} `{W : !WitnessLaws B} `{K : !KeyLaws B} `{M : !MusigLaws B}.
Context (s : VtxoTreeSpec) (Hs : spec_ok s) (t : Tree) (Hnew : new (nb_leaves s) = Some t).
Context (utxo : OutPoint) (u : UnsignedVtxoTree) (Hu : utree_ok s t utxo u).
Let n := nb_leaves s.
Let Hn0 : (0 < n)%nat := Hpos s Hs.
Let Ht : tree_ok n t := Htree s t Hnew.

Lemma branch_levels l : (l < n)%nat -> levels_from 0 (iter_branch t l).
Proof.
  intros Hl. apply levels_from_links; [intros; lia|]. intros k a b Ha Hb.
  eapply (branch_links n t Hn0 Ht (nb_nodes t) l k a b); [rewrite (ok_length _ _ Ht); lia|done..].
Qed.

(** What is signed for a node, with its tweak. *)
Definition node_session (aggs : list AggregatedNonce) (i : nat) (nd : Node) (agg : AggregatedNonce) (msg : bytes) : Prop :=
  nodes t !! i = Some nd /\ aggs !! i = Some agg /\ ut_sighashes u !! i = Some msg.

Definition tweak_of (nd : Node) : bytes := tap_tweak (node_tr s (combine_keys (node_keys s (leaves nd)))).
Definition sigs_valid (nd : Node) (agg : AggregatedNonce) (msg : bytes) (ps : PartialSignature) (pn : PublicNonce)
    (pk : PublicKey) : bool :=
  session_partial_verify (sort_keys (node_keys s (leaves nd))) (Some (tweak_of nd)) agg msg ps pn pk.

Lemma sighash_at i nd : nodes t !! i = Some nd -> exists msg, ut_sighashes u !! i = Some msg.
Proof.
  intros Hnd. destruct (txs_ok_lookup s t utxo _ i nd (uo_txs _ _ _ _ Hu) Hnd) as (p & Htx & _).
  eexists. exact (uo_sighash _ _ _ _ Hu i nd _ Hnd Htx).
Qed.

Lemma node_tweak_Ok {E} i nd : nodes t !! i = Some nd -> node_tweak (E:=E) u nd = Ok (tweak_of nd).
Proof.
  intros Hnd. unfold node_tweak. rewrite (node_idx_at n t Ht _ _ Hnd), (uo_pks _ _ _ _ Hu), (uo_spec _ _ _ _ Hu).
  assert ((agg_pk_of s <$> nodes t) !! i = Some (agg_pk_of s nd)) as Hpk by (rewrite list_lookup_fmap; by rewrite Hnd).
  rewrite (at_idx_Some _ _ _ Hpk). cbn [mbind outcome_bind]. by rewrite (node_taproot_Ok s Hs).
Qed.

(** The check of one partial signature is the check of its session. *)
Lemma verify_node_iff aggs i nd agg msg pk ps pn : node_session aggs i nd agg msg ->
  verify_node_cosign_partial_sig u nd pk aggs ps pn = Ok tt <-> sigs_valid nd agg msg ps pn pk = true.
Proof.
  intros (Hnd & Hagg & Hmsg). unfold verify_node_cosign_partial_sig, sigs_valid.
  rewrite (uo_spec _ _ _ _ Hu), (node_cosign_pubkeys_Ok s Hs t Hnew _ _ Hnd), (node_idx_at n t Ht _ _ Hnd).
  cbn [mbind outcome_bind]. rewrite (at_idx_Some _ _ _ Hmsg). cbn [mbind outcome_bind]. rewrite (node_tweak_Ok i nd Hnd).
  cbn [mbind outcome_bind]. rewrite Hagg. cbn. apply ensure_Ok.
Qed.

Lemma node_partial_sign_Ok {E} aggs i nd agg msg key sn : node_session aggs i nd agg msg ->
  node_partial_sign (E:=E) u aggs key nd sn =
  Ok (session_partial_sign (sort_keys (node_keys s (leaves nd))) (Some (tweak_of nd)) agg msg sn key).
Proof.
  intros (Hnd & Hagg & Hmsg). unfold node_partial_sign.
  rewrite (uo_spec _ _ _ _ Hu), (node_cosign_pubkeys_Ok s Hs t Hnew _ _ Hnd), (node_idx_at n t Ht _ _ Hnd).
  cbn [mbind outcome_bind]. rewrite (at_idx_Some _ _ _ Hmsg). cbn [mbind outcome_bind]. rewrite (node_tweak_Ok i nd Hnd).
  cbn [mbind outcome_bind]. by rewrite (at_idx_Some _ _ _ Hagg).
Qed.
(** ** The nonces of a node *)

(** The nonces that are aggregated for a node, in the order of its keys. *)
Definition node_nonces (lm : KeyMap (list PublicNonce)) (gn : list (list PublicNonce)) (i : nat) (nd : Node)
    (ns : list PublicNonce) : Prop :=
  exists lns gns, ns = lns ++ gns /\
    Forall2 (fun pk p => exists l, lm pk = Some l /\ l !! node_level nd = Some p) (omap (leaf_key s) (leaves nd)) lns /\
    Forall2 (fun g p => g !! i = Some p) gn gns.

Lemma agg_nonces_inv lm gn aggs : calculate_cosign_agg_nonces s lm gn = Ok aggs ->
  length gn = length (global_cosign_pubkeys s) /\ length aggs = nb_nodes t /\
  forall i nd, nodes t !! i = Some nd -> exists ns, node_nonces lm gn i nd ns /\ aggs !! i = Some (nonce_agg ns).
Proof.
  unfold calculate_cosign_agg_nonces. intros H. apply bind_Ok in H as ([] & Hg%ensure_Ok%bool_decide_eq_true & H).
  rewrite Hnew in H. cbn [expect mbind outcome_bind] in H. split; [done|].
  pose proof (mapM_length _ _ _ H) as Hlen. rewrite length_imap in Hlen. split; [exact Hlen|]. intros i nd Hnd.
  assert (imap pair (nodes t) !! i = Some (i, nd)) as Hp by (rewrite list_lookup_imap; by rewrite Hnd).
  destruct (mapM_lookup _ _ _ i _ H Hp) as (agg & Hagg & Hf). cbn [fst snd] in Hf.
  destruct (leaf_requests_Ok s Hs t Hnew (E:=string) i nd Hnd) as (vs & Hvs & Hom). rewrite Hvs in Hf. cbn [mbind outcome_bind] in Hf.
  rewrite Hom in Hf. apply bind_Ok in Hf as (lns & Hl & Hf). apply bind_Ok in Hf as (gns & Hgn & <-%Ok_inj).
  exists (lns ++ gns). split; [|done]. exists lns, gns. split; [done|].
  split.
  - apply mapM_outcome_Ok in Hl. eapply Forall2_impl; [exact Hl|]. intros pk p Hpk.
    apply bind_Ok in Hpk as (l & Hl'%ok_or_Ok & Hp'%ok_or_Ok). eauto.
  - apply mapM_outcome_Ok in Hgn. eapply Forall2_impl; [exact Hgn|]. intros g p Hgp%ok_or_Ok. exact Hgp.
Qed.

(** Nonces for every level and every node can be aggregated. *)
Lemma agg_nonces_total lm gn : length gn = length (global_cosign_pubkeys s) -> Forall (fun g => length g = nb_nodes t) gn ->
  (forall l pk, leaf_key s l = Some pk -> exists ns, lm pk = Some ns /\ (nb_nodes t <= length ns)%nat) ->
  exists aggs, calculate_cosign_agg_nonces s lm gn = Ok aggs.
Proof.
  intros Hg Hgn Hlm. unfold calculate_cosign_agg_nonces. rewrite bool_decide_true by done. rewrite Hnew.
  cbn [ensure expect mbind outcome_bind]. apply mapM_total. intros k [i nd] Hk. rewrite list_lookup_imap in Hk.
  destruct (nodes t !! k) as [nd'|] eqn:Hnd; [|done]. injection Hk as <- <-. cbn [fst snd].
  pose proof (lookup_lt_Some _ _ _ Hnd) as Hlt. fold (nb_nodes t) in Hlt.
  destruct (leaf_requests_Ok s Hs t Hnew (E:=string) k nd' Hnd) as (vs & Hvs & Hom). rewrite Hvs. cbn [mbind outcome_bind].
  rewrite Hom.
  match goal with |- exists b, (mapM ?f ?l ≫= _) = Ok b => destruct (mapM_total f l) as [lns ->]; [|cbn [mbind outcome_bind]] end.
  - intros j pk Hj%list_elem_of_lookup_2. apply list_elem_of_omap in Hj as (l & _ & Hl). destruct (Hlm l pk Hl) as (ns & -> & Hns).
    cbn [ok_or mbind outcome_bind]. pose proof (level_le_idx n t Hn0 Ht k nd' Hnd).
    destruct (lookup_lt_is_Some_2 ns (node_level nd')) as [p ->]; [lia|]. by eexists.
  - match goal with |- exists b, (mapM ?f ?l ≫= _) = Ok b => destruct (mapM_total f l) as [gns ->]; [|by eexists] end.
    intros j g Hj%list_elem_of_lookup_2. rewrite Forall_forall in Hgn. specialize (Hgn g Hj).
    destruct (lookup_lt_is_Some_2 g k) as [p ->]; [lia|]. by eexists.
Qed.

Lemma node_nonces_length lm gn i nd ns : length gn = length (global_cosign_pubkeys s) ->
  node_nonces lm gn i nd ns -> length ns = length (node_keys s (leaves nd)).
Proof.
  intros Hg (lns & gns & -> & Hl%Forall2_length & Hgn%Forall2_length). unfold node_keys. rewrite !length_app. lia.
Qed.

(** The nonce next to a key. *)
Lemma node_nonces_leaf lm gn i nd ns l pk : node_nonces lm gn i nd ns -> l ∈ leaves nd -> leaf_key s l = Some pk ->
  exists ls p, lm pk = Some ls /\ ls !! node_level nd = Some p /\ p ∈ ns.
Proof.
  intros (lns & gns & -> & Hl & _) Hin Hk.
  assert (pk ∈ omap (leaf_key s) (leaves nd)) as [j Hj]%list_elem_of_lookup_1 by (apply list_elem_of_omap; eauto).
  destruct (Forall2_lookup_l _ _ _ _ _ Hl Hj) as (p & Hp & ls & Hls & Hlvl). exists ls, p. split; [done|]. split; [done|].
  apply elem_of_app. left. by eapply list_elem_of_lookup_2.
Qed.

Lemma node_nonces_global lm gn i nd ns j g : node_nonces lm gn i nd ns -> gn !! j = Some g ->
  exists p, g !! i = Some p /\ p ∈ ns.
Proof.
  intros (lns & gns & -> & _ & Hg) Hj. destruct (Forall2_lookup_l _ _ _ _ _ Hg Hj) as (p & Hp & Hi).
  exists p. split; [done|]. apply elem_of_app. right. by eapply list_elem_of_lookup_2.
Qed.

Lemma session_at lm gn aggs i nd : calculate_cosign_agg_nonces s lm gn = Ok aggs -> nodes t !! i = Some nd ->
  exists ns msg, node_nonces lm gn i nd ns /\ node_session aggs i nd (nonce_agg ns) msg.
Proof.
  intros Ha Hnd. destruct (agg_nonces_inv lm gn aggs Ha) as (_ & _ & Hnode). destruct (Hnode i nd Hnd) as (ns & Hns & Hagg).
  destruct (sighash_at i nd Hnd) as [msg Hmsg]. exists ns, msg. by split.
Qed.

(** ** Branches *)

(** The branch check looks at every node of the branch, with the nonce of its
    level. *)
Definition branch_verified (aggs : list AggregatedNonce) (pk : PublicKey) (branch : list Node) (nonces : list PublicNonce)
    (sigs : list PartialSignature) : Prop :=
  forall k nd, branch !! k = Some nd -> exists ps pn, sigs !! k = Some ps /\ nonces !! node_level nd = Some pn /\
    verify_node_cosign_partial_sig u nd pk aggs ps pn = Ok tt.

Lemma verify_branch_loop_iff aggs pk nonces branch : forall off sigs, levels_from off branch ->
  verify_branch_loop u aggs pk branch (enum off (drop off nonces)) sigs = Ok tt <->
  branch_verified aggs pk branch nonces sigs.
Proof.
  induction branch as [|nd branch IH]; intros off sigs Hlv; [done|]. destruct Hlv as [Hoff Hlv]. cbn [verify_branch_loop].
  rewrite (skip_to_spec _ _ _ Hoff). split.
  - intros H. apply bind_Ok in H as ([pn rest] & Hpn%ok_or_Ok & H). destruct (nonces !! node_level nd) as [pn'|] eqn:Hn; [|done].
    injection Hpn as <- <-. apply bind_Ok in H as (ps & Hps%ok_or_Ok & H). apply bind_Ok in H as ([] & Hv%map_err_Ok & H).
    cbn [snd fst] in *. apply IH in H; [|done]. destruct sigs as [|ps' sigs]; [done|]. injection Hps as <-.
    intros [|k] nd' Hk; cbn in Hk; [injection Hk as <-; eauto|]. exact (H k nd' Hk).
  - intros H. destruct (H O nd eq_refl) as (ps & pn & Hps & Hpn & Hv). rewrite Hpn. cbn [fmap option_fmap option_map ok_or mbind outcome_bind].
    destruct sigs as [|ps' sigs]; [done|]. injection Hps as <-. cbn [head ok_or mbind outcome_bind fst snd tail]. rewrite Hv.
    cbn [map_err mbind outcome_bind]. apply IH; [done|]. intros k nd' Hk. exact (H (S k) nd' Hk).
Qed.

Lemma cosign_branch_loop_Ok {E} aggs key nonces branch : forall off, levels_from off branch ->
  (forall k nd, branch !! k = Some nd -> exists sn ps, nonces !! node_level nd = Some sn /\
     node_partial_sign (E:=E) u aggs key nd sn = Ok ps) ->
  exists sigs, cosign_branch_loop (E:=E) u aggs key branch (enum off (drop off nonces)) = Ok sigs /\
    length sigs = length branch /\
    forall k nd, branch !! k = Some nd -> exists sn ps, nonces !! node_level nd = Some sn /\ sigs !! k = Some ps /\
      node_partial_sign (E:=E) u aggs key nd sn = Ok ps.
Proof.
  induction branch as [|nd branch IH]; intros off Hlv H; [by exists []|]. destruct Hlv as [Hoff Hlv].
  destruct (H O nd eq_refl) as (sn & ps & Hsn & Hps).
  destruct (IH (S (node_level nd)) Hlv) as (sigs & Hsigs & Hlen & Hlook); [intros k x Hk; exact (H (S k) x Hk)|].
  exists (ps :: sigs). cbn [cosign_branch_loop]. rewrite (skip_to_spec _ _ _ Hoff), Hsn.
  cbn [fmap option_fmap option_map expect mbind outcome_bind fst snd]. rewrite Hps. cbn [mbind outcome_bind]. rewrite Hsigs.
  split; [done|]. split; [cbn; by rewrite Hlen|]. intros [|k] x Hk; cbn in Hk; [injection Hk as <-; eauto|]. exact (Hlook k x Hk).
Qed.
(** No two leaves share a cosign key. *)
Definition keys_distinct : Prop :=
  forall l l' pk, leaf_key s l = Some pk -> leaf_key s l' = Some pk -> l = l'.

Lemma leaf_idx_of_Ok l r pk : keys_distinct -> ts_vtxos s !! l = Some r -> cosign_pubkey r = Some pk ->
  leaf_idx_of s r = Some l.
Proof.
  intros Hd Hr Hpk. unfold leaf_idx_of. rewrite <- (take_drop_middle _ _ _ Hr).
  rewrite position_app_first; [f_equal; rewrite length_take; apply lookup_lt_Some in Hr; lia| |by apply bool_decide_eq_true].
  apply Forall_lookup. intros j x Hj. apply bool_decide_eq_false. intros ->. apply lookup_take_Some in Hj as [Hj Hlt].
  assert (l = j); [|lia]. apply (Hd l j pk); unfold leaf_key; [by rewrite Hr|by rewrite Hj].
Qed.

Lemma imap_pair_enum {A} (l : list A) : imap pair l = enum 0 (drop 0 l).
Proof. rewrite drop_0. by apply imap_ext. Qed.

Lemma verify_branch_iff aggs l r pk nonces sigs : keys_distinct -> length aggs = nb_nodes t ->
  ts_vtxos s !! l = Some r -> cosign_pubkey r = Some pk ->
  verify_branch_cosign_partial_sigs u aggs r nonces sigs = Ok tt <->
  length sigs = length (iter_branch t l) /\ branch_verified aggs pk (iter_branch t l) nonces sigs.
Proof.
  intros Hd Hlen Hr Hpk. pose proof (lookup_lt_Some _ _ _ Hr) as Hl. unfold verify_branch_cosign_partial_sigs.
  rewrite (uo_tree _ _ _ _ Hu), (uo_spec _ _ _ _ Hu), Hpk, (leaf_idx_of_Ok l r pk Hd Hr Hpk).
  rewrite bool_decide_true by done. cbn [assert ok_or mbind outcome_bind]. rewrite imap_pair_enum.
  destruct (Nat.compare_spec (length (iter_branch t l)) (length sigs)) as [Heq|Hlt|Hgt].
  - rewrite verify_branch_loop_iff by (by apply branch_levels). split; [done|]. by intros [_ ?].
  - split; [done|]. intros [? _]. lia.
  - split; [done|]. intros [? _]. lia.
Qed.

(** The partial signature a signer of a node makes is valid. *)
Lemma own_sig_valid lm gn i nd ns msg key sn : node_nonces lm gn i nd ns -> sec_to_pub_nonce sn ∈ ns ->
  keypair_public_key key ∈ node_keys s (leaves nd) ->
  sigs_valid nd (nonce_agg ns) msg
    (session_partial_sign (sort_keys (node_keys s (leaves nd))) (Some (tweak_of nd)) (nonce_agg ns) msg sn key)
    (sec_to_pub_nonce sn) (keypair_public_key key) = true.
Proof. intros _ Hsn Hkey. apply partial_sign_verifies; [done|]. by apply elem_of_sort_keys. Qed.

Lemma cosign_branch_valid lm gn aggs l r key sns : keys_distinct ->
  calculate_cosign_agg_nonces s lm gn = Ok aggs ->
  ts_vtxos s !! l = Some r -> cosign_pubkey r = Some (keypair_public_key key) ->
  lm (keypair_public_key key) = Some (sec_to_pub_nonce <$> sns) ->
  exists sigs, cosign_branch u aggs l key sns = Ok sigs /\
    verify_branch_cosign_partial_sigs u aggs r (sec_to_pub_nonce <$> sns) sigs = Ok tt.
Proof.
  intros Hd Ha Hr Hpk Hlm. pose proof (lookup_lt_Some _ _ _ Hr) as Hl. destruct (agg_nonces_inv lm gn aggs Ha) as (_ & Hlen & _).
  assert (leaf_key s l = Some (keypair_public_key key)) as Hkey by (unfold leaf_key; by rewrite Hr).
  assert (forall k nd, iter_branch t l !! k = Some nd -> exists sn ps, sns !! node_level nd = Some sn /\
    node_partial_sign (E:=IncorrectSigningKeyError) u aggs key nd sn = Ok ps /\
    verify_node_cosign_partial_sig u nd (keypair_public_key key) aggs ps (sec_to_pub_nonce sn) = Ok tt) as Hnodes.
  { intros k nd Hk. destruct (branch_elem s Hs t Hnew l k nd Hl Hk) as [Hnd Hin].
    destruct (session_at lm gn aggs _ nd Ha Hnd) as (ns & msg & Hns & Hses).
    destruct (node_nonces_leaf lm gn _ nd ns l _ Hns Hin Hkey) as (ls & p & Hls & Hp & Hpin).
    rewrite Hlm in Hls. injection Hls as <-. rewrite list_lookup_fmap in Hp. apply fmap_Some in Hp as (sn & Hsn & ->).
    eexists sn, _. split; [done|]. split; [exact (node_partial_sign_Ok aggs _ nd _ msg key sn Hses)|].
    apply (verify_node_iff aggs _ nd _ msg _ _ _ Hses), (own_sig_valid lm gn (node_idx nd)); [done..|].
    unfold node_keys. apply elem_of_app. left. apply list_elem_of_omap. eauto. }
  unfold cosign_branch. rewrite (uo_spec _ _ _ _ Hu), (uo_tree _ _ _ _ Hu), Hr. cbn [expect mbind outcome_bind].
  rewrite Hpk, bool_decide_true by done. cbn [ensure mbind outcome_bind]. rewrite imap_pair_enum.
  destruct (cosign_branch_loop_Ok (E:=IncorrectSigningKeyError) aggs key sns (iter_branch t l) 0 (branch_levels l Hl))
    as (sigs & Hsigs & Hslen & Hlook).
  { intros k nd Hk. destruct (Hnodes k nd Hk) as (sn & ps & ? & ? & _). eauto. }
  exists sigs. split; [exact Hsigs|]. apply (verify_branch_iff aggs l r (keypair_public_key key)); [done..|]. split; [done|].
  intros k nd Hk. destruct (Hlook k nd Hk) as (sn & ps & Hsn & Hps & Hsign). destruct (Hnodes k nd Hk) as (sn' & ps' & Hsn' & Hsign' & Hv).
  assert (sn' = sn) as -> by congruence. assert (ps' = ps) as -> by congruence.
  exists ps, (sec_to_pub_nonce sn). split; [done|]. split; [rewrite list_lookup_fmap; by rewrite Hsn|done].
Qed.

(** ** Global signers *)
Lemma verify_global_iff aggs pk nonces sigs :
  verify_global_cosign_partial_sigs u pk aggs nonces sigs = Ok tt <->
  forall i nd, nodes t !! i = Some nd -> exists ps pn, sigs !! i = Some ps /\ nonces !! i = Some pn /\
    verify_node_cosign_partial_sig u nd pk aggs ps pn = Ok tt.
Proof.
  unfold verify_global_cosign_partial_sigs. rewrite (uo_tree _ _ _ _ Hu). set (f := fun node : Node => _). split.
  - intros H i nd Hnd. apply fmap_Ok in H as (us & Hm & _). destruct (mapM_lookup f _ _ i nd Hm Hnd) as ([] & _ & Hf).
    unfold f in Hf. rewrite (node_idx_at n t Ht _ _ Hnd) in Hf. apply bind_Ok in Hf as (ps & Hps%ok_or_Ok & Hf).
    apply bind_Ok in Hf as (pn & Hpn%ok_or_Ok & Hf). eauto.
  - intros H. destruct (mapM_total f (nodes t)) as [us Hus]; [|by rewrite Hus].
    intros i nd Hnd. destruct (H i nd Hnd) as (ps & pn & Hps & Hpn & Hv). exists tt. unfold f.
    rewrite (node_idx_at n t Ht _ _ Hnd), Hps. cbn [ok_or mbind outcome_bind]. by rewrite Hpn.
Qed.

Lemma cosign_tree_valid {E} lm gn aggs j key sns : calculate_cosign_agg_nonces s lm gn = Ok aggs ->
  keypair_public_key key ∈ global_cosign_pubkeys s -> gn !! j = Some (sec_to_pub_nonce <$> sns) -> length sns = nb_nodes t ->
  exists sigs, cosign_tree (E:=E) u aggs key sns = Ok sigs /\ length sigs = nb_nodes t /\
    verify_global_cosign_partial_sigs u (keypair_public_key key) aggs (sec_to_pub_nonce <$> sns) sigs = Ok tt.
Proof.
  intros Ha Hkey Hj Hlen. destruct (agg_nonces_inv lm gn aggs Ha) as (_ & Hal & _).
  unfold cosign_tree. rewrite (uo_tree _ _ _ _ Hu), !bool_decide_true by done. cbn [assert mbind outcome_bind].
  set (f := fun p : Node * SecretNonce => _).
  assert (forall i nd sn, nodes t !! i = Some nd -> sns !! i = Some sn -> exists ps, f (nd, sn) = Ok ps /\
    verify_node_cosign_partial_sig u nd (keypair_public_key key) aggs ps (sec_to_pub_nonce sn) = Ok tt) as Hf.
  { intros i nd sn Hnd Hsn. destruct (session_at lm gn aggs _ nd Ha Hnd) as (ns & msg & Hns & Hses).
    destruct (node_nonces_global lm gn i nd ns j _ Hns Hj) as (p & Hp & Hin). rewrite list_lookup_fmap, Hsn in Hp. injection Hp as <-.
    eexists. split.
    - unfold f. cbn [fst snd]. rewrite (uo_pks _ _ _ _ Hu), (uo_spec _ _ _ _ Hu), (node_idx_at n t Ht _ _ Hnd).
      assert ((agg_pk_of s <$> nodes t) !! i = Some (agg_pk_of s nd)) as Hpk by (rewrite list_lookup_fmap; by rewrite Hnd).
      rewrite (at_idx_Some _ _ _ Hpk). cbn [mbind outcome_bind]. rewrite (node_cosign_pubkeys_Ok s Hs t Hnew _ _ Hnd). cbn [mbind outcome_bind].
      rewrite bool_decide_true by done. exact (node_partial_sign_Ok aggs i nd _ msg key sn Hses).
    - apply (verify_node_iff aggs i nd _ msg _ _ _ Hses), (own_sig_valid lm gn i); [done..|].
      unfold node_keys. apply elem_of_app. by right. }
  destruct (mapM_total f (zip (nodes t) sns)) as [sigs Hsigs].
  { intros i [nd sn] Hz. apply lookup_zip_Some in Hz as [Hnd Hsn]. destruct (Hf i nd sn Hnd Hsn) as (ps & ? & _). eauto. }
  exists sigs. split; [exact Hsigs|]. split.
  { rewrite (mapM_length _ _ _ Hsigs), length_zip_with_l_eq; [done|]. unfold nb_nodes in Hlen. done. }
  apply verify_global_iff. intros i nd Hnd.
  destruct (lookup_lt_is_Some_2 sns i) as [sn Hsn]; [rewrite Hlen; by apply lookup_lt_Some in Hnd|].
  assert (zip (nodes t) sns !! i = Some (nd, sn)) as Hz by (by apply lookup_zip_Some).
  destruct (mapM_lookup f _ _ i _ Hsigs Hz) as (ps & Hps & Hfp). destruct (Hf i nd sn Hnd Hsn) as (ps' & Hfp' & Hv).
  assert (ps' = ps) as -> by congruence. exists ps, (sec_to_pub_nonce sn). split; [done|]. split; [rewrite list_lookup_fmap; by rewrite Hsn|done].
Qed.
(** ** Combining partial signatures *)

Lemma set_key_eq {A} (m : KeyMap A) pk a : set_key m pk a pk = Some a.
Proof. unfold set_key. by rewrite decide_True. Qed.
Lemma set_key_ne {A} (m : KeyMap A) pk pk' a : pk' <> pk -> set_key m pk a pk' = m pk'.
Proof. intros H. unfold set_key. by rewrite decide_False. Qed.

(** One signature is taken from the queue of every leaf of the node. *)
Lemma pop_leaf_sigs_Ok ls : forall m, keys_distinct -> NoDup ls -> Forall (fun l => (l < n)%nat) ls ->
  (forall l pk, l ∈ ls -> leaf_key s l = Some pk -> exists ps q, m pk = Some (ps :: q)) ->
  exists sigs m', pop_leaf_sigs s ls m = Ok (omap (leaf_key s) ls, sigs, m') /\
    Forall2 (fun pk ps => exists q, m pk = Some (ps :: q)) (omap (leaf_key s) ls) sigs /\
    forall l pk, leaf_key s l = Some pk -> m' pk = if decide (l ∈ ls) then tail <$> m pk else m pk.
Proof.
  induction ls as [|l ls IH]; intros m Hd Hnd Hlt Hq.
  { exists [], m. split; [done|]. split; [constructor|]. intros l pk _. by rewrite decide_False by set_solver. }
  apply NoDup_cons in Hnd as [Hl Hnd]. apply Forall_cons in Hlt as [Hln Hlt]. destruct (leaf_request s l Hln) as [r Hr].
  cbn [pop_leaf_sigs]. rewrite (at_idx_Some _ _ _ Hr). cbn [mbind outcome_bind].
  assert (leaf_key s l = cosign_pubkey r) as Hkey by (unfold leaf_key; by rewrite Hr).
  destruct (cosign_pubkey r) as [pk|] eqn:Hpk.
  - destruct (Hq l pk ltac:(by left) Hkey) as (ps & q & Hm). rewrite Hm. cbn [ok_or mbind outcome_bind head tail].
    assert (forall l' pk', l' ∈ ls -> leaf_key s l' = Some pk' -> pk' <> pk) as Hne.
    { intros l' pk' Hl' Hk' ->. by rewrite (Hd l l' pk Hkey Hk') in Hl. }
    destruct (IH (set_key m pk q) Hd Hnd Hlt) as (sigs & m' & -> & Hsigs & Hm').
    { intros l' pk' Hl' Hk'. rewrite set_key_ne by eauto. apply (Hq l'); [by right|done]. }
    exists (ps :: sigs), m'. cbn [mbind outcome_bind fst snd omap list_omap]. rewrite Hkey. split; [done|]. split.
    + constructor; [by exists q|]. apply Forall2_same_length_lookup. split; [by eapply Forall2_length|].
      intros j pk' ps' Hpk' Hps'. destruct (Forall2_lookup_lr _ _ _ _ _ _ Hsigs Hpk' Hps') as [q' Hq']. exists q'.
      apply list_elem_of_lookup_2, list_elem_of_omap in Hpk' as (l' & Hl' & Hk'). by rewrite set_key_ne in Hq' by eauto.
    + intros l' pk' Hk'. rewrite (Hm' l' pk' Hk'). destruct (decide (l' = l)) as [->|Hll].
      * assert (pk' = pk) as -> by congruence. rewrite decide_False by done. rewrite decide_True by (by left).
        by rewrite set_key_eq, Hm.
      * assert (pk' <> pk) by (intros ->; by apply Hll, (Hd l' l pk)). rewrite set_key_ne by done.
        destruct (decide (l' ∈ ls)); [by rewrite decide_True by (by right)|by rewrite decide_False by set_solver].
  - destruct (IH m Hd Hnd Hlt) as (sigs & m' & -> & Hsigs & Hm'); [intros l' pk' Hl'; apply Hq; by right|].
    exists sigs, m'. cbn [omap list_omap]. rewrite Hkey. split; [done|]. split; [done|]. intros l' pk' Hk'.
    rewrite (Hm' l' pk' Hk'). assert (l' <> l) by congruence.
    destruct (decide (l' ∈ ls)); [by rewrite decide_True by (by right)|by rewrite decide_False by set_solver].
Qed.

(** How many nodes before [i] hold leaf [l]: what has been taken off its queue. *)
Definition taken (l i : nat) : nat := length (filter (holds l) (take i (nodes t))).

Lemma taken_S l i nd : nodes t !! i = Some nd ->
  taken l (S i) = if decide (l ∈ leaves nd) then S (taken l i) else taken l i.
Proof.
  intros Hnd. unfold taken. rewrite (take_S_r _ _ _ Hnd), filter_app, length_app. destruct (decide (l ∈ leaves nd)) as [Hin|Hin].
  - rewrite (filter_cons_True (holds l)) by exact Hin. rewrite filter_nil. cbn. lia.
  - rewrite (filter_cons_False (holds l)) by exact Hin. rewrite filter_nil. cbn. lia.
Qed.

Lemma branch_at_taken l i nd : (l < n)%nat -> nodes t !! i = Some nd -> l ∈ leaves nd ->
  iter_branch t l !! taken l i = Some nd.
Proof.
  intros Hl Hnd Hin. rewrite (iter_branch_filter n t Hn0 Ht l Hl), <- (take_drop_middle _ _ _ Hnd) at 1.
  rewrite filter_app, filter_cons_True by exact Hin. by rewrite list_lookup_middle.
Qed.

(** The signatures of the leaf owners, by cosign key. *)
Definition leaves_verified (aggs : list AggregatedNonce) (lm : KeyMap (list PublicNonce))
    (sm : KeyMap (list PartialSignature)) : Prop :=
  forall l r pk, ts_vtxos s !! l = Some r -> cosign_pubkey r = Some pk ->
    exists ns sl, lm pk = Some ns /\ sm pk = Some sl /\ verify_branch_cosign_partial_sigs u aggs r ns sl = Ok tt.

(** The signatures of the global signers, in any order. *)
Definition globals_verified (aggs : list AggregatedNonce) (gn : list (list PublicNonce))
    (gs : list (list PartialSignature)) : Prop :=
  exists gk gnp, zip gk gnp ≡ₚ zip (global_cosign_pubkeys s) gn /\ length gk = length gnp /\ length gs = length gk /\
    forall j pk ns sl, gk !! j = Some pk -> gnp !! j = Some ns -> gs !! j = Some sl ->
      length sl = nb_nodes t /\ verify_global_cosign_partial_sigs u pk aggs ns sl = Ok tt.

Section Combine.
Context (Hd : keys_distinct) (lm : KeyMap (list PublicNonce)) (gn : list (list PublicNonce)) (aggs : list AggregatedNonce).
Context (Ha : calculate_cosign_agg_nonces s lm gn = Ok aggs).
Context (sm : KeyMap (list PartialSignature)) (Hleaves : leaves_verified aggs lm sm).
Context (gs : list (list PartialSignature)) (Hglobals : globals_verified aggs gn gs).

Lemma leaf_sig_at l pk i nd : leaf_key s l = Some pk -> nodes t !! i = Some nd -> l ∈ leaves nd ->
  exists ns sl ps pn, lm pk = Some ns /\ sm pk = Some sl /\ sl !! taken l i = Some ps /\
    ns !! node_level nd = Some pn /\ verify_node_cosign_partial_sig u nd pk aggs ps pn = Ok tt.
Proof.
  intros Hk Hnd Hin. unfold leaf_key in Hk. apply bind_Some in Hk as (r & Hr & Hpk). pose proof (lookup_lt_Some _ _ _ Hr) as Hl.
  destruct (Hleaves l r pk Hr Hpk) as (ns & sl & Hns & Hsl & Hv).
  destruct (agg_nonces_inv lm gn aggs Ha) as (_ & Hal & _).
  apply (verify_branch_iff aggs l r pk) in Hv as [_ Hv]; [|done..].
  destruct (Hv _ nd (branch_at_taken l i nd Hl Hnd Hin)) as (ps & pn & ? & ? & ?). by exists ns, sl, ps, pn.
Qed.

(** The queues when node [i] is reached. *)
Definition queues_at (i : nat) (m : KeyMap (list PartialSignature)) : Prop :=
  forall l pk sl, leaf_key s l = Some pk -> sm pk = Some sl -> m pk = Some (drop (taken l i) sl).

Lemma pop_at i nd m : nodes t !! i = Some nd -> queues_at i m ->
  exists sigs m', pop_leaf_sigs s (leaves nd) m = Ok (omap (leaf_key s) (leaves nd), sigs, m') /\
    Forall2 (fun pk ps => exists ns pn, lm pk = Some ns /\ ns !! node_level nd = Some pn /\
      verify_node_cosign_partial_sig u nd pk aggs ps pn = Ok tt) (omap (leaf_key s) (leaves nd)) sigs /\
    queues_at (S i) m'.
Proof.
  intros Hnd Hq. pose proof (leaves_NoDup n t Hn0 Ht i) as Hndp. rewrite (leaves_at_node t i nd Hnd) in Hndp.
  assert (Forall (fun l => (l < n)%nat) (leaves nd)) as Hlt.
  { apply Forall_forall. intros l Hl. by eapply leaf_bound. }
  destruct (pop_leaf_sigs_Ok (leaves nd) m Hd Hndp Hlt) as (sigs & m' & Hpop & Hsigs & Hm').
  { intros l pk Hin Hk. destruct (leaf_sig_at l pk i nd Hk Hnd Hin) as (ns & sl & ps & pn & _ & Hsl & Hps & _).
    rewrite (Hq l pk sl Hk Hsl), (drop_S _ _ _ Hps). eauto. }
  exists sigs, m'. split; [exact Hpop|]. split.
  - apply Forall2_same_length_lookup. split; [by eapply Forall2_length|]. intros j pk ps Hpk Hps.
    destruct (Forall2_lookup_lr _ _ _ _ _ _ Hsigs Hpk Hps) as [q Hmq].
    apply list_elem_of_lookup_2, list_elem_of_omap in Hpk as (l & Hin & Hk).
    destruct (leaf_sig_at l pk i nd Hk Hnd Hin) as (ns & sl & ps' & pn & Hns & Hsl & Hps' & Hpn & Hv).
    rewrite (Hq l pk sl Hk Hsl), (drop_S _ _ _ Hps') in Hmq. injection Hmq as -> _. eauto.
  - intros l pk sl Hk Hsl. rewrite (Hm' l pk Hk), (taken_S l i nd Hnd), (Hq l pk sl Hk Hsl).
    destruct (decide (l ∈ leaves nd)); [|done]. cbn. f_equal. apply tail_drop.
Qed.
(** The global signatures of a node. *)
Lemma globals_at i nd gns : nodes t !! i = Some nd -> Forall2 (fun g p => g !! i = Some p) gn gns ->
  exists gk gns' gsigs, mapM (fun sigs : list PartialSignature => expect (E:=CosignSignatureError) (sigs !! i)) gs = Ok gsigs /\
    gk ≡ₚ global_cosign_pubkeys s /\ gns' ≡ₚ gns /\ length gns' = length gk /\ length gsigs = length gk /\
    forall j pk p ps, gk !! j = Some pk -> gns' !! j = Some p -> gsigs !! j = Some ps ->
      verify_node_cosign_partial_sig u nd pk aggs ps p = Ok tt.
Proof.
  intros Hnd Hgns. destruct Hglobals as (gk & gnp & Hperm & Hlk & Hlg & Hv).
  destruct (agg_nonces_inv lm gn aggs Ha) as (Hgl & _ & _).
  assert (gk ≡ₚ global_cosign_pubkeys s) as Hgk.
  { apply (fmap_Permutation fst) in Hperm. by rewrite !fst_zip in Hperm by lia. }
  assert (gnp ≡ₚ gn) as Hgnp.
  { apply (fmap_Permutation snd) in Hperm. by rewrite !snd_zip in Hperm by lia. }
  assert (forall j pk nl sl, gk !! j = Some pk -> gnp !! j = Some nl -> gs !! j = Some sl ->
    exists ps p, sl !! i = Some ps /\ nl !! i = Some p /\ verify_node_cosign_partial_sig u nd pk aggs ps p = Ok tt) as Hat.
  { intros j pk nl sl Hj1 Hj2 Hj3. destruct (Hv j pk nl sl Hj1 Hj2 Hj3) as [_ Hvg]. exact (proj1 (verify_global_iff _ _ _ _) Hvg i nd Hnd). }
  destruct (mapM_total (fun sigs : list PartialSignature => expect (E:=CosignSignatureError) (sigs !! i)) gs) as [gsigs Hgsigs].
  { intros j sl Hj. destruct (lookup_lt_is_Some_2 gk j) as [pk Hpk]; [apply lookup_lt_Some in Hj; lia|].
    destruct (lookup_lt_is_Some_2 gnp j) as [nl Hnl]; [apply lookup_lt_Some in Hj; lia|].
    destruct (Hat j pk nl sl Hpk Hnl Hj) as (ps & p & -> & _). by eexists. }
  assert (forall (l : list (list PublicNonce)) ps, Forall2 (fun g p => g !! i = Some p) l ps -> omap (.!! i) l = ps) as Homap.
  { induction 1 as [|g p l ps Hg _ IH]; [done|]. cbn. rewrite Hg. by f_equal. }
  assert (forall j g, gnp !! j = Some g -> is_Some (g !! i)) as Hsome.
  { intros j g Hj. assert (g ∈ gn) as [k Hk]%list_elem_of_lookup_1 by (rewrite <- Hgnp; by eapply list_elem_of_lookup_2).
    destruct (Forall2_lookup_l _ _ _ _ _ Hgns Hk) as (p & _ & Hp). eauto. }
  assert (exists gns', Forall2 (fun g p => g !! i = Some p) gnp gns') as [gns' Hgns'].
  { clear -Hsome. induction gnp as [|g l IH]; [exists []; constructor|]. destruct (Hsome O g eq_refl) as [p Hp].
    destruct IH as [ps Hps]; [intros j x Hj; exact (Hsome (S j) x Hj)|]. exists (p :: ps). by constructor. }
  exists gk, gns', gsigs. split; [exact Hgsigs|]. split; [exact Hgk|]. split.
  { rewrite <- (Homap _ _ Hgns), <- (Homap _ _ Hgns'). by rewrite Hgnp. }
  split; [apply Forall2_length in Hgns'; lia|]. split; [rewrite (mapM_length _ _ _ Hgsigs); lia|].
  intros j pk p ps Hj1 Hj2 Hj3. destruct (Forall2_lookup_r _ _ _ _ _ Hgns' Hj2) as (g & Hg & Hgp).
  destruct (lookup_lt_is_Some_2 gs j) as [sl Hsl]; [apply lookup_lt_Some in Hj1; lia|].
  destruct (Hat j pk g sl Hj1 Hg Hsl) as (ps' & p' & Hps' & Hp' & Hvn).
  destruct (mapM_lookup _ _ _ j sl Hgsigs Hsl) as (ps'' & Hps'' & He%expect_Ok). congruence.
Qed.

(** The combined signature of a node is valid for the output it spends. *)
Lemma combined_sig_valid i nd agg msg lsigs lns gk gns gsigs :
  node_session aggs i nd agg msg -> agg = nonce_agg (lns ++ gns) -> gk ≡ₚ global_cosign_pubkeys s ->
  Forall2 (fun pk p => exists l, lm pk = Some l /\ l !! node_level nd = Some p) (omap (leaf_key s) (leaves nd)) lns ->
  Forall2 (fun pk ps => exists ns pn, lm pk = Some ns /\ ns !! node_level nd = Some pn /\
      verify_node_cosign_partial_sig u nd pk aggs ps pn = Ok tt) (omap (leaf_key s) (leaves nd)) lsigs ->
  length gns = length gk -> length gsigs = length gk ->
  (forall j pk p ps, gk !! j = Some pk -> gns !! j = Some p -> gsigs !! j = Some ps ->
      verify_node_cosign_partial_sig u nd pk aggs ps p = Ok tt) ->
  verify_schnorr (combine_partial_signatures (node_keys s (leaves nd)) agg msg (Some (tweak_of nd)) (lsigs ++ gsigs)) msg
    (output_key (node_tr s (combine_keys (node_keys s (leaves nd))))) = true.
Proof.
  intros Hses Hagg Hgk Hlns Hlsigs Hl1 Hl2 Hg. unfold combine_partial_signatures, tweak_of, tap_tweak, output_key, node_tr.
  cbn [internal_key tap_leaves]. rewrite Hagg. pose proof (Forall2_length _ _ _ Hlns) as E1. pose proof (Forall2_length _ _ _ Hlsigs) as E2.
  apply (sig_agg_verifies (node_keys s (leaves nd)) [(0%nat, exp_script s)] msg (omap (leaf_key s) (leaves nd) ++ gk)).
  - unfold node_keys. by rewrite Hgk.
  - rewrite !length_app. lia.
  - rewrite !length_app. lia.
  - intros j pk p ps Hpk Hp Hps. rewrite <- Hagg. apply (verify_node_iff aggs i nd agg msg pk ps p Hses).
    destruct (decide (j < length (omap (leaf_key s) (leaves nd)))%nat) as [Hj|Hj].
    + rewrite lookup_app_l in Hpk by lia. rewrite lookup_app_l in Hp by lia. rewrite lookup_app_l in Hps by lia.
      destruct (Forall2_lookup_lr _ _ _ _ _ _ Hlns Hpk Hp) as (l & Hl & Hlp).
      destruct (Forall2_lookup_lr _ _ _ _ _ _ Hlsigs Hpk Hps) as (l' & p' & Hl' & Hlp' & Hv). congruence.
    + rewrite lookup_app_r in Hpk by lia. rewrite lookup_app_r in Hp by lia. rewrite lookup_app_r in Hps by lia.
      replace (length lns) with (length (omap (leaf_key s) (leaves nd))) in Hp by lia.
      replace (length lsigs) with (length (omap (leaf_key s) (leaves nd))) in Hps by lia. exact (Hg _ _ _ _ Hpk Hp Hps).
Qed.

Lemma combine_loop_Ok k : forall i m, (i + k = nb_nodes t)%nat -> queues_at i m ->
  exists sigs, combine_loop u aggs gs i (drop i (nodes t)) m = Ok sigs /\
    forall j nd, (i <= j)%nat -> nodes t !! j = Some nd -> exists sig msg, sigs !! (j - i)%nat = Some sig /\
      ut_sighashes u !! j = Some msg /\
      verify_schnorr sig msg (output_key (node_tr s (combine_keys (node_keys s (leaves nd))))) = true.
Proof.
  induction k as [|k IH]; intros i m Hik Hq.
  { exists []. rewrite drop_ge by (unfold nb_nodes in *; lia). split; [done|]. intros j nd Hj Hnd.
    apply lookup_lt_Some in Hnd. unfold nb_nodes in *. lia. }
  destruct (node_at t i ltac:(lia)) as [nd Hnd]. rewrite (drop_S _ _ _ Hnd). cbn [combine_loop].
  destruct (pop_at i nd m Hnd Hq) as (lsigs & m' & Hpop & Hlsigs & Hq').
  destruct (session_at lm gn aggs i nd Ha Hnd) as (ns & msg & (lns & gns & -> & Hlns & Hgns) & Hses).
  destruct (globals_at i nd gns Hnd Hgns) as (gk & gns' & gsigs & Hmap & Hgk & Hperm & Hl1 & Hl2 & Hg).
  rewrite (uo_spec _ _ _ _ Hu), Hpop. cbn [mbind outcome_bind]. rewrite Hmap. cbn [mbind outcome_bind].
  rewrite (node_tweak_Ok i nd Hnd). cbn [mbind outcome_bind]. rewrite (node_idx_at n t Ht _ _ Hnd).
  pose proof Hses as (_ & Hagg & Hmsg). rewrite Hagg. cbn [ok_or mbind outcome_bind]. rewrite (at_idx_Some _ _ _ Hmsg).
  cbn [mbind outcome_bind fst snd]. destruct (IH (S i) m' ltac:(lia) Hq') as (sigs & -> & Hlook). eexists. split; [done|].
  intros j nd' Hij Hj. destruct (decide (j = i)) as [->|Hne].
  - assert (nd' = nd) as -> by congruence. rewrite Nat.sub_diag. eexists _, msg. split; [done|]. split; [done|].
    apply (combined_sig_valid i nd _ msg lsigs lns gk gns' gsigs Hses); [|done..].
    apply nonce_agg_perm. by rewrite Hperm.
  - replace (j - i)%nat with (S (j - S i)) by lia. exact (Hlook j nd' ltac:(lia) Hj).
Qed.

Lemma combine_verified :
  exists sigs, tree_combine_partial_signatures u aggs sm gs = Ok sigs /\ verify_cosign_sigs u sigs = Ok tt.
Proof.
  destruct (agg_nonces_inv lm gn aggs Ha) as (Hgl & _ & _). pose proof Hglobals as (gk & gnp & Hperm & Hlk & Hlg & Hv).
  assert (length gk = length (global_cosign_pubkeys s)) as Hgk.
  { apply Permutation_length in Hperm. rewrite !length_zip_with in Hperm. lia. }
  unfold tree_combine_partial_signatures. rewrite (uo_spec _ _ _ _ Hu), bool_decide_true by lia. cbn [ensure mbind outcome_bind].
  destruct (mapM_total (fun p : PublicKey * list PartialSignature =>
    ensure (bool_decide (length p.2 = nb_nodes (ut_tree u))) (MissingSignature p.1)) (zip (global_cosign_pubkeys s) gs)) as [us ->].
  { intros j [pk sl] Hz. apply lookup_zip_Some in Hz as [_ Hsl]. pose proof (lookup_lt_Some _ _ _ Hsl) as Hj.
    destruct (lookup_lt_is_Some_2 gk j ltac:(lia)) as [pk' Hpk']. destruct (lookup_lt_is_Some_2 gnp j ltac:(lia)) as [nl Hnl].
    destruct (Hv j pk' nl sl Hpk' Hnl Hsl) as [Hlen _]. exists tt. cbn. rewrite (uo_tree _ _ _ _ Hu), bool_decide_true by done. done. }
  cbn [mbind outcome_bind]. rewrite (uo_tree _ _ _ _ Hu).
  destruct (combine_loop_Ok (nb_nodes t) 0 sm) as (sigs & Hc & Hlook); [lia|intros l pk sl _ Hsl; unfold taken; by rewrite take_0, Hsl|].
  rewrite drop_0 in Hc. exists sigs. split; [exact Hc|]. apply (verify_cosign_sigs_iff s t utxo u sigs Hs Hnew Hu). intros i nd Hnd.
  destruct (Hlook i nd ltac:(lia) Hnd) as (sig & msg & Hsig & Hmsg & Hver). rewrite Nat.sub_0_r in Hsig.
  destruct (txs_ok_lookup s t utxo _ i nd (uo_txs _ _ _ _ Hu) Hnd) as (p & Htx & _). eexists sig, _. split; [done|]. split; [done|].
  rewrite (uo_sighash _ _ _ _ Hu i nd _ Hnd Htx) in Hmsg. injection Hmsg as <-. exact Hver.
Qed.
End Combine.
End Cosign.

(** ** The signing of a tree *)
Section Signing.
Context `{B : Bitcoin} `{W : !WitnessLaws B} `{K : !KeyLaws B} `{M : !MusigLaws B}.

Lemma unsigned_tree_inv {E} s utxo u : spec_ok s -> unsigned_tree_new (E:=E) s utxo = Ok u ->
  new (nb_leaves s) = Some (ut_tree u) /\ utree_ok s (ut_tree u) utxo u.
Proof.
  intros Hs Hu. destruct (new_spec (nb_leaves s) (so_nonempty _ Hs)) as (t & Hnew & _).
  destruct (unsigned_tree_new_Ok s Hs t Hnew (E:=E) utxo) as (u' & Hu' & Hok).
  assert (u' = u) as -> by congruence. by rewrite (uo_tree _ _ _ _ Hok).
Qed.

(** C4. Partial signatures that the server accepted always complete the tree:
    when the branch signatures of every leaf owner pass
    [verify_branch_cosign_partial_sigs] and those of every global signer pass
    [verify_global_cosign_partial_sigs], [combine_partial_signatures] returns
    signatures and all of them pass [verify_cosign_sigs]. *)
Theorem tree_combine_valid {E} s utxo u lm gn aggs sm gs : spec_ok s ->
  unsigned_tree_new (E:=E) s utxo = Ok u -> keys_distinct s ->
  calculate_cosign_agg_nonces s lm gn = Ok aggs ->
  leaves_verified s u aggs lm sm -> globals_verified s (ut_tree u) u aggs gn gs ->
  exists sigs, tree_combine_partial_signatures u aggs sm gs = Ok sigs /\ verify_cosign_sigs u sigs = Ok tt.
Proof.
  intros Hs Hu Hd Ha Hl Hg. destruct (unsigned_tree_inv s utxo u Hs Hu) as [Hnew Hok].
  exact (combine_verified s Hs _ Hnew utxo u Hok Hd lm gn aggs Ha sm Hl gs Hg).
Qed.

(** What honest signers send: the owner of the leaf with a key signs its
    branch, a global signer signs all nodes. *)
Definition pub_nonces (gsn : list (list SecretNonce)) : list (list PublicNonce) :=
  (fun sns : list SecretNonce => sec_to_pub_nonce <$> sns) <$> gsn.

Definition branch_sigs (u : UnsignedVtxoTree) (aggs : list AggregatedNonce) (kp : PublicKey -> Keypair)
    (lsn : PublicKey -> list SecretNonce) : KeyMap (list PartialSignature) := fun pk =>
  l ← position (fun r => bool_decide (cosign_pubkey r = Some pk)) (ts_vtxos (ut_spec u));
  match cosign_branch u aggs l (kp pk) (lsn pk) with Ok sl => Some sl | _ => None end.

Definition global_sigs (u : UnsignedVtxoTree) (aggs : list AggregatedNonce) (kp : PublicKey -> Keypair)
    (gsn : list (list SecretNonce)) : list (list PartialSignature) :=
  zip_with (fun pk sns => ok_value [] (cosign_tree (E:=unit) u aggs (kp pk) sns)) (global_cosign_pubkeys (ut_spec u)) gsn.

Lemma position_key s l r pk : keys_distinct s -> ts_vtxos s !! l = Some r -> cosign_pubkey r = Some pk ->
  position (fun r => bool_decide (cosign_pubkey r = Some pk)) (ts_vtxos s) = Some l.
Proof.
  intros Hd Hr Hpk. rewrite <- (take_drop_middle _ _ _ Hr).
  rewrite position_app_first; [f_equal; rewrite length_take; apply lookup_lt_Some in Hr; lia| |by apply bool_decide_eq_true].
  apply Forall_lookup. intros j x Hj. apply bool_decide_eq_false. intros Hx. apply lookup_take_Some in Hj as [Hj Hlt].
  assert (l = j); [|lia]. apply (Hd l j pk); unfold leaf_key; [by rewrite Hr|by rewrite Hj].
Qed.

Section Honest.
Context (s : VtxoTreeSpec) (utxo : OutPoint) (u : UnsignedVtxoTree) (Hs : spec_ok s) (Hd : keys_distinct s).
Context (Hnew : new (nb_leaves s) = Some (ut_tree u)) (Hok : utree_ok s (ut_tree u) utxo u).
Context (kp : PublicKey -> Keypair) (Hkp : forall pk, keypair_public_key (kp pk) = pk).
Context (lsn : PublicKey -> list SecretNonce) (gsn : list (list SecretNonce)) (aggs : list AggregatedNonce).
Let lm : KeyMap (list PublicNonce) := fun pk => Some (sec_to_pub_nonce <$> lsn pk).
Let gn : list (list PublicNonce) := pub_nonces gsn.
Context (Ha : calculate_cosign_agg_nonces s lm gn = Ok aggs).
Context (Hgsn : Forall (fun sns => length sns = nb_nodes (ut_tree u)) gsn).

Lemma honest_leaves : leaves_verified s u aggs lm (branch_sigs u aggs kp lsn).
Proof.
  intros l r pk Hr Hpk. pose proof Hpk as Hpk'. rewrite <- (Hkp pk) in Hpk'.
  destruct (cosign_branch_valid s Hs _ Hnew utxo u Hok lm gn aggs l r (kp pk) (lsn pk) Hd Ha Hr Hpk') as (sl & Hsl & Hv); [by rewrite Hkp|].
  exists (sec_to_pub_nonce <$> lsn pk), sl. split; [done|]. split; [|exact Hv].
  unfold branch_sigs. rewrite (uo_spec _ _ _ _ Hok), (position_key s l r pk Hd Hr Hpk). cbn. by rewrite Hsl.
Qed.

Lemma honest_globals : globals_verified s (ut_tree u) u aggs gn (global_sigs u aggs kp gsn).
Proof.
  destruct (agg_nonces_inv s Hs _ Hnew lm gn aggs Ha) as (Hgl & _ & _). unfold gn, pub_nonces in Hgl. rewrite length_fmap in Hgl.
  exists (global_cosign_pubkeys s), gn. split; [done|]. split; [unfold gn, pub_nonces; rewrite length_fmap; lia|].
  unfold global_sigs. rewrite (uo_spec _ _ _ _ Hok). split; [rewrite length_zip_with; lia|].
  intros j pk ns sl Hpk Hns Hsl. unfold gn, pub_nonces in Hns. rewrite list_lookup_fmap in Hns. apply fmap_Some in Hns as (sns & Hsns & ->).
  rewrite lookup_zip_with, Hpk, Hsns in Hsl. injection Hsl as <-.
  destruct (cosign_tree_valid s Hs _ Hnew utxo u Hok (E:=unit) lm gn aggs j (kp pk) sns Ha) as (sl & Hsl & Hlen & Hv).
  - rewrite Hkp. by eapply list_elem_of_lookup_2.
  - unfold gn, pub_nonces. rewrite list_lookup_fmap. by rewrite Hsns.
  - exact (Forall_lookup_1 _ _ _ _ Hgsn Hsns).
  - rewrite Hsl. cbn. rewrite Hkp in Hv. done.
Qed.
End Honest.

(** C5. A tree whose signers follow the protocol is always completed: when every
    leaf owner signs with [cosign_branch] and every global signer with
    [cosign_tree], using the secret nonces whose public parts were aggregated,
    every signature passes the server's checks and combining them gives a full
    set of valid node signatures. *)
Theorem tree_signing_completes {E} s utxo u kp lsn gsn aggs : spec_ok s ->
  unsigned_tree_new (E:=E) s utxo = Ok u -> keys_distinct s ->
  (forall pk, keypair_public_key (kp pk) = pk) -> Forall (fun sns => length sns = nb_nodes (ut_tree u)) gsn ->
  calculate_cosign_agg_nonces s (fun pk => Some (sec_to_pub_nonce <$> lsn pk)) (pub_nonces gsn) = Ok aggs ->
  leaves_verified s u aggs (fun pk => Some (sec_to_pub_nonce <$> lsn pk)) (branch_sigs u aggs kp lsn) /\
  globals_verified s (ut_tree u) u aggs (pub_nonces gsn) (global_sigs u aggs kp gsn) /\
  exists sigs, tree_combine_partial_signatures u aggs (branch_sigs u aggs kp lsn) (global_sigs u aggs kp gsn) = Ok sigs /\
    verify_cosign_sigs u sigs = Ok tt.
Proof.
  intros Hs Hu Hd Hkp Hg Ha. destruct (unsigned_tree_inv s utxo u Hs Hu) as [Hnew Hok].
  pose proof (honest_leaves s utxo u Hs Hd Hnew Hok kp Hkp lsn gsn aggs Ha) as Hl.
  pose proof (honest_globals s utxo u Hs Hnew Hok kp Hkp lsn gsn aggs Ha Hg) as Hgl.
  split; [exact Hl|]. split; [exact Hgl|].
  exact (combine_verified s Hs _ Hnew utxo u Hok Hd _ _ aggs Ha _ Hl _ Hgl).
Qed.
End Signing.

(** *** Witnesses *)
Definition tree_lsn (pk : @PublicKey model) : list (@SecretNonce model) := [byte.unsigned pk; 2; 3].
Definition tree_gsn : list (list (@SecretNonce model)) := [[31; 32; 33; 34; 35; 36; 37]].
Definition tree_lm : KeyMap (B := model) (list (@PublicNonce model)) := fun pk => Some (tree_lsn pk).
Definition tree_aggs : list (@AggregatedNonce model) :=
  ok_value [] (calculate_cosign_agg_nonces (B := model) tree_s tree_lm (pub_nonces tree_gsn)).
Definition tree_kp (pk : @PublicKey model) : @Keypair model := pk.

Lemma tree_keys_distinct : keys_distinct tree_s.
Proof. intros [|[|[|[|[|l]]]]] [|[|[|[|[|l']]]]] pk H H'; vm_compute in H, H'; congruence. Qed.

Lemma tree_gsn_length : Forall (fun sns => length sns = nb_nodes (ut_tree tree_u)) tree_gsn.
Proof. constructor; [vm_compute; reflexivity|constructor]. Qed.

Lemma tree_signing_completes_witness : exists sigs,
  tree_combine_partial_signatures tree_u tree_aggs (branch_sigs tree_u tree_aggs tree_kp tree_lsn)
    (global_sigs tree_u tree_aggs tree_kp tree_gsn) = Ok sigs /\ verify_cosign_sigs tree_u sigs = Ok tt.
Proof.
  destruct (tree_signing_completes (B := model) (E:=unit) tree_s tree_utxo tree_u tree_kp tree_lsn tree_gsn tree_aggs tree_s_ok)
    as (_ & _ & H); [vm_eq|exact tree_keys_distinct|done|exact tree_gsn_length|vm_eq|exact H].
Defined.

Lemma tree_combine_valid_witness : exists sigs,
  tree_combine_partial_signatures tree_u tree_aggs (branch_sigs tree_u tree_aggs tree_kp tree_lsn)
    (global_sigs tree_u tree_aggs tree_kp tree_gsn) = Ok sigs /\ verify_cosign_sigs tree_u sigs = Ok tt.
Proof.
  assert (unsigned_tree_new (B := model) (E:=unit) tree_s tree_utxo = Ok tree_u) as Hu by vm_eq.
  assert (calculate_cosign_agg_nonces (B := model) tree_s tree_lm (pub_nonces tree_gsn) = Ok tree_aggs) as Ha by vm_eq.
  destruct (unsigned_tree_inv tree_s tree_utxo tree_u tree_s_ok Hu) as [Hnew Hok].
  apply (tree_combine_valid (B := model) (E:=unit) tree_s tree_utxo tree_u tree_lm (pub_nonces tree_gsn) tree_aggs _ _ tree_s_ok Hu
    tree_keys_distinct Ha).
  - by apply (honest_leaves tree_s tree_utxo tree_u tree_s_ok tree_keys_distinct Hnew Hok tree_kp (fun pk => eq_refl) tree_lsn tree_gsn).
  - by apply (honest_globals tree_s tree_utxo tree_u tree_s_ok Hnew Hok tree_kp (fun pk => eq_refl) tree_lsn tree_gsn _ Ha tree_gsn_length).
Defined.
