(* ===== verification/TreeBuilder.v ===== *)
(** * Trees built by one user (lib/src/tree/signed.rs, module [builder])

    Outside of rounds a single user builds a whole tree and asks the server to
    cosign it: all nodes are signed by the two global keys, the user's and the
    server's.  The typestate of the builder is an index of its type. *)
From S2P Require Import Prelude Tree Bitcoin Encode Concrete Policy Vtxo Validation Board Extend Arkoor SignedTree TreeTxs TreeVtxos TreeCosign.

Open Scope Z_scope.

Module TbState.
Inductive t := Preparing | CanGenerateNonces | ServerCanCosign | CanFinish.
Class CanSign (s : t) : Prop := {}.
#[export] Instance server_can_sign : CanSign ServerCanCosign := {}.
#[export] Instance user_can_sign : CanSign CanFinish := {}.
End TbState.
Export (hints) TbState.

Section Builder.
Context `{B : Bitcoin}.

Inductive BuilderTree :=
  | SpecTree (s : VtxoTreeSpec)
  | UnsignedTree (u : UnsignedVtxoTree).

Definition bt_unsigned_tree (b : BuilderTree) : option UnsignedVtxoTree :=
  match b with SpecTree _ => None | UnsignedTree u => Some u end.
Definition bt_into_unsigned_tree (b : BuilderTree) : option UnsignedVtxoTree :=
  match b with SpecTree _ => None | UnsignedTree u => Some u end.

Record SignedTreeBuilder (s : TbState.t) := mkTb {
  tb_expiry_height : Z;
  tb_server_pubkey : PublicKey;
  tb_exit_delta : Z;
  tb_cosign_pubkey : PublicKey;
  tb_tree : BuilderTree;
  user_pub_nonces : list PublicNonce;
  user_sec_nonces : option (list SecretNonce);
}.
Arguments mkTb {s}.
Arguments tb_expiry_height {s}.
Arguments tb_server_pubkey {s}.
Arguments tb_exit_delta {s}.
Arguments tb_cosign_pubkey {s}.
Arguments tb_tree {s}.
Arguments user_pub_nonces {s}.
Arguments user_sec_nonces {s}.

Definition tb_tree_spec {s} (b : SignedTreeBuilder s) : VtxoTreeSpec :=
  match tb_tree b with SpecTree s => s | UnsignedTree u => ut_spec u end.

Definition tb_total_required_value {E s} (b : SignedTreeBuilder s) : outcome E Z :=
  total_required_value (tb_tree_spec b).
Definition tb_funding_script_pubkey {E s} (b : SignedTreeBuilder s) : outcome E bytes :=
  funding_tx_script_pubkey (tb_tree_spec b).
Definition tb_funding_txout {E s} (b : SignedTreeBuilder s) : outcome E TxOut :=
  v ← total_required_value (tb_tree_spec b);
  script ← funding_tx_script_pubkey (tb_tree_spec b);
  Ok (mkTxOut v script).

(** [user_pub_nonces()], with its assertion. *)
Definition tb_user_pub_nonces {E s} `{TbState.CanSign s} (b : SignedTreeBuilder s) : outcome E (list PublicNonce) :=
  _ ← assert (negb (bool_decide (user_pub_nonces b = [])));
  Ok (user_pub_nonces b).

Definition construct_tree_spec {E} (vtxos : list VtxoRequest) (cosign_pubkey : PublicKey) (expiry_height : Z)
    (server_pubkey server_cosign_pubkey : PublicKey) (exit_delta : Z) : outcome E VtxoTreeSpec :=
  tree_spec_new ((fun v => mkSignedRequest v None) <$> vtxos) server_pubkey expiry_height exit_delta
    [cosign_pubkey; server_cosign_pubkey].

Definition tb_new {E} (vtxos : list VtxoRequest) (cosign_pubkey : PublicKey) (expiry_height : Z)
    (server_pubkey server_cosign_pubkey : PublicKey) (exit_delta : Z)
  : outcome E (SignedTreeBuilder TbState.Preparing) :=
  tree ← construct_tree_spec vtxos cosign_pubkey expiry_height server_pubkey server_cosign_pubkey exit_delta;
  Ok (mkTb expiry_height server_pubkey exit_delta cosign_pubkey (SpecTree tree) [] None).

Definition set_utxo {E} (b : SignedTreeBuilder TbState.Preparing) (utxo : OutPoint)
  : outcome E (SignedTreeBuilder TbState.CanGenerateNonces) :=
  unsigned_tree ←
    (match tb_tree b with
     | SpecTree s => into_unsigned_tree s utxo
     | UnsignedTree t => Ok t
     end);
  Ok (mkTb (tb_expiry_height b) (tb_server_pubkey b) (tb_exit_delta b) (tb_cosign_pubkey b)
        (UnsignedTree unsigned_tree) (user_pub_nonces b) (user_sec_nonces b)).

(** One nonce pair per sighash; [rands] is the randomness drawn for each. *)
Definition nonce_pairs (key : Keypair) (sighashes : list bytes) (rands : nat -> Z) : list (SecretNonce * PublicNonce) :=
  imap (fun i sh => nonce_pair_with_msg key sh (rands i)) sighashes.

Definition tb_generate_user_nonces {E} (b : SignedTreeBuilder TbState.CanGenerateNonces) (cosign_key : Keypair)
    (rands : nat -> Z) : outcome E (SignedTreeBuilder TbState.CanFinish) :=
  unsigned_tree ← expect (bt_unsigned_tree (tb_tree b));
  let pairs := nonce_pairs cosign_key (ut_sighashes unsigned_tree) rands in
  Ok (mkTb (tb_expiry_height b) (tb_server_pubkey b) (tb_exit_delta b) (tb_cosign_pubkey b)
        (tb_tree b) (snd <$> pairs) (Some (fst <$> pairs))).

Record SignedTreeCosignResponse := mkTreeCosign {
  tc_pub_nonces : list PublicNonce;
  tc_partial_signatures : list PartialSignature;
}.

Definition tb_new_for_cosign {E} (vtxos : list VtxoRequest) (cosign_pubkey : PublicKey) (expiry_height : Z)
    (server_pubkey server_cosign_pubkey : PublicKey) (exit_delta : Z) (utxo : OutPoint)
    (user_pub_nonces : list PublicNonce) : outcome E (SignedTreeBuilder TbState.ServerCanCosign) :=
  spec ← construct_tree_spec vtxos cosign_pubkey expiry_height server_pubkey server_cosign_pubkey exit_delta;
  unsigned_tree ← into_unsigned_tree spec utxo;
  Ok (mkTb expiry_height server_pubkey exit_delta cosign_pubkey (UnsignedTree unsigned_tree) user_pub_nonces None).

(** [user.iter().zip(server).map(|(u, s)| AggregatedNonce::new(&[u, s]))]. *)
Definition zip_agg_nonces (user server : list PublicNonce) : list AggregatedNonce :=
  zip_with (fun u s => nonce_agg [u; s]) user server.

Definition tb_server_cosign {E} (b : SignedTreeBuilder TbState.ServerCanCosign) (server_cosign_key : Keypair)
    (rands : nat -> Z) : outcome E SignedTreeCosignResponse :=
  unsigned_tree ← expect (bt_unsigned_tree (tb_tree b));
  let pairs := nonce_pairs server_cosign_key (ut_sighashes unsigned_tree) rands in
  user_nonces ← tb_user_pub_nonces b;
  let agg_nonces := zip_agg_nonces user_nonces (snd <$> pairs) in
  sigs ← cosign_tree unsigned_tree agg_nonces server_cosign_key (fst <$> pairs);
  Ok (mkTreeCosign (snd <$> pairs) sigs).

Definition tb_verify_cosign_response (b : SignedTreeBuilder TbState.CanFinish)
    (server_cosign : SignedTreeCosignResponse) : outcome CosignSignatureError unit :=
  unsigned_tree ← expect (bt_unsigned_tree (tb_tree b));
  user_nonces ← tb_user_pub_nonces b;
  let agg_nonces := zip_agg_nonces user_nonces (tc_pub_nonces server_cosign) in
  server_pk ← expect (global_cosign_pubkeys (ut_spec unsigned_tree) !! 1%nat);
  verify_global_cosign_partial_sigs unsigned_tree server_pk agg_nonces (tc_pub_nonces server_cosign)
    (tc_partial_signatures server_cosign).

Definition tb_build_tree (b : SignedTreeBuilder TbState.CanFinish) (server_cosign : SignedTreeCosignResponse)
    (cosign_key : Keypair) : outcome IncorrectSigningKeyError SignedVtxoTreeSpec :=
  _ ← ensure (bool_decide (keypair_public_key cosign_key = tb_cosign_pubkey b))
        (mkIncorrectKey _ (Some (tb_cosign_pubkey b)) (keypair_public_key cosign_key));
  user_nonces ← tb_user_pub_nonces b;
  let agg_nonces := zip_agg_nonces user_nonces (tc_pub_nonces server_cosign) in
  unsigned_tree ← expect (bt_into_unsigned_tree (tb_tree b));
  sec_nonces ← expect (user_sec_nonces b);
  partial_sigs ← cosign_tree unsigned_tree agg_nonces cosign_key sec_nonces;
  _ ← assert (is_ok (verify_global_cosign_partial_sigs unsigned_tree (tb_cosign_pubkey b) agg_nonces
                       (user_pub_nonces b) partial_sigs));
  match tree_combine_partial_signatures unsigned_tree agg_nonces (fun _ => None)
          [tc_partial_signatures server_cosign; partial_sigs] with
  | Ok sigs => Ok (into_signed_tree unsigned_tree sigs)
  | _ => Panic
  end.
End Builder.

Arguments SignedTreeBuilder {B} s.
Arguments SignedTreeCosignResponse {B}.
Arguments mkTb {B s}.
Arguments tb_tree {B s}.
Arguments tb_cosign_pubkey {B s}.
Arguments user_pub_nonces {B s}.
Arguments user_sec_nonces {B s}.

(** ** The protocol between the user and the server *)
Section BuilderFlow.
Context `{B : Bitcoin} `{W : !WitnessLaws B} `{K : !KeyLaws B} `{M : !MusigLaws B}.

(** The tree both sides construct. *)
Definition builder_spec (vtxos : list VtxoRequest) (user_pk : PublicKey) (expiry_height : Z)
    (server_pubkey server_cosign_pk : PublicKey) (exit_delta : Z) : VtxoTreeSpec :=
  mkTreeSpec ((fun v => mkSignedRequest v None) <$> vtxos) expiry_height server_pubkey exit_delta [user_pk; server_cosign_pk].

Section Flow.
Context (vtxos : list VtxoRequest) (user_pk : PublicKey) (eh : Z) (spk scpk : PublicKey) (ed : Z) (utxo : OutPoint).
Let s := builder_spec vtxos user_pk eh spk scpk ed.
Context (Hs : spec_ok s).

Lemma construct_tree_spec_Ok {E} : construct_tree_spec (E:=E) vtxos user_pk eh spk scpk ed = Ok s.
Proof.
  unfold construct_tree_spec, tree_spec_new. rewrite bool_decide_false; [done|].
  pose proof (so_nonempty _ Hs) as H. unfold nb_leaves in H. cbn in H. lia.
Qed.

Lemma builder_leaf_key l : leaf_key s l = None.
Proof. unfold leaf_key. cbn. rewrite list_lookup_fmap. by destruct (vtxos !! l). Qed.

Lemma builder_keys ls : omap (leaf_key s) ls = [].
Proof. induction ls as [|l ls IH]; [done|]. cbn. by rewrite builder_leaf_key. Qed.

Lemma builder_keys_distinct : keys_distinct s.
Proof. intros l l' pk Hl. by rewrite builder_leaf_key in Hl. Qed.

(** The state of the user's builder when it can finish. *)
Record user_ready (b : SignedTreeBuilder TbState.CanFinish) (u : UnsignedVtxoTree) (sns : list SecretNonce) : Prop := {
  ur_new : new (nb_leaves s) = Some (ut_tree u);
  ur_tree : tb_tree b = UnsignedTree u;
  ur_ok : utree_ok s (ut_tree u) utxo u;
  ur_key : tb_cosign_pubkey b = user_pk;
  ur_pub : user_pub_nonces b = sec_to_pub_nonce <$> sns;
  ur_sec : user_sec_nonces b = Some sns;
  ur_len : length sns = nb_nodes (ut_tree u);
}.

Lemma sighashes_length u : new (nb_leaves s) = Some (ut_tree u) -> utree_ok s (ut_tree u) utxo u ->
  forall E, unsigned_tree_new (E:=E) s utxo = Ok u -> length (ut_sighashes u) = nb_nodes (ut_tree u).
Proof.
  intros Hnew Hok E Hu. unfold unsigned_tree_new in Hu. rewrite Hnew in Hu. cbn [expect mbind outcome_bind] in Hu.
  apply bind_Ok in Hu as (pks & _ & Hu). apply bind_Ok in Hu as (txs & _ & Hu). apply bind_Ok in Hu as (o & _ & Hu).
  apply bind_Ok in Hu as (shs & Hshs & <-%Ok_inj). cbn. by rewrite (mapM_length _ _ _ Hshs).
Qed.

Lemma nonce_pairs_pub key shs rands : snd <$> nonce_pairs key shs rands = sec_to_pub_nonce <$> (fst <$> nonce_pairs key shs rands).
Proof.
  unfold nonce_pairs. apply list_eq. intros i. rewrite !list_lookup_fmap, !list_lookup_imap.
  destruct (shs !! i); cbn; [|done]. f_equal. apply new_nonce_pair_pub.
Qed.

Lemma user_ready_Ok {E} key rands b0 b1 b : tb_new (E:=E) vtxos user_pk eh spk scpk ed = Ok b0 ->
  set_utxo (E:=E) b0 utxo = Ok b1 -> tb_generate_user_nonces (E:=E) b1 key rands = Ok b ->
  exists u sns, unsigned_tree_new (E:=E) s utxo = Ok u /\ user_ready b u sns.
Proof.
  unfold tb_new. rewrite construct_tree_spec_Ok. cbn [mbind outcome_bind]. intros <-%Ok_inj H1 H2.
  unfold set_utxo in H1. cbn [tb_tree] in H1. apply bind_Ok in H1 as (u & Hu & <-%Ok_inj). unfold into_unsigned_tree in Hu.
  destruct (unsigned_tree_inv s utxo u Hs Hu) as [Hnew Hok]. unfold tb_generate_user_nonces in H2. cbn in H2. injection H2 as <-.
  exists u, (fst <$> nonce_pairs key (ut_sighashes u) rands). split; [done|]. split; [done..| |done|].
  - cbn. apply nonce_pairs_pub.
  - rewrite length_fmap. unfold nonce_pairs. rewrite length_imap. by eapply sighashes_length.
Qed.

Lemma zip_nonces_calculated u un sn : new (nb_leaves s) = Some (ut_tree u) ->
  length un = nb_nodes (ut_tree u) -> (nb_nodes (ut_tree u) <= length sn)%nat ->
  calculate_cosign_agg_nonces s (fun _ => None) [un; sn] = Ok (zip_agg_nonces un sn).
Proof.
  intros Hnew Hun Hsn. unfold calculate_cosign_agg_nonces. rewrite bool_decide_true by done. cbn [ensure mbind outcome_bind].
  rewrite Hnew. cbn [expect mbind outcome_bind]. apply mapM_outcome_Ok, Forall2_same_length_lookup. split.
  { unfold zip_agg_nonces. rewrite length_imap, length_zip_with. unfold nb_nodes in *. lia. }
  intros i [j nd] agg Hi Hagg. rewrite list_lookup_imap in Hi. destruct (nodes (ut_tree u) !! i) as [nd'|] eqn:Hnd; [|done].
  injection Hi as <- <-. cbn [fst snd]. destruct (leaf_requests_Ok s Hs _ Hnew (E:=string) i nd' Hnd) as (vs & -> & Hvs).
  cbn [mbind outcome_bind]. rewrite Hvs, builder_keys. unfold zip_agg_nonces in Hagg. rewrite lookup_zip_with in Hagg.
  apply bind_Some in Hagg as (x & Hx & Hagg). apply bind_Some in Hagg as (y & Hy & [= <-]).
  cbn [mapM mbind outcome_bind mret outcome_ret]. rewrite Hx, Hy. done.
Qed.

Lemma user_nonces_ne {E} b u sns : user_ready b u sns -> tb_user_pub_nonces (E:=E) b = Ok (sec_to_pub_nonce <$> sns).
Proof.
  intros [Hnew _ _ _ Hpub _ Hlen]. unfold tb_user_pub_nonces. rewrite Hpub. rewrite bool_decide_false; [done|].
  intros Hnil%(f_equal length). rewrite length_fmap in Hnil. cbn in Hnil.
  pose proof (ok_length _ _ (Htree s _ Hnew)) as Hl. pose proof (Hpos s Hs). lia.
Qed.

(** What a checked response contains. *)
Lemma response_checked b u sns resp : user_ready b u sns -> tb_verify_cosign_response b resp = Ok tt ->
  (nb_nodes (ut_tree u) <= length (tc_pub_nonces resp))%nat /\
  verify_global_cosign_partial_sigs u scpk (zip_agg_nonces (sec_to_pub_nonce <$> sns) (tc_pub_nonces resp))
    (tc_pub_nonces resp) (tc_partial_signatures resp) = Ok tt.
Proof.
  intros Hr H. pose proof Hr as [Hnew Htr Hok _ _ _ _]. unfold tb_verify_cosign_response in H. rewrite Htr in H. cbn [bt_unsigned_tree expect mbind outcome_bind] in H.
  rewrite (user_nonces_ne b u sns Hr), (uo_spec _ _ _ _ Hok) in H. cbn [mbind outcome_bind] in H.
  change (global_cosign_pubkeys s !! 1%nat) with (Some scpk) in H. cbn [expect mbind outcome_bind] in H. split; [|exact H].
  destruct (decide (nb_nodes (ut_tree u) <= length (tc_pub_nonces resp))%nat) as [|Hn]; [done|]. exfalso.
  destruct (node_at (ut_tree u) (length (tc_pub_nonces resp)) ltac:(lia)) as [nd Hnd].
  destruct (proj1 (verify_global_iff s _ Hnew utxo u Hok _ _ _ _) H _ nd Hnd) as (ps & pn & _ & Hpn & _).
  by rewrite lookup_ge_None_2 in Hpn by lia.
Qed.

(** The user's own signatures, and what is left of [build_tree] after them. *)
Lemma build_tree_own b u sns resp key : user_ready b u sns -> keypair_public_key key = user_pk ->
  tb_verify_cosign_response b resp = Ok tt ->
  exists ps, let aggs := zip_agg_nonces (sec_to_pub_nonce <$> sns) (tc_pub_nonces resp) in
    length ps = nb_nodes (ut_tree u) /\
    verify_global_cosign_partial_sigs u user_pk aggs (sec_to_pub_nonce <$> sns) ps = Ok tt /\
    tb_build_tree b resp key =
      match tree_combine_partial_signatures u aggs (fun _ => None) [tc_partial_signatures resp; ps] with
      | Ok sigs => Ok (into_signed_tree u sigs)
      | _ => Panic
      end.
Proof.
  intros Hr Hkey Hv. destruct (response_checked b u sns resp Hr Hv) as [Hlen _]. pose proof Hr as [Hnew Htr Hok Hk Hpub Hsec Hsl].
  pose proof (zip_nonces_calculated u (sec_to_pub_nonce <$> sns) (tc_pub_nonces resp) Hnew ltac:(by rewrite length_fmap) Hlen) as Ha.
  destruct (cosign_tree_valid s Hs _ Hnew utxo u Hok (E:=IncorrectSigningKeyError) _ _ _ 0 key sns Ha) as (ps & Hps & Hpl & Hpv);
    [rewrite Hkey; by left|done|done|].
  exists ps. split; [done|]. rewrite Hkey in Hpv. split; [done|]. unfold tb_build_tree.
  rewrite Hk, bool_decide_true by done. cbn [ensure mbind outcome_bind]. rewrite (user_nonces_ne b u sns Hr). cbn [mbind outcome_bind].
  rewrite Htr, Hsec. cbn [bt_into_unsigned_tree expect mbind outcome_bind]. rewrite Hps. cbn [mbind outcome_bind].
  rewrite Hpub, Hpv. done.
Qed.

Lemma build_tree_signed b u sns resp key : user_ready b u sns -> keypair_public_key key = user_pk ->
  tb_verify_cosign_response b resp = Ok tt -> length (tc_partial_signatures resp) = nb_nodes (ut_tree u) ->
  exists sigs, tb_build_tree b resp key = Ok (into_signed_tree u sigs) /\ verify_cosign_sigs u sigs = Ok tt.
Proof.
  intros Hr Hkey Hv Hrl. destruct (build_tree_own b u sns resp key Hr Hkey Hv) as (ps & Hpl & Hpv & ->).
  destruct (response_checked b u sns resp Hr Hv) as [Hlen Hrv]. pose proof Hr as [Hnew _ Hok _ _ _ Hsl].
  pose proof (zip_nonces_calculated u (sec_to_pub_nonce <$> sns) (tc_pub_nonces resp) Hnew ltac:(by rewrite length_fmap) Hlen) as Ha.
  destruct (combine_verified s Hs _ Hnew utxo u Hok builder_keys_distinct _ _ _ Ha (fun _ => None)) with
    (gs := [tc_partial_signatures resp; ps]) as (sigs & -> & Hsv).
  - intros l r pk Hrq Hpk. pose proof (builder_leaf_key l) as Hk. unfold leaf_key in Hk. rewrite Hrq in Hk. cbn in Hk. congruence.
  - exists [scpk; user_pk], [tc_pub_nonces resp; sec_to_pub_nonce <$> sns]. split; [constructor|]. split; [done|]. split; [done|].
    intros [|[|j]] pk ns sl; cbn; [intros [= <-] [= <-] [= <-]; done..|done].
  - by exists sigs.
Qed.

Lemma builder_nodes t : new (nb_leaves s) = Some t -> nb_nodes_for_leaves (length vtxos) = Some (nb_nodes t).
Proof.
  intros Hnew. pose proof (Hpos s Hs) as Hp. unfold nb_leaves in Hp. cbn in Hp. rewrite length_fmap in Hp.
  unfold nb_nodes_for_leaves. rewrite nb_nodes_loop_spec by (apply Nat.Div0.div_lt_upper_bound; lia).
  f_equal. rewrite (ok_length _ _ (Htree s _ Hnew)). unfold nb_leaves. cbn. by rewrite length_fmap.
Qed.
End Flow.

(** [verify_cosign_response] accepts responses that [build_tree] cannot use:
    it never looks at partial signatures beyond the last node, but with any
    such extra signature [combine_partial_signatures] reports an error and
    [build_tree] panics ("should work with correct cosign signatures"). *)
Theorem tree_builder_extra_sigs_panics {E} vtxos user_pk eh spk scpk ed utxo key rands b0 b1 b resp :
  spec_ok (builder_spec vtxos user_pk eh spk scpk ed) ->
  tb_new (E:=E) vtxos user_pk eh spk scpk ed = Ok b0 -> set_utxo (E:=E) b0 utxo = Ok b1 ->
  tb_generate_user_nonces (E:=E) b1 key rands = Ok b -> keypair_public_key key = user_pk ->
  tb_verify_cosign_response b resp = Ok tt ->
  forall n, nb_nodes_for_leaves (length vtxos) = Some n -> (n < length (tc_partial_signatures resp))%nat ->
  tb_build_tree b resp key = Panic.
Proof.
  intros Hs H0 H1 H2 Hkey Hv n Hn Hlt.
  destruct (user_ready_Ok vtxos user_pk eh spk scpk ed utxo Hs key rands b0 b1 b H0 H1 H2) as (u & sns & Hu & Hr).
  pose proof Hr as [Hnew _ Hok _ _ _ _]. rewrite (builder_nodes vtxos user_pk eh spk scpk ed Hs _ Hnew) in Hn. injection Hn as <-.
  destruct (build_tree_own vtxos user_pk eh spk scpk ed utxo Hs b u sns resp key Hr Hkey Hv) as (ps & _ & _ & ->).
  unfold tree_combine_partial_signatures. rewrite (uo_spec _ _ _ _ Hok). rewrite bool_decide_true by done.
  cbn [ensure mbind outcome_bind builder_spec global_cosign_pubkeys zip_with mapM fst snd].
  rewrite (bool_decide_false (length (tc_partial_signatures resp) = _)) by lia. done.
Qed.

(** The server's response always passes the user's check: cosigning the tree
    the user asked for, with the user's public nonces, returns one signature
    per node and [verify_cosign_response] accepts it. *)
Theorem tree_builder_cosign_accepted {E} vtxos user_pk eh spk scpk ed utxo key rands b0 b1 b skey srands sb :
  spec_ok (builder_spec vtxos user_pk eh spk scpk ed) ->
  tb_new (E:=E) vtxos user_pk eh spk scpk ed = Ok b0 -> set_utxo (E:=E) b0 utxo = Ok b1 ->
  tb_generate_user_nonces (E:=E) b1 key rands = Ok b ->
  tb_new_for_cosign (E:=E) vtxos user_pk eh spk scpk ed utxo (user_pub_nonces b) = Ok sb ->
  keypair_public_key skey = scpk ->
  exists resp, tb_server_cosign (E:=E) sb skey srands = Ok resp /\ tb_verify_cosign_response b resp = Ok tt /\
    nb_nodes_for_leaves (length vtxos) = Some (length (tc_partial_signatures resp)).
Proof.
  intros Hs H0 H1 H2 Hsb Hkey.
  destruct (user_ready_Ok vtxos user_pk eh spk scpk ed utxo Hs key rands b0 b1 b H0 H1 H2) as (u & sns & Hu & Hr).
  pose proof Hr as [Hnew Htr Hok _ Hpub _ Hsl]. unfold tb_new_for_cosign in Hsb.
  rewrite (construct_tree_spec_Ok vtxos user_pk eh spk scpk ed Hs) in Hsb. cbn [mbind outcome_bind] in Hsb. unfold into_unsigned_tree in Hsb.
  rewrite Hu in Hsb. apply Ok_inj in Hsb as <-. set (pairs := nonce_pairs skey (ut_sighashes u) srands).
  assert (length (fst <$> pairs) = nb_nodes (ut_tree u)) as Hpl.
  { rewrite length_fmap. unfold pairs, nonce_pairs. rewrite length_imap. by eapply sighashes_length. }
  pose proof (nonce_pairs_pub skey (ut_sighashes u) srands) as Hpp. fold pairs in Hpp.
  assert (calculate_cosign_agg_nonces (builder_spec vtxos user_pk eh spk scpk ed) (fun _ => None) [user_pub_nonces b; snd <$> pairs] =
    Ok (zip_agg_nonces (user_pub_nonces b) (snd <$> pairs))) as Ha.
  { apply (zip_nonces_calculated vtxos user_pk eh spk scpk ed Hs u); [done|rewrite Hpub, length_fmap; done|rewrite Hpp, length_fmap, Hpl; done]. }
  destruct (cosign_tree_valid _ Hs _ Hnew utxo u Hok (E:=E) _ _ _ 1 skey (fst <$> pairs) Ha) as (ps & Hps & Hpsl & Hpv);
    [rewrite Hkey; right; by left|cbn; by rewrite Hpp|done|].
  exists (mkTreeCosign (snd <$> pairs) ps).
  pose proof (user_nonces_ne vtxos user_pk eh spk scpk ed utxo Hs (E:=CosignSignatureError) b u sns Hr) as Hne. split.
  - unfold tb_server_cosign. cbn [tb_tree bt_unsigned_tree expect mbind outcome_bind]. fold pairs.
    unfold tb_user_pub_nonces in *. cbn [user_pub_nonces]. rewrite Hpub in *. destruct (bool_decide _); [done|].
    cbn [negb assert mbind outcome_bind]. by rewrite Hps.
  - split; [|cbn [tc_partial_signatures]; by rewrite Hpsl, (builder_nodes vtxos user_pk eh spk scpk ed Hs _ Hnew)]. unfold tb_verify_cosign_response.
    rewrite Htr. cbn [bt_unsigned_tree expect mbind outcome_bind]. rewrite Hne, (uo_spec _ _ _ _ Hok). cbn. rewrite <- Hpub.
    by rewrite Hkey, <- Hpp in Hpv.
Qed.
End BuilderFlow.

(** *** Witnesses *)
Definition tb_vtxos : list (VtxoRequest (B := model)) :=
  [mkRequest (B := model) 1000 (new_pubkey (B := model) Byte.x01); mkRequest (B := model) 2000 (new_pubkey (B := model) Byte.x02)].
Definition tb_s : VtxoTreeSpec (B := model) := builder_spec (B := model) tb_vtxos Byte.x05 100000 Byte.x09 Byte.x19 144.
Definition tb_funding : Transaction :=
  mkTx 2 0 [] [ok_value (mkTxOut 0 []) (funding_tx_txout (B := model) (E := unit) tb_s)].
Definition tb_utxo : OutPoint := mkOutPoint (compute_txid (Bitcoin := model) tb_funding) 0.
Definition tb_empty {s} : SignedTreeBuilder (B := model) s := mkTb (B := model) 0 Byte.x00 0 Byte.x00 (SpecTree tb_s) [] None.
Definition tb_b0 : SignedTreeBuilder (B := model) TbState.Preparing :=
  ok_value tb_empty (tb_new (B := model) (E := unit) tb_vtxos Byte.x05 100000 Byte.x09 Byte.x19 144).
Definition tb_b1 : SignedTreeBuilder (B := model) TbState.CanGenerateNonces :=
  ok_value tb_empty (set_utxo (E := unit) tb_b0 tb_utxo).
Definition tb_rands (i : nat) : Z := 20 + Z.of_nat i.
Definition tb_b2 : SignedTreeBuilder (B := model) TbState.CanFinish :=
  ok_value tb_empty (tb_generate_user_nonces (B := model) (E := unit) tb_b1 Byte.x05 tb_rands).
Definition tb_sb : SignedTreeBuilder (B := model) TbState.ServerCanCosign :=
  ok_value tb_empty (tb_new_for_cosign (B := model) (E := unit) tb_vtxos Byte.x05 100000 Byte.x09 Byte.x19 144 tb_utxo (user_pub_nonces tb_b2)).
Definition tb_resp : SignedTreeCosignResponse (B := model) :=
  ok_value (mkTreeCosign (B := model) [] []) (tb_server_cosign (B := model) (E := unit) tb_sb Byte.x19 tb_rands).
Definition tb_long_resp : SignedTreeCosignResponse (B := model) :=
  mkTreeCosign (B := model) (tc_pub_nonces tb_resp) (tc_partial_signatures tb_resp ++ [(Byte.x00, 0, [])]).

Lemma tb_s_ok : spec_ok tb_s.
Proof. split; [cbn; lia|by eexists| |cbn; lia]. repeat constructor; cbn; try lia; eexists; reflexivity. Qed.

Lemma tree_builder_cosign_accepted_witness : exists resp, tb_server_cosign (B := model) (E := unit) tb_sb Byte.x19 tb_rands = Ok resp /\
  tb_verify_cosign_response tb_b2 resp = Ok tt /\ nb_nodes_for_leaves 2 = Some (length (tc_partial_signatures resp)).
Proof.
  apply (tree_builder_cosign_accepted (B := model) (E := unit) tb_vtxos Byte.x05 100000 Byte.x09 Byte.x19 144 tb_utxo Byte.x05 tb_rands
    tb_b0 tb_b1 tb_b2 Byte.x19 tb_rands tb_sb tb_s_ok); vm_eq.
Defined.


Lemma tree_builder_extra_sigs_panics_witness :
  tb_verify_cosign_response tb_b2 tb_long_resp = Ok tt /\ tb_build_tree tb_b2 tb_long_resp Byte.x05 = Panic.
Proof.
  split; [vm_eq|].
  apply (tree_builder_extra_sigs_panics (B := model) (E := unit) tb_vtxos Byte.x05 100000 Byte.x09 Byte.x19 144 tb_utxo Byte.x05 tb_rands
    tb_b0 tb_b1 tb_b2 tb_long_resp tb_s_ok) with (n := 3%nat); [vm_eq..|vm_compute; lia].
Defined.
