(* ===== verification/TreeEncoding.v ===== *)
(** * The wire encoding of VTXO trees (lib/src/tree/signed.rs)

    [VtxoTreeSpec] (the current version 2 and the old version 1, which is only
    read) and [SignedVtxoTreeSpec].  The decoders reserve memory for the number
    of items they were told to expect before they read any of them. *)
From S2P Require Import Prelude Tree Bitcoin Encode Concrete Policy Vtxo VtxoEncoding Validation Board Extend Arkoor SignedTree.

Open Scope Z_scope.

Definition VTXO_TREE_SPEC_VERSION : Z := 0x02.
Definition SIGNED_VTXO_TREE_SPEC_VERSION : Z := 0x01.

(** [Vec::with_capacity(n)] for items of [size] bytes on a 64-bit machine: it
    panics when the capacity exceeds [isize::MAX] bytes. *)
Definition capacity_ok (size n : Z) : bool := size * n <=? 2 ^ 63 - 1.
Definition with_capacity (size n : Z) : reader unit := fun inp =>
  if capacity_ok size n then Ok (tt, inp) else Panic.

(** The sizes of the items in memory, which the compiler chooses. *)
Class Layout := {
  size_of_PublicKey : Z;
  size_of_Signature : Z;
  size_of_SignedVtxoRequest : Z;
}.

Section TreeCodec.
Context `{B : Bitcoin} `{C : Consensus} `{Y : Layout}.

Definition encode_request (r : SignedVtxoRequest) : outcome DecodingError bytes :=
  p ← encode (req_policy (sr_vtxo r));
  k ← (match cosign_pubkey r with Some pk => encode pk | None => Ok (emit_u8 0) end);
  Ok (p ++ emit_u64 (req_amount (sr_vtxo r)) ++ k).

Definition decode_request : reader SignedVtxoRequest :=
  output ← decode;
  amount ← read_u64;
  cosign_pubkey ← decode;
  mret (mkSignedRequest (mkRequest amount output) cosign_pubkey).

#[export] Instance SignedVtxoRequest_encoding : ProtocolEncoding SignedVtxoRequest :=
  { encode := encode_request; decode := decode_request }.

Definition encode_tree_spec (s : VtxoTreeSpec) : outcome DecodingError bytes :=
  server_pubkey ← encode (ts_server_pubkey s);
  globals ← encode_all (global_cosign_pubkeys s);
  vtxos ← encode_all (ts_vtxos s);
  Ok (emit_u8 VTXO_TREE_SPEC_VERSION ++ emit_u32 (ts_expiry_height s) ++ server_pubkey ++ emit_u16 (ts_exit_delta s) ++
      emit_compact_size (Z.of_nat (length (global_cosign_pubkeys s))) ++ globals ++
      emit_compact_size (Z.of_nat (length (ts_vtxos s))) ++ vtxos).

(** One vtxo of version 1, which always has a cosign key. *)
Definition decode_request_v1 : reader SignedVtxoRequest :=
  output ← decode;
  amount ← read_u64;
  cosign_pk ← decode;
  mret (mkSignedRequest (mkRequest amount output) (Some cosign_pk)).

Definition decode_tree_spec_v1 : reader VtxoTreeSpec :=
  expiry_height ← read_u32;
  server_pubkey ← decode;
  exit_delta ← read_u16;
  server_cosign_pk ← decode;
  nb_vtxos ← read_u32;
  _ ← with_capacity size_of_SignedVtxoRequest nb_vtxos;
  vtxos ← read_n decode_request_v1 (Z.to_nat nb_vtxos);
  mret (mkTreeSpec vtxos expiry_height server_pubkey exit_delta [server_cosign_pk]).

Definition decode_tree_spec : reader VtxoTreeSpec :=
  version ← read_u8;
  if version =? 0x01 then decode_tree_spec_v1
  else if negb (version =? VTXO_TREE_SPEC_VERSION) then
    fail (Encode.Invalid "invalid VtxoTreeSpec encoding version byte")
  else
    expiry_height ← read_u32;
    server_pubkey ← decode;
    exit_delta ← read_u16;
    nb_global_signers ← read_compact_size;
    _ ← with_capacity size_of_PublicKey nb_global_signers;
    global_cosign_pubkeys ← read_n decode (Z.to_nat nb_global_signers);
    nb_vtxos ← read_compact_size;
    _ ← with_capacity size_of_SignedVtxoRequest nb_vtxos;
    vtxos ← read_n decode (Z.to_nat nb_vtxos);
    mret (mkTreeSpec vtxos expiry_height server_pubkey exit_delta global_cosign_pubkeys).

#[export] Instance VtxoTreeSpec_encoding : ProtocolEncoding VtxoTreeSpec :=
  { encode := encode_tree_spec; decode := decode_tree_spec }.

(** The number of signatures is cast to 32 bits. *)
Definition encode_signed_tree (st : SignedVtxoTreeSpec) : outcome DecodingError bytes :=
  spec ← encode (st_spec st);
  utxo ← encode (st_utxo st);
  sigs ← encode_all (cosign_sigs st);
  Ok (emit_u8 SIGNED_VTXO_TREE_SPEC_VERSION ++ spec ++ utxo ++
      emit_u32 (Z.of_nat (length (cosign_sigs st)) mod 2 ^ 32) ++ sigs).

Definition decode_signed_tree : reader SignedVtxoTreeSpec :=
  version ← read_u8;
  if negb (version =? SIGNED_VTXO_TREE_SPEC_VERSION) then
    fail (Encode.Invalid "invalid SignedVtxoTreeSpec encoding version byte")
  else
    spec ← decode;
    utxo ← decode;
    nb_cosign_sigs ← read_u32;
    _ ← with_capacity size_of_Signature nb_cosign_sigs;
    cosign_sigs ← read_n decode (Z.to_nat nb_cosign_sigs);
    mret (mkSignedTree spec utxo cosign_sigs).

#[export] Instance SignedVtxoTreeSpec_encoding : ProtocolEncoding SignedVtxoTreeSpec :=
  { encode := encode_signed_tree; decode := decode_signed_tree }.

(** ** The values that fit the format *)
Definition valid_request (r : SignedVtxoRequest) : Prop :=
  valid_policy (req_policy (sr_vtxo r)) /\ in_u64 (req_amount (sr_vtxo r)) = true.

(** A vector in memory is within the limit of its capacity. *)
Definition valid_len (size : Z) (n : nat) : Prop :=
  in_u64 (Z.of_nat n) = true /\ capacity_ok size (Z.of_nat n) = true.

Definition valid_tree_spec (s : VtxoTreeSpec) : Prop :=
  in_u32 (ts_expiry_height s) = true /\ in_u16 (ts_exit_delta s) = true /\
  valid_len size_of_PublicKey (length (global_cosign_pubkeys s)) /\
  valid_len size_of_SignedVtxoRequest (length (ts_vtxos s)) /\ Forall valid_request (ts_vtxos s).

Definition valid_signed_tree (st : SignedVtxoTreeSpec) : Prop :=
  valid_tree_spec (st_spec st) /\ valid_outpoint (st_utxo st) /\
  in_u32 (Z.of_nat (length (cosign_sigs st))) = true /\ capacity_ok size_of_Signature (Z.of_nat (length (cosign_sigs st))) = true.

Context `{L : !SerializeLaws B} `{CL : !ConsensusLaws C}.

Lemma with_capacity_Ok {A} size n (f : unit -> reader A) inp : capacity_ok size n = true ->
  (with_capacity size n ≫= f) inp = f tt inp.
Proof. intros H. apply bind_reader_Ok. unfold with_capacity. by rewrite H. Qed.

Lemma encode_cosign_pubkey (r : SignedVtxoRequest) :
  (match cosign_pubkey r with Some pk => encode pk | None => Ok (emit_u8 0) end) = encode (cosign_pubkey r).
Proof. by destruct (cosign_pubkey r). Qed.

#[export] Instance SignedVtxoRequest_laws : EncodingLaws SignedVtxoRequest valid_request.
Proof.
  split.
  - intros r [Hp Ha]. cbn [encode SignedVtxoRequest_encoding]. unfold encode_request. rewrite encode_cosign_pubkey.
    destruct (encode_total _ Hp) as [bp ->]. by eexists.
  - intros [[a p] k] bs rest [Hp Ha] Henc. cbn [encode decode SignedVtxoRequest_encoding] in *. unfold encode_request in Henc.
    rewrite encode_cosign_pubkey in Henc. cbn [sr_vtxo req_policy req_amount cosign_pubkey] in *.
    apply bind_Ok in Henc as (bp & Hbp & Henc). apply bind_Ok in Henc as (bk & Hbk & <-%Ok_inj).
    unfold decode_request. rewrite <- !app_assoc. by do 3 read_step.
Qed.

#[export] Instance VtxoTreeSpec_laws : EncodingLaws VtxoTreeSpec valid_tree_spec.
Proof.
  split.
  - intros s (_ & _ & _ & _ & Hv). cbn [encode VtxoTreeSpec_encoding]. unfold encode_tree_spec.
    destruct (encode_total (valid := fun _ => True) (ts_server_pubkey s) I) as [bk ->]. cbn [mbind outcome_bind].
    destruct (encode_all_total (valid := fun _ => True) (global_cosign_pubkeys s)) as [bg ->]; [by apply Forall_true|]. cbn [mbind outcome_bind].
    destruct (encode_all_total _ Hv) as [bv ->]. by eexists.
  - intros [vs eh spk ed gs] bs rest (He & Hd & [Hg1 Hg2] & [Hv1 Hv2] & Hv) Henc.
    cbn [encode decode VtxoTreeSpec_encoding ts_expiry_height ts_exit_delta global_cosign_pubkeys ts_vtxos ts_server_pubkey] in *.
    unfold encode_tree_spec in Henc. cbn [ts_expiry_height ts_exit_delta global_cosign_pubkeys ts_vtxos ts_server_pubkey] in Henc.
    apply bind_Ok in Henc as (bk & Hbk & Henc). apply bind_Ok in Henc as (bg & Hbg & Henc). apply bind_Ok in Henc as (bv & Hbv & <-%Ok_inj).
    unfold decode_tree_spec. rewrite <- !app_assoc. read_step.
    cbn -[decode read_u32 read_u16 read_n read_compact_size emit_u32 emit_u16 emit_compact_size with_capacity].
    do 3 read_step. erewrite bind_reader_Ok by (by apply read_compact_size_emit). rewrite with_capacity_Ok by done.
    rewrite Nat2Z.id. erewrite bind_reader_Ok by (eapply (read_n_encode_all (valid := fun _ => True)); [by apply Forall_true|done]).
    erewrite bind_reader_Ok by (by apply read_compact_size_emit). rewrite with_capacity_Ok by done. rewrite Nat2Z.id.
    by erewrite bind_reader_Ok by (by eapply read_n_encode_all).
Qed.

#[export] Instance SignedVtxoTreeSpec_laws : EncodingLaws SignedVtxoTreeSpec valid_signed_tree.
Proof.
  split.
  - intros st (Hs & Hu & _). cbn [encode SignedVtxoTreeSpec_encoding]. unfold encode_signed_tree.
    destruct (encode_total _ Hs) as [bs ->]. cbn [mbind outcome_bind]. destruct (encode_total _ Hu) as [bu ->]. cbn [mbind outcome_bind].
    destruct (encode_all_total (valid := fun _ => True) (cosign_sigs st)) as [bg ->]; [by apply Forall_true|]. by eexists.
  - intros [s u sigs] bs rest (Hs & Hu & Hn & Hc) Henc. cbn [encode decode SignedVtxoTreeSpec_encoding st_spec st_utxo cosign_sigs] in *.
    unfold encode_signed_tree in Henc. cbn [st_spec st_utxo cosign_sigs] in Henc.
    rewrite Z.mod_small in Henc by (by apply in_width_spec).
    apply bind_Ok in Henc as (b1 & Hb1 & Henc). apply bind_Ok in Henc as (b2 & Hb2 & Henc). apply bind_Ok in Henc as (b3 & Hb3 & <-%Ok_inj).
    unfold decode_signed_tree. rewrite <- !app_assoc. read_step. cbn -[decode read_u32 read_n emit_u32 with_capacity].
    do 3 read_step. rewrite with_capacity_Ok by done. rewrite Nat2Z.id.
    by erewrite bind_reader_Ok by (eapply (read_n_encode_all (valid := fun _ => True)); [by apply Forall_true|done]).
Qed.

(** A signed tree whose fields fit the format serializes, and deserializing
    the bytes, with anything after them, gives the same tree back: its
    specification, its outpoint and all node signatures. *)
Theorem signed_tree_roundtrip (st : SignedVtxoTreeSpec) rest : valid_signed_tree st ->
  exists bs, serialize st = Ok bs /\ decode (bs ++ rest) = Ok (st, rest) /\ deserialize bs = Ok st.
Proof.
  intros Hv. destruct (encode_total st Hv) as [bs Hbs]. exists bs.
  pose proof (fun r => decode_encode st bs r Hv Hbs) as Hdec. split_and!; [done..|].
  unfold deserialize. specialize (Hdec []). rewrite app_nil_r in Hdec. by rewrite Hdec.
Qed.

(** Decoding a tree specification is not safe on bytes from outside: a count
    of global signers whose keys would exceed the address space makes
    [decode] panic when it reserves memory, whatever follows in the input. *)
Theorem tree_spec_decode_count_panics eh ed spk bs n rest : in_u32 eh = true -> in_u16 ed = true ->
  encode (spk : PublicKey) = Ok bs -> in_u64 n = true -> capacity_ok size_of_PublicKey n = false ->
  decode_tree_spec (emit_u8 VTXO_TREE_SPEC_VERSION ++ emit_u32 eh ++ bs ++ emit_u16 ed ++ emit_compact_size n ++ rest) = Panic.
Proof.
  intros He Hd Hb Hn Hc. unfold decode_tree_spec. read_step.
  cbn -[decode read_u32 read_u16 read_n read_compact_size emit_u32 emit_u16 emit_compact_size with_capacity].
  do 3 read_step. erewrite bind_reader_Ok by (by apply read_compact_size_emit).
  unfold with_capacity, mbind, reader_bind. by rewrite Hc.
Qed.
End TreeCodec.

(** *** Witnesses *)
#[export] Instance layout64 : Layout :=
  { size_of_PublicKey := 64; size_of_Signature := 64; size_of_SignedVtxoRequest := 200 }.

Definition wire_tree : SignedVtxoTreeSpec (B := ser_model) :=
  mkSignedTree (B := ser_model)
    (mkTreeSpec (B := ser_model)
       [mkSignedRequest (B := ser_model) (mkRequest (B := ser_model) 1000 (new_pubkey (B := ser_model) Byte.x01)) (Some Byte.x11);
        mkSignedRequest (B := ser_model) (mkRequest (B := ser_model) 2000 (new_pubkey (B := ser_model) Byte.x02)) None]
       100000 Byte.x09 144 [Byte.x19; Byte.x1a])
    (mkOutPoint (hash []) 3) [Byte.x31; Byte.x32; Byte.x33].

Lemma signed_tree_roundtrip_witness : exists bs, serialize wire_tree = Ok bs /\
  decode (bs ++ [Byte.x01]) = Ok (wire_tree, [Byte.x01]) /\ deserialize bs = Ok wire_tree.
Proof.
  apply (signed_tree_roundtrip (B := ser_model) wire_tree [Byte.x01]).
  split; [|by repeat split]. split; [done|]. split; [done|]. split; [done|]. split; [done|].
  by repeat constructor.
Defined.

Lemma tree_spec_decode_count_panics_witness :
  decode_tree_spec (B := ser_model) (emit_u8 VTXO_TREE_SPEC_VERSION ++ emit_u32 5 ++ pk_serialize (Bitcoin := ser_model) Byte.x01 ++
    emit_u16 6 ++ emit_compact_size (2 ^ 60) ++ []) = Panic.
Proof. apply (tree_spec_decode_count_panics (B := ser_model) 5 6 Byte.x01); reflexivity. Defined.
