(* ===== verification/ChainSource.v ===== *)
(** * The wallet's view of the outside (bitcoin-ext/src/lib.rs, bitcoin-ext/src/cpfp.rs,
      bark/src/onchain/mod.rs, bark/src/onchain/chain.rs)

    The exit code of the wallet talks to a chain source, to the user's on-chain
    wallet and to a database.  Each is an interface: a class of the calls the
    code makes, with a state of its own that any call may change.  A call
    answers or fails.  [ChainSourceLaws] is what the exit code relies on. *)
From stdpp Require Import gmap.
From S2P Require Import Prelude Effects Bitcoin.

Open Scope Z_scope.

(** ** bitcoin-ext *)
Record BlockRef := mkBlockRef { height : Z; hash : bytes }.

Module TxStatus.
Inductive t :=
  | Confirmed (b : BlockRef)
  | Mempool
  | NotFound.

Definition confirmed_height (s : t) : option Z :=
  match s with Confirmed block_ref => Some (height block_ref) | _ => None end.

Definition confirmed_in (s : t) : option BlockRef :=
  match s with Confirmed block_ref => Some block_ref | _ => None end.
End TxStatus.

Definition DEEPLY_CONFIRMED : Z := 100.

#[export] Instance BlockRef_eq_dec : EqDecision BlockRef.
Proof. solve_decision. Defined.
#[export] Instance TxStatus_eq_dec : EqDecision TxStatus.t.
Proof. solve_decision. Defined.

Inductive CpfpError :=
  | CreateError (e : string)
  | FinalizeError (e : string)
  | CpfpInsufficientConfirmedFunds (needed available : Z)
  | CpfpInternalError (e : string)
  | NoFeeAnchor (txid : bytes)
  | SigningError (e : string)
  | StoreError (e : string).

Inductive MakeCpfpFees :=
  | Effective (fee_rate : Z)
  | Rbf (min_effective_fee_rate current_package_fee : Z).

(** [TransactionExt::fee_anchor]: the outpoint of the first fee anchor. *)
Definition tx_fee_anchor `{B : Bitcoin} (tx : Transaction) : option OutPoint :=
  p ← list_find (fun o => is_p2a_fee_anchor o = true) (output tx);
  Some (mkOutPoint (compute_txid tx) (Z.of_nat p.1 mod 2 ^ 32)).

(** [FeeRateExt::from_amount_and_weight_ceil]. *)
Definition from_amount_and_weight_ceil (fee weight : Z) : option Z :=
  if weight =? 0 then None
  else if in_u64 (fee * 1000) then Some ((fee * 1000 + weight - 1) / weight) else None.

(** ** Calls to the outside *)
Definition ext (S E A : Type) : Type := S -> (E + A) * S.

Definition call {S E A} (f : ext S E A) : M S E A := fun s =>
  (match (f s).1 with inl e => Err e | inr a => Ok a end, (f s).2).

Record FeeRates := mkFeeRates { fast : Z; regular : Z; slow : Z }.

Record MempoolAncestorInfo := mkAncestorInfo { mai_txid : bytes; total_fee : Z; total_weight : Z }.

Definition effective_fee_rate (i : MempoolAncestorInfo) : option Z :=
  from_amount_and_weight_ceil (total_fee i) (total_weight i).

(** [TxsSpendingInputsResult]. *)
Definition SpendingResult : Type := gmap OutPoint (bytes * TxStatus.t).

(** The public methods of [ChainSource] that the exit code calls. *)
Class ChainSource (net : Type) := {
  fee_rates : net -> FeeRates;
  chain_tip : ext net string Z;
  block_ref : Z -> ext net string BlockRef;
  chain_tx_status : bytes -> ext net string TxStatus.t;
  txs_spending_inputs : list OutPoint -> Z -> ext net string SpendingResult;
  get_tx : bytes -> ext net string (option Transaction);
  mempool_ancestor_info : bytes -> ext net string MempoolAncestorInfo;
  broadcast_txs : list Transaction -> ext net string unit;
}.

(** A block reference is for the height that was asked for, and a spending
    transaction that was found is in a block or in the mempool. *)
Class ChainSourceLaws (net : Type) `{ChainSource net} := {
  block_ref_height : forall h s b, (block_ref h s).1 = inr b -> height b = h;
  spending_found : forall ps h s m p txid, (txs_spending_inputs ps h s).1 = inr m ->
    m !! p = Some (txid, TxStatus.NotFound) -> False;
}.

(** The traits of [ExitUnilaterally], implemented by the user's wallet. *)
Class OnchainWallet (wallet : Type) := {
  get_balance : wallet -> Z;
  get_spending_tx : wallet -> OutPoint -> option Transaction;
  get_wallet_tx_confirmed_block : wallet -> bytes -> string + option BlockRef;
  make_signed_p2a_cpfp : Transaction -> MakeCpfpFees -> ext wallet CpfpError Transaction;
  store_signed_p2a_cpfp : Transaction -> ext wallet CpfpError unit;
}.

(** ** Fees of rust-bitcoin *)
Class Fees := {
  tx_weight : Transaction -> Z;
  fee_for_weight : Z -> Z -> Z;
}.
