(* ===== verification/ExitStates.v ===== *)
(** * The data of the wallet (bark/src/vtxo/state.rs, bark/src/exit/models/)

    The states of the VTXOs of a wallet and of their unilateral exits, with the
    errors of the exit code. *)
From stdpp Require Import gmap.
From S2P Require Import Prelude Effects Bitcoin Policy Vtxo ChainSource.

Open Scope Z_scope.

(** ** bark/src/vtxo/state.rs *)
Module VtxoStateKind.
Inductive t := Spendable | Locked | Spent.

Definition as_str (k : t) : string :=
  match k with Spendable => "Spendable" | Locked => "Locked" | Spent => "Spent" end.
End VtxoStateKind.

Module VtxoState.
Inductive t :=
  | Spendable
  | Spent
  | Locked (movement_id : option Z).

Definition kind (s : t) : VtxoStateKind.t :=
  match s with
  | Locked _ => VtxoStateKind.Locked
  | Spendable => VtxoStateKind.Spendable
  | Spent => VtxoStateKind.Spent
  end.
End VtxoState.

#[export] Instance VtxoStateKind_eq_dec : EqDecision VtxoStateKind.t.
Proof. solve_decision. Defined.
#[export] Instance VtxoState_eq_dec : EqDecision VtxoState.t.
Proof. solve_decision. Defined.

Definition UNSPENT_STATES : list VtxoStateKind.t := [VtxoStateKind.Spendable; VtxoStateKind.Locked].

(** ** bark/src/exit/models/states.rs *)
Module ExitTxOrigin.
Inductive t :=
  | Wallet (confirmed_in : option BlockRef)
  | Mempool (fee_rate total_fee : Z)
  | Block (confirmed_in : BlockRef).

Definition confirmed_in (o : t) : option BlockRef :=
  match o with
  | Wallet confirmed_in => confirmed_in
  | Mempool _ _ => None
  | Block confirmed_in => Some confirmed_in
  end.
End ExitTxOrigin.

#[export] Instance ExitTxOrigin_eq_dec : EqDecision ExitTxOrigin.t.
Proof. solve_decision. Defined.

Module ExitTxStatus.
Inductive t :=
  | VerifyInputs
  | AwaitingInputConfirmation (txids : gset bytes)
  | NeedsSignedPackage
  | NeedsReplacementPackage (min_fee_rate min_fee : Z)
  | NeedsBroadcasting (child_txid : bytes) (origin : ExitTxOrigin.t)
  | BroadcastWithCpfp (child_txid : bytes) (origin : ExitTxOrigin.t)
  | Confirmed (child_txid : bytes) (block : BlockRef) (origin : ExitTxOrigin.t).

Definition child_txid (s : t) : option bytes :=
  match s with
  | NeedsBroadcasting child_txid _ => Some child_txid
  | BroadcastWithCpfp child_txid _ => Some child_txid
  | Confirmed child_txid _ _ => Some child_txid
  | _ => None
  end.

Definition confirmed_in (s : t) : option BlockRef :=
  match s with Confirmed _ block _ => Some block | _ => None end.
End ExitTxStatus.

#[export] Instance ExitTxStatus_eq_dec : EqDecision ExitTxStatus.t.
Proof. solve_decision. Defined.

Record ExitTx := mkExitTx { et_txid : bytes; et_status : ExitTxStatus.t }.
#[export] Instance ExitTx_eq_dec : EqDecision ExitTx.
Proof. solve_decision. Defined.

Record ExitProcessingState := mkProcessing { ps_tip_height : Z; ps_transactions : list ExitTx }.
Record ExitAwaitingDeltaState := mkAwaitingDelta {
  ad_tip_height : Z; ad_confirmed_block : BlockRef; ad_claimable_height : Z }.
Record ExitClaimableState := mkClaimable {
  cl_tip_height : Z; cl_claimable_since : BlockRef; cl_last_scanned_block : option BlockRef }.
Record ExitClaimInProgressState := mkClaimInProgress {
  cip_tip_height : Z; cip_claimable_since : BlockRef; cip_claim_txid : bytes }.
Record ExitClaimedState := mkClaimed { cd_tip_height : Z; cd_txid : bytes; cd_block : BlockRef }.

#[export] Instance ExitProcessingState_eq_dec : EqDecision ExitProcessingState.
Proof. solve_decision. Defined.
#[export] Instance ExitAwaitingDeltaState_eq_dec : EqDecision ExitAwaitingDeltaState.
Proof. solve_decision. Defined.
#[export] Instance ExitClaimableState_eq_dec : EqDecision ExitClaimableState.
Proof. solve_decision. Defined.
#[export] Instance ExitClaimInProgressState_eq_dec : EqDecision ExitClaimInProgressState.
Proof. solve_decision. Defined.
#[export] Instance ExitClaimedState_eq_dec : EqDecision ExitClaimedState.
Proof. solve_decision. Defined.

(** ** bark/src/exit/models/mod.rs *)
Module ExitState.
Inductive t :=
  | Start (tip_height : Z)
  | Processing (s : ExitProcessingState)
  | AwaitingDelta (s : ExitAwaitingDeltaState)
  | Claimable (s : ExitClaimableState)
  | ClaimInProgress (s : ExitClaimInProgressState)
  | Claimed (s : ExitClaimedState).

Definition new_start (tip : Z) : t := Start tip.

Definition new_processing (tip : Z) (txids : list bytes) : t :=
  Processing (mkProcessing tip ((fun id => mkExitTx id ExitTxStatus.VerifyInputs) <$> txids)).

Definition new_processing_from_transactions (tip : Z) (transactions : list ExitTx) : t :=
  Processing (mkProcessing tip transactions).

(** With the debug assertion; the height is a [u32]. *)
Definition new_awaiting_delta {E} (tip : Z) (confirmed_block : BlockRef) (wait_delta : Z) : outcome E t :=
  _ ← assert (negb (wait_delta =? 0));
  claimable_height ← u_add 32 (height confirmed_block) wait_delta;
  Ok (AwaitingDelta (mkAwaitingDelta tip confirmed_block claimable_height)).

Definition new_claimable (tip : Z) (claimable_since : BlockRef) (last_scanned_block : option BlockRef) : t :=
  Claimable (mkClaimable tip claimable_since last_scanned_block).

Definition new_claim_in_progress (tip : Z) (claimable_since : BlockRef) (claim_txid : bytes) : t :=
  ClaimInProgress (mkClaimInProgress tip claimable_since claim_txid).

Definition new_claimed (tip : Z) (txid : bytes) (block : BlockRef) : t :=
  Claimed (mkClaimed tip txid block).

Definition is_pending (s : t) : bool :=
  match s with Start _ | Processing _ | AwaitingDelta _ => true | _ => false end.

Definition requires_confirmations (s : t) : bool :=
  match s with
  | Processing s =>
      existsb (fun tx => match et_status tx with
        | ExitTxStatus.AwaitingInputConfirmation _ => true
        | ExitTxStatus.BroadcastWithCpfp _ _ => true
        | _ => false
        end) (ps_transactions s)
  | AwaitingDelta _ => true
  | ClaimInProgress _ => true
  | _ => false
  end.

Definition requires_network_update (s : t) : bool :=
  match s with
  | Processing s =>
      forallb (fun tx => match et_status tx with
        | ExitTxStatus.BroadcastWithCpfp _ _ => true
        | ExitTxStatus.Confirmed _ _ _ => true
        | _ => false
        end) (ps_transactions s)
  | AwaitingDelta _ => true
  | Claimable _ => true
  | ClaimInProgress _ => true
  | _ => false
  end.

Definition claimable_height (s : t) : option Z :=
  match s with
  | AwaitingDelta s => Some (ad_claimable_height s)
  | Claimable s => Some (height (cl_claimable_since s))
  | ClaimInProgress s => Some (height (cip_claimable_since s))
  | _ => None
  end.
End ExitState.

#[export] Instance ExitState_eq_dec : EqDecision ExitState.t.
Proof. solve_decision. Defined.

Record StoredExit := mkStoredExit {
  se_vtxo_id : bytes; se_state : ExitState.t; se_history : list ExitState.t }.

(** ** bark/src/exit/models/package.rs *)
Record TransactionInfo := mkTxInfo { ti_txid : bytes; ti_tx : Transaction }.
Record ChildTransactionInfo := mkChildInfo { ci_info : TransactionInfo; ci_origin : ExitTxOrigin.t }.
Record ExitTransactionPackage := mkExitPackage {
  pkg_exit : TransactionInfo; pkg_child : option ChildTransactionInfo }.

Record ExitChildStatus := mkChildStatus {
  cs_txid : bytes; cs_status : TxStatus.t; cs_origin : ExitTxOrigin.t }.

(** ** bark/src/exit/models/error.rs *)
Module ExitError.
Inductive t :=
  | AncestorRetrievalFailure (txid : bytes) (error : string)
  | BlockRetrievalFailure (height : Z) (error : string)
  | ClaimMissingInputs
  | ClaimFeeExceedsOutput (needed output : Z)
  | ClaimSigningError (error : string)
  | CyclicExitTransactions (vtxo : bytes)
  | DatabaseVtxoStoreFailure (vtxo_id : bytes) (error : string)
  | DatabaseChildRetrievalFailure (error : string)
  | DustLimit (vtxo dust : Z)
  | ExitPackageBroadcastFailure (txid : bytes) (error : string)
  | ExitPackageFinalizeFailure (error : CpfpError)
  | ExitPackageStoreFailure (txid : bytes) (error : CpfpError)
  | InsufficientConfirmedFunds (needed available : Z)
  | InsufficientFeeToStart (balance total_fee fee_rate : Z)
  | InternalError (error : string)
  | InvalidExitTransactionStatus (txid : bytes) (status : ExitTxStatus.t) (error : string)
  | InvalidLocalLocktime (tip : Z) (error : string)
  | InvalidWalletState (error : string)
  | MissingAnchorOutput (txid : bytes)
  | MissingExitTransaction (txid : bytes)
  | MovementRegistrationFailure (error : string)
  | TipRetrievalFailure (error : string)
  | TransactionRetrievalFailure (txid : bytes) (error : string)
  | VtxoNotClaimable (vtxo : bytes)
  | VtxoScriptPubKeyInvalid (error : string).
End ExitError.

Record WalletVtxo `{B : Bitcoin} := mkWalletVtxo { wv_vtxo : Vtxo; wv_state : VtxoState.t }.
Arguments WalletVtxo {B}.
