(* ===== verification/Persist.v ===== *)
(** * The wallet's database (bark/src/persist/mod.rs, bark/src/persist/sqlite/query.rs,
      bark/src/vtxo/mod.rs)

    [Persister] is the part of the trait [BarkPersister] that tracks VTXOs and
    exits, [PersisterLaws] what its callers can rely on, stated on the contents
    of the database: a call that fails changes nothing, except that a state
    update may be reported as failed after it happened.  [sqlite] implements it with the tables of the
    sqlite backend, where every query may also fail, and satisfies the laws. *)
From stdpp Require Import gmap.
From S2P Require Import Prelude Effects Bitcoin Concrete Policy Vtxo ChainSource ExitStates.

Open Scope Z_scope.

Class Persister `{B : Bitcoin} (db : Type) := {
  store_vtxos : list (Vtxo * VtxoState.t) -> ext db string unit;
  get_wallet_vtxo : bytes -> ext db string (option WalletVtxo);
  get_vtxos_by_state : list VtxoStateKind.t -> ext db string (list WalletVtxo);
  update_vtxo_state_checked : bytes -> VtxoState.t -> list VtxoStateKind.t -> ext db string WalletVtxo;
  store_exit_vtxo_entry : StoredExit -> ext db string unit;
  remove_exit_vtxo_entry : bytes -> ext db string unit;
  get_exit_vtxo_entries : ext db string (list StoredExit);
  store_exit_child_tx : bytes -> Transaction -> ExitTxOrigin.t -> ext db string unit;
  get_exit_child_tx : bytes -> ext db string (option (Transaction * ExitTxOrigin.t));
  (* the contents of the database *)
  db_vtxos : db -> gmap bytes WalletVtxo;
  db_exits : db -> gmap bytes StoredExit;
}.

Class PersisterLaws `{B : Bitcoin} (db : Type) {P : Persister db} := {
  get_wallet_vtxo_db : forall id s,
    db_vtxos (get_wallet_vtxo id s).2 = db_vtxos s /\ db_exits (get_wallet_vtxo id s).2 = db_exits s /\
    forall r, (get_wallet_vtxo id s).1 = inr r -> r = db_vtxos s !! id;
  update_vtxo_state_db : forall id st allowed s,
    db_exits (update_vtxo_state_checked id st allowed s).2 = db_exits s /\
    match (update_vtxo_state_checked id st allowed s).1 with
    | inl _ => db_vtxos (update_vtxo_state_checked id st allowed s).2 = db_vtxos s \/
        exists v, db_vtxos s !! id = Some v /\ VtxoState.kind (wv_state v) ∈ allowed /\
          db_vtxos (update_vtxo_state_checked id st allowed s).2 = <[id := mkWalletVtxo _ (wv_vtxo v) st]> (db_vtxos s)
    | inr w => exists v, db_vtxos s !! id = Some v /\ VtxoState.kind (wv_state v) ∈ allowed /\
        w = mkWalletVtxo _ (wv_vtxo v) st /\
        db_vtxos (update_vtxo_state_checked id st allowed s).2 = <[id := w]> (db_vtxos s)
    end;
  store_exit_vtxo_entry_db : forall e s,
    db_vtxos (store_exit_vtxo_entry e s).2 = db_vtxos s /\
    match (store_exit_vtxo_entry e s).1 with
    | inl _ => db_exits (store_exit_vtxo_entry e s).2 = db_exits s
    | inr _ => db_exits (store_exit_vtxo_entry e s).2 = <[se_vtxo_id e := e]> (db_exits s)
    end;
  remove_exit_vtxo_entry_db : forall id s,
    db_vtxos (remove_exit_vtxo_entry id s).2 = db_vtxos s /\
    match (remove_exit_vtxo_entry id s).1 with
    | inl _ => db_exits (remove_exit_vtxo_entry id s).2 = db_exits s
    | inr _ => db_exits (remove_exit_vtxo_entry id s).2 = delete id (db_exits s)
    end;
  get_exit_vtxo_entries_db : forall s,
    db_vtxos (get_exit_vtxo_entries s).2 = db_vtxos s /\ db_exits (get_exit_vtxo_entries s).2 = db_exits s /\
    forall l, (get_exit_vtxo_entries s).1 = inr l -> l ≡ₚ (map_to_list (db_exits s)).*2;
  exit_child_tx_db : forall id tx o s,
    db_vtxos (store_exit_child_tx id tx o s).2 = db_vtxos s /\ db_exits (store_exit_child_tx id tx o s).2 = db_exits s;
  get_exit_child_tx_db : forall id s,
    db_vtxos (get_exit_child_tx id s).2 = db_vtxos s /\ db_exits (get_exit_child_tx id s).2 = db_exits s;
  get_vtxos_by_state_db : forall ks s,
    db_vtxos (get_vtxos_by_state ks s).2 = db_vtxos s /\ db_exits (get_vtxos_by_state ks s).2 = db_exits s;
}.

(** ** The sqlite backend

    The rows of [bark_vtxo] with the states of [bark_vtxo_state] in the order
    of their creation, the rows of [bark_exit_states] and of
    [bark_exit_child_transactions].  [sq_faults] says which of the coming
    queries fail. *)
Section Sqlite.
Context `{B : Bitcoin}.

Record Sqlite := mkSqlite {
  sq_vtxos : gmap bytes (Vtxo * VtxoState.t * list VtxoState.t);
  sq_exits : gmap bytes StoredExit;
  sq_children : gmap bytes (Transaction * ExitTxOrigin.t);
  sq_faults : list bool;
}.

(** A query of the database, which fails without an effect when a fault is due. *)
Definition query {A} (f : Sqlite -> (string + A) * Sqlite) : ext Sqlite string A := fun s =>
  let s' := mkSqlite (sq_vtxos s) (sq_exits s) (sq_children s) (tail (sq_faults s)) in
  match head (sq_faults s) with
  | Some true => (inl "database error"%string, s')
  | _ => f s'
  end.

(** [most_recent_vtxo_state]. *)
Definition most_recent (row : Vtxo * VtxoState.t * list VtxoState.t) : VtxoState.t :=
  default row.1.2 (last row.2).

Definition row_to_wallet_vtxo (row : Vtxo * VtxoState.t * list VtxoState.t) : WalletVtxo :=
  mkWalletVtxo _ row.1.1 (most_recent row).

(** All rows in one transaction: the insertion of an id that exists fails. *)
Definition sq_store_vtxos (l : list (Vtxo * VtxoState.t)) : ext Sqlite string unit := query (fun s =>
  match foldl (fun acc (p : Vtxo * VtxoState.t) =>
                 m ← acc;
                 if bool_decide (is_Some (m !! vtxo_id p.1)) then None
                 else Some (<[vtxo_id p.1 := (p.1, p.2, [])]> m)) (Some (sq_vtxos s)) l with
  | Some m => (inr tt, mkSqlite m (sq_exits s) (sq_children s) (sq_faults s))
  | None => (inl "unique constraint failed"%string, s)
  end).

Definition get_wallet_vtxo_by_id (id : bytes) : ext Sqlite string (option WalletVtxo) := query (fun s =>
  (inr (row_to_wallet_vtxo <$> sq_vtxos s !! id), s)).

Definition sq_get_vtxos_by_state (state : list VtxoStateKind.t) : ext Sqlite string (list WalletVtxo) :=
  query (fun s =>
    let older (a b : WalletVtxo) :=
      expiry_height (wv_vtxo a) < expiry_height (wv_vtxo b) \/
      expiry_height (wv_vtxo a) = expiry_height (wv_vtxo b) /\ amount (wv_vtxo b) <= amount (wv_vtxo a) in
    (inr (merge_sort older
       (filter (fun w => VtxoState.kind (wv_state w) ∈ state)
          (row_to_wallet_vtxo <$> (map_to_list (sq_vtxos s)).*2))), s)).

(** The [INSERT ... SELECT]: the number of rows inserted. *)
Definition sq_insert_vtxo_state (vtxo_id : bytes) (new_state : VtxoState.t) (old_states : list VtxoStateKind.t)
  : ext Sqlite string nat := query (fun s =>
  match sq_vtxos s !! vtxo_id with
  | Some row =>
      if bool_decide (VtxoState.kind (most_recent row) ∈ old_states)
      then (inr 1%nat, mkSqlite (<[vtxo_id := (row.1, row.2 ++ [new_state])]> (sq_vtxos s))
                         (sq_exits s) (sq_children s) (sq_faults s))
      else (inr 0%nat, s)
  | None => (inr 0%nat, s)
  end).

(** Two queries outside a transaction: the second one may fail when the state
    has already changed.  A row that was updated is found (the [unwrap]). *)
Definition sq_update_vtxo_state_checked (vtxo_id : bytes) (new_state : VtxoState.t)
    (old_states : list VtxoStateKind.t) : ext Sqlite string WalletVtxo := fun s =>
  match sq_insert_vtxo_state vtxo_id new_state old_states s with
  | (inl e, s') => (inl e, s')
  | (inr O, s') => (inl "No vtxo with provided id or old states"%string, s')
  | (inr (S _), s') =>
      match get_wallet_vtxo_by_id vtxo_id s' with
      | (inr (Some v), s'') => (inr v, s'')
      | (inr None, s'') => (inl "unwrap of None"%string, s'')
      | (inl e, s'') => (inl e, s'')
      end
  end.

Definition sq_store_exit_vtxo_entry (e : StoredExit) : ext Sqlite string unit := query (fun s =>
  (inr tt, mkSqlite (sq_vtxos s) (<[se_vtxo_id e := e]> (sq_exits s)) (sq_children s) (sq_faults s))).

Definition sq_remove_exit_vtxo_entry (id : bytes) : ext Sqlite string unit := query (fun s =>
  (inr tt, mkSqlite (sq_vtxos s) (delete id (sq_exits s)) (sq_children s) (sq_faults s))).

Definition sq_get_exit_vtxo_entries : ext Sqlite string (list StoredExit) := query (fun s =>
  (inr (map_to_list (sq_exits s)).*2, s)).

Definition sq_store_exit_child_tx (exit_txid : bytes) (child_tx : Transaction) (origin : ExitTxOrigin.t)
  : ext Sqlite string unit := query (fun s =>
  (inr tt, mkSqlite (sq_vtxos s) (sq_exits s) (<[exit_txid := (child_tx, origin)]> (sq_children s)) (sq_faults s))).

Definition sq_get_exit_child_tx (exit_txid : bytes) : ext Sqlite string (option (Transaction * ExitTxOrigin.t)) :=
  query (fun s => (inr (sq_children s !! exit_txid), s)).

#[export] Instance sqlite : Persister Sqlite := {
  store_vtxos := sq_store_vtxos;
  get_wallet_vtxo := get_wallet_vtxo_by_id;
  get_vtxos_by_state := sq_get_vtxos_by_state;
  update_vtxo_state_checked := sq_update_vtxo_state_checked;
  store_exit_vtxo_entry := sq_store_exit_vtxo_entry;
  remove_exit_vtxo_entry := sq_remove_exit_vtxo_entry;
  get_exit_vtxo_entries := sq_get_exit_vtxo_entries;
  store_exit_child_tx := sq_store_exit_child_tx;
  get_exit_child_tx := sq_get_exit_child_tx;
  db_vtxos := fun s => row_to_wallet_vtxo <$> sq_vtxos s;
  db_exits := sq_exits;
}.

Lemma most_recent_snoc v0 st0 l st : most_recent (v0, st0, l ++ [st]) = st.
Proof. unfold most_recent. cbn. by rewrite last_snoc. Qed.

Lemma query_cases {A} (f : Sqlite -> (string + A) * Sqlite) (s : Sqlite) : exists s',
  sq_vtxos s' = sq_vtxos s /\ sq_exits s' = sq_exits s /\
  (query f s = (inl "database error"%string, s') \/ query f s = f s').
Proof. unfold query. eexists (mkSqlite _ _ _ (tail (sq_faults s))). split; [done|]. split; [done|]. destruct (head _) as [[]|]; auto. Qed.

#[local] Ltac run_query :=
  match goal with |- context [query ?f ?s] =>
    let s' := fresh "s'" in let Hv := fresh "Hv" in let He := fresh "He" in
    destruct (query_cases f s) as (s' & Hv & He & [-> | ->]); cbn
  end.

#[export] Instance sqlite_laws : PersisterLaws Sqlite.
Proof.
  split; intros; cbn [db_vtxos db_exits sqlite].
  - unfold get_wallet_vtxo, sqlite, get_wallet_vtxo_by_id. run_query; split_and?; try congruence.
    intros ? [= <-]. by rewrite lookup_fmap, Hv.
  - unfold update_vtxo_state_checked, sqlite, sq_update_vtxo_state_checked, sq_insert_vtxo_state.
    run_query; [by split; [|left; congruence]|].
    destruct (sq_vtxos s' !! id) as [row|] eqn:Hrow; cbn; [|by split; [|left; congruence]].
    case_bool_decide as Hk; cbn; [|by split; [|left; congruence]].
    assert (Hrows : row_to_wallet_vtxo <$> <[id := (row.1, row.2 ++ [st])]> (sq_vtxos s')
      = <[id := mkWalletVtxo _ (wv_vtxo (row_to_wallet_vtxo row)) st]> (row_to_wallet_vtxo <$> sq_vtxos s)).
    { rewrite fmap_insert, Hv. destruct row as [[v0 st0] l]. unfold row_to_wallet_vtxo. cbn [fst snd]. by rewrite most_recent_snoc. }
    assert (Hfound : (row_to_wallet_vtxo <$> sq_vtxos s) !! id = Some (row_to_wallet_vtxo row))
      by by rewrite <- Hv, lookup_fmap, Hrow.
    unfold get_wallet_vtxo_by_id.
    match goal with |- context [query ?f ?x] => destruct (query_cases f x) as (s2 & Hv2 & He2 & [-> | ->]) end; cbn in *.
    + split; [congruence|]. right. exists (row_to_wallet_vtxo row). split; [done|]. split; [done|]. rewrite Hv2. exact Hrows.
    + rewrite Hv2, lookup_insert_eq. cbn. split; [congruence|].
      exists (row_to_wallet_vtxo row). split; [done|]. split; [done|].
      assert (Hst : row_to_wallet_vtxo (row.1, row.2 ++ [st]) = mkWalletVtxo _ (wv_vtxo (row_to_wallet_vtxo row)) st).
      { destruct row as [[v0 st0] l]. unfold row_to_wallet_vtxo. cbn [fst snd]. by rewrite most_recent_snoc. }
      split; [done|]. rewrite Hv2, Hst. exact Hrows.
  - unfold store_exit_vtxo_entry, sqlite, sq_store_exit_vtxo_entry. run_query; split; congruence.
  - unfold remove_exit_vtxo_entry, sqlite, sq_remove_exit_vtxo_entry. run_query; split; congruence.
  - unfold get_exit_vtxo_entries, sqlite, sq_get_exit_vtxo_entries. run_query; split_and?; try congruence.
    intros ? [= <-]. by rewrite He.
  - unfold store_exit_child_tx, sqlite, sq_store_exit_child_tx. run_query; split; congruence.
  - unfold get_exit_child_tx, sqlite, sq_get_exit_child_tx. run_query; split; congruence.
  - unfold get_vtxos_by_state, sqlite, sq_get_vtxos_by_state. run_query; split; congruence.
Qed.
End Sqlite.

(** ** The states of the wallet's VTXOs (bark/src/vtxo/mod.rs) *)
Section VtxoStates.
Context `{B : Bitcoin} {db : Type} `{!Persister db}.

(** All VTXOs are tried, and the ones that could not be updated reported. *)
Definition set_vtxo_states (vtxos : list bytes) (state : VtxoState.t) (allowed_states : list VtxoStateKind.t)
  : M db (list bytes) unit :=
  problematic_vtxos ← foldM (fun problematic id =>
    r ← try_m (call (update_vtxo_state_checked id state allowed_states));
    mret (match r with inl _ => problematic ++ [id] | inr _ => problematic end)) [] vtxos;
  lift (ensure (bool_decide (problematic_vtxos = [])) problematic_vtxos).

Definition lock_vtxos (vtxos : list bytes) (movement_id : option Z) : M db (list bytes) unit :=
  set_vtxo_states vtxos (VtxoState.Locked movement_id) UNSPENT_STATES.

Definition mark_vtxos_as_spent (vtxos : list bytes) : M db (list bytes) unit :=
  set_vtxo_states vtxos VtxoState.Spent UNSPENT_STATES.

Definition unlock_vtxos (vtxos : list bytes) : M db (list bytes) unit :=
  set_vtxo_states vtxos VtxoState.Spendable [VtxoStateKind.Locked].

(** [store_vtxos] of the wallet and its three variants. *)
Definition wallet_store_vtxos (vtxos : list Vtxo) (state : VtxoState.t) : M db string unit :=
  call (store_vtxos ((fun v => (v, state)) <$> vtxos)).
Definition store_locked_vtxos (vtxos : list Vtxo) (movement_id : option Z) : M db string unit :=
  wallet_store_vtxos vtxos (VtxoState.Locked movement_id).
Definition store_spendable_vtxos (vtxos : list Vtxo) : M db string unit :=
  wallet_store_vtxos vtxos VtxoState.Spendable.
Definition store_spent_vtxos (vtxos : list Vtxo) : M db string unit :=
  wallet_store_vtxos vtxos VtxoState.Spent.

(** One operation of the wallet on the states of its VTXOs. *)
Inductive VtxoOp :=
  | OpLock (vtxos : list bytes) (movement_id : option Z)
  | OpUnlock (vtxos : list bytes)
  | OpMarkSpent (vtxos : list bytes).

Definition run_op (op : VtxoOp) : M db (list bytes) unit :=
  match op with
  | OpLock vtxos movement_id => lock_vtxos vtxos movement_id
  | OpUnlock vtxos => unlock_vtxos vtxos
  | OpMarkSpent vtxos => mark_vtxos_as_spent vtxos
  end.

Definition run_ops (ops : list VtxoOp) (s : db) : db := foldl (fun s op => (run_op op s).2) s ops.

Definition state_of (s : db) (id : bytes) : option VtxoState.t := wv_state <$> db_vtxos s !! id.
Definition spent_in (s : db) (id : bytes) : Prop := state_of s id = Some VtxoState.Spent.
End VtxoStates.

Section VtxoStatesFacts.
Context `{B : Bitcoin} {db : Type} `{!Persister db, !PersisterLaws db}.

(** Every VTXO is unchanged, or moved from an allowed state to the new one. *)
Definition moved (state : VtxoState.t) (allowed : list VtxoStateKind.t) : relation db := fun s s' =>
  db_exits s' = db_exits s /\
  forall id, db_vtxos s' !! id = db_vtxos s !! id \/
    exists v, db_vtxos s !! id = Some v /\ VtxoState.kind (wv_state v) ∈ allowed /\
      db_vtxos s' !! id = Some (mkWalletVtxo _ (wv_vtxo v) state).

#[export] Instance moved_preorder state allowed : PreOrder (moved state allowed).
Proof.
  split; [by split; [|auto]|]. intros s1 s2 s3 [He1 H1] [He2 H2]. split; [congruence|]. intros id.
  destruct (H1 id) as [E1|(v & E1 & Hk & E1')], (H2 id) as [E2|(w & E2 & Hk2 & E2')];
    [left; congruence|right; exists w; split_and?; congruence| |].
  - right. exists v. split_and?; congruence.
  - right. exists v. rewrite E1' in E2. injection E2 as <-. auto.
Qed.

Lemma moved_insert (m : gmap bytes WalletVtxo) id v state (allowed : list VtxoStateKind.t) id' :
  m !! id = Some v -> VtxoState.kind (wv_state v) ∈ allowed ->
  <[id := mkWalletVtxo _ (wv_vtxo v) state]> m !! id' = m !! id' \/
  exists v', m !! id' = Some v' /\ VtxoState.kind (wv_state v') ∈ allowed /\
    <[id := mkWalletVtxo _ (wv_vtxo v) state]> m !! id' = Some (mkWalletVtxo _ (wv_vtxo v') state).
Proof.
  intros Hv Hk. destruct (decide (id = id')) as [<-|Hne]; [|left; by rewrite lookup_insert_ne].
  right. exists v. by rewrite lookup_insert_eq.
Qed.

Lemma keeps_update state allowed id :
  keeps (moved state allowed) (call (update_vtxo_state_checked id state allowed)).
Proof.
  intros s. pose proof (update_vtxo_state_db id state allowed s) as [He H]. unfold call. cbn [snd].
  split; [done|]. intros id'. destruct (update_vtxo_state_checked id state allowed s).1.
  - destruct H as [->|(v & Hv & Hk & ->)]; [by left|]. by apply moved_insert.
  - destruct H as (v & Hv & Hk & -> & ->). by apply moved_insert.
Qed.

Lemma keeps_set_vtxo_states vtxos state allowed :
  keeps (moved state allowed) (set_vtxo_states vtxos state allowed).
Proof. unfold set_vtxo_states. solve_keeps. apply keeps_update. Qed.

Lemma moved_done state allowed s s' id : moved state allowed s s' ->
  state_of s id = Some state -> state_of s' id = Some state.
Proof. intros [_ H]. unfold state_of. destruct (H id) as [->|(v & Hv & Hk & ->)]; [done|]. by rewrite Hv. Qed.

(** The ids that are not reported as problematic have the new state. *)
Lemma set_vtxo_states_loop vtxos state allowed done_ids bad s :
  (forall id, id ∈ done_ids -> id ∉ bad -> state_of s id = Some state) ->
  match (foldM (fun problematic id =>
    r ← try_m (call (update_vtxo_state_checked id state allowed));
    mret (match r with inl _ => problematic ++ [id] | inr _ => problematic end)) bad vtxos : M db (list bytes) _) s with
  | (Ok bad', s') => forall id, id ∈ done_ids ++ vtxos -> id ∉ bad' -> state_of s' id = Some state
  | _ => False
  end.
Proof.
  revert done_ids bad s. induction vtxos as [|x vtxos IH]; intros done_ids bad s Hd.
  - cbn. by rewrite app_nil_r.
  - cbn [foldM]. unfold mbind at 1, M_bind at 1. unfold mbind at 1, M_bind at 1.
    pose proof (keeps_update state allowed x s) as Hm. pose proof (update_vtxo_state_db x state allowed s) as [_ Hu].
    unfold try_m, call in *. cbn [fst snd] in *.
    destruct (update_vtxo_state_checked x state allowed s) as [[e|w] s1]; cbn in *.
    + specialize (IH (done_ids ++ [x]) (bad ++ [x]) s1). rewrite <- app_assoc in IH. apply IH.
      intros id [Hin| ->%list_elem_of_singleton]%elem_of_app Hn; [|exfalso; apply Hn, elem_of_app; right; by apply list_elem_of_singleton].
      eapply moved_done; [exact Hm|]. apply Hd; [done|]. intros ?. apply Hn, elem_of_app. by left.
    + specialize (IH (done_ids ++ [x]) bad s1). rewrite <- app_assoc in IH. apply IH.
      intros id [Hin| ->%list_elem_of_singleton]%elem_of_app Hn; [by eapply moved_done; [exact Hm|apply Hd]|].
      destruct Hu as (v & _ & _ & -> & Hs1). unfold state_of. by rewrite Hs1, lookup_insert_eq.
Qed.

Lemma set_vtxo_states_spec vtxos state allowed s r s' :
  set_vtxo_states vtxos state allowed s = (r, s') ->
  moved state allowed s s' /\
  match r with
  | Ok _ => forall id, id ∈ vtxos -> state_of s' id = Some state
  | Err bad => bad <> [] /\ forall id, id ∈ vtxos -> id ∉ bad -> state_of s' id = Some state
  | Panic => False
  end.
Proof.
  intros Hrun. split.
  { pose proof (keeps_set_vtxo_states vtxos state allowed s) as H. by rewrite Hrun in H. }
  revert Hrun. unfold set_vtxo_states. unfold mbind at 1, M_bind at 1.
  pose proof (set_vtxo_states_loop vtxos state allowed [] [] s) as H.
  destruct (foldM _ _ _ _) as [[bad| |] s1]; [|exfalso; apply H; set_solver..].
  intros Hr. unfold lift, ensure in Hr. case_bool_decide as Hb; simplify_eq.
  - intros id Hid. apply H; set_solver.
  - split; [done|]. intros id Hid Hn. apply H; set_solver.
Qed.

Lemma run_op_spec op s : exists state allowed,
  moved state allowed s (run_op op s).2 /\ (forall k, k ∈ allowed -> k <> VtxoStateKind.Spent).
Proof.
  destruct op; cbn [run_op]; do 2 eexists; (split; [apply keeps_set_vtxo_states|]); intros k Hk;
    unfold UNSPENT_STATES in Hk; set_solver.
Qed.

End VtxoStatesFacts.

(** A wallet with one VTXO that was spent, and whose database fails once. *)
Definition sample_db : Sqlite (B := model) :=
  mkSqlite (B := model)
    {[ vtxo_id sample_vtxo := (sample_vtxo, VtxoState.Spendable, [VtxoState.Locked None; VtxoState.Spent]) ]}
    ∅ ∅ [false; true].

Definition sample_ops : list VtxoOp :=
  [OpUnlock [vtxo_id sample_vtxo]; OpLock [vtxo_id sample_vtxo] (Some 7); OpUnlock [vtxo_id sample_vtxo]].

