(* ===== verification/Movement.v ===== *)
(** * Movements of the wallet (bark/src/movement/, bark/src/persist/sqlite/query.rs)

    A movement records what happened to funds: a round, a payment, a board.
    Subsystems create one, update it as things proceed and finish it with a
    status.  [MovementManager] keeps the movements that are being worked on in
    memory and writes every change to the database.  [MovementDb] is the part
    of the database it uses, [MovementDbLaws] what it can rely on; [MovTables]
    implements it with the tables of the sqlite backend. *)
From stdpp Require Import gmap strings.
From S2P Require Import Prelude Effects Bitcoin ChainSource.

Open Scope Z_scope.

(** ** Movements (movement/mod.rs) *)
Module MovementStatus.
Inductive t := Pending | Successful | Failed | Canceled.

Definition as_str (s : t) : string :=
  match s with Pending => "pending" | Successful => "successful" | Failed => "failed" | Canceled => "canceled" end.

Definition from_str (s : string) : option t :=
  if bool_decide (s = "pending"%string) then Some Pending
  else if bool_decide (s = "successful"%string) then Some Successful
  else if bool_decide (s = "failed"%string) then Some Failed
  else if bool_decide (s = "canceled"%string) then Some Canceled
  else None.
End MovementStatus.

#[export] Instance MovementStatus_eq_dec : EqDecision MovementStatus.t.
Proof. solve_decision. Defined.

(** Addresses, invoices, offers and JSON values: types of other crates and of
    the parts of the wallet that make them. *)
Class PaymentTypes := {
  ArkAddress : Type; BitcoinAddress : Type; Invoice : Type; Offer : Type; LightningAddress : Type; Json : Type;
  (* [Address::from_script] for the wallet's network, and [serde_json::to_value] *)
  address_from_script : bytes -> option BitcoinAddress;
  txid_to_value : bytes -> Json; payment_hash_to_value : bytes -> Json; vtxo_ids_to_value : list bytes -> Json;
  outpoint_to_value : OutPoint -> Json; sat_to_value : Z -> Json;
}.

Section Movements.
Context `{PT : PaymentTypes}.

Inductive PaymentMethod :=
  | PmArk (a : ArkAddress)
  | PmBitcoin (a : BitcoinAddress)
  | PmOutputScript (spk : bytes)
  | PmInvoice (i : Invoice)
  | PmOffer (o : Offer)
  | PmLightningAddress (a : LightningAddress)
  | PmCustom (s : string).

Record MovementDestination := mkDestination { md_destination : PaymentMethod; md_amount : Z }.
Record MovementSubsystem := mkSubsystem { ms_name : string; ms_kind : string }.
Record MovementTimestamp := mkTimestamp { created_at : Z; updated_at : Z; completed_at : option Z }.

Record Movement := mkMovement {
  mv_id : Z; mv_status : MovementStatus.t; mv_subsystem : MovementSubsystem; mv_metadata : gmap string Json;
  mv_intended_balance : Z; mv_effective_balance : Z; mv_offchain_fee : Z;
  mv_sent_to : list MovementDestination; mv_received_on : list MovementDestination;
  mv_input_vtxos : list bytes; mv_output_vtxos : list bytes; mv_exited_vtxos : list bytes;
  mv_time : MovementTimestamp }.

(** ** Updates (movement/update.rs) *)
Inductive UpdateMethod (T : Type) := Merge (v : T) | Replace (v : T).
Arguments Merge {T} v.
Arguments Replace {T} v.

(** [UpdateMethod::merge] and [insert]: more values for the same update. *)
Definition um_merge {T} (u : UpdateMethod (list T)) (values : list T) : UpdateMethod (list T) :=
  match u with Merge vec => Merge (vec ++ values) | Replace vec => Replace (vec ++ values) end.

Definition insert_pairs {V} (m : gmap string V) (key_pairs : list (string * V)) : gmap string V :=
  foldl (fun m p => <[p.1 := p.2]> m) m key_pairs.

Definition um_insert {V} (u : UpdateMethod (gmap string V)) (key_pairs : list (string * V)) : UpdateMethod (gmap string V) :=
  match u with Merge m => Merge (insert_pairs m key_pairs) | Replace m => Replace (insert_pairs m key_pairs) end.

(** [apply_to] and [apply_unique_to]. *)
Definition apply_list {T} (u : UpdateMethod (list T)) (target : list T) : list T :=
  match u with Merge vec => target ++ vec | Replace vec => vec end.

Definition push_unique (target : list bytes) (vec : list bytes) : list bytes :=
  foldl (fun target value => if bool_decide (value ∈ target) then target else target ++ [value]) target vec.

Definition apply_unique (u : UpdateMethod (list bytes)) (target : list bytes) : list bytes :=
  match u with Merge vec => push_unique target vec | Replace vec => push_unique [] vec end.

Definition apply_map {V} (u : UpdateMethod (gmap string V)) (target : gmap string V) : gmap string V :=
  match u with Merge m => m ∪ target | Replace m => m end.

Record MovementUpdate := mkUpdate {
  mu_intended_balance : option Z; mu_effective_balance : option Z; mu_offchain_fee : option Z;
  mu_sent_to : option (UpdateMethod (list MovementDestination));
  mu_received_on : option (UpdateMethod (list MovementDestination));
  mu_consumed_vtxos : option (UpdateMethod (list bytes)); mu_produced_vtxos : option (UpdateMethod (list bytes));
  mu_exited_vtxos : option (UpdateMethod (list bytes)); mu_metadata : option (UpdateMethod (gmap string Json)) }.

Definition update_new : MovementUpdate := mkUpdate None None None None None None None None None.

(** A field that is set for the first time is merged. *)
Definition more {T} (u : option (UpdateMethod (list T))) (values : list T) : option (UpdateMethod (list T)) :=
  Some (match u with None => Merge values | Some u => um_merge u values end).

Definition consumed_vtxos (vtxos : list bytes) (u : MovementUpdate) : MovementUpdate :=
  mkUpdate (mu_intended_balance u) (mu_effective_balance u) (mu_offchain_fee u) (mu_sent_to u) (mu_received_on u)
    (more (mu_consumed_vtxos u) vtxos) (mu_produced_vtxos u) (mu_exited_vtxos u) (mu_metadata u).
Definition produced_vtxos (vtxos : list bytes) (u : MovementUpdate) : MovementUpdate :=
  mkUpdate (mu_intended_balance u) (mu_effective_balance u) (mu_offchain_fee u) (mu_sent_to u) (mu_received_on u)
    (mu_consumed_vtxos u) (more (mu_produced_vtxos u) vtxos) (mu_exited_vtxos u) (mu_metadata u).
Definition exited_vtxos (vtxos : list bytes) (u : MovementUpdate) : MovementUpdate :=
  mkUpdate (mu_intended_balance u) (mu_effective_balance u) (mu_offchain_fee u) (mu_sent_to u) (mu_received_on u)
    (mu_consumed_vtxos u) (mu_produced_vtxos u) (more (mu_exited_vtxos u) vtxos) (mu_metadata u).
Definition sent_to (destinations : list MovementDestination) (u : MovementUpdate) : MovementUpdate :=
  mkUpdate (mu_intended_balance u) (mu_effective_balance u) (mu_offchain_fee u) (more (mu_sent_to u) destinations)
    (mu_received_on u) (mu_consumed_vtxos u) (mu_produced_vtxos u) (mu_exited_vtxos u) (mu_metadata u).
Definition received_on (received : list MovementDestination) (u : MovementUpdate) : MovementUpdate :=
  mkUpdate (mu_intended_balance u) (mu_effective_balance u) (mu_offchain_fee u) (mu_sent_to u)
    (more (mu_received_on u) received) (mu_consumed_vtxos u) (mu_produced_vtxos u) (mu_exited_vtxos u) (mu_metadata u).
Definition fee (offchain_fee : Z) (u : MovementUpdate) : MovementUpdate :=
  mkUpdate (mu_intended_balance u) (mu_effective_balance u) (Some offchain_fee) (mu_sent_to u) (mu_received_on u)
    (mu_consumed_vtxos u) (mu_produced_vtxos u) (mu_exited_vtxos u) (mu_metadata u).
Definition intended_balance (intended : Z) (u : MovementUpdate) : MovementUpdate :=
  mkUpdate (Some intended) (mu_effective_balance u) (mu_offchain_fee u) (mu_sent_to u) (mu_received_on u)
    (mu_consumed_vtxos u) (mu_produced_vtxos u) (mu_exited_vtxos u) (mu_metadata u).
Definition effective_balance (effective : Z) (u : MovementUpdate) : MovementUpdate :=
  mkUpdate (mu_intended_balance u) (Some effective) (mu_offchain_fee u) (mu_sent_to u) (mu_received_on u)
    (mu_consumed_vtxos u) (mu_produced_vtxos u) (mu_exited_vtxos u) (mu_metadata u).
Definition metadata (key_pairs : list (string * Json)) (u : MovementUpdate) : MovementUpdate :=
  mkUpdate (mu_intended_balance u) (mu_effective_balance u) (mu_offchain_fee u) (mu_sent_to u) (mu_received_on u)
    (mu_consumed_vtxos u) (mu_produced_vtxos u) (mu_exited_vtxos u)
    (Some (match mu_metadata u with None => Merge (insert_pairs ∅ key_pairs) | Some m => um_insert m key_pairs end)).
Definition replace_produced_vtxos (vtxos : list bytes) (u : MovementUpdate) : MovementUpdate :=
  mkUpdate (mu_intended_balance u) (mu_effective_balance u) (mu_offchain_fee u) (mu_sent_to u) (mu_received_on u)
    (mu_consumed_vtxos u) (Some (Replace vtxos)) (mu_exited_vtxos u) (mu_metadata u).
Definition replace_consumed_vtxos (vtxos : list bytes) (u : MovementUpdate) : MovementUpdate :=
  mkUpdate (mu_intended_balance u) (mu_effective_balance u) (mu_offchain_fee u) (mu_sent_to u) (mu_received_on u)
    (Some (Replace vtxos)) (mu_produced_vtxos u) (mu_exited_vtxos u) (mu_metadata u).
Definition replace_exited_vtxos (vtxos : list bytes) (u : MovementUpdate) : MovementUpdate :=
  mkUpdate (mu_intended_balance u) (mu_effective_balance u) (mu_offchain_fee u) (mu_sent_to u) (mu_received_on u)
    (mu_consumed_vtxos u) (mu_produced_vtxos u) (Some (Replace vtxos)) (mu_metadata u).
Definition replace_metadata (key_pairs : list (string * Json)) (u : MovementUpdate) : MovementUpdate :=
  mkUpdate (mu_intended_balance u) (mu_effective_balance u) (mu_offchain_fee u) (mu_sent_to u) (mu_received_on u)
    (mu_consumed_vtxos u) (mu_produced_vtxos u) (mu_exited_vtxos u) (Some (Replace (insert_pairs ∅ key_pairs))).
Definition replace_received_on (received : list MovementDestination) (u : MovementUpdate) : MovementUpdate :=
  mkUpdate (mu_intended_balance u) (mu_effective_balance u) (mu_offchain_fee u) (mu_sent_to u) (Some (Replace received))
    (mu_consumed_vtxos u) (mu_produced_vtxos u) (mu_exited_vtxos u) (mu_metadata u).
Definition replace_sent_on (destinations : list MovementDestination) (u : MovementUpdate) : MovementUpdate :=
  mkUpdate (mu_intended_balance u) (mu_effective_balance u) (mu_offchain_fee u) (Some (Replace destinations)) (mu_received_on u)
    (mu_consumed_vtxos u) (mu_produced_vtxos u) (mu_exited_vtxos u) (mu_metadata u).
Definition intended_and_effective_balance (balance : Z) (u : MovementUpdate) : MovementUpdate :=
  effective_balance balance (intended_balance balance u).

(** [MovementUpdate::apply_to]. *)
Definition set_if {T A} (f : T -> A -> A) (o : option T) (a : A) : A := match o with Some t => f t a | None => a end.

Definition apply_to (u : MovementUpdate) (at_time : Z) (m : Movement) : Movement :=
  mkMovement (mv_id m) (mv_status m) (mv_subsystem m) (set_if apply_map (mu_metadata u) (mv_metadata m))
    (default (mv_intended_balance m) (mu_intended_balance u)) (default (mv_effective_balance m) (mu_effective_balance u))
    (default (mv_offchain_fee m) (mu_offchain_fee u))
    (set_if apply_list (mu_sent_to u) (mv_sent_to m)) (set_if apply_list (mu_received_on u) (mv_received_on m))
    (set_if apply_unique (mu_consumed_vtxos u) (mv_input_vtxos m)) (set_if apply_unique (mu_produced_vtxos u) (mv_output_vtxos m))
    (set_if apply_unique (mu_exited_vtxos u) (mv_exited_vtxos m))
    (mkTimestamp (created_at (mv_time m)) at_time (completed_at (mv_time m))).

(** ** The database *)
Class MovementDb (db : Type) := {
  create_new_movement : MovementStatus.t -> MovementSubsystem -> Z -> ext db string Z;
  update_movement_row : Movement -> ext db string unit;
  get_movement_by_id : Z -> ext db string Movement;
  (* the contents of the tables *)
  db_movements : db -> gmap Z Movement;
}.

(** A movement as it is created. *)
Definition movement_new (id : Z) (status : MovementStatus.t) (subsystem : MovementSubsystem) (time : Z) : Movement :=
  mkMovement id status subsystem ∅ 0 0 0 [] [] [] [] [] (mkTimestamp time time None).

Class MovementDbLaws (db : Type) `{D : MovementDb db} := {
  create_new_movement_db : forall st sub time s,
    match (create_new_movement st sub time s).1 with
    | inr id => db_movements s !! id = None /\
        db_movements (create_new_movement st sub time s).2 = <[id := movement_new id st sub time]> (db_movements s)
    | inl _ => db_movements (create_new_movement st sub time s).2 = db_movements s
    end;
  update_movement_row_db : forall m s, is_Some (db_movements s !! mv_id m) ->
    match (update_movement_row m s).1 with
    | inr _ => db_movements (update_movement_row m s).2 = <[mv_id m := m]> (db_movements s)
    | inl _ => db_movements (update_movement_row m s).2 = db_movements s
    end;
  get_movement_by_id_db : forall id s, db_movements (get_movement_by_id id s).2 = db_movements s /\
    forall m, (get_movement_by_id id s).1 = inr m -> db_movements s !! id = Some m;
}.

(** *** The sqlite backend

    The rows of [bark_movements] with those of its side tables, the last id
    that was given out, and which of the coming queries fail. *)
Record MovTables := mkTables { mt_rows : gmap Z Movement; mt_last : Z; mt_faults : list bool }.

Definition mt_query {A} (f : MovTables -> (string + A) * MovTables) : ext MovTables string A := fun s =>
  let s' := mkTables (mt_rows s) (mt_last s) (tail (mt_faults s)) in
  match head (mt_faults s) with Some true => (inl "database error"%string, s') | _ => f s' end.

(** [AUTOINCREMENT]: an id above all that were ever used. *)
Definition next_id (s : MovTables) : Z := foldr Z.max (mt_last s) (map_to_list (mt_rows s)).*1 + 1.

(** The status of a row is text, and [id] is read as a [u32]. *)
Definition mt_create (status : MovementStatus.t) (subsystem : MovementSubsystem) (time : Z) : ext MovTables string Z :=
  mt_query (fun s =>
    let id := next_id s in
    if 2 ^ 32 <=? id then (inl "id out of range"%string, s)
    else (inr id, mkTables (<[id := movement_new id status subsystem time]> (mt_rows s)) id (mt_faults s))).

(** One transaction.  The pairs of a movement and a VTXO are unique in the side
    tables: an insertion that repeats one fails. *)
Definition mt_update (m : Movement) : ext MovTables string unit := mt_query (fun s =>
  if bool_decide (NoDup (mv_input_vtxos m) /\ NoDup (mv_output_vtxos m) /\ NoDup (mv_exited_vtxos m))
  then (inr tt, mkTables (if decide (is_Some (mt_rows s !! mv_id m)) then <[mv_id m := m]> (mt_rows s) else mt_rows s)
                 (mt_last s) (mt_faults s))
  else (inl "unique constraint failed"%string, s)).

Definition mt_get (id : Z) : ext MovTables string Movement := mt_query (fun s =>
  (match mt_rows s !! id with Some m => inr m | None => inl "Movement not found"%string end, s)).

#[export] Instance movement_tables : MovementDb MovTables := {
  create_new_movement := mt_create;
  update_movement_row := mt_update;
  get_movement_by_id := mt_get;
  db_movements := mt_rows;
}.

Lemma next_id_fresh (s : MovTables) : mt_rows s !! next_id s = None.
Proof.
  apply eq_None_not_Some. intros [m Hm]. assert (Hin : next_id s ∈ (map_to_list (mt_rows s)).*1).
  { apply list_elem_of_fmap. exists (next_id s, m). split; [done|]. by apply elem_of_map_to_list. }
  apply (max_above _ _ (mt_last s)) in Hin. unfold next_id in Hin. lia.
Qed.

Lemma mt_query_cases {A} (f : MovTables -> (string + A) * MovTables) s : exists s',
  mt_rows s' = mt_rows s /\ (mt_query f s = (inl "database error"%string, s') \/ mt_query f s = f s').
Proof. eexists (mkTables _ _ (tail (mt_faults s))). split; [done|]. unfold mt_query. destruct (head _) as [[]|]; auto. Qed.

#[export] Instance movement_tables_laws : MovementDbLaws MovTables.
Proof.
  split; [intros st sub time s|intros m s Hm|intros id s]; cbn [create_new_movement update_movement_row get_movement_by_id
    db_movements movement_tables]; unfold mt_create, mt_update, mt_get;
    match goal with |- context [mt_query ?f ?x] => destruct (mt_query_cases f x) as (s' & Hrows & [-> | ->]) end; cbn.
  - done.
  - destruct (_ <=? _); cbn; [done|]. rewrite <- Hrows. split; [apply next_id_fresh|done].
  - done.
  - cbn [db_movements movement_tables] in Hm. case_bool_decide; cbn; [|done]. rewrite <- Hrows in Hm |- *. by rewrite decide_True.
  - split; [done|]. by intros m [=].
  - split; [done|]. intros m. rewrite Hrows. by destruct (mt_rows s !! id); intros [= ->].
Qed.

(** ** The manager (movement/manager.rs) *)
Inductive MovementError :=
  | CacheError (id : Z)
  | CreationError (e : string)
  | IncorrectPendingStatus
  | InvalidSubsystemId (id : Z)
  | LoadError (id : Z) (e : string)
  | PersisterError (id : Z) (e : string)
  | SubsystemError (name error : string).

(** The names of the subsystems and the movements in memory. *)
Record MovementManager := mkManager { mm_subsystem_ids : gmap Z string; mm_active : gmap Z Movement }.

Section Manager.
Context {db : Type} `{!MovementDb db}.
Notation MM := (M (MovementManager * db) MovementError).

Definition on_db {A} (err : string -> MovementError) (m : ext db string A) : MM A :=
  map_err_m err (zoom snd (fun d s => (s.1, d)) (call m)).
Definition set_active (active : gmap Z Movement) (s : MovementManager * db) : MovementManager * db :=
  (mkManager (mm_subsystem_ids s.1) active, s.2).

Definition register_subsystem (name : string) : MM Z := fun s =>
  let ids := mm_subsystem_ids s.1 in
  if bool_decide (Exists (fun p => p.2 = name) (map_to_list ids))
  then (Err (SubsystemError name "Subsystem already registered"%string), s)
  else let id := Z.of_nat (size ids) mod 2 ^ 32 in
       (Ok id, (mkManager (<[id := name]> ids) (mm_active s.1), s.2)).

Definition get_subsystem_name (id : Z) : MM string :=
  name ← gets (fun s => mm_subsystem_ids s.1 !! id); Effects.lift (ok_or name (InvalidSubsystemId id)).

Definition get_movement_lock (id : Z) : MM Movement :=
  m ← gets (fun s => mm_active s.1 !! id); Effects.lift (ok_or m (CacheError id)).

Definition load_movement_into_cache (id : Z) : MM unit :=
  active ← gets (fun s => mm_active s.1);
  if decide (is_Some (active !! id)) then mret tt
  else
    movement ← on_db (LoadError id) (get_movement_by_id id);
    modify (fun s => set_active (<[id := movement]> (mm_active s.1)) s).

Definition unload_movement_from_cache (id : Z) : MM unit :=
  modify (fun s => set_active (delete id (mm_active s.1)) s).

Definition new_movement (subsystem_id : Z) (movement_kind : string) (now : Z) : MM Z :=
  name ← get_subsystem_name subsystem_id;
  on_db CreationError (create_new_movement MovementStatus.Pending (mkSubsystem name movement_kind) now).

(** The movement in memory is changed through its lock, then written. *)
Definition update_movement (id : Z) (update : MovementUpdate) (now : Z) : MM unit :=
  _ ← load_movement_into_cache id;
  m ← get_movement_lock id;
  _ ← modify (fun s => set_active (<[id := apply_to update now m]> (mm_active s.1)) s);
  movement ← get_movement_lock id;
  _ ← on_db (PersisterError id) (update_movement_row movement);
  if bool_decide (mv_status movement <> MovementStatus.Pending) then unload_movement_from_cache id else mret tt.

Definition with_status (new_status : MovementStatus.t) (now : Z) (m : Movement) : Movement :=
  mkMovement (mv_id m) new_status (mv_subsystem m) (mv_metadata m) (mv_intended_balance m) (mv_effective_balance m)
    (mv_offchain_fee m) (mv_sent_to m) (mv_received_on m) (mv_input_vtxos m) (mv_output_vtxos m) (mv_exited_vtxos m)
    (mkTimestamp (created_at (mv_time m)) (updated_at (mv_time m)) (Some now)).

Definition finish_movement (id : Z) (new_status : MovementStatus.t) (now : Z) : MM unit :=
  if bool_decide (new_status = MovementStatus.Pending) then throw IncorrectPendingStatus
  else
    _ ← load_movement_into_cache id;
    m ← get_movement_lock id;
    _ ← modify (fun s => set_active (<[id := with_status new_status now m]> (mm_active s.1)) s);
    movement ← get_movement_lock id;
    _ ← on_db (PersisterError id) (update_movement_row movement);
    unload_movement_from_cache id.

Definition new_movement_with_update (subsystem_id : Z) (movement_kind : string) (update : MovementUpdate) (now : Z) : MM Z :=
  id ← new_movement subsystem_id movement_kind now;
  _ ← update_movement id update now;
  mret id.

Definition finish_movement_with_update (id : Z) (new_status : MovementStatus.t) (update : MovementUpdate) (now : Z) : MM unit :=
  _ ← update_movement id update now; finish_movement id new_status now.

(** A one-shot movement, past the cache. *)
Definition new_finished_movement (subsystem_id : Z) (movement_kind : string) (status : MovementStatus.t)
    (details : MovementUpdate) (now : Z) : MM Z :=
  if bool_decide (status = MovementStatus.Pending) then throw IncorrectPendingStatus
  else
    id ← new_movement subsystem_id movement_kind now;
    movement ← on_db (LoadError id) (get_movement_by_id id);
    _ ← on_db (PersisterError id) (update_movement_row (with_status status now (apply_to details now movement)));
    mret id.

(** *** [MovementGuard] *)
Inductive OnDropStatus := OnDropCanceled | OnDropFailed.

Definition on_drop_status (s : OnDropStatus) : MovementStatus.t :=
  match s with OnDropCanceled => MovementStatus.Canceled | OnDropFailed => MovementStatus.Failed end.

Record MovementGuard := mkGuard { mg_id : Z; mg_on_drop : OnDropStatus; mg_has_finished : bool }.

Definition guard_new (id : Z) (on_drop : OnDropStatus) : MovementGuard := mkGuard id on_drop false.
Definition set_on_drop_status (status : OnDropStatus) (g : MovementGuard) : MovementGuard :=
  mkGuard (mg_id g) status (mg_has_finished g).
Definition guard_apply_update (g : MovementGuard) (update : MovementUpdate) (now : Z) : MM unit :=
  update_movement (mg_id g) update now.
Definition new_guarded_movement (subsystem_id : Z) (movement_kind : string) (on_drop : OnDropStatus) (now : Z) : MM MovementGuard :=
  id ← new_movement subsystem_id movement_kind now; mret (guard_new id on_drop).
Definition new_guarded_movement_with_update (subsystem_id : Z) (movement_kind : string) (on_drop : OnDropStatus)
    (update : MovementUpdate) (now : Z) : MM MovementGuard :=
  id ← new_movement_with_update subsystem_id movement_kind update now; mret (guard_new id on_drop).
Definition guard_stop (g : MovementGuard) : MovementGuard := mkGuard (mg_id g) (mg_on_drop g) true.

(** [success], [fail] and [cancel]: the guard is stopped whatever comes of it. *)
Definition guard_finish (g : MovementGuard) (status : MovementStatus.t) (now : Z) (s : MovementManager * db)
  : outcome MovementError unit * MovementGuard * (MovementManager * db) :=
  let r := finish_movement (mg_id g) status now s in (r.1, guard_stop g, r.2).

Definition guard_drop (g : MovementGuard) (now : Z) : MM unit :=
  if mg_has_finished g then mret tt
  else _ ← try_m (finish_movement (mg_id g) (on_drop_status (mg_on_drop g)) now); mret tt.
End Manager.
End Movements.

Arguments Merge {T} v.
Arguments Replace {T} v.
