(* ===== verification/MovementFacts.v ===== *)
(** * The movement manager keeps its records

    [current] is what the manager takes the movements to be: the ones in
    memory, and the rows of the database for the others.  Every operation of
    the manager is a step on this map; a failed write changes the map, not the
    database. *)
From stdpp Require Import gmap strings.
From S2P Require Import Prelude Effects Bitcoin ChainSource Movement.

Open Scope Z_scope.

Section Facts.
Context `{PT : PaymentTypes} {db : Type} `{!MovementDb db, !MovementDbLaws db}.
Notation MMS := (MovementManager * db)%type.

Definition rows (s : MMS) : gmap Z Movement := db_movements s.2.
Definition current (s : MMS) : gmap Z Movement := mm_active s.1 ∪ rows s.

(** The VTXOs a movement lists, which never repeat. *)
Definition vtxos_unique (m : Movement) : Prop :=
  NoDup (mv_input_vtxos m) /\ NoDup (mv_output_vtxos m) /\ NoDup (mv_exited_vtxos m).

Record mgr_ok (s : MMS) : Prop := {
  mo_ids : map_Forall (fun id m => mv_id m = id /\ vtxos_unique m) (current s);
  mo_rows : map_Forall (fun id m => mv_id m = id /\ vtxos_unique m) (rows s);
  mo_active : forall id, is_Some (mm_active s.1 !! id) -> is_Some (rows s !! id);
}.

Lemma push_unique_NoDup vec : forall target, NoDup target -> NoDup (push_unique target vec).
Proof.
  induction vec as [|v vec IH]; intros target H; [done|]. cbn. apply IH. case_bool_decide as Hv; [done|].
  apply NoDup_app. split_and!; [done| |apply NoDup_singleton]. intros x Hx ->%list_elem_of_singleton. done.
Qed.

Lemma apply_unique_NoDup u target : NoDup target -> NoDup (set_if apply_unique u target).
Proof. intros H. destruct u as [[vec|vec]|]; cbn; [by apply push_unique_NoDup|apply push_unique_NoDup, NoDup_nil_2|done]. Qed.

Lemma apply_to_unique u t m : vtxos_unique m -> vtxos_unique (apply_to u t m).
Proof. intros (? & ? & ?). unfold vtxos_unique. cbn. split_and!; by apply apply_unique_NoDup. Qed.

Lemma current_active (s : MMS) id m : mm_active s.1 !! id = Some m -> current s !! id = Some m.
Proof. intros H. unfold current. by apply lookup_union_Some_l. Qed.

Lemma current_row (s : MMS) id m : mm_active s.1 !! id = None -> rows s !! id = Some m -> current s !! id = Some m.
Proof. intros H1 H2. unfold current. by rewrite lookup_union_r. Qed.

(** A step that writes the movement [m] in memory. *)
Definition write_active (id : Z) (m : Movement) (s : MMS) : MMS := set_active (<[id := m]> (mm_active s.1)) s.

Lemma current_write id m (s : MMS) : current (write_active id m s) = <[id := m]> (current s).
Proof. unfold current. cbn. by rewrite insert_union_l. Qed.

Lemma write_ok id m (s : MMS) : mgr_ok s -> is_Some (rows s !! id) -> mv_id m = id -> vtxos_unique m -> mgr_ok (write_active id m s).
Proof.
  intros [H1 H2 H3] Hrow Hid Hu. split; [|done|].
  - rewrite current_write. by apply map_Forall_insert_2.
  - intros i. cbn. destruct (decide (i = id)) as [->|Hne]; [done|]. rewrite lookup_insert_ne by done. apply H3.
Qed.

Lemma ok_ext (s s' : MMS) : mm_active s'.1 = mm_active s.1 -> rows s' = rows s -> mgr_ok s -> mgr_ok s' /\ current s' = current s.
Proof.
  intros Ha Hr [H1 H2 H3]. assert (Hc : current s' = current s) by (unfold current; congruence).
  split; [|done]. split; by rewrite ?Hc, ?Hr, ?Ha.
Qed.

Lemma load_spec id (s : MMS) : mgr_ok s ->
  (exists m s1, load_movement_into_cache id s = (Ok tt, s1) /\ mgr_ok s1 /\ mm_active s1.1 !! id = Some m /\
     current s !! id = Some m /\ current s1 = current s /\ rows s1 = rows s) \/
  (exists e s1, load_movement_into_cache id s = (Err (LoadError id e), s1) /\ mgr_ok s1 /\
     current s1 = current s /\ rows s1 = rows s).
Proof.
  intros Hok. unfold load_movement_into_cache, mbind, M_bind. cbn. destruct (decide _) as [[m Hm]|Hn].
  - left. exists m, s. split_and!; try done. by apply current_active.
  - unfold on_db, map_err_m, zoom, call. cbn. pose proof (get_movement_by_id_db id s.2) as [Hdb Hget].
    assert (Hnone : mm_active s.1 !! id = None) by by apply eq_None_not_Some.
    destruct (get_movement_by_id id s.2) as [[e|m] d]; cbn in *.
    + right. exists e, (s.1, d). by destruct (ok_ext s (s.1, d) eq_refl Hdb Hok).
    + left. specialize (Hget m eq_refl). exists m, (write_active id m (s.1, d)).
      assert (Hrow : rows s !! id = Some m) by done. pose proof (current_row s id m Hnone Hrow) as Hcur.
      destruct (ok_ext s (s.1, d) eq_refl Hdb Hok) as [Hok' Hc'].
      split; [done|]. split; [|split_and!].
      * destruct (mo_rows _ Hok id m Hrow). apply write_ok; try done. unfold rows. cbn. rewrite Hdb. by eexists.
      * cbn. by rewrite lookup_insert_eq.
      * done.
      * rewrite current_write, Hc'. by apply insert_id.
      * done.
Qed.

(** The write of a movement that is in memory, from a state [s1] that has the
    row. *)
Lemma persist_spec id m (s1 : MMS) : mgr_ok s1 -> mm_active s1.1 !! id = Some m ->
  exists r s2, on_db (PersisterError id) (update_movement_row m) s1 = (r, s2) /\ mm_active s2.1 = mm_active s1.1 /\
    mgr_ok s2 /\ current s2 = current s1 /\
    match r with Ok _ => rows s2 = <[id := m]> (rows s1) | Err e => exists t, e = PersisterError id t /\ rows s2 = rows s1 | Panic => False end.
Proof.
  intros Hok Hm. destruct (mo_ids _ Hok id m (current_active _ _ _ Hm)) as [Hid Hu].
  unfold on_db, map_err_m, zoom, call. cbn. pose proof (update_movement_row_db m s1.2) as Hdb. rewrite Hid in Hdb.
  specialize (Hdb (mo_active _ Hok id (mk_is_Some _ _ Hm))).
  destruct (update_movement_row m s1.2) as [[e|[]] d]; cbn in *; (eexists _, (s1.1, d); split; [done|]).
  - destruct (ok_ext s1 (s1.1, d) eq_refl Hdb Hok). split_and!; try done. by exists e.
  - destruct Hok as [H1 H2 H3]. unfold current, rows in *. cbn. assert (Hcur : mm_active s1.1 ∪ <[id := m]> (db_movements s1.2) = mm_active s1.1 ∪ db_movements s1.2).
    { apply map_eq. intros i. destruct (decide (i = id)) as [->|Hne].
      - by rewrite !(lookup_union_Some_l _ _ _ _ Hm).
      - rewrite !lookup_union. by rewrite lookup_insert_ne. }
    rewrite Hdb, Hcur. split_and!; try done. split; unfold current, rows; cbn; rewrite Hdb; [by rewrite Hcur|by apply map_Forall_insert_2|].
    intros i Hi. destruct (decide (i = id)) as [->|Hne]; [by rewrite lookup_insert_eq|]. rewrite lookup_insert_ne by done. by apply H3.
Qed.

(** The common part of [update_movement] and [finish_movement]: the movement is
    loaded, changed in memory by [f] and written. *)
Definition change_movement (id : Z) (f : Movement -> Movement) (rest : Movement -> M MMS MovementError unit)
  : M MMS MovementError unit :=
  _ ← load_movement_into_cache id;
  m ← get_movement_lock id;
  _ ← modify (fun s => set_active (<[id := f m]> (mm_active s.1)) s);
  movement ← get_movement_lock id;
  _ ← on_db (PersisterError id) (update_movement_row movement);
  rest movement.

Definition harmless (rest : Movement -> M MMS MovementError unit) (id : Z) : Prop := forall m s,
  mgr_ok s -> mm_active s.1 !! id = Some m -> rows s !! id = Some m ->
  exists s', rest m s = (Ok tt, s') /\ mgr_ok s' /\ current s' = current s /\ rows s' = rows s.

Lemma unload_harmless id : harmless (fun _ => unload_movement_from_cache id) id.
Proof.
  intros m s [H1 H2 H3] Hm Hrow. eexists. split; [reflexivity|].
  assert (Hc : current (set_active (delete id (mm_active s.1)) s) = current s).
  { unfold current, rows in *. cbn. apply map_eq. intros i. destruct (decide (i = id)) as [->|Hne].
    - rewrite lookup_union_r by apply lookup_delete_eq. by rewrite Hrow, (lookup_union_Some_l _ _ _ _ Hm).
    - rewrite !lookup_union. by rewrite lookup_delete_ne. }
  split_and!; [|exact Hc|done]. split; [by rewrite Hc|done|]. intros i [x Hx]. cbn in Hx. apply lookup_delete_Some in Hx as [_ Hx].
  apply H3. by exists x.
Qed.

Lemma change_spec id f rest (s : MMS) : mgr_ok s -> harmless rest id ->
  (forall m, mv_id (f m) = mv_id m) -> (forall m, vtxos_unique m -> vtxos_unique (f m)) ->
  exists r s', change_movement id f rest s = (r, s') /\ mgr_ok s' /\
  match r with
  | Ok _ => exists m, current s !! id = Some m /\ current s' = <[id := f m]> (current s) /\ rows s' = <[id := f m]> (rows s)
  | Err (LoadError i e) => i = id /\ current s' = current s /\ rows s' = rows s
  | Err (PersisterError i e) => i = id /\ rows s' = rows s /\
      exists m, current s !! id = Some m /\ current s' = <[id := f m]> (current s)
  | _ => False
  end.
Proof.
  intros Hok Hrest Hid Hu. unfold change_movement. unfold mbind at 1, M_bind at 1.
  destruct (load_spec id s Hok) as [(m & s1 & -> & Hok1 & Hm & Hcur & Hc1 & Hr1)|(e & s1 & -> & Hok1 & Hc1 & Hr1)].
  2:{ do 2 eexists. split; [reflexivity|]. done. }
  unfold get_movement_lock, mbind, M_bind, gets, modify, Effects.lift. cbn -[on_db]. rewrite Hm. cbn -[on_db]. rewrite lookup_insert_eq. cbn -[on_db].
  destruct (mo_ids _ Hok id m Hcur) as [Hmid Hmu].
  assert (Hok2 : mgr_ok (write_active id (f m) s1)).
  { apply write_ok; [done|apply Hok1; by exists m|by rewrite Hid|by apply Hu]. }
  destruct (persist_spec id (f m) (write_active id (f m) s1) Hok2) as (r & s2 & Hrun & Ha2 & Hok3 & Hc2 & Hr2);
    [cbn; by rewrite lookup_insert_eq|].
  unfold write_active, set_active in Hrun. unfold set_active. cbn -[on_db] in Hrun |- *. rewrite Hrun. rewrite current_write in Hc2. cbn in Ha2. change (rows (write_active id (f m) s1)) with (rows s1) in Hr2.
  destruct r as [[]|e|]; [| |done].
  - destruct (Hrest (f m) s2 Hok3) as (s3 & -> & Hok4 & Hc3 & Hr3); [by rewrite Ha2, lookup_insert_eq|by rewrite Hr2, lookup_insert_eq|].
    do 2 eexists. split; [reflexivity|]. split; [done|]. exists m. rewrite Hc3, Hc2, Hc1, Hr3, Hr2, Hr1. done.
  - destruct Hr2 as (t & -> & Hr2). do 2 eexists. split; [reflexivity|]. split; [done|]. rewrite Hr2, Hr1. split_and!; [done..|].
    exists m. by rewrite Hc2, Hc1.
Qed.

(** What [update_movement] does: the movement, as the manager knows it, is
    changed by the update and written to the database; all other movements
    keep their records, no VTXO is ever listed twice, and the invariant of the
    manager holds again.  A failed write is reported and leaves the database
    alone, but the change stays in memory, to be written with the next one. *)
Theorem update_movement_spec id update now (s : MMS) : mgr_ok s ->
  exists r s', update_movement id update now s = (r, s') /\ mgr_ok s' /\
  match r with
  | Ok _ => exists m, current s !! id = Some m /\ current s' = <[id := apply_to update now m]> (current s) /\
      rows s' = <[id := apply_to update now m]> (rows s)
  | Err (LoadError i e) => i = id /\ current s' = current s /\ rows s' = rows s
  | Err (PersisterError i e) => i = id /\ rows s' = rows s /\
      exists m, current s !! id = Some m /\ current s' = <[id := apply_to update now m]> (current s)
  | _ => False
  end.
Proof.
  intros Hok. apply (change_spec id (apply_to update now)
    (fun m => if bool_decide (mv_status m <> MovementStatus.Pending) then unload_movement_from_cache id else mret tt)); [done| |done|].
  - intros m s1 Hs1 Hm Hrow. case_bool_decide; [by eapply unload_harmless|]. by exists s1.
  - intros m. apply apply_to_unique.
Qed.

(** The same for the end of a movement. *)
Lemma finish_movement_spec id status now (s : MMS) : mgr_ok s -> status <> MovementStatus.Pending ->
  exists r s', finish_movement id status now s = (r, s') /\ mgr_ok s' /\
  match r with
  | Ok _ => exists m, current s !! id = Some m /\ current s' = <[id := with_status status now m]> (current s) /\
      rows s' = <[id := with_status status now m]> (rows s)
  | Err (LoadError i e) => i = id /\ current s' = current s /\ rows s' = rows s
  | Err (PersisterError i e) => i = id /\ rows s' = rows s /\
      exists m, current s !! id = Some m /\ current s' = <[id := with_status status now m]> (current s)
  | _ => False
  end.
Proof.
  intros Hok Hst. unfold finish_movement. rewrite bool_decide_eq_false_2 by done.
  apply (change_spec id (with_status status now) (fun _ => unload_movement_from_cache id)); [done|by apply unload_harmless|done|done].
Qed.

Lemma new_movement_spec sub kind now (s : MMS) r s' : mgr_ok s -> new_movement sub kind now s = (r, s') -> mgr_ok s' /\
  match r with
  | Ok id => exists name, mm_subsystem_ids s.1 !! sub = Some name /\ rows s !! id = None /\
      rows s' = <[id := movement_new id MovementStatus.Pending (mkSubsystem name kind) now]> (rows s) /\
      current s' = <[id := movement_new id MovementStatus.Pending (mkSubsystem name kind) now]> (current s)
  | Err _ => current s' = current s /\ rows s' = rows s
  | Panic => False
  end.
Proof.
  intros Hok. unfold new_movement, get_subsystem_name, mbind, M_bind, gets, Effects.lift. cbn.
  destruct (mm_subsystem_ids s.1 !! sub) as [name|]; cbn; [|by intros [= <- <-]].
  unfold on_db, map_err_m, zoom, call. cbn.
  pose proof (create_new_movement_db MovementStatus.Pending (mkSubsystem name kind) now s.2) as Hdb.
  destruct (create_new_movement _ _ _ _) as [[e|id] d]; cbn in *; intros [= <- <-].
  - by destruct (ok_ext s (s.1, d) eq_refl Hdb Hok).
  - destruct Hdb as [Hnone Hdb]. assert (Hact : mm_active s.1 !! id = None).
    { apply eq_None_not_Some. intros Hs%(mo_active _ Hok). unfold rows in Hs. rewrite Hnone in Hs. by destruct Hs. }
    assert (Hc : current (s.1, d) = <[id := movement_new id MovementStatus.Pending (mkSubsystem name kind) now]> (current s)).
    { unfold current, rows. cbn. rewrite Hdb. by rewrite insert_union_r. }
    destruct Hok as [H1 H2 H3]. split.
    + split; [rewrite Hc; apply map_Forall_insert_2; [|done]|unfold rows; cbn; rewrite Hdb; apply map_Forall_insert_2; [|done]|];
        [split; [done|]; split_and!; constructor..|]. intros i Hi. unfold rows. cbn. rewrite Hdb. apply lookup_insert_is_Some'. right. by apply H3.
    + exists name. unfold rows. cbn. by rewrite Hdb.
Qed.
End Facts.

(** ** With the tables of the sqlite backend *)
Section Tables.
Context `{PT : PaymentTypes}.
Implicit Types s : MovementManager * MovTables.

Lemma mt_query_no_fault {A} (f : MovTables -> (string + A) * MovTables) d : mt_faults d = [] -> mt_query f d = f d.
Proof. intros H. unfold mt_query. rewrite H. destruct d as [r l fs]. cbn in *. by subst. Qed.

Lemma change_no_fault id f rest s m : mgr_ok s -> current s !! id = Some m -> mt_faults s.2 = [] ->
  mv_id (f m) = mv_id m -> vtxos_unique (f m) ->
  exists s', change_movement id f rest s = rest (f m) s'.
Proof.
  intros Hok Hcur Hf Hid Hu. unfold change_movement, load_movement_into_cache, get_movement_lock, on_db, map_err_m, zoom, call, mbind, M_bind,
    gets, modify, Effects.lift. cbn -[mt_get mt_update].
  destruct (mo_ids _ Hok id m Hcur) as [Hmid _].
  assert (Hrow : is_Some (mt_rows s.2 !! id)).
  { unfold current, rows in Hcur. apply lookup_union_Some_raw in Hcur as [Ha|[_ Hr]]; [apply (mo_active _ Hok id); by exists m|by exists m]. }
  destruct (decide _) as [[a Ha]|Hn]; cbn -[mt_get mt_update].
  - assert (a = m) as -> by (rewrite (current_active _ _ _ Ha) in Hcur; congruence).
    rewrite Ha. cbn -[mt_get mt_update]. rewrite lookup_insert_eq. cbn -[mt_get mt_update]. unfold mt_update.
    rewrite mt_query_no_fault by done. rewrite bool_decide_eq_true_2 by done. cbn. by eexists.
  - assert (Hr : mt_rows s.2 !! id = Some m).
    { unfold current in Hcur. apply eq_None_not_Some in Hn. by rewrite lookup_union_r in Hcur. }
    unfold mt_get. rewrite mt_query_no_fault by done. rewrite Hr. cbn -[mt_update]. rewrite lookup_insert_eq. cbn -[mt_update].
    rewrite lookup_insert_eq. cbn -[mt_update]. unfold mt_update. rewrite mt_query_no_fault by done. rewrite bool_decide_eq_true_2 by done. cbn. by eexists.
Qed.

(** With a database that answers, no update of a movement that exists is
    ever refused: the unique constraints on the lists of VTXOs always hold,
    whatever lists the updates carry, and a finished movement is updated like a
    pending one. *)
Theorem update_never_refused id update now s m : mgr_ok s -> current s !! id = Some m -> mt_faults s.2 = [] ->
  (update_movement id update now s).1 = Ok tt.
Proof.
  intros Hok Hm Hf. destruct (mo_ids _ Hok id m Hm) as [_ Hu].
  edestruct (change_no_fault id (apply_to update now)
    (fun m => if bool_decide (mv_status m <> MovementStatus.Pending) then unload_movement_from_cache id else mret tt) s m)
    as [s' Hrun]; [done..|by apply apply_to_unique|].
  change (update_movement id update now s) with (change_movement id (apply_to update now)
    (fun m => if bool_decide (mv_status m <> MovementStatus.Pending) then unload_movement_from_cache id else mret tt) s).
  rewrite Hrun. by case_bool_decide.
Qed.
End Tables.

(** A movement that has failed, and an update that lists a VTXO twice. *)
Definition sample_types : PaymentTypes := {|
  ArkAddress := unit; BitcoinAddress := unit; Invoice := unit; Offer := unit; LightningAddress := unit; Json := bytes;
  address_from_script _ := None; txid_to_value t := t; payment_hash_to_value h := h; vtxo_ids_to_value ids := mjoin ids;
  outpoint_to_value o := op_txid o; sat_to_value _ := [] |}.

Definition sample_movement : Movement (PT := sample_types) :=
  with_status MovementStatus.Failed 7 (movement_new 1 MovementStatus.Pending (mkSubsystem "bark.round" "refresh") 5).
Definition sample_mgr : MovementManager (PT := sample_types) * MovTables (PT := sample_types) :=
  (mkManager {[ 0 := "bark.round"%string ]} ∅, mkTables {[ 1 := sample_movement ]} 1 []).
Definition sample_update : MovementUpdate (PT := sample_types) :=
  produced_vtxos [[Byte.x01]; [Byte.x02]; [Byte.x01]] (fee 3 update_new).

Lemma sample_mgr_ok : mgr_ok (PT := sample_types) sample_mgr.
Proof.
  assert (H : map_Forall (fun id m => mv_id m = id /\ vtxos_unique m) ({[ 1 := sample_movement ]} : gmap Z (Movement (PT := sample_types)))).
  { apply map_Forall_singleton. split; [done|]. split_and!; constructor. }
  split; [unfold current; cbn; by rewrite (left_id_L ∅ (∪))|exact H|]. intros id. cbn. rewrite lookup_empty. by intros [].
Qed.

Lemma update_movement_spec_witness : exists s', update_movement (PT := sample_types) 1 sample_update 9 sample_mgr = (Ok tt, s') /\
  rows (PT := sample_types) s' !! 1 = Some (apply_to sample_update 9 sample_movement) /\
  mv_output_vtxos (apply_to sample_update 9 sample_movement) = [[Byte.x01]; [Byte.x02]] /\
  mv_status (apply_to sample_update 9 sample_movement) = MovementStatus.Failed.
Proof.
  destruct (update_movement_spec (PT := sample_types) 1 sample_update 9 sample_mgr sample_mgr_ok) as (r & s' & Hrun & _ & H).
  assert (Hr : (update_movement (PT := sample_types) 1 sample_update 9 sample_mgr).1 = Ok tt) by reflexivity.
  rewrite Hrun in Hr. cbn in Hr. subst r. exists s'. split; [exact Hrun|]. destruct H as (m & Hm & _ & Hrows).
  assert (m = sample_movement) as -> by (cbv in Hm; injection Hm as <-; reflexivity).
  split; [by rewrite Hrows, lookup_insert_eq|]. split; reflexivity.
Defined.

Lemma update_never_refused_witness :
  (update_movement (PT := sample_types) 1 sample_update 9 sample_mgr).1 = Ok tt.
Proof.
  apply (update_never_refused (PT := sample_types) 1 sample_update 9 sample_mgr sample_movement sample_mgr_ok); reflexivity.
Defined.
