(* ===== verification/ExitManager.v ===== *)
(** * The exit transaction manager (bark/src/exit/transaction_manager.rs)

    The manager tracks the packages of exit transactions with their fee-paying
    children, and caches the status of transactions on the network.  The
    packages are shared: [index] holds weak pointers to them, modelled as
    positions in the vector [packages] that owns them. *)
From stdpp Require Import gmap.
From S2P Require Import Prelude Effects Bitcoin Policy Vtxo ChainSource ExitStates Persist.

Open Scope Z_scope.

Record ExitTransactionManager := mkManager {
  packages : list ExitTransactionPackage;
  mgr_index : gmap bytes nat;
  mgr_status : gmap bytes TxStatus.t;
}.

Definition manager_new : ExitTransactionManager := mkManager [] ∅ ∅.

(** Everything the exit code can read and change. *)
Record World (net wallet db : Type) := mkWorld {
  w_net : net;
  w_wallet : wallet;
  w_db : db;
  w_mgr : ExitTransactionManager;
}.
Arguments mkWorld {net wallet db}.
Arguments w_net {net wallet db}.
Arguments w_wallet {net wallet db}.
Arguments w_db {net wallet db}.
Arguments w_mgr {net wallet db}.

Section Manager.
Context `{B : Bitcoin} {net wallet db : Type}.
Context `{!ChainSource net, !OnchainWallet wallet, !Persister db}.

Notation W := (World net wallet db).
Notation X := (M W ExitError.t).

Definition set_net (n : net) (w : W) : W := mkWorld n (w_wallet w) (w_db w) (w_mgr w).
Definition set_wallet (x : wallet) (w : W) : W := mkWorld (w_net w) x (w_db w) (w_mgr w).
Definition set_db (d : db) (w : W) : W := mkWorld (w_net w) (w_wallet w) d (w_mgr w).
Definition set_mgr (m : ExitTransactionManager) (w : W) : W := mkWorld (w_net w) (w_wallet w) (w_db w) m.

(** Calls to the network, the wallet and the database. *)
Definition on_net {E A} (f : string -> E) (c : ext net string A) : M W E A :=
  zoom w_net set_net (map_err_m f (call c)).
Definition on_wallet {E F A} (f : F -> E) (c : ext wallet F A) : M W E A :=
  zoom w_wallet set_wallet (map_err_m f (call c)).
Definition on_db {E A} (f : string -> E) (c : ext db string A) : M W E A :=
  zoom w_db set_db (map_err_m f (call c)).
Definition on_mgr {E} (f : ExitTransactionManager -> ExitTransactionManager) : M W E unit :=
  modify (fun w => set_mgr (f (w_mgr w)) w).

Definition set_status (txid : bytes) (st : TxStatus.t) (m : ExitTransactionManager) : ExitTransactionManager :=
  mkManager (packages m) (mgr_index m) (<[txid := st]> (mgr_status m)).
Definition set_index (txid : bytes) (i : nat) (m : ExitTransactionManager) : ExitTransactionManager :=
  mkManager (packages m) (<[txid := i]> (mgr_index m)) (mgr_status m).
Definition set_child (i : nat) (c : ChildTransactionInfo) (m : ExitTransactionManager) : ExitTransactionManager :=
  mkManager (alter (fun p => mkExitPackage (pkg_exit p) (Some c)) i (packages m)) (mgr_index m) (mgr_status m).
Definition push_package (p : ExitTransactionPackage) (m : ExitTransactionManager) : ExitTransactionManager :=
  mkManager (packages m ++ [p]) (mgr_index m) (mgr_status m).

(** ** Finding children *)
Definition find_child_in_wallet (exit_info : TransactionInfo) : X (option ChildTransactionInfo) :=
  outpoint ← lift (ok_or (tx_fee_anchor (ti_tx exit_info)) (ExitError.InternalError "Exit tx has no P2A output"));
  w ← gets w_wallet;
  match get_spending_tx w outpoint with
  | Some child_tx =>
      let child_txid := compute_txid child_tx in
      block ← lift (match get_wallet_tx_confirmed_block w child_txid with
                    | inl e => Err (ExitError.InvalidWalletState e)
                    | inr block => Ok block
                    end);
      mret (Some (mkChildInfo (mkTxInfo child_txid child_tx) (ExitTxOrigin.Wallet block)))
  | None => mret None
  end.

Definition find_child_in_database (exit_info : TransactionInfo) : X (option ChildTransactionInfo) :=
  result ← on_db ExitError.DatabaseChildRetrievalFailure (get_exit_child_tx (ti_txid exit_info));
  mret (match result with
        | Some (tx, origin) => Some (mkChildInfo (mkTxInfo (compute_txid tx) tx) origin)
        | None => None
        end).

Definition find_child_locally (exit_info : TransactionInfo) : X (option ChildTransactionInfo) :=
  wallet ← find_child_in_wallet exit_info;
  match wallet with
  | Some c => mret (Some c)
  | None => find_child_in_database exit_info
  end.

(** ** Tracking *)
Definition initial_status (child : option ChildTransactionInfo) : TxStatus.t :=
  match child with
  | None => TxStatus.NotFound
  | Some child =>
      match ExitTxOrigin.confirmed_in (ci_origin child) with
      | Some block => TxStatus.Confirmed block
      | None => TxStatus.Mempool
      end
  end.

Definition track_exit_tx (tx : Transaction) : X bytes :=
  let txid := compute_txid tx in
  m ← gets w_mgr;
  if bool_decide (is_Some (mgr_index m !! txid)) then mret txid
  else
    let info := mkTxInfo txid tx in
    child ← find_child_locally info;
    m ← gets w_mgr;
    let ptr := length (packages m) in
    _ ← on_mgr (set_index txid ptr);
    _ ← (match child with
         | Some child => on_mgr (set_index (ti_txid (ci_info child)) ptr)
         | None => mret tt
         end);
    _ ← on_mgr (set_status txid (initial_status child));
    _ ← on_mgr (push_package (mkExitPackage info child));
    mret txid.

(** The transactions of a VTXO, as its iterator yields them. *)
Definition exit_txs {E} (v : Vtxo) : outcome E (list Transaction) :=
  o ← transactions (E := E) v;
  l ← expect o;
  Ok l.*1.

Definition track_vtxo_exits (vtxo : Vtxo) : X (list bytes) :=
  exit_txs ← lift (exit_txs vtxo);
  foldM (fun txids tx => txid ← track_exit_tx tx; mret (txids ++ [txid])) [] exit_txs.

(** ** Queries *)

(** The pointer to a package; an untracked or stale one is an error. *)
Definition get_package (exit_txid : bytes) : X nat :=
  m ← gets w_mgr;
  i ← lift (ok_or (mgr_index m !! exit_txid)
              (ExitError.InternalError "Attempt to get package for untracked exit tx"));
  _ ← lift (ok_or (packages m !! i) (ExitError.InternalError "Attempt to get package for stale exit tx"));
  mret i.

Definition read_package (i : nat) : X ExitTransactionPackage :=
  m ← gets w_mgr; lift (expect (packages m !! i)).

Definition get_child_status (exit_txid : bytes) : X (option ExitChildStatus) :=
  package ← get_package exit_txid;
  guard ← read_package package;
  match pkg_child guard with
  | Some child =>
      m ← gets w_mgr;
      status ← lift (expect (mgr_status m !! exit_txid));
      mret (Some (mkChildStatus (ti_txid (ci_info child)) status (ci_origin child)))
  | None => mret None
  end.

Definition get_child_txid (exit_txid : bytes) : X (option bytes) :=
  package ← get_package exit_txid;
  guard ← read_package package;
  mret ((fun child => ti_txid (ci_info child)) <$> pkg_child guard).

Definition mgr_tip : X Z := on_net ExitError.TipRetrievalFailure chain_tip.

Definition get_tx_status (txid : bytes) : X TxStatus.t :=
  on_net (ExitError.TransactionRetrievalFailure txid) (chain_tx_status txid).

Definition tx_status (txid : bytes) : X TxStatus.t :=
  m ← gets w_mgr;
  match mgr_status m !! txid with
  | Some status => mret status
  | None =>
      status ← get_tx_status txid;
      _ ← on_mgr (set_status txid status);
      mret status
  end.

(** ** Updates *)
Definition set_wallet_child_tx (exit_txid : bytes) (child_tx : Transaction) (origin : ExitTxOrigin.t) : X bytes :=
  package ← get_package exit_txid;
  let child_txid := compute_txid child_tx in
  _ ← on_mgr (set_child package (mkChildInfo (mkTxInfo child_txid child_tx) origin));
  _ ← on_mgr (set_index child_txid package);
  _ ← on_mgr (set_status exit_txid TxStatus.NotFound);
  mret child_txid.

Definition broadcast_package (package : ExitTransactionPackage) : X TxStatus.t :=
  let txid := ti_txid (pkg_exit package) in
  m ← gets w_mgr;
  _ ← (if bool_decide (is_Some (mgr_status m !! txid)) then mret tt
       else on_mgr (set_status txid TxStatus.NotFound));
  status ← (match pkg_child package with
            | None => mret TxStatus.NotFound
            | Some child =>
                _ ← on_net (ExitError.ExitPackageBroadcastFailure txid)
                      (broadcast_txs [ti_tx (pkg_exit package); ti_tx (ci_info child)]);
                mret TxStatus.Mempool
            end);
  _ ← on_mgr (set_status txid status);
  mret status.

(** The child that spends the anchor, with where it was seen. *)
Definition network_origin (txid : bytes) (status : TxStatus.t) : X ExitTxOrigin.t :=
  match TxStatus.confirmed_in status with
  | Some block => mret (ExitTxOrigin.Block block)
  | None =>
      info ← on_net (ExitError.AncestorRetrievalFailure txid) (mempool_ancestor_info txid);
      fee_rate ← lift (ok_or (effective_fee_rate info)
                         (ExitError.AncestorRetrievalFailure txid "unable to calculate fee rate"));
      mret (ExitTxOrigin.Mempool fee_rate (total_fee info))
  end.

Definition download_child (txid : bytes) (current : option ChildTransactionInfo) : X Transaction :=
  match current with
  | Some child =>
      if bool_decide (ti_txid (ci_info child) = txid) then mret (ti_tx (ci_info child))
      else tx ← on_net (ExitError.TransactionRetrievalFailure txid) (get_tx txid); lift (expect tx)
  | None => tx ← on_net (ExitError.TransactionRetrievalFailure txid) (get_tx txid); lift (expect tx)
  end.

Definition update_child_from_network (package : nat) (block_scan_start : Z) : X TxStatus.t :=
  guard ← read_package package;
  outpoint ← lift (ok_or (tx_fee_anchor (ti_tx (pkg_exit guard)))
                     (ExitError.MissingAnchorOutput (ti_txid (pkg_exit guard))));
  spend_results ← on_net (ExitError.TransactionRetrievalFailure (op_txid outpoint))
                    (txs_spending_inputs [outpoint] block_scan_start);
  match (spend_results : SpendingResult) !! outpoint with
  | None => mret TxStatus.NotFound
  | Some (txid, status) =>
      guard ← read_package package;
      let own := match pkg_child guard with
                 | Some child =>
                     match ci_origin child with
                     | ExitTxOrigin.Wallet _ => bool_decide (ti_txid (ci_info child) = txid)
                     | _ => false
                     end
                 | None => false
                 end in
      match pkg_child guard, own with
      | Some child, true =>
          _ ← on_mgr (set_child package (mkChildInfo (ci_info child) (ExitTxOrigin.Wallet (TxStatus.confirmed_in status))));
          mret status
      | current, _ =>
          tx ← download_child txid current;
          origin ← network_origin txid status;
          (* a failure to store the child is only logged *)
          _ ← try_m (on_db ExitError.InvalidWalletState (store_exit_child_tx (op_txid outpoint) tx origin));
          _ ← on_mgr (set_child package (mkChildInfo (mkTxInfo txid tx) origin));
          mret status
      end
  end.

(** One iteration of the loop of [sync]; the height subtraction is checked. *)
Definition sync_tx (tip : Z) (txid : bytes) : X unit :=
  m ← gets w_mgr;
  status ← lift (expect (mgr_status m !! txid));
  deep ← (match status with
          | TxStatus.Confirmed block =>
              h ← lift (expect (checked_sub tip DEEPLY_CONFIRMED));
              mret (height block <=? h)
          | _ => mret false
          end);
  if (deep : bool) then mret tt
  else
    match mgr_index m !! txid with
    | None =>
        status ← get_tx_status txid;
        on_mgr (set_status txid status)
    | Some ptr =>
        package ← read_package ptr;
        status ← get_tx_status txid;
        match status with
        | TxStatus.NotFound =>
            r ← try_m (broadcast_package package);
            match r with
            | inr _ => mret tt
            | inl (ExitError.ExitPackageBroadcastFailure _ _) => mret tt
            | inl e => throw e
            end
        | _ =>
            status' ← update_child_from_network ptr (default tip (TxStatus.confirmed_height status));
            on_mgr (set_status txid status')
        end
    end.

(** The keys of a hash map come in no particular order: [keys] is any
    enumeration of them. *)
Definition mgr_sync (keys : gmap bytes TxStatus.t -> list bytes) : X unit :=
  tip ← mgr_tip;
  m ← gets w_mgr;
  forM_ (keys (mgr_status m)) (sync_tx tip).
End Manager.
