(* ===== verification/ExitProgress.v ===== *)
(** * Progressing a unilateral exit (bark/src/exit/progress/, bark/src/exit/vtxo.rs)

    The state machine of one exit: from the check that it can be afforded, over
    the broadcast and confirmation of every exit transaction and the wait for
    the relative timelock, to the claim of the output.  Each call looks at the
    network through the transaction manager and moves to the next state. *)
From stdpp Require Import gmap.
From S2P Require Import Prelude Effects Bitcoin Policy Vtxo ChainSource ExitStates Persist ExitManager.

Open Scope Z_scope.

(** ** bark/src/exit/progress/util.rs *)
Definition is_broadcast (s : ExitTxStatus.t) : bool :=
  match s with ExitTxStatus.BroadcastWithCpfp _ _ | ExitTxStatus.Confirmed _ _ _ => true | _ => false end.
Definition is_confirmed (s : ExitTxStatus.t) : bool :=
  match s with ExitTxStatus.Confirmed _ _ _ => true | _ => false end.

Definition count_broadcast (l : list ExitTx) : nat := length (List.filter (fun t => is_broadcast (et_status t)) l).
Definition count_confirmed (l : list ExitTx) : nat := length (List.filter (fun t => is_confirmed (et_status t)) l).

Definition estimate_exit_cost `{B : Bitcoin, !Fees} {E} (vtxos : list Vtxo) (fee_rate : Z) : outcome E Z :=
  txs ← mapM exit_txs vtxos;
  let all_txs : gmap bytes Transaction :=
    foldl (fun m tx => <[compute_txid tx := tx]> m) ∅ (mjoin txs) in
  total_weight ← amount_sum (tx_weight <$> (map_to_list all_txs).*2);
  u_mul 64 (fee_for_weight fee_rate total_weight) 2.

(** [max_by] on the heights: the last of the highest blocks. *)
Definition max_block (l : list BlockRef) : option BlockRef :=
  foldl (fun acc b =>
    match acc with
    | None => Some b
    | Some a => if height a <=? height b then Some b else Some a
    end) None l.

(** ** bark/src/exit/progress/mod.rs *)
Inductive ProgressStep := Continue | Done.

Definition needs_work (s : ExitTxStatus.t) : bool :=
  match s with
  | ExitTxStatus.VerifyInputs => true
  | ExitTxStatus.AwaitingInputConfirmation _ => false
  | ExitTxStatus.NeedsSignedPackage => true
  | ExitTxStatus.NeedsReplacementPackage _ _ => true
  | ExitTxStatus.NeedsBroadcasting _ _ => true
  | ExitTxStatus.BroadcastWithCpfp _ _ => false
  | ExitTxStatus.Confirmed _ _ _ => false
  end.

Definition from_exit_state (state : ExitState.t) : ProgressStep :=
  match state with
  | ExitState.Start _ => Continue
  | ExitState.Processing s =>
      if existsb (fun tx => needs_work (et_status tx)) (ps_transactions s) then Continue else Done
  | ExitState.AwaitingDelta _ => Done
  | ExitState.Claimable _ => Done
  | ExitState.ClaimInProgress _ => Done
  | ExitState.Claimed _ => Done
  end.

Record ExitProgressError := mkProgressError { pe_state : option ExitState.t; pe_error : ExitError.t }.

Definition from_exit_error (error : ExitError.t) : ExitProgressError := mkProgressError None error.

Record ExitVtxo := mkExitVtxo {
  ev_vtxo_id : bytes;
  ev_amount : Z;
  ev_state : ExitState.t;
  ev_history : list ExitState.t;
  ev_txids : option (list bytes);
}.

Definition MAX_ITERATIONS : nat := 100.

Lemma MAX_ITERATIONS_eq : MAX_ITERATIONS = 100%nat.
Proof. done. Qed.
#[global] Opaque MAX_ITERATIONS.

Section Progress.
Context `{B : Bitcoin} {net wallet db : Type}.
Context `{!ChainSource net, !OnchainWallet wallet, !Persister db} {F : Fees}.

Notation W := (World net wallet db).
Notation X := (M W ExitError.t).
Notation P := (M W ExitProgressError).

Record ProgressContext := mkContext { ctx_vtxo : Vtxo; ctx_exit_txids : list bytes; ctx_fee_rate : Z }.

Definition check_confirmed (txid : bytes) : X bool :=
  r ← try_m (tx_status (db := db) (wallet := wallet) txid);
  mret (match (r : ExitError.t + TxStatus.t) with inr (TxStatus.Confirmed _) => true | _ => false end).

Definition check_status_from_inputs (inputs : gset bytes) : X ExitTxStatus.t :=
  txids ← foldM (fun (txids : gset bytes) txid =>
    c ← check_confirmed txid;
    mret (if (c : bool) then txids else {[ txid ]} ∪ txids)) ∅ (elements inputs);
  mret (if bool_decide (txids = ∅) then ExitTxStatus.NeedsSignedPackage
        else ExitTxStatus.AwaitingInputConfirmation txids).

Definition cpfp_error (e : CpfpError) : ExitError.t :=
  match e with
  | NoFeeAnchor _ => ExitError.InternalError "Transaction has no fee anchor"
  | CpfpInsufficientConfirmedFunds needed available => ExitError.InsufficientConfirmedFunds needed available
  | e => ExitError.ExitPackageFinalizeFailure e
  end.

Definition create_exit_cpfp_tx (ctx : ProgressContext) (exit_tx : Transaction) (min_rbf_fees : option (Z * Z))
  : X Transaction :=
  let fees :=
    match min_rbf_fees with
    | Some (min_fee_rate, min_fee) =>
        Rbf (if min_fee_rate <? ctx_fee_rate ctx then ctx_fee_rate ctx else min_fee_rate) min_fee
    | None => Effective (ctx_fee_rate ctx)
    end in
  on_wallet cpfp_error (make_signed_p2a_cpfp exit_tx fees).

Definition get_block_ref (h : Z) : X BlockRef :=
  on_net (ExitError.BlockRetrievalFailure h) (block_ref h).

Definition child_status_to_exit (fee_rate : Z) (child : ExitChildStatus) : outcome ExitError.t ExitTxStatus.t :=
  match cs_status child with
  | TxStatus.NotFound => Ok (ExitTxStatus.NeedsBroadcasting (cs_txid child) (cs_origin child))
  | TxStatus.Mempool =>
      match cs_origin child with
      | ExitTxOrigin.Wallet _ => Ok (ExitTxStatus.BroadcastWithCpfp (cs_txid child) (cs_origin child))
      | ExitTxOrigin.Mempool rate total_fee =>
          if rate <? fee_rate then Ok (ExitTxStatus.NeedsReplacementPackage rate total_fee)
          else Ok (ExitTxStatus.BroadcastWithCpfp (cs_txid child) (cs_origin child))
      | ExitTxOrigin.Block _ => Err (ExitError.InternalError "this should never happen")
      end
  | TxStatus.Confirmed b => Ok (ExitTxStatus.Confirmed (cs_txid child) b (cs_origin child))
  end.

Definition get_exit_tx_status (ctx : ProgressContext) (exit : ExitTx) : X ExitTxStatus.t :=
  child ← get_child_status (et_txid exit);
  match child with
  | Some child => lift (child_status_to_exit (ctx_fee_rate ctx) child)
  | None => mret ExitTxStatus.NeedsSignedPackage
  end.

Definition get_exit_child_status (ctx : ProgressContext) (exit : ExitTx) : X ExitTxStatus.t :=
  current_child_txid ← get_child_txid (et_txid exit);
  match current_child_txid with
  | Some _ => get_exit_tx_status ctx exit
  | None => mret ExitTxStatus.NeedsSignedPackage
  end.

Definition get_unique_inputs (exit_txid : bytes) : X (gset bytes) :=
  package ← get_package exit_txid;
  guard ← read_package package;
  mret (list_to_set ((fun i => op_txid (previous_output i)) <$> input (ti_tx (pkg_exit guard)))).

Definition tip_height : X Z := on_net ExitError.TipRetrievalFailure chain_tip.

(** ** bark/src/exit/progress/states.rs *)

(** Make a new child with the wallet and remember it for the broadcast. *)
Definition make_child (ctx : ProgressContext) (exit : ExitTx) (exit_tx : Transaction)
    (min_rbf_fees : option (Z * Z)) : X ExitTxStatus.t :=
  child_tx ← create_exit_cpfp_tx ctx exit_tx min_rbf_fees;
  let origin := ExitTxOrigin.Wallet None in
  child_txid ← set_wallet_child_tx (et_txid exit) child_tx origin;
  mret (ExitTxStatus.NeedsBroadcasting child_txid origin).

Definition progress_exit_tx (ctx : ProgressContext) (exit : ExitTx) : X ExitTxStatus.t :=
  match et_status exit with
  | ExitTxStatus.VerifyInputs =>
      inputs ← get_unique_inputs (et_txid exit);
      check_status_from_inputs inputs
  | ExitTxStatus.AwaitingInputConfirmation txids => check_status_from_inputs txids
  | ExitTxStatus.NeedsSignedPackage =>
      new_status ← get_exit_tx_status ctx exit;
      match new_status with
      | ExitTxStatus.NeedsSignedPackage =>
          package ← get_package (et_txid exit);
          guard ← read_package package;
          _ ← lift (assert (match pkg_child guard with None => true | Some _ => false end));
          make_child ctx exit (ti_tx (pkg_exit guard)) None
      | new_status => mret new_status
      end
  | ExitTxStatus.NeedsReplacementPackage _ _ =>
      new_status ← get_exit_tx_status ctx exit;
      match new_status with
      | ExitTxStatus.NeedsReplacementPackage min_fee_rate min_fee =>
          package ← get_package (et_txid exit);
          guard ← read_package package;
          make_child ctx exit (ti_tx (pkg_exit guard)) (Some (min_fee_rate, min_fee))
      | s => mret s
      end
  | ExitTxStatus.NeedsBroadcasting child_txid _ =>
      status ← get_exit_child_status ctx exit;
      match status with
      | ExitTxStatus.NeedsBroadcasting _ _ =>
          package ← get_package (et_txid exit);
          guard ← read_package package;
          status ← broadcast_package guard;
          _ ← (match status with
               | TxStatus.Mempool =>
                   child ← lift (expect (pkg_child guard));
                   on_wallet (ExitError.ExitPackageStoreFailure (et_txid exit))
                     (store_signed_p2a_cpfp (ti_tx (ci_info child)))
               | _ => mret tt
               end);
          get_exit_child_status ctx exit
      | status => mret status
      end
  | ExitTxStatus.BroadcastWithCpfp _ _ => get_exit_child_status ctx exit
  | ExitTxStatus.Confirmed _ _ _ => get_exit_child_status ctx exit
  end.

Definition start_progress (ctx : ProgressContext) (tip_height : Z) : P ExitState.t :=
  _ ← lift (ensure (negb (amount (ctx_vtxo ctx) <? P2TR_DUST))
              (from_exit_error (ExitError.DustLimit (amount (ctx_vtxo ctx)) P2TR_DUST)));
  total_fee ← infallible (estimate_exit_cost [ctx_vtxo ctx] (ctx_fee_rate ctx));
  w ← gets w_wallet;
  let balance := get_balance w in
  _ ← lift (ensure (negb (balance <? total_fee))
              (from_exit_error (ExitError.InsufficientFeeToStart balance total_fee (ctx_fee_rate ctx))));
  tip ← try_m (on_net ExitError.TipRetrievalFailure chain_tip);
  mret (ExitState.new_processing (match tip with inr t => t | inl _ => tip_height end) (ctx_exit_txids ctx)).

(** The loop over the exit transactions: on an error what has changed so far is
    part of the error. *)
Fixpoint process_txs (ctx : ProgressContext) (tip : Z) (original done todo : list ExitTx) : P (list ExitTx) :=
  match todo with
  | [] => mret done
  | exit :: rest =>
      r ← try_m (progress_exit_tx ctx exit);
      match r with
      | inr status => process_txs ctx tip original (done ++ [mkExitTx (et_txid exit) status]) rest
      | inl e =>
          let transactions := done ++ exit :: rest in
          throw (mkProgressError
                   (if bool_decide (original = transactions) then None
                    else Some (ExitState.new_processing_from_transactions tip transactions)) e)
      end
  end.

Definition processing_progress (ctx : ProgressContext) (self : ExitProcessingState) : P ExitState.t :=
  _ ← lift (assert (bool_decide (length (ps_transactions self) = length (ctx_exit_txids ctx))));
  tip ← map_err_m from_exit_error tip_height;
  transactions ← process_txs ctx tip (ps_transactions self) [] (ps_transactions self);
  if bool_decide (count_confirmed transactions = length transactions) then
    conf_block ← lift (expect (max_block (omap (fun t => ExitTxStatus.confirmed_in (et_status t)) transactions)));
    lift (ExitState.new_awaiting_delta tip conf_block (exit_delta (ctx_vtxo ctx)))
  else if bool_decide (ps_transactions self = transactions) then mret (ExitState.Processing self)
  else mret (ExitState.new_processing_from_transactions tip transactions).

Definition awaiting_delta_progress (ctx : ProgressContext) (self : ExitAwaitingDeltaState) : P ExitState.t :=
  tip ← map_err_m from_exit_error tip_height;
  confirmed ← map_err_m from_exit_error (check_confirmed (op_txid (point (ctx_vtxo ctx))));
  if negb confirmed then mret (ExitState.new_processing tip (ctx_exit_txids ctx))
  else if ad_claimable_height self <=? tip then
    spendable_block ← map_err_m from_exit_error (get_block_ref (ad_claimable_height self));
    mret (ExitState.new_claimable tip spendable_block None)
  else mret (ExitState.AwaitingDelta self).

Definition claimable_progress (ctx : ProgressContext) (self : ExitClaimableState) : P ExitState.t :=
  tip ← map_err_m from_exit_error tip_height;
  spendable_block ← map_err_m from_exit_error (get_block_ref (height (cl_claimable_since self)));
  if negb (bool_decide (hash spendable_block = hash (cl_claimable_since self)))
  then mret (ExitState.new_claimable tip spendable_block None)
  else
    scan_height ←
      (match cl_last_scanned_block self with
       | Some block =>
           b ← map_err_m from_exit_error (get_block_ref (height block));
           mret (if bool_decide (hash b = hash block) then height block else height (cl_claimable_since self))
       | None => mret (height (cl_claimable_since self))
       end);
    let vtxo_point := point (ctx_vtxo ctx) in
    result ← map_err_m from_exit_error
      (on_net (ExitError.TransactionRetrievalFailure (op_txid vtxo_point))
         (txs_spending_inputs [vtxo_point] scan_height));
    match (result : SpendingResult) !! vtxo_point with
    | Some (txid, TxStatus.Confirmed block) => mret (ExitState.new_claimed tip txid block)
    | Some (txid, TxStatus.Mempool) =>
        mret (ExitState.new_claim_in_progress tip (cl_claimable_since self) txid)
    | Some (_, TxStatus.NotFound) => lift Panic
    | None =>
        tip_block ← map_err_m from_exit_error (get_block_ref tip);
        mret (ExitState.new_claimable tip (cl_claimable_since self) (Some tip_block))
    end.

Definition claim_in_progress_progress (self : ExitClaimInProgressState) : P ExitState.t :=
  tip ← map_err_m from_exit_error tip_height;
  status ← map_err_m from_exit_error (tx_status (cip_claim_txid self));
  match status with
  | TxStatus.Confirmed block => mret (ExitState.new_claimed tip (cip_claim_txid self) block)
  | TxStatus.Mempool => mret (ExitState.ClaimInProgress self)
  | TxStatus.NotFound => mret (ExitState.new_claimable tip (cip_claimable_since self) None)
  end.

(** [ExitState::progress]. *)
Definition state_progress (ctx : ProgressContext) (state : ExitState.t) : P ExitState.t :=
  match state with
  | ExitState.Start tip_height => start_progress ctx tip_height
  | ExitState.Processing s => processing_progress ctx s
  | ExitState.AwaitingDelta s => awaiting_delta_progress ctx s
  | ExitState.Claimable s => claimable_progress ctx s
  | ExitState.ClaimInProgress s => claim_in_progress_progress s
  | ExitState.Claimed s => mret (ExitState.Claimed s)
  end.
End Progress.
