(* ===== verification/ExitVtxo.v ===== *)
(** * One exit and the exit system (bark/src/exit/vtxo.rs, bark/src/exit/mod.rs)

    [ExitVtxo] keeps the state of one exit with its history and persists every
    change; [Exit] drives all exits of a wallet. *)
From stdpp Require Import gmap.
From S2P Require Import Prelude Effects Bitcoin Policy Vtxo ChainSource ExitStates Persist ExitManager ExitProgress.

Open Scope Z_scope.

(** ** bark/src/exit/vtxo.rs *)
Definition stored_exit_new (e : ExitVtxo) : StoredExit := mkStoredExit (ev_vtxo_id e) (ev_state e) (ev_history e).

Definition exit_vtxo_new `{B : Bitcoin} (vtxo : Vtxo) (tip : Z) : ExitVtxo :=
  mkExitVtxo (vtxo_id vtxo) (amount vtxo) (ExitState.new_start tip) [] None.

Definition from_entry `{B : Bitcoin} {E} (entry : StoredExit) (vtxo : Vtxo) : outcome E ExitVtxo :=
  _ ← assert (bool_decide (se_vtxo_id entry = vtxo_id vtxo));
  Ok (mkExitVtxo (se_vtxo_id entry) (amount vtxo) (se_state entry) (se_history entry) None).

Definition is_claimable (e : ExitVtxo) : bool :=
  match ev_state e with ExitState.Claimable _ => true | _ => false end.

Definition is_initialized (e : ExitVtxo) : bool := bool_decide (is_Some (ev_txids e)).

Definition set_txids (txids : list bytes) (e : ExitVtxo) : ExitVtxo :=
  mkExitVtxo (ev_vtxo_id e) (ev_amount e) (ev_state e) (ev_history e) (Some txids).

(** The history grows by the old state. *)
Definition push_state (new : ExitState.t) (e : ExitVtxo) : ExitVtxo :=
  mkExitVtxo (ev_vtxo_id e) (ev_amount e) new (ev_history e ++ [ev_state e]) (ev_txids e).

Section ExitVtxo.
Context `{B : Bitcoin} {net wallet db : Type}.
Context `{!ChainSource net, !OnchainWallet wallet, !Persister db} {F : Fees}.

Notation W := (World net wallet db).
Notation X := (M W ExitError.t).
Notation V := (M (ExitVtxo * W) ExitError.t).

(** Whether messages of level trace are logged: the arguments of the message
    are evaluated only then. *)
Context (trace_enabled : bool).

Definition on_world {E A} (m : M W E A) : M (ExitVtxo * W) E A := zoom snd (fun w s => (s.1, w)) m.
Definition on_exit {E} (f : ExitVtxo -> ExitVtxo) : M (ExitVtxo * W) E unit := modify (fun s => (f s.1, s.2)).

Definition get_vtxo (id : bytes) : X WalletVtxo :=
  o ← on_db ExitError.InvalidWalletState (get_wallet_vtxo id);
  lift (ok_or o (ExitError.InternalError "VTXO for exit couldn't be found")).

Definition initialize : V unit :=
  e ← gets fst;
  vtxo ← on_world (get_vtxo (ev_vtxo_id e));
  txids ← on_world (track_vtxo_exits (wv_vtxo vtxo));
  on_exit (set_txids txids).

Definition persist : V unit :=
  e ← gets fst;
  on_world (on_db (ExitError.DatabaseVtxoStoreFailure (ev_vtxo_id e))
              (store_exit_vtxo_entry (stored_exit_new e))).

Definition update_state_if_newer (new : ExitState.t) : V unit :=
  e ← gets fst;
  if bool_decide (new = ev_state e) then mret tt
  else _ ← on_exit (push_state new); persist.

(** [trace!("..", chain_source.tip().await.unwrap())]. *)
Definition trace_tip : V unit :=
  if trace_enabled then
    r ← try_m (on_world (on_net ExitError.TipRetrievalFailure chain_tip));
    match r with inr _ => mret tt | inl _ => lift Panic end
  else mret tt.

(** The loop of [progress]; running out of iterations is a debug assertion. *)
Fixpoint progress_loop (fuel : nat) (vtxo : Vtxo) (txids : list bytes) (fee_rate_override : option Z)
    (continue_until_finished : bool) : V unit :=
  match fuel with
  | O => lift Panic
  | S fuel' =>
      w ← gets snd;
      let fee_rate := default (fast (fee_rates (w_net w))) fee_rate_override in
      let context := mkContext vtxo txids fee_rate in
      _ ← trace_tip;
      e ← gets fst;
      r ← try_m (on_world (state_progress context (ev_state e)));
      match r with
      | inr new_state =>
          _ ← update_state_if_newer new_state;
          if negb continue_until_finished then mret tt
          else
            e ← gets fst;
            match from_exit_state (ev_state e) with
            | Continue => progress_loop fuel' vtxo txids fee_rate_override continue_until_finished
            | Done => mret tt
            end
      | inl err =>
          _ ← (match pe_state err with
               | Some new_state => update_state_if_newer new_state
               | None => mret tt
               end);
          throw (pe_error err)
      end
  end.

Definition exit_progress (fee_rate_override : option Z) (continue_until_finished : bool) : V unit :=
  e ← gets fst;
  txids ← lift (ok_or (ev_txids e) (ExitError.InternalError "Unilateral exit not yet initialized"));
  wallet_vtxo ← on_world (get_vtxo (ev_vtxo_id e));
  progress_loop MAX_ITERATIONS (wv_vtxo wallet_vtxo) txids fee_rate_override continue_until_finished.

(** ** bark/src/exit/mod.rs

    The exits of the wallet together with the rest of the world. *)
Notation S' := (list ExitVtxo * W)%type.

(** Run code of one exit, in its position. *)
Definition at_exit {E A} (i : nat) (m : M (ExitVtxo * W) E A) : M S' E (option A) := fun s =>
  match s.1 !! i with
  | None => (Ok None, s)
  | Some e =>
      let r := m (e, s.2) in
      (match r.1 with Ok a => Ok (Some a) | Err x => Err x | Panic => Panic end, (<[i := r.2.1]> s.1, r.2.2))
  end.

Definition on_all {E A} (m : M W E A) : M S' E A := zoom snd (fun w s => (s.1, w)) m.

Definition get_exit_vtxo (exits : list ExitVtxo) (vtxo_id : bytes) : option ExitVtxo :=
  snd <$> list_find (fun ev => ev_vtxo_id ev = vtxo_id) exits.

Definition has_pending_exits (exits : list ExitVtxo) : bool :=
  existsb (fun ev => ExitState.is_pending (ev_state ev)) exits.

Definition pending_total {E} (exits : list ExitVtxo) : outcome E Z :=
  amount_sum (omap (fun ev => if ExitState.is_pending (ev_state ev) then Some (ev_amount ev) else None) exits).

(** [None] when one exit has no claimable height; claimed exits do not count. *)
Fixpoint claimable_at (highest : option Z) (exits : list ExitVtxo) : option Z :=
  match exits with
  | [] => highest
  | exit :: rest =>
      match ev_state exit with
      | ExitState.Claimed _ => claimable_at highest rest
      | s =>
          match ExitState.claimable_height s with
          | Some h => claimable_at (Some (match highest with Some h' => Z.max h' h | None => h end)) rest
          | None => None
          end
      end
  end.

Definition all_claimable_at_height (exits : list ExitVtxo) : option Z := claimable_at None exits.

Definition list_claimable (exits : list ExitVtxo) : list ExitVtxo :=
  List.filter is_claimable exits.

(** An exit is pushed once it is initialized. *)
Definition push_initialized (exit : ExitVtxo) : M S' ExitError.t unit := fun s =>
  match initialize (exit, s.2) with
  | (Ok _, (exit', w)) => (Ok tt, (s.1 ++ [exit'], w))
  | (Err e, (_, w)) => (Err e, (s.1, w))
  | (Panic, (_, w)) => (Panic, (s.1, w))
  end.

(** [load]: the entries of the database whose VTXO is known. *)
Definition load : M S' ExitError.t unit :=
  entries ← on_all (on_db ExitError.InvalidWalletState get_exit_vtxo_entries);
  forM_ entries (fun entry =>
    o ← on_all (on_db ExitError.InvalidWalletState (get_wallet_vtxo (se_vtxo_id entry)));
    match o with
    | Some vtxo =>
        exit ← lift (from_entry entry (wv_vtxo vtxo));
        push_initialized exit
    | None => mret tt
    end).

(** [start_exit_for_vtxos]; [register_movement] is the call that registers the
    movement with the movement manager.  Errors of the database, which the
    source reports through [anyhow], are [InvalidWalletState] here. *)
Definition start_exit_for_vtxo (register_movement : Vtxo -> X unit) (tip : Z) (vtxo : Vtxo)
  : M S' ExitError.t unit :=
  exits ← gets fst;
  if existsb (fun ev => bool_decide (ev_vtxo_id ev = vtxo_id vtxo)) exits then mret tt
  else
    let exit := exit_vtxo_new vtxo tip in
    _ ← on_all (on_db ExitError.InvalidWalletState (store_exit_vtxo_entry (stored_exit_new exit)));
    _ ← on_all (on_db ExitError.InvalidWalletState
                  (update_vtxo_state_checked (vtxo_id vtxo) VtxoState.Spent UNSPENT_STATES));
    _ ← modify (fun s => (s.1 ++ [exit], s.2));
    on_all (register_movement vtxo).

Definition start_exit_for_vtxos (register_movement : Vtxo -> X unit) (vtxos : list Vtxo)
  : M S' ExitError.t unit :=
  match vtxos with
  | [] => mret tt
  | _ =>
      tip ← on_all (on_net ExitError.TipRetrievalFailure chain_tip);
      forM_ vtxos (start_exit_for_vtxo register_movement tip)
  end.

Definition start_exit_for_entire_wallet (register_movement : Vtxo -> X unit) : M S' ExitError.t unit :=
  vtxos ← on_all (on_db ExitError.InvalidWalletState (get_vtxos_by_state UNSPENT_STATES));
  start_exit_for_vtxos register_movement (wv_vtxo <$> vtxos).

Definition dangerous_clear_exit : M S' ExitError.t unit :=
  exits ← gets fst;
  _ ← forM_ exits (fun exit => on_all (on_db ExitError.InvalidWalletState (remove_exit_vtxo_entry (ev_vtxo_id exit))));
  modify (fun s => ([], s.2)).

(** [progress_exits]: the error of one exit does not stop the others. *)
Definition progress_one (fee_rate_override : option Z) (i : nat) : M S' ExitError.t (option (bytes * ExitState.t * option ExitError.t)) :=
  s ← gets (fun s => s.1 !! i);
  match s with
  | None => mret None
  | Some ev =>
      if negb (is_initialized ev) then mret None
      else
        r ← try_m (at_exit i (exit_progress fee_rate_override true));
        let error := match (r : ExitError.t + option unit) with inl e => Some e | inr _ => None end in
        s' ← gets (fun s => s.1 !! i);
        mret (match s' with
              | Some ev' =>
                  match ev_state ev' with
                  | ExitState.Claimed _ => None
                  | st => Some (ev_vtxo_id ev', st, error)
                  end
              | None => None
              end)
  end.

Definition progress_exits (fee_rate_override : option Z)
  : M S' ExitError.t (list (bytes * ExitState.t * option ExitError.t)) :=
  n ← gets (fun s => length s.1);
  foldM (fun acc i => r ← progress_one fee_rate_override i; mret (acc ++ option_list r)) [] (seq 0 n).

Definition sync_no_progress (keys : gmap bytes TxStatus.t -> list bytes) : M S' ExitError.t unit :=
  n ← gets (fun s => length s.1);
  _ ← forM_ (seq 0 n) (fun i =>
    s ← gets (fun s => s.1 !! i);
    match s with
    | Some ev =>
        if is_initialized ev then mret tt
        else _ ← try_m (F := ExitError.t) (E := ExitError.t) (at_exit i initialize); mret tt
    | None => mret tt
    end);
  on_all (mgr_sync keys).

Definition exit_sync (keys : gmap bytes TxStatus.t -> list bytes) : M S' ExitError.t unit :=
  _ ← sync_no_progress keys;
  n ← gets (fun s => length s.1);
  forM_ (seq 0 n) (fun i =>
    s ← gets (fun s => s.1 !! i);
    match s with
    | Some ev =>
        if ExitState.requires_network_update (ev_state ev) then
          _ ← try_m (F := ExitError.t) (E := ExitError.t) (at_exit i (exit_progress None false)); mret tt
        else mret tt
    | None => mret tt
    end).
End ExitVtxo.
