(* ===== verification/ExitSample.v ===== *)
(** * A small outside world

    Executable instances of the interfaces of the exit code: a network that
    knows its tip and the status of transactions, an on-chain wallet that can
    pay for children or already has them confirmed, and fixed weights.  They
    satisfy the laws and serve as concrete inputs. *)
From stdpp Require Import gmap.
From S2P Require Import Prelude Effects Bitcoin Concrete Policy Vtxo ChainSource ExitStates Persist ExitManager ExitProgress ExitVtxo.

Open Scope Z_scope.

Record Net := mkNet {
  n_tip : option Z;
  n_status : gmap bytes TxStatus.t;
  n_spends : gmap OutPoint (bytes * TxStatus.t);
  n_fee : Z;
}.

Definition net_set_status (txs : list Transaction) (st : TxStatus.t) (n : Net) : Net :=
  mkNet (n_tip n) (foldl (fun m tx => <[compute_txid (Bitcoin := model) tx := st]> m) (n_status n) txs)
    (n_spends n) (n_fee n).

#[export] Instance net_source : ChainSource Net := {
  fee_rates n := mkFeeRates (n_fee n) (n_fee n) (n_fee n);
  chain_tip n := (match n_tip n with Some t => inr t | None => inl "no connection"%string end, n);
  block_ref h n := (inr (mkBlockRef h []), n);
  chain_tx_status txid n := (inr (default TxStatus.NotFound (n_status n !! txid)), n);
  txs_spending_inputs ps h n :=
    (inr (filter (fun kv : OutPoint * (bytes * TxStatus.t) => kv.2.2 <> TxStatus.NotFound) (n_spends n)), n);
  get_tx txid n := (inr None, n);
  mempool_ancestor_info txid n := (inr (mkAncestorInfo txid 0 1), n);
  broadcast_txs txs n := (inr tt, net_set_status txs TxStatus.Mempool n);
}.

#[export] Instance net_laws : ChainSourceLaws Net.
Proof.
  split.
  - intros h s b. cbn. by intros [= <-].
  - intros ps h s m p txid. cbn. intros [= <-] Hm. apply map_lookup_filter_Some in Hm as [_ Hm]. by cbn in Hm.
Qed.

(** A wallet with a balance that has already confirmed all children in a block,
    if one is given. *)
Record Purse := mkPurse { pu_balance : Z; pu_confirmed : option BlockRef }.

Definition cpfp_tx (p : OutPoint) : Transaction := mkTx 3 0 [mkTxIn p [] 0 []] [].

#[export] Instance purse_wallet : OnchainWallet Purse := {
  get_balance := pu_balance;
  get_spending_tx w p := (fun _ => cpfp_tx p) <$> pu_confirmed w;
  get_wallet_tx_confirmed_block w _ := inr (pu_confirmed w);
  make_signed_p2a_cpfp tx fees w :=
    (match tx_fee_anchor (B := model) tx with Some p => inr (cpfp_tx p) | None => inl (NoFeeAnchor []) end, w);
  store_signed_p2a_cpfp tx w := (inr tt, w);
}.

#[export] Instance flat_fees : Fees := { tx_weight _ := 400; fee_for_weight rate weight := rate * weight / 1000 }.

Abbreviation SampleWorld := (World Net Purse (Sqlite (B := model))).

(** The sample VTXO with the outpoint its exit transactions lead to. *)
Definition exiting_vtxo : Vtxo (B := model) :=
  mkVtxo (B := model) (policy sample_vtxo) (amount sample_vtxo) (expiry_height sample_vtxo)
    (server_pubkey sample_vtxo) (exit_delta sample_vtxo) (anchor_point sample_vtxo) (genesis sample_vtxo)
    (match last sample_txs with
     | Some (tx, idx) => mkOutPoint (compute_txid (Bitcoin := model) tx) idx
     | None => null_outpoint
     end).

Definition sample_store (st : VtxoState.t) (exits : gmap bytes StoredExit) (faults : list bool) : Sqlite (B := model) :=
  mkSqlite (B := model) {[ vtxo_id exiting_vtxo := (exiting_vtxo, st, []) ]} exits ∅ faults.

(** A network at height [tip], and a wallet that confirmed its children in
    [confirmed]. *)
Definition sample_world (tip : Z) (confirmed : option BlockRef) (d : Sqlite (B := model)) (m : ExitTransactionManager)
  : SampleWorld :=
  mkWorld (mkNet (Some tip) {[ op_txid (anchor_point exiting_vtxo) := TxStatus.Confirmed (mkBlockRef 10 []) ]} ∅ 1)
    (mkPurse 100000 confirmed) d m.

(** ** A complete exit

    The exit is requested at height 100 with children confirmed in block 90,
    and progressed again at height 300. *)
Definition life_start : ExitVtxo * SampleWorld :=
  (exit_vtxo_new exiting_vtxo 100,
   sample_world 100 (Some (mkBlockRef 90 [])) (sample_store VtxoState.Spent ∅ []) manager_new).

Definition life_initialized : outcome ExitError.t unit * (ExitVtxo * SampleWorld) := initialize (B := model) life_start.

Definition life_confirmed : outcome ExitError.t unit * (ExitVtxo * SampleWorld) :=
  exit_progress (B := model) false None true life_initialized.2.

Definition later (tip : Z) (s : ExitVtxo * SampleWorld) : ExitVtxo * SampleWorld :=
  (s.1, sample_world tip None (w_db s.2) (w_mgr s.2)).

Definition life_claimable : outcome ExitError.t unit * (ExitVtxo * SampleWorld) :=
  exit_progress (B := model) false None true (later 300 life_confirmed.2).
