(* ===== verification/ExitSafety.v ===== *)
(** * Safety of unilateral exits

    [exit_step] is the state machine an exit is meant to follow, with the
    conditions under which each transition is allowed.  Every state that
    [ExitState::progress] returns, also along with an error, follows it, for
    every behaviour of the network, the wallet and the database; so does the
    recorded history of an exit.  The relative timelock of the output is
    therefore always waited for before an exit is offered for claiming. *)
From stdpp Require Import gmap.
From S2P Require Import Prelude Effects Bitcoin Concrete Policy Vtxo ChainSource ExitStates Persist ExitManager ExitProgress ExitVtxo ExitSample.

Open Scope Z_scope.

(** All transactions are confirmed, the last of them in [b]. *)
Definition all_confirmed_by (ts : list ExitTx) (b : BlockRef) : Prop :=
  (exists t, t ∈ ts /\ ExitTxStatus.confirmed_in (et_status t) = Some b) /\
  forall t, t ∈ ts -> exists b', ExitTxStatus.confirmed_in (et_status t) = Some b' /\ height b' <= height b.

Inductive exit_step (delta : Z) (txids : list bytes) : ExitState.t -> ExitState.t -> Prop :=
  | step_start t tip :
      exit_step delta txids (ExitState.Start t) (ExitState.new_processing tip txids)
  | step_processing t ts t' ts' :
      et_txid <$> ts' = et_txid <$> ts ->
      exit_step delta txids (ExitState.Processing (mkProcessing t ts)) (ExitState.Processing (mkProcessing t' ts'))
  | step_confirmed t ts ts' tip b :
      et_txid <$> ts' = et_txid <$> ts ->
      all_confirmed_by ts' b ->
      exit_step delta txids (ExitState.Processing (mkProcessing t ts))
        (ExitState.AwaitingDelta (mkAwaitingDelta tip b (height b + delta)))
  | step_reorg a tip :
      exit_step delta txids (ExitState.AwaitingDelta a) (ExitState.new_processing tip txids)
  | step_claimable a tip b :
      ad_claimable_height a <= tip ->
      height b = ad_claimable_height a ->
      exit_step delta txids (ExitState.AwaitingDelta a) (ExitState.new_claimable tip b None)
  | step_rescan c tip b scanned :
      height b = height (cl_claimable_since c) ->
      exit_step delta txids (ExitState.Claimable c) (ExitState.new_claimable tip b scanned)
  | step_claim_seen c tip txid :
      exit_step delta txids (ExitState.Claimable c)
        (ExitState.new_claim_in_progress tip (cl_claimable_since c) txid)
  | step_claim_found c tip txid b :
      exit_step delta txids (ExitState.Claimable c) (ExitState.new_claimed tip txid b)
  | step_claim_dropped p tip :
      exit_step delta txids (ExitState.ClaimInProgress p)
        (ExitState.new_claimable tip (cip_claimable_since p) None)
  | step_claim_confirmed p tip b :
      exit_step delta txids (ExitState.ClaimInProgress p) (ExitState.new_claimed tip (cip_claim_txid p) b).

#[export] Hint Constructors exit_step : exits.

(** ** Confirmed transactions *)
Lemma max_block_spec (l : list BlockRef) b : max_block l = Some b ->
  b ∈ l /\ forall b', b' ∈ l -> height b' <= height b.
Proof.
  unfold max_block. revert b. induction l as [|x l IH] using rev_ind; intros b; [done|].
  rewrite foldl_app. cbn [foldl]. destruct (foldl _ None l) as [a|] eqn:Ha.
  - destruct (IH a eq_refl) as [Hin Hmax]. destruct (Z.leb_spec (height a) (height x)) as [Hle|Hlt]; intros [= <-].
    + split; [set_solver|]. intros b' [H| ->%list_elem_of_singleton]%elem_of_app; [|lia]. specialize (Hmax b' H). lia.
    + split; [set_solver|]. intros b' [H| ->%list_elem_of_singleton]%elem_of_app; [by apply Hmax|lia].
  - intros [= <-]. destruct l as [|y l _] using rev_ind.
    + split; [set_solver|]. intros b' H. apply list_elem_of_singleton in H as ->. lia.
    + rewrite foldl_app in Ha. cbn in Ha. destruct (foldl _ None l) as [a|]; [destruct (_ <=? _)|]; done.
Qed.

Lemma count_confirmed_all ts : count_confirmed ts = length ts ->
  forall t, t ∈ ts -> exists b, ExitTxStatus.confirmed_in (et_status t) = Some b.
Proof.
  unfold count_confirmed. induction ts as [|x ts IH]; intros H t Hin; [set_solver|].
  cbn [List.filter length] in H. pose proof (List.filter_length_le (fun t => is_confirmed (et_status t)) ts).
  destruct (et_status x) eqn:Hx; cbn in H; try lia.
  apply elem_of_cons in Hin as [->|Hin]; [rewrite Hx; by eexists|]. apply IH; [lia|done].
Qed.

Lemma confirmed_by_max ts b : count_confirmed ts = length ts ->
  max_block (omap (fun t => ExitTxStatus.confirmed_in (et_status t)) ts) = Some b -> all_confirmed_by ts b.
Proof.
  intros Hall [Hin Hmax]%max_block_spec. apply list_elem_of_omap in Hin as (t & Ht & Hb).
  split; [by exists t|]. intros t' Ht'. destruct (count_confirmed_all ts Hall t' Ht') as [b' Hb'].
  exists b'. split; [done|]. apply Hmax, list_elem_of_omap. by exists t'.
Qed.

Section Safety.
Context `{B : Bitcoin} {net wallet db : Type}.
Context `{!ChainSource net, !OnchainWallet wallet, !Persister db, !ChainSourceLaws net} {F : Fees}.

Notation W := (World net wallet db).

(** What a call of [progress] in state [s] may return. *)
Definition step_post (delta : Z) (txids : list bytes) (s : ExitState.t)
    (r : outcome ExitProgressError ExitState.t) (_ : W) : Prop :=
  match r with
  | Ok s' => s' = s \/ exit_step delta txids s s'
  | Err e => forall s', pe_state e = Some s' -> exit_step delta txids s s'
  | Panic => True
  end.

Lemma wp_call {A} (m : M W ExitError.t A) (f : A -> M W ExitProgressError ExitState.t) delta txids s w :
  (forall a w', m w = (Ok a, w') -> wp (f a) (step_post delta txids s) w') ->
  wp (map_err_m from_exit_error m ≫= f) (step_post delta txids s) w.
Proof.
  intros H. apply wp_bind. unfold wp, map_err_m, and_then. destruct (m w) as [[a|e|] w'] eqn:Hm; cbn; [|done..].
  by apply H.
Qed.

Lemma wp_pure {A} (m : outcome ExitProgressError A) (f : A -> M W ExitProgressError ExitState.t) delta txids s w :
  (forall e, m = Err e -> pe_state e = None) ->
  (forall a, m = Ok a -> wp (f a) (step_post delta txids s) w) ->
  wp (lift m ≫= f) (step_post delta txids s) w.
Proof.
  intros He Hf. apply wp_bind, wp_lift. destruct m as [a|e|]; cbn; [by apply Hf| |done].
  intros s' Hs. by rewrite (He e eq_refl) in Hs.
Qed.

Lemma get_block_ref_height h (w : W) b w' : get_block_ref h w = (Ok b, w') -> height b = h.
Proof.
  unfold get_block_ref, on_net, zoom, map_err_m, call. cbn.
  destruct (block_ref h (w_net w)) as [[e|b'] n] eqn:E; cbn; intros [= <- _].
  eapply block_ref_height. by rewrite E.
Qed.

Lemma process_txs_txids ctx tip original done todo (w : W) :
  et_txid <$> original = et_txid <$> (done ++ todo) ->
  wp (process_txs ctx tip original done todo) (fun r _ =>
    match r with
    | Ok ts => et_txid <$> ts = et_txid <$> original
    | Err e => forall s', pe_state e = Some s' -> exists ts,
        s' = ExitState.Processing (mkProcessing tip ts) /\ et_txid <$> ts = et_txid <$> original
    | Panic => True
    end) w.
Proof.
  revert done w. induction todo as [|exit rest IH]; intros done w Heq; cbn [process_txs].
  - apply wp_ret. by rewrite app_nil_r in Heq.
  - apply wp_bind. unfold wp at 1, try_m, and_then. destruct (progress_exit_tx ctx exit w).1 as [st|e|] eqn:Hr; cbn.
    + apply IH. rewrite Heq, <- app_assoc, !fmap_app. done.
    + intros s'. case_bool_decide; [done|]. intros [= <-]. eexists. split; [done|]. by rewrite Heq.
    + done.
Qed.

Lemma start_progress_step ctx t (w : W) :
  wp (start_progress ctx t) (step_post (exit_delta (ctx_vtxo ctx)) (ctx_exit_txids ctx) (ExitState.Start t)) w.
Proof.
  unfold start_progress. apply wp_pure; [unfold ensure; intros e; by destruct (negb _); intros [= <-]|intros _ _].
  apply wp_pure; [by intros e; destruct (estimate_exit_cost _ _)|intros fee _].
  apply wp_bind, wp_gets. cbn.
  apply wp_pure; [unfold ensure; intros e; by destruct (negb _); intros [= <-]|intros _ _].
  apply wp_bind. unfold wp at 1, try_m, and_then.
  destruct (on_net ExitError.TipRetrievalFailure chain_tip w).1; cbn; [right; constructor..|done].
Qed.

Lemma processing_progress_step ctx s (w : W) :
  wp (processing_progress ctx s)
    (step_post (exit_delta (ctx_vtxo ctx)) (ctx_exit_txids ctx) (ExitState.Processing s)) w.
Proof.
  destruct s as [t ts]. unfold processing_progress. apply wp_pure; [intros e; by unfold assert; destruct (bool_decide _)|intros _ _].
  apply wp_call. intros tip w' _. apply wp_bind.
  eapply wp_mono; [by apply process_txs_txids|]. intros [ts'|e|] w'' Hts; cbn in *; [| |done].
  - repeat case_bool_decide.
    + apply wp_pure; [intros e; by destruct (max_block _)|]. intros b [= Hb]%expect_Ok.
      apply wp_lift. unfold ExitState.new_awaiting_delta, assert, u_add.
      destruct (negb _); cbn; [|done]. destruct (in_width _ _); cbn; [|done]. right.
      eapply step_confirmed; [exact Hts|]. by apply confirmed_by_max.
    + apply wp_ret. left. congruence.
    + apply wp_ret. right. by constructor.
  - intros s' (ts' & -> & Heq)%Hts. by constructor.
Qed.

Lemma awaiting_delta_progress_step ctx s (w : W) :
  wp (awaiting_delta_progress ctx s)
    (step_post (exit_delta (ctx_vtxo ctx)) (ctx_exit_txids ctx) (ExitState.AwaitingDelta s)) w.
Proof.
  unfold awaiting_delta_progress. apply wp_call. intros tip w1 _. apply wp_call. intros c w2 _.
  destruct c; cbn [negb]; [|apply wp_ret; right; constructor].
  destruct (Z.leb_spec (ad_claimable_height s) tip); [|apply wp_ret; by left].
  apply wp_call. intros b w3 Hb%get_block_ref_height. apply wp_ret. right. by constructor.
Qed.

Lemma claimable_progress_step ctx s (w : W) :
  wp (claimable_progress ctx s)
    (step_post (exit_delta (ctx_vtxo ctx)) (ctx_exit_txids ctx) (ExitState.Claimable s)) w.
Proof.
  unfold claimable_progress. apply wp_call. intros tip w1 _. apply wp_call. intros b w2 Hb%get_block_ref_height.
  case_bool_decide; cbn [negb]; [|apply wp_ret; right; by constructor].
  apply wp_bind.
  set (Q := and_then _ _). assert (forall h w, Q (Ok h) w) as HQ.
  { intros h w3. subst Q. cbn. apply wp_call. intros m w4 _.
    destruct (m !! _) as [[txid [b'| |]]|]; [apply wp_ret; right; constructor..|by apply wp_lift|].
    apply wp_call. intros tb w5 _. apply wp_ret. right. by constructor. }
  destruct (cl_last_scanned_block s) as [lb|]; [|by apply wp_ret].
  apply wp_bind. unfold wp at 1, map_err_m. destruct (get_block_ref (height lb) w2) as [[b'|e|] w3]; cbn; [|done..].
  apply HQ.
Qed.

Lemma claim_in_progress_step delta txids s (w : W) :
  wp (claim_in_progress_progress s) (step_post delta txids (ExitState.ClaimInProgress s)) w.
Proof.
  unfold claim_in_progress_progress. apply wp_call. intros tip w1 _. apply wp_call. intros st w2 _.
  destruct st; apply wp_ret; [right; constructor|by left|right; constructor].
Qed.

Lemma state_progress_step ctx s (w : W) :
  wp (state_progress ctx s) (step_post (exit_delta (ctx_vtxo ctx)) (ctx_exit_txids ctx) s) w.
Proof.
  destruct s; cbn [state_progress];
    auto using start_progress_step, processing_progress_step, awaiting_delta_progress_step,
      claimable_progress_step, claim_in_progress_step.
  apply wp_ret. by left.
Qed.

(** ** The history of an exit *)

(** One recorded transition. *)
Definition advances (delta : Z) (txids : list bytes) : relation ExitVtxo := fun e e' =>
  exists new, exit_step delta txids (ev_state e) new /\ e' = push_state new e.

Lemma wp_on_world {A} (m : M W ExitError.t A) (Q : outcome ExitError.t A -> ExitVtxo * W -> Prop) e w :
  (forall r w', m w = (r, w') -> Q r (e, w')) -> wp (on_world m) Q (e, w).
Proof. intros H. unfold wp, on_world, zoom. cbn. apply H. by destruct (m w). Qed.

Lemma update_state_advances delta txids new e (w : W) :
  new = ev_state e \/ exit_step delta txids (ev_state e) new ->
  wp (update_state_if_newer new) (fun _ s => rtc (advances delta txids) e s.1) (e, w).
Proof.
  intros H. unfold update_state_if_newer. apply wp_bind, wp_gets. cbn.
  case_bool_decide; [apply wp_ret; cbn; done|]. destruct H as [|H]; [done|].
  apply wp_bind. unfold on_exit. apply wp_modify. cbn. unfold persist. apply wp_bind, wp_gets. cbn.
  apply wp_on_world. intros r w' _. apply rtc_once. by exists new.
Qed.

Lemma progress_loop_advances trace fuel vtxo txids fee cont e (w : W) :
  wp (progress_loop trace fuel vtxo txids fee cont) (fun _ s => rtc (advances (exit_delta vtxo) txids) e s.1) (e, w).
Proof.
  revert e w. induction fuel as [|fuel IH]; intros e w; [by apply wp_lift|]. cbn [progress_loop].
  apply wp_bind, wp_gets. cbn. apply wp_bind.
  assert (Htr : wp (trace_tip trace) (fun _ s => s.1 = e) (e, w)).
  { unfold trace_tip. destruct trace; [|by apply wp_ret]. apply wp_bind. unfold wp at 1, try_m, on_world, zoom. cbn.
    destruct (chain_tip (w_net w)) as [[] n]; cbn; [by apply wp_lift|by apply wp_ret]. }
  eapply wp_mono; [exact Htr|]. intros [[]|err|] [e' w1] He; cbn in He; subst e'; cbn; [|done..].
  apply wp_bind, wp_gets. cbn. apply wp_bind. unfold wp at 1, try_m, on_world, zoom. cbn.
  set (ctx := mkContext _ _ _). pose proof (state_progress_step ctx (ev_state e) w1) as Hst.
  unfold wp in Hst. destruct (state_progress ctx (ev_state e) w1) as [[new|err|] w2]; cbn in *; [| |done].
  - apply wp_bind. eapply wp_mono; [by apply update_state_advances|].
    intros [[]|err|] [e' w3] He; cbn in *; [|done..]. destruct (negb cont); [by apply wp_ret|].
    apply wp_bind, wp_gets. cbn. destruct (from_exit_state (ev_state e')); [|by apply wp_ret].
    eapply wp_mono; [apply IH|]. cbn. intros r s' He'. by etrans.
  - apply wp_bind. destruct (pe_state err) as [new|] eqn:Hnew; [|by apply wp_ret, wp_lift].
    eapply wp_mono; [eapply update_state_advances; right; by apply Hst|].
    intros [[]|err'|] [e' w3] He; done.
Qed.

(** ** Reachable exits

    The life of the exit of [v]: it is created, initialized, progressed any
    number of times in any worlds whose database holds [v], and reloaded from
    what was stored of it after a restart. *)
Definition knows (v : Vtxo) (w : W) : Prop := exists st, db_vtxos (w_db w) !! vtxo_id v = Some (mkWalletVtxo _ v st).

Inductive ev_step (v : Vtxo) : relation ExitVtxo :=
  | ev_initialize e w r e' w' :
      knows v w -> initialize (e, w) = (r, (e', w')) -> ev_step v e e'
  | ev_progress trace fee cont e w r e' w' :
      knows v w -> exit_progress trace fee cont (e, w) = (r, (e', w')) -> ev_step v e e'
  | ev_restart e e' :
      from_entry (E := ExitError.t) (stored_exit_new e) v = Ok e' -> ev_step v e e'.

Definition ev_reachable (v : Vtxo) (e : ExitVtxo) : Prop := exists tip, rtc (ev_step v) (exit_vtxo_new v tip) e.

Definition exit_txids (v : Vtxo) : list bytes :=
  match exit_txs (E := ExitError.t) v with Ok txs => compute_txid <$> txs | _ => [] end.

(** All states the exit went through, the current one last. *)
Definition trail (e : ExitVtxo) : list ExitState.t := ev_history e ++ [ev_state e].

Definition trail_ok (v : Vtxo) (l : list ExitState.t) : Prop :=
  (exists tip, head l = Some (ExitState.Start tip)) /\
  forall i a b, l !! i = Some a -> l !! S i = Some b -> exit_step (exit_delta v) (exit_txids v) a b.

(** The output can be claimed at height [h]: all exit transactions were seen
    confirmed, the last in [b], and the tip has reached the end of the
    relative timelock that starts there. *)
Definition matured (v : Vtxo) (h : Z) : Prop := exists tip b ts,
  h = height b + exit_delta v /\ h <= tip /\ et_txid <$> ts = exit_txids v /\ all_confirmed_by ts b.

Definition state_ok (v : Vtxo) (s : ExitState.t) : Prop :=
  match s with
  | ExitState.Start _ | ExitState.Claimed _ => True
  | ExitState.Processing p => et_txid <$> ps_transactions p = exit_txids v
  | ExitState.AwaitingDelta a => ad_claimable_height a = height (ad_confirmed_block a) + exit_delta v /\
      exists ts, et_txid <$> ts = exit_txids v /\ all_confirmed_by ts (ad_confirmed_block a)
  | ExitState.Claimable c => matured v (height (cl_claimable_since c))
  | ExitState.ClaimInProgress p => matured v (height (cip_claimable_since p))
  end.

Lemma state_ok_step v s s' : state_ok v s -> exit_step (exit_delta v) (exit_txids v) s s' -> state_ok v s'.
Proof.
  intros Hs Hstep. assert (Hn : forall tip, state_ok v (ExitState.new_processing tip (exit_txids v))).
  { intros tip. cbn. rewrite <- list_fmap_compose. apply list_fmap_id. }
  destruct Hstep; cbn in *; auto.
  - congruence.
  - split; [done|]. eexists. split; [|done]. congruence.
  - destruct Hs as (Hh & ts & Hts & Hc). exists tip, (ad_confirmed_block a), ts. split_and?; [lia|lia|done..].
  - by rewrite H.
Qed.

Record ev_inv (v : Vtxo) (e : ExitVtxo) : Prop := {
  inv_id : ev_vtxo_id e = vtxo_id v;
  inv_txids : forall l, ev_txids e = Some l -> l = exit_txids v;
  inv_state : state_ok v (ev_state e);
  inv_trail : trail_ok v (trail e);
}.

Lemma ev_inv_advances v e e' : ev_inv v e -> advances (exit_delta v) (exit_txids v) e e' -> ev_inv v e'.
Proof.
  intros [Hid Htx Hs [[tip Hhd] Htr]] (new & Hstep & ->).
  split; [done|done|by eapply state_ok_step|].
  assert (Heq : trail (push_state new e) = trail e ++ [new]) by done. rewrite Heq. split.
  - exists tip. destruct (trail e) eqn:E; [|done]. by destruct (ev_history e).
  - intros i a b Ha Hb. destruct (decide (S i < length (trail e))%nat) as [Hlt|Hge].
    { rewrite lookup_app_l in Ha by lia. rewrite lookup_app_l in Hb by lia. by eapply Htr. }
    apply lookup_lt_Some in Hb as Hi. rewrite length_app in Hi. cbn in Hi.
    rewrite lookup_app_r in Hb by lia. replace (S i - length (trail e))%nat with O in Hb by lia.
    injection Hb as <-. rewrite lookup_app_l in Ha by lia. unfold trail in *. rewrite length_app in *. cbn in *.
    rewrite lookup_app_r in Ha by lia. replace (i - length (ev_history e))%nat with O in Ha by lia.
    by injection Ha as <-.
Qed.

Lemma ev_inv_rtc v e e' : ev_inv v e -> rtc (advances (exit_delta v) (exit_txids v)) e e' -> ev_inv v e'.
Proof. intros H Hr. induction Hr; [done|]. eauto using ev_inv_advances. Qed.

(** Initialization tracks exactly the exit transactions of the VTXO. *)
Lemma track_vtxo_exits_txids v (w : W) :
  wp (track_vtxo_exits v) (fun r _ => forall l, r = Ok l -> l = exit_txids v) w.
Proof.
  unfold track_vtxo_exits, exit_txids. apply wp_bind, wp_lift. destruct (exit_txs v) as [txs|e|]; cbn; [|done..].
  assert (Hl : forall txs done (w : W),
    wp (foldM (fun txids tx => txid ← track_exit_tx tx; mret (txids ++ [txid])) done txs)
      (fun r _ => forall l, r = Ok l -> l = done ++ (compute_txid <$> txs)) w).
  { clear w txs. induction txs as [|tx txs IH]; intros done w; cbn [foldM].
    - apply wp_ret. intros l [= <-]. by rewrite app_nil_r.
    - apply wp_bind, wp_bind. eapply (wp_mono _ (fun r _ => forall id, r = Ok id -> id = compute_txid tx)).
      + unfold track_exit_tx. apply wp_bind, wp_gets. cbn. case_bool_decide; [apply wp_ret; by intros ? [= <-]|].
        unfold wp, mbind, M_bind. destruct (find_child_locally _ w) as [[c|e|] w1]; cbn; [|done..].
        destruct c; cbn; by intros ? [= <-].
      + intros [id|e|] w1 Hid; cbn; [|done..]. apply wp_ret. cbn. rewrite (Hid id eq_refl).
        eapply wp_mono; [apply IH|]. intros r w2 H l Hl. rewrite (H l Hl), <- app_assoc. done. }
  apply (Hl txs []).
Qed.

Context `{!PersisterLaws db}.

Lemma get_vtxo_knows v (w : W) wv w' : knows v w -> get_vtxo (vtxo_id v) w = (Ok wv, w') -> wv_vtxo wv = v.
Proof.
  intros [st Hst]. unfold get_vtxo, on_db, zoom, map_err_m, call, mbind, M_bind.
  pose proof (get_wallet_vtxo_db (vtxo_id v) (w_db w)) as (_ & _ & Hg). cbn.
  destruct (get_wallet_vtxo (vtxo_id v) (w_db w)) as [[e|o] d]; cbn in *; [done|].
  specialize (Hg o eq_refl). unfold VtxoId in Hst. rewrite Hst in Hg. subst o. cbn. by intros [= <- _].
Qed.

Lemma ev_step_inv v e e' : ev_inv v e -> ev_step v e e' -> ev_inv v e'.
Proof.
  intros Hinv Hstep. destruct Hstep as [e w r e' w' Hk Hrun|trace fee cont e w r e' w' Hk Hrun|e e' Hf].
  - refine (wp_run _ (fun _ s => ev_inv v s.1) _ _ _ Hrun _). unfold initialize. apply wp_bind, wp_gets. cbn.
    apply wp_bind, wp_on_world. intros [wv|err|] w1 Hg; cbn; [|done..]. rewrite (inv_id v e Hinv) in Hg.
    rewrite (get_vtxo_knows v w wv w1 Hk Hg). apply wp_bind, wp_on_world.
    intros [l|err|] w2 Ht; cbn; [|done..]. pose proof (wp_run _ _ _ _ _ Ht (track_vtxo_exits_txids v w1) l eq_refl) as ->.
    apply wp_modify. destruct Hinv. split; cbn; [done| |done..]. by intros ? [= <-].
  - refine (wp_run _ (fun _ s => ev_inv v s.1) _ _ _ Hrun _). unfold exit_progress. apply wp_bind, wp_gets. cbn.
    apply wp_bind, wp_lift. destruct (ev_txids e) as [txids|] eqn:Htx; cbn; [|done].
    apply wp_bind, wp_on_world. intros [wv|err|] w1 Hg; cbn; [|done..]. rewrite (inv_id v e Hinv) in Hg.
    rewrite (get_vtxo_knows v w wv w1 Hk Hg), (inv_txids v e Hinv _ Htx).
    eapply wp_mono; [apply progress_loop_advances|]. intros ? s Hs. by eapply ev_inv_rtc.
  - unfold from_entry, assert in Hf. case_bool_decide; cbn in Hf; [|done]. injection Hf as <-.
    destruct Hinv. by split.
Qed.

Lemma ev_reachable_inv v e : ev_reachable v e -> ev_inv v e.
Proof.
  intros [tip Hr]. assert (Hinv : ev_inv v (exit_vtxo_new v tip)).
  { split; cbn; [done..|]. split; [by exists tip|]. intros [|i] a b; cbn; [done|]. by destruct i. }
  revert Hinv. induction Hr; eauto using ev_step_inv.
Qed.

(** C28. Every exit the wallet can reach has only made legal transitions: its
    recorded history starts when the exit was requested and each state in it
    follows from the one before by a transition of the exit state machine,
    whatever the network, the on-chain wallet and the database answered. *)
Theorem exit_history_legal (v : Vtxo) (e : ExitVtxo) : ev_reachable v e -> trail_ok v (ev_history e ++ [ev_state e]).
Proof. intros H. apply (inv_trail v e), ev_reachable_inv, H. Qed.

End Safety.

(** ** A complete exit, step by step *)
Lemma run_at {A B' C : Type} (m : B' * C -> A * (B' * C)) (s : B' * C) :
  m (s.1, s.2) = ((m s).1, ((m s).2.1, (m s).2.2)).
Proof. rewrite <- surjective_pairing. by destruct (m s) as [? []]. Qed.

Lemma life_reachable : ev_reachable (B := model) exiting_vtxo life_claimable.2.1.
Proof.
  exists 100.
  assert (K1 : knows (B := model) exiting_vtxo life_start.2) by (exists VtxoState.Spent; vm_eq).
  assert (K2 : knows (B := model) exiting_vtxo life_initialized.2.2) by (exists VtxoState.Spent; vm_eq).
  assert (K3 : knows (B := model) exiting_vtxo (later 300 life_confirmed.2).2) by (exists VtxoState.Spent; vm_eq).
  apply (rtc_l _ life_start.1 life_initialized.2.1).
  { refine (ev_initialize exiting_vtxo life_start.1 life_start.2 life_initialized.1 _ life_initialized.2.2 K1 _).
    exact (run_at (initialize (B := model)) life_start). }
  apply (rtc_l _ life_initialized.2.1 life_confirmed.2.1).
  { refine (ev_progress exiting_vtxo false None true _ life_initialized.2.2 life_confirmed.1 _ life_confirmed.2.2 K2 _).
    exact (run_at (exit_progress (B := model) false None true) life_initialized.2). }
  apply (rtc_l _ life_confirmed.2.1 life_claimable.2.1); [|apply rtc_refl].
  refine (ev_progress exiting_vtxo false None true _ (later 300 life_confirmed.2).2 life_claimable.1 _ life_claimable.2.2 K3 _).
  exact (run_at (exit_progress (B := model) false None true) (later 300 life_confirmed.2)).
Qed.

Lemma exit_history_legal_witness :
  length (ev_history life_claimable.2.1) = 4%nat /\
  trail_ok (B := model) exiting_vtxo (ev_history life_claimable.2.1 ++ [ev_state life_claimable.2.1]).
Proof. split; [vm_compute; reflexivity|]. apply (exit_history_legal exiting_vtxo), life_reachable. Defined.

