(* ===== verification/ExitDurable.v ===== *)
(** * Durability of unilateral exits

    The database always holds what the wallet needs to resume an exit: progress
    keeps the stored entry equal to the exit in memory, unless storing it
    failed, which is reported.  Starting an exit stores its entry and marks the
    VTXO as spent in two steps; when the second fails, the entry of the first
    stays behind. *)
From stdpp Require Import gmap.
From S2P Require Import Prelude Effects Bitcoin Concrete Policy Vtxo ChainSource ExitStates Persist ExitManager ExitProgress ExitVtxo ExitSample.

Open Scope Z_scope.

Section Durable.
Context `{B : Bitcoin} {net wallet db : Type}.
Context `{!ChainSource net, !OnchainWallet wallet, !Persister db, !PersisterLaws db} {F : Fees}.

Notation W := (World net wallet db).

(** ** Code that leaves the tracked VTXOs and exits alone *)
Definition same_db : relation W := fun w w' =>
  db_exits (w_db w') = db_exits (w_db w) /\ db_vtxos (w_db w') = db_vtxos (w_db w).

#[export] Instance same_db_preorder : PreOrder same_db.
Proof. split; [by split|]. intros w1 w2 w3 [H1 H2] [H3 H4]. split; congruence. Qed.

Lemma keeps_on_net {E A} (f : string -> E) (c : ext net string A) : keeps same_db (on_net f c : M W E A).
Proof. by intros w. Qed.

Lemma keeps_on_wallet {E G A} (f : G -> E) (c : ext wallet G A) : keeps same_db (on_wallet f c : M W E A).
Proof. by intros w. Qed.

Lemma keeps_on_mgr {E} f : keeps same_db (on_mgr f : M W E unit).
Proof. by intros w. Qed.

Lemma keeps_get_wallet_vtxo {E} (f : string -> E) id : keeps same_db (on_db f (get_wallet_vtxo id) : M W E _).
Proof. intros w. destruct (get_wallet_vtxo_db id (w_db w)) as (? & ? & _). by split. Qed.

Lemma keeps_get_child {E} (f : string -> E) id : keeps same_db (on_db f (get_exit_child_tx id) : M W E _).
Proof. intros w. destruct (get_exit_child_tx_db id (w_db w)) as (? & ?). by split. Qed.

Lemma keeps_store_child {E} (f : string -> E) id tx o : keeps same_db (on_db f (store_exit_child_tx id tx o) : M W E _).
Proof. intros w. destruct (exit_child_tx_db id tx o (w_db w)) as (? & ?). by split. Qed.

#[local] Hint Resolve keeps_on_net keeps_on_wallet keeps_on_mgr keeps_get_wallet_vtxo keeps_get_child keeps_store_child : effects.

Lemma keeps_get_package id : keeps same_db (get_package id : M W _ _).
Proof. unfold get_package. solve_keeps. Qed.
Lemma keeps_read_package i : keeps same_db (read_package i : M W _ _).
Proof. unfold read_package. solve_keeps. Qed.
#[local] Hint Resolve keeps_get_package keeps_read_package : effects.

Lemma keeps_tx_status id : keeps same_db (tx_status id : M W _ _).
Proof. unfold tx_status, get_tx_status. solve_keeps. Qed.
#[local] Hint Resolve keeps_tx_status : effects.
Lemma keeps_check_confirmed id : keeps same_db (check_confirmed id : M W _ _).
Proof. unfold check_confirmed. solve_keeps. Qed.
Lemma keeps_broadcast p : keeps same_db (broadcast_package p : M W _ _).
Proof. unfold broadcast_package. solve_keeps. Qed.
Lemma keeps_set_child id tx o : keeps same_db (set_wallet_child_tx id tx o : M W _ _).
Proof. unfold set_wallet_child_tx. solve_keeps. Qed.
#[local] Hint Resolve keeps_check_confirmed keeps_broadcast keeps_set_child : effects.

Lemma keeps_check_inputs s : keeps same_db (check_status_from_inputs s : M W _ _).
Proof. unfold check_status_from_inputs. solve_keeps. Qed.
Lemma keeps_get_status ctx e : keeps same_db (get_exit_tx_status ctx e : M W _ _).
Proof. unfold get_exit_tx_status, get_child_status. solve_keeps. Qed.
#[local] Hint Resolve keeps_check_inputs keeps_get_status : effects.
Lemma keeps_get_child_st ctx e : keeps same_db (get_exit_child_status ctx e : M W _ _).
Proof. unfold get_exit_child_status, get_child_txid. solve_keeps. Qed.
Lemma keeps_make_child ctx e tx f : keeps same_db (make_child ctx e tx f : M W _ _).
Proof. unfold make_child, create_exit_cpfp_tx. solve_keeps. Qed.
#[local] Hint Resolve keeps_get_child_st keeps_make_child : effects.

Lemma keeps_progress_exit_tx ctx e : keeps same_db (progress_exit_tx ctx e : M W _ _).
Proof. unfold progress_exit_tx, get_unique_inputs. solve_keeps. Qed.
#[local] Hint Resolve keeps_progress_exit_tx : effects.

Lemma keeps_process_txs ctx tip orig done todo : keeps same_db (process_txs ctx tip orig done todo : M W _ _).
Proof. revert done. induction todo; intros done; cbn [process_txs]; solve_keeps. Qed.
#[local] Hint Resolve keeps_process_txs : effects.

Lemma keeps_state_progress ctx s : keeps same_db (state_progress ctx s : M W _ _).
Proof.
  destruct s as [t|s|s|s|s|s]; cbn [state_progress]; unfold start_progress, processing_progress, awaiting_delta_progress,
    claimable_progress, claim_in_progress_progress, tip_height, get_block_ref, infallible; solve_keeps.
Qed.

(** ** The stored entry of an exit *)
Definition synced (e : ExitVtxo) (w : W) : Prop :=
  db_exits (w_db w) !! ev_vtxo_id e = Some (stored_exit_new e).

(** Only the entry of [id] may differ. *)
Definition frame (id : bytes) : relation W := fun w w' =>
  db_vtxos (w_db w') = db_vtxos (w_db w) /\
  forall id', id' <> id -> db_exits (w_db w') !! id' = db_exits (w_db w) !! id'.

#[export] Instance frame_preorder id : PreOrder (frame id).
Proof.
  split; [by split|]. intros w1 w2 w3 [H1 H2] [H3 H4]. split; [congruence|]. intros id' Hne.
  rewrite (H4 id' Hne). auto.
Qed.

Lemma same_db_frame id w w' : same_db w w' -> frame id w w'.
Proof. intros [He Hv]. split; [done|]. intros. by rewrite He. Qed.

Lemma same_db_synced e w w' : same_db w w' -> synced e w -> synced e w'.
Proof. intros [He _]. unfold synced. by rewrite He. Qed.

(** What is stored at the end of a run: the exit, or, when storing it failed,
    the exit as it was before its last transition. *)
Definition stored_after (e0 : ExitVtxo) (w0 : W) (r : outcome ExitError.t unit) (s : ExitVtxo * W) : Prop :=
  ev_vtxo_id s.1 = ev_vtxo_id e0 /\ frame (ev_vtxo_id e0) w0 s.2 /\
  (synced s.1 s.2 \/
   exists msg e1 new, r = Err (ExitError.DatabaseVtxoStoreFailure (ev_vtxo_id e0) msg) /\
     synced e1 s.2 /\ s.1 = push_state new e1).

Lemma stored_after_trans e0 w0 e1 w1 r s :
  ev_vtxo_id e1 = ev_vtxo_id e0 -> frame (ev_vtxo_id e0) w0 w1 -> stored_after e1 w1 r s -> stored_after e0 w0 r s.
Proof.
  intros Hid Hf (Hid' & Hf' & H). unfold stored_after. rewrite Hid in *. split; [done|]. split; [by etrans|done].
Qed.

Lemma stored_after_refl e w r : synced e w -> stored_after e w r (e, w).
Proof. intros H. split; [done|]. split; [done|]. by left. Qed.

Lemma wp_world {A} (m : M W ExitError.t A) (Q : outcome ExitError.t A -> ExitVtxo * W -> Prop) e w :
  keeps same_db m -> (forall r w', same_db w w' -> Q r (e, w')) -> wp (on_world m) Q (e, w).
Proof. intros Hk H. unfold wp, on_world, zoom. cbn. apply H, Hk. Qed.

Lemma update_state_stored new e w : synced e w ->
  wp (update_state_if_newer new) (fun r s => stored_after e w r s /\ forall u, r = Ok u -> synced s.1 s.2) (e, w).
Proof.
  intros Hs. unfold update_state_if_newer. apply wp_bind, wp_gets. cbn.
  case_bool_decide; [apply wp_ret; split; [by apply stored_after_refl|done]|].
  apply wp_bind. unfold on_exit. apply wp_modify. cbn. unfold persist. apply wp_bind, wp_gets. cbn.
  unfold wp, on_world, zoom, on_db, map_err_m, call. cbn.
  destruct (store_exit_vtxo_entry_db (stored_exit_new (push_state new e)) (w_db w)) as [Hv Hx].
  destruct (store_exit_vtxo_entry _ (w_db w)) as [[err|[]] d]; cbn in *.
  - split; [|done]. split; [done|]. split; [split; [done|]; intros; cbn; by rewrite Hx|].
    right. exists err, e, new. split; [done|]. split; [|done]. unfold synced. cbn. by rewrite Hx.
  - assert (Hsy : synced (push_state new e) (set_db d w)).
    { unfold synced. cbn. by rewrite Hx, lookup_insert_eq. }
    split; [|done]. split; [done|]. split; [|by left].
    split; [done|]. intros id' Hne. cbn. rewrite Hx. by apply lookup_insert_ne.
Qed.

Lemma progress_loop_stored trace fuel vtxo txids fee cont e w : synced e w ->
  wp (progress_loop trace fuel vtxo txids fee cont) (stored_after e w) (e, w).
Proof.
  revert e w. induction fuel as [|fuel IH]; intros e w Hs; [by apply wp_lift, stored_after_refl|].
  cbn [progress_loop]. apply wp_bind, wp_gets. cbn. apply wp_bind.
  assert (Htr : wp (trace_tip trace) (fun _ s => s.1 = e /\ same_db w s.2) (e, w)).
  { unfold trace_tip. destruct trace; [|by apply wp_ret]. apply wp_bind. unfold wp at 1, try_m, on_world, zoom. cbn.
    destruct (chain_tip (w_net w)) as [[] n]; cbn; [by apply wp_lift|by apply wp_ret]. }
  eapply wp_mono; [exact Htr|]. intros r [e' w1] [He Hw]; cbn in He, Hw; subst e'.
  assert (Hs1 : synced e w1) by by eapply same_db_synced.
  assert (Hlift : forall r s, stored_after e w1 r s -> stored_after e w r s).
  { intros. eapply stored_after_trans; [done|by apply same_db_frame|done]. }
  destruct r as [[]|err|]; cbn; [|by apply Hlift, stored_after_refl..].
  apply wp_bind, wp_gets. cbn. apply wp_bind. unfold wp at 1, try_m, on_world, zoom. cbn.
  set (ctx := mkContext _ _ _). pose proof (keeps_state_progress ctx (ev_state e) w1) as Hk.
  destruct (state_progress ctx (ev_state e) w1) as [[new|err|] w2]; cbn in *;
    (assert (Hs2 : synced e w2) by by eapply same_db_synced);
    (assert (Hlift2 : forall r s, stored_after e w2 r s -> stored_after e w r s)
       by (intros; apply Hlift; eapply stored_after_trans; [done|by apply same_db_frame|done])).
  - apply wp_bind. eapply wp_mono; [by apply update_state_stored|].
    intros [[]|err|] [e' w3] [Hst Hok]; cbn; [|by apply Hlift2..]. specialize (Hok tt eq_refl). cbn in Hok.
    destruct (negb cont); [by apply wp_ret, Hlift2|]. apply wp_bind, wp_gets. cbn.
    destruct (from_exit_state (ev_state e')); [|by apply wp_ret, Hlift2].
    eapply wp_mono; [by apply IH|]. intros r s Hr. destruct Hst as (Hid & Hf & _). cbn in *.
    apply Hlift2. by eapply stored_after_trans.
  - apply wp_bind. destruct (pe_state err) as [new|].
    + eapply wp_mono; [by apply update_state_stored|]. intros [[]|err'|] [e' w3] [Hst Hok]; cbn; [|by apply Hlift2..].
      specialize (Hok tt eq_refl). destruct Hst as (Hid & Hf & _). apply wp_lift, Hlift2. split; [done|]. split; [done|]. by left.
    + apply wp_ret. cbn. apply wp_lift. by apply Hlift2, stored_after_refl.
  - by apply Hlift2, stored_after_refl.
Qed.

Lemma get_vtxo_keeps id : keeps same_db (get_vtxo id : M W _ _).
Proof. unfold get_vtxo. solve_keeps. Qed.


(** ** Starting exits *)
Notation S' := (list ExitVtxo * W)%type.

Definition exit_ids (l : list ExitVtxo) : list bytes := ev_vtxo_id <$> l.

(** A new exit: its entry is stored and its VTXO is spent. *)
Definition started (v : Vtxo) (e : ExitVtxo) (w : W) : Prop :=
  (exists tip, e = exit_vtxo_new v tip) /\ synced e w /\ spent_in (w_db w) (vtxo_id v).

Lemma started_frame v e w w' id : id <> vtxo_id v -> frame id w w' -> started v e w -> started v e w'.
Proof.
  intros Hne [Hv Hx] ([tip ->] & Hs & Hsp). split; [by exists tip|]. unfold synced, spent_in, state_of in *. cbn in *.
  rewrite Hv, Hx by done. done.
Qed.

(** What starting the exits of [vtxos] does to the list of exits. *)
Definition start_post (vtxos : list Vtxo) (s0 : S') (r : outcome ExitError.t unit) (s : S') : Prop :=
  NoDup (exit_ids s.1) /\ (exists new, s.1 = s0.1 ++ new /\
    forall e, e ∈ new -> exists v, v ∈ vtxos /\ started v e s.2) /\
  (forall u, r = Ok u -> forall v, v ∈ vtxos -> vtxo_id v ∈ exit_ids s.1).

(** The database after a state change: exits and other VTXOs are as before. *)
Lemma spend_vtxo_post {E} (f : string -> E) id (w : W) :
  wp (on_db f (update_vtxo_state_checked id VtxoState.Spent UNSPENT_STATES)) (fun r w' =>
    db_exits (w_db w') = db_exits (w_db w) /\
    (forall id', id' <> id -> db_vtxos (w_db w') !! id' = db_vtxos (w_db w) !! id') /\
    match r with
    | Ok _ => spent_in (w_db w') id
    | Err _ => True
    | Panic => False
    end) w.
Proof.
  unfold wp, on_db, zoom, map_err_m, call. cbn.
  destruct (update_vtxo_state_db id VtxoState.Spent UNSPENT_STATES (w_db w)) as [He H].
  destruct (update_vtxo_state_checked _ _ _ (w_db w)) as [[err|wv] d]; cbn in *.
  - split; [done|]. split; [|done]. intros id' Hne. destruct H as [->|(v & Hv & _ & ->)]; [done|]. by apply lookup_insert_ne.
  - destruct H as (v & Hv & _ & -> & Hd). split; [done|]. split.
    + intros id' Hne. rewrite Hd. by apply lookup_insert_ne.
    + unfold spent_in, state_of. by rewrite Hd, lookup_insert_eq.
Qed.

Lemma store_entry_post {E} (f : string -> E) (entry : StoredExit) (w : W) :
  wp (on_db f (store_exit_vtxo_entry entry)) (fun r w' =>
    db_vtxos (w_db w') = db_vtxos (w_db w) /\
    match r with
    | Ok _ => db_exits (w_db w') = <[se_vtxo_id entry := entry]> (db_exits (w_db w))
    | Err _ => db_exits (w_db w') = db_exits (w_db w)
    | Panic => False
    end) w.
Proof.
  unfold wp, on_db, zoom, map_err_m, call. cbn. destruct (store_exit_vtxo_entry_db entry (w_db w)) as [Hv H].
  by destruct (store_exit_vtxo_entry entry (w_db w)) as [[err|[]] d].
Qed.

Lemma wp_on_all {A} (m : M W ExitError.t A) (P : outcome ExitError.t A -> W -> Prop)
    (Q : outcome ExitError.t A -> S' -> Prop) l w :
  wp m P w -> (forall r w', P r w' -> Q r (l, w')) -> wp (on_all m) Q (l, w).
Proof. unfold wp, on_all, zoom. cbn. auto. Qed.

Lemma start_one_post reg tip v (l : list ExitVtxo) (w : W) : (forall v, keeps same_db (reg v)) -> NoDup (exit_ids l) ->
  wp (start_exit_for_vtxo reg tip v) (fun r s =>
    NoDup (exit_ids s.1) /\ (s.1 = l \/ exists e, s.1 = l ++ [e] /\ started v e s.2) /\
    (forall e v', e ∈ l -> started v' e w -> started v' e s.2) /\
    (forall u, r = Ok u -> vtxo_id v ∈ exit_ids s.1)) (l, w).
Proof.
  intros Hreg Hnd. unfold start_exit_for_vtxo. apply wp_bind, wp_gets. cbn.
  destruct (existsb _ l) eqn:Hex.
  { apply wp_ret. split; [done|]. split; [by left|]. split; [done|]. intros _ _. apply existsb_exists in Hex as (e & Hin & He).
    apply bool_decide_eq_true in He. apply list_elem_of_fmap. exists e. split; [done|]. by apply list_elem_of_In. }
  assert (Hfresh : forall e, e ∈ l -> ev_vtxo_id e <> vtxo_id v).
  { intros e He Heq. apply not_true_iff_false in Hex. apply Hex, existsb_exists. exists e.
    split; [by apply list_elem_of_In|]. by apply bool_decide_eq_true. }
  assert (Hkeep : forall w',
    (forall id : bytes, id <> vtxo_id v -> db_exits (w_db w') !! id = db_exits (w_db w) !! id) ->
    (forall id : bytes, id <> vtxo_id v -> db_vtxos (w_db w') !! id = db_vtxos (w_db w) !! id) ->
    forall e v', e ∈ l -> started v' e w -> started v' e w').
  { intros w' Hx Hv e v' He ([t ->] & Hs & Hsp). specialize (Hfresh _ He). split; [by exists t|].
    unfold synced, spent_in, state_of in *. cbn in *. by rewrite Hx, Hv. }
  apply wp_bind. eapply wp_on_all; [apply store_entry_post|]. intros [[]|err|] w1 [Hv1 Hx1]; cbn; [| |done].
  2:{ split; [done|]. split; [by left|]. split; [|done]. apply Hkeep; [intros; by rewrite Hx1|intros; by rewrite Hv1]. }
  apply wp_bind. eapply wp_on_all; [apply spend_vtxo_post|]. intros [wv|err|] w2 (Hx2 & Hv2 & H2); cbn; [| |done].
  2:{ split; [done|]. split; [by left|]. split; [|done]. apply Hkeep.
      - intros id Hne. rewrite Hx2, Hx1. by apply lookup_insert_ne.
      - intros id Hne. by rewrite (Hv2 id Hne), Hv1. }
  apply wp_bind, wp_modify. cbn. eapply wp_on_all; [instantiate (1 := fun _ w' => same_db w2 w'); apply Hreg|].
  intros r w3 [Hx3 Hv3]. cbn. split.
  { unfold exit_ids. rewrite fmap_app. apply NoDup_app. split; [done|]. split; [|apply NoDup_singleton].
    intros id (e & -> & He)%list_elem_of_fmap Hin. apply list_elem_of_singleton in Hin. by apply (Hfresh e). }
  split.
  { right. eexists. split; [done|]. split; [by eexists|]. unfold synced, spent_in, state_of in *. cbn.
    rewrite Hx3, Hv3, Hx2, Hx1. by rewrite lookup_insert_eq. }
  split.
  { apply Hkeep.
    - intros id Hne. rewrite Hx3, Hx2, Hx1. by apply lookup_insert_ne.
    - intros id Hne. by rewrite Hv3, (Hv2 id Hne), Hv1. }
  intros _ _. unfold exit_ids. rewrite fmap_app. apply elem_of_app. right. by apply list_elem_of_singleton.
Qed.

Lemma start_all_post reg tip vtxos (s0 : S') (l : list ExitVtxo) (w : W) (seen : list Vtxo) :
  (forall v, keeps same_db (reg v)) ->
  start_post seen s0 (Ok tt) (l, w) ->
  wp (forM_ vtxos (start_exit_for_vtxo reg tip)) (start_post (seen ++ vtxos) s0) (l, w).
Proof.
  intros Hreg. unfold forM_. revert seen l w. induction vtxos as [|v vtxos IH]; intros seen l w Hpost; cbn [foldM].
  { rewrite app_nil_r. by apply wp_ret. }
  destruct Hpost as (Hnd & (new & Hl & Hnew) & Hin). cbn in *. apply wp_bind.
  eapply wp_mono; [by apply start_one_post|]. intros r [l' w'] (Hnd' & Hl' & Hkeep & Hid). cbn in *.
  assert (Hnew' : exists new', l' = s0.1 ++ new' /\ forall e, e ∈ new' -> exists v', v' ∈ seen ++ [v] /\ started v' e w').
  { assert (Hold : forall e, e ∈ new -> exists v', v' ∈ seen ++ [v] /\ started v' e w').
    { intros e He. destruct (Hnew e He) as (v' & Hv' & Hst). exists v'. split; [set_solver|].
      apply Hkeep; [|done]. rewrite Hl. set_solver. }
    destruct Hl' as [->|(e & -> & He)]; [by exists new|]. exists (new ++ [e]).
    split; [by rewrite Hl, app_assoc|]. intros e' [Hx| ->%list_elem_of_singleton]%elem_of_app; [by apply Hold|].
    exists v. split; [set_solver|done]. }
  assert (Hweak : forall r, r <> Ok tt -> start_post (seen ++ v :: vtxos) s0 r (l', w')).
  { intros r' Hr. split; [done|]. split; [|intros []; done]. destruct Hnew' as (new' & ? & H). exists new'. split; [done|].
    intros e He. destruct (H e He) as (v' & Hv' & ?). exists v'. split; [set_solver|done]. }
  destruct r as [[]|err|]; cbn; [|by apply Hweak..].
  replace (seen ++ v :: vtxos) with ((seen ++ [v]) ++ vtxos) by by rewrite <- app_assoc.
  apply IH. split; [done|]. split; [done|]. intros _ _ v' [Hs| ->%list_elem_of_singleton]%elem_of_app; [|by apply (Hid tt)].
  specialize (Hin tt eq_refl v' Hs). cbn. destruct Hl' as [->|(e & -> & _)]; [done|].
  unfold exit_ids. rewrite fmap_app. set_solver.
Qed.

(** Starting exits is safe to repeat: the exits that were running stay as
    they are, no VTXO is exited twice, and every exit that is added belongs to
    one of the given VTXOs, has its entry stored and its VTXO marked as spent;
    when the call succeeds all given VTXOs are being exited.  The rest holds
    also when the call fails half way. *)
Theorem start_exits_spec (reg : Vtxo -> M W ExitError.t unit) (vtxos : list Vtxo) (s s' : S') r :
  (forall v, keeps same_db (reg v)) -> NoDup (exit_ids s.1) ->
  start_exit_for_vtxos reg vtxos s = (r, s') ->
  NoDup (exit_ids s'.1) /\
  (exists new, s'.1 = s.1 ++ new /\ forall e, e ∈ new -> exists v, v ∈ vtxos /\ started v e s'.2) /\
  (forall u, r = Ok u -> forall v, v ∈ vtxos -> vtxo_id v ∈ exit_ids s'.1).
Proof.
  intros Hreg Hnd Hrun. refine (wp_run _ (start_post vtxos s) _ _ _ Hrun _).
  assert (H0 : forall r w, (vtxos = [] \/ r <> Ok tt) -> start_post vtxos s r (s.1, w)).
  { intros r0 w H. split; [done|]. split; [exists []; split; [by rewrite app_nil_r|set_solver]|].
    intros [] Hu v Hv. destruct H as [->|H]; [set_solver|done]. }
  destruct s as [l w]. unfold start_exit_for_vtxos. destruct vtxos as [|v0 vtxos]; [apply wp_ret, H0; by left|].
  apply wp_bind. eapply wp_on_all; [instantiate (1 := fun _ _ => True); done|].
  intros [tip|err|] w' _; cbn; [|by apply H0; right..].
  apply (start_all_post reg tip (v0 :: vtxos) (l, w) l w' []); [done|].
  split; [done|]. split; [exists []; split; [by rewrite app_nil_r|set_solver]|set_solver].
Qed.

(** Starting the exit of a VTXO that is already spent fails, and adds no
    exit to the running wallet, but the entry it stored first stays in the
    database: after a restart the wallet resumes the exit that was refused. *)
Theorem refused_exit_left_in_db (reg : Vtxo -> M W ExitError.t unit) (tip : Z) (v : Vtxo) (l : list ExitVtxo) (w : W) :
  spent_in (w_db w) (vtxo_id v) -> vtxo_id v ∉ exit_ids l ->
  (store_exit_vtxo_entry (stored_exit_new (exit_vtxo_new v tip)) (w_db w)).1 = inr tt ->
  exists err w', start_exit_for_vtxo reg tip v (l, w) = (Err err, (l, w')) /\ synced (exit_vtxo_new v tip) w'.
Proof.
  intros Hsp Hnin Hst.
  assert (Hex : existsb (fun ev => bool_decide (ev_vtxo_id ev = vtxo_id v)) l = false).
  { apply not_true_iff_false. intros (e & Hin & He)%existsb_exists. apply bool_decide_eq_true in He.
    apply Hnin, list_elem_of_fmap. exists e. split; [done|]. by apply list_elem_of_In. }
  unfold start_exit_for_vtxo, mbind, M_bind, gets. cbn. rewrite Hex. unfold on_all, zoom, on_db, zoom, map_err_m, call. cbn.
  destruct (store_exit_vtxo_entry_db (stored_exit_new (exit_vtxo_new v tip)) (w_db w)) as [Hv Hx].
  destruct (store_exit_vtxo_entry _ (w_db w)) as [[err|[]] d]; [done|]. cbn in *.
  destruct (update_vtxo_state_db (vtxo_id v) VtxoState.Spent UNSPENT_STATES d) as [He H].
  destruct (update_vtxo_state_checked _ _ _ d) as [[err|wv] d']; cbn in *.
  - do 2 eexists. split; [done|]. unfold synced. cbn. by rewrite He, Hx, lookup_insert_eq.
  - exfalso. destruct H as (x & Hl & Hk & _). unfold spent_in, state_of in Hsp. unfold VtxoId in *.
    rewrite <- Hv, Hl in Hsp. cbn in Hsp. injection Hsp as Hsp. rewrite Hsp in Hk. unfold UNSPENT_STATES in Hk. set_solver.
Qed.
End Durable.

(** The exit of the sample VTXO with its entry stored, and a database whose
    fourth query fails. *)
Definition stored_start (faults : list bool) : ExitVtxo * SampleWorld :=
  let e := exit_vtxo_new exiting_vtxo 100 in
  (life_initialized.2.1,
   sample_world 100 (Some (mkBlockRef 90 []))
     (sample_store VtxoState.Spent {[ ev_vtxo_id e := stored_exit_new e ]} faults) (w_mgr life_initialized.2.2)).


(** A world with the sample VTXO in the given state and no exit. *)
Definition fresh_world (st : VtxoState.t) : SampleWorld :=
  sample_world 100 None (sample_store st ∅ []) manager_new.

Definition no_movement (_ : Vtxo (B := model)) : M SampleWorld ExitError.t unit := mret tt.

Lemma start_exits_spec_witness :
  let s' := (start_exit_for_vtxos (B := model) no_movement [exiting_vtxo; exiting_vtxo]
               ([], fresh_world (VtxoState.Locked (Some 3)))).2 in
  NoDup (exit_ids s'.1) /\
  (exists new, s'.1 = [] ++ new /\ forall e, e ∈ new ->
     exists v, v ∈ [exiting_vtxo; exiting_vtxo] /\ started (B := model) v e s'.2) /\
  vtxo_id exiting_vtxo ∈ exit_ids s'.1.
Proof.
  cbv zeta. set (run := start_exit_for_vtxos _ _ _).
  assert (Hr : run.1 = Ok tt) by (vm_compute; reflexivity).
  destruct (start_exits_spec (B := model) no_movement [exiting_vtxo; exiting_vtxo]
    ([], fresh_world (VtxoState.Locked (Some 3))) run.2 run.1) as (Hnd & Hnew & Hin).
  - intros v w. apply (same_db_preorder (B := model)).
  - apply NoDup_nil_2.
  - apply surjective_pairing.
  - split; [exact Hnd|]. split; [exact Hnew|]. apply (Hin tt Hr). left.
Defined.

(** After the refused start, loading the database gives one exit. *)
Lemma refused_exit_left_in_db_witness :
  (exists err w', start_exit_for_vtxo (B := model) no_movement 100 exiting_vtxo ([], fresh_world VtxoState.Spent)
     = (Err err, ([], w')) /\ synced (B := model) (exit_vtxo_new exiting_vtxo 100) w') /\
  exit_ids (load (B := model) ([],
    (start_exit_for_vtxo (B := model) no_movement 100 exiting_vtxo ([], fresh_world VtxoState.Spent)).2.2)).2.1
  = [vtxo_id exiting_vtxo].
Proof.
  split; [|vm_compute; reflexivity].
  apply (refused_exit_left_in_db (B := model) no_movement 100 exiting_vtxo [] (fresh_world VtxoState.Spent));
    [vm_compute; reflexivity|apply not_elem_of_nil|vm_compute; reflexivity].
Defined.
