(* ===== verification/ExitTermination.v ===== *)
(** * Progressing an exit comes to rest

    [ExitVtxo::progress] repeats the progress of the state until nothing is left
    to do at the moment, and gives up with a debug assertion after
    [MAX_ITERATIONS].  As long as the network does not change its answers
    during the call, each exit transaction takes at most five steps until it
    waits for the network, so the limit is never reached. *)
From stdpp Require Import gmap.
From S2P Require Import Prelude Effects Bitcoin Concrete Policy Vtxo ChainSource ExitStates Persist ExitManager ExitProgress ExitVtxo ExitSample ExitSafety.

Open Scope Z_scope.

(** The child and the cached status of a tracked exit transaction. *)
Definition mview (m : ExitTransactionManager) (t : bytes) : option (option ChildTransactionInfo * TxStatus.t) :=
  i ← mgr_index m !! t;
  p ← packages m !! i;
  s ← mgr_status m !! t;
  if bool_decide (ti_txid (pkg_exit p) = t) then Some (pkg_child p, s) else None.

Lemma mview_Some m t c s : mview m t = Some (c, s) <-> exists i p,
  mgr_index m !! t = Some i /\ packages m !! i = Some p /\ mgr_status m !! t = Some s /\
  ti_txid (pkg_exit p) = t /\ pkg_child p = c.
Proof.
  unfold mview. split.
  - intros H. destruct (mgr_index m !! t) as [i|] eqn:Hi; [|done]. cbn in H.
    destruct (packages m !! i) as [p|] eqn:Hp; [|done]. cbn in H.
    destruct (mgr_status m !! t) as [s'|] eqn:Hs; [|done]. cbn in H.
    case_bool_decide; [|done]. injection H as <- <-. by exists i, p.
  - intros (i & p & -> & Hp & -> & Ht & <-). cbn. rewrite Hp. cbn. by rewrite bool_decide_true.
Qed.

Lemma list_alter_insert {A} (f : A -> A) (l : list A) i x : l !! i = Some x -> alter f i l = <[i := f x]> l.
Proof. revert i. induction l as [|y l IH]; intros [|i]; cbn; [done..|by intros [= ->]|]. intros H. f_equal. by apply IH. Qed.

Lemma max_block_Some (l : list BlockRef) : l <> [] -> exists b, max_block l = Some b.
Proof.
  destruct l as [|x l _] using rev_ind; [done|]. intros _. unfold max_block. rewrite foldl_app. cbn.
  destruct (foldl _ None l) as [a|]; [destruct (_ <=? _)|]; by eexists.
Qed.

Definition is_conf (s : TxStatus.t) : bool := match s with TxStatus.Confirmed _ => true | _ => false end.

Section Termination.
Context `{B : Bitcoin} {net wallet db : Type}.
Context `{!ChainSource net, !OnchainWallet wallet, !Persister db, !ChainSourceLaws net} {F : Fees}.

Notation W := (World net wallet db).

(** The exit transactions of the VTXO, and what the network answers about
    other transactions during the call. *)
Context (txids : list bytes) (answer : bytes -> bool) (fee : Z).

Hypothesis stable_status : forall u n,
  match (chain_tx_status (net := net) u n).1 with inr s => is_conf s | inl _ => false end = answer u.

(** A new child is not one of the exit transactions. *)
Hypothesis fresh_child : forall tx fees w tx',
  (make_signed_p2a_cpfp (wallet := wallet) tx fees w).1 = inr tx' -> compute_txid tx' ∉ txids.

Definition conf (m : ExitTransactionManager) (u : bytes) : bool :=
  match mgr_status m !! u with Some s => is_conf s | None => answer u end.

(** Nothing changes for the exit transactions except for [t], and nothing
    becomes confirmed. *)
Definition only (t : option bytes) (m m' : ExitTransactionManager) : Prop :=
  (forall t' x, t' ∈ txids -> Some t' <> t -> mview m t' = Some x -> mview m' t' = Some x) /\
  (forall u, conf m' u = true -> conf m u = true).

Lemma only_refl t m : only t m m.
Proof. by split. Qed.

Lemma only_trans t m1 m2 m3 : only t m1 m2 -> only t m2 m3 -> only t m1 m3.
Proof. intros [H1 H2] [H3 H4]. split; eauto. Qed.

Lemma only_weaken t m m' : only None m m' -> only t m m'.
Proof. intros [H1 H2]. split; [|done]. intros t' x Ht _. by apply H1. Qed.

(** ** Reading *)
Lemma get_package_run t (w : W) c s : mview (w_mgr w) t = Some (c, s) -> exists i p,
  get_package t w = (Ok i, w) /\ read_package i w = (Ok p, w) /\ packages (w_mgr w) !! i = Some p /\
  mgr_index (w_mgr w) !! t = Some i /\ ti_txid (pkg_exit p) = t /\ pkg_child p = c.
Proof.
  intros (i & p & Hi & Hp & Hs & Ht & Hc)%mview_Some. exists i, p. unfold get_package, read_package.
  unfold mbind, M_bind, gets, lift. cbn. rewrite Hi. cbn. rewrite Hp. done.
Qed.

(** The status that is read off a child and a cached status. *)
Definition view_status (c : option ChildTransactionInfo) (s : TxStatus.t) : outcome ExitError.t ExitTxStatus.t :=
  match c with
  | Some c => child_status_to_exit fee (mkChildStatus (ti_txid (ci_info c)) s (ci_origin c))
  | None => Ok ExitTxStatus.NeedsSignedPackage
  end.

Lemma get_exit_tx_status_run ctx st t (w : W) c s : ctx_fee_rate ctx = fee -> mview (w_mgr w) t = Some (c, s) ->
  get_exit_tx_status ctx (mkExitTx t st) w = (view_status c s, w).
Proof.
  intros Hfee Hv. destruct (get_package_run t w c s Hv) as (i & p & Hg & Hr & _ & _ & _ & Hc).
  apply mview_Some in Hv as (i' & p' & _ & _ & Hs & _). unfold get_exit_tx_status, get_child_status. cbn [et_txid].
  unfold mbind, M_bind. rewrite Hg, Hr, Hc. destruct c as [c|]; cbn; [|done]. rewrite Hs. cbn. by rewrite Hfee.
Qed.

Lemma get_exit_child_status_run ctx st t (w : W) c s : ctx_fee_rate ctx = fee -> mview (w_mgr w) t = Some (c, s) ->
  get_exit_child_status ctx (mkExitTx t st) w = (view_status c s, w).
Proof.
  intros Hfee Hv. unfold get_exit_child_status, get_child_txid. cbn [et_txid].
  destruct (get_package_run t w c s Hv) as (i & p & Hg & Hr & _ & _ & _ & Hc).
  unfold mbind at 1, M_bind at 1. unfold mbind at 1, M_bind at 1. rewrite Hg.
  unfold mbind at 1, M_bind at 1. rewrite Hr, Hc.
  destruct c as [c|]; [|done]. cbn [fmap option_fmap option_map mret M_ret]. by apply (get_exit_tx_status_run _ _ _ _ (Some c)).
Qed.

(** Checking the inputs reads the cache and fills it. *)
Lemma check_confirmed_run u (w : W) : exists w',
  check_confirmed u w = (Ok (conf (w_mgr w) u), w') /\
  (forall t x, mview (w_mgr w) t = Some x -> mview (w_mgr w') t = Some x) /\
  (forall v, conf (w_mgr w') v = conf (w_mgr w) v).
Proof.
  unfold check_confirmed, tx_status, get_tx_status, on_net, try_m, on_mgr, modify, gets, mbind, M_bind, conf. cbn.
  destruct (mgr_status (w_mgr w) !! u) as [s|] eqn:Hs; cbn.
  { exists w. by destruct s. }
  unfold zoom, map_err_m, call. cbn. pose proof (stable_status u (w_net w)) as Hst.
  destruct (chain_tx_status u (w_net w)) as [[e|s] n]; cbn in *.
  { eexists. split; [by rewrite <- Hst|]. done. }
  eexists. split; [rewrite <- Hst; by destruct s|]. cbn. split.
  - intros t [c s'] Hv. apply mview_Some in Hv as (i & p & Hi & Hp & Hs' & Ht & Hc). apply mview_Some. exists i, p. cbn.
    rewrite lookup_insert_ne by congruence. done.
  - intros v. destruct (decide (u = v)) as [<-|Hne]; [by rewrite lookup_insert_eq, Hs|by rewrite lookup_insert_ne].
Qed.

Lemma check_inputs_run (S' : gset bytes) (w : W) : exists w',
  check_status_from_inputs S' w =
    (Ok (let U := filter (fun u => conf (w_mgr w) u = false) S' in
         if bool_decide (U = ∅) then ExitTxStatus.NeedsSignedPackage else ExitTxStatus.AwaitingInputConfirmation U), w') /\
  (forall t x, mview (w_mgr w) t = Some x -> mview (w_mgr w') t = Some x) /\
  (forall v, conf (w_mgr w') v = conf (w_mgr w) v).
Proof.
  unfold check_status_from_inputs.
  assert (Hloop : forall l (acc : gset bytes) (w0 : W), exists w',
    (foldM (fun (txids : gset bytes) txid => c ← check_confirmed txid; mret (if (c : bool) then txids else {[ txid ]} ∪ txids))
       acc l : M W ExitError.t _) w0 =
      (Ok (acc ∪ list_to_set (filter (fun u => conf (w_mgr w0) u = false) l)), w') /\
    (forall t x, mview (w_mgr w0) t = Some x -> mview (w_mgr w') t = Some x) /\
    (forall v, conf (w_mgr w') v = conf (w_mgr w0) v)).
  { induction l as [|u l IH]; intros acc w0; cbn [foldM].
    { exists w0. split; [|done]. cbn. by rewrite union_empty_r_L. }
    destruct (check_confirmed_run u w0) as (w1 & Hc & Hv1 & Hc1). unfold mbind at 1, M_bind at 1.
    unfold mbind at 1, M_bind at 1. rewrite Hc. cbn [mret M_ret].
    destruct (IH (if conf (w_mgr w0) u then acc else {[u]} ∪ acc) w1) as (w2 & Hl & Hv2 & Hc2). exists w2.
    rewrite Hl. split; [|split; [auto|intros; by rewrite Hc2]]. f_equal. f_equal.
    rewrite (list_filter_iff (fun u => conf (w_mgr w1) u = false) (fun u => conf (w_mgr w0) u = false) l)
      by (intros; by rewrite Hc1).
    rewrite filter_cons. destruct (conf (w_mgr w0) u) eqn:Hu.
    - by rewrite decide_False by done.
    - rewrite decide_True by done. cbn. set_solver. }
  destruct (Hloop (elements S') ∅ w) as (w' & Hl & Hv & Hc). exists w'.
  unfold mbind at 1, M_bind at 1. rewrite Hl.
  split; [|done]. cbn [mret M_ret]. f_equal. f_equal.
  assert (Heq : ∅ ∪ list_to_set (filter (fun u => conf (w_mgr w) u = false) (elements S'))
                = filter (fun u => conf (w_mgr w) u = false) S').
  { apply set_eq. intros x. rewrite elem_of_union, elem_of_list_to_set, list_elem_of_filter, elem_of_elements, elem_of_filter.
    set_solver. }
  by rewrite Heq.
Qed.

(** ** Changing the child of one transaction *)
Lemma update_own m m' t i p p' s' : t ∈ txids ->
  mgr_index m !! t = Some i -> packages m !! i = Some p -> ti_txid (pkg_exit p) = t ->
  (forall t', t' ∈ txids -> mgr_index m' !! t' = mgr_index m !! t') ->
  packages m' = <[i := p']> (packages m) -> ti_txid (pkg_exit p') = t ->
  mgr_status m' = <[t := s']> (mgr_status m) -> is_conf s' = false ->
  only (Some t) m m' /\ mview m' t = Some (pkg_child p', s').
Proof.
  intros Hin Hi Hp Ht Hidx Hpk Ht' Hst Hs'. split; [split|].
  - intros t' [c s] Hin' Hne (j & q & Hj & Hq & Hs & Hq' & Hc)%mview_Some. apply mview_Some. exists j, q.
    rewrite Hidx, Hst, Hpk by done. rewrite lookup_insert_ne by congruence.
    rewrite list_lookup_insert_ne; [done|]. congruence.
  - intros u. unfold conf. rewrite Hst. destruct (decide (t = u)) as [<-|Hne].
    + rewrite lookup_insert_eq. by rewrite Hs'.
    + by rewrite lookup_insert_ne.
  - apply mview_Some. exists i, p'. rewrite Hidx, Hst, Hpk, lookup_insert_eq by done.
    rewrite list_lookup_insert_eq by (by eapply lookup_lt_Some). done.
Qed.

Lemma make_child_post ctx st t tx rbf (w : W) c s : t ∈ txids -> mview (w_mgr w) t = Some (c, s) ->
  wp (make_child ctx (mkExitTx t st) tx rbf) (fun r w' => only (Some t) (w_mgr w) (w_mgr w') /\
    match r with
    | Ok st' => exists ch, ci_origin ch = ExitTxOrigin.Wallet None /\ mview (w_mgr w') t = Some (Some ch, TxStatus.NotFound) /\
        st' = ExitTxStatus.NeedsBroadcasting (ti_txid (ci_info ch)) (ExitTxOrigin.Wallet None)
    | Err _ => True
    | Panic => False
    end) w.
Proof.
  intros Hin Hv. unfold make_child. cbn [et_txid].
  destruct (get_package_run t w c s Hv) as (i & p & _ & _ & Hp & Hi & Ht & _).
  apply wp_bind. unfold create_exit_cpfp_tx, on_wallet, wp at 1, zoom, map_err_m, call. cbn [fst snd].
  set (fees := match rbf with Some _ => _ | None => _ end). pose proof (fresh_child tx fees (w_wallet w)) as Hfresh.
  destruct (make_signed_p2a_cpfp tx fees (w_wallet w)) as [[e|tx'] wl]; cbn [fst] in *; [split; [apply only_refl|done]|].
  specialize (Hfresh tx' eq_refl). cbn [and_then map_err snd].
  destruct (get_package_run t (set_wallet wl w) c s Hv) as (i' & p' & Hg & _ & Hp' & Hi' & Ht' & _).
  apply wp_bind. unfold set_wallet_child_tx. apply wp_bind. eapply wp_eq; [exact Hg|]. cbn [and_then].
  set (ch := mkChildInfo _ _). do 3 (apply wp_bind, wp_modify; cbn [and_then]). apply wp_ret. cbn [and_then]. apply wp_ret.
  destruct (update_own (w_mgr w) (set_status t TxStatus.NotFound (set_index (compute_txid tx') i' (set_child i' ch (w_mgr w))))
    t i' p' (mkExitPackage (pkg_exit p') (Some ch)) TxStatus.NotFound) as [Honly Hview]; try done.
  - intros t' Hin'. cbn. rewrite lookup_insert_ne; [done|]. by intros <-.
  - cbn. by rewrite (list_alter_insert _ _ _ p').
  - split; [exact Honly|]. exists ch. split; [done|]. split; [exact Hview|done].
Qed.

Lemma broadcast_post t (p : ExitTransactionPackage) i (w : W) c s : t ∈ txids -> mview (w_mgr w) t = Some (c, s) ->
  mgr_index (w_mgr w) !! t = Some i -> packages (w_mgr w) !! i = Some p -> ti_txid (pkg_exit p) = t -> pkg_child p = c ->
  wp (broadcast_package p) (fun r w' => only (Some t) (w_mgr w) (w_mgr w') /\
    match r with
    | Ok s' => mview (w_mgr w') t = Some (c, s') /\
        s' = match c with Some _ => TxStatus.Mempool | None => TxStatus.NotFound end
    | Err _ => True
    | Panic => False
    end) w.
Proof.
  intros Hin Hv Hi Hp Ht Hc. pose proof Hv as (_ & _ & _ & _ & Hs & _)%mview_Some. unfold broadcast_package. rewrite Ht.
  apply wp_bind, wp_gets. cbn [and_then]. rewrite bool_decide_true by by rewrite Hs. apply wp_bind, wp_ret. cbn [and_then].
  assert (Hupd : forall s' (w' : W), w_mgr w' = w_mgr w -> is_conf s' = false ->
    only (Some t) (w_mgr w) (set_status t s' (w_mgr w')) /\ mview (set_status t s' (w_mgr w')) t = Some (c, s')).
  { intros s' w' -> Hs'. rewrite <- Hc. apply (update_own _ _ t i p p); try done. cbn. by rewrite list_insert_id. }
  rewrite Hc. destruct c as [ch|].
  - apply wp_bind, wp_bind. unfold on_net, wp at 1, zoom, map_err_m, call. cbn [fst snd].
    destruct (broadcast_txs _ (w_net w)) as [[e|[]] n]; cbn [fst snd and_then map_err]; [split; [apply only_refl|done]|].
    apply wp_ret. cbn [and_then]. apply wp_bind, wp_modify. cbn [and_then]. apply wp_ret.
    destruct (Hupd TxStatus.Mempool (set_net n w)) as [H1 H2]; try done.
  - apply wp_bind, wp_ret. cbn [and_then]. apply wp_bind, wp_modify. cbn [and_then]. apply wp_ret.
    destruct (Hupd TxStatus.NotFound w) as [H1 H2]; try done.
Qed.

(** ** The rank of an exit transaction

    An upper bound on the number of steps until it waits for the network. *)
Definition low (o : ExitTxOrigin.t) : bool :=
  match o with ExitTxOrigin.Mempool rate _ => rate <? fee | _ => false end.

(** The rank once the status was read off the manager. *)
Definition view_rank (c : option ChildTransactionInfo) (s : TxStatus.t) : nat :=
  match c with
  | None => 2
  | Some ch =>
      match s with
      | TxStatus.NotFound => if low (ci_origin ch) then 3 else 1
      | TxStatus.Mempool => if low (ci_origin ch) then 2 else 0
      | TxStatus.Confirmed _ => 0
      end
  end%nat.

Definition settled_inputs (m : ExitTransactionManager) (U : gset bytes) : bool :=
  bool_decide (U <> ∅) && forallb (fun u => negb (conf m u)) (elements U).

Definition in_view (st : ExitTxStatus.t) (c : option ChildTransactionInfo) (s : TxStatus.t) : bool :=
  match view_status c s with Ok st' => bool_decide (st' = st) | _ => false end.

Definition rank (m : ExitTransactionManager) (st : ExitTxStatus.t) (c : option ChildTransactionInfo) (s : TxStatus.t) : nat :=
  match st with
  | ExitTxStatus.VerifyInputs => 2 + view_rank c s
  | ExitTxStatus.AwaitingInputConfirmation U => if settled_inputs m U then 0 else 2 + view_rank c s
  | ExitTxStatus.NeedsSignedPackage => match c with None => 2 | Some _ => 1 + view_rank c s end
  | ExitTxStatus.NeedsReplacementPackage _ _ =>
      match c, s with
      | Some ch, TxStatus.Mempool => if low (ci_origin ch) then 2 else 1 + view_rank c s
      | _, _ => 1 + view_rank c s
      end
  | ExitTxStatus.NeedsBroadcasting _ _ =>
      match c, s with
      | Some ch, TxStatus.NotFound => if low (ci_origin ch) then 3 else 1
      | _, _ => 1 + view_rank c s
      end
  | ExitTxStatus.BroadcastWithCpfp _ _ | ExitTxStatus.Confirmed _ _ _ =>
      if in_view st c s then 0 else 1 + view_rank c s
  end%nat.

Lemma view_rank_le c s : (view_rank c s <= 3)%nat.
Proof. destruct c as [ch|]; cbn; [|lia]. destruct s; [lia|destruct (low _); lia..]. Qed.

Lemma rank_le m st c s : (rank m st c s <= 5)%nat.
Proof.
  pose proof (view_rank_le c s). destruct st; cbn [rank]; repeat case_match; lia.
Qed.

Lemma rank_work m st c s : rank m st c s = 0%nat -> needs_work st = false.
Proof. destruct st; cbn [rank needs_work]; try done; repeat case_match; done || lia. Qed.

Lemma view_status_rank m c s st : view_status c s = Ok st -> rank m st c s = view_rank c s.
Proof.
  intros H. assert (Hv : in_view st c s = true) by (unfold in_view; rewrite H; by apply bool_decide_eq_true).
  revert H Hv. unfold view_status, child_status_to_exit. destruct c as [ch|]; cbn [cs_status cs_origin cs_txid];
    [|by intros [= <-]].
  destruct s as [b| |]; cbn [view_rank].
  - intros [= <-] Hv. cbn [rank]. by rewrite Hv.
  - destruct (ci_origin ch) as [x|r f|x] eqn:Ho; cbn [low]; [|destruct (r <? fee) eqn:Hr|done]; intros [= <-] Hv; cbn [rank];
      rewrite ?Hv; try done. rewrite Ho. cbn [low]. by rewrite Hr.
  - intros [= <-] _. cbn [rank]. done.
Qed.

Lemma view_status_confirmed c s st : view_status c s = Ok st ->
  forall b, ExitTxStatus.confirmed_in st = Some b -> s = TxStatus.Confirmed b.
Proof.
  destruct c as [ch|]; cbn; [|by intros [= <-]]. destruct s as [b'| |]; cbn; [intros [= <-] b; cbn; congruence| |by intros [= <-]].
  destruct (ci_origin ch) as [x|r f|x]; [by intros [= <-]| |done]. cbn. destruct (r <? fee); by intros [= <-].
Qed.

Lemma settled_mono m m' U : (forall u, conf m' u = true -> conf m u = true) -> settled_inputs m U = true -> settled_inputs m' U = true.
Proof.
  intros H [H1 H2]%andb_true_iff. apply andb_true_iff. split; [done|]. apply forallb_forall. intros u Hu.
  rewrite forallb_forall in H2. specialize (H2 u Hu). specialize (H u). destruct (conf m' u), (conf m u); auto.
Qed.

Lemma rank_mono m m' st c s : (forall u, conf m' u = true -> conf m u = true) -> (rank m' st c s <= rank m st c s)%nat.
Proof.
  intros H. destruct st as [|U| | | | |]; cbn [rank]; try done.
  destruct (settled_inputs m U) eqn:Hs; [by rewrite (settled_mono m m')|]. destruct (settled_inputs m' U); lia.
Qed.

(** One step of a transaction lowers its rank. *)
Definition step_ok (t : bytes) (m : ExitTransactionManager) (s : TxStatus.t) (n : nat)
    (r : outcome ExitError.t ExitTxStatus.t) (w' : W) : Prop :=
  only (Some t) m (w_mgr w') /\
  match r with
  | Ok st' => exists c' s', mview (w_mgr w') t = Some (c', s') /\ (rank (w_mgr w') st' c' s' <= pred n)%nat /\
      (is_conf s' = true -> s' = s) /\ (forall b, ExitTxStatus.confirmed_in st' = Some b -> s' = TxStatus.Confirmed b)
  | Err _ => True
  | Panic => False
  end.

Lemma step_ok_view t (w : W) c s r n : mview (w_mgr w) t = Some (c, s) -> r = view_status c s ->
  (view_rank c s <= pred n)%nat -> step_ok t (w_mgr w) s n r w.
Proof.
  intros Hv -> Hn. split; [apply only_refl|]. destruct (view_status c s) as [st|e|] eqn:H.
  - exists c, s. split; [done|]. split; [by rewrite (view_status_rank _ c s st H)|]. split; [done|]. by apply (view_status_confirmed c).
  - done.
  - revert H. unfold view_status, child_status_to_exit. repeat case_match; done.
Qed.

Lemma check_inputs_step (U : gset bytes) st t (w : W) c s : mview (w_mgr w) t = Some (c, s) ->
  st = ExitTxStatus.VerifyInputs \/ st = ExitTxStatus.AwaitingInputConfirmation U ->
  wp (check_status_from_inputs U) (step_ok t (w_mgr w) s (rank (w_mgr w) st c s)) w.
Proof.
  intros Hv Hst. destruct (check_inputs_run U w) as (w' & Hrun & Hview & Hconf).
  eapply wp_eq; [exact Hrun|]. split.
  { split; [intros; by apply Hview|]. intros u. by rewrite Hconf. }
  exists c, s. split; [by apply Hview|]. cbv zeta. set (U' := filter _ U).
  cut (rank (w_mgr w') (if bool_decide (U' = ∅) then ExitTxStatus.NeedsSignedPackage else ExitTxStatus.AwaitingInputConfirmation U') c s
       <= pred (rank (w_mgr w) st c s))%nat.
  { intros Hrk. split; [done|]. split; [done|]. by case_bool_decide. }
  assert (Hset : U' <> ∅ -> settled_inputs (w_mgr w') U' = true).
  { intros Hne. apply andb_true_iff. split; [by apply bool_decide_eq_true|]. apply forallb_forall.
    intros u Hu%list_elem_of_In%elem_of_elements. apply elem_of_filter in Hu as [Hu _]. by rewrite Hconf, Hu. }
  case_bool_decide as Hemp; cbn [rank]; [|rewrite Hset by done; lia].
  assert (Hr : (2 + view_rank c s <= rank (w_mgr w) st c s)%nat).
  { destruct Hst as [->| ->]; cbn [rank]; [done|]. destruct (settled_inputs (w_mgr w) U) eqn:Hs; [|done]. exfalso.
    apply andb_true_iff in Hs as [Hne Hall]. apply bool_decide_eq_true in Hne. apply set_choose_L in Hne as [u Hu].
    rewrite forallb_forall in Hall. specialize (Hall u). assert (HU : u ∈ U'); [|rewrite Hemp in HU; set_solver].
    apply elem_of_filter. split; [|done]. apply negb_true_iff, Hall, list_elem_of_In, elem_of_elements, Hu. }
  destruct c as [ch|]; [lia|cbn in Hr; lia].
Qed.

Lemma make_child_step ctx st t (w : W) c s n : t ∈ txids -> mview (w_mgr w) t = Some (c, s) -> (2 <= n)%nat ->
  forall rbf, wp (package ← get_package t; guard ← read_package package; make_child ctx (mkExitTx t st) (ti_tx (pkg_exit guard)) rbf)
    (step_ok t (w_mgr w) s n) w.
Proof.
  intros Hin Hv Hn rbf. destruct (get_package_run t w c s Hv) as (i & p & Hg & Hr & _).
  apply wp_bind. eapply wp_eq; [exact Hg|]. cbn [and_then]. apply wp_bind. eapply wp_eq; [exact Hr|]. cbn [and_then].
  eapply wp_mono; [by eapply make_child_post|]. intros [st'|e|] w' [Honly H]; [|done..].
  split; [done|]. destruct H as (ch & Ho & Hv' & ->). exists (Some ch), TxStatus.NotFound. split; [done|].
  split; [cbn [rank]; rewrite Ho; cbn [low]; lia|done].
Qed.

(** Reading the status off the manager lowers the rank, unless it asks for the
    very action the state stands for. *)
Lemma replacement_query m r f c s : (forall r' f', view_status c s <> Ok (ExitTxStatus.NeedsReplacementPackage r' f')) ->
  (view_rank c s <= pred (rank m (ExitTxStatus.NeedsReplacementPackage r f) c s))%nat.
Proof.
  intros H. destruct c as [ch|]; [|cbn; lia]. destruct s; cbn [rank]; [lia| |lia].
  destruct (low (ci_origin ch)) eqn:Hl; [exfalso|lia]. destruct (ci_origin ch) as [x|r' f'|x] eqn:Ho; cbn in Hl; [done| |done].
  apply (H r' f'). cbn. by rewrite Ho, Hl.
Qed.

Lemma replacement_rank m r f c s r' f' : view_status c s = Ok (ExitTxStatus.NeedsReplacementPackage r' f') ->
  rank m (ExitTxStatus.NeedsReplacementPackage r f) c s = 2%nat.
Proof.
  destruct c as [ch|]; [|done]. destruct s; cbn; [done| |done]. destruct (ci_origin ch) as [x|r'' f''|x]; [done| |done].
  cbn. by destruct (r'' <? fee).
Qed.

Lemma broadcast_query m cid o c s : (forall cid' o', view_status c s <> Ok (ExitTxStatus.NeedsBroadcasting cid' o')) ->
  (view_rank c s <= pred (rank m (ExitTxStatus.NeedsBroadcasting cid o) c s))%nat.
Proof.
  intros H. destruct c as [ch|]; [|cbn; lia]. destruct s; cbn [rank]; [lia|lia|]. exfalso. by eapply H.
Qed.

Lemma waiting_query m st c s :
  match st with ExitTxStatus.BroadcastWithCpfp _ _ | ExitTxStatus.Confirmed _ _ _ => True | _ => False end ->
  (view_rank c s <= pred (rank m st c s))%nat.
Proof.
  intros Hst. destruct (in_view st c s) eqn:Hv.
  - unfold in_view in Hv. destruct (view_status c s) as [st'|e|] eqn:Hvs; [|done..].
    apply bool_decide_eq_true in Hv as ->. rewrite <- (view_status_rank m c s st Hvs).
    assert (Hr : rank m st c s = 0%nat); [|lia].
    destruct st; cbn [rank]; try done; unfold in_view; rewrite Hvs, bool_decide_true; done.
  - destruct st; cbn [rank]; try done; rewrite Hv; lia.
Qed.

Lemma progress_exit_tx_step ctx t st (w : W) c s : ctx_fee_rate ctx = fee -> t ∈ txids -> mview (w_mgr w) t = Some (c, s) ->
  wp (progress_exit_tx ctx (mkExitTx t st)) (step_ok t (w_mgr w) s (rank (w_mgr w) st c s)) w.
Proof.
  intros Hfee Hin Hv. pose proof (view_rank_le c s) as Hle.
  pose proof (fun st => get_exit_tx_status_run ctx st t w c s Hfee Hv) as Hst.
  pose proof (fun st => get_exit_child_status_run ctx st t w c s Hfee Hv) as Hcst.
  pose proof (get_package_run t w c s Hv) as (i & p & Hg & Hr & Hp & Hi & Ht & Hc).
  assert (Hquery : forall n, (view_rank c s <= pred n)%nat -> step_ok t (w_mgr w) s n (view_status c s) w)
    by (intros; by eapply step_ok_view).
  unfold progress_exit_tx. cbn [et_status et_txid]. destruct st as [|U| |r f|cid o|cid o|cid b o].
  - apply wp_bind. unfold get_unique_inputs. apply wp_bind. eapply wp_eq; [exact Hg|]. cbn [and_then].
    apply wp_bind. eapply wp_eq; [exact Hr|]. cbn [and_then]. apply wp_ret. cbn [and_then].
    apply check_inputs_step; [done|by left].
  - apply check_inputs_step; [done|by right].
  - apply wp_bind. eapply wp_eq; [apply Hst|].
    destruct c as [ch|]; cbn [view_status and_then].
    + specialize (Hquery (rank (w_mgr w) ExitTxStatus.NeedsSignedPackage (Some ch) s) ltac:(cbn [rank]; lia)).
      destruct (view_status (Some ch) s) as [st1|e|] eqn:Hvs; cbn [view_status] in Hvs; rewrite Hvs; cbn [and_then]; [|done..].
      destruct st1; try (by apply wp_ret). exfalso. revert Hvs. unfold child_status_to_exit. repeat case_match; done.
    + apply wp_bind. eapply wp_eq; [exact Hg|]. cbn [and_then]. apply wp_bind. eapply wp_eq; [exact Hr|]. cbn [and_then].
      rewrite Hc. apply wp_bind, wp_lift. cbn [assert and_then].
      assert (Hmk := make_child_step ctx ExitTxStatus.NeedsSignedPackage t w None s 2 Hin Hv ltac:(lia) None).
      unfold wp in Hmk. unfold mbind, M_bind in Hmk. rewrite Hg, Hr in Hmk. exact Hmk.
  - apply wp_bind. eapply wp_eq; [apply Hst|].
    destruct (view_status c s) as [st1|e|] eqn:Hvs; cbn [and_then];
      [|apply Hquery, replacement_query; by rewrite Hvs..].
    destruct st1 as [|U| |r' f'|cid o|cid o|cid b o]; try (apply wp_ret, Hquery, replacement_query; by rewrite Hvs).
    rewrite (replacement_rank _ r f c s r' f' Hvs). eapply make_child_step; [done|done|lia].
  - apply wp_bind. eapply wp_eq; [apply Hcst|].
    destruct (view_status c s) as [st1|e|] eqn:Hvs; cbn [and_then];
      [|apply Hquery, broadcast_query; by rewrite Hvs..].
    destruct st1 as [|U| |r' f'|cid' o'|cid' o'|cid' b o']; try (apply wp_ret, Hquery, broadcast_query; by rewrite Hvs).
    assert (Hs : s = TxStatus.NotFound /\ exists ch, c = Some ch).
    { clear -Hvs. destruct c as [ch|]; [|done]. cbn in Hvs. destruct s; [done| |by eauto].
      destruct (ci_origin ch) as [|r f|]; [done| |done]. cbn in Hvs. by destruct (r <? fee). }
    destruct Hs as [-> [ch ->]].
    apply wp_bind. eapply wp_eq; [exact Hg|]. cbn [and_then]. apply wp_bind. eapply wp_eq; [exact Hr|]. cbn [and_then].
    apply wp_bind. eapply wp_mono; [by eapply broadcast_post|]. intros [s'|e|] w1 [Honly H]; cbn [and_then]; [|done..].
    destruct H as [Hv1 ->]. rewrite Hc. cbn [expect]. apply wp_bind, wp_bind, wp_lift. cbn [and_then].
    unfold on_wallet, wp at 1, zoom, map_err_m, call. cbn [fst snd].
    destruct (store_signed_p2a_cpfp _ (w_wallet w1)) as [[e|[]] wl]; cbn [fst snd and_then map_err]; [done|].
    eapply wp_eq; [by apply (get_exit_child_status_run ctx _ t (set_wallet wl w1) (Some ch) TxStatus.Mempool)|].
    split; [done|]. cbn [w_mgr set_wallet]. destruct (view_status (Some ch) TxStatus.Mempool) as [st2|e|] eqn:Hv2; [|done|].
    + exists (Some ch), TxStatus.Mempool. split; [done|]. split.
      { rewrite (view_status_rank _ _ _ _ Hv2). cbn [rank view_rank]. destruct (low _); lia. }
      split; [done|]. by apply (view_status_confirmed (Some ch)).
    + revert Hv2. unfold view_status, child_status_to_exit. repeat case_match; done.
  - eapply wp_eq; [apply Hcst|]. apply Hquery. by apply waiting_query.
  - eapply wp_eq; [apply Hcst|]. apply Hquery. by apply waiting_query.
Qed.

(** ** All transactions of an exit *)
Context (delta : Z).

Definition bounded (n : nat) (m : ExitTransactionManager) (x : ExitTx) : Prop :=
  exists c s, mview m (et_txid x) = Some (c, s) /\ (rank m (et_status x) c s <= n)%nat.

Definition up_to_date (m : ExitTransactionManager) (x : ExitTx) : Prop :=
  forall b, ExitTxStatus.confirmed_in (et_status x) = Some b -> exists c, mview m (et_txid x) = Some (c, TxStatus.Confirmed b).

(** No confirmation is so late that the end of the timelock is out of range. *)
Definition heights_ok (m : ExitTransactionManager) : Prop := forall t c b, t ∈ txids ->
  mview m t = Some (c, TxStatus.Confirmed b) -> in_u32 (height b + delta) = true.

Lemma bounded_only n t m m' x : only (Some t) m m' -> et_txid x ∈ txids -> et_txid x <> t -> bounded n m x -> bounded n m' x.
Proof.
  intros [H1 H2] Hin Hne (c & s & Hv & Hr). exists c, s. split; [apply H1; [done|congruence|done]|].
  etrans; [by apply (rank_mono m)|done].
Qed.

Lemma up_to_date_only t m m' x : only (Some t) m m' -> et_txid x ∈ txids -> et_txid x <> t -> up_to_date m x -> up_to_date m' x.
Proof. intros [H1 _] Hin Hne H b Hb. destruct (H b Hb) as [c Hc]. exists c. apply H1; [done|congruence|done]. Qed.

Lemma process_txs_bounded ctx tip orig done todo n (w : W) :
  ctx_fee_rate ctx = fee -> NoDup (et_txid <$> done ++ todo) ->
  (forall x, x ∈ done ++ todo -> et_txid x ∈ txids) ->
  (forall x, x ∈ done -> bounded (pred n) (w_mgr w) x /\ up_to_date (w_mgr w) x) ->
  (forall x, x ∈ todo -> bounded n (w_mgr w) x) ->
  (forall t, t ∈ txids -> exists x, x ∈ done ++ todo /\ et_txid x = t) ->
  heights_ok (w_mgr w) ->
  wp (process_txs ctx tip orig done todo) (fun r w' =>
    match r with
    | Ok ts => et_txid <$> ts = et_txid <$> (done ++ todo) /\ heights_ok (w_mgr w') /\
        forall x, x ∈ ts -> bounded (pred n) (w_mgr w') x /\ up_to_date (w_mgr w') x
    | Err _ => True
    | Panic => False
    end) w.
Proof.
  intros Hfee. revert done w. induction todo as [|[t st] todo IH]; intros done w Hnd Hin Hdone Htodo Hall Hh; cbn [process_txs].
  { apply wp_ret. rewrite app_nil_r. done. }
  destruct (Htodo (mkExitTx t st)) as (c & s & Hv & Hr); [left|]. cbn [et_txid et_status] in *.
  assert (Ht : t ∈ txids) by (apply (Hin (mkExitTx t st)); set_solver).
  pose proof (progress_exit_tx_step ctx t st w c s Hfee Ht Hv) as Hstep.
  apply wp_bind. unfold wp at 1, try_m. unfold wp in Hstep.
  destruct (progress_exit_tx ctx (mkExitTx t st) w) as [[st'|e|] w1]; cbn [fst snd and_then] in *; [|by apply wp_lift|by destruct Hstep].
  destruct Hstep as [Honly (c' & s' & Hv' & Hr' & Hconf & Hup)].
  rewrite fmap_app in Hnd. apply NoDup_app in Hnd as (Hnd1 & Hdis & Hnd2). cbn in Hnd2. apply NoDup_cons in Hnd2 as [Hnt Hnd2].
  assert (Hne : forall x, x ∈ done \/ x ∈ todo -> et_txid x <> t).
  { intros x [Hx|Hx] <-; [eapply Hdis; [by apply list_elem_of_fmap_2|left]|apply Hnt; by apply list_elem_of_fmap_2]. }
  eapply wp_mono; [apply (IH (done ++ [mkExitTx t st']))|].
  - rewrite <- app_assoc, fmap_app. cbn. apply NoDup_app. split; [done|]. split; [done|]. by apply NoDup_cons.
  - intros x Hx. rewrite <- app_assoc in Hx. apply elem_of_app in Hx as [Hx|Hx]; [apply Hin; set_solver|].
    cbn in Hx. apply elem_of_cons in Hx as [->|Hx]; [done|apply Hin; set_solver].
  - intros x [Hx| ->%list_elem_of_singleton]%elem_of_app.
    + destruct (Hdone x Hx) as [Hb Hu]. split; [eapply bounded_only|eapply up_to_date_only]; eauto; apply Hin; set_solver.
    + split; [exists c', s'; split; [done|]; cbn; lia|]. intros b Hb. cbn in *. rewrite (Hup b Hb) in Hv'. by eexists.
  - intros x Hx. eapply bounded_only; [done|apply Hin; set_solver|by apply Hne; right|apply Htodo; by right].
  - intros t' Ht'. destruct (Hall t' Ht') as (x & Hx & <-). rewrite <- app_assoc.
    apply elem_of_app in Hx as [Hx|Hx]; [exists x; set_solver|]. apply elem_of_cons in Hx as [->|Hx]; [|exists x; set_solver].
    exists (mkExitTx t st'). split; [set_solver|done].
  - intros t' c0 b Ht' Hv0. destruct (decide (t' = t)) as [->|Hnt'].
    + rewrite Hv' in Hv0. injection Hv0 as -> ->. specialize (Hconf eq_refl). subst s. by eapply Hh.
    + destruct (Hall t' Ht') as (x & Hx & <-). assert (Hbx : exists cx sx, mview (w_mgr w) (et_txid x) = Some (cx, sx)).
      { apply elem_of_app in Hx as [Hx|Hx]; [destruct (Hdone x Hx) as [(cx & sx & ? & _) _]|destruct (Htodo x Hx) as (cx & sx & ? & _)]; eauto. }
      destruct Hbx as (cx & sx & Hvx). destruct Honly as [Hkeep _].
      rewrite (Hkeep (et_txid x) (cx, sx) Ht' ltac:(congruence) Hvx) in Hv0. injection Hv0 as -> ->. by eapply Hh.
  - intros [ts|e|] w2 H; [|done..]. destruct H as (Hids & Hh2 & Hts). split; [|done]. by rewrite Hids, <- app_assoc, !fmap_app.
Qed.

(** What the progress of one state may lead to: processing with a lower rank,
    or a state in which the exit waits. *)
Definition loop_ok (n : nat) (r : outcome ExitProgressError ExitState.t) (w' : W) : Prop :=
  match r with
  | Ok (ExitState.Processing ps) => et_txid <$> ps_transactions ps = txids /\ heights_ok (w_mgr w') /\
      forall x, x ∈ ps_transactions ps -> bounded n (w_mgr w') x
  | Ok (ExitState.Start _) => False
  | Ok _ => True
  | Err _ => True
  | Panic => False
  end.

Lemma processing_progress_ok ctx ps n (w : W) : ctx_fee_rate ctx = fee -> ctx_exit_txids ctx = txids ->
  exit_delta (ctx_vtxo ctx) = delta -> delta <> 0 -> NoDup txids -> txids <> [] ->
  et_txid <$> ps_transactions ps = txids -> heights_ok (w_mgr w) ->
  (forall x, x ∈ ps_transactions ps -> bounded n (w_mgr w) x) ->
  wp (processing_progress ctx ps) (loop_ok (pred n)) w.
Proof.
  intros Hfee Hctx Hdelta Hd Hnd Hne Hids Hh Hb. unfold processing_progress.
  apply wp_bind, wp_lift. rewrite bool_decide_true by (rewrite Hctx, <- Hids; by rewrite length_fmap). cbn [assert and_then].
  apply wp_bind. unfold tip_height, on_net, wp at 1, zoom, map_err_m, call. cbn [fst snd].
  destruct (chain_tip (w_net w)) as [[e|tip] nt]; cbn [fst snd map_err and_then]; [done|].
  apply wp_bind. eapply wp_mono; [apply (process_txs_bounded ctx tip _ [] (ps_transactions ps) n); try done|].
  - cbn. by rewrite Hids.
  - cbn. intros x Hx. rewrite <- Hids. by apply list_elem_of_fmap_2.
  - intros x Hx. by apply elem_of_nil in Hx.
  - cbn. intros t Ht. rewrite <- Hids in Ht. apply list_elem_of_fmap in Ht as (x & -> & Hx). eauto.
  - intros [ts|e|] w2 H; cbn [and_then]; [|done..]. destruct H as (Hids' & Hh2 & Hts). cbn in Hids'. rewrite Hids in Hids'.
    case_bool_decide as Hc; [|case_bool_decide as Hc'].
    + assert (Hmax : exists b, max_block (omap (fun t => ExitTxStatus.confirmed_in (et_status t)) ts) = Some b /\
        exists x, x ∈ ts /\ ExitTxStatus.confirmed_in (et_status x) = Some b).
      { destruct (max_block_Some (omap (fun t => ExitTxStatus.confirmed_in (et_status t)) ts)) as [b Hb'].
        - intros Hnil. destruct ts as [|x ts]; [by symmetry in Hids'|].
          destruct (count_confirmed_all (x :: ts) Hc x) as [b Hxb]; [left|]. cbn in Hnil. by rewrite Hxb in Hnil.
        - exists b. split; [done|]. apply max_block_spec in Hb' as [Hbin _]. by apply list_elem_of_omap in Hbin. }
      destruct Hmax as (b & -> & x & Hx & Hxb). apply wp_bind, wp_lift. cbn [expect and_then]. apply wp_lift.
      unfold ExitState.new_awaiting_delta. rewrite Hdelta. destruct (Z.eqb_spec delta 0); [done|]. cbn.
      destruct (Hts x Hx) as [_ Hu]. destruct (Hu b Hxb) as [c Hvx].
      unfold u_add. rewrite (Hh2 (et_txid x) c b); [done| |done]. rewrite <- Hids'. by apply list_elem_of_fmap_2.
    + apply wp_ret. split; [congruence|]. split; [done|]. rewrite Hc'. intros y Hy. by apply Hts.
    + apply wp_ret. split; [done|]. split; [done|]. intros y Hy. by apply Hts.
Qed.

(** Every exit transaction is tracked. *)
Definition all_tracked (m : ExitTransactionManager) : Prop := forall t, t ∈ txids -> exists c s, mview m t = Some (c, s).

Lemma new_processing_ok tip (w : W) : all_tracked (w_mgr w) -> heights_ok (w_mgr w) ->
  loop_ok 5 (Ok (ExitState.new_processing tip txids)) w.
Proof.
  intros Ht Hh. cbn. split; [rewrite <- list_fmap_compose; apply list_fmap_id|]. split; [done|].
  intros x (t & -> & Hx)%list_elem_of_fmap. destruct (Ht t Hx) as (c & s & Hv). exists c, s. split; [done|]. apply rank_le.
Qed.

Lemma wp_try_call {A} (m : M W ExitError.t A) (f : A -> M W ExitProgressError ExitState.t) n (w : W) :
  (m w).1 <> Panic -> (forall a w', m w = (Ok a, w') -> wp (f a) (loop_ok n) w') ->
  wp (map_err_m from_exit_error m ≫= f) (loop_ok n) w.
Proof.
  intros Hp H. apply wp_bind. unfold wp, map_err_m. destruct (m w) as [[a|e|] w'] eqn:Hm; cbn in *; [by apply H|done..].
Qed.

Lemma on_net_no_panic {A} f (c : ext net string A) (w : W) : (on_net (E := ExitError.t) f c w).1 <> Panic.
Proof. unfold on_net, zoom, map_err_m, call. cbn. by destruct (c (w_net w)) as [[] n]. Qed.

Lemma waiting_state_ok ctx s (w : W) : ctx_exit_txids ctx = txids -> all_tracked (w_mgr w) -> heights_ok (w_mgr w) ->
  (forall t, s = ExitState.Start t -> exists total, estimate_exit_cost (E := Empty_set) [ctx_vtxo ctx] (ctx_fee_rate ctx) = Ok total) ->
  match s with ExitState.Processing _ => False | _ => True end ->
  wp (state_progress ctx s) (loop_ok 5) w.
Proof.
  intros Hctx Ht Hh Hcost Hs. destruct s as [t|ps|a|c|p|c]; cbn [state_progress]; [|done|..].
  - destruct (Hcost t eq_refl) as [total Htot]. unfold start_progress. apply wp_bind, wp_lift. unfold ensure at 1.
    destruct (negb _); cbn [and_then]; [|done]. unfold infallible. rewrite Htot. apply wp_bind, wp_lift. cbn [map_err and_then].
    apply wp_bind, wp_gets. cbn [and_then]. apply wp_bind, wp_lift. unfold ensure. destruct (negb _); cbn [and_then]; [|done].
    apply wp_bind. unfold on_net, wp at 1, try_m, zoom, map_err_m, call. cbn [fst snd].
    rewrite Hctx. destruct (chain_tip (w_net w)) as [[e|tip] n]; cbn [fst snd map_err and_then];
      apply wp_ret; by apply new_processing_ok.
  - unfold awaiting_delta_progress. apply wp_try_call; [apply on_net_no_panic|]. intros tip w1 Htip.
    assert (Hm1 : w_mgr w1 = w_mgr w).
    { revert Htip. unfold tip_height, on_net, zoom, map_err_m, call. cbn. by intros [= _ <-]. }
    destruct (check_confirmed_run (op_txid (point (ctx_vtxo ctx))) w1) as (w2 & Hc & Hview & _).
    apply wp_try_call; [by rewrite Hc|]. intros cf w2' Hc'. rewrite Hc in Hc'. injection Hc' as <- <-.
    destruct (conf _ _); cbn [negb].
    + destruct (_ <=? _); [|by apply wp_ret]. apply wp_try_call; [apply on_net_no_panic|]. intros b w3 _. by apply wp_ret.
    + apply wp_ret. rewrite Hctx. rewrite Hm1 in Hview. apply new_processing_ok.
      * intros t Hin. destruct (Ht t Hin) as (c & s & Hv). exists c, s. auto.
      * intros t c b Hin Hv. destruct (Ht t Hin) as (c' & s & Hv'). rewrite (Hview _ _ Hv') in Hv.
        injection Hv as -> ->. by eapply Hh.
  - unfold claimable_progress. apply wp_try_call; [apply on_net_no_panic|]. intros tip w1 _.
    apply wp_try_call; [apply on_net_no_panic|]. intros b w2 _. destruct (negb _); [by apply wp_ret|].
    apply wp_bind. set (Q := and_then _ _). assert (HQ : forall h (w : W), Q (Ok h) w).
    { intros h w3. subst Q. cbn [and_then]. apply wp_try_call; [apply on_net_no_panic|]. intros m w4 Hm.
      destruct (m !! _) as [[txid [b'| |]]|] eqn:Hlk; [by apply wp_ret..| |].
      - exfalso. revert Hm. unfold on_net, zoom, map_err_m, call. cbn.
        destruct (txs_spending_inputs [point (ctx_vtxo ctx)] h (w_net w3)) as [[e|m'] n'] eqn:Hx; cbn; [done|].
        intros [= -> _]. eapply (spending_found [point (ctx_vtxo ctx)] h (w_net w3)); [by rewrite Hx|exact Hlk].
      - apply wp_try_call; [apply on_net_no_panic|]. intros tb w5 _. by apply wp_ret. }
    destruct (cl_last_scanned_block c) as [lb|]; [|by apply wp_ret].
    apply wp_bind. unfold wp at 1, map_err_m. pose proof (on_net_no_panic (ExitError.BlockRetrievalFailure (height lb)) (block_ref (height lb)) w2) as Hnp.
    unfold get_block_ref in *. destruct (on_net _ _ w2) as [[b'|e|] w3]; cbn [fst snd map_err and_then] in *; [|done..].
    apply wp_ret, HQ.
  - unfold claim_in_progress_progress. apply wp_try_call; [apply on_net_no_panic|]. intros tip w1 _.
    apply wp_try_call.
    { unfold tx_status, mbind, M_bind, gets. cbn. destruct (mgr_status _ !! _); [done|].
      unfold get_tx_status, on_net, zoom, map_err_m, call. cbn. by destruct (chain_tx_status _ _) as [[] ?]. }
    intros st w2 _. by destruct st; apply wp_ret.
  - by apply wp_ret.
Qed.

Context (v : Vtxo) (fee_rate_override : option Z).
Hypothesis stable_fee : forall n : net, default (fast (fee_rates n)) fee_rate_override = fee.
Hypothesis delta_v : exit_delta v = delta.
Hypothesis delta_nonzero : delta <> 0.
Hypothesis txids_distinct : NoDup txids.
Hypothesis txids_nonempty : txids <> [].

(** Updating the stored state does not touch the manager and cannot panic. *)
Lemma update_state_calm new e (w : W) :
  wp (update_state_if_newer new) (fun r s => r <> Panic /\ ev_state s.1 = new /\ w_mgr s.2 = w_mgr w) (e, w).
Proof.
  unfold update_state_if_newer. apply wp_bind, wp_gets. cbn [and_then fst].
  case_bool_decide; [by apply wp_ret|]. apply wp_bind. unfold on_exit. apply wp_modify. cbn [and_then fst snd].
  unfold persist. apply wp_bind, wp_gets. cbn [and_then fst].
  unfold wp, on_world, zoom, on_db, zoom, map_err_m, call. cbn. by destruct (store_exit_vtxo_entry _ _) as [[] d].
Qed.

Lemma progress_loop_step fuel cont e (w : W) n (Q : outcome ExitError.t unit -> ExitVtxo * W -> Prop) :
  wp (state_progress (mkContext v txids fee) (ev_state e)) (loop_ok n) w ->
  (forall x s, Q (Err x) s) -> (forall s, Q (Ok tt) s) ->
  (forall e' w', loop_ok n (Ok (ev_state e')) w' -> from_exit_state (ev_state e') = Continue ->
     wp (progress_loop false fuel v txids fee_rate_override cont) Q (e', w')) ->
  wp (progress_loop false (S fuel) v txids fee_rate_override cont) Q (e, w).
Proof.
  intros Hst HErr HOk Hloop. cbn [progress_loop]. apply wp_bind, wp_gets. cbn [and_then snd]. apply wp_bind, wp_ret. cbn [and_then].
  apply wp_bind, wp_gets. cbn [and_then fst]. rewrite stable_fee. apply wp_bind. unfold wp at 1, try_m, on_world, zoom.
  unfold wp in Hst. cbn [fst snd]. destruct (state_progress _ (ev_state e) w) as [[new|err|] w1]; cbn [fst snd and_then] in *; [| |done].
  - apply wp_bind. eapply wp_mono; [apply update_state_calm|]. intros [[]|x|] [e' w2] (Hnp & He & Hw); cbn [and_then]; [|by auto|done].
    destruct (negb cont); [by apply wp_ret|]. apply wp_bind, wp_gets. cbn [and_then fst snd] in *.
    destruct (from_exit_state (ev_state e')) eqn:Hf; [|by apply wp_ret]. apply Hloop; [|done].
    rewrite He in *. cbn in Hst. destruct new; cbn in *; try done. by rewrite Hw.
  - apply wp_bind. destruct (pe_state err) as [new|]; [|apply wp_ret; cbn [and_then]; by apply wp_lift].
    eapply wp_mono; [apply update_state_calm|]. intros [[]|x|] [e' w2] (Hnp & _ & _); cbn [and_then]; [by apply wp_lift|by auto|done].
Qed.

Lemma processing_loop_calm n fuel cont e (w : W) ps : (n < fuel)%nat -> ev_state e = ExitState.Processing ps ->
  loop_ok n (Ok (ev_state e)) w ->
  wp (progress_loop false fuel v txids fee_rate_override cont) (fun r _ => r <> Panic) (e, w).
Proof.
  revert fuel e w ps. induction n as [n IH] using lt_wf_ind. intros fuel e w ps Hlt Hst Hok.
  destruct fuel as [|fuel]; [lia|]. rewrite Hst in Hok. destruct Hok as (Hids & Hh & Hb).
  apply (progress_loop_step fuel cont e w (pred n)); [|done..|].
  { rewrite Hst. cbn [state_progress]. by apply processing_progress_ok. }
  intros e' w' Hok' Hc. destruct (ev_state e') as [|ps'| | | |] eqn:He'; try done.
  assert (Hn : pred n <> O).
  { intros Hz. cbn in Hok', Hc. destruct Hok' as (_ & _ & Hb'). rewrite Hz in Hb'.
    destruct (existsb _ (ps_transactions ps')) eqn:Hex; [|done]. apply existsb_exists in Hex as (x & Hx%list_elem_of_In & Hw).
    destruct (Hb' x Hx) as (c & s & _ & Hr). rewrite (rank_work (w_mgr w') (et_status x) c s) in Hw; [done|]. lia. }
  apply (IH (pred n) ltac:(lia) fuel e' w' ps'); [lia|done|by rewrite He'].
Qed.

Lemma progress_loop_calm fuel cont e (w : W) : (6 < fuel)%nat -> all_tracked (w_mgr w) -> heights_ok (w_mgr w) ->
  (forall t, ev_state e = ExitState.Start t -> exists total, estimate_exit_cost (E := Empty_set) [v] fee = Ok total) ->
  (forall ps, ev_state e = ExitState.Processing ps -> et_txid <$> ps_transactions ps = txids) ->
  wp (progress_loop false fuel v txids fee_rate_override cont) (fun r _ => r <> Panic) (e, w).
Proof.
  intros Hf Ht Hh Hcost Hps. destruct fuel as [|fuel]; [lia|].
  apply (progress_loop_step fuel cont e w 5); [|done..|].
  - destruct (ev_state e) as [t|ps|a|c|p|c] eqn:He;
      [apply waiting_state_ok; [done..| |done]; intros; by apply (Hcost t)| |by apply waiting_state_ok..].
    cbn [state_progress]. eapply wp_mono; [apply (processing_progress_ok _ ps 5); try done|].
    + by apply Hps.
    + intros [tx st] Hx. destruct (Ht tx) as (c & s & Hv).
        { rewrite <- (Hps ps eq_refl). by apply (list_elem_of_fmap_2 et_txid _ (mkExitTx tx st)). }
        exists c, s. split; [done|apply rank_le].
    + intros r w' H. destruct r as [[]| |]; try done. destruct H as (? & ? & Hb). split; [done|]. split; [done|].
        intros x Hx. destruct (Hb x Hx) as (c0 & s0 & ? & ?). exists c0, s0. split; [done|lia].
  - intros e' w' Hok Hc. destruct (ev_state e') as [|ps'| | | |] eqn:He'; try done.
    apply (processing_loop_calm 5 fuel cont e' w' ps'); [lia|done|by rewrite He'].
Qed.

Context `{!PersisterLaws db}.

End Termination.

(** ** A network that does not move

    Its answers are fixed: the anchor of the sample VTXO is confirmed and
    nothing else is known.  The wallet pays every child with the same
    transaction. *)
Definition anchor_known (u : bytes) : bool := bool_decide (u = op_txid (anchor_point exiting_vtxo)).

Record Still := mkStill { still_broadcasts : nat }.

#[export] Instance still_source : ChainSource Still := {
  fee_rates _ := mkFeeRates 1 1 1;
  chain_tip n := (inr 100, n);
  block_ref h n := (inr (mkBlockRef h []), n);
  chain_tx_status u n :=
    (inr (if anchor_known u then TxStatus.Confirmed (mkBlockRef 10 []) else TxStatus.NotFound), n);
  txs_spending_inputs _ _ n := (inr ∅, n);
  get_tx _ n := (inr None, n);
  mempool_ancestor_info txid n := (inr (mkAncestorInfo txid 0 1), n);
  broadcast_txs _ n := (inr tt, mkStill (S (still_broadcasts n)));
}.

#[export] Instance still_laws : ChainSourceLaws Still.
Proof. split; [intros h s b; cbn; by intros [= <-]|intros ps h s m p txid; cbn; by intros [= <-]]. Qed.

Record Piggy := mkPiggy { piggy_balance : Z }.

Definition piggy_child : Transaction := mkTx 3 0 [] [].

#[export] Instance piggy_wallet : OnchainWallet Piggy := {
  get_balance := piggy_balance;
  get_spending_tx _ _ := None;
  get_wallet_tx_confirmed_block _ _ := inr None;
  make_signed_p2a_cpfp _ _ w := (inr piggy_child, w);
  store_signed_p2a_cpfp _ w := (inr tt, w);
}.

Definition still_start : ExitVtxo * World Still Piggy (Sqlite (B := model)) :=
  (initialize (B := model) (exit_vtxo_new exiting_vtxo 100,
     mkWorld (mkStill 0) (mkPiggy 100000) (sample_store VtxoState.Spent ∅ []) manager_new)).2.

Definition exiting_txids : list bytes := exit_txids (B := model) exiting_vtxo.

