(* ===== verification/ExitManagerFacts.v ===== *)
(** * The exit transaction manager is well formed

    Whatever the manager was asked to do, its weak pointers are never stale and
    every package has an index entry and a cached status, so the lookups the
    exit code makes for tracked transactions never fail and never panic. *)
From stdpp Require Import gmap.
From S2P Require Import Prelude Effects Bitcoin Concrete Policy Vtxo ChainSource ExitStates Persist ExitManager ExitProgress ExitVtxo ExitSample ExitSafety ExitTermination.

Open Scope Z_scope.

Section ManagerFacts.
Context `{B : Bitcoin} {net wallet db : Type}.
Context `{!ChainSource net, !OnchainWallet wallet, !Persister db} {F : Fees}.

Notation W := (World net wallet db).

Record mgr_wf (m : ExitTransactionManager) : Prop := {
  wf_index : forall t i, mgr_index m !! t = Some i -> is_Some (packages m !! i);
  wf_package : forall i p, packages m !! i = Some p ->
    ti_txid (pkg_exit p) = compute_txid (ti_tx (pkg_exit p)) /\
    is_Some (mgr_index m !! ti_txid (pkg_exit p)) /\ is_Some (mgr_status m !! ti_txid (pkg_exit p));
}.

(** Packages are never dropped, and keep their exit transaction. *)
Definition grows (w w' : W) : Prop :=
  (mgr_wf (w_mgr w) -> mgr_wf (w_mgr w')) /\
  forall i p, packages (w_mgr w) !! i = Some p -> exists p', packages (w_mgr w') !! i = Some p' /\ pkg_exit p' = pkg_exit p.

#[export] Instance grows_preorder : PreOrder grows.
Proof.
  split; [intros w; split; eauto|]. intros w1 w2 w3 [H1 H2] [H3 H4]. split; [auto|].
  intros i p Hp. destruct (H2 i p Hp) as (p' & Hp' & Heq). destruct (H4 i p' Hp') as (p'' & ? & ?). exists p''. split; [done|congruence].
Qed.

Lemma grows_same w w' : w_mgr w' = w_mgr w -> grows w w'.
Proof. intros Heq. split; rewrite Heq; [done|]. eauto. Qed.

Lemma keeps_net {E A} (f : string -> E) (c : ext net string A) : keeps grows (on_net f c : M W E A).
Proof. intros w. by apply grows_same. Qed.
Lemma keeps_purse {E G A} (f : G -> E) (c : ext wallet G A) : keeps grows (on_wallet f c : M W E A).
Proof. intros w. by apply grows_same. Qed.
Lemma keeps_database {E A} (f : string -> E) (c : ext db string A) : keeps grows (on_db f c : M W E A).
Proof. intros w. by apply grows_same. Qed.

Lemma keeps_set_status {E} t s : keeps grows (on_mgr (set_status t s) : M W E unit).
Proof.
  intros w. split; [|cbn; eauto]. intros [H1 H2]. split; [exact H1|]. intros i p Hp. destruct (H2 i p Hp) as (He & Hi & Hs).
  split; [done|]. split; [done|]. cbn. destruct (decide (t = ti_txid (pkg_exit p))) as [<-|Hne];
    [by rewrite lookup_insert_eq|by rewrite lookup_insert_ne].
Qed.

Lemma keeps_set_child_info {E} i c : keeps grows (on_mgr (set_child i c) : M W E unit).
Proof.
  intros w. assert (Hp : forall j q, packages (set_child i c (w_mgr w)) !! j = Some q ->
    exists p, packages (w_mgr w) !! j = Some p /\ pkg_exit q = pkg_exit p).
  { intros j q. cbn. destruct (decide (i = j)) as [<-|Hne].
    - rewrite list_lookup_alter_eq. destruct (packages (w_mgr w) !! i) as [p|]; cbn; [|done]. intros [= <-]. eauto.
    - rewrite list_lookup_alter_ne by done. eauto. }
  split.
  - intros [H1 H2]. split.
    + intros t j Hj. cbn in Hj. destruct (H1 t j Hj) as [p Hp']. cbn. destruct (decide (i = j)) as [<-|Hne].
      * rewrite list_lookup_alter_eq, Hp'. by eexists.
      * rewrite list_lookup_alter_ne by done. by eexists.
    + intros j q Hq. destruct (Hp j q Hq) as (p & Hp' & ->). apply (H2 j p Hp').
  - intros j p Hj. cbn. destruct (decide (i = j)) as [<-|Hne].
    + rewrite list_lookup_alter_eq, Hj. cbn. eauto.
    + rewrite list_lookup_alter_ne by done. eauto.
Qed.

#[local] Hint Resolve keeps_net keeps_purse keeps_database keeps_set_status keeps_set_child_info : effects.

(** The index may point to any existing package. *)
Lemma grows_set_index (w : W) t i : is_Some (packages (w_mgr w) !! i) -> grows w (set_mgr (set_index t i (w_mgr w)) w).
Proof.
  intros Hi. split; [|cbn; eauto]. intros [H1 H2]. split.
  - intros t' j. cbn. destruct (decide (t = t')) as [<-|Hne]; [rewrite lookup_insert_eq; by intros [= <-]|].
    rewrite lookup_insert_ne by done. apply H1.
  - intros j p Hp. destruct (H2 j p Hp) as (He & Hx & Hs). split; [done|]. split; [|done]. cbn.
    destruct (decide (t = ti_txid (pkg_exit p))) as [<-|Hne]; [by rewrite lookup_insert_eq|by rewrite lookup_insert_ne].
Qed.

Lemma keeps_set_wallet_child t tx o : keeps grows (set_wallet_child_tx t tx o : M W _ _).
Proof.
  intros w. unfold set_wallet_child_tx, get_package, mbind, M_bind, gets, lift. cbn.
  destruct (mgr_index (w_mgr w) !! t) as [i|]; cbn; [|done]. destruct (packages (w_mgr w) !! i) as [p|] eqn:Hp; cbn; [|done].
  set (c := mkChildInfo _ _). etrans; [apply (keeps_set_child_info (E := ExitError.t) i c)|]. cbn.
  etrans; [apply (grows_set_index _ (compute_txid tx) i)|apply (keeps_set_status (E := ExitError.t))].
  cbn. rewrite list_lookup_alter_eq, Hp. by eexists.
Qed.

(** A new package: its index entries are in place before it is pushed. *)
Lemma grows_track (w : W) tx child : mgr_index (w_mgr w) !! compute_txid tx = None ->
  let m := w_mgr w in let ptr := length (packages m) in let info := mkTxInfo (compute_txid tx) tx in
  let m1 := set_index (compute_txid tx) ptr m in
  let m2 := match child with Some c => set_index (ti_txid (ci_info c)) ptr m1 | None => m1 end in
  grows w (set_mgr (push_package (mkExitPackage info child) (set_status (compute_txid tx) (initial_status child) m2)) w).
Proof.
  cbv zeta. intros Hnone. set (t := compute_txid tx). set (ptr := length _).
  assert (Hidx : forall u j, mgr_index (match child with Some c => set_index (ti_txid (ci_info c)) ptr (set_index t ptr (w_mgr w))
      | None => set_index t ptr (w_mgr w) end) !! u = Some j -> j = ptr \/ mgr_index (w_mgr w) !! u = Some j).
  { intros u j. destruct child as [c|]; cbn; rewrite ?lookup_insert; repeat case_decide; naive_solver. }
  assert (Hkeep : forall u, u = t \/ is_Some (mgr_index (w_mgr w) !! u) ->
    is_Some (mgr_index (match child with Some c => set_index (ti_txid (ci_info c)) ptr (set_index t ptr (w_mgr w))
      | None => set_index t ptr (w_mgr w) end) !! u)).
  { intros u Hu. destruct child as [c|]; cbn; rewrite ?lookup_insert; repeat case_decide; try done; destruct Hu; subst; done. }
  assert (Hpk : packages (match child with Some c => set_index (ti_txid (ci_info c)) ptr (set_index t ptr (w_mgr w))
      | None => set_index t ptr (w_mgr w) end) = packages (w_mgr w)) by by destruct child.
  assert (Hst : mgr_status (match child with Some c => set_index (ti_txid (ci_info c)) ptr (set_index t ptr (w_mgr w))
      | None => set_index t ptr (w_mgr w) end) = mgr_status (w_mgr w)) by by destruct child.
  split.
  - intros [H1 H2]. split; cbn; rewrite Hpk.
    + intros u j [->|Hu]%Hidx; [subst ptr; rewrite lookup_app_r, Nat.sub_diag by lia; by eexists|].
      destruct (H1 u j Hu) as [p Hp]. rewrite lookup_app_l by by eapply lookup_lt_Some. by eexists.
    + intros j p [Hp|[Hge Hp]]%lookup_app_Some; rewrite Hst.
      * destruct (H2 j p Hp) as (He & Hi & Hs). split; [done|]. split; [apply Hkeep; by right|].
        rewrite lookup_insert. by case_decide.
      * apply list_lookup_singleton_Some in Hp as [_ <-]. cbn. split; [done|].
        split; [apply Hkeep; by left|]. by rewrite lookup_insert_eq.
  - intros j p Hp. cbn. rewrite Hpk, lookup_app_l by by eapply lookup_lt_Some. eauto.
Qed.

Lemma keeps_find_child info : keeps grows (find_child_locally info : M W _ _) /\
  forall w, w_mgr ((find_child_locally info : M W _ _) w).2 = w_mgr w.
Proof.
  cut (forall w, w_mgr ((find_child_locally info : M W _ _) w).2 = w_mgr w).
  { intros H. split; [|done]. intros w. by apply grows_same. }
  intros w. unfold find_child_locally, find_child_in_wallet, find_child_in_database, mbind, M_bind, gets, lift. cbn.
  destruct (tx_fee_anchor (ti_tx info)) as [o|]; cbn; [|done].
  destruct (get_spending_tx (w_wallet w) o) as [tx|]; cbn.
  - by destruct (get_wallet_tx_confirmed_block (w_wallet w) (compute_txid tx)).
  - unfold on_db, zoom, map_err_m, call. cbn. by destruct (get_exit_child_tx _ _) as [[] d].
Qed.

Lemma keeps_track_exit_tx tx : keeps grows (track_exit_tx tx : M W _ _).
Proof.
  intros w. unfold track_exit_tx. unfold mbind at 1, M_bind at 1. cbn [gets].
  case_bool_decide as Hin; [done|]. apply eq_None_not_Some in Hin.
  destruct (keeps_find_child (mkTxInfo (compute_txid tx) tx)) as [Hk Hm]. specialize (Hk w). specialize (Hm w).
  unfold mbind at 1, M_bind at 1. destruct (find_child_locally _ w) as [[child|e|] w1]; cbn [fst snd] in *; [|done..].
  etrans; [exact Hk|]. rewrite <- Hm in Hin. pose proof (grows_track w1 tx child Hin) as Hg. cbv zeta in Hg.
  by destruct child.
Qed.

#[local] Hint Resolve keeps_track_exit_tx keeps_set_wallet_child : effects.

Lemma keeps_track_vtxo v : keeps grows (track_vtxo_exits v : M W _ _).
Proof. unfold track_vtxo_exits. solve_keeps. Qed.
Lemma keeps_tx_status_grows t : keeps grows (tx_status t : M W _ _).
Proof. unfold tx_status, get_tx_status. solve_keeps. Qed.
Lemma keeps_broadcast_grows p : keeps grows (broadcast_package p : M W _ _).
Proof. unfold broadcast_package. solve_keeps. Qed.
Lemma keeps_update_child i h : keeps grows (update_child_from_network i h : M W _ _).
Proof. unfold update_child_from_network, read_package, download_child, network_origin. solve_keeps. Qed.
#[local] Hint Resolve keeps_broadcast_grows keeps_update_child : effects.
Lemma keeps_sync keys : keeps grows (mgr_sync keys : M W _ _).
Proof. unfold mgr_sync, mgr_tip, forM_, sync_tx, get_tx_status, read_package. solve_keeps. Qed.

(** The operations of the manager, and changes of the world around it. *)
Inductive mgr_step : relation W :=
  | ms_track w v : mgr_step w (track_vtxo_exits v w).2
  | ms_status w t : mgr_step w (tx_status t w).2
  | ms_set_child w t tx o : mgr_step w (set_wallet_child_tx t tx o w).2
  | ms_broadcast w p : mgr_step w (broadcast_package p w).2
  | ms_sync w keys : mgr_step w (mgr_sync keys w).2
  | ms_outside w w' : w_mgr w' = w_mgr w -> mgr_step w w'.

Lemma mgr_step_grows w w' : mgr_step w w' -> grows w w'.
Proof.
  intros [w0 v|w0 t|w0 t tx o|w0 p|w0 keys|w0 w1 H];
    [apply keeps_track_vtxo|apply keeps_tx_status_grows|apply keeps_set_wallet_child|apply keeps_broadcast_grows|apply keeps_sync|
     by apply grows_same].
Qed.

(** C39. The manager stays well formed under every sequence of its operations,
    in any outside world: its weak pointers always lead to a package, every
    package has the id of its own exit transaction, an index entry and a cached
    status; so asking for the child of a tracked exit transaction succeeds and
    does not hit the [expect] on the status. *)
Theorem manager_well_formed (w0 w : W) : w_mgr w0 = manager_new -> rtc mgr_step w0 w ->
  mgr_wf (w_mgr w) /\
  forall i p, packages (w_mgr w) !! i = Some p -> exists r, get_child_status (ti_txid (pkg_exit p)) w = (Ok r, w).
Proof.
  intros H0 Hr. assert (Hwf : mgr_wf (w_mgr w)).
  { assert (Hwf0 : mgr_wf (w_mgr w0)).
    { rewrite H0. split; [intros t i H; cbn in H; by rewrite lookup_empty in H|intros i p H; by destruct i]. }
    clear H0. induction Hr as [|x y z Hxy _ IH]; [done|]. apply IH. by apply (mgr_step_grows x y). }
  split; [done|]. intros i p Hp. destruct Hwf as [H1 H2]. destruct (H2 i p Hp) as (He & [j Hj] & [s Hs]).
  destruct (H1 _ j Hj) as [q Hq]. unfold get_child_status, get_package, read_package, mbind, M_bind, gets, lift. cbn.
  rewrite Hj. cbn. rewrite Hq. cbn. rewrite Hq. cbn. destruct (pkg_child q); cbn; [rewrite Hs; cbn|]; by eexists.
Qed.

(** A tracked transaction that is not deeply confirmed is looked up on chain. *)
Lemma sync_tx_shallow tip t (w : W) i p s :
  mgr_status (w_mgr w) !! t = Some s -> mgr_index (w_mgr w) !! t = Some i -> packages (w_mgr w) !! i = Some p ->
  (forall b, s = TxStatus.Confirmed b -> DEEPLY_CONFIRMED <= tip /\ tip - DEEPLY_CONFIRMED < height b) ->
  sync_tx tip t w =
    (status ← get_tx_status t;
     match status with
     | TxStatus.NotFound =>
         r ← try_m (broadcast_package p);
         match r with
         | inr _ => mret tt
         | inl (ExitError.ExitPackageBroadcastFailure _ _) => mret tt
         | inl e => throw e
         end
     | _ =>
         status' ← update_child_from_network i (default tip (TxStatus.confirmed_height status));
         on_mgr (set_status t status')
     end : M W ExitError.t unit) w.
Proof.
  intros Hms Hi Hp Hs. unfold sync_tx. unfold mbind at 1, M_bind at 1. cbn [gets]. unfold mbind at 1, M_bind at 1.
  rewrite Hms. cbn [expect lift]. unfold mbind at 1, M_bind at 1.
  replace (_ w : outcome ExitError.t bool * W) with (Ok false : outcome ExitError.t bool, w).
  2: { destruct s as [b| |]; [|done..]. destruct (Hs b eq_refl) as [Hle Hlt].
       unfold mbind, M_bind, checked_sub. destruct (Z.leb_spec DEEPLY_CONFIRMED tip); [|lia]. cbn.
       by destruct (Z.leb_spec (height b) (tip - DEEPLY_CONFIRMED)); [lia|]. }
  rewrite Hi. unfold mbind at 1, M_bind at 1. unfold read_package, mbind at 1, M_bind at 1. cbn [gets lift]. by rewrite Hp.
Qed.

(** After a reorganisation that removes an exit transaction which had been
    confirmed with somebody else's child, syncing broadcasts the package again
    and caches it as being in the mempool, but keeps the child's origin; until
    the next sync every attempt to progress that transaction fails with the
    internal error that is documented never to happen. *)
Theorem reorg_blocks_progress (ctx : ProgressContext) (tip : Z) (t : bytes) (w : W) (ch : ChildTransactionInfo)
    (b : BlockRef) (s : TxStatus.t) (st : ExitTxStatus.t) n1 n2 :
  mview (w_mgr w) t = Some (Some ch, s) -> ci_origin ch = ExitTxOrigin.Block b ->
  (forall b', s = TxStatus.Confirmed b' -> DEEPLY_CONFIRMED <= tip /\ tip - DEEPLY_CONFIRMED < height b') ->
  chain_tx_status t (w_net w) = (inr TxStatus.NotFound, n1) ->
  (forall p, p ∈ packages (w_mgr w) -> ti_txid (pkg_exit p) = t ->
     broadcast_txs [ti_tx (pkg_exit p); ti_tx (ci_info ch)] n1 = (inr tt, n2)) ->
  is_confirmed st = true ->
  exists w', sync_tx tip t w = (Ok tt, w') /\
    progress_exit_tx ctx (mkExitTx t st) w' = (Err (ExitError.InternalError "this should never happen"), w').
Proof.
  intros Hv Ho Hs Hn1 Hn2 Hst. pose proof Hv as (i & p & Hi & Hp & Hms & Ht & Hc)%mview_Some.
  set (w' := set_mgr (set_status t TxStatus.Mempool (w_mgr w)) (set_net n2 w)). exists w'. split.
  - rewrite (sync_tx_shallow tip t w i p s Hms Hi Hp Hs). unfold get_tx_status, on_net, zoom, map_err_m, call, mbind, M_bind. cbn.
    rewrite Hn1. cbn. unfold try_m, broadcast_package, mbind, M_bind, gets. rewrite Ht, Hc. cbn.
    rewrite bool_decide_true by by rewrite Hms. cbn. unfold on_net, zoom, map_err_m, call. cbn.
    rewrite Hn2 by (done || by eapply list_elem_of_lookup_2). cbn. done.
  - assert (Hv' : mview (w_mgr w') t = Some (Some ch, TxStatus.Mempool)).
    { apply mview_Some. exists i, p. cbn. by rewrite lookup_insert_eq. }
    unfold progress_exit_tx. destruct st; cbn in Hst; try done. cbn [et_status].
    rewrite (get_exit_child_status_run (ctx_fee_rate ctx) ctx _ t w' _ _ eq_refl Hv'). cbn. by rewrite Ho.
Qed.
End ManagerFacts.

(** ** Concrete instances *)

Definition tracked : SampleWorld := (track_vtxo_exits (B := model) exiting_vtxo life_start.2).2.

Lemma manager_well_formed_witness :
  length (packages (w_mgr tracked)) = 2%nat /\ mgr_wf (B := model) (w_mgr tracked).
Proof.
  split; [vm_compute; reflexivity|].
  refine (proj1 (manager_well_formed (B := model) life_start.2 tracked eq_refl _)).
  apply rtc_once. constructor.
Defined.

(** The first exit transaction was confirmed in block 290 with a child of
    somebody else; at height 300 the chain no longer knows it. *)
Definition reorged_txid : bytes := default [] (compute_txid (Bitcoin := model) ∘ fst <$> head sample_txs).
Definition foreign_child : ChildTransactionInfo :=
  mkChildInfo (mkTxInfo [] (cpfp_tx null_outpoint)) (ExitTxOrigin.Block (mkBlockRef 290 [])).
Definition reorged_tx : Transaction := default (cpfp_tx null_outpoint) (fst <$> head sample_txs).
Definition reorged_package : list Transaction := [reorged_tx; cpfp_tx null_outpoint].
Definition reorged_mgr : ExitTransactionManager :=
  mkManager [mkExitPackage (mkTxInfo reorged_txid reorged_tx) (Some foreign_child)]
    {[ reorged_txid := 0%nat ]} {[ reorged_txid := TxStatus.Confirmed (mkBlockRef 290 []) ]}.
Definition reorged : SampleWorld := sample_world 300 None (sample_store VtxoState.Spent ∅ []) reorged_mgr.

Lemma reorg_blocks_progress_witness : exists w' : SampleWorld,
  sync_tx (B := model) 300 reorged_txid reorged = (Ok tt, w') /\
  progress_exit_tx (B := model) (mkContext exiting_vtxo [reorged_txid] 1)
    (mkExitTx reorged_txid (ExitTxStatus.Confirmed [] (mkBlockRef 290 []) (ExitTxOrigin.Block (mkBlockRef 290 [])))) w'
  = (Err (ExitError.InternalError "this should never happen"), w').
Proof.
  refine (reorg_blocks_progress (B := model) (mkContext exiting_vtxo [reorged_txid] 1) 300 reorged_txid reorged
    foreign_child (mkBlockRef 290 []) (TxStatus.Confirmed (mkBlockRef 290 []))
    (ExitTxStatus.Confirmed [] (mkBlockRef 290 []) (ExitTxOrigin.Block (mkBlockRef 290 [])))
    (w_net reorged) (broadcast_txs reorged_package (w_net reorged)).2 _ _ _ _ _ _).
  1: vm_compute; reflexivity.
  1: reflexivity.
  1: intros b' [= <-]; split; vm_compute; [discriminate|reflexivity].
  1: vm_compute; reflexivity.
  1: intros p Hp%list_elem_of_singleton _; rewrite Hp; reflexivity.
  reflexivity.
Defined.
