(* ===== verification/Flux.v ===== *)
(** * VTXOs in flux (server/src/flux.rs)

    The server marks the VTXOs that are being spent in a set behind a mutex.
    [VtxosInFlux::lock] marks all of the given VTXOs or none and returns a guard
    that owns them; they are unmarked when the guard is released or dropped.
    Each critical section of the mutex is one step.  A guard is the set of ids it
    owns; dropping it is explicit. *)
From stdpp Require Import gmap.
From S2P Require Import Prelude Effects Bitcoin.

Open Scope Z_scope.

(** [VtxosInFluxInner]: the marked VTXOs. *)
Definition VtxosInFlux : Type := gset bytes.
(** [VtxoFluxLockInner]: the VTXOs a guard owns. *)
Definition VtxoFluxLock : Type := gset bytes.

Definition flux_new : VtxosInFlux := ∅.
Definition empty_lock : VtxoFluxLock := ∅.

(** [for id in ids { inner.vtxos.remove(id) }]. *)
Definition release (ids : list bytes) (s : VtxosInFlux) : VtxosInFlux :=
  foldl (fun s id => s ∖ {[id]}) s ids.

(** The loop of [atomic_check_put]; [buf] holds the ids marked so far. *)
Fixpoint check_put (buf ids : list bytes) (s : VtxosInFlux) : (bytes + unit) * VtxosInFlux :=
  match ids with
  | [] => (inr tt, s)
  | id :: rest =>
      if decide (id ∈ s) then (inl id, release buf s)
      else check_put (buf ++ [id]) rest ({[id]} ∪ s)
  end.

Definition atomic_check_put (ids : list bytes) (s : VtxosInFlux) : (bytes + unit) * VtxosInFlux :=
  check_put [] ids s.

Definition add_locked (l : VtxoFluxLock) (ids : list bytes) : VtxoFluxLock := l ∪ list_to_set ids.

Definition flux_lock (ids : list bytes) (s : VtxosInFlux) : (bytes + VtxoFluxLock) * VtxosInFlux :=
  match atomic_check_put ids s with
  | (inl id, s) => (inl id, s)
  | (inr _, s) => (inr (add_locked empty_lock ids), s)
  end.

(** [release_all], which is also what dropping a guard does. *)
Definition release_all (l : VtxoFluxLock) (s : VtxosInFlux) : VtxoFluxLock * VtxosInFlux :=
  if decide (l = ∅) then (l, s) else (∅, release (elements l) s).

Definition drop_lock (l : VtxoFluxLock) (s : VtxosInFlux) : VtxosInFlux := (release_all l s).2.

(** [into_owned] moves the ids into a guard that owns the whole structure. *)
Definition into_owned (l : VtxoFluxLock) : VtxoFluxLock := l.

(** [absorb]: the other guard is left empty, and dropped. *)
Definition absorb (l other : VtxoFluxLock) : VtxoFluxLock := l ∪ other.

(** ** Locking is all or nothing *)
Lemma release_spec ids s : release ids s = s ∖ list_to_set ids.
Proof.
  unfold release. revert s. induction ids as [|id ids IH]; intros s; cbn [foldl].
  - cbn. set_solver.
  - rewrite IH. cbn. set_solver.
Qed.

Lemma drop_lock_spec l s : drop_lock l s = s ∖ l.
Proof.
  unfold drop_lock, release_all. destruct (decide (l = ∅)) as [->|]; cbn; [set_solver|].
  rewrite release_spec. by rewrite list_to_set_elements_L.
Qed.

(** The ids can be locked: none is marked and none is given twice. *)
Definition lockable (ids : list bytes) (s : VtxosInFlux) : Prop := NoDup ids /\ forall id, id ∈ ids -> id ∉ s.

Lemma check_put_spec ids : forall buf s, list_to_set buf ⊆ s ->
  match check_put buf ids s with
  | (inr _, s') => lockable ids s /\ s' = s ∪ list_to_set ids
  | (inl id, s') => ~ lockable ids s /\ id ∈ ids /\ s' = s ∖ list_to_set buf
  end.
Proof.
  induction ids as [|id ids IH]; intros buf s Hbuf; cbn [check_put].
  { split; [split; [constructor|set_solver]|set_solver]. }
  destruct (decide (id ∈ s)) as [Hin|Hnin].
  { split; [intros [_ H]; apply (H id); [left|done]|]. split; [left|]. apply release_spec. }
  specialize (IH (buf ++ [id]) ({[id]} ∪ s)). destruct (check_put _ _ _) as [[e|u] s'].
  - destruct IH as (Hn & Hin & ->); [rewrite list_to_set_app_L; set_solver|]. split; [|split; [by right|]].
    + intros [[Hid Hnd]%NoDup_cons Hs]. apply Hn. split; [done|]. intros x Hx [->%elem_of_singleton|Hxs]%elem_of_union; [done|].
      apply (Hs x); [by right|done].
    + rewrite list_to_set_app_L. cbn. apply set_eq. intros x. set_solver.
  - destruct IH as ((Hnd & Hs) & ->); [rewrite list_to_set_app_L; set_solver|]. split; [|set_solver].
    split; [apply NoDup_cons; split; [|done]|].
    + intros Hid. apply (Hs id Hid). set_solver.
    + intros x [->|Hx]%elem_of_cons; [done|]. intros Hxs. apply (Hs x Hx). set_solver.
Qed.

Lemma flux_lock_spec ids s :
  match flux_lock ids s with
  | (inr l, s') => lockable ids s /\ l = list_to_set ids /\ s' = s ∪ l
  | (inl id, s') => ~ lockable ids s /\ id ∈ ids /\ s' = s
  end.
Proof.
  unfold flux_lock, atomic_check_put. pose proof (check_put_spec ids [] s) as H.
  destruct (check_put [] ids s) as [[id|u] s'].
  - destruct H as (? & ? & ->); [set_solver|]. split_and?; [done..|]. set_solver.
  - destruct H as (? & ->); [set_solver|]. unfold add_locked, empty_lock. split_and?; [done|set_solver..].
Qed.

(** ** The guards of a running server *)
Record FluxSystem := mkFlux { fs_flux : VtxosInFlux; fs_guards : gmap nat VtxoFluxLock }.

(** What happens to guards: a new one is created by [lock], two are merged by
    [absorb], one is emptied by [release_all], one is dropped. *)
Inductive flux_step : FluxSystem -> FluxSystem -> Prop :=
  | fx_empty s gs i : gs !! i = None -> flux_step (mkFlux s gs) (mkFlux s (<[i := empty_lock]> gs))
  | fx_lock s gs ids i l s' : gs !! i = None -> flux_lock ids s = (inr l, s') ->
      flux_step (mkFlux s gs) (mkFlux s' (<[i := l]> gs))
  | fx_refused s gs ids id s' : flux_lock ids s = (inl id, s') -> flux_step (mkFlux s gs) (mkFlux s' gs)
  | fx_absorb s gs i j li lj : i <> j -> gs !! i = Some li -> gs !! j = Some lj ->
      flux_step (mkFlux s gs) (mkFlux s (<[i := absorb li lj]> (delete j gs)))
  | fx_release s gs i l : gs !! i = Some l ->
      flux_step (mkFlux s gs) (mkFlux (release_all l s).2 (<[i := (release_all l s).1]> gs))
  | fx_drop s gs i l : gs !! i = Some l -> flux_step (mkFlux s gs) (mkFlux (drop_lock l s) (delete i gs)).

(** The marked VTXOs are those the guards own, and no two guards own the same. *)
Record flux_inv (f : FluxSystem) : Prop := {
  fi_owned : forall i l, fs_guards f !! i = Some l -> l ⊆ fs_flux f;
  fi_owner : forall id, id ∈ fs_flux f -> exists i l, fs_guards f !! i = Some l /\ id ∈ l;
  fi_disjoint : forall i j li lj, fs_guards f !! i = Some li -> fs_guards f !! j = Some lj -> i <> j -> li ## lj;
}.

Lemma release_all_spec l s : release_all l s = (∅, s ∖ l).
Proof.
  unfold release_all. destruct (decide (l = ∅)) as [->|]; cbn; [f_equal; set_solver|].
  by rewrite release_spec, list_to_set_elements_L.
Qed.

(** A step that replaces the guard [i] by [l], drops the guards in [dead] and
    keeps the others. *)
Lemma flux_inv_insert f s' i l (gs : gmap nat VtxoFluxLock) : flux_inv f ->
  gs ⊆ fs_guards f -> gs !! i = None ->
  (forall j lj, gs !! j = Some lj -> lj ## l /\ lj ⊆ s') -> l ⊆ s' ->
  (forall id, id ∈ s' -> id ∈ l \/ exists j lj, gs !! j = Some lj /\ id ∈ lj) ->
  flux_inv (mkFlux s' (<[i := l]> gs)).
Proof.
  intros Hf Hsub Hi Hgs Hl Hs. split; cbn.
  - intros j lj [[<- <-]|[Hne Hj]]%lookup_insert_Some; [done|]. by apply (Hgs j).
  - intros id [Hid|(j & lj & Hj & Hid)]%Hs; [exists i, l; by rewrite lookup_insert_eq|].
    exists j, lj. rewrite lookup_insert_ne; [done|]. intros ->. congruence.
  - intros j k lj lk [[<- <-]|[Hj1 Hj]]%lookup_insert_Some [[<- <-]|[Hk1 Hk]]%lookup_insert_Some Hne.
    + done.
    + symmetry. by apply (Hgs k).
    + by apply (Hgs j).
    + apply (fi_disjoint _ Hf j k); [by eapply lookup_weaken|by eapply lookup_weaken|done].
Qed.

Lemma flux_step_inv f f' : flux_step f f' -> flux_inv f -> flux_inv f'.
Proof.
  intros Hstep Hf. destruct Hstep as [s gs i Hi|s gs ids i l s' Hi Hl|s gs ids id s' Hl|s gs i j li lj Hne Hi Hj|s gs i l Hi|s gs i l Hi];
    pose proof (fi_owned _ Hf) as Ho; pose proof (fi_owner _ Hf) as Hw; pose proof (fi_disjoint _ Hf) as Hd; cbn in Ho, Hw, Hd.
  - apply (flux_inv_insert _ _ _ _ _ Hf); cbn; [done|done| |set_solver|by right; apply Hw].
    intros j lj Hj. split; [set_solver|by apply (Ho j)].
  - pose proof (flux_lock_spec ids s) as H. rewrite Hl in H. destruct H as ([_ Hfree] & -> & ->).
    apply (flux_inv_insert _ _ _ _ _ Hf); cbn; [done|done| |set_solver|].
    + intros j lj Hj. specialize (Ho j lj Hj). split; set_solver.
    + intros id [Hid|Hid]%elem_of_union; [right; by apply Hw|by left].
  - pose proof (flux_lock_spec ids s) as H. rewrite Hl in H. by destruct H as (_ & _ & ->).
  - rewrite <- (insert_delete_eq (delete j gs) i).
    apply (flux_inv_insert _ _ _ _ _ Hf); cbn; [etrans; apply delete_subseteq|by rewrite lookup_delete_eq| | |].
    + intros k lk [Hk1 [Hk2 Hk]%lookup_delete_Some]%lookup_delete_Some. split; [|by apply (Ho k)].
      apply disjoint_union_r. split; [by apply (Hd k i)|by apply (Hd k j)].
    + apply union_subseteq. split; [by apply (Ho i)|by apply (Ho j)].
    + intros id (k & lk & Hk & Hid)%Hw. destruct (decide (k = i)) as [->|Hki]; [left; unfold absorb; set_solver|].
      destruct (decide (k = j)) as [->|Hkj]; [left; unfold absorb; set_solver|]. right. exists k, lk.
      by rewrite !lookup_delete_ne by congruence.
  - rewrite release_all_spec. cbn [fst snd]. rewrite <- (insert_delete_eq gs i).
    apply (flux_inv_insert _ _ _ _ _ Hf); cbn; [apply delete_subseteq|by rewrite lookup_delete_eq| |set_solver|].
    + intros k lk [Hk1 Hk]%lookup_delete_Some. split; [set_solver|].
      specialize (Ho k lk Hk). specialize (Hd k i lk l Hk Hi). set_solver.
    + intros id [(k & lk & Hk & Hid)%Hw Hn]%elem_of_difference. right. exists k, lk. split; [|done].
      rewrite lookup_delete_ne; [done|]. intros ->. congruence.
  - rewrite drop_lock_spec. split; cbn.
    + intros k lk [Hk1 Hk]%lookup_delete_Some. specialize (Ho k lk Hk). specialize (Hd k i lk l Hk Hi). set_solver.
    + intros id [(k & lk & Hk & Hid)%Hw Hn]%elem_of_difference. exists k, lk. split; [|done].
      rewrite lookup_delete_ne; [done|]. intros ->. congruence.
    + intros k k' lk lk' [_ Hk]%lookup_delete_Some [_ Hk']%lookup_delete_Some. by apply Hd.
Qed.

Definition flux_reachable (f : FluxSystem) : Prop := rtc flux_step (mkFlux flux_new ∅) f.

(** The locks of the server exclude each other and leak nothing, for every
    sequence of locking, merging, releasing and dropping of guards: no VTXO is
    ever owned by two guards, the marked VTXOs are exactly those some guard
    owns, and a lock is granted exactly when its ids are given once and no guard
    owns one of them; a refused lock changes nothing. *)
Theorem flux_exclusive (f : FluxSystem) (ids : list bytes) : flux_reachable f ->
  flux_inv f /\
  match flux_lock ids (fs_flux f) with
  | (inr l, s') => NoDup ids /\ (forall id i g, id ∈ ids -> fs_guards f !! i = Some g -> id ∉ g) /\
      l = list_to_set ids /\ s' = fs_flux f ∪ l
  | (inl id, s') => s' = fs_flux f /\ id ∈ ids /\
      (~ NoDup ids \/ exists x i g, x ∈ ids /\ fs_guards f !! i = Some g /\ x ∈ g)
  end.
Proof.
  intros Hr. assert (Hinv : flux_inv f).
  { assert (H0 : flux_inv (mkFlux flux_new ∅)) by (split; cbn; [intros i l H; by rewrite lookup_empty in H|set_solver|intros i j li lj H; by rewrite lookup_empty in H]).
    revert H0. induction Hr as [|x y z Hxy _ IH]; [done|]. intros Hx. apply IH. by eapply flux_step_inv. }
  split; [done|]. pose proof (flux_lock_spec ids (fs_flux f)) as H. destruct (flux_lock ids _) as [[id|l] s'].
  - destruct H as (Hn & Hid & ->). split_and?; [done..|]. destruct (decide (NoDup ids)) as [Hnd|]; [right|by left].
    destruct (decide (Exists (fun x => x ∈ fs_flux f) ids)) as [(x & Hx & Hxf)%Exists_exists|Hnone].
    + destruct (fi_owner _ Hinv x Hxf) as (i & g & Hi & Hg). by exists x, i, g.
    + exfalso. apply Hn. split; [done|]. intros x Hx Hxf. apply Hnone, Exists_exists. by exists x.
  - destruct H as ((Hnd & Hfree) & -> & ->). split_and?; [done| |done..].
    intros x i g Hx Hi Hg. apply (Hfree x Hx). by apply (fi_owned _ Hinv i g Hi).
Qed.

(** Two guards are created, a third lock is refused, and the first is dropped. *)
Definition id_a : bytes := [Byte.x01].
Definition id_b : bytes := [Byte.x02].
Definition sample_flux : FluxSystem := mkFlux {[ id_b ]} {[ 1%nat := {[ id_b ]} ]}.

Lemma flux_exclusive_witness : flux_inv sample_flux /\ flux_lock [id_a; id_b] (fs_flux sample_flux) = (inl id_b, {[ id_b ]}).
Proof.
  split; [|vm_compute; reflexivity]. refine (proj1 (flux_exclusive sample_flux [id_a; id_b] _)).
  apply (rtc_l _ _ (mkFlux {[ id_a ]} {[ 0%nat := {[ id_a ]} ]})).
  { assert (H : flux_step (mkFlux flux_new ∅) (mkFlux {[ id_a ]} (<[0%nat := {[ id_a ]}]> ∅))).
    { apply (fx_lock flux_new ∅ [id_a]); reflexivity. } exact H. }
  apply (rtc_l _ _ (mkFlux {[ id_a; id_b ]} {[ 0%nat := {[ id_a ]}; 1%nat := {[ id_b ]} ]})).
  { assert (H : flux_step (mkFlux {[ id_a ]} {[ 0%nat := {[ id_a ]} ]})
      (mkFlux {[ id_a; id_b ]} (<[1%nat := {[ id_b ]}]> {[ 0%nat := {[ id_a ]} ]}))).
    { apply (fx_lock _ _ [id_b]); reflexivity. } exact H. }
  apply rtc_once. exact (fx_drop {[ id_a; id_b ]} {[ 0%nat := {[ id_a ]}; 1%nat := {[ id_b ]} ]} 0 {[ id_a ]} eq_refl).
Defined.
