(* ===== verification/Rounds.v ===== *)
(** * Requests and challenges of rounds (lib/src/lib.rs, lib/src/rounds.rs, lib/src/challenges.rs)

    What users ask of a round, and the messages they sign to prove that they own
    the VTXOs they give up.  The signed message is the hash of a preimage that
    determines everything the user agreed to. *)
From Stdlib Require Strings.String.
From S2P Require Import Prelude Bitcoin Encode Concrete Policy Vtxo VtxoEncoding Arkoor SignedTree ChainSource.

Open Scope Z_scope.

Definition MIN_ROUND_TX_OUTPUTS : Z := 2.
Definition ROUND_TX_VTXO_TREE_VOUT : Z := 0.
Definition ROUND_TX_CONNECTOR_VOUT : Z := 1.

(** [v.to_be_bytes()] of an [n]-byte integer. *)
Definition to_be_bytes (n : nat) (v : Z) : bytes := reverse (le_split n v).

Record OffboardRequest := mkOffboard { ob_script_pubkey : bytes; ob_amount : Z }.
#[export] Instance OffboardRequest_eq_dec : EqDecision OffboardRequest.
Proof. solve_decision. Defined.

Definition to_txout (o : OffboardRequest) : TxOut := mkTxOut (ob_amount o) (ob_script_pubkey o).
#[export] Instance to_txout_inj : Inj (=) (=) to_txout.
Proof. intros [] [] H. injection H as -> ->. done. Qed.

Section Rounds.
Context `{B : Bitcoin} `{C : Consensus}.

Record VtxoIdInput := mkIdInput { vi_vtxo_id : bytes; ownership_proof : Signature }.
#[export] Instance VtxoIdInput_eq_dec : EqDecision VtxoIdInput.
Proof. solve_decision. Defined.

(** The size in vbytes that is charged for an output; the dust amounts are
    three times these. *)
Definition offboard_vbytes (script_pubkey : bytes) : outcome string Z :=
  match classify_script script_pubkey with
  | P2pkh => Ok 182
  | P2sh => Ok 180
  | P2wpkh => Ok 90
  | P2wsh => Ok 110
  | P2tr => Ok 110
  | OpReturn =>
      let len := Z.of_nat (length script_pubkey) in
      if 83 <? len then Err "OP_RETURN over 83 bytes"%string
      else Ok (Z.of_nat (length (emit_compact_size len)) + len + 8 + 36 + 4 + 1 + 1)
  | OtherScript => Err "non-standard scriptPubkey"%string
  end.

Definition calculate_fee `{!Fees} (script_pubkey : bytes) (fee_rate : Z) : outcome string Z :=
  vb ← offboard_vbytes script_pubkey;
  Ok (fee_for_weight fee_rate (vb * 4)).

Definition offboard_validate (o : OffboardRequest) : outcome string unit :=
  ensure (is_standard (to_txout o)) "non-standard output"%string.

Definition offboard_fee `{!Fees} (o : OffboardRequest) (fee_rate : Z) : outcome string Z :=
  calculate_fee (ob_script_pubkey o) fee_rate.

(** ** Challenges *)
Definition ROUND_PREFIX : bytes := Stdlib.Strings.String.list_byte_of_string "Ark round input ownership proof ".
Definition LIGHTNING_PREFIX : bytes := Stdlib.Strings.String.list_byte_of_string "Lightning receive VTXO challenge".
Definition STATUS_PREFIX : bytes := Stdlib.Strings.String.list_byte_of_string "Ark VTXO status query challenge ".

(** What is written to the hash engine for one request, for all of them, and
    for one offboard. *)
Definition request_preimage (r : SignedVtxoRequest) : outcome DecodingError bytes :=
  p ← encode (req_policy (sr_vtxo r));
  k ← encode (cosign_pubkey r);
  Ok (to_be_bytes 8 (req_amount (sr_vtxo r)) ++ p ++ k).

Definition round_preimage (challenge vtxo_id : bytes) (vtxo_reqs : list SignedVtxoRequest)
    (offboard_reqs : list OffboardRequest) : outcome DecodingError bytes :=
  rs ← mapM request_preimage vtxo_reqs;
  os ← mapM encode (to_txout <$> offboard_reqs);
  Ok (ROUND_PREFIX ++ challenge ++ vtxo_id ++ to_be_bytes 8 (Z.of_nat (length vtxo_reqs)) ++ concat rs ++
      to_be_bytes 8 (Z.of_nat (length offboard_reqs)) ++ concat os).

(** [RoundAttemptChallenge::as_signable_message]; writing to the hash engine
    never fails. *)
Definition as_signable_message (challenge vtxo_id : bytes) (vtxo_reqs : list SignedVtxoRequest)
    (offboard_reqs : list OffboardRequest) : outcome DecodingError bytes :=
  p ← round_preimage challenge vtxo_id vtxo_reqs offboard_reqs; Ok (sha256 p).

Definition verify_input_vtxo_sig (challenge : bytes) (vtxo : Vtxo) (vtxo_reqs : list SignedVtxoRequest)
    (offboard_reqs : list OffboardRequest) (sig : Signature) : outcome DecodingError bool :=
  msg ← as_signable_message challenge (vtxo_id vtxo) vtxo_reqs offboard_reqs;
  Ok (verify_schnorr sig msg (x_only_public_key (vtxo_user_pubkey vtxo))).

(** [LightningReceiveChallenge] and [VtxoStatusChallenge]. *)
Definition lightning_preimage (payment_hash vtxo_id : bytes) : bytes := LIGHTNING_PREFIX ++ payment_hash ++ vtxo_id.
Definition lightning_message (payment_hash vtxo_id : bytes) : bytes := sha256 (lightning_preimage payment_hash vtxo_id).
Definition verify_lightning_sig (payment_hash : bytes) (vtxo : Vtxo) (sig : Signature) : bool :=
  verify_schnorr sig (lightning_message payment_hash (vtxo_id vtxo)) (x_only_public_key (vtxo_user_pubkey vtxo)).

Definition status_preimage (vtxo_id : bytes) : bytes := STATUS_PREFIX ++ vtxo_id.
Definition status_message (vtxo_id : bytes) : bytes := sha256 (status_preimage vtxo_id).
Definition verify_status_sig (vtxo : Vtxo) (sig : Signature) : bool :=
  verify_schnorr sig (status_message (vtxo_id vtxo)) (x_only_public_key (vtxo_user_pubkey vtxo)).
End Rounds.

(** ** What a signature commits to *)
Section Commitment.
Context `{B : Bitcoin} `{C : Consensus} `{L : !SerializeLaws B} `{CL : !ConsensusLaws C}.

(** Encodings delimit themselves. *)
Lemma encode_app_inj {A} `{EncodingLaws A valid} (a b : A) x y r s : valid a -> valid b ->
  encode a = Ok x -> encode b = Ok y -> x ++ r = y ++ s -> a = b /\ r = s.
Proof.
  intros Ha Hb Hx Hy Heq. pose proof (decode_encode a x r Ha Hx) as H1. rewrite Heq in H1.
  pose proof (decode_encode b y s Hb Hy) as H2. rewrite H1 in H2. by injection H2.
Qed.

Lemma to_be_bytes_app_inj n v w r s : 0 <= v < 2 ^ (8 * Z.of_nat n) -> 0 <= w < 2 ^ (8 * Z.of_nat n) ->
  to_be_bytes n v ++ r = to_be_bytes n w ++ s -> v = w /\ r = s.
Proof.
  intros Hv Hw Heq. unfold to_be_bytes in Heq.
  apply app_inj_1 in Heq as [Heq Hr]; [|by rewrite !length_reverse, !length_le_split]. split; [|done].
  apply (inj reverse) in Heq. apply (f_equal le_combine) in Heq. rewrite !le_combine_split in Heq.
  by rewrite !Z.mod_small in Heq by (rewrite Z.mul_comm; lia).
Qed.

Definition valid_request (r : SignedVtxoRequest) : Prop :=
  in_u64 (req_amount (sr_vtxo r)) = true /\ valid_policy (req_policy (sr_vtxo r)).

Lemma request_preimage_inj a b x y r s : valid_request a -> valid_request b ->
  request_preimage a = Ok x -> request_preimage b = Ok y -> x ++ r = y ++ s -> a = b /\ r = s.
Proof.
  intros [Ha1 Ha2] [Hb1 Hb2] Hx Hy Heq. unfold request_preimage in *.
  apply bind_Ok in Hx as (pa & Hpa & Hx). apply bind_Ok in Hx as (ka & Hka & <-%Ok_inj).
  apply bind_Ok in Hy as (pb & Hpb & Hy). apply bind_Ok in Hy as (kb & Hkb & <-%Ok_inj).
  rewrite <- !app_assoc in Heq. apply in_width_spec in Ha1, Hb1.
  apply to_be_bytes_app_inj in Heq as [Ham Heq]; [|done..].
  destruct (encode_app_inj _ _ _ _ _ _ Ha2 Hb2 Hpa Hpb Heq) as [Hpol Heq'].
  destruct (encode_app_inj (valid := fun _ => True) _ _ _ _ _ _ I I Hka Hkb Heq') as [Hkey Hrest].
  split; [|done]. destruct a as [[? ?] ?], b as [[? ?] ?]. cbn in *. congruence.
Qed.

(** A concatenation of self-delimiting encodings of a known number of items. *)
Lemma mapM_concat_inj {A} (f : A -> outcome DecodingError bytes) (valid : A -> Prop) l k xs ys r s :
  (forall a b x y r s, valid a -> valid b -> f a = Ok x -> f b = Ok y -> x ++ r = y ++ s -> a = b /\ r = s) ->
  length l = length k -> Forall valid l -> Forall valid k -> mapM f l = Ok xs -> mapM f k = Ok ys ->
  concat xs ++ r = concat ys ++ s -> l = k /\ r = s.
Proof.
  intros Hf. revert k xs ys. induction l as [|a l IH]; intros [|b k] xs ys Hlen Hl Hk Hx Hy Heq; try done.
  - injection Hx as <-. injection Hy as <-. done.
  - cbn in Hx, Hy. apply bind_Ok in Hx as (x & Hfa & Hx). apply bind_Ok in Hx as (xs' & Hxs & <-%Ok_inj).
    apply bind_Ok in Hy as (y & Hfb & Hy). apply bind_Ok in Hy as (ys' & Hys & <-%Ok_inj).
    apply Forall_cons in Hl as [Ha Hl]. apply Forall_cons in Hk as [Hb Hk]. cbn [concat] in Heq.
    rewrite <- !app_assoc in Heq. destruct (Hf a b x y _ _ Ha Hb Hfa Hfb Heq) as [-> Heq'].
    destruct (IH k xs' ys') as [-> ->]; [by injection Hlen|done..].
Qed.

Definition valid_statement (challenge vtxo_id : bytes) (reqs : list SignedVtxoRequest) (offs : list OffboardRequest) : Prop :=
  length challenge = 32%nat /\ length vtxo_id = 36%nat /\ Forall valid_request reqs /\
  Forall (fun o => valid_txout (to_txout o)) offs /\
  Z.of_nat (length reqs) < 2 ^ 64 /\ Z.of_nat (length offs) < 2 ^ 64.

Lemma round_preimage_inj c id reqs offs c' id' reqs' offs' p :
  valid_statement c id reqs offs -> valid_statement c' id' reqs' offs' ->
  round_preimage c id reqs offs = Ok p -> round_preimage c' id' reqs' offs' = Ok p ->
  c = c' /\ id = id' /\ reqs = reqs' /\ offs = offs'.
Proof.
  intros (Hc & Hi & Hr & Ho & Hnr & Hno) (Hc' & Hi' & Hr' & Ho' & Hnr' & Hno') Hp Hp'. unfold round_preimage in *.
  apply bind_Ok in Hp as (rs & Hrs & Hp). apply bind_Ok in Hp as (os & Hos & Hp).
  apply bind_Ok in Hp' as (rs' & Hrs' & Hp'). apply bind_Ok in Hp' as (os' & Hos' & Hp').
  rewrite <- Hp' in Hp. apply Ok_inj in Hp. clear Hp'.
  apply app_inv_head in Hp. apply app_inj_1 in Hp as [-> Hp]; [|congruence].
  apply app_inj_1 in Hp as [-> Hp]; [|congruence].
  apply to_be_bytes_app_inj in Hp as [Hlr Hp]; [|change (8 * Z.of_nat 8) with 64; lia..].
  destruct (mapM_concat_inj request_preimage valid_request reqs reqs' rs rs' _ _
    request_preimage_inj ltac:(lia) Hr Hr' Hrs Hrs' Hp) as [-> Hp1]. clear Hp. rename Hp1 into Hp.
  apply to_be_bytes_app_inj in Hp as [Hlo Hp]; [|change (8 * Z.of_nat 8) with 64; lia..].
  rewrite <- (app_nil_r (concat os)), <- (app_nil_r (concat os')) in Hp.
  destruct (mapM_concat_inj encode valid_txout (to_txout <$> offs) (to_txout <$> offs') os os' _ _
    encode_app_inj ltac:(rewrite !length_fmap; lia) (proj2 (Forall_fmap _ _ _) Ho) (proj2 (Forall_fmap _ _ _) Ho')
    Hos Hos' Hp) as [Heq _].
  split_and?; [done..|]. by apply (inj (fmap to_txout)).
Qed.

(** A collision of the hash function that somebody would have found. *)
Definition collision : Prop := exists p q : bytes, p <> q /\ sha256 p = sha256 q.

Lemma same_hash p q : sha256 p = sha256 q -> p = q \/ collision.
Proof. intros H. destruct (decide (p = q)) as [|Hne]; [by left|]. right. by exists p, q. Qed.

(** C26. The message a user signs to register a payment commits to everything
    in it: two different statements (round attempt, VTXO, requested outputs with
    their order, policies, amounts and cosign keys, offboards) have different
    messages, and none of them can be passed off as the message of a lightning
    claim or of a status query, unless the hash function collides. *)
Theorem challenge_commits (c c' id id' id2 payment_hash : bytes) (reqs reqs' : list SignedVtxoRequest)
    (offs offs' : list OffboardRequest) m m' :
  valid_statement c id reqs offs -> valid_statement c' id' reqs' offs' ->
  as_signable_message c id reqs offs = Ok m -> as_signable_message c' id' reqs' offs' = Ok m' ->
  (m = m' -> (c = c' /\ id = id' /\ reqs = reqs' /\ offs = offs') \/ collision) /\
  (m = lightning_message payment_hash id2 -> collision) /\
  (m = status_message id2 -> collision) /\
  (lightning_message payment_hash id2 = status_message id2 -> collision).
Proof.
  intros Hv Hv' Hm Hm'. unfold as_signable_message in *.
  apply bind_Ok in Hm as (p & Hp & <-%Ok_inj). apply bind_Ok in Hm' as (p' & Hp' & <-%Ok_inj).
  assert (Hpre : exists rest, p = ROUND_PREFIX ++ rest).
  { unfold round_preimage in Hp. apply bind_Ok in Hp as (rs & _ & Hp). apply bind_Ok in Hp as (os & _ & <-%Ok_inj). by eexists. }
  destruct Hpre as (rest & Hrest). split_and!.
  - intros [->|Hc]%same_hash; [left|by right]. by eapply round_preimage_inj.
  - intros [Heq|Hc]%same_hash; [|done]. exfalso. rewrite Hrest in Heq. unfold lightning_preimage in Heq.
    by apply app_inj_1 in Heq as [Heq _].
  - intros [Heq|Hc]%same_hash; [|done]. exfalso. rewrite Hrest in Heq. unfold status_preimage in Heq.
    by apply app_inj_1 in Heq as [Heq _].
  - intros [Heq|Hc]%same_hash; [|done]. exfalso. unfold lightning_preimage, status_preimage in Heq.
    by apply app_inj_1 in Heq as [Heq _].
Qed.
End Commitment.

(** *** Witnesses *)
Definition statement_reqs : list (SignedVtxoRequest (B := ser_model)) :=
  [mkSignedRequest (B := ser_model) (mkRequest (B := ser_model) 1000 (new_pubkey (B := ser_model) Byte.x05)) (Some Byte.x06)].

Lemma challenge_commits_witness : exists m m',
  as_signable_message (B := ser_model) (replicate 32 Byte.x01) (replicate 36 Byte.x02) statement_reqs [] = Ok m /\
  as_signable_message (B := ser_model) (replicate 32 Byte.x03) (replicate 36 Byte.x02) statement_reqs [] = Ok m' /\
  (m = m' -> (replicate 32 Byte.x01 = replicate 32 Byte.x03 /\ replicate 36 Byte.x02 = replicate 36 Byte.x02 /\
     statement_reqs = statement_reqs /\ [] = [] :> list OffboardRequest) \/ collision (B := ser_model)).
Proof.
  do 2 eexists. split; [vm_compute; reflexivity|]. split; [vm_compute; reflexivity|].
  assert (Hv : forall b, valid_statement (B := ser_model) (replicate 32 b) (replicate 36 Byte.x02) statement_reqs []).
  { intros b. split; [reflexivity|]. split; [reflexivity|]. split; [|split; [constructor|split; reflexivity]].
    constructor; [split; [reflexivity|exact I]|constructor]. }
  refine (proj1 (challenge_commits (B := ser_model) (replicate 32 Byte.x01) (replicate 32 Byte.x03) (replicate 36 Byte.x02)
    (replicate 36 Byte.x02) [] [] statement_reqs statement_reqs [] [] _ _ (Hv _) (Hv _) _ _)); vm_compute; reflexivity.
Defined.
