(* ===== verification/CheckpointPackage.v ===== *)
(** * Packages of checkpointed arkoor payments (lib/src/arkoor/checkpointed_package.rs)

    One payment request paid from several VTXOs.  Every input gets a
    checkpointed builder of its own; the last one may pay change.  The
    operations of the package are those of its builders, one after the other. *)
From S2P Require Import Prelude Bitcoin Encode Concrete Policy Vtxo Validation Board Extend Arkoor CheckpointArkoor.

Open Scope Z_scope.

(** A package is the list of its builders; its requests and responses are the
    lists of theirs. *)
Abbreviation CheckpointedPackageBuilder s := (list (CheckpointedArkoorBuilder s)).
Abbreviation PackageCosignRequest V := (list (CosignRequest V)).
Abbreviation PackageCosignResponse := (list CosignResponse).

Section Package.
Context `{B : Bitcoin}.


Definition convert_vtxo {V O} (f : V -> O) (r : PackageCosignRequest V) : PackageCosignRequest O :=
  (fun r => mkCosignRequest (cr_user_pub_nonces r) (f (cr_input r)) (cr_outputs r)) <$> r.
Definition request_inputs {V} (r : PackageCosignRequest V) : list V := cr_input <$> r.

(** The loop of [new]; [to_be_paid] is what the inputs so far have not paid. *)
Fixpoint cpp_loop (ins : list Vtxo) (output : VtxoRequest) (change_pubkey : PublicKey) (to_be_paid : Z)
    (packages : CheckpointedPackageBuilder CpState.Initial)
  : outcome ArkoorConstructionError (Z * CheckpointedPackageBuilder CpState.Initial) :=
  match ins with
  | [] => Ok (to_be_paid, packages)
  | input :: rest =>
      let input_amount := amount input in
      if input_amount <=? to_be_paid then
        package ← cp_new input [mkRequest input_amount (req_policy output)];
        cpp_loop rest output change_pubkey (to_be_paid - input_amount) (packages ++ [package])
      else if 0 <? to_be_paid then
        let change_amount := amount input - to_be_paid in
        let requests :=
          if change_amount <? P2TR_DUST then [mkRequest (amount input) (req_policy output)]
          else [mkRequest to_be_paid (req_policy output); mkRequest change_amount (new_pubkey change_pubkey)] in
        package ← cp_new input requests;
        cpp_loop rest output change_pubkey 0 (packages ++ [package])
      else Err TooManyInputs
  end.

Definition cpp_new (ins : list Vtxo) (output : VtxoRequest) (change_pubkey : PublicKey)
  : outcome ArkoorConstructionError (CheckpointedPackageBuilder CpState.Initial) :=
  '(to_be_paid, packages) ← cpp_loop ins output change_pubkey (req_amount output) [];
  if negb (to_be_paid =? 0) then
    inp ← expect (checked_sub (req_amount output) to_be_paid); Err (CpUnbalanced inp (req_amount output))
  else Ok packages.

(** [rands i] is the randomness the builder [i] uses. *)
Definition cpp_generate_user_nonces (p : CheckpointedPackageBuilder CpState.Initial) (user_keypairs : list Keypair)
    (rands : nat -> nat -> Z) : outcome ArkoorSigningError (CheckpointedPackageBuilder CpState.UserGeneratedNonces) :=
  if negb (bool_decide (length user_keypairs = length p)) then Err (InvalidNbKeypairs (length p) (length user_keypairs))
  else imapM (fun idx b => key ← index user_keypairs idx; cp_generate_user_nonces b key (rands idx)) p.

Definition cpp_user_cosign (p : CheckpointedPackageBuilder CpState.UserGeneratedNonces) (user_keypair : list Keypair)
    (response : PackageCosignResponse) : outcome ArkoorSigningError (CheckpointedPackageBuilder CpState.UserSigned) :=
  if negb (bool_decide (length response = length p)) then Err (InvalidNbPackages (length p) (length response))
  else if negb (bool_decide (length user_keypair = length p)) then Err (InvalidNbKeypairs (length p) (length user_keypair))
  else imapM (fun idx b => key ← index user_keypair idx; resp ← index response idx; user_cosign b key resp) p.

Definition cosign_requests {E} (p : CheckpointedPackageBuilder CpState.UserGeneratedNonces)
  : outcome E (PackageCosignRequest Vtxo) := mapM cosign_request p.

Definition cpp_build_signed_vtxos {E} (p : CheckpointedPackageBuilder CpState.UserSigned) : outcome E (list Vtxo) :=
  vs ← mapM build_signed_vtxos p; Ok (concat vs).

Definition from_cosign_requests (r : PackageCosignRequest Vtxo)
  : outcome ArkoorSigningError (CheckpointedPackageBuilder CpState.ServerCanCosign) := mapM from_cosign_request r.

Definition cpp_server_cosign (p : CheckpointedPackageBuilder CpState.ServerCanCosign) (server_keypair : Keypair)
    (rands : nat -> nat -> Z) : outcome ArkoorSigningError (CheckpointedPackageBuilder CpState.ServerSigned) :=
  imapM (fun idx b => cp_server_cosign b server_keypair (rands idx)) p.

Definition cpp_cosign_response {E} (p : CheckpointedPackageBuilder CpState.ServerSigned)
  : outcome E PackageCosignResponse := mapM cosign_response p.

Definition cpp_build_unsigned_vtxos {E s} (p : CheckpointedPackageBuilder s) : outcome E (list Vtxo) :=
  vs ← mapM build_unsigned_vtxos p; Ok (concat vs).
Definition cpp_build_unsigned_checkpoint_vtxos {E s} (p : CheckpointedPackageBuilder s) : outcome E (list Vtxo) :=
  vs ← mapM build_unsigned_checkpoint_vtxos p; Ok (concat vs).
Definition cpp_spend_info {E s} (p : CheckpointedPackageBuilder s) : outcome E (list (VtxoId * bytes)) :=
  infos ← mapM spend_info p; Ok (concat infos).
End Package.

(** ** What a package pays *)
Section Pays.
Context `{B : Bitcoin}.

Definition package_outputs {s} (p : CheckpointedPackageBuilder s) : list VtxoRequest := concat (cp_outputs <$> p).

(** The outputs of a package: payments under the requested policy, then the
    change if there is any.  [left] is what stays unpaid. *)
Record pays_split (pol : VtxoPolicy) (cpk : PublicKey) (due left : Z) (outs paid : list VtxoRequest)
    (change : option VtxoRequest) : Prop := {
  ps_outs : outs = paid ++ option_list change;
  ps_policy : Forall (fun r => req_policy r = pol) paid;
  ps_change : forall r, change = Some r -> req_policy r = new_pubkey cpk /\ P2TR_DUST <= req_amount r;
  ps_enough : due - left <= sum_Z (req_amount <$> paid);
  ps_tip : sum_Z (req_amount <$> paid) < due - left + P2TR_DUST;
  ps_exact : left <> 0 \/ change <> None -> sum_Z (req_amount <$> paid) = due - left;
}.

Lemma cp_new_inv input outs b : cp_new input outs = Ok b ->
  cp_input b = input /\ cp_outputs b = outs /\ sum_Z (req_amount <$> outs) = amount input /\
  Forall (fun r => P2TR_DUST <= req_amount r) outs.
Proof.
  intros H. destruct (cp_new_core _ _ _ H) as (Hi & Ho & tr & cp_tr & txouts & Hc).
  rewrite <- Hi, <- Ho. split_and?; [done..|apply (core_sum _ _ _ _ Hc)|apply (core_dust _ _ _ _ Hc)].
Qed.

(** Paying one more input in full keeps the split. *)
Lemma pays_split_cons pol cpk due left outs paid change a : pays_split pol cpk (due - a) left outs paid change ->
  pays_split pol cpk due left (mkRequest a pol :: outs) (mkRequest a pol :: paid) change.
Proof.
  intros [H1 H2 H3 H4 H5 H6]. split; cbn [fmap list_fmap req_amount] in *; rewrite ?sum_Z_cons.
  - by rewrite H1.
  - by constructor.
  - done.
  - lia.
  - lia.
  - intros H. specialize (H6 H). lia.
Qed.

Lemma cpp_loop_nothing_due (ins : list Vtxo) output cpk acc left ps : cpp_loop ins output cpk 0 acc = Ok (left, ps) ->
  ins = [] /\ left = 0 /\ ps = acc.
Proof.
  intros H. destruct ins as [|i ins]; cbn [cpp_loop] in H; [by injection H as <- <-|].
  destruct (Z.leb_spec (amount i) 0) as [Hi|]; [|done]. apply bind_Ok in H as (b & Hb & _).
  apply cp_new_inv in Hb as (_ & _ & _ & [Hd _]%Forall_cons). cbn in Hd. unfold P2TR_DUST in Hd. lia.
Qed.

Lemma cpp_loop_pays (ins : list Vtxo) output cpk : forall due acc left ps, 0 <= due ->
  cpp_loop ins output cpk due acc = Ok (left, ps) ->
  exists ps' paid change, ps = acc ++ ps' /\ cp_input <$> ps' = ins /\
    sum_Z (req_amount <$> package_outputs ps') = sum_Z (amount <$> ins) /\ 0 <= left /\
    pays_split (req_policy output) cpk due left (package_outputs ps') paid change /\
    Forall (fun b => (length (cp_outputs b) <= 2)%nat) ps' /\ Forall (fun b => cp_new (cp_input b) (cp_outputs b) = Ok b) ps'.
Proof.
  induction ins as [|input ins IH]; intros due acc left ps Hdue H; cbn [cpp_loop] in H.
  { injection H as <- <-. exists [], [], None. rewrite app_nil_r. split_and?; [done..| |constructor|constructor].
    split; [done|constructor|done|cbn; lia|cbn; unfold P2TR_DUST; lia|cbn; lia]. }
  destruct (Z.leb_spec (amount input) due) as [Hle|Hgt].
  - apply bind_Ok in H as (b & Hb & H). destruct (cp_new_inv _ _ _ Hb) as (Hbi & Hbo & _).
    destruct (IH (due - amount input) _ _ _ ltac:(lia) H) as (ps' & paid & change & -> & <- & Hsum & Hl & Hps & Hlen & Hnew).
    exists (b :: ps'), (mkRequest (amount input) (req_policy output) :: paid), change. rewrite <- app_assoc.
    split; [done|]. split; [by rewrite fmap_cons, Hbi|]. unfold package_outputs. rewrite !fmap_cons. cbn [concat]. rewrite Hbo.
    split; [cbn [app fmap list_fmap]; rewrite !sum_Z_cons; cbn; by f_equal|]. split; [done|].
    split; [by apply pays_split_cons|]. split; constructor; [by rewrite Hbo; cbn; lia|done| |done]. by rewrite Hbi, Hbo.
  - destruct (Z.ltb_spec 0 due) as [Hd|Hd]; [|done].
    apply bind_Ok in H as (b & Hb & H). destruct (cp_new_inv _ _ _ Hb) as (Hbi & Hbo & Hbs & _).
    destruct (cpp_loop_nothing_due _ _ _ _ _ _ H) as (-> & -> & ->).
    exists [b]. unfold package_outputs. cbn [fmap list_fmap concat]. rewrite app_nil_r, Hbo, Hbs, Hbi.
    destruct (Z.ltb_spec (amount input - due) P2TR_DUST) as [Hdust|Hch].
    + exists [mkRequest (amount input) (req_policy output)], None. split_and?; [done..|cbn; lia|done| | |].
      * split; [done|by repeat constructor|done|cbn; lia|cbn; lia|]. intros [?|?]; done.
      * constructor; [rewrite Hbo; cbn; lia|constructor].
      * constructor; [by rewrite Hbi, Hbo|constructor].
    + exists [mkRequest due (req_policy output)], (Some (mkRequest (amount input - due) (new_pubkey cpk))).
      split_and?; [done..|cbn; lia|done| | |].
      * split; [done|by repeat constructor|intros r [= <-]; by split|cbn; lia|cbn; unfold P2TR_DUST; lia|cbn; lia].
      * constructor; [rewrite Hbo; cbn; lia|constructor].
      * constructor; [by rewrite Hbi, Hbo|constructor].
Qed.

Lemma cpp_new_pays (ins : list Vtxo) req cpk ps : 0 <= req_amount req -> cpp_new ins req cpk = Ok ps ->
  exists paid change, cp_input <$> ps = ins /\ sum_Z (req_amount <$> package_outputs ps) = sum_Z (amount <$> ins) /\
    pays_split (req_policy req) cpk (req_amount req) 0 (package_outputs ps) paid change /\
    Forall (fun b => (length (cp_outputs b) <= 2)%nat) ps /\ Forall (fun b => cp_new (cp_input b) (cp_outputs b) = Ok b) ps.
Proof.
  intros H0 H. unfold cpp_new in H. apply bind_Ok in H as ([left ps'] & Hl & H).
  destruct (Z.eqb_spec left 0) as [->|]; cbn [negb] in H; [|by apply bind_Ok in H as (? & _ & ?)]. apply Ok_inj in H as <-.
  destruct (cpp_loop_pays _ _ _ _ _ _ _ H0 Hl) as (ps2 & paid & change & Hps & Hi & Hs & _ & Hsp & Hlen & Hnew).
  cbn in Hps. subst ps2. by exists paid, change.
Qed.
End Pays.

(** A payment that leaves less than the dust limit to the last input is
    refused, although the inputs hold enough for it: only the change is checked
    for dust when the last input is split. *)
Lemma cpp_remainder_refused `{B : Bitcoin} (a b : Vtxo) pol cpk due b0 : cp_new a [mkRequest (amount a) pol] = Ok b0 ->
  amount a < due -> due - amount a < P2TR_DUST -> P2TR_DUST <= amount b - (due - amount a) -> amount b < 2 ^ 64 ->
  cpp_new [a; b] (mkRequest due pol) cpk = Err CpDust.
Proof.
  intros Ha Hd Hr Hc Hb. unfold cpp_new. cbn [cpp_loop req_amount req_policy].
  rewrite (proj2 (Z.leb_le (amount a) due)) by lia. rewrite Ha. cbn [mbind outcome_bind].
  rewrite (proj2 (Z.leb_gt (amount b) _)) by (unfold P2TR_DUST in *; lia). rewrite (proj2 (Z.ltb_lt 0 _)) by lia.
  rewrite (proj2 (Z.ltb_ge _ P2TR_DUST)) by lia. unfold cp_new, validate_amounts. cbn [fmap list_fmap req_amount].
  rewrite amount_sum_exact by (repeat constructor; unfold P2TR_DUST in *; lia).
  replace (sum_Z _) with (amount b) by (cbn; lia). rewrite (proj2 (Z.ltb_lt _ (2 ^ 64))) by lia.
  cbn [mbind outcome_bind]. rewrite bool_decide_true by done. cbn [ensure mbind outcome_bind existsb req_amount].
  by rewrite (proj2 (Z.ltb_lt _ P2TR_DUST)) by lia.
Qed.

(** ** The protocol completes *)

(** The stages of the exchange for the builder at one index, from their list. *)
Ltac at_stage T HT :=
  let i := fresh "i" in let t := fresh "t" in let Hx := fresh "Hx" in let Hy := fresh "Hy" in
  intros i ? ? Hx Hy; rewrite ?list_lookup_fmap in Hx; rewrite ?list_lookup_fmap in Hy;
  destruct (T !! i) as [t|] eqn:Ht; [|done];
  destruct (HT i t Ht) as (b0 & Hb0 & HR); destruct t as [[[[[[b1 rq] sb] sb'] resp] b2] vs];
  destruct HR as (ukey & Hk & H1 & H2 & H3 & H4 & H5 & H6 & H7 & _); cbn in Hx, Hy; simplify_eq.
Section Completes.
Context `{B : Bitcoin} `{W : !WitnessLaws B} `{K : !KeyLaws B} `{M : !MusigLaws B}.

(** A builder with as many sighashes as signatures generates nonces for all. *)
Lemma generate_total {E} input outs b0 key rands : cp_new input outs = Ok b0 ->
  exists b1, cp_generate_user_nonces (E:=E) b0 key rands = Ok b1.
Proof.
  intros H. destruct (cp_new_core _ _ _ H) as (Hi & Ho & tr & cp_tr & txouts & Hc). unfold cp_generate_user_nonces.
  destruct (mapM_total (fun idx => sh ← index (E:=E) (sighashes b0) idx; Ok (nonce_pair_with_msg key sh (rands idx)))
    (seq 0 (nb_sigs b0))) as (ns & ->); [|by eexists].
  intros i j [-> Hj]%lookup_seq. cbn [Nat.add]. unfold index, nb_sigs in *.
  destruct i as [|i]; [rewrite (core_hash0 _ _ _ _ Hc); by eexists|].
  destruct (lookup_lt_is_Some_2 (cp_outputs b0) i) as (r & Hr); [lia|].
  destruct (request_txouts_lookup _ _ _ _ _ (core_txouts _ _ _ _ Hc) Hr) as (o & Hox & _).
  rewrite (core_hash _ _ _ _ Hc i r o Hr Hox). by eexists.
Qed.

Lemma server_side input outs b0 b1 ukey skey rands srands : cp_new input outs = Ok b0 ->
  cp_generate_user_nonces (E:=ArkoorSigningError) b0 ukey rands = Ok b1 -> keypair_public_key skey = server_pubkey input ->
  exists req sb sb' resp, cosign_request (E:=ArkoorSigningError) b1 = Ok req /\ from_cosign_request req = Ok sb /\
    cp_server_cosign sb skey srands = Ok sb' /\ cosign_response (E:=ArkoorSigningError) sb' = Ok resp.
Proof.
  intros Hnew Hgen Hkey. destruct (cp_new_core _ _ _ Hnew) as (Hi & Ho & tr & cp_tr & txouts & Hc).
  unfold cp_generate_user_nonces in Hgen. apply bind_Ok in Hgen as (ns & Hns & <-%Ok_inj).
  pose proof (mapM_length _ _ _ Hns) as Hl. rewrite length_seq in Hl.
  assert (exists req sb, cosign_request (E:=ArkoorSigningError) (to_state CpState.UserGeneratedNonces
    (mkCp (s := CpState.Initial) (cp_input b0) (cp_outputs b0) (unsigned_checkpoint_tx b0) (unsigned_checkpoint_txid b0)
       (unsigned_arkoor_txs b0) (sighashes b0) (checkpoint_taptweak b0) (arkoor_taptweak b0) (new_vtxo_ids b0)
       (Some ns.*2) (Some ns.*1) (cp_server_pub_nonces b0) (cp_server_partial_sigs b0) (full_signatures b0))) = Ok req /\
    from_cosign_request req = Ok sb /\ cp_input sb = input /\ cp_outputs sb = outs /\
    cp_user_pub_nonces sb = Some ns.*2 /\ sighashes sb = sighashes b0) as (req & sb & Hreq & Hsb & Hsi & Hso & Hsn & Hsh).
  { eexists. unfold cosign_request. cbn [cp_user_pub_nonces to_state expect mbind outcome_bind cp_input cp_outputs].
    unfold from_cosign_request. eexists. split; [reflexivity|]. cbn [cr_input cr_outputs cr_user_pub_nonces].
    rewrite Hi, Ho, Hnew. cbn [map_err mbind outcome_bind]. unfold set_user_pub_nonces.
    rewrite bool_decide_true by (by rewrite length_fmap). by split_and!. }
  destruct (mapM_total (fun idx => ns ← expect (E:=ArkoorSigningError) (cp_user_pub_nonces sb); n ← index ns idx; sh ← index (sighashes sb) idx;
    Ok (deterministic_partial_sign skey [vtxo_user_pubkey input] [n] sh (Some (taptweak_at sb idx)) (srands idx)))
    (seq 0 (nb_sigs sb))) as (ss & Hss).
  { unfold nb_sigs in *. rewrite Hso, <- Ho. intros i j [-> Hj]%lookup_seq. cbn [Nat.add].
    destruct (mapM_lookup _ _ _ i i Hns) as (p & Hp & Hf); [by apply lookup_seq|].
    apply bind_Ok in Hf as (sh & Hsi' & _). rewrite Hsn, Hsh. unfold index in *. cbn [expect mbind outcome_bind].
    rewrite list_lookup_fmap, Hp. cbn [fmap option_fmap option_map expect mbind outcome_bind].
    apply expect_Ok in Hsi'. rewrite Hsi'. cbn [expect mbind outcome_bind]. by eexists. }
  exists req, sb. eexists. eexists. split; [exact Hreq|]. split; [exact Hsb|].
  unfold cp_server_cosign. rewrite Hsi, bool_decide_true by done. cbn [ensure mbind outcome_bind]. rewrite Hss. split; reflexivity.
Qed.

Lemma builder_completes anchor_tx input outs b0 ukey skey rands srands : good anchor_tx input -> cp_new input outs = Ok b0 ->
  (length outs <= 256)%nat -> keypair_public_key ukey = vtxo_user_pubkey input -> keypair_public_key skey = server_pubkey input ->
  exists b1 req sb sb' resp b2 vtxos, cp_generate_user_nonces (E:=ArkoorSigningError) b0 ukey rands = Ok b1 /\
    cosign_request (E:=ArkoorSigningError) b1 = Ok req /\ from_cosign_request req = Ok sb /\
    cp_server_cosign sb skey srands = Ok sb' /\ cosign_response (E:=ArkoorSigningError) sb' = Ok resp /\
    user_cosign b1 ukey resp = Ok b2 /\ build_signed_vtxos (E:=ArkoorSigningError) b2 = Ok vtxos /\
    Forall (good anchor_tx) vtxos /\ (fun v => mkRequest (amount v) (policy v)) <$> vtxos = outs.
Proof.
  intros Hgood Hnew Hlen Hu Hs. destruct (generate_total (E:=ArkoorSigningError) input outs b0 ukey rands Hnew) as (b1 & Hgen).
  destruct (server_side input outs b0 b1 ukey skey rands srands Hnew Hgen Hs) as (req & sb & sb' & resp & Hreq & Hsb & Hsb' & Hresp).
  pose proof (checkpoint_cosign_accepted _ _ _ _ _ _ _ _ _ _ _ _ Hnew Hgen Hreq Hsb Hsb' Hresp) as Hval.
  destruct (checkpoint_good anchor_tx input outs b0 b1 ukey rands resp Hgood Hnew Hlen Hgen Hu Hval) as (b2 & vtxos & H1 & H2 & H3 & H4).
  by exists b1, req, sb, sb', resp, b2, vtxos.
Qed.

(** C25. A payment from several VTXOs goes through.  For good inputs, each with
    its owner's key, when the package is accepted, the whole exchange with the
    server succeeds, every VTXO built at the end validates against the on-chain
    anchor of the input it comes from, and the outputs pay the requested amount
    under the requested policy: exactly if there is change, which goes to the
    change key and is not dust, and otherwise with a tip below the dust limit;
    nothing of the inputs is lost. *)
Theorem checkpoint_package_completes (anchors : list Transaction) (ins : list Vtxo) req cpk bs ukeys skey rands srands :
  Forall2 good anchors ins -> Forall2 (fun k v => keypair_public_key k = vtxo_user_pubkey v) ukeys ins ->
  Forall (fun v => keypair_public_key skey = server_pubkey v) ins -> 0 <= req_amount req -> cpp_new ins req cpk = Ok bs ->
  exists bs1 reqs sbs sbs' resps bs2 vtxos paid change,
    cpp_generate_user_nonces bs ukeys rands = Ok bs1 /\ cosign_requests (E:=ArkoorSigningError) bs1 = Ok reqs /\
    from_cosign_requests reqs = Ok sbs /\ cpp_server_cosign sbs skey srands = Ok sbs' /\
    cpp_cosign_response (E:=ArkoorSigningError) sbs' = Ok resps /\ cpp_user_cosign bs1 ukeys resps = Ok bs2 /\
    cpp_build_signed_vtxos (E:=ArkoorSigningError) bs2 = Ok vtxos /\
    Forall (fun v => Exists (fun a => good a v) anchors) vtxos /\
    pays_split (req_policy req) cpk (req_amount req) 0 ((fun v => mkRequest (amount v) (policy v)) <$> vtxos) paid change /\
    sum_Z (amount <$> vtxos) = sum_Z (amount <$> ins).
Proof.
  intros Hgood Hkeys Hserver H0 Hnew. destruct (cpp_new_pays ins req cpk bs H0 Hnew) as (paid & change & Hins & Hsum & Hsplit & Hlen & Hbs).
  assert (Hlb : length bs = length ins) by (by rewrite <- Hins, length_fmap).
  pose proof (Forall2_length _ _ _ Hkeys) as Hlk.
  set (R := fun i b0 (t : CheckpointedArkoorBuilder CpState.UserGeneratedNonces * CosignRequest Vtxo *
      CheckpointedArkoorBuilder CpState.ServerCanCosign * CheckpointedArkoorBuilder CpState.ServerSigned * CosignResponse *
      CheckpointedArkoorBuilder CpState.UserSigned * list Vtxo) =>
    let '(b1, rq, sb, sb', resp, b2, vs) := t in
    exists ukey, ukeys !! i = Some ukey /\ cp_generate_user_nonces (E:=ArkoorSigningError) b0 ukey (rands i) = Ok b1 /\
    cosign_request (E:=ArkoorSigningError) b1 = Ok rq /\ from_cosign_request rq = Ok sb /\
    cp_server_cosign sb skey (srands i) = Ok sb' /\ cosign_response (E:=ArkoorSigningError) sb' = Ok resp /\
    user_cosign b1 ukey resp = Ok b2 /\ build_signed_vtxos (E:=ArkoorSigningError) b2 = Ok vs /\
    Forall (fun v => Exists (fun a => good a v) anchors) vs /\ (fun v => mkRequest (amount v) (policy v)) <$> vs = cp_outputs b0).
  destruct (list_choice R bs) as (T & HlT & HT).
  { intros i b0 Hi. pose proof (lookup_lt_Some _ _ _ Hi) as Hlt.
    assert (Hv : ins !! i = Some (cp_input b0)) by (by rewrite <- Hins, list_lookup_fmap, Hi).
    destruct (Forall2_lookup_r _ _ _ _ _ Hgood Hv) as (anchor & Ha & Hg). destruct (Forall2_lookup_r _ _ _ _ _ Hkeys Hv) as (ukey & Hk & Hu).
    destruct (builder_completes anchor (cp_input b0) (cp_outputs b0) b0 ukey skey (rands i) (srands i) Hg)
      as (b1 & rq & sb & sb' & resp & b2 & vs & H1 & H2 & H3 & H4 & H5 & H6 & H7 & H8 & H9).
    { by apply (Forall_lookup_1 _ _ _ _ Hbs Hi). }
    { pose proof (Forall_lookup_1 _ _ _ _ Hlen Hi) as Hle. cbn in Hle. lia. }
    { exact Hu. }
    { by apply (Forall_lookup_1 _ _ _ _ Hserver Hv). }
    exists (b1, rq, sb, sb', resp, b2, vs). exists ukey. split_and!; try done.
    eapply Forall_impl; [exact H8|]. intros v Hvg. apply Exists_exists. exists anchor. split; [by apply list_elem_of_lookup_2 with i|exact Hvg]. }
  assert (HT' : forall i t, T !! i = Some t -> exists b0, bs !! i = Some b0 /\ R i b0 t).
  { intros i t Hi. destruct (lookup_lt_is_Some_2 bs i) as (b0 & Hb); [rewrite <- HlT; by eapply lookup_lt_Some|]. exists b0. by eauto. }
  exists (T.*1.*1.*1.*1.*1.*1), (T.*1.*1.*1.*1.*1.*2), (T.*1.*1.*1.*1.*2), (T.*1.*1.*1.*2), (T.*1.*1.*2), (T.*1.*2), (concat (T.*2)), paid, change.
  assert (Hcat : (fun v => mkRequest (amount v) (policy v)) <$> concat T.*2 = package_outputs bs).
  { unfold package_outputs. etrans; [apply Stdlib.Lists.List.concat_map|]. f_equal. change map with (@fmap list _). apply list_eq. intros i. rewrite !list_lookup_fmap.
    destruct (T !! i) as [t|] eqn:Ht.
    - destruct (HT' i t Ht) as (b0 & -> & HR). destruct t as [[[[[[b1 rq] sb] sb'] resp] b2] vs].
      destruct HR as (ukey & _ & _ & _ & _ & _ & _ & _ & _ & _ & H9). cbn. by rewrite H9.
    - by rewrite (proj2 (lookup_ge_None bs i)) by (rewrite <- HlT; by apply lookup_ge_None). }
  split_and!.
  - unfold cpp_generate_user_nonces. rewrite bool_decide_true by (rewrite Hlk; congruence). cbn [negb].
    apply imapM_by_lookup; [by rewrite !length_fmap|]. at_stage T HT'. unfold index. rewrite Hk. exact H1.
  - apply mapM_by_lookup; [by rewrite !length_fmap|]. at_stage T HT'. exact H2.
  - apply mapM_by_lookup; [by rewrite !length_fmap|]. at_stage T HT'. exact H3.
  - apply imapM_by_lookup; [by rewrite !length_fmap|]. at_stage T HT'. exact H4.
  - apply mapM_by_lookup; [by rewrite !length_fmap|]. at_stage T HT'. exact H5.
  - unfold cpp_user_cosign. rewrite !length_fmap, !bool_decide_true by (rewrite ?Hlk; congruence). cbn [negb].
    apply imapM_by_lookup; [by rewrite !length_fmap|]. at_stage T HT'. unfold index. rewrite Hk. cbn [expect mbind outcome_bind].
    rewrite !list_lookup_fmap, Ht. exact H6.
  - unfold cpp_build_signed_vtxos. rewrite (mapM_by_lookup _ _ (T.*2)); [done|by rewrite !length_fmap|]. at_stage T HT'. exact H7.
  - apply Forall_forall. intros v (vs & Hvs & Hv)%elem_of_concat. apply list_elem_of_lookup in Hvs as (i & Hi).
    rewrite list_lookup_fmap in Hi. destruct (T !! i) as [t|] eqn:Ht; [|done]. destruct (HT' i t Ht) as (b0 & _ & HR).
    destruct t as [[[[[[b1 rq] sb] sb'] resp] b2] vs']. destruct HR as (ukey & _ & _ & _ & _ & _ & _ & _ & _ & H8 & _).
    cbn in Hi. injection Hi as ->. by apply (proj1 (Forall_forall _ _) H8).
  - rewrite Hcat. exact Hsplit.
  - rewrite <- Hsum, <- Hcat, <- list_fmap_compose. done.
Qed.
End Completes.

(** *** Witness *)
Definition package_payment : VtxoRequest (B := model) := mkRequest (B := model) 12000 (new_pubkey (B := model) Byte.x06).
Definition package_bs : list (CheckpointedArkoorBuilder (B := model) CpState.Initial) :=
  ok_value [] (cpp_new [board_vtxo; board_vtxo] package_payment Byte.x05).

Lemma checkpoint_package_completes_witness : exists bs1 reqs,
  cpp_generate_user_nonces package_bs [Byte.x05; Byte.x05] (fun i j => Z.of_nat (10 * i + j)) = Ok bs1 /\
  cosign_requests (E := @ArkoorSigningError model) bs1 = Ok reqs.
Proof.
  assert (Hnew : cpp_new [board_vtxo; board_vtxo] package_payment Byte.x05 = Ok package_bs) by vm_eq.
  assert (Hg : Forall2 good [board_funding_tx; board_funding_tx] [board_vtxo; board_vtxo])
    by (apply Forall2_cons_2; [exact board_vtxo_good|apply Forall2_cons_2; [exact board_vtxo_good|apply Forall2_nil_2]]).
  assert (Hk : Forall2 (fun (k : @Keypair model) (v : Vtxo (B := model)) => keypair_public_key k = vtxo_user_pubkey v)
    [Byte.x05; Byte.x05] [board_vtxo; board_vtxo]) by (repeat constructor).
  assert (Hs : Forall (fun v : Vtxo (B := model) => keypair_public_key (Bitcoin := model) Byte.x09 = server_pubkey v) [board_vtxo; board_vtxo])
    by (repeat constructor).
  destruct (checkpoint_package_completes (B := model) [board_funding_tx; board_funding_tx] [board_vtxo; board_vtxo] package_payment
    Byte.x05 package_bs [Byte.x05; Byte.x05] Byte.x09 (fun i j => Z.of_nat (10 * i + j)) (fun i j => Z.of_nat (30 * i + j))
    Hg Hk Hs ltac:(done) Hnew) as (bs1 & reqs & _ & _ & _ & _ & _ & _ & _ & H1 & H2 & _).
  exists bs1, reqs. split; [exact H1|exact H2].
Defined.

Lemma cpp_remainder_refused_witness : cpp_new [board_vtxo; board_vtxo] (mkRequest (B := model) 10100 (new_pubkey (B := model) Byte.x06)) Byte.x05 = Err CpDust.
Proof. vm_eq. Qed.
