(* ===== verification/Connectors.v ===== *)
(** * Connector chains (lib/src/connectors.rs, bitcoin-ext/src/bitcoin.rs)

    A round transaction funds a chain of transactions that hands out one dust
    output, a connector, per forfeited VTXO.  The chain is produced lazily by
    two iterators.  Signing with a plain key is a third-party function, given by
    the class [Signing]. *)
From S2P Require Import Prelude Bitcoin Concrete Encode.

Open Scope Z_scope.

(** Schnorr signing of secp256k1 (with its auxiliary randomness), tweaking of
    a key pair, and the taproot key-spend sighash of one input of a transaction
    with several. *)
Class Signing (B : Bitcoin) := {
  sign_schnorr : bytes -> Keypair -> Z -> Signature;
  add_xonly_tweak : Keypair -> bytes -> option Keypair;
  prevouts_sighash : Transaction -> nat -> list TxOut -> bytes;
}.

(** A signature verifies for the signer's key; the key pair tweaked with the
    tap tweak of a taproot without scripts has its output key; sighashes do not
    commit to witnesses. *)
Class SigningLaws (B : Bitcoin) `{!Signing B} := {
  sign_verifies : forall msg (kp : Keypair) r,
    verify_schnorr (sign_schnorr msg kp r) msg (x_only_public_key (keypair_public_key kp)) = true;
  tweak_keypair : forall kp : Keypair,
    let x := x_only_public_key (keypair_public_key kp) in
    exists kp', add_xonly_tweak kp (taproot_tap_tweak x []) = Some kp' /\
      x_only_public_key (keypair_public_key kp') = taproot_output_key x [];
  prevouts_sighash_strip : forall tx i os, prevouts_sighash (strip tx) i os = prevouts_sighash tx i os;
  script_sighash_strip : forall tx o s, script_spend_sighash (strip tx) o s = script_spend_sighash tx o s;
}.

Definition CONNECTOR_TX_CHAIN_VOUT : Z := 0.
Definition CONNECTOR_TX_CONNECTOR_VOUT : Z := 1.
Definition TX_WEIGHT : Z := 167 * 4.
Definition SEQUENCE_MAX : Z := 2 ^ 32 - 1.

Inductive InvalidSigningKeyError := InvalidSigningKey.

(** [a - b] on an unsigned type. *)
Definition u_sub {E} (a b : Z) : outcome E Z := expect (checked_sub a b).

Section Connectors.
Context `{B : Bitcoin} `{S : !Signing B}.

(** [KeypairExt::for_keyspend]. *)
Definition for_keyspend {E} (kp : Keypair) : outcome E Keypair :=
  expect (add_xonly_tweak kp (taproot_tap_tweak (x_only_public_key (keypair_public_key kp)) [])).

Record ConnectorChain := mkChain { cc_len : Z; cc_spk : bytes; cc_utxo : OutPoint }.

Definition total_weight {E} (len : Z) : outcome E Z :=
  _ ← assert (negb (len =? 0)); u_mul 64 (len - 1) TX_WEIGHT.

Definition required_budget {E} (len : Z) : outcome E Z :=
  _ ← assert (negb (len =? 0)); u_mul 64 P2TR_DUST len.

Definition output_script (pubkey : PublicKey) : bytes :=
  p2tr_script (taproot_output_key (x_only_public_key pubkey) []).

Definition connector_output {E} (len : Z) (pubkey : PublicKey) : outcome E TxOut :=
  v ← required_budget len; Ok (mkTxOut v (output_script pubkey)).

Definition chain_new {E} (len : Z) (utxo : OutPoint) (pubkey : PublicKey) : outcome E ConnectorChain :=
  _ ← assert (negb (len =? 0)); Ok (mkChain len (output_script pubkey) utxo).

Definition chain_tx {E} (c : ConnectorChain) (prev : OutPoint) (idx : Z) : outcome E Transaction :=
  l ← u_sub (cc_len c) idx; l ← u_sub l 1;
  v ← required_budget l;
  Ok (mkTx 3 0 [mkTxIn prev [] SEQUENCE_MAX []]
    [mkTxOut v (cc_spk c); mkTxOut P2TR_DUST (cc_spk c); fee_anchor]).

(** [sign_tx]: the witness of the only input. *)
Definition sign_tx {E} (c : ConnectorChain) (tx : Transaction) (idx : Z) (keypair : Keypair) (rand : Z)
  : outcome E Transaction :=
  l ← u_sub (cc_len c) idx;
  v ← required_budget l;
  let sig := sign_schnorr (key_spend_sighash tx (mkTxOut v (cc_spk c))) keypair rand in
  match input tx with
  | i :: rest =>
      Ok (mkTx (tx_version tx) (lock_time tx)
            (mkTxIn (previous_output i) (script_sig i) (sequence i) [sig_serialize sig] :: rest) (output tx))
  | [] => Panic
  end.

Record ConnectorTxIter := mkTxIter {
  ct_chain : ConnectorChain; ct_sign_key : option Keypair; ct_prev : OutPoint; ct_idx : Z }.

Definition iter_signed_txs (c : ConnectorChain) (sign_key : Keypair)
  : outcome InvalidSigningKeyError ConnectorTxIter :=
  if bool_decide (cc_spk c = output_script (keypair_public_key sign_key)) then
    k ← for_keyspend sign_key; Ok (mkTxIter c (Some k) (cc_utxo c) 0)
  else Err InvalidSigningKey.

Definition iter_unsigned_txs (c : ConnectorChain) : ConnectorTxIter := mkTxIter c None (cc_utxo c) 0.

(** [Iterator::next] of [ConnectorTxIter]; [rand] is the randomness a signature
    made by this call uses. *)
Definition tx_iter_next {E} (rand : Z) (it : ConnectorTxIter) : outcome E (option Transaction * ConnectorTxIter) :=
  last ← u_sub (cc_len (ct_chain it)) 1;
  if last <=? ct_idx it then Ok (None, it)
  else
    tx ← chain_tx (ct_chain it) (ct_prev it) (ct_idx it);
    tx ← match ct_sign_key it with
         | Some keypair => sign_tx (ct_chain it) tx (ct_idx it) keypair rand
         | None => Ok tx
         end;
    idx ← u_add 64 (ct_idx it) 1;
    Ok (Some tx, mkTxIter (ct_chain it) (ct_sign_key it)
          (mkOutPoint (compute_txid tx) CONNECTOR_TX_CHAIN_VOUT) idx).

Definition tx_iter_size_hint {E} (it : ConnectorTxIter) : outcome E Z :=
  l ← u_sub (cc_len (ct_chain it)) 1; Ok (Z.max 0 (l - ct_idx it)).

Record ConnectorIter := mkConnIter {
  ci_txs : ConnectorTxIter; ci_maybe_last : option (OutPoint * option Transaction) }.

Definition connectors (c : ConnectorChain) : ConnectorIter :=
  mkConnIter (iter_unsigned_txs c) (Some (cc_utxo c, None)).

Definition connectors_signed (c : ConnectorChain) (sign_key : Keypair)
  : outcome InvalidSigningKeyError ConnectorIter :=
  txs ← iter_signed_txs c sign_key; Ok (mkConnIter txs (Some (cc_utxo c, None))).

Definition conn_iter_next {E} (rand : Z) (it : ConnectorIter)
  : outcome E (option (OutPoint * option Transaction) * ConnectorIter) :=
  match ci_maybe_last it with
  | None => Ok (None, it)
  | Some last =>
      '(o, txs) ← tx_iter_next rand (ci_txs it);
      match o with
      | Some tx =>
          let txid := compute_txid tx in
          Ok (Some (mkOutPoint txid CONNECTOR_TX_CONNECTOR_VOUT, Some tx),
              mkConnIter txs (Some (mkOutPoint txid CONNECTOR_TX_CHAIN_VOUT, Some tx)))
      | None => Ok (Some last, mkConnIter txs None)
      end
  end.

Definition conn_iter_size_hint {E} (it : ConnectorIter) : outcome E Z :=
  l ← tx_iter_size_hint (ci_txs it); u_add 64 l 1.

(** Running an iterator to its end; [None] when the fuel runs out.  The calls
    draw the randomness [rand], [rand + 1], ... *)
Fixpoint drain {E I A} (next : Z -> I -> outcome E (option A * I)) (fuel : nat) (rand : Z) (it : I)
  : outcome E (option (list A)) :=
  match fuel with
  | O => Ok None
  | Datatypes.S fuel =>
      '(o, it) ← next rand it;
      match o with
      | None => Ok (Some [])
      | Some a => l ← drain next fuel (rand + 1) it; Ok (option_map (cons a) l)
      end
  end.

Definition all_txs {E} (fuel : nat) (rand : Z) (it : ConnectorTxIter) : outcome E (option (list Transaction)) :=
  drain tx_iter_next fuel rand it.
Definition all_connectors {E} (fuel : nat) (rand : Z) (it : ConnectorIter)
  : outcome E (option (list (OutPoint * option Transaction))) :=
  drain conn_iter_next fuel rand it.
End Connectors.

(** ** The chain in closed form *)
Section Chain.
Context `{B : Bitcoin} `{S : !Signing B} `{W : !WitnessLaws B} `{SL : !SigningLaws B}.
Context (c : ConnectorChain) (n : nat) (Hlen : cc_len c = Z.of_nat (Datatypes.S n)).
Context (Hsize : P2TR_DUST * cc_len c < 2 ^ 64).

(** The value left in the chain before transaction [k]. *)
Definition budget (k : nat) : Z := P2TR_DUST * (cc_len c - Z.of_nat k).

Definition chain_outputs (k : nat) : list TxOut :=
  [mkTxOut (budget (Datatypes.S k)) (cc_spk c); mkTxOut P2TR_DUST (cc_spk c); fee_anchor].

(** Transaction [k], unsigned, and what it spends. *)
Fixpoint chain_prev (k : nat) : OutPoint :=
  match k with
  | O => cc_utxo c
  | Datatypes.S k =>
      mkOutPoint (compute_txid (mkTx 3 0 [mkTxIn (chain_prev k) [] SEQUENCE_MAX []] (chain_outputs k))) 0
  end.
Definition chain_utx (k : nat) : Transaction := mkTx 3 0 [mkTxIn (chain_prev k) [] SEQUENCE_MAX []] (chain_outputs k).

Definition chain_sig (kp : Keypair) (rand : Z) (k : nat) : Signature :=
  sign_schnorr (key_spend_sighash (chain_utx k) (mkTxOut (budget k) (cc_spk c))) kp rand.
Definition chain_stx (key : option Keypair) (rand : Z) (k : nat) : Transaction :=
  match key with
  | None => chain_utx k
  | Some kp => mkTx 3 0 [mkTxIn (chain_prev k) [] SEQUENCE_MAX [sig_serialize (chain_sig kp rand k)]] (chain_outputs k)
  end.

Lemma chain_stx_txid key rand k : compute_txid (chain_stx key rand k) = compute_txid (chain_utx k).
Proof. destruct key; [|done]. by rewrite <- (txid_strip (chain_stx _ _ _)), <- (txid_strip (chain_utx _)). Qed.

Lemma required_budget_at {E} (k : nat) l : (k <= n)%nat -> l = cc_len c - Z.of_nat k -> required_budget (E:=E) l = Ok (budget k).
Proof.
  intros Hk ->. unfold required_budget, u_mul, budget. rewrite (proj2 (negb_true_iff _)) by lia. cbn.
  rewrite (proj2 (in_width_spec 64 _)); [done|]. unfold P2TR_DUST in *. nia.
Qed.

Definition iter_at (key : option Keypair) (k : nat) : ConnectorTxIter := mkTxIter c key (chain_prev k) (Z.of_nat k).

Lemma u_sub_Ok {E} a b : b <= a -> u_sub (E:=E) a b = Ok (a - b).
Proof. intros H. unfold u_sub, checked_sub. by rewrite (proj2 (Z.leb_le _ _) H). Qed.

Lemma tx_iter_next_at {E} key rand k : (k < n)%nat ->
  tx_iter_next (E:=E) rand (iter_at key k) = Ok (Some (chain_stx key rand k), iter_at key (Datatypes.S k)).
Proof.
  intros Hk. unfold tx_iter_next, iter_at. cbn [ct_chain ct_idx ct_prev ct_sign_key].
  rewrite u_sub_Ok by lia. cbn [mbind outcome_bind]. rewrite (proj2 (Z.leb_gt _ _)) by lia.
  unfold chain_tx. rewrite (u_sub_Ok (cc_len c)) by lia. cbn [mbind outcome_bind]. rewrite u_sub_Ok by lia.
  cbn [mbind outcome_bind]. rewrite (required_budget_at (Datatypes.S k)) by lia. cbn [mbind outcome_bind].
  assert (Hadd : u_add (E:=E) 64 (Z.of_nat k) 1 = Ok (Z.of_nat (Datatypes.S k))).
  { unfold u_add. rewrite (proj2 (in_width_spec 64 _)); [f_equal; lia|]. unfold P2TR_DUST in *. nia. }
  destruct key as [kp|]; cbn [mbind outcome_bind].
  - unfold sign_tx. rewrite (u_sub_Ok (cc_len c)) by lia. cbn [mbind outcome_bind].
    rewrite (required_budget_at k) by lia. cbn [mbind outcome_bind input]. rewrite Hadd.
    cbn [mbind outcome_bind tx_version lock_time output previous_output script_sig sequence].
    fold (chain_outputs k). fold (chain_utx k). fold (chain_sig kp rand k). fold (chain_stx (Some kp) rand k).
    by rewrite chain_stx_txid.
  - rewrite Hadd. done.
Qed.

Lemma tx_iter_next_end {E} key rand : tx_iter_next (E:=E) rand (iter_at key n) = Ok (None, iter_at key n).
Proof.
  unfold tx_iter_next, iter_at. cbn [ct_chain ct_idx]. rewrite u_sub_Ok by lia. cbn [mbind outcome_bind].
  by rewrite (proj2 (Z.leb_le _ _)) by lia.
Qed.

Lemma all_txs_from {E} key m : forall k rand fuel, (k + m = n)%nat -> (m < fuel)%nat ->
  all_txs (E:=E) fuel rand (iter_at key k) =
    Ok (Some (imap (fun i j => chain_stx key (rand + Z.of_nat i) j) (seq k m))).
Proof.
  unfold all_txs. induction m as [|m IH]; intros k rand [|fuel] Hk Hf; try lia; cbn [drain].
  - assert (k = n) as -> by lia. by rewrite tx_iter_next_end.
  - rewrite tx_iter_next_at by lia. cbn [mbind outcome_bind]. rewrite (IH (Datatypes.S k)) by lia. cbn. do 3 f_equal.
    + f_equal. lia.
    + apply imap_ext. intros i j _. cbn. f_equal. lia.
Qed.

Lemma conn_iter_next_at {E} key rand k last : (k < n)%nat ->
  conn_iter_next (E:=E) rand (mkConnIter (iter_at key k) (Some last)) =
    Ok (Some (mkOutPoint (compute_txid (chain_utx k)) 1, Some (chain_stx key rand k)),
        mkConnIter (iter_at key (Datatypes.S k)) (Some (chain_prev (Datatypes.S k), Some (chain_stx key rand k)))).
Proof.
  intros Hk. unfold conn_iter_next. cbn [ci_maybe_last ci_txs]. rewrite tx_iter_next_at by done. cbn [mbind outcome_bind].
  by rewrite chain_stx_txid.
Qed.

Lemma conn_iter_next_last {E} key rand last :
  conn_iter_next (E:=E) rand (mkConnIter (iter_at key n) (Some last)) = Ok (Some last, mkConnIter (iter_at key n) None).
Proof. unfold conn_iter_next. cbn [ci_maybe_last ci_txs]. by rewrite tx_iter_next_end. Qed.

(** The connectors from transaction [k] on, given the last outpoint seen. *)
Lemma all_connectors_from {E} key m : forall k rand fuel last, (k + m = n)%nat -> (Datatypes.S m < fuel)%nat ->
  last.1 = chain_prev k ->
  exists l, all_connectors (E:=E) fuel rand (mkConnIter (iter_at key k) (Some last)) = Ok (Some l) /\
    l.*1 = ((fun j => mkOutPoint (compute_txid (chain_utx j)) 1) <$> seq k m) ++ [chain_prev n].
Proof.
  unfold all_connectors. induction m as [|m IH]; intros k rand [|fuel] last Hk Hf Hl; try lia; cbn [drain].
  - destruct fuel as [|fuel]; [lia|]. assert (k = n) as -> by lia.
    rewrite conn_iter_next_last. cbn [mbind outcome_bind drain]. eexists. split; [reflexivity|]. cbn. by rewrite Hl.
  - rewrite conn_iter_next_at by lia. cbn [mbind outcome_bind].
    destruct (IH (Datatypes.S k) (rand + 1) fuel (chain_prev (Datatypes.S k), Some (chain_stx key rand k)) ltac:(lia) ltac:(lia) eq_refl)
      as (l & -> & Hl'). cbn. eexists. split; [done|]. cbn. by rewrite Hl'.
Qed.
End Chain.

(** The output [o] at outpoint [p] is the funding output or made by one of the
    transactions. *)
Definition output_at `{B : Bitcoin} (utxo : OutPoint) (fund : TxOut) (txs : list Transaction) (p : OutPoint) (o : TxOut) : Prop :=
  (p = utxo /\ o = fund) \/
  exists tx, tx ∈ txs /\ op_txid p = compute_txid tx /\ output tx !! Z.to_nat (op_vout p) = Some o.

(** A transaction with one input that spends an output of the chain's key in
    full, with a valid signature. *)
Definition chain_spend_ok `{B : Bitcoin} `{S : !Signing B} (utxo : OutPoint) (fund : TxOut) (key : XOnlyPublicKey)
    (before : list Transaction) (tx : Transaction) : Prop :=
  exists prev sig spent, input tx = [mkTxIn prev [] SEQUENCE_MAX [sig_serialize sig]] /\
    output_at utxo fund before prev spent /\ script_pubkey spent = p2tr_script key /\
    value spent = sum_Z (value <$> output tx) /\
    verify_schnorr sig (key_spend_sighash tx spent) key = true.

Section Facts.
Context `{B : Bitcoin} `{S : !Signing B} `{W : !WitnessLaws B} `{SL : !SigningLaws B}.

Lemma connector_output_inv {E} len pk fund : 0 <= len -> connector_output (E:=E) len pk = Ok fund ->
  0 < len /\ P2TR_DUST * len < 2 ^ 64 /\ fund = mkTxOut (P2TR_DUST * len) (output_script pk).
Proof.
  intros H0 H. unfold connector_output, required_budget in H. apply bind_Ok in H as (v & H & <-%Ok_inj).
  apply bind_Ok in H as ([] & Hne%assert_Ok & H). apply negb_true_iff, Z.eqb_neq in Hne.
  unfold u_mul in H. destruct (in_width _ _) eqn:Hw; [|done]. apply Ok_inj in H as <-. apply in_width_spec in Hw.
  split_and?; [lia..|done].
Qed.

Lemma signed_tx_ok c n kp rand (stxs : list Transaction) utxo fund k : cc_len c = Z.of_nat (Datatypes.S n) ->
  (k < n)%nat -> utxo = cc_utxo c -> fund = mkTxOut (P2TR_DUST * cc_len c) (cc_spk c) ->
  cc_spk c = p2tr_script (x_only_public_key (keypair_public_key kp)) ->
  (forall j, (j < k)%nat -> exists r, chain_stx c (Some kp) r j ∈ stxs) ->
  chain_spend_ok utxo fund (x_only_public_key (keypair_public_key kp)) stxs (chain_stx c (Some kp) rand k).
Proof.
  intros Hlen Hk -> -> Hspk Hin. exists (chain_prev c k), (chain_sig c kp rand k), (mkTxOut (budget c k) (cc_spk c)).
  split; [done|]. split; [|split; [done|split]].
  - destruct k as [|k]; [left; split; [done|]; f_equal; unfold budget; lia|]. right.
    destruct (Hin k ltac:(lia)) as (r & Hr). exists (chain_stx c (Some kp) r k). split; [done|].
    rewrite chain_stx_txid. by split.
  - cbn. unfold budget. lia.
  - rewrite <- key_sighash_strip.
    replace (strip (chain_stx c (Some kp) rand k)) with (strip (chain_utx c k)) by done.
    rewrite key_sighash_strip. apply sign_verifies.
Qed.

(** A funded connector chain hands out exactly as many connectors as it was
    built for.  With its output in a round transaction, the iterators end, their
    size hints are exact, there is one transaction less than connectors, and
    every transaction spends in full the chain output before it (or the round
    output) with a signature valid for the chain's output key; every connector
    is a dust output of the chain's key. *)
Theorem connector_chain_spendable (len : Z) (utxo : OutPoint) (kp : Keypair) (rand : Z) fund fuel : 0 <= len ->
  connector_output (E := InvalidSigningKeyError) len (keypair_public_key kp) = Ok fund -> (Z.to_nat len < fuel)%nat ->
  let key := taproot_output_key (x_only_public_key (keypair_public_key kp)) [] in
  exists c it stxs conns,
    chain_new (E := InvalidSigningKeyError) len utxo (keypair_public_key kp) = Ok c /\
    iter_signed_txs c kp = Ok it /\ all_txs fuel rand it = Ok (E := InvalidSigningKeyError) (Some stxs) /\
    all_connectors fuel rand (connectors c) = Ok (E := InvalidSigningKeyError) (Some conns) /\
    tx_iter_size_hint it = Ok (E := InvalidSigningKeyError) (Z.of_nat (length stxs)) /\
    conn_iter_size_hint (connectors c) = Ok (E := InvalidSigningKeyError) (Z.of_nat (length conns)) /\
    Z.of_nat (length conns) = len /\ Z.of_nat (length stxs) = len - 1 /\
    (forall k tx, stxs !! k = Some tx -> chain_spend_ok utxo fund key (take k stxs) tx) /\
    (forall p, p ∈ conns.*1 -> output_at utxo fund stxs p (mkTxOut P2TR_DUST (p2tr_script key))).
Proof.
  intros H0 Hout Hfuel key. destruct (connector_output_inv len _ _ H0 Hout) as (Hpos & Hsize & Hfund).
  set (c := mkChain len (output_script (keypair_public_key kp)) utxo).
  destruct (tweak_keypair kp) as (kp' & Htweak & Hkey). set (n := Nat.pred (Z.to_nat len)).
  assert (Hlen : cc_len c = Z.of_nat (Datatypes.S n)) by (unfold n; cbn; lia).
  assert (Hspk : cc_spk c = p2tr_script (x_only_public_key (keypair_public_key kp'))) by (cbn; by rewrite Hkey).
  set (stxs := imap (fun i j => chain_stx c (Some kp') (rand + Z.of_nat i) j) (seq 0 n)).
  assert (Hls : length stxs = n) by (unfold stxs; by rewrite length_imap, length_seq).
  assert (Hstx : forall k, (k < n)%nat -> stxs !! k = Some (chain_stx c (Some kp') (rand + Z.of_nat k) k)).
  { intros k Hk. unfold stxs. rewrite list_lookup_imap, lookup_seq_lt by done. done. }
  destruct (all_connectors_from (E := InvalidSigningKeyError) c n Hlen Hsize None n 0 rand fuel (utxo, None) eq_refl ltac:(lia) eq_refl)
    as (conns & Hconns & Hfst).
  assert (Hlc : length conns = Datatypes.S n).
  { rewrite <- (length_fmap fst), Hfst, length_app, length_fmap, length_seq. cbn. lia. }
  exists c, (iter_at c (Some kp') 0), stxs, conns. split_and!.
  - unfold chain_new. by rewrite (proj2 (negb_true_iff _)) by lia.
  - unfold iter_signed_txs. rewrite bool_decide_eq_true_2 by done. unfold for_keyspend. by rewrite Htweak.
  - rewrite (all_txs_from c n Hlen Hsize (Some kp') n) by lia. done.
  - exact Hconns.
  - unfold tx_iter_size_hint. cbn [ct_chain ct_idx iter_at]. rewrite (u_sub_Ok) by lia. cbn. f_equal. lia.
  - unfold conn_iter_size_hint, tx_iter_size_hint. cbn [ct_chain ct_idx ci_txs connectors iter_unsigned_txs].
    rewrite u_sub_Ok by lia. cbn [mbind outcome_bind]. unfold u_add. rewrite (proj2 (in_width_spec 64 _)); [f_equal; lia|].
    unfold P2TR_DUST in *. lia.
  - lia.
  - lia.
  - intros k tx Hk. pose proof (lookup_lt_Some _ _ _ Hk) as Hlt. rewrite Hls in Hlt. rewrite (Hstx k Hlt) in Hk.
    injection Hk as <-. unfold key. rewrite <- Hkey. apply (signed_tx_ok c n); [done..|].
    intros j Hj. eexists. apply list_elem_of_lookup. exists j. rewrite lookup_take_lt by lia. apply Hstx. lia.
  - intros p Hp. rewrite Hfst in Hp. apply elem_of_app in Hp as [(j & -> & Hj)%list_elem_of_fmap | ->%list_elem_of_singleton].
    + apply elem_of_seq in Hj. right. exists (chain_stx c (Some kp') (rand + Z.of_nat j) j).
      split; [apply list_elem_of_lookup; exists j; apply Hstx; lia|]. rewrite chain_stx_txid. done.
    + destruct n as [|m] eqn:Hn; [left; split; [done|]; rewrite Hfund; by replace len with 1 by (cbn in Hlen; lia)|].
      right. exists (chain_stx c (Some kp') (rand + Z.of_nat m) m).
      split; [apply list_elem_of_lookup; exists m; apply Hstx; lia|]. rewrite chain_stx_txid. split; [done|].
      cbn [output chain_stx]. unfold chain_outputs. replace (budget c (Datatypes.S m)) with P2TR_DUST by (unfold budget; lia). done.
Qed.
End Facts.

(** *** Witness *)
#[export] Instance model_signing : Signing model :=
  Build_Signing model (fun msg (kp : Byte.byte) _ => ([kp], msg)) (fun kp _ => Some kp)
    (fun tx i os => hash (tx_bytes (strip tx) ++ int_bytes (Z.of_nat i) ++ (os ≫= txout_bytes))).

#[export] Instance model_signing_laws : SigningLaws model.
Proof.
  split.
  - intros. by apply bool_decide_eq_true.
  - intros kp. by exists kp.
  - intros tx i os. cbn. by rewrite strip_strip.
  - intros tx o s. cbn. by rewrite strip_strip.
Qed.

Definition connector_utxo : OutPoint := mkOutPoint (replicate 32 Byte.x07) 1.

Lemma connector_chain_spendable_witness : exists c it stxs,
  chain_new (B := model) (E := InvalidSigningKeyError) 3 connector_utxo Byte.x05 = Ok c /\
  iter_signed_txs (B := model) c Byte.x05 = Ok it /\
  all_txs (B := model) 4 0 it = Ok (E := InvalidSigningKeyError) (Some stxs) /\ Z.of_nat (length stxs) = 3 - 1.
Proof.
  destruct (connector_chain_spendable (B := model) 3 connector_utxo Byte.x05 0
    (mkTxOut 990 (output_script (B := model) Byte.x05)) 4) as (c & it & stxs & conns & H);
    [lia|reflexivity|apply Nat.lt_succ_diag_r|].
  exists c, it, stxs. split; [apply H|]. split; [apply H|]. split; apply H.
Defined.
