(* ===== verification/Forfeit.v ===== *)
(** * Forfeits (lib/src/forfeit.rs, server/src/forfeits.rs, server/src/round/mod.rs, bark/src/round.rs)

    A user who gives up a VTXO in a round signs a transaction that hands it to
    the server.  There are two protocols.  With connectors, the forfeit
    transaction also spends a connector of the round, so that it is only valid
    once the round is; the user signs it for every connector, the server checks
    the partial signatures and completes them when needed.  With hash locks
    (hArk), a first transaction moves the VTXO to an output that the server can
    claim by revealing a preimage. *)
From S2P Require Import Prelude Bitcoin Encode Concrete Policy Vtxo Arkoor Connectors.

Open Scope Z_scope.

(** Correctness of an untweaked musig session (BIP 327): the aggregate of valid
    partial signatures of all keys is valid for the aggregate key itself. *)
Class UntweakedLaws (B : Bitcoin) := {
  sig_agg_untweaked : forall (keys : list PublicKey) msg ks ns sigs,
    ks ≡ₚ keys -> length ns = length ks -> length sigs = length ks ->
    (forall i k n s, ks !! i = Some k -> ns !! i = Some n -> sigs !! i = Some s ->
      session_partial_verify (sort_keys keys) None (nonce_agg ns) msg s n k = true) ->
    verify_schnorr (session_sig_agg (sort_keys keys) None (nonce_agg ns) msg sigs) msg (combine_keys keys) = true;
}.

Section Forfeit.
Context `{B : Bitcoin} `{S : !Signing B}.

Definition fee_anchor_with_amount (amount : Z) : TxOut := mkTxOut amount p2a_script.

(** [Vtxo::forfeit_agg_pubkey], with its debug assertion. *)
Definition forfeit_agg_pubkey {E} (v : Vtxo) : outcome E XOnlyPublicKey :=
  let ret := combine_keys [vtxo_user_pubkey v; server_pubkey v] in
  tr ← output_taproot v;
  _ ← assert (bool_decide (ret = internal_key tr));
  Ok ret.

(** ** With connectors *)
Definition create_connector_forfeit_tx (v : Vtxo) (connector : OutPoint) (forfeit_sig connector_sig : option Signature)
  : Transaction :=
  mkTx 3 0
    [mkTxIn (point v) [] 0 (match forfeit_sig with Some s => [sig_serialize s] | None => [] end);
     mkTxIn connector [] 0 (match connector_sig with Some s => [sig_serialize s] | None => [] end)]
    [mkTxOut (amount v) (output_script (server_pubkey v)); fee_anchor_with_amount P2TR_DUST].

Definition connector_forfeit_input_sighash {E} (v : Vtxo) (connector : OutPoint) (connector_pk : PublicKey)
    (input_idx : nat) : outcome E (bytes * Transaction) :=
  exit_prevout ← vtxo_txout v;
  let connector_prevout := mkTxOut P2TR_DUST (output_script connector_pk) in
  let tx := create_connector_forfeit_tx v connector None None in
  Ok (prevouts_sighash tx input_idx [exit_prevout; connector_prevout], tx).

Definition connector_forfeit_sighash_exit {E} (v : Vtxo) (connector : OutPoint) (connector_pk : PublicKey)
  : outcome E (bytes * Transaction) := connector_forfeit_input_sighash v connector connector_pk 0.
Definition connector_forfeit_sighash_connector {E} (v : Vtxo) (connector : OutPoint) (connector_pk : PublicKey)
  : outcome E (bytes * Transaction) := connector_forfeit_input_sighash v connector connector_pk 1.

(** The connectors of a chain, for a [for] loop over [connectors().enumerate()].
    A chain of [len] connectors ends within [len + 1] calls. *)
Definition connector_points {E} (c : ConnectorChain) : outcome E (list OutPoint) :=
  l ← all_connectors (Datatypes.S (Z.to_nat (cc_len c))) 0 (connectors c);
  l ← expect l; Ok l.*1.

(** A loop body for every element of a list with its index. *)
Fixpoint for_enumerate {E A} (f : nat -> A -> outcome E unit) (i : nat) (l : list A) : outcome E unit :=
  match l with
  | [] => Ok tt
  | a :: l => _ ← f i a; for_enumerate f (Datatypes.S i) l
  end.

(** *** The server checks the partial signatures (server/src/round/mod.rs) *)
Definition check_forfeit_sig (v : Vtxo) (tr : Taproot) (connector_pk : PublicKey)
    (server_nonces user_nonces : list PublicNonce) (part_sigs : list PartialSignature) (idx : nat) (conn : OutPoint)
  : outcome string unit :=
  '(sighash, _) ← connector_forfeit_sighash_exit v conn connector_pk;
  part_sig ← expect (part_sigs !! idx);
  server_nonce ← expect (server_nonces !! idx);
  user_nonce ← expect (user_nonces !! idx);
  ensure (session_partial_verify (sort_keys [vtxo_user_pubkey v; server_pubkey v]) (Some (tap_tweak tr))
            (nonce_agg [user_nonce; server_nonce]) sighash part_sig user_nonce (vtxo_user_pubkey v))
    "Invalid partial forfeit signature"%string.

Definition validate_forfeit_sigs (v : Vtxo) (c : ConnectorChain) (connector_pk : PublicKey)
    (server_nonces user_nonces : list PublicNonce) (part_sigs : list PartialSignature) : outcome string unit :=
  if negb (Z.of_nat (length user_nonces) =? cc_len c) || negb (Z.of_nat (length part_sigs) =? cc_len c)
  then Err "not enough forfeit signatures provided"%string
  else
    tr ← output_taproot v;
    conns ← connector_points c;
    for_enumerate (check_forfeit_sig v tr connector_pk server_nonces user_nonces part_sigs) 0 conns.

(** *** The user signs for every connector (the loop of [sign_forfeits],
    bark/src/round.rs); [rand] is the randomness of the call for each index. *)
Definition sign_forfeit (v : Vtxo) (keypair : Keypair) (ark_server_pubkey connector_pubkey : PublicKey)
    (forfeit_nonces : option (list PublicNonce)) (rand : nat -> Z) (i : nat) (conn : OutPoint)
  : outcome string (PublicNonce * PartialSignature) :=
  '(sighash, _) ← connector_forfeit_sighash_exit v conn connector_pubkey;
  nonces ← ok_or forfeit_nonces "missing srv forfeit nonce"%string;
  srv_nonce ← ok_or (nonces !! i) "srv didn't provide enough forfeit nonces"%string;
  tr ← output_taproot v;
  Ok (deterministic_partial_sign keypair [ark_server_pubkey] [srv_nonce] sighash (Some (tap_tweak tr)) (rand i)).

Definition sign_vtxo_forfeits (v : Vtxo) (keypair : Keypair) (ark_server_pubkey connector_pubkey : PublicKey)
    (forfeit_nonces : option (list PublicNonce)) (rand : nat -> Z) (c : ConnectorChain)
  : outcome string (list (PublicNonce * PartialSignature)) :=
  conns ← connector_points c;
  mapM (fun p => sign_forfeit v keypair ark_server_pubkey connector_pubkey forfeit_nonces rand p.1 p.2)
    (imap pair conns).

(** *** The server completes a forfeit (server/src/forfeits.rs) *)
Record ForfeitState := mkForfeitState {
  fs_round_id : bytes; fs_user_nonces : list PublicNonce; fs_user_part_sigs : list PartialSignature;
  fs_pub_nonces : list PublicNonce; fs_sec_nonces : list SecretNonce }.

Definition finalize_forfeit_tx {E} (v : Vtxo) (ff : ForfeitState) (conn_idx : nat) (conn : OutPoint)
    (conn_key server_key : Keypair) (rand : Z) : outcome E Transaction :=
  '(sighash, _) ← connector_forfeit_sighash_exit v conn (keypair_public_key conn_key);
  user_nonce ← expect (fs_user_nonces ff !! conn_idx);
  pub_nonce ← expect (fs_pub_nonces ff !! conn_idx);
  let agg_nonce := nonce_agg [user_nonce; pub_nonce] in
  sec_nonce ← expect (fs_sec_nonces ff !! conn_idx);
  tr ← output_taproot v;
  user_sig ← expect (fs_user_part_sigs ff !! conn_idx);
  let '(part, sig) := partial_sign [vtxo_user_pubkey v; server_pubkey v] agg_nonce server_key sec_nonce sighash
    (Some (tap_tweak tr)) (Some [user_sig]) in
  _ ← assert (session_partial_verify (sort_keys [vtxo_user_pubkey v; server_pubkey v]) (Some (tap_tweak tr))
        agg_nonce sighash part pub_nonce (server_pubkey v));
  forfeit_sig ← expect sig;
  '(csighash, _) ← connector_forfeit_sighash_connector v conn (keypair_public_key conn_key);
  k ← for_keyspend conn_key;
  let conn_sig := sign_schnorr csighash k rand in
  Ok (create_connector_forfeit_tx v conn (Some forfeit_sig) (Some conn_sig)).
End Forfeit.

(** ** Forfeits with connectors complete *)
Section Connector.
Context `{B : Bitcoin} `{S : !Signing B} `{W : !WitnessLaws B} `{K : !KeyLaws B} `{M : !MusigLaws B} `{SL : !SigningLaws B}.

Lemma vtxo_txout_of {E F} v tr : output_taproot (E:=E) v = Ok tr ->
  vtxo_txout (E:=F) v = Ok (mkTxOut (amount v) (taproot_script_pubkey tr)).
Proof.
  intros H. apply (output_taproot_err (F:=F)) in H. unfold vtxo_txout, policy_txout, policy_script_pubkey.
  unfold output_taproot in H. by rewrite H.
Qed.

Definition conn_list (c : ConnectorChain) (n : nat) : list OutPoint :=
  ((fun j => mkOutPoint (compute_txid (chain_utx c j)) 1) <$> seq 0 n) ++ [chain_prev c n].

Lemma length_conn_list c n : length (conn_list c n) = Datatypes.S n.
Proof. unfold conn_list. rewrite length_app, length_fmap, length_seq. cbn. lia. Qed.

Lemma connector_points_Ok {E} c n : cc_len c = Z.of_nat (Datatypes.S n) -> P2TR_DUST * cc_len c < 2 ^ 64 ->
  connector_points (E:=E) c = Ok (conn_list c n).
Proof.
  intros Hlen Hsize. unfold connector_points, connectors.
  destruct (all_connectors_from (E := E) c n Hlen Hsize None n 0 0 (Datatypes.S (Z.to_nat (cc_len c))) (cc_utxo c, None)
    eq_refl ltac:(rewrite Hlen; lia) eq_refl) as (l & Hl & Hfst).
  change (iter_unsigned_txs c) with (iter_at c None 0). rewrite Hl. cbn [expect mbind outcome_bind]. by rewrite Hfst.
Qed.

Lemma for_enumerate_Ok {E A} (f : nat -> A -> outcome E unit) l : forall i,
  for_enumerate f i l = Ok tt <-> forall k a, l !! k = Some a -> f (i + k)%nat a = Ok tt.
Proof.
  induction l as [|a l IH]; intros i; cbn [for_enumerate]; [split; done|]. split.
  - intros H. apply bind_Ok in H as ([] & Ha & H). intros [|k] b; cbn; [intros [= <-]; by rewrite Nat.add_0_r|].
    intros Hk. rewrite <- Nat.add_succ_comm. by apply IH.
  - intros H. pose proof (H 0%nat a eq_refl) as Ha. rewrite Nat.add_0_r in Ha. rewrite Ha. cbn. apply IH.
    intros k b Hk. rewrite Nat.add_succ_comm. by apply H.
Qed.

Definition exit_sighash (v : Vtxo) (tr : Taproot) (connector_pk : PublicKey) (i : nat) (conn : OutPoint) : bytes :=
  prevouts_sighash (create_connector_forfeit_tx v conn None None) i
    [mkTxOut (amount v) (taproot_script_pubkey tr); mkTxOut P2TR_DUST (output_script connector_pk)].

Lemma ff_sighash_at {E F} v tr cpk i conn : output_taproot (E:=E) v = Ok tr ->
  connector_forfeit_input_sighash (E:=F) v conn cpk i = Ok (exit_sighash v tr cpk i conn, create_connector_forfeit_tx v conn None None).
Proof. intros H. unfold connector_forfeit_input_sighash. by rewrite (vtxo_txout_of v tr H). Qed.

(** The transaction hands the VTXO to the server, spends the connector, pays no
    fee beyond the connector's dust, and both signatures are valid. *)
Definition forfeit_tx_ok (v : Vtxo) (tr : Taproot) (connector_pk : PublicKey) (conn : OutPoint) (tx : Transaction) : Prop :=
  let prevouts := [mkTxOut (amount v) (taproot_script_pubkey tr); mkTxOut P2TR_DUST (output_script connector_pk)] in
  exists fsig csig,
    input tx = [mkTxIn (point v) [] 0 [sig_serialize fsig]; mkTxIn conn [] 0 [sig_serialize csig]] /\
    compute_txid tx = compute_txid (create_connector_forfeit_tx v conn None None) /\
    head (output tx) = Some (mkTxOut (amount v) (output_script (server_pubkey v))) /\
    sum_Z (value <$> output tx) = sum_Z (value <$> prevouts) /\
    verify_schnorr fsig (prevouts_sighash tx 0 prevouts) (output_key tr) = true /\
    verify_schnorr csig (prevouts_sighash tx 1 prevouts)
      (taproot_output_key (x_only_public_key connector_pk) []) = true.

Lemma forfeit_tx_intro v tr ckp kp' conn fsig r :
  x_only_public_key (keypair_public_key kp') = taproot_output_key (x_only_public_key (keypair_public_key ckp)) [] ->
  verify_schnorr fsig (exit_sighash v tr (keypair_public_key ckp) 0 conn) (output_key tr) = true ->
  forfeit_tx_ok v tr (keypair_public_key ckp) conn
    (create_connector_forfeit_tx v conn (Some fsig)
      (Some (sign_schnorr (exit_sighash v tr (keypair_public_key ckp) 1 conn) kp' r))).
Proof.
  intros Hk Hf. set (csig := sign_schnorr _ _ _). exists fsig, csig.
  assert (Hs : strip (create_connector_forfeit_tx v conn (Some fsig) (Some csig)) = create_connector_forfeit_tx v conn None None) by done.
  split; [done|]. split; [by rewrite <- txid_strip, Hs|]. split; [done|]. split; [cbn; lia|].
  rewrite <- !(prevouts_sighash_strip (create_connector_forfeit_tx v conn (Some fsig) (Some csig))), Hs.
  split; [exact Hf|]. rewrite <- Hk. apply sign_verifies.
Qed.

Lemma honest_forfeit_accepted v tr ukp cpk pubs rand c n : output_taproot (E:=string) v = Ok tr ->
  cc_len c = Z.of_nat (Datatypes.S n) -> P2TR_DUST * cc_len c < 2 ^ 64 ->
  keypair_public_key ukp = vtxo_user_pubkey v -> length pubs = Datatypes.S n ->
  exists sigs, sign_vtxo_forfeits v ukp (server_pubkey v) cpk (Some pubs) rand c = Ok sigs /\
    validate_forfeit_sigs v c cpk pubs sigs.*1 sigs.*2 = Ok tt.
Proof.
  intros Htr Hlen Hsize Hkey Hpubs. unfold sign_vtxo_forfeits. rewrite (connector_points_Ok c n Hlen Hsize). cbn [mbind outcome_bind].
  assert (Hsign : forall i conn, conn_list c n !! i = Some conn -> exists pub,  pubs !! i = Some pub /\
    sign_forfeit v ukp (server_pubkey v) cpk (Some pubs) rand i conn =
      Ok (deterministic_partial_sign ukp [server_pubkey v] [pub] (exit_sighash v tr cpk 0 conn) (Some (tap_tweak tr)) (rand i))).
  { intros i conn Hi. pose proof (lookup_lt_Some _ _ _ Hi) as Hlt. rewrite length_conn_list in Hlt.
    destruct (lookup_lt_is_Some_2 pubs i) as (pub & Hpub); [lia|]. exists pub. split; [done|].
    unfold sign_forfeit, connector_forfeit_sighash_exit. rewrite (ff_sighash_at v tr) by done. cbn [mbind outcome_bind ok_or].
    rewrite Hpub. cbn [mbind outcome_bind ok_or]. by rewrite Htr. }
  destruct (mapM_total (fun p => sign_forfeit v ukp (server_pubkey v) cpk (Some pubs) rand p.1 p.2) (imap pair (conn_list c n)))
    as (sigs & Hsigs).
  { intros i [j conn] Hi. rewrite list_lookup_imap in Hi.
    destruct (conn_list c n !! i) as [conn'|] eqn:Hc; [|done]. injection Hi as <- <-.
    destruct (Hsign i conn' Hc) as (pub & _ & Hs). eexists. exact Hs. }
  exists sigs. split; [done|]. pose proof (mapM_length _ _ _ Hsigs) as Hl. rewrite length_imap, length_conn_list in Hl.
  unfold validate_forfeit_sigs. rewrite !length_fmap, Hl, Hlen, Z.eqb_refl. cbn [negb orb]. rewrite Htr.
  cbn [mbind outcome_bind]. rewrite (connector_points_Ok c n Hlen Hsize). cbn [mbind outcome_bind].
  apply for_enumerate_Ok. intros k conn Hk. cbn [Nat.add]. destruct (Hsign k conn Hk) as (pub & Hpub & Hs).
  destruct (mapM_lookup _ _ _ k (k, conn) Hsigs) as (sg & Hsk & Hsg); [by rewrite list_lookup_imap, Hk|].
  assert (Hsg2 := eq_trans (eq_sym Hs) Hsg). apply Ok_inj in Hsg2. clear Hsg. rename Hsg2 into Hsg.
  pose proof (deterministic_partial_sign_verifies ukp (server_pubkey v) pub (exit_sighash v tr cpk 0 conn) (tap_tweak tr) (rand k)) as Hv.
  rewrite Hsg in Hv. destruct sg as [un ps]. unfold check_forfeit_sig, connector_forfeit_sighash_exit.
  rewrite (ff_sighash_at v tr) by done. cbn [mbind outcome_bind]. rewrite !list_lookup_fmap, Hsk, Hpub. cbn [fmap option_fmap option_map fst snd expect mbind outcome_bind].
  unfold verify_partial_sig in Hv. cbn [fst snd] in Hv. rewrite Hkey in Hv. by rewrite Hv.
Qed.

(** [partial_sign_final] with the server's key last. *)
Lemma partial_sign_last upk skp un sec ps msg leaves : let keys := [upk; keypair_public_key skp] in
  let tweak := Some (taproot_tap_tweak (combine_keys keys) leaves) in
  let agg := nonce_agg [un; sec_to_pub_nonce sec] in
  session_partial_verify (sort_keys keys) tweak agg msg ps un upk = true ->
  exists part sig, partial_sign keys agg skp sec msg tweak (Some [ps]) = (part, Some sig) /\
    session_partial_verify (sort_keys keys) tweak agg msg part (sec_to_pub_nonce sec) (keypair_public_key skp) = true /\
    verify_schnorr sig msg (taproot_output_key (combine_keys keys) leaves) = true.
Proof.
  intros keys tweak agg Hv.
  assert (Hk : combine_keys [keypair_public_key skp; upk] = combine_keys keys).
  { unfold combine_keys. by rewrite sort_keys_swap. }
  destruct (partial_sign_final _ upk skp un sec ps msg leaves eq_refl) as (part & sig & Hsig & Hv1 & Hfinal).
  { unfold verify_partial_sig. cbn [fst snd]. rewrite Hk. exact Hv. }
  rewrite Hk in Hfinal. exists part, sig. split_and!; [|..|done].
  - rewrite <- Hsig, Hk, (nonce_agg_perm [_; un] [un; _]) by constructor. unfold partial_sign. by rewrite (sort_keys_swap _ upk).
  - unfold verify_partial_sig in Hv1. cbn [fst snd] in Hv1. rewrite Hk, sort_keys_swap in Hv1.
    rewrite (nonce_agg_perm [_; un] [un; _]) in Hv1 by constructor. exact Hv1.
Qed.

Lemma accepted_forfeit_finalizes v tr ckp skp c n rid uns sigs secs idx conn r : output_taproot (E:=string) v = Ok tr ->
  cc_len c = Z.of_nat (Datatypes.S n) -> P2TR_DUST * cc_len c < 2 ^ 64 ->
  keypair_public_key skp = server_pubkey v -> length secs = Datatypes.S n ->
  validate_forfeit_sigs v c (keypair_public_key ckp) (sec_to_pub_nonce <$> secs) uns sigs = Ok tt ->
  conn_list c n !! idx = Some conn ->
  exists tx, finalize_forfeit_tx (E:=string) v (mkForfeitState rid uns sigs (sec_to_pub_nonce <$> secs) secs) idx conn ckp skp r = Ok tx /\
    forfeit_tx_ok v tr (keypair_public_key ckp) conn tx.
Proof.
  intros Htr Hlen Hsize Hskp Hsecs Hval Hc. unfold validate_forfeit_sigs in Hval.
  destruct (negb _ || negb _) eqn:Hl; [done|]. rewrite Htr in Hval. cbn [mbind outcome_bind] in Hval.
  rewrite (connector_points_Ok c n Hlen Hsize) in Hval. cbn [mbind outcome_bind] in Hval.
  rewrite for_enumerate_Ok in Hval. specialize (Hval idx conn Hc). cbn [Nat.add] in Hval.
  unfold check_forfeit_sig, connector_forfeit_sighash_exit in Hval. rewrite (ff_sighash_at v tr) in Hval by done.
  cbn [mbind outcome_bind] in Hval. apply bind_Ok in Hval as (ps & Hps%expect_Ok & Hval).
  apply bind_Ok in Hval as (sn & Hsn%expect_Ok & Hval). apply bind_Ok in Hval as (un & Hun%expect_Ok & Hv%ensure_Ok).
  rewrite list_lookup_fmap in Hsn. destruct (secs !! idx) as [sec|] eqn:Hsec; [|done]. injection Hsn as <-.
  unfold finalize_forfeit_tx, connector_forfeit_sighash_exit, connector_forfeit_sighash_connector.
  rewrite (ff_sighash_at v tr _ 0) by done. cbn [mbind outcome_bind fs_user_nonces fs_user_part_sigs fs_pub_nonces fs_sec_nonces].
  rewrite Hun, list_lookup_fmap, Hsec, Hps, Htr. cbn [fmap option_fmap option_map expect mbind outcome_bind].
  pose proof (taproot_internal_key _ _ _ _ _ Htr) as Hik. destruct tr as [ik leaves]. cbn [internal_key] in Hik.
  change (user_pubkey (policy v)) with (vtxo_user_pubkey v) in Hik. subst ik.
  unfold tap_tweak in *. cbn [internal_key tap_leaves] in *. rewrite <- Hskp in *.
  destruct (partial_sign_last _ skp un sec ps _ leaves Hv) as (part & sig & Hsig & Hv1 & Hfinal).
  rewrite Hsig, Hv1. cbn [assert expect mbind outcome_bind].
  rewrite (ff_sighash_at v (mkTaproot (combine_keys [vtxo_user_pubkey v; keypair_public_key skp]) leaves) _ 1) by done.
  cbn [mbind outcome_bind]. destruct (tweak_keypair ckp) as (kp' & Htw & Hk). unfold for_keyspend. rewrite Htw.
  cbn [expect mbind outcome_bind]. eexists. split; [reflexivity|]. by apply forfeit_tx_intro.
Qed.

(** C23. The forfeits of a round can always be enforced.  For a chain of as many
    connectors as the round has inputs and a VTXO with a taproot, the user's
    signatures pass the server's check; and for any nonces and partial
    signatures that pass the check, whoever made them, the server can complete
    the forfeit transaction for every single connector: it hands the whole VTXO
    to the server, pays no fee beyond the connector's dust, and both its
    signatures are valid. *)
Theorem connector_forfeits_enforceable (v : Vtxo) tr (ukp ckp skp : Keypair) (secs : list SecretNonce) rand len utxo c :
  output_taproot (E:=string) v = Ok tr -> keypair_public_key ukp = vtxo_user_pubkey v ->
  keypair_public_key skp = server_pubkey v ->
  chain_new (E:=string) len utxo (keypair_public_key ckp) = Ok c -> 0 <= len -> P2TR_DUST * len < 2 ^ 64 ->
  Z.of_nat (length secs) = len ->
  let cpk := keypair_public_key ckp in
  let pubs := sec_to_pub_nonce <$> secs in
  exists conns, connector_points (E:=string) c = Ok conns /\ Z.of_nat (length conns) = len /\
  (exists sigs, sign_vtxo_forfeits v ukp (server_pubkey v) cpk (Some pubs) rand c = Ok sigs /\
     validate_forfeit_sigs v c cpk pubs sigs.*1 sigs.*2 = Ok tt) /\
  (forall uns sigs, validate_forfeit_sigs v c cpk pubs uns sigs = Ok tt ->
     forall rid idx conn r, conns !! idx = Some conn ->
     exists tx, finalize_forfeit_tx (E:=string) v (mkForfeitState rid uns sigs pubs secs) idx conn ckp skp r = Ok tx /\
       forfeit_tx_ok v tr cpk conn tx).
Proof.
  intros Htr Huk Hsk Hc H0 Hsize Hsecs cpk pubs. unfold chain_new in Hc.
  apply bind_Ok in Hc as ([] & Hne%assert_Ok & <-%Ok_inj). apply negb_true_iff, Z.eqb_neq in Hne.
  set (c := mkChain _ _ _). set (n := Nat.pred (Z.to_nat len)).
  assert (Hlen : cc_len c = Z.of_nat (Datatypes.S n)) by (unfold n; cbn; lia).
  assert (Hls : length secs = Datatypes.S n) by (unfold n; lia).
  exists (conn_list c n). split; [by apply connector_points_Ok|].
  split; [rewrite length_conn_list; cbn in Hlen; lia|]. split.
  - apply (honest_forfeit_accepted v tr _ _ _ _ c n); [done..|]. unfold pubs. by rewrite length_fmap.
  - intros uns sigs Hval rid idx conn r Hi. by apply (accepted_forfeit_finalizes v tr ckp skp c n).
Qed.
End Connector.

(** ** With hash locks *)
Section Hark.
Context `{B : Bitcoin} `{S : !Signing B}.

Definition hark_forfeit_claim_taproot {E} (v : Vtxo) (unlock_hash : bytes) : outcome E Taproot :=
  agg_pk ← forfeit_agg_pubkey v;
  Ok (mkTaproot agg_pk [(1%nat, exit_clause (vtxo_user_pubkey v) (exit_delta v)); (1%nat, unlock_clause agg_pk unlock_hash)]).

Definition create_hark_forfeit_tx {E} (v : Vtxo) (unlock_hash : bytes) (signature : option Signature)
  : outcome E Transaction :=
  tr ← hark_forfeit_claim_taproot v unlock_hash;
  Ok (mkTx 3 0
    [mkTxIn (point v) [] SEQUENCE_MAX (match signature with Some s => [sig_serialize s] | None => [] end)]
    [mkTxOut (amount v) (taproot_script_pubkey tr); fee_anchor]).

Definition create_hark_forfeit_claim_tx {E} (v : Vtxo) (forfeit_point : OutPoint) (unlock_hash : bytes)
    (witness : option (Signature * bytes)) : outcome E Transaction :=
  w ← match witness with
      | Some (signature, unlock_preimage) =>
          tr ← hark_forfeit_claim_taproot v unlock_hash;
          let agg_pk := internal_key tr in
          ret ← forfeit_agg_pubkey v;
          _ ← assert (bool_decide (agg_pk = ret));
          let clause := unlock_clause agg_pk unlock_hash in
          cb ← expect (control_block tr clause);
          Ok [sig_serialize signature; unlock_preimage; script_bytes clause; cb]
      | None => Ok []
      end;
  Ok (mkTx 3 0 [mkTxIn forfeit_point [] SEQUENCE_MAX w]
    [mkTxOut (amount v) (output_script (server_pubkey v)); fee_anchor]).

Definition hark_forfeit_sighash {E} (v : Vtxo) (unlock_hash : bytes) : outcome E (bytes * Transaction) :=
  exit_prevout ← vtxo_txout v;
  tx ← create_hark_forfeit_tx v unlock_hash None;
  Ok (key_spend_sighash tx exit_prevout, tx).

Definition hark_forfeit_claim_sighash {E} (v : Vtxo) (forfeit_point : OutPoint) (unlock_hash : bytes)
  : outcome E (bytes * Transaction) :=
  tr ← hark_forfeit_claim_taproot v unlock_hash;
  let claim_txout := mkTxOut (amount v) (taproot_script_pubkey tr) in
  tx ← create_hark_forfeit_claim_tx v forfeit_point unlock_hash None;
  let agg_pk := internal_key tr in
  ret ← forfeit_agg_pubkey v;
  _ ← assert (bool_decide (agg_pk = ret));
  Ok (script_spend_sighash tx claim_txout (unlock_clause agg_pk unlock_hash), tx).

Record HashLockedForfeitNonces := mkForfeitNonces { forfeit_tx_nonce : PublicNonce; forfeit_claim_tx_nonce : PublicNonce }.

Record HashLockedForfeitBundle := mkBundle {
  hb_vtxo_id : bytes; hb_unlock_hash : bytes; hb_user_nonces : HashLockedForfeitNonces;
  forfeit_tx_part_sig : PartialSignature; forfeit_claim_tx_part_sig : PartialSignature }.

(** [forfeit_vtxo]; the two rands are those of the nonce generations. *)
Definition forfeit_vtxo {E} (v : Vtxo) (unlock_hash : bytes) (user_key : Keypair)
    (server_nonces : HashLockedForfeitNonces) (rand1 rand2 : Z) : outcome E HashLockedForfeitBundle :=
  let keys := [vtxo_user_pubkey v; server_pubkey v] in
  tr ← output_taproot v;
  '(ff_sighash, ff_tx) ← hark_forfeit_sighash v unlock_hash;
  let '(ff_sec_nonce, ff_pub_nonce) := nonce_pair_with_msg user_key ff_sighash rand1 in
  let ff_agg_nonce := nonce_agg [ff_pub_nonce; forfeit_tx_nonce server_nonces] in
  let ff_point := mkOutPoint (compute_txid ff_tx) 0 in
  let '(ff_part_sig, _) := partial_sign keys ff_agg_nonce user_key ff_sec_nonce ff_sighash (Some (tap_tweak tr)) None in
  '(claim_sighash, _) ← hark_forfeit_claim_sighash v ff_point unlock_hash;
  let '(claim_sec_nonce, claim_pub_nonce) := nonce_pair_with_msg user_key claim_sighash rand2 in
  let claim_agg_nonce := nonce_agg [claim_pub_nonce; forfeit_claim_tx_nonce server_nonces] in
  let '(claim_part_sig, _) := partial_sign keys claim_agg_nonce user_key claim_sec_nonce claim_sighash None None in
  Ok (mkBundle (vtxo_id v) unlock_hash (mkForfeitNonces ff_pub_nonce claim_pub_nonce) ff_part_sig claim_part_sig).

Definition bundle_verify (b : HashLockedForfeitBundle) (v : Vtxo) (server_nonces : HashLockedForfeitNonces)
  : outcome string unit :=
  if negb (bool_decide (vtxo_id v = hb_vtxo_id b)) then Err "VTXO mismatch"%string
  else
    let keys := [vtxo_user_pubkey v; server_pubkey v] in
    let ff_agg_nonce := nonce_agg [forfeit_tx_nonce (hb_user_nonces b); forfeit_tx_nonce server_nonces] in
    tr ← output_taproot v;
    '(ff_sighash, ff_tx) ← hark_forfeit_sighash v (hb_unlock_hash b);
    let ff_point := mkOutPoint (compute_txid ff_tx) 0 in
    _ ← ensure (session_partial_verify (sort_keys keys) (Some (tap_tweak tr)) ff_agg_nonce ff_sighash
          (forfeit_tx_part_sig b) (forfeit_tx_nonce (hb_user_nonces b)) (vtxo_user_pubkey v))
        "invalid partial sig for forfeit tx"%string;
    let claim_agg_nonce := nonce_agg [forfeit_claim_tx_nonce (hb_user_nonces b); forfeit_claim_tx_nonce server_nonces] in
    '(claim_sighash, _) ← hark_forfeit_claim_sighash v ff_point (hb_unlock_hash b);
    ensure (session_partial_verify (sort_keys keys) None claim_agg_nonce claim_sighash
      (forfeit_claim_tx_part_sig b) (forfeit_claim_tx_nonce (hb_user_nonces b)) (vtxo_user_pubkey v))
      "invalid partial sig for forfeit claim tx"%string.

Definition bundle_finish {E} (b : HashLockedForfeitBundle) (v : Vtxo) (server_pub_nonces : HashLockedForfeitNonces)
    (ff_sec_nonce claim_sec_nonce : SecretNonce) (server_key : Keypair) : outcome E (Signature * Signature) :=
  _ ← assert (bool_decide (vtxo_id v = hb_vtxo_id b));
  let keys := [vtxo_user_pubkey v; server_pubkey v] in
  let ff_agg_nonce := nonce_agg [forfeit_tx_nonce (hb_user_nonces b); forfeit_tx_nonce server_pub_nonces] in
  tr ← output_taproot v;
  '(ff_sighash, ff_tx) ← hark_forfeit_sighash v (hb_unlock_hash b);
  let ff_point := mkOutPoint (compute_txid ff_tx) 0 in
  let '(ff_part_sig, ff_sig) := partial_sign keys ff_agg_nonce server_key ff_sec_nonce ff_sighash
    (Some (tap_tweak tr)) (Some [forfeit_tx_part_sig b]) in
  ff_sig ← expect ff_sig;
  _ ← assert (session_partial_verify (sort_keys keys) (Some (tap_tweak tr)) ff_agg_nonce ff_sighash ff_part_sig
        (forfeit_tx_nonce server_pub_nonces) (server_pubkey v));
  _ ← assert (verify_schnorr ff_sig ff_sighash (output_key tr));
  let claim_agg_nonce := nonce_agg [forfeit_claim_tx_nonce (hb_user_nonces b); forfeit_claim_tx_nonce server_pub_nonces] in
  claim_taproot ← hark_forfeit_claim_taproot v (hb_unlock_hash b);
  '(claim_sighash, _) ← hark_forfeit_claim_sighash v ff_point (hb_unlock_hash b);
  let '(claim_part_sig, claim_sig) := partial_sign keys claim_agg_nonce server_key claim_sec_nonce claim_sighash
    None (Some [forfeit_claim_tx_part_sig b]) in
  claim_sig ← expect claim_sig;
  _ ← assert (session_partial_verify (sort_keys keys) None claim_agg_nonce claim_sighash claim_part_sig
        (forfeit_claim_tx_nonce server_pub_nonces) (server_pubkey v));
  _ ← assert (verify_schnorr claim_sig claim_sighash (internal_key claim_taproot));
  Ok (ff_sig, claim_sig).
End Hark.

Section HarkFacts.
Context `{B : Bitcoin} `{S : !Signing B} `{W : !WitnessLaws B} `{K : !KeyLaws B} `{M : !MusigLaws B}
  `{SL : !SigningLaws B} `{U : !UntweakedLaws B}.

(** The final signature of an untweaked session with the server's key last. *)
Lemma partial_sign_untweaked upk skp un sec ps msg : let keys := [upk; keypair_public_key skp] in
  let agg := nonce_agg [un; sec_to_pub_nonce sec] in
  session_partial_verify (sort_keys keys) None agg msg ps un upk = true ->
  exists part sig, partial_sign keys agg skp sec msg None (Some [ps]) = (part, Some sig) /\
    session_partial_verify (sort_keys keys) None agg msg part (sec_to_pub_nonce sec) (keypair_public_key skp) = true /\
    verify_schnorr sig msg (combine_keys keys) = true.
Proof.
  intros keys agg Hv. do 2 eexists. split; [reflexivity|].
  assert (H1 : session_partial_verify (sort_keys keys) None agg msg
    (session_partial_sign (sort_keys keys) None agg msg sec skp) (sec_to_pub_nonce sec) (keypair_public_key skp) = true).
  { apply partial_sign_verifies; [set_solver|]. rewrite elem_of_sort_keys. set_solver. }
  split; [exact H1|]. apply (sig_agg_untweaked keys msg keys [un; sec_to_pub_nonce sec]); [done..|].
  intros [|[|i]] k n s; cbn; intros [= <-] [= <-] [= <-]; done.
Qed.

(** A partial signature made with a fresh nonce verifies. *)
Lemma partial_sign_first key other server_nonce msg tweak r sec pub : nonce_pair_with_msg key msg r = (sec, pub) ->
  let keys := [keypair_public_key key; other] in
  session_partial_verify (sort_keys keys) tweak (nonce_agg [pub; server_nonce]) msg
    (partial_sign keys (nonce_agg [pub; server_nonce]) key sec msg tweak None).1 pub (keypair_public_key key) = true.
Proof.
  intros Hn keys. pose proof (new_nonce_pair_pub key (Some msg) r) as Hp. unfold nonce_pair_with_msg in Hn. rewrite Hn in Hp.
  cbn in Hp. subst pub. apply partial_sign_verifies; [set_solver|]. rewrite elem_of_sort_keys. set_solver.
Qed.

Section with_vtxo.
Context (v : Vtxo) (tr : Taproot) (Htr : output_taproot (E:=string) v = Ok tr) (uh : bytes).

Definition agg_of : XOnlyPublicKey := combine_keys [vtxo_user_pubkey v; server_pubkey v].
Definition claim_tr : Taproot :=
  mkTaproot agg_of [(1%nat, exit_clause (vtxo_user_pubkey v) (exit_delta v)); (1%nat, unlock_clause agg_of uh)].
Definition hark_tx (w : list bytes) : Transaction :=
  mkTx 3 0 [mkTxIn (point v) [] SEQUENCE_MAX w] [mkTxOut (amount v) (taproot_script_pubkey claim_tr); fee_anchor].
Definition claim_tx (p : OutPoint) (w : list bytes) : Transaction :=
  mkTx 3 0 [mkTxIn p [] SEQUENCE_MAX w] [mkTxOut (amount v) (output_script (server_pubkey v)); fee_anchor].

Lemma forfeit_agg_Ok {E} : forfeit_agg_pubkey (E:=E) v = Ok agg_of.
Proof.
  unfold forfeit_agg_pubkey. rewrite (output_taproot_err _ _ Htr). cbn [mbind outcome_bind].
  rewrite (taproot_internal_key _ _ _ _ _ Htr). by rewrite bool_decide_eq_true_2.
Qed.
Lemma claim_tr_Ok {E} : hark_forfeit_claim_taproot (E:=E) v uh = Ok claim_tr.
Proof. unfold hark_forfeit_claim_taproot. by rewrite forfeit_agg_Ok. Qed.
Lemma hark_tx_Ok {E} sig : create_hark_forfeit_tx (E:=E) v uh sig =
  Ok (hark_tx (match sig with Some s => [sig_serialize s] | None => [] end)).
Proof. unfold create_hark_forfeit_tx. by rewrite claim_tr_Ok. Qed.
Lemma hark_sighash_Ok {E} : hark_forfeit_sighash (E:=E) v uh =
  Ok (key_spend_sighash (hark_tx []) (mkTxOut (amount v) (taproot_script_pubkey tr)), hark_tx []).
Proof. unfold hark_forfeit_sighash. rewrite (vtxo_txout_of v tr Htr). cbn [mbind outcome_bind]. by rewrite hark_tx_Ok. Qed.
Lemma claim_sighash_Ok {E} p : hark_forfeit_claim_sighash (E:=E) v p uh =
  Ok (script_spend_sighash (claim_tx p []) (mkTxOut (amount v) (taproot_script_pubkey claim_tr)) (unlock_clause agg_of uh), claim_tx p []).
Proof.
  unfold hark_forfeit_claim_sighash. rewrite claim_tr_Ok. cbn [mbind outcome_bind create_hark_forfeit_claim_tx].
  rewrite forfeit_agg_Ok. cbn [mbind outcome_bind]. by rewrite bool_decide_eq_true_2.
Qed.
Lemma claim_tx_Ok {E} p s preimage : exists cb, control_block claim_tr (unlock_clause agg_of uh) = Some cb /\
  create_hark_forfeit_claim_tx (E:=E) v p uh (Some (s, preimage)) =
    Ok (claim_tx p [sig_serialize s; preimage; script_bytes (unlock_clause agg_of uh); cb]).
Proof.
  unfold create_hark_forfeit_claim_tx. rewrite claim_tr_Ok. cbn [mbind outcome_bind]. rewrite forfeit_agg_Ok.
  cbn [mbind outcome_bind internal_key claim_tr]. rewrite bool_decide_eq_true_2 by done. cbn [mbind outcome_bind assert].
  fold claim_tr. unfold control_block. rewrite bool_decide_eq_true_2 by (cbn; set_solver). eexists. split; [done|]. done.
Qed.
End with_vtxo.

(** C24. The hash-locked forfeit protocol works.  The bundle a user makes passes
    the server's check, and any bundle that passes it, whoever made it, can be
    completed: the forfeit transaction spends the VTXO in full with a valid
    key-spend signature, and the claim transaction spends its output to the
    server with the aggregate key's signature for the unlock script, that
    script's control block and the preimage. *)
Theorem hark_forfeit_enforceable (v : Vtxo) tr (ukp skp : Keypair) (uh preimage : bytes) (sec1 sec2 : SecretNonce) r1 r2 :
  output_taproot (E:=string) v = Ok tr -> keypair_public_key ukp = vtxo_user_pubkey v ->
  keypair_public_key skp = server_pubkey v ->
  let nonces := mkForfeitNonces (sec_to_pub_nonce sec1) (sec_to_pub_nonce sec2) in
  let key := combine_keys [vtxo_user_pubkey v; server_pubkey v] in
  let clause := unlock_clause key uh in
  (exists b, forfeit_vtxo (E:=string) v uh ukp nonces r1 r2 = Ok b /\ hb_unlock_hash b = uh /\ bundle_verify b v nonces = Ok tt) /\
  (forall b, hb_unlock_hash b = uh -> bundle_verify b v nonces = Ok tt ->
     exists s1 s2 ff_tx ctx claim_out ctr cb,
       bundle_finish (E:=string) b v nonces sec1 sec2 skp = Ok (s1, s2) /\
       create_hark_forfeit_tx (E:=string) v uh (Some s1) = Ok ff_tx /\
       create_hark_forfeit_claim_tx (E:=string) v (mkOutPoint (compute_txid ff_tx) 0) uh (Some (s2, preimage)) = Ok ctx /\
       hark_forfeit_claim_taproot (E:=string) v uh = Ok ctr /\ control_block ctr clause = Some cb /\
       previous_output <$> input ff_tx = [point v] /\ witness <$> input ff_tx = [[sig_serialize s1]] /\
       verify_schnorr s1 (key_spend_sighash ff_tx (mkTxOut (amount v) (taproot_script_pubkey tr))) (output_key tr) = true /\
       output ff_tx !! 0%nat = Some claim_out /\ claim_out = mkTxOut (amount v) (taproot_script_pubkey ctr) /\
       witness <$> input ctx = [[sig_serialize s2; preimage; script_bytes clause; cb]] /\
       verify_schnorr s2 (script_spend_sighash ctx claim_out clause) key = true /\
       head (output ctx) = Some (mkTxOut (amount v) (output_script (server_pubkey v)))).
Proof.
  intros Htr Huk Hsk nonces key clause. split.
  - unfold forfeit_vtxo. rewrite Htr. cbn [mbind outcome_bind]. rewrite (hark_sighash_Ok v tr Htr). cbn [mbind outcome_bind].
    destruct (nonce_pair_with_msg _ _ r1) as [s1 p1] eqn:Hn1.
    pose proof (fun t => partial_sign_first _ (server_pubkey v) (sec_to_pub_nonce sec1) _ t _ _ _ Hn1) as Hv1.
    rewrite (claim_sighash_Ok v tr Htr).
    destruct (partial_sign _ _ _ s1 _ _ _) as [ps1 o1] eqn:Hp1. cbn [mbind outcome_bind].
    destruct (nonce_pair_with_msg _ _ r2) as [s2 p2] eqn:Hn2.
    pose proof (fun t => partial_sign_first _ (server_pubkey v) (sec_to_pub_nonce sec2) _ t _ _ _ Hn2) as Hv2.
    destruct (partial_sign _ _ _ s2 _ _ _) as [ps2 o2] eqn:Hp2. eexists. split; [reflexivity|]. split; [done|].
    unfold bundle_verify. cbn [hb_vtxo_id]. rewrite bool_decide_eq_true_2 by done. cbn [negb]. rewrite Htr.
    cbn [mbind outcome_bind hb_unlock_hash hb_user_nonces forfeit_tx_nonce forfeit_claim_tx_nonce forfeit_tx_part_sig forfeit_claim_tx_part_sig nonces].
    rewrite (hark_sighash_Ok v tr Htr). cbn [mbind outcome_bind]. rewrite (claim_sighash_Ok v tr Htr). rewrite Huk in Hv1, Hv2.
    specialize (Hv1 (Some (tap_tweak tr))). specialize (Hv2 None). cbv zeta in Hv1, Hv2.
    cbn [nonces forfeit_tx_nonce forfeit_claim_tx_nonce] in Hp1, Hp2. rewrite Hp1 in Hv1. rewrite Hp2 in Hv2.
    cbn [fst] in Hv1, Hv2. rewrite Hv1. cbn [ensure mbind outcome_bind]. by rewrite Hv2.
  - intros b Huh Hb. unfold bundle_verify in Hb. destruct (negb _) eqn:Hid; [done|]. apply negb_false_iff, bool_decide_eq_true in Hid.
    rewrite Htr in Hb. cbn [mbind outcome_bind] in Hb. rewrite Huh, (hark_sighash_Ok v tr Htr) in Hb. cbn [mbind outcome_bind] in Hb.
    apply bind_Ok in Hb as ([] & Hff%ensure_Ok & Hb). rewrite (claim_sighash_Ok v tr Htr) in Hb.
    cbn [mbind outcome_bind] in Hb. apply ensure_Ok in Hb. cbn [nonces forfeit_tx_nonce forfeit_claim_tx_nonce] in Hff, Hb.
    pose proof (taproot_internal_key _ _ _ _ _ Htr) as Hik. destruct tr as [ik leaves]. cbn [internal_key] in Hik.
    change (user_pubkey (policy v)) with (vtxo_user_pubkey v) in Hik. subst ik.
    unfold tap_tweak in Hff. cbn [internal_key tap_leaves] in Hff. rewrite <- Hsk in Hff, Hb.
    destruct (partial_sign_last _ skp _ sec1 _ _ leaves Hff) as (pa1 & s1 & Hs1 & Hv1 & Hf1).
    destruct (partial_sign_untweaked _ skp _ sec2 _ _ Hb) as (pa2 & s2 & Hs2 & Hv2 & Hf2). rewrite Hsk in *.
    set (tr := mkTaproot _ leaves) in *. exists s1, s2, (hark_tx v uh [sig_serialize s1]).
    assert (Htxid : compute_txid (hark_tx v uh [sig_serialize s1]) = compute_txid (hark_tx v uh [])).
    { by rewrite <- (txid_strip (hark_tx v uh [_])). }
    destruct (claim_tx_Ok (E:=string) v tr Htr uh (mkOutPoint (compute_txid (hark_tx v uh [])) 0) s2 preimage) as (cb & Hcb & Hctx).
    eexists _, _, (claim_tr v uh), cb. split_and!.
    + unfold bundle_finish. rewrite bool_decide_eq_true_2 by done. cbn [assert mbind outcome_bind]. rewrite Htr.
      cbn [mbind outcome_bind]. rewrite Huh, (hark_sighash_Ok v tr Htr). cbn [mbind outcome_bind nonces forfeit_tx_nonce forfeit_claim_tx_nonce].
      unfold tap_tweak, output_key. cbn [tr internal_key tap_leaves]. rewrite Hs1. cbn [expect mbind outcome_bind].
      rewrite Hv1. cbn [assert mbind outcome_bind]. rewrite Hf1. cbn [assert mbind outcome_bind].
      rewrite (claim_tr_Ok v tr Htr). cbn [mbind outcome_bind]. rewrite (claim_sighash_Ok v tr Htr). cbn [mbind outcome_bind].
      rewrite Hs2. cbn [expect mbind outcome_bind]. rewrite Hv2. cbn [assert mbind outcome_bind].
      by rewrite (Hf2 : verify_schnorr s2 _ (internal_key (claim_tr v uh)) = true).
    + by rewrite (hark_tx_Ok v tr Htr).
    + rewrite Htxid. exact Hctx.
    + by rewrite (claim_tr_Ok v tr Htr).
    + exact Hcb.
    + done.
    + done.
    + rewrite <- key_sighash_strip. exact Hf1.
    + done.
    + done.
    + done.
    + rewrite <- script_sighash_strip. exact Hf2.
    + done.
Qed.
End HarkFacts.

(** *** Witnesses *)
#[export] Instance model_untweaked_laws : UntweakedLaws model.
Proof. split. intros keys msg ks ns sigs _ _ _ _. cbn. by apply bool_decide_eq_true. Qed.

Definition sample_secs : list (@SecretNonce model) := [7; 8].
Definition sample_connectors : ConnectorChain := mkChain 2 (output_script (B := model) Byte.x05) connector_utxo.
Definition sample_taproot : Taproot (B := model) := ok_value (mkTaproot (B := model) [] []) (output_taproot (B := model) (E := string) sample_vtxo).

Lemma sample_taproot_Ok : output_taproot (B := model) (E := string) sample_vtxo = Ok sample_taproot.
Proof. reflexivity. Qed.

Lemma connector_forfeits_enforceable_witness : exists conns sigs,
  connector_points (B := model) (E := string) sample_connectors = Ok conns /\ Z.of_nat (length conns) = 2 /\
  sign_vtxo_forfeits (B := model) sample_vtxo (vtxo_user_pubkey (B := model) sample_vtxo) (server_pubkey (B := model) sample_vtxo) Byte.x05
    (Some (sec_to_pub_nonce (Bitcoin := model) <$> sample_secs)) Z.of_nat sample_connectors = Ok sigs.
Proof.
  pose proof (connector_forfeits_enforceable (B := model) sample_vtxo sample_taproot (vtxo_user_pubkey (B := model) sample_vtxo)
    Byte.x05 (server_pubkey (B := model) sample_vtxo) sample_secs Z.of_nat 2 connector_utxo sample_connectors
    sample_taproot_Ok eq_refl eq_refl eq_refl ltac:(lia) eq_refl eq_refl) as H.
  destruct H as (conns & H1 & H2 & (sigs & H3 & _) & _).
  exists conns, sigs. split; [exact H1|]. split; [exact H2|exact H3].
Defined.

Lemma hark_forfeit_enforceable_witness : exists b s1 s2,
  forfeit_vtxo (B := model) (E := string) sample_vtxo (hash [Byte.x01]) (vtxo_user_pubkey (B := model) sample_vtxo)
    (mkForfeitNonces (B := model) 7 8) 1 2 = Ok b /\
  bundle_finish (B := model) (E := string) b sample_vtxo (mkForfeitNonces (B := model) 7 8) 7 8
    (server_pubkey (B := model) sample_vtxo) = Ok (s1, s2).
Proof.
  pose proof (hark_forfeit_enforceable (B := model) sample_vtxo sample_taproot (vtxo_user_pubkey (B := model) sample_vtxo)
    (server_pubkey (B := model) sample_vtxo) (hash [Byte.x01]) [Byte.x01] 7 8 1 2 sample_taproot_Ok eq_refl eq_refl) as [H1 H].
  destruct H1 as (b & H1 & H2 & H3).
  destruct (H b H2 H3) as (s1 & s2 & _ & _ & _ & _ & _ & H4 & _).
  exists b, s1, s2. split; [exact H1|exact H4].
Defined.
