(* ===== verification/ServerDb.v ===== *)
(** * The server's record of VTXOs (server/src/database)

    The table [vtxo] with the columns that say how a VTXO was spent, the table
    [round], the queries on them and the transactions the server runs.  A query
    that the database refuses or cannot answer is an error; a transaction that
    is not committed leaves the tables as they were.  Whether the database
    answers at all is the argument [up] of each transaction. *)
From stdpp Require Import gmap.
From S2P Require Import Prelude Effects Bitcoin Concrete Policy Vtxo Arkoor ArkoorPackage SignedTree Forfeit.

Open Scope Z_scope.

(** [anyhow::Error] with the tags of server/src/error.rs. *)
Inductive SrvError := BadArgument (msg : string) | NotFound (ids : list bytes) | Bail (msg : string).

Section Db.
Context `{B : Bitcoin} `{SecretKey : Type}.

(** A row of [vtxo]: [VtxoState] without the time stamps. *)
Record VtxoState := mkVtxoState {
  vs_vtxo : Vtxo; oor_spent_txid : option bytes; forfeit_state : option ForfeitState; forfeit_round_id : option nat }.

(** A row of [round]; its id is its position. *)
Record StoredRound := mkStoredRound {
  sr_seq : Z; sr_funding_txid : bytes; sr_funding_tx : Transaction; sr_signed_tree : SignedVtxoTreeSpec;
  sr_nb_input_vtxos : Z; sr_connector_key : SecretKey; sr_expiry : Z }.

Record Db := mkDb { tbl_vtxo : gmap VtxoId VtxoState; tbl_round : list StoredRound }.

Definition set_vtxos (f : gmap VtxoId VtxoState -> gmap VtxoId VtxoState) (db : Db) : Db := mkDb (f (tbl_vtxo db)) (tbl_round db).

Definition is_spendable (v : VtxoState) : bool :=
  bool_decide (oor_spent_txid v = None) && match forfeit_state v with None => true | Some _ => false end.

(** A transaction: its body says whether it commits. *)
Definition transaction {A} (up : bool) (body : M Db SrvError (bool * A)) : M Db SrvError A := fun s =>
  if negb up then (Err (Bail "db error"%string), s)
  else match body s with
       | (Ok (true, a), s') => (Ok a, s')
       | (Ok (false, a), _) => (Ok a, s)
       | (Err e, _) => (Err e, s)
       | (Panic, _) => (Panic, s)
       end.

(** [INSERT INTO vtxo .. ON CONFLICT DO NOTHING]. *)
Definition insert_vtxo (m : gmap VtxoId VtxoState) (v : Vtxo) : gmap VtxoId VtxoState :=
  match m !! vtxo_id v with
  | Some _ => m
  | None => <[vtxo_id v := mkVtxoState v None None None]> m
  end.

Definition upsert_vtxos (vtxos : list Vtxo) : M Db SrvError unit :=
  modify (set_vtxos (fun m => foldl insert_vtxo m vtxos)).

(** [get_vtxos_by_id]: the rows found, without repetition, taken out one by one. *)
Fixpoint take_rows (found : gmap VtxoId VtxoState) (ids : list VtxoId) : outcome SrvError (list VtxoState) :=
  match ids with
  | [] => Ok []
  | id :: rest => v ← expect (found !! id); l ← take_rows (delete id found) rest; Ok (v :: l)
  end.

Definition query_vtxos (ids : list VtxoId) (db : Db) : gmap VtxoId VtxoState :=
  list_to_map (omap (fun id => (id ,.) <$> tbl_vtxo db !! id) ids).

Definition get_vtxos_by_id (up : bool) (ids : list VtxoId) : M Db SrvError (list VtxoState) :=
  _ ← lift (ensure up (Bail "Query get_vtxos_by_id failed"%string));
  found ← gets (query_vtxos ids);
  if negb (bool_decide (size found = length ids))
  then throw (NotFound (filter (fun id => found !! id = None) ids))
  else lift (take_rows found ids).

(** [UPDATE vtxo SET .. WHERE vtxo_id = $1 AND oor_spent_txid IS NULL AND
    forfeit_state IS NULL]: the number of rows affected. *)
Definition update_spendable (id : VtxoId) (f : VtxoState -> VtxoState) : M Db SrvError nat := fun db =>
  match tbl_vtxo db !! id with
  | Some v => if is_spendable v then (Ok 1%nat, set_vtxos <[id := f v]> db) else (Ok 0%nat, db)
  | None => (Ok 0%nat, db)
  end.

Definition set_oor_spent (txid : bytes) (v : VtxoState) : VtxoState :=
  mkVtxoState (vs_vtxo v) (Some txid) (forfeit_state v) (forfeit_round_id v).
Definition set_forfeited (ff : ForfeitState) (round_id : nat) (v : VtxoState) : VtxoState :=
  mkVtxoState (vs_vtxo v) (oor_spent_txid v) (Some ff) (Some round_id).

(** [mark_package_spent] for one VTXO: when no row was updated, the VTXO must
    already be spent by the same transaction; reading the column of a forfeited
    VTXO as a string panics. *)
Definition mark_spent (p : VtxoId * bytes) : M Db SrvError unit :=
  n ← update_spendable p.1 (set_oor_spent p.2);
  if bool_decide (n = 0%nat) then
    row ← gets (fun db => tbl_vtxo db !! p.1);
    v ← lift (ok_or row (Bail "Failed to verify if vtxo is spent"%string));
    stored ← lift (expect (oor_spent_txid v));
    if bool_decide (stored = p.2) then mret tt else throw (Bail "Failed to mark vtxo as spent"%string)
  else mret tt.

Definition mark_package_spent (ids : list VtxoId) (spending_txids : list bytes) : M Db SrvError unit :=
  _ ← lift (assert (bool_decide (length ids = length spending_txids)));
  forM_ (zip ids spending_txids) mark_spent.

Definition upsert_vtxos_and_mark_spends (up : bool) (vtxos : list Vtxo) (spend_info : list (VtxoId * bytes))
  : M Db SrvError unit :=
  transaction up (
    _ ← upsert_vtxos vtxos;
    _ ← mark_package_spent spend_info.*1 spend_info.*2;
    mret (true, tt)).

Definition db_upsert_vtxos (up : bool) (vtxos : list Vtxo) : M Db SrvError unit :=
  transaction up (_ ← upsert_vtxos vtxos; mret (true, tt)).

(** The loop of [check_set_vtxo_oor_spent_package]; the VTXO that was spent
    already, if any. *)
Fixpoint set_spent_package (builder : ArkoorPackageBuilder) (ins : list Vtxo) : M Db SrvError (option VtxoId) :=
  match ins with
  | [] => mret None
  | input :: rest =>
      tx ← lift (expect (spending_tx builder (vtxo_id input)));
      n ← update_spendable (vtxo_id input) (set_oor_spent (compute_txid tx));
      if bool_decide (n = 0%nat) then mret (Some (vtxo_id input)) else set_spent_package builder rest
  end.

Definition check_set_vtxo_oor_spent_package (up : bool) (builder : ArkoorPackageBuilder)
  : M Db SrvError (option VtxoId) :=
  transaction up (
    new ← lift (new_vtxos builder);
    dup ← set_spent_package builder (inputs builder);
    match dup with
    | Some id => mret (false, Some id)
    | None => _ ← upsert_vtxos (concat new); mret (true, None)
    end).

(** [finish_round]: the indexes on [funding_txid] and [seq] are unique. *)
Definition insert_round (r : StoredRound) : M Db SrvError nat := fun db =>
  if existsb (fun q => bool_decide (sr_seq q = sr_seq r) || bool_decide (sr_funding_txid q = sr_funding_txid r)) (tbl_round db)
  then (Err (Bail "duplicate key value violates unique constraint"%string), db)
  else (Ok (length (tbl_round db)), mkDb (tbl_vtxo db) (tbl_round db ++ [r])).

Definition mark_forfeited (round_id : nat) (p : VtxoId * ForfeitState) : M Db SrvError unit :=
  n ← update_spendable p.1 (set_forfeited p.2 round_id);
  if bool_decide (n = 0%nat) then throw (Bail "tried to mark unspendable vtxo as forfeited"%string) else mret tt.

Definition finish_round (up : bool) (round_seq : Z) (round_tx : Transaction) (vtxos : CachedSignedVtxoTree)
    (connector_key : SecretKey) (forfeit_vtxos : list (VtxoId * ForfeitState)) : M Db SrvError unit :=
  transaction up (
    round_id ← insert_round (mkStoredRound round_seq (compute_txid round_tx) round_tx (ct_spec vtxos)
      (Z.of_nat (length forfeit_vtxos)) connector_key (ts_expiry_height (st_spec (ct_spec vtxos))));
    _ ← forM_ forfeit_vtxos (mark_forfeited round_id);
    new ← lift (all_vtxos vtxos);
    _ ← upsert_vtxos new;
    mret (true, tt)).
End Db.

Arguments Db {B} SecretKey.
Arguments StoredRound {B} SecretKey.

(** ** The tables only grow, and a spent row never changes *)
Section Facts.
Context `{B : Bitcoin} `{SecretKey : Type}.
Implicit Types s : Db SecretKey.

Definition row_le (v w : VtxoState) : Prop := vs_vtxo w = vs_vtxo v /\ (is_spendable v = true \/ w = v).
(** Rows stay, and new rows are filed under the id of their VTXO. *)
Definition db_le : relation (Db SecretKey) := fun s t =>
  (forall id v, tbl_vtxo s !! id = Some v -> exists w, tbl_vtxo t !! id = Some w /\ row_le v w) /\
  (forall id w, tbl_vtxo t !! id = Some w -> is_Some (tbl_vtxo s !! id) \/ vtxo_id (vs_vtxo w) = id).

#[export] Instance db_le_preorder : PreOrder db_le.
Proof.
  split; [intros s; split; [|by left]; intros id v Hv; exists v; split; [done|]; split; [done|by right]|].
  intros s t u [Hst Hst'] [Htu Htu']. split.
  - intros id v Hv. destruct (Hst id v Hv) as (w & Hw & H1 & H2). destruct (Htu id w Hw) as (x & Hx & H3 & H4).
    exists x. split; [done|]. split; [by rewrite H3|]. destruct H2 as [| ->]; [by left|done].
  - intros id x Hx. destruct (Htu' id x Hx) as [[w Hw]|H]; [|by right].
    destruct (Hst' id w Hw) as [H|H]; [by left|]. right. destruct (Htu id w Hw) as (y & Hy & Hv & _). congruence.
Qed.

(** Every row is filed under the id of its VTXO. *)
Definition keys_ok s : Prop := forall id v, tbl_vtxo s !! id = Some v -> vtxo_id (vs_vtxo v) = id.

Lemma keys_ok_le s t : db_le s t -> keys_ok s -> keys_ok t.
Proof.
  intros [H1 H2] Hs id w Hw. destruct (H2 id w Hw) as [[v Hv]|H]; [|done].
  destruct (H1 id v Hv) as (w' & Hw' & Hx & _). specialize (Hs id v Hv). congruence.
Qed.

(** What the query by ids returns. *)
Lemma take_rows_Ok ids : forall found l, take_rows found ids = Ok l -> mapM (fun id => found !! id) ids = Some l.
Proof.
  induction ids as [|id ids IH]; intros found l H; cbn [take_rows] in H; [by injection H as <-|].
  apply bind_Ok in H as (v & Hv%expect_Ok & H). apply bind_Ok in H as (l' & Hl%IH & [= <-]). apply mapM_Some.
  constructor; [done|]. apply mapM_Some in Hl. eapply Forall2_impl; [exact Hl|]. intros i w Hw.
  by apply lookup_delete_Some in Hw as [_ Hw].
Qed.

Lemma get_vtxos_run up ids (db db' : Db SecretKey) rows : get_vtxos_by_id up ids db = (Ok rows, db') ->
  db' = db /\ Forall2 (fun id r => tbl_vtxo db !! id = Some r) ids rows.
Proof.
  intros H. apply bind_run_Ok in H as ([] & db1 & Hu & H). unfold lift in Hu. injection Hu as _ <-.
  apply bind_run_Ok in H as (found & db2 & Hg & H). unfold gets in Hg. injection Hg as <- <-.
  destruct (negb _); [done|]. unfold lift in H. injection H as H <-. split; [done|].
  apply take_rows_Ok, mapM_Some in H. eapply Forall2_impl; [exact H|]. intros id r Hr.
  apply elem_of_list_to_map_2, list_elem_of_omap in Hr as (id' & _ & Hr).
  apply fmap_Some in Hr as (w & Hw & [= -> ->]). done.
Qed.

Lemma rows_ids (db : Db SecretKey) ids rows : keys_ok db -> Forall2 (fun id r => tbl_vtxo db !! id = Some r) ids rows ->
  vtxo_id <$> (vs_vtxo <$> rows) = ids.
Proof. intros Hk. induction 1 as [|id r ids rows Hr _ IH]; [done|]. cbn. by rewrite (Hk id r Hr), IH. Qed.

Lemma transaction_keeps {A} (R : relation (Db SecretKey)) `{!Reflexive R} up (body : M (Db SecretKey) SrvError (bool * A)) :
  keeps R body -> keeps R (transaction up body).
Proof.
  intros H s. unfold transaction. destruct up; cbn; [|done]. specialize (H s).
  destruct (body s) as [[[[|] a]|e|] s']; cbn in *; done.
Qed.

Lemma insert_vtxo_lookup m v id : insert_vtxo m v !! id =
  match m !! id with Some r => Some r | None => if bool_decide (vtxo_id v = id) then Some (mkVtxoState v None None None) else None end.
Proof.
  unfold insert_vtxo. destruct (m !! vtxo_id v) eqn:E; [|case_bool_decide as Hid].
  - destruct (m !! id) eqn:E'; [done|]. rewrite bool_decide_eq_false_2; [done|]. congruence.
  - subst id. by rewrite lookup_insert_eq, E.
  - rewrite lookup_insert_ne by done. by destruct (m !! id).
Qed.

Lemma upsert_lookup vs : forall m id r, m !! id = Some r -> foldl insert_vtxo m vs !! id = Some r.
Proof.
  induction vs as [|v vs IH]; intros m id r H; [done|]. apply IH. by rewrite insert_vtxo_lookup, H.
Qed.

Lemma upsert_new vs : forall m id r, foldl insert_vtxo m vs !! id = Some r ->
  m !! id = Some r \/ vtxo_id (vs_vtxo r) = id.
Proof.
  induction vs as [|v vs IH]; intros m id r; cbn [foldl]; [by left|]. intros [H|H]%IH; [|by right].
  rewrite insert_vtxo_lookup in H. destruct (m !! id) eqn:E; [by left|]. case_bool_decide as Hid; [|done].
  right. by injection H as <-.
Qed.

(** Afterwards every id has a row. *)
Lemma upsert_mem vs : forall m v, v ∈ vs -> is_Some (foldl insert_vtxo m vs !! vtxo_id v).
Proof.
  induction vs as [|w vs IH]; intros m v Hv; [by apply elem_of_nil in Hv|]. cbn [foldl]. apply elem_of_cons in Hv as [->|Hv]; [|by apply IH].
  assert (Hw : is_Some (insert_vtxo m w !! vtxo_id w)).
  { rewrite insert_vtxo_lookup, bool_decide_true by done. by destruct (m !! vtxo_id w). }
  destruct Hw as [r Hr]. exists r. by apply upsert_lookup.
Qed.

Lemma upsert_keeps vs : keeps db_le (upsert_vtxos vs : M (Db SecretKey) SrvError unit).
Proof.
  intros s. split.
  - intros id v Hv. exists v. split; [by apply upsert_lookup|]. split; [done|by right].
  - intros id w [Hw|Hw]%upsert_new; [left; by exists w|by right].
Qed.

(** An update that does not touch the VTXO itself. *)
Definition keeps_vtxo (f : VtxoState -> VtxoState) : Prop := forall v, vs_vtxo (f v) = vs_vtxo v.

Lemma update_keeps id f : keeps_vtxo f -> keeps db_le (update_spendable id f : M (Db SecretKey) SrvError nat).
Proof.
  intros Hf s. unfold update_spendable. destruct (tbl_vtxo s !! id) as [v|] eqn:Hv; [|done].
  destruct (is_spendable v) eqn:Hsp; [|done].
  split; [|intros id' w Hw; cbn in Hw; apply lookup_insert_Some in Hw as [[<- _]|[_ Hw]]; left; by eexists].
  intros id' w Hw. cbn. destruct (decide (id = id')) as [<-|Hne].
  - rewrite lookup_insert_eq. exists (f v). assert (w = v) as -> by congruence. split; [done|]. split; [apply Hf|by left].
  - rewrite lookup_insert_ne by done. exists w. split; [done|]. split; [done|by right].
Qed.
End Facts.

#[export] Hint Resolve upsert_keeps : effects.
#[export] Hint Extern 1 (keeps _ (update_spendable _ _)) => (apply update_keeps; done) : effects.

Section Spends.
Context `{B : Bitcoin} `{SecretKey : Type}.
Implicit Types s : Db SecretKey.

Lemma mark_spent_keeps p : keeps (db_le (SecretKey := SecretKey)) (mark_spent p).
Proof. unfold mark_spent. solve_keeps. Qed.
Lemma mark_package_keeps ids txids : keeps (db_le (SecretKey := SecretKey)) (mark_package_spent ids txids).
Proof. unfold mark_package_spent, forM_. solve_keeps. Qed.
Lemma set_spent_package_keeps b ins : keeps (db_le (SecretKey := SecretKey)) (set_spent_package b ins).
Proof. induction ins as [|i ins IH]; cbn [set_spent_package]; solve_keeps. Qed.
Lemma insert_round_keeps r : keeps (db_le (SecretKey := SecretKey)) (insert_round r).
Proof.
  intros s. unfold insert_round. destruct (existsb _ _); [reflexivity|]. split; [|intros id w Hw; left; by exists w].
  intros id v Hv. exists v. split; [done|]. split; [done|by right].
Qed.
Lemma mark_forfeited_keeps i p : keeps (db_le (SecretKey := SecretKey)) (mark_forfeited i p).
Proof. unfold mark_forfeited. solve_keeps. Qed.

(** A row that is marked as spent. *)
Definition oor_spent s (id : VtxoId) (txid : bytes) : Prop :=
  exists v, tbl_vtxo s !! id = Some v /\ oor_spent_txid v = Some txid.
Definition forfeited s (id : VtxoId) (round_id : nat) : Prop :=
  exists v, tbl_vtxo s !! id = Some v /\ forfeit_state v <> None /\ forfeit_round_id v = Some round_id.

(** ... and with which forfeit. *)
Definition forfeited_as s (id : VtxoId) (round_id : nat) (ff : ForfeitState) : Prop :=
  exists v, tbl_vtxo s !! id = Some v /\ forfeit_state v = Some ff /\ forfeit_round_id v = Some round_id.

Lemma forfeited_as_forfeited s id r ff : forfeited_as s id r ff -> forfeited s id r.
Proof. intros (v & Hv & Hff & Hr). exists v. by rewrite Hff. Qed.

Lemma spent_row_le s t id v : db_le s t -> tbl_vtxo s !! id = Some v -> is_spendable v = false -> tbl_vtxo t !! id = Some v.
Proof. intros [Hle _] Hv Hs. destruct (Hle id v Hv) as (w & Hw & _ & [H | ->]); [congruence|done]. Qed.

Lemma oor_not_spendable v txid : oor_spent_txid v = Some txid -> is_spendable v = false.
Proof. intros H. unfold is_spendable. by rewrite H. Qed.
Lemma forfeit_not_spendable v : forfeit_state v <> None -> is_spendable v = false.
Proof. intros H. unfold is_spendable. destruct (forfeit_state v); [by rewrite andb_false_r|done]. Qed.

Lemma oor_spent_le s t id txid : db_le s t -> oor_spent s id txid -> oor_spent t id txid.
Proof. intros Hle (v & Hv & Ho). exists v. split; [|done]. eapply spent_row_le; [done..|]. by eapply oor_not_spendable. Qed.
Lemma forfeited_le s t id r : db_le s t -> forfeited s id r -> forfeited t id r.
Proof. intros Hle (v & Hv & Ho & Hr). exists v. split; [|done]. eapply spent_row_le; [done..|]. by apply forfeit_not_spendable. Qed.
Lemma forfeited_as_le s t id r ff : db_le s t -> forfeited_as s id r ff -> forfeited_as t id r ff.
Proof. intros Hle (v & Hv & Ho & Hr). exists v. split; [|done]. eapply spent_row_le; [done..|]. apply forfeit_not_spendable. by rewrite Ho. Qed.

(** No row says both. *)
Definition row_ok (v : VtxoState) : Prop := oor_spent_txid v = None \/ forfeit_state v = None.
Definition db_ok s : Prop := forall id v, tbl_vtxo s !! id = Some v -> row_ok v.

Definition ok_step : relation (Db SecretKey) := fun s t => db_ok s -> db_ok t.
#[export] Instance ok_step_preorder : PreOrder ok_step.
Proof. split; [by intros s H|]. intros s t u H1 H2 H. auto. Qed.

Lemma upsert_ok vs : keeps ok_step (upsert_vtxos vs : M (Db SecretKey) SrvError unit).
Proof.
  intros s Hs id v. cbn. revert Hs. unfold db_ok. generalize (tbl_vtxo s). induction vs as [|w vs IH]; intros m Hm; [apply Hm|].
  apply IH. intros id' v'. rewrite insert_vtxo_lookup. destruct (m !! id') eqn:E; [intros [= <-]; by apply (Hm id')|].
  case_bool_decide; [|done]. intros [= <-]. by left.
Qed.

Lemma update_ok id f : (forall v, is_spendable v = true -> row_ok (f v)) -> keeps ok_step (update_spendable id f : M (Db SecretKey) SrvError nat).
Proof.
  intros Hf s. unfold update_spendable. destruct (tbl_vtxo s !! id) as [v|] eqn:Hv; [|done].
  destruct (is_spendable v) eqn:Hsp; [|done]. intros Hs id' w. cbn. destruct (decide (id = id')) as [<-|Hne].
  - rewrite lookup_insert_eq. intros [= <-]. by apply Hf.
  - rewrite lookup_insert_ne by done. apply Hs.
Qed.
End Spends.

(** ** What a transaction acknowledges *)
Section Acks.
Context `{B : Bitcoin} `{SecretKey : Type}.
Implicit Types s : Db SecretKey.

Lemma spendable_none v : is_spendable v = true -> oor_spent_txid v = None /\ forfeit_state v = None.
Proof.
  unfold is_spendable. intros [H1%bool_decide_eq_true H2]%andb_true_iff. by destruct (forfeit_state v).
Qed.

Lemma set_oor_ok id txid : keeps (ok_step (SecretKey := SecretKey)) (update_spendable id (set_oor_spent txid)).
Proof. apply update_ok. intros v [_ H]%spendable_none. by right. Qed.
Lemma set_forfeited_ok id ff r : keeps (ok_step (SecretKey := SecretKey)) (update_spendable id (set_forfeited ff r)).
Proof. apply update_ok. intros v [H _]%spendable_none. by left. Qed.
Lemma insert_round_ok r : keeps (ok_step (SecretKey := SecretKey)) (insert_round r).
Proof. intros s. unfold insert_round. destruct (existsb _ _); intros Hs; exact Hs. Qed.

(** What a successful update leaves behind. *)
Lemma update_spendable_run id f s n s' : update_spendable id f s = (Ok n, s') ->
  (n = 0%nat /\ s' = s) \/
  (n = 1%nat /\ exists v, tbl_vtxo s !! id = Some v /\ is_spendable v = true /\ tbl_vtxo s' !! id = Some (f v)).
Proof.
  unfold update_spendable. destruct (tbl_vtxo s !! id) as [v|] eqn:Hv; [|by intros [= <- <-]; left].
  destruct (is_spendable v) eqn:Hsp; intros [= <- <-]; [right|by left]. split; [done|]. exists v.
  split; [done|]. split; [done|]. cbn. by rewrite lookup_insert_eq.
Qed.

Lemma mark_spent_run p s s' : mark_spent p s = (Ok tt, s') -> oor_spent s' p.1 p.2.
Proof.
  unfold mark_spent. intros H. apply bind_run_Ok in H as (n & s1 & Hu & H).
  apply update_spendable_run in Hu as [[-> ->]|[-> (v & Hv & _ & Hv')]]; cbn [bool_decide] in H.
  - rewrite bool_decide_eq_true_2 in H by done. apply bind_run_Ok in H as (row & s2 & [= <- <-] & H).
    apply bind_run_Ok in H as (v & s3 & Hr & H). unfold lift in Hr. injection Hr as Hr <-. apply ok_or_Ok in Hr.
    apply bind_run_Ok in H as (t & s4 & Ht & H). unfold lift in Ht. injection Ht as Ht <-. apply expect_Ok in Ht.
    case_bool_decide as Heq; [|done]. injection H as <-. exists v. by rewrite <- Heq.
  - rewrite bool_decide_eq_false_2 in H by done. injection H as <-. exists (set_oor_spent p.2 v). done.
Qed.

(** A loop of steps that only grow the tables: what every step establishes
    holds at the end. *)
Lemma forM_run {A} (f : A -> M (Db SecretKey) SrvError unit) (P : A -> Db SecretKey -> Prop) l : forall s s',
  (forall a, keeps db_le (f a)) -> (forall a s s', f a s = (Ok tt, s') -> P a s') ->
  (forall a s t, db_le s t -> P a s -> P a t) -> forM_ l f s = (Ok tt, s') -> Forall (fun a => P a s') l.
Proof.
  unfold forM_. induction l as [|a l IH]; intros s s' Hk Hf Hp H; [constructor|]. cbn [foldM] in H.
  apply bind_run_Ok in H as ([] & s1 & Ha & H). constructor; [|by eapply IH].
  apply (Hp a s1); [|by eapply Hf]. assert (Hl : keeps db_le (foldM (fun _ a => f a) tt l)) by (apply keeps_foldM; [apply _|auto]).
  specialize (Hl s1). by rewrite H in Hl.
Qed.

Lemma transaction_run {A} up (body : M (Db SecretKey) SrvError (bool * A)) s a s' : transaction up body s = (Ok a, s') ->
  up = true /\ ((exists s1, body s = (Ok (true, a), s1) /\ s' = s1) \/ (exists s1, body s = (Ok (false, a), s1) /\ s' = s)).
Proof.
  unfold transaction. destruct up; cbn; [|done]. destruct (body s) as [[[[|] b]|e|] s1]; intros [= <- <-]; split; eauto.
Qed.

Lemma mark_package_run ids txids s s' : mark_package_spent ids txids s = (Ok tt, s') ->
  length ids = length txids /\ Forall (fun p => oor_spent s' p.1 p.2) (zip ids txids).
Proof.
  unfold mark_package_spent. intros H. apply bind_run_Ok in H as (u & s1 & Hl & H). unfold lift in Hl.
  injection Hl as Hl <-. apply assert_Ok, bool_decide_eq_true in Hl. split; [done|].
  eapply (forM_run mark_spent (fun p t => oor_spent t p.1 p.2)); [apply mark_spent_keeps|apply mark_spent_run| |done].
  intros p t u' Hle. by apply oor_spent_le.
Qed.

Lemma upsert_and_mark_run up vs info s s' : upsert_vtxos_and_mark_spends up vs info s = (Ok tt, s') ->
  Forall (fun p => oor_spent s' p.1 p.2) info.
Proof.
  intros H. apply transaction_run in H as [_ [(s1 & H & ->)|(s1 & H & ->)]];
    apply bind_run_Ok in H as ([] & s2 & Hu & H); apply bind_run_Ok in H as ([] & s3 & Hm & H); [|done]. injection H as <-.
  apply mark_package_run in Hm as [_ Hm]. by rewrite zip_fst_snd in Hm.
Qed.

Lemma set_spent_package_run b ins : forall s s', set_spent_package b ins s = (Ok None, s') ->
  Forall (fun i => exists tx, spending_tx b (vtxo_id i) = Some tx /\ oor_spent s' (vtxo_id i) (compute_txid tx)) ins.
Proof.
  induction ins as [|i ins IH]; intros s s' H; [constructor|]. cbn [set_spent_package] in H.
  apply bind_run_Ok in H as (tx & s1 & Htx & H). unfold lift in Htx. injection Htx as Htx <-. apply expect_Ok in Htx.
  apply bind_run_Ok in H as (n & s2 & Hu & H). case_bool_decide as Hn; [done|]. constructor; [|by eapply IH].
  exists tx. split; [done|]. apply update_spendable_run in Hu as [[-> _]|[-> (v & _ & _ & Hv)]]; [done|].
  apply (oor_spent_le s2); [|by exists (set_oor_spent (compute_txid tx) v)].
  pose proof (set_spent_package_keeps b ins s2) as Hk. by rewrite H in Hk.
Qed.

Lemma check_set_run up b s s' : check_set_vtxo_oor_spent_package up b s = (Ok None, s') ->
  Forall (fun i => exists tx, spending_tx b (vtxo_id i) = Some tx /\ oor_spent s' (vtxo_id i) (compute_txid tx)) (inputs b).
Proof.
  intros H. apply transaction_run in H as [_ [(s1 & H & ->)|(s1 & H & ->)]];
    apply bind_run_Ok in H as (new & s2 & Hn & H); apply bind_run_Ok in H as ([id|] & s3 & Hm & H); try done;
    apply bind_run_Ok in H as ([] & s4 & Hu & H); try done. injection H as <-.
  eapply Forall_impl; [by eapply set_spent_package_run|]. intros i (tx & Htx & Ho). exists tx. split; [done|].
  apply (oor_spent_le s3); [|done]. pose proof (upsert_keeps (SecretKey := SecretKey) (concat new) s3) as Hk. by rewrite Hu in Hk.
Qed.

Lemma mark_forfeited_run r p s s' : mark_forfeited r p s = (Ok tt, s') -> forfeited_as s' p.1 r p.2.
Proof.
  unfold mark_forfeited. intros H. apply bind_run_Ok in H as (n & s1 & Hu & H). case_bool_decide as Hn; [done|].
  injection H as <-. apply update_spendable_run in Hu as [[-> _]|[-> (v & _ & _ & Hv)]]; [done|].
  by exists (set_forfeited p.2 r v).
Qed.

Lemma finish_round_run up seq tx vs key ffs s s' : finish_round up seq tx vs key ffs s = (Ok tt, s') ->
  Forall (fun p => forfeited_as s' p.1 (length (tbl_round s)) p.2) ffs /\
  (exists r, tbl_round s' = tbl_round s ++ [r] /\ sr_funding_txid r = compute_txid tx /\ sr_seq r = seq /\
     sr_signed_tree r = ct_spec vs /\ sr_connector_key r = key) /\
  (exists new, all_vtxos (E:=SrvError) vs = Ok new /\ forall v, v ∈ new -> is_Some (tbl_vtxo s' !! vtxo_id v)).
Proof.
  intros H. apply transaction_run in H as [_ [(s1 & H & ->)|(s1 & H & ->)]];
    apply bind_run_Ok in H as (rid & s2 & Hi & H); apply bind_run_Ok in H as ([] & s3 & Hm & H);
    apply bind_run_Ok in H as (new & s4 & Hn & H); apply bind_run_Ok in H as ([] & s5 & Hu & H); [|done].
  injection H as <-. unfold lift in Hn. injection Hn as Hn <-. unfold insert_round in Hi.
  destruct (existsb _ _); [done|]. injection Hi as <- <-.
  assert (Hr : tbl_round s5 = tbl_round s ++ [mkStoredRound seq (compute_txid tx) tx (ct_spec vs) (Z.of_nat (length ffs)) key (ts_expiry_height (st_spec (ct_spec vs)))]).
  { unfold upsert_vtxos, modify in Hu. injection Hu as <-. cbn.
    assert (Hround : keeps (fun s t : Db SecretKey => tbl_round t = tbl_round s) (forM_ ffs (mark_forfeited (length (tbl_round s))))).
    { apply keeps_foldM; [split; [done|intros ? ? ?; congruence]|]. intros _ p u. unfold mark_forfeited, mbind, M_bind, update_spendable.
      destruct (tbl_vtxo u !! p.1) as [v|]; [|done]. by destruct (is_spendable v). }
    specialize (Hround (mkDb (tbl_vtxo s) (tbl_round s ++ [mkStoredRound seq (compute_txid tx) tx (ct_spec vs) (Z.of_nat (length ffs)) key (ts_expiry_height (st_spec (ct_spec vs)))]))).
    by rewrite Hm in Hround. }
  split; [|split; [by eexists|]].
  2: { exists new. split; [done|]. intros v Hv. unfold upsert_vtxos, modify in Hu. injection Hu as <-. by apply upsert_mem. }
  pose proof (forM_run (mark_forfeited (length (tbl_round s))) (fun p t => forfeited_as t p.1 (length (tbl_round s)) p.2) ffs _ _
    (mark_forfeited_keeps _) (mark_forfeited_run _) (fun p t u Hle => forfeited_as_le _ _ _ _ _ Hle) Hm) as Hf.
  eapply Forall_impl; [exact Hf|]. intros p Hp. apply (forfeited_as_le s3); [|done].
  pose proof (upsert_keeps (SecretKey := SecretKey) new s3) as Hk. by rewrite Hu in Hk.
Qed.
End Acks.

(** ** Every history of the database *)
Section Trace.
Context `{B : Bitcoin} `{SecretKey : Type}.
Implicit Types s : Db SecretKey.

Lemma db_upsert_keeps up vs : keeps db_le (db_upsert_vtxos up vs : M (Db SecretKey) SrvError unit).
Proof. apply transaction_keeps; [apply _|]. solve_keeps. Qed.
Lemma upsert_and_mark_keeps up vs info : keeps (db_le (SecretKey := SecretKey)) (upsert_vtxos_and_mark_spends up vs info).
Proof. apply transaction_keeps; [apply _|]. solve_keeps. Qed.
Lemma check_set_keeps up b : keeps (db_le (SecretKey := SecretKey)) (check_set_vtxo_oor_spent_package up b).
Proof. apply transaction_keeps; [apply _|]. solve_keeps; apply set_spent_package_keeps. Qed.
Lemma finish_round_keeps up seq tx vs (key : SecretKey) ffs : keeps db_le (finish_round up seq tx vs key ffs).
Proof. apply transaction_keeps; [apply _|]. solve_keeps; first [apply insert_round_keeps|apply mark_forfeited_keeps]. Qed.

Lemma mark_spent_ok p : keeps (ok_step (SecretKey := SecretKey)) (mark_spent p).
Proof. unfold mark_spent. solve_keeps. apply set_oor_ok. Qed.
Lemma db_upsert_ok up vs : keeps ok_step (db_upsert_vtxos up vs : M (Db SecretKey) SrvError unit).
Proof. apply transaction_keeps; [apply _|]. solve_keeps. apply upsert_ok. Qed.
Lemma upsert_and_mark_ok up vs info : keeps (ok_step (SecretKey := SecretKey)) (upsert_vtxos_and_mark_spends up vs info).
Proof. apply transaction_keeps; [apply _|]. unfold mark_package_spent, forM_. solve_keeps; first [apply upsert_ok|apply set_oor_ok]. Qed.
Lemma set_spent_package_ok b ins : keeps (ok_step (SecretKey := SecretKey)) (set_spent_package b ins).
Proof. induction ins as [|i ins IH]; cbn [set_spent_package]; solve_keeps. apply set_oor_ok. Qed.
Lemma check_set_ok up b : keeps (ok_step (SecretKey := SecretKey)) (check_set_vtxo_oor_spent_package up b).
Proof. apply transaction_keeps; [apply _|]. solve_keeps; first [apply set_spent_package_ok|apply upsert_ok]. Qed.
Lemma finish_round_ok up seq tx vs (key : SecretKey) ffs : keeps ok_step (finish_round up seq tx vs key ffs).
Proof.
  apply transaction_keeps; [apply _|]. unfold forM_, mark_forfeited.
  solve_keeps; first [apply insert_round_ok|apply set_forfeited_ok|apply upsert_ok].
Qed.

(** How a VTXO was spent, as a transaction of the server acknowledged it. *)
Inductive spend_ack := OorSpent (id : VtxoId) (txid : bytes) | Forfeited (id : VtxoId) (round_id : nat).
Definition ack_id (a : spend_ack) : VtxoId := match a with OorSpent id _ => id | Forfeited id _ => id end.

Definition acks_of {A} (r : outcome SrvError A) (acks : list spend_ack) : list spend_ack :=
  match r with Ok _ => acks | _ => [] end.

(** The acknowledgements of a package when no input was spent already. *)
Definition package_acks (b : ArkoorPackageBuilder) (r : outcome SrvError (option VtxoId)) : list spend_ack :=
  match r with
  | Ok None => omap (fun i => (fun tx => OorSpent (vtxo_id i) (compute_txid tx)) <$> spending_tx b (vtxo_id i)) (inputs b)
  | _ => []
  end.

(** One transaction of the server, whatever its outcome. *)
Inductive db_step (s : Db SecretKey) : list spend_ack -> Db SecretKey -> Prop :=
  | st_upsert up vs : db_step s [] (db_upsert_vtxos up vs s).2
  | st_cosign_oor up vs info :
      db_step s (acks_of (upsert_vtxos_and_mark_spends up vs info s).1 ((fun p => OorSpent p.1 p.2) <$> info))
        (upsert_vtxos_and_mark_spends up vs info s).2
  | st_package up b :
      db_step s (package_acks b (check_set_vtxo_oor_spent_package up b s).1) (check_set_vtxo_oor_spent_package up b s).2
  | st_round up seq tx vs key ffs :
      db_step s (acks_of (finish_round up seq tx vs key ffs s).1 ((fun p => Forfeited p.1 (length (tbl_round s))) <$> ffs))
        (finish_round up seq tx vs key ffs s).2.

(** The histories from the empty database, with everything acknowledged. *)
Inductive db_history : list spend_ack -> Db SecretKey -> Prop :=
  | dh_init : db_history [] (mkDb ∅ [])
  | dh_step acks s new s' : db_history acks s -> db_step s new s' -> db_history (acks ++ new) s'.

Definition ack_holds s (a : spend_ack) : Prop :=
  match a with OorSpent id txid => oor_spent s id txid | Forfeited id r => forfeited s id r end.

Lemma ack_holds_le s t a : db_le s t -> ack_holds s a -> ack_holds t a.
Proof. destruct a; [apply oor_spent_le|apply forfeited_le]. Qed.

Lemma db_step_le s new s' : db_step s new s' -> db_le s s' /\ ok_step s s'.
Proof.
  destruct 1; split; first [apply db_upsert_keeps|apply upsert_and_mark_keeps|apply check_set_keeps|apply finish_round_keeps
    |apply db_upsert_ok|apply upsert_and_mark_ok|apply check_set_ok|apply finish_round_ok].
Qed.

Lemma db_step_acks s new s' : db_step s new s' -> Forall (ack_holds s') new.
Proof.
  destruct 1 as [up vs|up vs info|up b|up seq tx vs key ffs]; [constructor| | |].
  - destruct (upsert_vtxos_and_mark_spends up vs info s) as [[[]|e|] s'] eqn:E; cbn; [|constructor..].
    apply upsert_and_mark_run in E. by apply Forall_fmap.
  - destruct (check_set_vtxo_oor_spent_package up b s) as [[[id|]|e|] s'] eqn:E; cbn; try by constructor.
    apply check_set_run in E. apply Forall_forall. intros a (i & Hi & Ha)%list_elem_of_omap.
    destruct (proj1 (Forall_forall _ _) E i Hi) as (tx & Htx & Ho). rewrite Htx in Ha. by injection Ha as <-.
  - destruct (finish_round up seq tx vs key ffs s) as [[[]|e|] s'] eqn:E; cbn; [|constructor..].
    apply finish_round_run in E as [E _]. apply Forall_fmap. eapply Forall_impl; [exact E|]. intros p. apply forfeited_as_forfeited.
Qed.

Lemma db_history_inv acks s : db_history acks s -> db_ok s /\ Forall (ack_holds s) acks.
Proof.
  induction 1 as [|acks s new s' _ [Hok IH] Hst]; [split; [intros id v Hv; cbn in Hv; by rewrite lookup_empty in Hv|constructor]|].
  destruct (db_step_le _ _ _ Hst) as [Hle Hs]. split; [by apply Hs|]. apply Forall_app. split; [|by eapply db_step_acks].
  eapply Forall_impl; [exact IH|]. intros a. by apply ack_holds_le.
Qed.

(** C9. The server never spends a VTXO twice.  In every history of its
    transactions (registered VTXOs, both kinds of out-of-round payments and
    finished rounds, committed, refused or failed, in any order), all the
    acknowledgements for one VTXO agree: it is spent by one out-of-round
    transaction, or forfeited in one round, never both; and the tables say so
    from then on. *)
Theorem vtxo_spent_once (acks : list spend_ack) s : db_history acks s ->
  (forall a b, a ∈ acks -> b ∈ acks -> ack_id a = ack_id b -> a = b) /\
  (forall a, a ∈ acks -> ack_holds s a) /\
  (forall id v, tbl_vtxo s !! id = Some v -> is_spendable v = true -> id ∉ ack_id <$> acks).
Proof.
  intros H. destruct (db_history_inv _ _ H) as [Hok Hall]. rewrite Forall_forall in Hall. split_and!.
  - intros a b Ha Hb Hid. specialize (Hall a Ha) as H1. specialize (Hall b Hb) as H2.
    destruct a as [id t|id r], b as [id' t'|id' r']; cbn in Hid, H1, H2; subst id';
      destruct H1 as (v & Hv & H1), H2 as (w & Hw & H2); rewrite Hv in Hw; injection Hw as <-.
    + congruence.
    + exfalso. destruct (Hok id v Hv) as [Hn|Hn]; [congruence|by destruct H2].
    + exfalso. destruct (Hok id v Hv) as [Hn|Hn]; [congruence|by destruct H1].
    + destruct H1 as [_ H1], H2 as [_ H2]. congruence.
  - exact Hall.
  - intros id v Hv Hsp (a & -> & Ha)%list_elem_of_fmap. specialize (Hall a Ha). apply spendable_none in Hsp as [Ho Hf].
    destruct a as [id t|id r]; cbn in Hv, Hall; destruct Hall as (w & Hw & Hx); rewrite Hv in Hw; injection Hw as <-;
      [congruence|by destruct Hx].
Qed.
End Trace.

(** *** Witness: a VTXO is registered, spent out of round, and a second
    transaction is refused. *)
Definition wit_txid (b : Byte.byte) : bytes := replicate 32 b.
Definition wit_db0 : Db (B := model) Byte.byte := mkDb (B := model) ∅ [].
Definition wit_db1 : Db (B := model) Byte.byte := (db_upsert_vtxos (B := model) true [sample_vtxo] wit_db0).2.
Definition wit_info (b : Byte.byte) : list (VtxoId * bytes) := [(vtxo_id (B := model) sample_vtxo, wit_txid b)].
Definition wit_db2 : Db (B := model) Byte.byte := (upsert_vtxos_and_mark_spends (B := model) true [] (wit_info Byte.x01) wit_db1).2.
Definition wit_db3 : Db (B := model) Byte.byte := (upsert_vtxos_and_mark_spends (B := model) true [] (wit_info Byte.x02) wit_db2).2.
Definition wit_acks : list spend_ack := [OorSpent (vtxo_id (B := model) sample_vtxo) (wit_txid Byte.x01)].

Lemma vtxo_spent_once_witness :
  (upsert_vtxos_and_mark_spends (B := model) true [] (wit_info Byte.x02) wit_db2).1 = Err (Bail "Failed to mark vtxo as spent") /\
  ack_holds (B := model) wit_db3 (OorSpent (vtxo_id (B := model) sample_vtxo) (wit_txid Byte.x01)).
Proof.
  split; [vm_compute; reflexivity|].
  assert (H1 : db_history (B := model) [] wit_db1) by exact (dh_step (B := model) [] _ [] _ (dh_init (B := model)) (st_upsert (B := model) wit_db0 true [sample_vtxo])).
  pose proof (dh_step (B := model) [] _ _ _ H1 (st_cosign_oor (B := model) wit_db1 true [] (wit_info Byte.x01))) as H2.
  pose proof (dh_step (B := model) _ _ _ _ H2 (st_cosign_oor (B := model) wit_db2 true [] (wit_info Byte.x02))) as H3.
  assert (Ha : acks_of (upsert_vtxos_and_mark_spends (B := model) true [] (wit_info Byte.x01) wit_db1).1
    ((fun p => OorSpent p.1 p.2) <$> wit_info Byte.x01) = wit_acks) by (vm_compute; reflexivity).
  destruct (vtxo_spent_once (B := model) _ _ H3) as (_ & H & _). apply H. rewrite Ha. apply elem_of_app. left. left.
Defined.
