(* ===== verification/Threads.v ===== *)
(** * Concurrent request handlers

    The server runs every request as a task; tasks interleave at their [await]
    points.  [Code] is such a task: a sequence of atomic steps on the shared
    state (a database transaction, a call to bitcoind), of attempts to lock
    VTXOs in flux and of releases of the lock.  The guard of a lock is a local
    variable of the task, so it is dropped when the task ends, however it ends.

    [run] is a task on its own.  [Pool] is any number of tasks with the rest of
    the server, [pool_step] one step of any of them.  [safe R c Q s] says that
    the task [c] only makes changes that [R] allows, and ends in [Q], whatever
    changes [R] allows happen in between; [pool_safe] carries that over to
    pools. *)
From stdpp Require Import gmap.
From S2P Require Import Prelude Effects Bitcoin Flux.

Open Scope Z_scope.

Section Threads.
Context {S E : Type}.

Inductive Code (A : Type) : Type :=
  | Done (o : outcome E A)
  | Step (k : S -> Code A) (f : S -> S)
  | Lock (ids : list bytes) (k : bytes + unit -> Code A)
  | Unlock (c : Code A).
Arguments Done {A}.
Arguments Step {A}.
Arguments Lock {A}.
Arguments Unlock {A}.

#[export] Instance Code_ret : MRet Code := fun A a => Done (Ok a).

#[export] Instance Code_bind : MBind Code := fun A B f =>
  fix bind c := match c with
  | Done (Ok a) => f a
  | Done (Err e) => Done (Err e)
  | Done Panic => Done Panic
  | Step k g => Step (fun s => bind (k s)) g
  | Lock ids k => Lock ids (fun r => bind (k r))
  | Unlock c => Unlock (bind c)
  end.

(** Code of the task itself, a transaction on the shared state, a lock. *)
Definition local {A} (o : outcome E A) : Code A := Done o.
Definition atomic {A} (m : M S E A) : Code A := Step (fun s => Done (m s).1) (fun s => (m s).2).
Definition try_lock (ids : list bytes) : Code (bytes + unit) := Lock ids (fun r => Done (Ok r)).
Definition unlock : Code unit := Unlock (Done (Ok tt)).

Fixpoint for_each {A} (l : list A) (f : A -> Code unit) : Code unit :=
  match l with
  | [] => mret tt
  | a :: l => _ ← f a; for_each l f
  end.

(** A task alone: its guard, the VTXOs in flux and the shared state. *)
Fixpoint run {A} (c : Code A) (g : VtxoFluxLock) (flux : VtxosInFlux) (s : S) : outcome E A * (VtxosInFlux * S) :=
  match c with
  | Done o => (o, (drop_lock g flux, s))
  | Step k f => run (k s) g flux (f s)
  | Lock ids k =>
      match flux_lock ids flux with
      | (inr l, flux) => run (k (inr tt)) (absorb g l) flux s
      | (inl id, flux) => run (k (inl id)) g flux s
      end
  | Unlock c => run c empty_lock (drop_lock g flux) s
  end.

(** ** Pools of tasks *)
Context {Req Reply : Type} (handle : Req -> Code Reply) (env : relation S).

Record Pool := mkPool {
  p_flux : VtxosInFlux; p_guards : gmap nat VtxoFluxLock; p_state : S;
  p_tasks : gmap nat (Req * Code Reply); p_log : list (Req * outcome E Reply) }.

Definition pool_fs (p : Pool) : FluxSystem := mkFlux (p_flux p) (p_guards p).

(** Dropping the guard of task [i], if it has one. *)
Definition drop_guard (i : nat) (f : FluxSystem) : FluxSystem :=
  match fs_guards f !! i with
  | Some l => mkFlux (drop_lock l (fs_flux f)) (delete i (fs_guards f))
  | None => f
  end.

Definition take_guard (i : nat) (l : VtxoFluxLock) (gs : gmap nat VtxoFluxLock) : gmap nat VtxoFluxLock :=
  <[i := match gs !! i with Some g => absorb g l | None => l end]> gs.

Definition with_fs (f : FluxSystem) (s : S) (tasks : gmap nat (Req * Code Reply)) (log : list (Req * outcome E Reply)) : Pool :=
  mkPool (fs_flux f) (fs_guards f) s tasks log.

(** The first seven are steps of tasks.  The other parts of the server have
    guards of their own ([pl_flux]) and change the shared state ([pl_env]). *)
Inductive pool_step (p : Pool) : Pool -> Prop :=
  | pl_spawn i r : p_tasks p !! i = None -> p_guards p !! i = None ->
      pool_step p (mkPool (p_flux p) (p_guards p) (p_state p) (<[i := (r, handle r)]> (p_tasks p)) (p_log p))
  | pl_step i r k f : p_tasks p !! i = Some (r, Step k f) ->
      pool_step p (mkPool (p_flux p) (p_guards p) (f (p_state p)) (<[i := (r, k (p_state p))]> (p_tasks p)) (p_log p))
  | pl_lock i r ids k l flux : p_tasks p !! i = Some (r, Lock ids k) -> flux_lock ids (p_flux p) = (inr l, flux) ->
      pool_step p (mkPool flux (take_guard i l (p_guards p)) (p_state p) (<[i := (r, k (inr tt))]> (p_tasks p)) (p_log p))
  | pl_busy i r ids k id flux : p_tasks p !! i = Some (r, Lock ids k) -> flux_lock ids (p_flux p) = (inl id, flux) ->
      pool_step p (mkPool flux (p_guards p) (p_state p) (<[i := (r, k (inl id))]> (p_tasks p)) (p_log p))
  | pl_unlock i r c : p_tasks p !! i = Some (r, Unlock c) ->
      pool_step p (with_fs (drop_guard i (pool_fs p)) (p_state p) (<[i := (r, c)]> (p_tasks p)) (p_log p))
  | pl_done i r o : p_tasks p !! i = Some (r, Done o) ->
      pool_step p (with_fs (drop_guard i (pool_fs p)) (p_state p) (delete i (p_tasks p)) (p_log p ++ [(r, o)]))
  | pl_cancel i : pool_step p (with_fs (drop_guard i (pool_fs p)) (p_state p) (delete i (p_tasks p)) (p_log p))
  | pl_flux f : flux_step (pool_fs p) f -> (forall i, is_Some (p_tasks p !! i) -> fs_guards f !! i = p_guards p !! i) ->
      pool_step p (with_fs f (p_state p) (p_tasks p) (p_log p))
  | pl_env s : env (p_state p) s -> pool_step p (mkPool (p_flux p) (p_guards p) s (p_tasks p) (p_log p)).

Definition pool_init (s : S) : Pool := mkPool flux_new ∅ s ∅ [].

(** ** The locks of a pool *)
Lemma drop_guard_step i f : rtc flux_step f (drop_guard i f).
Proof.
  destruct f as [s gs]. unfold drop_guard. cbn. destruct (gs !! i) eqn:Hi; [|done]. apply rtc_once. by constructor.
Qed.

Lemma take_guard_step ids i l s s' gs : flux_lock ids s = (inr l, s') ->
  rtc flux_step (mkFlux s gs) (mkFlux s' (take_guard i l gs)).
Proof.
  intros Hl. unfold take_guard. destruct (gs !! i) as [g|] eqn:Hi; [|apply rtc_once; by econstructor].
  set (j := fresh (dom gs)). assert (Hj : gs !! j = None) by (apply not_elem_of_dom, is_fresh).
  assert (i <> j) by (intros ->; congruence).
  eapply rtc_l; [by apply (fx_lock s gs ids j l s')|]. apply rtc_once.
  rewrite <- (delete_insert_id gs j l) at 2 by done.
  apply (fx_absorb s' (<[j := l]> gs) i j g l); [done| |by rewrite lookup_insert_eq]. by rewrite lookup_insert_ne.
Qed.

Lemma pool_step_flux p q : pool_step p q -> rtc flux_step (pool_fs p) (pool_fs q).
Proof.
  assert (Hw : forall f s t l, pool_fs (with_fs f s t l) = f) by by intros [].
  destruct 1 as [| |i r ids k l flux _ Hl|i r ids k id flux _ Hl| | | |f Hf|]; rewrite ?Hw; try reflexivity; try apply drop_guard_step.
  - by apply (take_guard_step ids).
  - apply rtc_once. by eapply fx_refused.
  - by apply rtc_once.
Qed.

Lemma pool_flux_inv p q : rtc pool_step p q -> flux_inv (pool_fs p) -> flux_inv (pool_fs q).
Proof.
  induction 1 as [|p q r Hs _ IH]; [done|]. intros H. apply IH. apply pool_step_flux in Hs. clear IH.
  induction Hs as [|? ? ? Hs _ IH]; [done|]. apply IH. by eapply flux_step_inv.
Qed.
End Threads.

#[global] Arguments Code : clear implicits.
#[global] Arguments Done {S E A}.
#[global] Arguments Step {S E A}.
#[global] Arguments Lock {S E A}.
#[global] Arguments Unlock {S E A}.
#[global] Arguments Pool : clear implicits.

(** ** Rely and guarantee *)
Section Safe.
Context {S E : Type} (R : relation S) `{!PreOrder R}.

Fixpoint safe {A} (c : Code S E A) (Q : outcome E A -> S -> Prop) (s : S) : Prop :=
  match c with
  | Done o => Q o s
  | Step k f => forall s', R s s' -> R s' (f s') /\ safe (k s') Q (f s')
  | Lock ids k => forall r s', R s s' -> safe (k r) Q s'
  | Unlock c => forall s', R s s' -> safe c Q s'
  end.

Definition stable {A} (Q : outcome E A -> S -> Prop) : Prop := forall o s s', R s s' -> Q o s -> Q o s'.

Lemma safe_later {A} (c : Code S E A) Q s s' : stable Q -> R s s' -> safe c Q s -> safe c Q s'.
Proof.
  intros HQ Hs. destruct c; cbn; [by apply HQ|..]; intros H; intros; apply H; by etrans.
Qed.

Lemma safe_bind {A B} (c : Code S E A) (f : A -> Code S E B) (Q : outcome E B -> S -> Prop) : stable Q ->
  forall s, safe c (fun o s' => match o with Ok a => safe (f a) Q s' | Err e => Q (Err e) s' | Panic => Q Panic s' end) s ->
  safe (c ≫= f) Q s.
Proof.
  intros HQ. induction c as [o|k IH g|ids k IH|c IH]; intros s H.
  - by destruct o.
  - intros s' Hs. destruct (H s' Hs) as [H1 H2]. split; [done|]. by apply IH.
  - intros r s' Hs. apply IH. by apply H.
  - intros s' Hs. apply IH. by apply H.
Qed.

(** A transaction whose steps are allowed, in all the states it may find. *)
Lemma safe_atomic {A} (m : M S E A) (Q : outcome E A -> S -> Prop) s :
  keeps R m -> (forall s' s'' o, R s s' -> m s' = (o, s'') -> Q o s'') -> safe (atomic m) Q s.
Proof. intros Hm H s' Hs. split; [apply Hm|]. cbn. apply (H s'); [done|]. by destruct (m s'). Qed.

Lemma safe_mono {A} (c : Code S E A) (P Q : outcome E A -> S -> Prop) :
  forall s, (forall o s', R s s' -> P o s' -> Q o s') -> safe c P s -> safe c Q s.
Proof.
  induction c as [o|k IH g|ids k IH|c IH]; intros s H Hs.
  - by apply H.
  - intros s' Hs'. destruct (Hs s' Hs') as [H1 H2]. split; [done|]. eapply IH; [|exact H2].
    intros o s'' H3. apply H. etrans; [exact Hs'|by etrans].
  - intros r s' Hs'. eapply IH; [|by apply Hs]. intros o s'' H3. apply H. by etrans.
  - intros s' Hs'. eapply IH; [|by apply Hs]. intros o s'' H3. apply H. by etrans.
Qed.

(** A loop of tasks that keeps a stable property of the state. *)
Lemma safe_for_each {A} (l : list A) (f : A -> Code S E unit) (Q : outcome E unit -> S -> Prop) :
  stable Q -> (forall a s, a ∈ l -> safe (f a) (fun o s' => match o with Ok _ => True | o => Q o s' end) s) ->
  (forall s, Q (Ok tt) s) -> forall s, safe (for_each l f) Q s.
Proof.
  intros HQ Hf H1. induction l as [|a l IH]; intros s; cbn [for_each]; [apply H1|].
  apply safe_bind; [done|]. eapply safe_mono; [|by apply Hf; left].
  intros [[]|e|] s' _ H; [|done..]. apply IH. intros a' s'' Ha'. apply Hf. by right.
Qed.

(** The changes of a task and its environment add up. *)
Lemma safe_le {A} (c : Code S E A) (Q : outcome E A -> S -> Prop) :
  forall s s0, R s0 s -> safe c Q s -> safe c (fun o s' => R s0 s' /\ Q o s') s.
Proof.
  induction c as [o|k IH f|ids k IH|c IH]; intros s s0 H0 H; [done|..].
  - intros s' Hs. destruct (H s' Hs) as [H1 H2]. split; [done|]. apply IH; [|done]. etrans; [exact H0|by etrans].
  - intros r s' Hs. apply IH; [by etrans|by apply H].
  - intros s' Hs. apply IH; [by etrans|by apply H].
Qed.

(** A first part whose result does not matter for what follows. *)
Lemma safe_seq {A B} (c : Code S E A) (f : A -> Code S E B) (Q : outcome E B -> S -> Prop) s : stable Q ->
  (forall e s, Q (Err e) s) -> (forall s, Q Panic s) -> safe c (fun _ _ => True) s ->
  (forall a s', R s s' -> safe (f a) Q s') -> safe (c ≫= f) Q s.
Proof.
  intros HQ He Hp Hc Hf. apply safe_bind; [done|]. eapply safe_mono; [|exact (safe_le c _ s s ltac:(done) Hc)].
  intros [a|e|] s' _ [H _]; [by apply Hf|apply He|apply Hp].
Qed.

(** What every task of a pool guarantees holds for its results, however the
    tasks and the rest of the server interleave. *)
Context {Req Reply : Type} (handle : Req -> Code S E Reply) (env : relation S) (Q : Req -> outcome E Reply -> S -> Prop).

Definition pool_ok (p : Pool S E Req Reply) : Prop :=
  (forall i r c, p_tasks p !! i = Some (r, c) -> safe c (Q r) (p_state p)) /\
  (forall r o, (r, o) ∈ p_log p -> Q r o (p_state p)).

Hypothesis Q_stable : forall r, stable (Q r).
Hypothesis env_R : forall s s', env s s' -> R s s'.

Lemma pool_ok_later (p : Pool S E Req Reply) s flux gs tasks log : R (p_state p) s -> pool_ok p ->
  (forall i r c, tasks !! i = Some (r, c) -> p_tasks p !! i = Some (r, c) \/ safe c (Q r) s) ->
  (forall r o, (r, o) ∈ log -> (r, o) ∈ p_log p \/ Q r o s) ->
  pool_ok (mkPool flux gs s tasks log).
Proof.
  intros Hs [H1 H2] Ht Hl. split; cbn.
  - intros i r c [Hi|Hi]%Ht; [|done]. eapply safe_later; [apply Q_stable|exact Hs|by eapply H1].
  - intros r o [Hi|Hi]%Hl; [|done]. eapply Q_stable; [exact Hs|by apply H2].
Qed.

Lemma pool_step_ok (p q : Pool S E Req Reply) : (forall r, safe (handle r) (Q r) (p_state p)) ->
  pool_step handle env p q -> pool_ok p -> R (p_state p) (p_state q) /\ pool_ok q.
Proof.
  intros Hh Hstep Hp. pose proof Hp as [Ht _].
  assert (Hupd : forall (m : gmap nat (Req * Code S E Reply)) i x j r c, <[i := x]> m !! j = Some (r, c) ->
    m !! j = Some (r, c) \/ x = (r, c)).
  { intros m i x j r c [[_ ->]|[_ H]]%lookup_insert_Some; [by right|by left]. }
  assert (Hdel : forall (m : gmap nat (Req * Code S E Reply)) i j r c, delete i m !! j = Some (r, c) ->
    m !! j = Some (r, c) \/ safe c (Q r) (p_state p)).
  { intros m i j r c [_ H]%lookup_delete_Some. by left. }
  destruct Hstep as [i r Hi Hg|i r k f Hi|i r ids k l flux Hi Hl|i r ids k id flux Hi Hl|i r c Hi|i r o Hi|i|f Hf Hg|s Hs];
    unfold with_fs; cbn [p_state].
  all: try (specialize (Ht _ _ _ Hi); cbn in Ht).
  - split; [done|]. eapply pool_ok_later; [done|exact Hp| |by left].
    intros j r' c [Hj|[= <- <-]]%Hupd; [by left|right; apply Hh].
  - destruct (Ht (p_state p) ltac:(done)) as [HR Hs]. split; [done|]. eapply pool_ok_later; [done|exact Hp| |by left].
    intros j r' c [Hj|[= <- <-]]%Hupd; [by left|by right].
  - split; [done|]. eapply pool_ok_later; [done|exact Hp| |by left].
    intros j r' c [Hj|[= <- <-]]%Hupd; [by left|right; by apply Ht].
  - split; [done|]. eapply pool_ok_later; [done|exact Hp| |by left].
    intros j r' c [Hj|[= <- <-]]%Hupd; [by left|right; by apply Ht].
  - split; [done|]. eapply pool_ok_later; [done|exact Hp| |by left].
    intros j r' c' [Hj|[= <- <-]]%Hupd; [by left|right; by apply Ht].
  - split; [done|]. eapply pool_ok_later; [done|exact Hp|by apply Hdel|].
    intros r' o' [H|[= -> ->]%list_elem_of_singleton]%elem_of_app; [by left|by right].
  - split; [done|]. eapply pool_ok_later; [done|exact Hp|by apply Hdel|by left].
  - split; [done|]. by eapply pool_ok_later; [done|exact Hp|left|left].
  - apply env_R in Hs. split; [done|]. by eapply pool_ok_later; [done|exact Hp|left|left].
Qed.

Lemma pool_safe (I : S -> Prop) (p q : Pool S E Req Reply) : (forall s s', R s s' -> I s -> I s') ->
  (forall r s, I s -> safe (handle r) (Q r) s) -> rtc (pool_step handle env) p q ->
  I (p_state p) -> pool_ok p -> R (p_state p) (p_state q) /\ I (p_state q) /\ pool_ok q.
Proof.
  intros HI Hh. induction 1 as [p|p q r Hs _ IH]; intros Hi Hp; [by split_and!|].
  destruct (pool_step_ok p q) as [HR Hq]; [intros; by apply Hh|done..|].
  destruct IH as (HR' & Hi' & Hr); [by eapply HI|done|]. split; [by etrans|done].
Qed.
End Safe.

(** ** A task alone gives its locks back *)
Lemma run_flux {S E A} (c : Code S E A) : forall g flux s, g ⊆ flux -> (run c g flux s).2.1 = flux ∖ g.
Proof.
  induction c as [o|k IH f|ids k IH|c IH]; intros g flux s Hg; cbn.
  - by rewrite drop_lock_spec.
  - by apply IH.
  - pose proof (flux_lock_spec ids flux) as H. destruct (flux_lock ids flux) as [[id|l] flux'].
    + destruct H as (_ & _ & ->). by apply IH.
    + destruct H as ([_ Hfree] & -> & ->). unfold absorb. rewrite IH by set_solver. set_solver.
  - rewrite drop_lock_spec, IH; [set_solver|]. unfold empty_lock. set_solver.
Qed.

(** Code that only reads the state. *)
Fixpoint reads {S E A} (c : Code S E A) : Prop :=
  match c with
  | Done _ => True
  | Step k f => (forall s, f s = s) /\ forall s, reads (k s)
  | _ => False
  end.

Fixpoint value {S E A} (c : Code S E A) (s : S) : outcome E A :=
  match c with
  | Done o => o
  | Step k _ => value (k s) s
  | _ => Panic
  end.

Lemma reads_bind {S E A B} (c : Code S E A) (f : A -> Code S E B) : reads c -> (forall a, reads (f a)) -> reads (c ≫= f).
Proof.
  intros Hc Hf. induction c as [[a|e|]|k IH g|ids k _|c _]; cbn in *; [apply Hf|done..| |done|done].
  destruct Hc as [Hg Hk]. split; [done|]. intros s. apply IH, Hk.
Qed.

Lemma reads_for_each {S E A} (l : list A) (f : A -> Code S E unit) : (forall a, reads (f a)) -> reads (for_each l f).
Proof. intros Hf. induction l as [|a l IH]; [done|]. apply reads_bind; [apply Hf|done]. Qed.

Lemma run_reads {S E A B} (c : Code S E A) (f : A -> Code S E B) g flux s : reads c ->
  run (c ≫= f) g flux s =
  match value c s with
  | Ok a => run (f a) g flux s
  | Err e => (Err e, (drop_lock g flux, s))
  | Panic => (Panic, (drop_lock g flux, s))
  end.
Proof.
  induction c as [[a|e|]|k IH h|ids k _|c _]; intros Hc; try done. destruct Hc as [Hh Hk]. cbn [run value].
  change (run (k s ≫= f) g flux (h s) = match value (k s) s with
    | Ok a => run (f a) g flux s | Err e => (Err e, (drop_lock g flux, s)) | Panic => (Panic, (drop_lock g flux, s)) end).
  rewrite Hh. by apply IH.
Qed.

(** Code that goes on in the same way whether it gets its locks or not. *)
Fixpoint lock_blind {S E A} (c : Code S E A) : Prop :=
  match c with
  | Done _ => True
  | Step k _ => forall s, lock_blind (k s)
  | Lock _ k => (forall r r', k r = k r') /\ forall r, lock_blind (k r)
  | Unlock c => lock_blind c
  end.

Lemma lock_blind_bind {S E A B} (c : Code S E A) (f : A -> Code S E B) :
  lock_blind c -> (forall a, lock_blind (f a)) -> lock_blind (c ≫= f).
Proof.
  intros Hc Hf. induction c as [[a|e|]|k IH g|ids k IH|c IH]; cbn in *; [apply Hf|done..|by intros s; apply IH| |by apply IH].
  destruct Hc as [He Hk]. split; [|intros r; by apply IH]. intros r r'. by rewrite (He r r').
Qed.

Lemma lock_blind_try {S E A} ids (f : bytes + unit -> Code S E A) : (forall r r', f r = f r') ->
  (forall r, lock_blind (f r)) -> lock_blind (try_lock ids ≫= f).
Proof. by intros H1 H2. Qed.

Lemma reads_lock_blind {S E A} (c : Code S E A) : reads c -> lock_blind c.
Proof. induction c as [o|k IH f|ids k _|c _]; cbn; [done| |done|done]. intros [_ H] s. by apply IH. Qed.

Lemma lock_blind_run {S E A} (c : Code S E A) : lock_blind c -> forall g g' flux flux' s,
  (run c g flux s).1 = (run c g' flux' s).1 /\ (run c g flux s).2.2 = (run c g' flux' s).2.2.
Proof.
  induction c as [o|k IH f|ids k IH|c IH]; intros Hc g g' flux flux' s; cbn in *; [done|by apply IH| |by apply IH].
  destruct Hc as [He Hk]. destruct (flux_lock ids flux) as [[id|l] f1], (flux_lock ids flux') as [[id'|l'] f2].
  - rewrite (He (inl id') (inl id)). by apply IH.
  - rewrite (He (inr tt) (inl id)). by apply IH.
  - rewrite (He (inr tt) (inl id')). by apply IH.
  - by apply IH.
Qed.

(** A task of a pool may run to its end without being interrupted. *)
Section Sequential.
Context {S E Req Reply : Type} (handle : Req -> Code S E Reply) (env : relation S).

Lemma run_in_pool i r (c : Code S E Reply) : forall p, p_tasks p !! i = Some (r, c) ->
  let res := run c (default empty_lock (p_guards p !! i)) (p_flux p) (p_state p) in
  exists q, rtc (pool_step handle env) p q /\ p_log q = p_log p ++ [(r, res.1)] /\ p_state q = res.2.2 /\
    p_tasks q = delete i (p_tasks p) /\ p_guards q = delete i (p_guards p) /\ p_flux q = res.2.1.
Proof.
  assert (Hdrop : forall p, drop_guard i (pool_fs (S := S) (E := E) (Req := Req) (Reply := Reply) p) =
    mkFlux (drop_lock (default empty_lock (p_guards p !! i)) (p_flux p)) (delete i (p_guards p))).
  { intros p. unfold drop_guard. cbn. destruct (p_guards p !! i) eqn:Hg; [done|]. cbn.
    rewrite drop_lock_spec, delete_id by done. unfold pool_fs. f_equal. unfold empty_lock. set_solver. }
  induction c as [o|k IH f|ids k IH|c IH]; intros p Hp res.
  - eexists. split; [apply rtc_once; by apply (pl_done handle env p i r o)|]. unfold with_fs. rewrite Hdrop. by cbn.
  - destruct (IH (p_state p) (mkPool (p_flux p) (p_guards p) (f (p_state p)) (<[i := (r, k (p_state p))]> (p_tasks p)) (p_log p)))
      as (q & Hq & H1 & H2 & H3 & H4 & H5); [cbn; by rewrite lookup_insert_eq|].
    exists q. split; [eapply rtc_l; [by eapply pl_step|exact Hq]|]. cbn in H3. by rewrite delete_insert_eq in H3.
  - subst res. cbn [run]. destruct (flux_lock ids (p_flux p)) as [[id|l] flux] eqn:Hl.
    + destruct (IH (inl id) (mkPool flux (p_guards p) (p_state p) (<[i := (r, k (inl id))]> (p_tasks p)) (p_log p)))
        as (q & Hq & H1 & H2 & H3 & H4 & H5); [cbn; by rewrite lookup_insert_eq|].
      exists q. split; [eapply rtc_l; [by eapply pl_busy|exact Hq]|]. cbn in H3. by rewrite delete_insert_eq in H3.
    + destruct (IH (inr tt) (mkPool flux (take_guard i l (p_guards p)) (p_state p) (<[i := (r, k (inr tt))]> (p_tasks p)) (p_log p)))
        as (q & Hq & H1 & H2 & H3 & H4 & H5); [cbn; by rewrite lookup_insert_eq|].
      cbn in H1, H2, H3, H4, H5. unfold take_guard in H1, H2, H4, H5. rewrite lookup_insert_eq in H1, H2, H5.
      rewrite delete_insert_eq in H3. rewrite delete_insert_eq in H4.
      exists q. split; [eapply rtc_l; [by eapply pl_lock|exact Hq]|]. cbn.
      replace (absorb (default empty_lock (p_guards p !! i)) l) with
        (default empty_lock (Some (match p_guards p !! i with Some g => absorb g l | None => l end))); [done|].
      destruct (p_guards p !! i); [done|]. unfold absorb, empty_lock. cbn. set_solver.
  - subst res. cbn [run].
    destruct (IH (with_fs (drop_guard i (pool_fs p)) (p_state p) (<[i := (r, c)]> (p_tasks p)) (p_log p)))
      as (q & Hq & H1 & H2 & H3 & H4 & H5); [cbn; by rewrite lookup_insert_eq|].
    unfold with_fs in H1, H2, H3, H4, H5. rewrite Hdrop in H1, H2, H3, H4, H5. cbn in H1, H2, H3, H4, H5.
    rewrite lookup_delete_eq in H1, H2, H5. rewrite delete_insert_eq in H3. rewrite delete_delete_eq in H4.
    exists q. split; [eapply rtc_l; [by eapply pl_unlock|exact Hq]|done].
Qed.

(** Requests one after the other. *)
Lemma requests_in_pool (p : Pool S E Req Reply) r : p_tasks p = ∅ -> p_guards p = ∅ ->
  let res := run (handle r) empty_lock (p_flux p) (p_state p) in
  exists q, rtc (pool_step handle env) p q /\ p_log q = p_log p ++ [(r, res.1)] /\ p_state q = res.2.2 /\
    p_tasks q = ∅ /\ p_guards q = ∅ /\ p_flux q = res.2.1.
Proof.
  intros Ht Hg. destruct (run_in_pool 0%nat r (handle r) (mkPool (p_flux p) (p_guards p) (p_state p)
    (<[0%nat := (r, handle r)]> (p_tasks p)) (p_log p))) as (q & Hq & H1 & H2 & H3 & H4 & H5); [cbn; by rewrite lookup_insert_eq|].
  cbn in *. rewrite Hg, lookup_empty in H1, H2, H5. rewrite Ht, delete_insert_id in H3 by done. rewrite Hg, delete_empty in H4.
  exists q. split; [|done]. eapply rtc_l; [|exact Hq]. apply pl_spawn; by rewrite ?Ht, ?Hg.
Qed.
End Sequential.

(** Code that only makes changes in [R], whoever else changes the state. *)
Section Only.
Context {S E : Type} (R : relation S).

Fixpoint only {A} (c : Code S E A) : Prop :=
  match c with
  | Done _ => True
  | Step k f => (forall s, R s (f s)) /\ forall s, only (k s)
  | Lock _ k => forall r, only (k r)
  | Unlock c => only c
  end.

Lemma only_bind {A B} (c : Code S E A) (f : A -> Code S E B) : only c -> (forall a, only (f a)) -> only (c ≫= f).
Proof.
  intros Hc Hf. induction c as [[a|e|]|k IH g|ids k IH|c IH]; cbn in *; [apply Hf|done..| | |by apply IH].
  - destruct Hc as [Hg Hk]. split; [done|]. intros s. by apply IH.
  - intros r. by apply IH.
Qed.

Lemma only_for_each {A} (l : list A) (f : A -> Code S E unit) : (forall a, only (f a)) -> only (for_each l f).
Proof. intros Hf. induction l as [|a l IH]; [done|]. apply only_bind; [apply Hf|done]. Qed.

Lemma only_atomic {A} (m : M S E A) : keeps R m -> only (atomic m).
Proof. by intros H. Qed.

Lemma only_safe (T : relation S) {A} (c : Code S E A) s : (forall s t, R s t -> T s t) -> only c -> safe T c (fun _ _ => True) s.
Proof.
  intros HT. revert s. induction c as [o|k IH f|ids k IH|c IH]; intros s Hc; cbn in *; [done| | |].
  - destruct Hc as [Hf Hk]. intros s' _. split; [by apply HT|]. by apply IH.
  - intros r s' _. by apply IH.
  - intros s' _. by apply IH.
Qed.

(** The tasks of the requests in [P] stay such code. *)
Context {Req Reply : Type} (handle : Req -> Code S E Reply) (env : relation S) (P : Req -> Prop).
Hypothesis handle_only : forall r, P r -> only (handle r).

Definition tasks_only (p : Pool S E Req Reply) : Prop := forall i r c, p_tasks p !! i = Some (r, c) -> P r -> only c.

Lemma pool_only (p q : Pool S E Req Reply) : rtc (pool_step handle env) p q -> tasks_only p -> tasks_only q.
Proof.
  induction 1 as [|p q z Hs _ IH]; [done|]. intros Hp. apply IH. clear IH. unfold tasks_only in *.
  destruct Hs as [i r Hi Hg|i r k f Hi|i r ids k l flux Hi Hl|i r ids k id flux Hi Hl|i r c Hi|i r o Hi|i|f Hf Hg|s Hs];
    intros j r' c' Hj Hr; unfold with_fs in Hj; cbn [p_tasks] in Hj;
    try (apply lookup_insert_Some in Hj as [[<- [= <- <-]]|[_ Hj]]); try (apply lookup_delete_Some in Hj as [_ Hj]);
    try (by eapply Hp).
  - by apply handle_only.
  - by apply (Hp _ _ _ Hi Hr).
  - by apply (Hp _ _ _ Hi Hr).
  - by apply (Hp _ _ _ Hi Hr).
  - by apply (Hp _ _ _ Hi Hr).
Qed.
End Only.

(** ** Schedules: which task comes next; locks are left out *)
Section Schedule.
Context {S E Req Reply : Type} (handle : Req -> Code S E Reply) (env : relation S).

Inductive sched := Spawn (i : nat) (r : Req) | Go (i : nat).

Definition sched_step (p : Pool S E Req Reply) (a : sched) : Pool S E Req Reply :=
  match a with
  | Spawn i r =>
      match p_tasks p !! i, p_guards p !! i with
      | None, None => mkPool (p_flux p) (p_guards p) (p_state p) (<[i := (r, handle r)]> (p_tasks p)) (p_log p)
      | _, _ => p
      end
  | Go i =>
      match p_tasks p !! i with
      | Some (r, Step k f) => mkPool (p_flux p) (p_guards p) (f (p_state p)) (<[i := (r, k (p_state p))]> (p_tasks p)) (p_log p)
      | Some (r, Done o) => with_fs (drop_guard i (pool_fs p)) (p_state p) (delete i (p_tasks p)) (p_log p ++ [(r, o)])
      | _ => p
      end
  end.

Definition exec (l : list sched) (p : Pool S E Req Reply) : Pool S E Req Reply := foldl sched_step p l.

Lemma exec_steps l p : rtc (pool_step handle env) p (exec l p).
Proof.
  revert p. induction l as [|a l IH]; intros p; [done|]. cbn. etrans; [|exact (IH (sched_step p a))]. clear IH.
  destruct a as [i r|i]; cbn.
  - destruct (p_tasks p !! i) eqn:H1; [done|]. destruct (p_guards p !! i) eqn:H2; [done|]. apply rtc_once. by constructor.
  - destruct (p_tasks p !! i) as [[r [o|k f|ids k|c]]|] eqn:Hi; try done; apply rtc_once.
    + by eapply pl_done.
    + by eapply pl_step.
Qed.
End Schedule.
