(* ===== verification/ServerOor.v ===== *)
(** * The server's out-of-round cosigning (server/src/lib.rs, server/src/arkoor.rs)

    Two requests make the server sign out of round: [cosign_oor_package] for
    arkoor packages and [cosign_oor] for packages with checkpoints.  Both read
    the inputs from the database, check that they are not being exited, lock
    them in flux, record how they are spent and sign.  The shared state is the
    database, the chain the node sees, and whether the database answers; it
    changes between any two steps of a request. *)
From stdpp Require Import gmap.
From S2P Require Import Prelude Effects Bitcoin Concrete Policy Vtxo Validation Board Arkoor ArkoorPackage.
From S2P Require Import CheckpointArkoor CheckpointPackage ChainSource Flux Threads Forfeit ServerDb.

Open Scope Z_scope.

Section Oor.
Context `{B : Bitcoin} {SecretKey Chain : Type}.
(** The node's answer to [tx_status] and the server's key. *)
Context (tx_status : bytes -> Chain -> outcome SrvError TxStatus.t) (server_key : Keypair).

Record Srv := mkSrv { sv_db : Db SecretKey; sv_chain : Chain; sv_up : bool }.

Definition db_call {A} (m : bool -> M (Db SecretKey) SrvError A) : Code Srv SrvError A :=
  atomic (fun s => zoom sv_db (fun db s => mkSrv db (sv_chain s) (sv_up s)) (m (sv_up s)) s).

Definition badarg {A} (msg : string) : Code Srv SrvError A := local (Err (BadArgument msg)).
Definition bail {A} (msg : string) : Code Srv SrvError A := local (Err (Bail msg)).

Definition check_not_exited (id : VtxoId) : Code Srv SrvError unit :=
  status ← atomic (fun s => (tx_status (op_txid (id_utxo id)) (sv_chain s), s));
  match status with
  | TxStatus.Confirmed _ => badarg "cannot spend vtxo that is already exited"%string
  | TxStatus.Mempool => badarg "cannot spend vtxo that is being exited"%string
  | TxStatus.NotFound => mret tt
  end.

Definition check_vtxos_not_exited (ids : list VtxoId) : Code Srv SrvError unit := for_each ids check_not_exited.

(** *** Arkoor packages; [rands] is the randomness of the signatures *)
Definition cosign_oor_package_with_builder (builder : ArkoorPackageBuilder) (rands : list Z)
  : Code Srv SrvError (list ArkoorCosignResponse) :=
  let input_ids := vtxo_id <$> inputs builder in
  lock ← try_lock input_ids;
  match lock with
  | inl id => badarg "attempted to sign arkoor tx for vtxo already in flux"%string
  | inr _ =>
      dup ← db_call (fun up => check_set_vtxo_oor_spent_package up builder);
      match dup with
      | Some dup => badarg "attempted to sign arkoor tx for already spent vtxo"%string
      | None =>
          new ← local (new_vtxos builder);
          let output_ids := vtxo_id <$> concat new in
          local (package_server_cosign builder server_key rands)
      end
  end.

Abbreviation ArkoorArgs := (list (VtxoId * PublicNonce * list VtxoRequest)).

Definition build_arkoors (arkoor_args : ArkoorArgs) (input_vtxos : list Vtxo) : outcome SrvError (list ArkoorBuilder) :=
  mapM (fun '((_, user_nonce, outputs), vtxo) =>
    map_err (fun _ => BadArgument "invalid arkoor"%string) (arkoor_new vtxo user_nonce outputs)) (zip arkoor_args input_vtxos).

Definition args_ids (arkoor_args : ArkoorArgs) : list VtxoId := (fun a => a.1.1) <$> arkoor_args.

Definition cosign_oor_package (arkoor_args : ArkoorArgs) (rands : list Z)
  : Code Srv SrvError (list ArkoorCosignResponse) :=
  let ids := args_ids arkoor_args in
  rows ← db_call (fun up => get_vtxos_by_id up ids);
  let input_vtxos := vs_vtxo <$> rows in
  arkoors ← local (build_arkoors arkoor_args input_vtxos);
  _ ← check_vtxos_not_exited (vtxo_id <$> input_vtxos);
  builder ← local (map_err (fun _ => BadArgument "error creating arkoor package"%string) (from_arkoors arkoors));
  cosign_oor_package_with_builder builder rands.

(** *** Packages with checkpoints *)
Definition check_policy (v : Vtxo) : outcome SrvError unit :=
  match policy v with
  | Pubkey _ => Ok tt
  | Checkpoint _ => Err (Bail "checkpoint vtxo not supported"%string)
  | ServerHtlcSend _ => Err (Bail "server htlc send vtxo not supported"%string)
  | ServerHtlcRecv _ => Err (Bail "server htlc recv vtxo not supported"%string)
  end.

Definition fill_requests (request : PackageCosignRequest VtxoId) (input_vtxos : list Vtxo) : PackageCosignRequest Vtxo :=
  (fun '(r, v) => mkCosignRequest (cr_user_pub_nonces r) v (cr_outputs r)) <$> zip request input_vtxos.

Definition cosign_oor (request : PackageCosignRequest VtxoId) (rands : nat -> nat -> Z)
  : Code Srv SrvError PackageCosignResponse :=
  let input_vtxo_ids := CheckpointPackage.request_inputs request in
  rows ← db_call (fun up => get_vtxos_by_id up input_vtxo_ids);
  let input_vtxos := vs_vtxo <$> rows in
  _ ← local (mapM check_policy input_vtxos);
  _ ← check_vtxos_not_exited input_vtxo_ids;
  _ ← try_lock input_vtxo_ids;
  builder ← local (map_err (fun _ => Bail "Invalid arkoor request"%string)
                    (from_cosign_requests (fill_requests request input_vtxos)));
  new_output_vtxos ← local (cpp_build_unsigned_vtxos builder);
  new_checkpoint_vtxos ← local (cpp_build_unsigned_checkpoint_vtxos builder);
  spend_info ← local (cpp_spend_info builder);
  _ ← db_call (fun up => upsert_vtxos_and_mark_spends up (new_output_vtxos ++ new_checkpoint_vtxos) spend_info);
  builder ← local (map_err (fun _ => Bail "Failed to sign"%string) (cpp_server_cosign builder server_key rands));
  _ ← unlock;
  local (cpp_cosign_response builder).

(** *** The requests of a pool *)
Inductive OorRequest :=
  | ReqPackage (arkoor_args : ArkoorArgs) (rands : list Z)
  | ReqCheckpoint (request : PackageCosignRequest VtxoId) (rands : nat -> nat -> Z).
Inductive OorReply := RepPackage (l : list ArkoorCosignResponse) | RepCheckpoint (l : PackageCosignResponse).

Definition handle (r : OorRequest) : Code Srv SrvError OorReply :=
  match r with
  | ReqPackage args rands => l ← cosign_oor_package args rands; mret (RepPackage l)
  | ReqCheckpoint request rands => l ← cosign_oor request rands; mret (RepCheckpoint l)
  end.

Definition oor_ids (r : OorRequest) : list VtxoId :=
  match r with ReqPackage args _ => args_ids args | ReqCheckpoint request _ => CheckpointPackage.request_inputs request end.

(** The rest of the server: any transaction on the database, any change of the
    chain, and a database that comes and goes. *)
Definition server_env : relation Srv := fun s s' =>
  (exists acks, db_step (sv_db s) acks (sv_db s')) \/ sv_db s' = sv_db s.
End Oor.

(** ** What a reply means *)
Section Facts.
Context `{B : Bitcoin} {SecretKey Chain : Type}.
Context (tx_status : bytes -> Chain -> outcome SrvError TxStatus.t) (server_key : Keypair).
Notation Srv := (Srv (SecretKey := SecretKey) (Chain := Chain)).
Implicit Types s : Srv.

Definition srv_le : relation Srv := fun s t => db_le (sv_db s) (sv_db t) /\ ok_step (sv_db s) (sv_db t).

#[export] Instance srv_le_preorder : PreOrder srv_le.
Proof.
  split; [by intros s; split|]. intros s t u [H1 H2] [H3 H4]. split; [by etrans|by etrans].
Qed.

(** The VTXOs of a request, as the database has them. *)
Definition request_rows (db : Db SecretKey) (ids : list VtxoId) : option (list Vtxo) :=
  mapM (fun id => vs_vtxo <$> tbl_vtxo db !! id) ids.

Definition package_spends (b : ArkoorPackageBuilder) : list (VtxoId * bytes) :=
  omap (fun v => (fun tx => (vtxo_id v, compute_txid tx)) <$> spending_tx b (vtxo_id v)) (inputs b).

(** The reply holds the server's signatures on the transactions that spend
    the VTXOs in [info], each given with the id of its transaction. *)
Definition signs (db : Db SecretKey) (req : OorRequest) (rep : OorReply) (info : list (VtxoId * bytes)) : Prop :=
  exists vs, request_rows db (oor_ids req) = Some vs /\
  match req, rep with
  | ReqPackage args rands, RepPackage l => exists arkoors b, build_arkoors args vs = Ok arkoors /\
      from_arkoors arkoors = Ok b /\ package_server_cosign (E := SrvError) b server_key rands = Ok l /\ info = package_spends b
  | ReqCheckpoint request rands, RepCheckpoint l => exists b b', from_cosign_requests (fill_requests request vs) = Ok b /\
      cpp_spend_info (E := SrvError) b = Ok info /\ cpp_server_cosign b server_key rands = Ok b' /\
      cpp_cosign_response (E := SrvError) b' = Ok l
  | _, _ => False
  end.

(** What a successful request leaves in the database. *)
Definition oor_post (req : OorRequest) (o : outcome SrvError OorReply) (s : Srv) : Prop :=
  forall rep, o = Ok rep -> exists info, signs (sv_db s) req rep info /\ oor_ids req ⊆ info.*1 /\
    Forall (fun p => oor_spent (sv_db s) p.1 p.2) info.

Lemma request_rows_le (db db' : Db SecretKey) ids vs : db_le db db' -> request_rows db ids = Some vs -> request_rows db' ids = Some vs.
Proof.
  intros [Hle _]. unfold request_rows. rewrite !mapM_Some. intros H. eapply Forall2_impl; [exact H|]. intros id v.
  intros (r & Hr & ->)%fmap_Some. apply fmap_Some.
  destruct (Hle id r Hr) as (w & Hw & Hv & _). by exists w.
Qed.

Lemma oor_post_stable req : stable srv_le (oor_post req).
Proof.
  intros o s s' [Hle _] H rep Ho. destruct (H rep Ho) as (info & (vs & Hvs & Hs) & Hsub & Hinfo).
  exists info. split; [exists vs; split; [by eapply request_rows_le|done]|]. split; [done|].
  eapply Forall_impl; [exact Hinfo|]. intros p. by apply oor_spent_le.
Qed.

Lemma rows_request (db : Db SecretKey) ids rows : Forall2 (fun id r => tbl_vtxo db !! id = Some r) ids rows ->
  request_rows db ids = Some (vs_vtxo <$> rows).
Proof.
  intros H. apply mapM_Some, Forall2_fmap_r. eapply Forall2_impl; [exact H|]. intros id r Hr. by rewrite Hr.
Qed.

Lemma keeps_get up ids (R : relation (Db SecretKey)) `{!PreOrder R} : keeps R (get_vtxos_by_id up ids).
Proof. unfold get_vtxos_by_id. solve_keeps. Qed.

(** A transaction of the database as a step of a request. *)
Lemma safe_db_call {A} (m : bool -> M (Db SecretKey) SrvError A) (Q : outcome SrvError A -> Srv -> Prop) s :
  (forall up, keeps db_le (m up)) -> (forall up, keeps ok_step (m up)) ->
  (forall s' up o db, srv_le s s' -> m up (sv_db s') = (o, db) -> Q o (mkSrv db (sv_chain s') (sv_up s'))) ->
  safe srv_le (db_call m) Q s.
Proof.
  intros H1 H2 H3. apply safe_atomic.
  - intros s'. split; [apply H1|apply H2].
  - intros s' s'' o Hs Hm. unfold zoom in Hm. injection Hm as <- <-. apply (H3 s' (sv_up s')); [done|].
    by destruct (m (sv_up s') (sv_db s')).
Qed.

Lemma safe_check_exited ids s : safe srv_le (check_vtxos_not_exited tx_status ids) (fun _ _ => True) s.
Proof.
  revert s. apply safe_for_each; [apply _|done| |done]. intros id s1 _. apply safe_bind; [by intros [] ? ?|]. apply safe_atomic; [by intros s'|].
  intros s2 s3 o _ _. by destruct o as [[b| |]|e|].
Qed.

Lemma safe_lock ids s : safe srv_le (try_lock (E := SrvError) ids) (fun _ _ => True) s.
Proof. by intros r s' _. Qed.
End Facts.

(** ** Both requests keep their promise *)
Section Requests.
Context `{B : Bitcoin} {SecretKey Chain : Type}.
Context (tx_status : bytes -> Chain -> outcome SrvError TxStatus.t) (server_key : Keypair).
Notation Srv := (Srv (SecretKey := SecretKey) (Chain := Chain)).
Implicit Types s : Srv.

(** The promise about a reply of one kind. *)
Definition promises {A} (req : OorRequest) (f : A -> OorReply) (o : outcome SrvError A) (s : Srv) : Prop :=
  forall l, o = Ok l -> oor_post server_key req (Ok (f l)) s.

Lemma promises_stable {A} req (f : A -> OorReply) : stable srv_le (promises req f).
Proof. intros o s s' Hs H l Hl. eapply oor_post_stable; [exact Hs|by apply H]. Qed.

Lemma promises_seq {A C} req (f : C -> OorReply) (c : Code Srv SrvError A) (k : A -> Code Srv SrvError C) s :
  safe srv_le c (fun _ _ => True) s -> (forall a s', srv_le s s' -> safe srv_le (k a) (promises req f) s') ->
  safe srv_le (c ≫= k) (promises req f) s.
Proof. intros. by apply safe_seq; [apply _|apply promises_stable|..]. Qed.

Lemma promises_local {A C} req (f : C -> OorReply) (o : outcome SrvError A) (k : A -> Code Srv SrvError C) s :
  (forall a, o = Ok a -> safe srv_le (k a) (promises req f) s) -> safe srv_le (local o ≫= k) (promises req f) s.
Proof. intros H. destruct o as [a|e|]; [by apply H|by intros l|by intros l]. Qed.

(** Reading the inputs: from here on the request works with what the database
    will say about them for ever. *)
Lemma promises_rows {C} req (f : C -> OorReply) ids (k : list VtxoState -> Code Srv SrvError C) s : keys_ok (sv_db s) ->
  (forall rows s', srv_le s s' -> request_rows (sv_db s') ids = Some (vs_vtxo <$> rows) ->
     vtxo_id <$> (vs_vtxo <$> rows) = ids -> safe srv_le (k rows) (promises req f) s') ->
  safe srv_le (db_call (fun up => get_vtxos_by_id up ids) ≫= k) (promises req f) s.
Proof.
  intros Hk H. apply safe_bind; [apply promises_stable|].
  apply safe_db_call; [intros; apply keeps_get, _|intros; apply keeps_get, _|].
  intros s' up [rows|e|] db Hs Hrun; [|by intros l..]. apply get_vtxos_run in Hrun as [-> Hrows].
  destruct s' as [db ch up']. apply H; [done|by apply rows_request|].
  eapply rows_ids; [|exact Hrows]. by eapply keys_ok_le; [apply Hs|].
Qed.

Lemma build_arkoors_inputs (args : list (VtxoId * PublicNonce * list VtxoRequest)) vs arkoors :
  length args = length vs -> build_arkoors args vs = Ok arkoors -> ab_input <$> arkoors = vs.
Proof.
  revert vs arkoors. induction args as [|[[id n] outs] args IH]; intros [|v vs] arkoors Hl H; try done; [by injection H as <-|].
  apply bind_Ok in H as (a & Ha & H). apply bind_Ok in H as (as' & Has & [= <-]). cbn.
  rewrite (IH vs as'); [|by injection Hl|done]. f_equal. apply map_err_Ok in Ha. unfold arkoor_new in Ha.
  by outcome_inv Ha.
Qed.

Lemma from_arkoors_inputs l b : from_arkoors l = Ok b -> inputs b = ab_input <$> l.
Proof. intros H. apply bind_Ok in H as (txs & _ & [= <-]). done. Qed.

Lemma package_spends_ids b : Forall (fun v => exists tx, spending_tx b (vtxo_id v) = Some tx) (inputs b) ->
  (package_spends b).*1 = vtxo_id <$> inputs b.
Proof.
  unfold package_spends. induction 1 as [|v l [tx Htx] _ IH]; [done|]. cbn [omap list_omap]. rewrite Htx. cbn. by rewrite IH.
Qed.

Lemma package_safe args rands s : keys_ok (sv_db s) ->
  safe srv_le (cosign_oor_package tx_status server_key args rands) (promises (ReqPackage args rands) RepPackage) s.
Proof.
  intros Hk. apply promises_rows; [done|]. intros rows s1 Hs1 Hrows Hids. cbn beta zeta.
  set (vs := vs_vtxo <$> rows) in *. apply promises_local. intros arkoors Hark.
  apply promises_seq; [apply safe_check_exited|]. intros [] s2 Hs2. apply promises_local. intros b Hb%map_err_Ok.
  apply promises_seq; [apply safe_lock|]. intros [id|u] s3 Hs3; [by intros l|].
  apply safe_bind; [apply promises_stable|].
  apply safe_db_call; [intros; apply check_set_keeps|intros; apply check_set_ok|].
  intros s4 up o db Hs4 Hrun. destruct o as [[dup|]|e|]; [by intros l..| |by intros l|by intros l].
  pose proof (check_set_keeps (SecretKey := SecretKey) up b (sv_db s4)) as Hle. rewrite Hrun in Hle. apply check_set_run in Hrun.
  apply promises_local. intros new _ l Hl rep [= <-]. cbn [sv_db]. exists (package_spends b).
  assert (Hin : inputs b = vs).
  { rewrite (from_arkoors_inputs _ _ Hb). apply (build_arkoors_inputs args); [|done].
    apply (f_equal length) in Hids. unfold args_ids in Hids. by rewrite !length_fmap in Hids. }
  split_and!.
  - exists vs. split; [|by exists arkoors, b]. eapply request_rows_le; [|exact Hrows].
    etrans; [exact (proj1 Hs2)|]. etrans; [exact (proj1 Hs3)|]. etrans; [exact (proj1 Hs4)|exact Hle].
  - rewrite package_spends_ids, Hin, Hids; [done|]. eapply Forall_impl; [exact Hrun|]. intros v (tx & Htx & _). by exists tx.
  - apply Forall_forall. intros p (v & Hv & Hp)%list_elem_of_omap. rewrite Forall_forall in Hrun.
    destruct (Hrun v Hv) as (tx & Htx & Ho). rewrite Htx in Hp. by injection Hp as <-.
Qed.

Lemma from_request_input r b : from_cosign_request r = Ok b -> cp_input b = cr_input r.
Proof.
  intros H. apply bind_Ok in H as (b0 & Hn%map_err_Ok & H). unfold set_user_pub_nonces in H.
  apply bind_Ok in H as ([] & _ & [= <-]). cbn. by apply cp_new_inv in Hn as (-> & _).
Qed.

Lemma from_requests_inputs (request : PackageCosignRequest VtxoId) vs b : length request = length vs ->
  from_cosign_requests (fill_requests request vs) = Ok b -> cp_input <$> b = vs.
Proof.
  unfold from_cosign_requests, fill_requests.
  revert vs b. induction request as [|r request IH]; intros [|v vs] b Hl H; try done; [by injection H as <-|].
  apply bind_Ok in H as (a & Ha%from_request_input & H). apply bind_Ok in H as (as' & Has & [= <-]). cbn.
  by rewrite (IH vs as'), Ha; [|injection Hl|].
Qed.

Lemma spend_info_covers {st} (b : list (CheckpointedArkoorBuilder st)) info : cpp_spend_info (E := SrvError) b = Ok info ->
  vtxo_id <$> (cp_input <$> b) ⊆ info.*1.
Proof.
  intros H. apply bind_Ok in H as (infos & Hi & [= <-]). apply mapM_outcome_Ok in Hi.
  intros id (v & -> & (x & -> & Hx)%list_elem_of_fmap)%list_elem_of_fmap.
  apply list_elem_of_lookup in Hx as [i Hx].
  destruct (Forall2_lookup_l _ _ _ _ _ Hi Hx) as (l & Hl%list_elem_of_lookup_2 & Hxl). unfold spend_info in Hxl.
  apply bind_Ok in Hxl as (others & _ & [= <-]). apply list_elem_of_fmap.
  exists (vtxo_id (cp_input x), unsigned_checkpoint_txid x).
  split; [done|]. apply elem_of_concat. eexists. split; [exact Hl|]. left.
Qed.

Lemma checkpoint_safe request rands s : keys_ok (sv_db s) ->
  safe srv_le (cosign_oor tx_status server_key request rands) (promises (ReqCheckpoint request rands) RepCheckpoint) s.
Proof.
  intros Hk. apply promises_rows; [done|]. intros rows s1 Hs1 Hrows Hids. cbn beta zeta.
  set (vs := vs_vtxo <$> rows) in *. apply promises_local. intros _ _.
  apply promises_seq; [apply safe_check_exited|]. intros [] s2 Hs2.
  apply promises_seq; [apply safe_lock|]. intros _ s3 Hs3.
  apply promises_local. intros b Hb%map_err_Ok. apply promises_local. intros new _. apply promises_local. intros new' _.
  apply promises_local. intros info Hinfo. apply safe_bind; [apply promises_stable|].
  apply safe_db_call; [intros; apply upsert_and_mark_keeps|intros; apply upsert_and_mark_ok|].
  intros s4 up o db Hs4 Hrun. destruct o as [[]|e|]; [|by intros l..].
  pose proof (upsert_and_mark_keeps (SecretKey := SecretKey) up (new ++ new') info (sv_db s4)) as Hle.
  rewrite Hrun in Hle. apply upsert_and_mark_run in Hrun.
  apply promises_local. intros b' Hb'%map_err_Ok. intros s5 Hs5 l Hl rep [= <-]. exists info.
  cbn [sv_db] in Hs5. destruct Hs5 as [Hs5 _]. cbn [sv_db] in Hs5.
  assert (Hin : cp_input <$> b = vs).
  { apply (from_requests_inputs request); [|done].
    apply (f_equal length) in Hids. unfold CheckpointPackage.request_inputs in Hids. by rewrite !length_fmap in Hids. }
  split_and!.
  - exists vs. split; [|by exists b, b']. eapply request_rows_le; [|exact Hrows].
    etrans; [exact (proj1 Hs2)|]. etrans; [exact (proj1 Hs3)|]. etrans; [exact (proj1 Hs4)|]. by etrans.
  - cbn [oor_ids]. rewrite <- Hids, <- Hin. by apply spend_info_covers.
  - eapply Forall_impl; [exact Hrun|]. intros p. by apply oor_spent_le.
Qed.

Lemma handle_safe r s : keys_ok (sv_db s) -> safe srv_le (handle tx_status server_key r) (oor_post server_key r) s.
Proof.
  intros Hk. destruct r as [args rands|request rands]; cbn [handle]; (apply safe_bind; [apply oor_post_stable|]).
  - eapply safe_mono; [apply _| |exact (package_safe args rands s Hk)]. intros [l|e|] s' _ H; cbn; try done. by apply H.
  - eapply safe_mono; [apply _| |exact (checkpoint_safe request rands s Hk)]. intros [l|e|] s' _ H; cbn; try done. by apply H.
Qed.

Lemma server_env_le s s' : server_env s s' -> srv_le s s'.
Proof. intros [[acks H]|H]; [by apply (db_step_le _ acks)|]. split; by rewrite H. Qed.
End Requests.

(** ** The server signs one spend of a VTXO *)
Section Once.
Context `{B : Bitcoin} {SecretKey Chain : Type}.
Context (tx_status : bytes -> Chain -> outcome SrvError TxStatus.t) (server_key : Keypair).
Notation Srv := (Srv (SecretKey := SecretKey) (Chain := Chain)).

Lemma signs_fun (db : Db SecretKey) req rep i1 i2 : signs server_key db req rep i1 -> signs server_key db req rep i2 -> i1 = i2.
Proof.
  intros (vs & Hvs & H1) (ws & Hws & H2). rewrite Hvs in Hws. injection Hws as <-.
  destruct req as [args rands|request rands], rep as [l|l]; try done.
  - destruct H1 as (a & b & Ha & Hb & _ & ->), H2 as (a' & b' & Ha' & Hb' & _ & ->). congruence.
  - destruct H1 as (b & c & Hb & Hi & _), H2 as (b' & c' & Hb' & Hi' & _). congruence.
Qed.

Lemma spent_not_forfeited (db : Db SecretKey) id txid r : db_ok db -> oor_spent db id txid -> ~ forfeited db id r.
Proof.
  intros Hok (v & Hv & Ho) (w & Hw & Hf & _). rewrite Hv in Hw. injection Hw as <-.
  destruct (Hok id v Hv); congruence.
Qed.

(** C10. However requests for both kinds of out-of-round payments interleave with
    each other, with cancelled requests, with the rest of the server (its
    rounds included), with changes of the chain and with an unreliable
    database: whoever got signatures got them on the transactions that the
    database records as the spends of the VTXOs of the request, all of these
    VTXOs are covered, none of them is forfeited in a round, and two replies
    never hold signatures on different spends of one VTXO; and the VTXOs in
    flux are exactly those of the guards still alive. *)
Theorem oor_signs_once (s0 : Srv) (w : Pool Srv SrvError OorRequest OorReply) : keys_ok (sv_db s0) -> db_ok (sv_db s0) ->
  rtc (pool_step (handle tx_status server_key) server_env) (pool_init s0) w ->
  let db := sv_db (p_state w) in
  (forall req rep, (req, Ok rep) ∈ p_log w -> exists info, signs server_key db req rep info /\ oor_ids req ⊆ info.*1 /\
     forall id txid, (id, txid) ∈ info -> oor_spent db id txid /\ forall round, ~ forfeited db id round) /\
  (forall req1 rep1 req2 rep2 info1 info2 id t1 t2, (req1, Ok rep1) ∈ p_log w -> (req2, Ok rep2) ∈ p_log w ->
     signs server_key db req1 rep1 info1 -> signs server_key db req2 rep2 info2 ->
     (id, t1) ∈ info1 -> (id, t2) ∈ info2 -> t1 = t2) /\
  flux_inv (pool_fs w).
Proof.
  intros Hk Hok Hr db.
  destruct (pool_safe srv_le (handle tx_status server_key) server_env (oor_post server_key) (oor_post_stable server_key)
    server_env_le (fun s => keys_ok (sv_db s)) (pool_init s0) w) as ([_ Hle] & _ & [_ Hlog]);
    [intros s s' [H _]; by apply keys_ok_le|intros; by apply handle_safe|done|done|by split; [intros ? ? ? ?|intros ? ? ?%elem_of_nil]|].
  cbn [pool_init p_state] in Hle. specialize (Hle Hok).
  assert (Hspent : forall req rep info id txid, (req, Ok rep) ∈ p_log w -> signs server_key db req rep info ->
    (id, txid) ∈ info -> oor_spent db id txid).
  { intros req rep info id txid Hl Hs Hi. destruct (Hlog _ _ Hl rep eq_refl) as (info' & Hs' & _ & Hf).
    rewrite (signs_fun _ _ _ _ _ Hs Hs') in Hi. by apply (proj1 (Forall_forall _ _) Hf (id, txid)). }
  split_and!.
  - intros req rep Hl. destruct (Hlog _ _ Hl rep eq_refl) as (info & Hs & Hsub & _). exists info.
    split; [done|]. split; [done|]. intros id txid Hi. assert (Ho : oor_spent db id txid) by by eapply Hspent.
    split; [done|]. intros r. by eapply spent_not_forfeited.
  - intros req1 rep1 req2 rep2 i1 i2 id t1 t2 Hl1 Hl2 Hs1 Hs2 H1 H2.
    destruct (Hspent _ _ _ _ _ Hl1 Hs1 H1) as (v & Hv & Ho), (Hspent _ _ _ _ _ Hl2 Hs2 H2) as (v' & Hv' & Ho'). congruence.
  - eapply pool_flux_inv; [exact Hr|]. split; cbn; [done|set_solver|done].
Qed.
End Once.

(** ** Only one of the requests respects the locks *)
Section Locks.
Context `{B : Bitcoin} {SecretKey Chain : Type}.
Context (tx_status : bytes -> Chain -> outcome SrvError TxStatus.t) (server_key : Keypair).
Notation Srv := (Srv (SecretKey := SecretKey) (Chain := Chain)).

Lemma get_vtxos_reads ids : reads (db_call (Chain := Chain) (fun up => get_vtxos_by_id (SecretKey := SecretKey) up ids)).
Proof.
  split; [|done]. intros [db ch up]. unfold zoom. cbn [sv_db sv_chain sv_up].
  pose proof (keeps_get (SecretKey := SecretKey) up ids eq db) as H. by rewrite <- H.
Qed.

Lemma check_exited_reads ids : reads (check_vtxos_not_exited (SecretKey := SecretKey) tx_status ids).
Proof.
  apply reads_for_each. intros id. apply reads_bind; [by split|]. by intros [b| |].
Qed.

Lemma cosign_oor_lock_blind request rands :
  lock_blind (cosign_oor (SecretKey := SecretKey) tx_status server_key request rands).
Proof.
  unfold cosign_oor. apply lock_blind_bind; [apply reads_lock_blind, get_vtxos_reads|]. intros rows. cbn beta zeta.
  apply lock_blind_bind; [done|]. intros _. apply lock_blind_bind; [apply reads_lock_blind, check_exited_reads|].
  intros _. apply lock_blind_try; [done|]. intros _.
  repeat (apply lock_blind_bind; [done|]; intros ?). done.
Qed.

Lemma drop_empty flux : drop_lock empty_lock flux = flux.
Proof. rewrite drop_lock_spec. unfold empty_lock. set_solver. Qed.

Ltac refused := rewrite drop_empty; eexists; split; [reflexivity|done].

(** A lock on a VTXO keeps arkoor packages away from it, but not packages
    with checkpoints: [cosign_oor_package] refuses, without any change, every
    request with an input in flux; [cosign_oor] takes the lock but does not look
    at the result, so its reply and what it writes are the same whatever is in
    flux. *)
Theorem flux_not_respected (s : Srv) args rands request srands flux flux' : keys_ok (sv_db s) ->
  (forall id, id ∈ args_ids args -> id ∈ flux ->
     exists o, run (cosign_oor_package tx_status server_key args rands) empty_lock flux s = (o, (flux, s)) /\ forall l, o <> Ok l) /\
  (run (cosign_oor tx_status server_key request srands) empty_lock flux s).1 =
    (run (cosign_oor tx_status server_key request srands) empty_lock flux' s).1 /\
  (run (cosign_oor tx_status server_key request srands) empty_lock flux s).2.2 =
    (run (cosign_oor tx_status server_key request srands) empty_lock flux' s).2.2.
Proof.
  intros Hk. split; [|apply lock_blind_run, cosign_oor_lock_blind]. intros id Hin Hflux.
  unfold cosign_oor_package. rewrite run_reads by apply get_vtxos_reads.
  destruct (value _ s) as [rows|e|] eqn:Hrows; [|by refused..]. cbn beta zeta.
  assert (Hids : vtxo_id <$> (vs_vtxo <$> rows) = args_ids args).
  { change ((get_vtxos_by_id (sv_up s) (args_ids args) (sv_db s)).1 = Ok rows) in Hrows.
    destruct (get_vtxos_by_id (sv_up s) (args_ids args) (sv_db s)) as [o db] eqn:E. cbn in Hrows. subst o. apply get_vtxos_run in E as [_ E]. by eapply rows_ids. }
  clear Hrows.
  rewrite run_reads by done. cbn [value local].
  destruct (build_arkoors _ _) as [arkoors|e|] eqn:Hark; [|by refused..].
  rewrite run_reads by apply check_exited_reads. destruct (value _ s) as [[]|e|]; [|by refused..].
  rewrite run_reads by done. cbn [value local].
  destruct (map_err _ _) as [b|e|] eqn:Hb; [|by refused..]. apply map_err_Ok in Hb.
  assert (Hinp : vtxo_id <$> inputs b = args_ids args).
  { rewrite (from_arkoors_inputs _ _ Hb), (build_arkoors_inputs args (vs_vtxo <$> rows)); [done| |done].
    apply (f_equal length) in Hids. unfold args_ids in Hids. rewrite !length_fmap in Hids.
    by rewrite length_fmap. }
  unfold cosign_oor_package_with_builder. cbn [run try_lock]. rewrite Hinp.
  change (try_lock (args_ids args) ≫= ?f) with (Lock (args_ids args) f).
  cbn [run]. pose proof (flux_lock_spec (args_ids args) flux) as H.
  destruct (flux_lock (args_ids args) flux) as [[x|l] f'].
  - destruct H as (_ & _ & ->). cbn. by refused.
  - destruct H as ([_ H] & _). by destruct (H id Hin).
Qed.
End Locks.

(** *** Witnesses: the same payment is asked for twice, once with its input in
    flux. *)
Definition oor_up (txid : bytes) (chain : unit) : outcome SrvError TxStatus.t := Ok TxStatus.NotFound.
Definition oor_srv : Srv (B := model) (SecretKey := Byte.byte) (Chain := unit) :=
  mkSrv (B := model) (db_upsert_vtxos (B := model) true [board_vtxo] (mkDb (B := model) ∅ [])).2 tt true.
Definition oor_id : VtxoId := vtxo_id (B := model) board_vtxo.
Definition oor_payment : VtxoRequest (B := model) := mkRequest (B := model) 10000 (new_pubkey (B := model) Byte.x06).
Definition oor_request : OorRequest (B := model) :=
  ReqCheckpoint (B := model) [mkCosignRequest (B := model) [21; 22] oor_id [oor_payment]] (fun i j => Z.of_nat (30 * i + j)).
Definition oor_handle : OorRequest (B := model) -> Code (Srv (B := model) (SecretKey := Byte.byte) (Chain := unit)) SrvError (OorReply (B := model)) :=
  handle (B := model) (SecretKey := Byte.byte) oor_up Byte.x09.
Definition oor_args : list (VtxoId * @PublicNonce model * list (VtxoRequest (B := model))) := [(oor_id, 21, [oor_payment])].

Lemma oor_srv_ok : keys_ok (B := model) (sv_db (B := model) (Chain := unit) oor_srv) /\ db_ok (B := model) (sv_db (B := model) (Chain := unit) oor_srv).
Proof.
  pose proof (db_upsert_keeps (B := model) (SecretKey := Byte.byte) true [board_vtxo] (mkDb (B := model) ∅ [])) as Hle.
  pose proof (db_upsert_ok (B := model) (SecretKey := Byte.byte) true [board_vtxo] (mkDb (B := model) ∅ [])) as Hok. split.
  - eapply (keys_ok_le (B := model)); [exact Hle|]. intros id v Hv. cbn in Hv. by rewrite lookup_empty in Hv.
  - apply Hok. intros id v Hv. cbn in Hv. by rewrite lookup_empty in Hv.
Qed.

Definition oor_run1 := run (oor_handle oor_request) empty_lock {[ oor_id ]} oor_srv.
Definition oor_run2 := run (oor_handle oor_request) empty_lock ∅ oor_run1.2.2.

Lemma oor_signs_once_witness : exists w : Pool (Srv (B := model) (SecretKey := Byte.byte) (Chain := unit)) SrvError (OorRequest (B := model)) (OorReply (B := model)),
  (exists rep, (oor_request, Ok rep) ∈ p_log w) /\
  (forall rep1 rep2 info1 info2 id t1 t2, (oor_request, Ok rep1) ∈ p_log w -> (oor_request, Ok rep2) ∈ p_log w ->
     signs (B := model) Byte.x09 (sv_db (B := model) (SecretKey := Byte.byte) (Chain := unit) (p_state w)) oor_request rep1 info1 ->
     signs (B := model) Byte.x09 (sv_db (B := model) (SecretKey := Byte.byte) (Chain := unit) (p_state w)) oor_request rep2 info2 ->
     (id, t1) ∈ info1 -> (id, t2) ∈ info2 -> t1 = t2).
Proof.
  destruct (requests_in_pool oor_handle (server_env (B := model) (SecretKey := Byte.byte) (Chain := unit)) (pool_init oor_srv) oor_request) as
    (q & Hq & Hlog & Hs & Ht & Hg & Hf); [reflexivity..|].
  destruct (requests_in_pool oor_handle (server_env (B := model) (SecretKey := Byte.byte) (Chain := unit)) q oor_request Ht Hg) as (w & Hw & Hlog' & _).
  exists w. split.
  - rewrite Hlog', Hlog. cbn [p_log pool_init app p_flux p_state].
    assert (Hok : is_ok (run (oor_handle oor_request) empty_lock flux_new oor_srv).1 = true) by (vm_compute; reflexivity).
    destruct (run (oor_handle oor_request) empty_lock flux_new oor_srv).1 as [rep|e|]; [|discriminate Hok..].
    exists rep. left.
  - destruct oor_srv_ok as [Hk Hok].
    assert (Hr : rtc (pool_step oor_handle (server_env (B := model) (SecretKey := Byte.byte) (Chain := unit))) (pool_init oor_srv) w)
      by (etrans; [exact Hq|exact Hw]).
    destruct (oor_signs_once (B := model) oor_up Byte.x09 oor_srv w Hk Hok Hr) as (_ & H & _).
    intros rep1 rep2 info1 info2 id t1 t2. apply H.
Defined.

Lemma flux_not_respected_witness :
  is_ok oor_run1.1 = true /\
  (exists o, run (cosign_oor_package (B := model) (SecretKey := Byte.byte) oor_up Byte.x09 oor_args [31]) empty_lock {[ oor_id ]} oor_srv =
     (o, ({[ oor_id ]}, oor_srv)) /\ forall l, o <> Ok l).
Proof.
  split; [vm_compute; reflexivity|]. destruct oor_srv_ok as [Hk _].
  destruct (flux_not_respected (B := model) oor_up Byte.x09 oor_srv oor_args [31] [] (fun _ _ => 0) {[ oor_id ]} ∅ Hk) as [H _].
  apply (H oor_id); [left|]. by apply elem_of_singleton.
Defined.
