(* ===== verification/RoundCollect.v ===== *)
(** * Rounds of the server: collecting payments (server/src/round/mod.rs)

    In the first state of a round attempt the coordinator receives requests:
    VTXOs to give up, new VTXOs and offboards to make.  [process_payment] checks
    a request, locks its inputs in flux, reads them from the database and
    registers the request.  The database as the query finds it, whether it
    answers ([up]) and the answers of bitcoind ([tx_status]) are arguments; the
    set of VTXOs in flux is the state. *)
From stdpp Require Import gmap.
From S2P Require Import Prelude Keyed Effects Bitcoin Encode Concrete Policy Vtxo Validation Arkoor SignedTree ChainSource Flux Rounds.
From S2P Require Import ServerDb.

Open Scope Z_scope.

Section Collect.
Context `{B : Bitcoin} `{C : Consensus} `{F : !Fees} {SecretKey : Type}.

Record VtxoParticipant := mkParticipant { vp_req : SignedVtxoRequest; vp_nonces : list PublicNonce }.

Record RoundData := mkRoundData {
  max_output_vtxos : nat; nb_vtxo_nonces : nat; offboard_feerate : Z; rd_max_vtxo_amount : option Z }.

(** [round_step] is kept as the sequence numbers of round and attempt. *)
Record CollectingPayments := mkCollecting {
  co_data : RoundData; co_round_seq : Z; co_attempt_seq : nat; co_challenge : bytes;
  co_locked : VtxoFluxLock; co_cosign_key : Keypair; co_allowed : option (gset VtxoId);
  co_inputs : gmap VtxoId Vtxo; co_outputs : list VtxoParticipant;
  co_inputs_per_cosigner : list (PublicKey * list VtxoId); co_offboards : list OffboardRequest;
  co_common_input : option OutPoint; co_proceed : bool }.

(** [new]; the challenge and the one-time key are drawn at random. *)
Definition collecting_new (round_seq : Z) (attempt_seq : nat) (data : RoundData) (locked_inputs : VtxoFluxLock)
    (allowed_inputs : option (gset VtxoId)) (common_round_tx_input : option OutPoint) (challenge : bytes)
    (cosign_key : Keypair) : CollectingPayments :=
  mkCollecting data round_seq attempt_seq challenge locked_inputs cosign_key allowed_inputs ∅ [] [] []
    common_round_tx_input false.

Definition first_attempt {E} (s : CollectingPayments) : outcome E bool :=
  _ ← assert (bool_decide (bool_decide (co_attempt_seq s = 0%nat) = bool_decide (co_allowed s = None)));
  Ok (bool_decide (co_attempt_seq s = 0%nat)).

Definition need_new_round {E} (s : CollectingPayments) : outcome E bool :=
  first ← first_attempt s;
  if (first : bool) then Ok false else allowed ← expect (co_allowed s); Ok (bool_decide (allowed = ∅)).

Definition have_payments (s : CollectingPayments) : bool :=
  negb (bool_decide (co_inputs s = ∅)) &&
  (negb (bool_decide (length (co_outputs s) = 0%nat)) || negb (bool_decide (length (co_offboards s) = 0%nat))).

(** ** The checks of a request *)
Definition MAX_MONEY : Z := 21000000 * 100000000.

Fixpoint check_inputs (in_set : gset VtxoId) (in_sum : Z) (inputs : list Vtxo) : outcome SrvError Z :=
  match inputs with
  | [] => Ok in_sum
  | input :: rest =>
      in_sum ← u_add 64 in_sum (amount input);
      if MAX_MONEY <? in_sum then Err (BadArgument "total input amount overflow"%string)
      else if bool_decide (vtxo_id input ∈ in_set) then Err (BadArgument "duplicate input"%string)
      else check_inputs ({[ vtxo_id input ]} ∪ in_set) in_sum rest
  end.

Fixpoint check_outputs (in_sum out_sum : Z) (outputs : list VtxoParticipant) : outcome SrvError Z :=
  match outputs with
  | [] => Ok out_sum
  | out :: rest =>
      let vtxo := sr_vtxo (vp_req out) in
      if req_amount vtxo <? P2TR_DUST then Err (BadArgument "vtxo amount too small"%string)
      else match req_policy vtxo with
           | ServerHtlcRecv _ => check_outputs in_sum out_sum rest
           | ServerHtlcSend _ => Err (BadArgument "invalid vtxo policy"%string)
           | Pubkey _ =>
               out_sum ← u_add 64 out_sum (req_amount vtxo);
               if in_sum <? out_sum then Err (BadArgument "total output amount exceeds total input amount"%string)
               else check_outputs in_sum out_sum rest
           | Checkpoint _ => Err (BadArgument "invalid vtxo policy"%string)
           end
  end.

Fixpoint check_offboards (feerate in_sum out_sum : Z) (offboards : list OffboardRequest) : outcome SrvError unit :=
  match offboards with
  | [] => Ok tt
  | offboard :: rest =>
      if ob_amount offboard <? P2TR_DUST then Err (BadArgument "offboard amount too small"%string)
      else
        fee ← map_err (fun _ => BadArgument "invalid offboard request"%string) (offboard_fee offboard feerate);
        cost ← u_add 64 (ob_amount offboard) fee;
        out_sum ← u_add 64 out_sum cost;
        if in_sum <? out_sum
        then Err (BadArgument "total output amount with offboard exceeds total input amount"%string)
        else check_offboards feerate in_sum out_sum rest
  end.

Definition validate_payment_amounts (s : CollectingPayments) (inputs : list Vtxo) (outputs : list VtxoParticipant)
    (offboards : list OffboardRequest) : outcome SrvError unit :=
  in_sum ← check_inputs ∅ 0 inputs;
  out_sum ← check_outputs in_sum 0 outputs;
  check_offboards (offboard_feerate (co_data s)) in_sum out_sum offboards.

Definition check_nonces_and_key (s : CollectingPayments) (out : VtxoParticipant) : outcome SrvError unit :=
  _ ← ensure (bool_decide (length (vp_nonces out) = nb_vtxo_nonces (co_data s)))
        (Bail "incorrect number of cosign nonces per set"%string);
  match cosign_pubkey (vp_req out) with
  | Some cosign_pk =>
      ensure (bool_decide (kget (co_inputs_per_cosigner s) cosign_pk = None)) (Bail "duplicate cosign key"%string)
  | None => Ok tt
  end.

Definition check_max_amount (max : Z) (out : VtxoParticipant) : outcome SrvError unit :=
  ensure (negb (max <? req_amount (sr_vtxo (vp_req out)))) (BadArgument "output exceeds maximum vtxo amount"%string).

Fixpoint check_unique (s : CollectingPayments) (unique : list VtxoIdInput) (inputs : list VtxoIdInput)
  : outcome SrvError unit :=
  match inputs with
  | [] => Ok tt
  | input :: rest =>
      _ ← ensure (negb (bool_decide (input ∈ unique))) (Bail "user provided duplicate inputs"%string);
      _ ← ensure (bool_decide (co_inputs s !! vi_vtxo_id input = None)) (Bail "vtxo already registered"%string);
      check_unique s (input :: unique) rest
  end.

Definition validate_payment_data (s : CollectingPayments) (inputs : list VtxoIdInput) (outputs : list VtxoParticipant)
  : outcome SrvError unit :=
  _ ← mapM (check_nonces_and_key s) outputs;
  _ ← match rd_max_vtxo_amount (co_data s) with
      | Some max => (fun _ => tt) <$> mapM (check_max_amount max) outputs
      | None => Ok tt
      end;
  _ ← ensure (negb (max_output_vtxos (co_data s) <? length (co_outputs s) + length outputs)%nat)
        (Bail "not enough outputs left in this round, try next round"%string);
  _ ← check_unique s [] inputs;
  match co_allowed s with
  | Some allowed =>
      ensure (forallb (fun i => bool_decide (vi_vtxo_id i ∈ allowed)) inputs)
        (Bail "input vtxo has been banned for this round"%string)
  | None => Ok tt
  end.

(** ** Processing a request *)
Definition check_fetch_round_input_vtxos (up : bool) (db : Db SecretKey) (inputs : list VtxoIdInput)
  : outcome SrvError (list Vtxo) :=
  vtxos ← (get_vtxos_by_id up (vi_vtxo_id <$> inputs) db).1;
  mapM (fun v => _ ← ensure (is_spendable v) (Bail "vtxo is not spendable"%string); Ok (vs_vtxo v)) vtxos.

(** [check_vtxos_not_exited] of server/src/lib.rs. *)
Definition not_exited (tx_status : bytes -> outcome SrvError TxStatus.t) (vtxos : list Vtxo) : outcome SrvError unit :=
  (fun _ => tt) <$> mapM (fun v =>
    status ← tx_status (op_txid (id_utxo (vtxo_id v)));
    match status with
    | TxStatus.Confirmed _ => Err (BadArgument "cannot spend vtxo that is already exited"%string)
    | TxStatus.Mempool => Err (BadArgument "cannot spend vtxo that is being exited"%string)
    | TxStatus.NotFound => Ok tt
    end) vtxos.

(** The proofs by VTXO id: of inputs with the same id the last one counts. *)
Definition proof_of (inputs : list VtxoIdInput) (id : VtxoId) : option Signature :=
  ownership_proof <$> last (filter (fun i => vi_vtxo_id i = id) inputs).

Definition check_ownership (s : CollectingPayments) (inputs : list VtxoIdInput) (v_reqs : list SignedVtxoRequest)
    (offboards : list OffboardRequest) (input : Vtxo) : outcome SrvError unit :=
  sig ← expect (proof_of inputs (vtxo_id input));
  ok ← map_err (fun _ => Bail "io"%string) (verify_input_vtxo_sig (co_challenge s) input v_reqs offboards sig);
  ensure ok (Bail "ownership proof is invalid"%string).

(** Everything between taking the lock and registering the request. *)
Definition check_request (s : CollectingPayments) (up : bool) (db : Db SecretKey)
    (tx_status : bytes -> outcome SrvError TxStatus.t) (inputs : list VtxoIdInput)
    (vtxo_requests : list VtxoParticipant) (offboards : list OffboardRequest) : outcome SrvError (list Vtxo) :=
  input_vtxos ← check_fetch_round_input_vtxos up db inputs;
  _ ← mapM (check_ownership s inputs (vp_req <$> vtxo_requests) offboards) input_vtxos;
  _ ← validate_payment_amounts s input_vtxos vtxo_requests offboards;
  _ ← not_exited tx_status input_vtxos;
  Ok input_vtxos.

(** [inputs_per_cosigner.insert(..).is_none()] for every request with a key. *)
Fixpoint insert_cosigners {E} (ids : list VtxoId) (reqs : list VtxoParticipant) (m : list (PublicKey * list VtxoId))
  : outcome E (list (PublicKey * list VtxoId)) :=
  match reqs with
  | [] => Ok m
  | r :: rest =>
      match cosign_pubkey (vp_req r) with
      | Some pk => _ ← assert (bool_decide (kget m pk = None)); insert_cosigners ids rest (kset pk ids m)
      | None => insert_cosigners ids rest m
      end
  end.

(** [register_payment]; also returns what is left in the lock it was given,
    which is dropped at its end. *)
Definition register_payment {E} (s : CollectingPayments) (lock : VtxoFluxLock) (inputs : list Vtxo)
    (vtxo_requests : list VtxoParticipant) (offboards : list OffboardRequest)
  : outcome E (CollectingPayments * VtxoFluxLock) :=
  first ← first_attempt s;
  let locked := if (first : bool) then absorb (co_locked s) lock else co_locked s in
  let rest := if (first : bool) then empty_lock else lock in
  let input_ids := vtxo_id <$> inputs in
  m ← insert_cosigners input_ids vtxo_requests (co_inputs_per_cosigner s);
  let outputs := co_outputs s ++ vtxo_requests in
  Ok (mkCollecting (co_data s) (co_round_seq s) (co_attempt_seq s) (co_challenge s) locked (co_cosign_key s) (co_allowed s)
        (foldl (fun all v => <[vtxo_id v := v]> all) (co_inputs s) inputs) outputs m (co_offboards s ++ offboards)
        (co_common_input s)
        (co_proceed s || bool_decide (length outputs = max_output_vtxos (co_data s))), rest).

Definition process_payment (s : CollectingPayments) (up : bool) (db : Db SecretKey)
    (tx_status : bytes -> outcome SrvError TxStatus.t) (inputs : list VtxoIdInput)
    (vtxo_requests : list VtxoParticipant) (offboards : list OffboardRequest)
  : M VtxosInFlux SrvError CollectingPayments := fun flux =>
  match
    (_ ← ensure (negb (bool_decide (length vtxo_requests = 0%nat) && bool_decide (length offboards = 0%nat)))
           (BadArgument "invalid request: zero outputs and zero offboards"%string);
     validate_payment_data s inputs vtxo_requests)
  with
  | Err e => (Err e, flux)
  | Panic => (Panic, flux)
  | Ok _ =>
      match flux_lock (vi_vtxo_id <$> inputs) flux with
      | (inl id, flux) => (Err (Bail "vtxo already in flux"%string), flux)
      | (inr lock, flux) =>
          match
            (input_vtxos ← check_request s up db tx_status inputs vtxo_requests offboards;
             register_payment s lock input_vtxos vtxo_requests offboards)
          with
          | Ok (s', rest) => (Ok s', drop_lock rest flux)
          | Err e => (Err e, drop_lock lock flux)
          | Panic => (Panic, drop_lock lock flux)
          end
      end
  end.

Definition total_input_amount {E} (s : CollectingPayments) : outcome E Z :=
  amount_sum (amount <$> (map_to_list (co_inputs s)).*2).
End Collect.

(** ** What the checks establish *)
Section Checks.
Context `{B : Bitcoin} `{C : Consensus} `{F : !Fees}.

Definition is_pubkey (p : VtxoPolicy) : bool := match p with Pubkey _ => true | _ => false end.
Definition is_htlc_recv (p : VtxoPolicy) : bool := match p with ServerHtlcRecv _ => true | _ => false end.
Definition out_request (o : VtxoParticipant) : VtxoRequest := sr_vtxo (vp_req o).

(** What the inputs have to pay for: the outputs to keys, and the offboards
    with their fees. *)
Definition paid_outputs (outs : list VtxoParticipant) : Z :=
  sum_Z ((fun o => if is_pubkey (req_policy (out_request o)) then req_amount (out_request o) else 0) <$> outs).
Definition offboard_cost (feerate : Z) (o : OffboardRequest) : Z := ob_amount o + ok_value 0 (offboard_fee o feerate).
Definition inputs_total (m : gmap VtxoId Vtxo) : Z := sum_Z (amount <$> (map_to_list m).*2).

(** A requested output: not dust, and owned by a key or an incoming HTLC. *)
Definition output_ok (o : VtxoParticipant) : Prop :=
  P2TR_DUST <= req_amount (out_request o) /\
  (is_pubkey (req_policy (out_request o)) = true \/ is_htlc_recv (req_policy (out_request o)) = true).

Lemma paid_outputs_app l k : paid_outputs (l ++ k) = paid_outputs l + paid_outputs k.
Proof. unfold paid_outputs. by rewrite fmap_app, sum_Z_app. Qed.

Lemma u_add_Ok {E} w a b c : u_add (E:=E) w a b = Ok c -> c = a + b /\ 0 <= c < 2 ^ w.
Proof. unfold u_add. destruct (in_width w (a + b)) eqn:H; [|done]. intros [= <-]. by apply in_width_spec in H. Qed.

Lemma check_inputs_Ok ins : forall seen sum res, 0 <= sum -> check_inputs seen sum ins = Ok res ->
  res = sum + sum_Z (amount <$> ins) /\ 0 <= res.
Proof.
  induction ins as [|i ins IH]; intros seen sum res H0 H; cbn [check_inputs] in H.
  - injection H as <-. cbn. lia.
  - apply bind_Ok in H as (s & [-> [Hs _]]%u_add_Ok & H). destruct (MAX_MONEY <? _); [done|]. case_bool_decide; [done|].
    apply IH in H as [-> H]; [|done]. cbn [fmap list_fmap]. rewrite sum_Z_cons. split; lia.
Qed.

Lemma check_outputs_Ok outs : forall in_sum sum res, 0 <= sum <= in_sum -> check_outputs in_sum sum outs = Ok res ->
  res = sum + paid_outputs outs /\ 0 <= res <= in_sum /\ Forall output_ok outs.
Proof.
  induction outs as [|o outs IH]; intros in_sum sum res H0 H; cbn [check_outputs] in H.
  - injection H as <-. unfold paid_outputs. cbn. split; [lia|]. split; [lia|constructor].
  - destruct (req_amount _ <? P2TR_DUST) eqn:Hdust; [done|]. apply Z.ltb_ge in Hdust.
    unfold paid_outputs. cbn [fmap list_fmap]. rewrite sum_Z_cons. fold (paid_outputs outs). unfold out_request at 1.
    destruct (req_policy (sr_vtxo (vp_req o))) eqn:Hp; try done.
    + apply bind_Ok in H as (s & [-> Hs]%u_add_Ok & H). destruct (in_sum <? _) eqn:Hlt; [done|]. apply Z.ltb_ge in Hlt.
      apply IH in H as (-> & Hr & Hf); [|lia]. cbn [is_pubkey]. unfold out_request. split; [lia|]. split; [lia|].
      constructor; [|done]. split; [done|left]. unfold out_request. by rewrite Hp.
    + apply IH in H as (-> & Hr & Hf); [|lia]. cbn [is_pubkey]. split; [lia|]. split; [lia|].
      constructor; [|done]. split; [done|right]. unfold out_request. by rewrite Hp.
Qed.

Lemma check_offboards_Ok feerate offs : forall in_sum sum, sum <= in_sum -> check_offboards feerate in_sum sum offs = Ok tt ->
  sum + sum_Z (offboard_cost feerate <$> offs) <= in_sum.
Proof.
  induction offs as [|o offs IH]; intros in_sum sum H0 H; cbn [check_offboards] in H; [cbn; lia|].
  destruct (ob_amount o <? P2TR_DUST); [done|]. apply bind_Ok in H as (fee & Hfee%map_err_Ok & H).
  apply bind_Ok in H as (c & [-> _]%u_add_Ok & H). apply bind_Ok in H as (s & [-> _]%u_add_Ok & H).
  destruct (in_sum <? _) eqn:Hlt; [done|]. apply Z.ltb_ge in Hlt. apply IH in H; [|done].
  cbn [fmap list_fmap]. rewrite sum_Z_cons. unfold offboard_cost at 1. rewrite Hfee. cbn [ok_value]. lia.
Qed.

Lemma payment_amounts_Ok s ins outs offs : validate_payment_amounts s ins outs offs = Ok tt ->
  paid_outputs outs + sum_Z (offboard_cost (offboard_feerate (co_data s)) <$> offs) <= sum_Z (amount <$> ins) /\
  Forall output_ok outs.
Proof.
  intros H. apply bind_Ok in H as (i & [-> Hi]%check_inputs_Ok & H); [|done].
  apply bind_Ok in H as (o & (-> & Ho & Hf)%check_outputs_Ok & H); [|lia]. apply check_offboards_Ok in H; [|lia].
  split; [lia|done].
Qed.

Lemma check_unique_Ok s ins : forall unique, check_unique s unique ins = Ok tt ->
  Forall (fun i => co_inputs s !! vi_vtxo_id i = None) ins.
Proof.
  induction ins as [|i ins IH]; intros unique H; [constructor|]. cbn [check_unique] in H.
  apply bind_Ok in H as ([] & _ & H). apply bind_Ok in H as ([] & Hn%ensure_Ok%bool_decide_eq_true & H).
  constructor; [done|]. by eapply IH.
Qed.

Lemma mapM_ensure_Ok {A} (f : A -> outcome SrvError unit) l ks : mapM f l = Ok ks -> Forall (fun a => f a = Ok tt) l.
Proof.
  intros H. apply mapM_outcome_Ok in H. induction H as [|a [] l ks Ha _ IH]; [constructor|]. by constructor.
Qed.

Lemma validate_data_Ok s ins outs : validate_payment_data s ins outs = Ok tt ->
  Forall (fun o => length (vp_nonces o) = nb_vtxo_nonces (co_data s)) outs /\
  (length (co_outputs s) + length outs <= max_output_vtxos (co_data s))%nat /\
  Forall (fun i => co_inputs s !! vi_vtxo_id i = None) ins /\
  (forall allowed, co_allowed s = Some allowed -> Forall (fun i => vi_vtxo_id i ∈ allowed) ins).
Proof.
  intros H. apply bind_Ok in H as (ks & Hn%mapM_ensure_Ok & H). apply bind_Ok in H as (u & _ & H).
  apply bind_Ok in H as ([] & Hm%ensure_Ok & H). apply bind_Ok in H as ([] & Hu%check_unique_Ok & H).
  split_and!; [|apply negb_true_iff, Nat.ltb_ge in Hm; lia|done|].
  - eapply Forall_impl; [exact Hn|]. intros o Ho. by apply bind_Ok in Ho as ([] & Ho%ensure_Ok%bool_decide_eq_true & _).
  - intros allowed Ha. rewrite Ha in H. apply ensure_Ok, forallb_Forall in H. eapply Forall_impl; [exact H|].
    intros i. apply bool_decide_eq_true.
Qed.

(** Cosign keys of outputs. *)
Definition cosign_keys (outs : list VtxoParticipant) : list PublicKey := omap (fun o => cosign_pubkey (vp_req o)) outs.

Lemma insert_cosigners_Ok {E} ids reqs : forall m m', insert_cosigners (E:=E) ids reqs m = Ok m' -> NoDup m.*1 ->
  NoDup m'.*1 /\ m'.*1 ≡ₚ cosign_keys reqs ++ m.*1 /\
  (forall pk l, kget m' pk = Some l -> kget m pk = Some l \/ (pk ∈ cosign_keys reqs /\ l = ids)).
Proof.
  induction reqs as [|r reqs IH]; intros m m' H Hnd; cbn [insert_cosigners] in H.
  - injection H as <-. split_and!; [done|done|by left].
  - unfold cosign_keys. cbn [omap list_omap]. fold (cosign_keys reqs).
    destruct (cosign_pubkey (vp_req r)) as [pk|]; [|by apply IH].
    apply bind_Ok in H as ([] & Hn%assert_Ok%bool_decide_eq_true & H).
    apply IH in H as (H1 & H2 & H3); [|by apply kset_NoDup]. split; [done|]. rewrite (kset_fresh _ _ _ Hn) in H2. split.
    + rewrite H2. cbn. by rewrite Permutation_middle.
    + intros k l [Hk|[Hk ->]]%H3; [|right; split; [by right|done]]. rewrite kget_kset in Hk. destruct (decide (k = pk)) as [->|]; [|by left].
      injection Hk as <-. right. split; [left|done].
Qed.

Lemma insert_inputs_dom (vs : list Vtxo) : forall m : gmap VtxoId Vtxo,
  dom (foldl (fun all v => <[vtxo_id v := v]> all) m vs) =@{gset VtxoId} list_to_set (vtxo_id <$> vs) ∪ dom m.
Proof. induction vs as [|v vs IH]; intros m; cbn [foldl]; [set_solver|]. rewrite IH, dom_insert_L. cbn. set_solver. Qed.

(** Registering fresh, distinct inputs adds up their amounts. *)
Lemma insert_inputs (vs : list Vtxo) : forall m, NoDup (vtxo_id <$> vs) -> Forall (fun v => m !! vtxo_id v = None) vs ->
  let m' := foldl (fun all v => <[vtxo_id v := v]> all) m vs in
  inputs_total m' = inputs_total m + sum_Z (amount <$> vs) /\ dom m' = list_to_set (vtxo_id <$> vs) ∪ dom m /\
  (forall id v, m' !! id = Some v -> m !! id = Some v \/ (v ∈ vs /\ vtxo_id v = id)).
Proof.
  induction vs as [|v vs IH]; intros m Hnd Hf; cbn [foldl]; [cbn; split_and!; [lia|set_solver|by left]|].
  cbn in Hnd. apply NoDup_cons in Hnd as [Hv Hnd]. apply Forall_cons in Hf as [Hm Hf].
  destruct (IH (<[vtxo_id v := v]> m) Hnd) as (H1 & H2 & H3).
  { apply Forall_forall. intros w Hw. rewrite Forall_forall in Hf. rewrite lookup_insert_ne; [by apply Hf|].
    intros Heq. apply Hv. rewrite Heq. by apply list_elem_of_fmap_2. }
  cbn zeta in *. rewrite H1, H2. split_and!.
  - unfold inputs_total. rewrite (map_to_list_insert m (vtxo_id v) v Hm). cbn [fmap list_fmap snd]. rewrite !sum_Z_cons. lia.
  - rewrite dom_insert_L. cbn. set_solver.
  - intros id w [Hw|[Hw1 Hw2]]%H3; [|right; split; [by right|done]].
    apply lookup_insert_Some in Hw as [[<- <-]|[_ Hw]]; [right; split; [left|done]|by left].
Qed.
End Checks.

(** ** Collecting keeps its promises *)
Section Sound.
Context `{B : Bitcoin} `{C : Consensus} `{F : !Fees} {SecretKey : Type}.

Record co_inv (s : CollectingPayments) : Prop := {
  ci_first : co_attempt_seq s = 0%nat <-> co_allowed s = None;
  ci_max : (length (co_outputs s) <= max_output_vtxos (co_data s))%nat;
  ci_outputs : Forall (fun o => length (vp_nonces o) = nb_vtxo_nonces (co_data s) /\ output_ok o) (co_outputs s);
  ci_keys : NoDup (co_inputs_per_cosigner s).*1;
  ci_cosigners : (co_inputs_per_cosigner s).*1 ≡ₚ cosign_keys (co_outputs s);
  ci_owned : forall pk l, kget (co_inputs_per_cosigner s) pk = Some l -> Forall (fun id => id ∈ dom (co_inputs s)) l;
  ci_ids : forall id v, co_inputs s !! id = Some v -> vtxo_id v = id;
  ci_allowed : forall allowed, co_allowed s = Some allowed -> dom (co_inputs s) ⊆ allowed;
  ci_locked : co_locked s = if decide (co_attempt_seq s = 0%nat) then (dom (co_inputs s) : gset VtxoId) else ∅;
  ci_value : paid_outputs (co_outputs s) + sum_Z (offboard_cost (offboard_feerate (co_data s)) <$> co_offboards s) <=
    inputs_total (co_inputs s);
}.

(** A fresh attempt, once the locks of the one before are released. *)
Lemma collecting_new_inv seq att data allowed common ch key : att = 0%nat <-> allowed = None ->
  co_inv (collecting_new seq att data ∅ allowed common ch key).
Proof.
  intros H. split; cbn.
  - done.
  - lia.
  - by apply Forall_nil_2.
  - apply NoDup_nil_2.
  - done.
  - done.
  - intros id v Hv. by rewrite lookup_empty in Hv.
  - intros a _. rewrite dom_empty_L. set_solver.
  - rewrite dom_empty_L. by destruct (decide _).
  - unfold paid_outputs, inputs_total. rewrite map_to_list_empty. cbn. lia.
Qed.

(** What a registered request changes. *)
Record registers (s s' : CollectingPayments) (vs : list Vtxo) (reqs : list VtxoParticipant) (offs : list OffboardRequest) : Prop := {
  rg_data : co_data s' = co_data s;
  rg_attempt : co_attempt_seq s' = co_attempt_seq s /\ co_allowed s' = co_allowed s /\ co_round_seq s' = co_round_seq s;
  rg_inputs : co_inputs s' = foldl (fun all v => <[vtxo_id v := v]> all) (co_inputs s) vs;
  rg_outputs : co_outputs s' = co_outputs s ++ reqs;
  rg_offboards : co_offboards s' = co_offboards s ++ offs;
  rg_cosigners : forall pk l, kget (co_inputs_per_cosigner s') pk = Some l ->
    kget (co_inputs_per_cosigner s) pk = Some l \/ l = vtxo_id <$> vs;
}.

(** Why an input is accepted: the database has it as spendable, its owner signed
    the request, and its exit is not under way. *)
Record accepted (s : CollectingPayments) (db : Db SecretKey) (tx_status : bytes -> outcome SrvError TxStatus.t)
    (ins : list VtxoIdInput) (reqs : list VtxoParticipant) (offs : list OffboardRequest) (v : Vtxo) : Prop := {
  ac_row : exists row, tbl_vtxo db !! vtxo_id v = Some row /\ vs_vtxo row = v /\ is_spendable row = true;
  ac_signed : exists sig, mkIdInput (vtxo_id v) sig ∈ ins /\
    verify_input_vtxo_sig (co_challenge s) v (vp_req <$> reqs) offs sig = Ok true;
  ac_exit : tx_status (op_txid (id_utxo (vtxo_id v))) = Ok TxStatus.NotFound;
}.

Lemma check_fetch_Ok up (db : Db SecretKey) ins vs : keys_ok db -> check_fetch_round_input_vtxos up db ins = Ok vs ->
  vtxo_id <$> vs = vi_vtxo_id <$> ins /\
  Forall (fun v => exists row, tbl_vtxo db !! vtxo_id v = Some row /\ vs_vtxo row = v /\ is_spendable row = true) vs.
Proof.
  intros Hk H. apply bind_Ok in H as (rows & Hr & H).
  destruct (get_vtxos_by_id up (vi_vtxo_id <$> ins) db) as [o db'] eqn:Hrun. cbn in Hr. subst o.
  apply get_vtxos_run in Hrun as [_ Hrows].
  assert (Hvs : vs = vs_vtxo <$> rows /\ Forall (fun r => is_spendable r = true) rows).
  { apply mapM_outcome_Ok in H. clear Hrows. induction H as [|r v rows vs Hv _ [-> IH]]; [done|].
    apply bind_Ok in Hv as ([] & Hv%ensure_Ok & [= <-]). split; [done|by constructor]. }
  destruct Hvs as [-> Hsp]. split; [by eapply rows_ids|]. apply Forall_fmap.
  clear H. revert Hrows. generalize (vi_vtxo_id <$> ins). intros ids Hrows.
  induction Hrows as [|id r ids rows Hr _ IH]; [constructor|]. apply Forall_cons in Hsp as [Hs Hsp].
  constructor; [|by apply IH]. exists r. by rewrite (Hk id r Hr).
Qed.

Lemma Forall_ids {A A'} (f : A -> VtxoId) (g : A' -> VtxoId) (P : VtxoId -> Prop) l l' : f <$> l = g <$> l' ->
  Forall (fun a => P (g a)) l' -> Forall (fun a => P (f a)) l.
Proof. intros Heq H. apply (Forall_fmap f P l). rewrite Heq. by apply (Forall_fmap g P l'). Qed.

Lemma first_attempt_inv {E} s : co_inv s -> first_attempt (E:=E) s = Ok (bool_decide (co_attempt_seq s = 0%nat)).
Proof.
  intros Hs. unfold first_attempt. pose proof (bool_decide_ext _ _ (ci_first _ Hs)) as ->. by case_bool_decide.
Qed.

Lemma register_payment_Ok {E} s lock vs reqs offs s' rest : co_inv s ->
  NoDup (vtxo_id <$> vs) -> Forall (fun v => co_inputs s !! vtxo_id v = None) vs ->
  (forall allowed, co_allowed s = Some allowed -> Forall (fun v => vtxo_id v ∈ allowed) vs) ->
  Forall (fun o => length (vp_nonces o) = nb_vtxo_nonces (co_data s) /\ output_ok o) reqs ->
  (length (co_outputs s) + length reqs <= max_output_vtxos (co_data s))%nat ->
  paid_outputs reqs + sum_Z (offboard_cost (offboard_feerate (co_data s)) <$> offs) <= sum_Z (amount <$> vs) ->
  lock = list_to_set (vtxo_id <$> vs) ->
  register_payment (E:=E) s lock vs reqs offs = Ok (s', rest) ->
  co_inv s' /\ registers s s' vs reqs offs /\ rest = if decide (co_attempt_seq s = 0%nat) then ∅ else lock.
Proof.
  intros Hs Hnd Hfresh Hall Houts Hmax Hval -> H. unfold register_payment in H. rewrite (first_attempt_inv s Hs) in H.
  cbn [mbind outcome_bind] in H. apply bind_Ok in H as (m & Hm & [= <- <-]).
  destruct (insert_cosigners_Ok _ _ _ _ Hm (ci_keys _ Hs)) as (Hm1 & Hm2 & Hm3).
  destruct (insert_inputs vs (co_inputs s) Hnd Hfresh) as (Hi1 & Hi2 & Hi3). cbn zeta in *. split_and!.
  - split; cbn -[paid_outputs inputs_total sum_Z].
    + apply (ci_first _ Hs).
    + rewrite length_app. lia.
    + apply Forall_app. split; [apply (ci_outputs _ Hs)|done].
    + done.
    + rewrite Hm2, (ci_cosigners _ Hs). unfold cosign_keys. rewrite omap_app. apply Permutation_app_comm.
    + intros pk l [Hl|[_ ->]]%Hm3; apply Forall_forall; intros id Hid; rewrite Hi2.
      * apply elem_of_union_r. pose proof (ci_owned _ Hs pk l Hl) as Ho. rewrite Forall_forall in Ho. by apply Ho.
      * apply elem_of_union_l. by apply elem_of_list_to_set.
    + intros id v [Hv|[_ Hv]]%Hi3; [by apply (ci_ids _ Hs)|done].
    + intros allowed Ha. rewrite Hi2. apply union_subseteq. split; [|by apply (ci_allowed _ Hs)].
      intros id (v & -> & Hv)%elem_of_list_to_set%list_elem_of_fmap. specialize (Hall _ Ha). rewrite Forall_forall in Hall. by apply Hall.
    + rewrite Hi2, (ci_locked _ Hs). destruct (decide (co_attempt_seq s = 0%nat)) as [H0|H0].
      * rewrite bool_decide_true by done. unfold absorb. set_solver.
      * by rewrite bool_decide_false.
    + rewrite paid_outputs_app, fmap_app, sum_Z_app, Hi1. pose proof (ci_value _ Hs). lia.
  - split; cbn; try done. intros pk l [Hl|[_ Hl]]%Hm3; [by left|by right].
  - destruct (decide (co_attempt_seq s = 0%nat)); [by rewrite bool_decide_true|by rewrite bool_decide_false].
Qed.

Lemma not_exited_Ok tx_status vs : not_exited tx_status vs = Ok tt ->
  Forall (fun v => tx_status (op_txid (id_utxo (vtxo_id v))) = Ok TxStatus.NotFound) vs.
Proof.
  intros H. unfold not_exited in H. destruct (mapM _ vs) as [ks|e|] eqn:Hm; [|done..]. clear H.
  apply mapM_ensure_Ok in Hm. eapply Forall_impl; [exact Hm|]. cbn beta. intros v Hv.
  apply bind_Ok in Hv as ([| |] & Hv & H); done.
Qed.

Lemma check_ownership_Ok s ins reqs offs v : check_ownership s ins reqs offs v = Ok tt ->
  exists sig, mkIdInput (vtxo_id v) sig ∈ ins /\ verify_input_vtxo_sig (co_challenge s) v reqs offs sig = Ok true.
Proof.
  intros H. apply bind_Ok in H as (sig & Hsig%expect_Ok & H). apply bind_Ok in H as (ok & Hok%map_err_Ok & ->%ensure_Ok).
  exists sig. split; [|done]. apply fmap_Some in Hsig as ([id p] & Hl & ->).
  by apply last_Some_elem_of, list_elem_of_filter in Hl as [<- Hl].
Qed.

Lemma check_request_Ok s up (db : Db SecretKey) tx_status ins reqs offs vs : keys_ok db ->
  check_request s up db tx_status ins reqs offs = Ok vs ->
  vtxo_id <$> vs = vi_vtxo_id <$> ins /\ Forall (accepted s db tx_status ins reqs offs) vs /\
  paid_outputs reqs + sum_Z (offboard_cost (offboard_feerate (co_data s)) <$> offs) <= sum_Z (amount <$> vs) /\
  Forall output_ok reqs.
Proof.
  intros Hk H. apply bind_Ok in H as (vs' & [Hids Hrows]%check_fetch_Ok & H); [|done].
  apply bind_Ok in H as (ks & Hown%mapM_ensure_Ok & H). apply bind_Ok in H as ([] & [Hval Houts]%payment_amounts_Ok & H).
  apply bind_Ok in H as ([] & Hex%not_exited_Ok & [= ->]). split; [done|]. split; [|by split].
  rewrite Forall_forall in Hrows, Hown, Hex. apply Forall_forall. intros v Hv. split; [by apply Hrows| |by apply Hex].
  by apply check_ownership_Ok, Hown.
Qed.

Lemma process_payment_spec s up (db : Db SecretKey) tx_status ins reqs offs flux : co_inv s -> keys_ok db ->
  match process_payment s up db tx_status ins reqs offs flux with
  | (Ok s', flux') => co_inv s' /\ lockable (vi_vtxo_id <$> ins) flux /\
      (exists vs, vtxo_id <$> vs = vi_vtxo_id <$> ins /\ Forall (accepted s db tx_status ins reqs offs) vs /\
         registers s s' vs reqs offs) /\
      flux' = if decide (co_attempt_seq s = 0%nat) then flux ∪ list_to_set (vi_vtxo_id <$> ins) else flux
  | (_, flux') => flux' = flux
  end.
Proof.
  intros Hs Hk. unfold process_payment.
  destruct (_ ← ensure _ _; validate_payment_data s ins reqs) as [[]|e|] eqn:Hdata; [|done..].
  apply bind_Ok in Hdata as ([] & _ & (Hn & Hmax & Hfresh & Hall)%validate_data_Ok).
  pose proof (flux_lock_spec (vi_vtxo_id <$> ins) flux) as Hl.
  destruct (flux_lock (vi_vtxo_id <$> ins) flux) as [[id|lock] flux1]; [by destruct Hl as (_ & _ & ->)|].
  destruct Hl as (Hlock & -> & ->). pose proof Hlock as [Hnd Hfree].
  assert (Hback : drop_lock (list_to_set (vi_vtxo_id <$> ins)) (flux ∪ list_to_set (vi_vtxo_id <$> ins)) = flux).
  { rewrite drop_lock_spec. set_solver. }
  destruct (_ ← check_request _ _ _ _ _ _ _; _) as [[s' rest]|e|] eqn:Hreq; [|by apply Hback..].
  apply bind_Ok in Hreq as (vs & (Hids & Hacc & Hval & Houts)%check_request_Ok & Hreg); [|done].
  destruct (register_payment_Ok (E:=SrvError) s (list_to_set (vi_vtxo_id <$> ins)) vs reqs offs s' rest) as (Hs' & Hr & Hrest); try done.
  - by rewrite Hids.
  - by apply (Forall_ids vtxo_id vi_vtxo_id (fun id => co_inputs s !! id = None) vs ins).
  - intros allowed Ha. by apply (Forall_ids vtxo_id vi_vtxo_id (fun id => id ∈ allowed) vs ins), Hall.
  - apply Forall_and. by split.
  - by rewrite Hids.
  - split; [done|]. split; [done|]. split; [by exists vs|]. rewrite drop_lock_spec, Hrest.
    destruct (decide (co_attempt_seq s = 0%nat)); set_solver.
Qed.

(** C21. Collecting payments is sound.  From a state that satisfies the
    invariant, a request is either registered, and the new state satisfies the
    invariant: at most the maximal number of outputs, each with enough nonces,
    not dust, with a cosign key of its own; inputs that are registered once, that
    the attempt allows and that belong to their cosigners; outputs and offboards
    that the inputs pay for (HTLCs of the server aside); and, in the first
    attempt, all inputs locked in flux.  Its inputs were then free, spendable by
    the database, not about to exit, and signed for by their owners.  Or it is
    refused (or the server panics), and the VTXOs in flux are as before. *)
Theorem process_payment_sound s up (db : Db SecretKey) tx_status ins reqs offs flux : co_inv s -> keys_ok db ->
  match process_payment s up db tx_status ins reqs offs flux with
  | (Ok s', flux') => co_inv s' /\ lockable (vi_vtxo_id <$> ins) flux /\
      (exists vs, vtxo_id <$> vs = vi_vtxo_id <$> ins /\ Forall (accepted s db tx_status ins reqs offs) vs /\
         registers s s' vs reqs offs) /\
      flux' = if decide (co_attempt_seq s = 0%nat) then flux ∪ list_to_set (vi_vtxo_id <$> ins) else flux
  | (_, flux') => flux' = flux
  end.
Proof. apply process_payment_spec. Qed.

(** Payments of incoming lightning payments need no inputs. *)
Definition htlc_output (s : CollectingPayments) (o : VtxoParticipant) : Prop :=
  is_htlc_recv (req_policy (out_request o)) = true /\ P2TR_DUST <= req_amount (out_request o) /\
  length (vp_nonces o) = nb_vtxo_nonces (co_data s) /\
  (forall max, rd_max_vtxo_amount (co_data s) = Some max -> req_amount (out_request o) <= max) /\
  (forall pk, cosign_pubkey (vp_req o) = Some pk -> kget (co_inputs_per_cosigner s) pk = None).

Lemma ensure_true {E} b (e : E) : b = true -> ensure b e = Ok tt.
Proof. by intros ->. Qed.

Lemma mapM_ensure {A} (f : A -> outcome SrvError unit) l : Forall (fun a => f a = Ok tt) l -> exists ks, mapM f l = Ok ks.
Proof.
  intros H. exists (replicate (length l) tt). apply mapM_outcome_Ok. induction H as [|a l Ha _ IH]; [constructor|]. by constructor.
Qed.

Lemma htlc_data_Ok s extra : Forall (htlc_output s) extra ->
  (length (co_outputs s) + length extra <= max_output_vtxos (co_data s))%nat -> validate_payment_data s [] extra = Ok tt.
Proof.
  intros He Hlen. unfold validate_payment_data.
  destruct (mapM_ensure (check_nonces_and_key s) extra) as [ks ->].
  { eapply Forall_impl; [exact He|]. intros o (_ & _ & Hn & _ & Hk). unfold check_nonces_and_key.
    rewrite ensure_true by by apply bool_decide_eq_true. cbn. destruct (cosign_pubkey (vp_req o)) as [pk|] eqn:E; [|done].
    by rewrite ensure_true by (apply bool_decide_eq_true; auto). }
  cbn [mbind outcome_bind].
  assert (Hmax : match rd_max_vtxo_amount (co_data s) with
    | Some max => (fun _ => tt) <$> mapM (check_max_amount max) extra | None => Ok tt end = Ok tt).
  { destruct (rd_max_vtxo_amount (co_data s)) as [max|] eqn:E; [|done].
    destruct (mapM_ensure (check_max_amount max) extra) as [ms ->]; [|done].
    eapply Forall_impl; [exact He|]. intros o (_ & _ & _ & Hm & _). apply ensure_true, negb_true_iff, Z.ltb_ge. by apply Hm. }
  rewrite Hmax. cbn [mbind outcome_bind]. rewrite ensure_true by (apply negb_true_iff, Nat.ltb_ge; lia). cbn.
  by destruct (co_allowed s).
Qed.

Lemma htlc_amounts_Ok s extra : Forall (htlc_output s) extra -> validate_payment_amounts s [] extra [] = Ok tt.
Proof.
  intros He. unfold validate_payment_amounts. cbn [check_inputs mbind outcome_bind].
  assert (H : check_outputs 0 0 extra = Ok 0); [|by rewrite H].
  induction He as [|o extra (Hh & Hd & _) _ IH]; [done|]. cbn [check_outputs]. unfold out_request in *.
  destruct (Z.ltb_spec (req_amount (sr_vtxo (vp_req o))) P2TR_DUST); [lia|]. by destruct (req_policy _).
Qed.

Lemma insert_cosigners_total {E} ids reqs : forall m, Forall (fun pk => kget m pk = None) (cosign_keys reqs) ->
  if decide (NoDup (cosign_keys reqs)) then exists m', insert_cosigners (E:=E) ids reqs m = Ok m'
  else insert_cosigners (E:=E) ids reqs m = Panic.
Proof.
  induction reqs as [|r reqs IH]; intros m Hm; [by eexists|]. cbn [insert_cosigners]. unfold cosign_keys in *.
  cbn [omap list_omap] in *. destruct (cosign_pubkey (vp_req r)) as [pk|]; [|by apply IH].
  apply Forall_cons in Hm as [Hpk Hm]. rewrite (bool_decide_true (kget m pk = None)) by done. cbn [assert mbind outcome_bind].
  destruct (decide (pk ∈ omap (fun o => cosign_pubkey (vp_req o)) reqs)) as [Hin|Hni].
  - rewrite decide_False by by intros [??]%NoDup_cons. clear IH Hpk.
    assert (Hp : is_Some (kget (kset pk ids m) pk)) by (rewrite kget_kset, decide_True by done; by eexists).
    revert Hp. generalize (kset pk ids m). clear Hm m. induction reqs as [|r' reqs IH]; intros m Hp; [by apply elem_of_nil in Hin|].
    cbn [insert_cosigners omap list_omap] in *. destruct (cosign_pubkey (vp_req r')) as [pk'|]; [|by apply IH].
    destruct (decide (kget m pk' = None)) as [Hn|Hn]; [|by rewrite bool_decide_false].
    rewrite bool_decide_true by done. cbn [assert mbind outcome_bind]. apply IH.
    + apply elem_of_cons in Hin as [->|Hin]; [|done]. destruct Hp as [? Hp]. congruence.
    + rewrite kget_kset. destruct (decide (pk = pk')); [by eexists|done].
  - assert (Hm' : Forall (fun k => kget (kset pk ids m) k = None) (omap (fun o => cosign_pubkey (vp_req o)) reqs)).
    { rewrite Forall_forall in Hm. apply Forall_forall. intros k Hk. rewrite kget_kset, decide_False by congruence. by apply Hm. }
    specialize (IH _ Hm'). destruct (decide (NoDup (omap _ reqs))) as [Hnd|Hnd].
    + rewrite decide_True by (apply NoDup_cons; done). apply IH.
    + rewrite decide_False by by intros [??]%NoDup_cons. apply IH.
Qed.

(** Nothing pays for the outputs of incoming lightning payments, and no
    later check looks at them (the method the code refers to does not exist): a
    request without any input is accepted for any number of them, with any
    amounts the configuration allows and payment hashes the requester chooses,
    as long as the round has room.  When two of its outputs have the same cosign
    key the request passes all checks, and registering it panics. *)
Theorem htlc_outputs_unfunded s (db : Db SecretKey) tx_status extra flux : co_inv s -> extra <> [] ->
  Forall (htlc_output s) extra -> (length (co_outputs s) + length extra <= max_output_vtxos (co_data s))%nat ->
  (NoDup (cosign_keys extra) -> exists s', process_payment s true db tx_status [] extra [] flux = (Ok s', flux) /\
     co_inputs s' = co_inputs s /\ co_outputs s' = co_outputs s ++ extra) /\
  (~ NoDup (cosign_keys extra) -> process_payment s true db tx_status [] extra [] flux = (Panic, flux)).
Proof.
  intros Hs Hne He Hlen. unfold process_payment. rewrite ensure_true by (destruct extra; done).
  cbn [mbind outcome_bind]. rewrite htlc_data_Ok by done. cbn [fmap list_fmap].
  pose proof (flux_lock_spec [] flux) as Hl. destruct (flux_lock [] flux) as [[id|lock] flux1].
  { destruct Hl as (_ & Hl & _). by apply elem_of_nil in Hl. }
  destruct Hl as (_ & -> & ->).
  assert (Hreq : check_request s true db tx_status [] extra [] = Ok []).
  { unfold check_request. change (check_fetch_round_input_vtxos true db []) with (Ok (E:=SrvError) ([] : list Vtxo)).
    cbn [mbind outcome_bind]. change (mapM (check_ownership s [] (vp_req <$> extra) []) []) with (Ok (E:=SrvError) ([] : list unit)).
    cbn [mbind outcome_bind]. by rewrite htlc_amounts_Ok. }
  rewrite Hreq. cbn [mbind outcome_bind]. unfold register_payment. rewrite (first_attempt_inv s Hs). cbn [mbind outcome_bind].
  pose proof (insert_cosigners_total (E:=SrvError) [] extra (co_inputs_per_cosigner s)) as Hi.
  assert (Hkeys : Forall (fun pk => kget (co_inputs_per_cosigner s) pk = None) (cosign_keys extra)).
  { apply Forall_forall. intros pk (o & Ho & Hpk)%list_elem_of_omap. rewrite Forall_forall in He. by apply (He o Ho). }
  specialize (Hi Hkeys). cbn [fmap list_fmap]. split; intros Hnd.
  - rewrite decide_True in Hi by done. destruct Hi as [m' ->]. cbn [mbind outcome_bind]. eexists. split; [|split].
    + f_equal. rewrite drop_lock_spec. destruct (bool_decide _); set_solver.
    + done.
    + done.
  - rewrite decide_False in Hi by done. rewrite Hi. cbn [mbind outcome_bind]. f_equal. rewrite drop_lock_spec. set_solver.
Qed.
End Sound.

(** *** Witness: the sample VTXO is refreshed into one output. *)
Definition col_db : Db (B := model) Byte.byte :=
  (db_upsert_vtxos (B := model) true [sample_vtxo] (mkDb (B := model) ∅ [])).2.
Definition col_data : RoundData := mkRoundData 12 2 1 None.
Definition col_state : CollectingPayments (B := model) :=
  collecting_new (B := model) 1 0 col_data ∅ None None (replicate 32 Byte.x01) Byte.x0a.
Definition col_out : VtxoParticipant (B := model) :=
  mkParticipant (B := model) (mkSignedRequest (B := model) (mkRequest (B := model) 2500 (new_pubkey (B := model) Byte.x05)) (Some Byte.x0b)) [1; 2].
Definition col_sig : @Signature model :=
  (x_only_public_key (Bitcoin := model) (vtxo_user_pubkey (B := model) sample_vtxo),
   ok_value [] (as_signable_message (B := model) (replicate 32 Byte.x01) (vtxo_id (B := model) sample_vtxo) [vp_req (B := model) col_out] [])).
Definition col_input : VtxoIdInput (B := model) := mkIdInput (B := model) (vtxo_id (B := model) sample_vtxo) col_sig.
Definition col_fees : Fees := {| tx_weight _ := 400; fee_for_weight rate weight := rate * weight / 1000 |}.
Definition col_run := process_payment (B := model) (F := col_fees) (SecretKey := Byte.byte) col_state true col_db (fun _ => Ok TxStatus.NotFound)
  [col_input] [col_out] [] ∅.

Lemma process_payment_sound_witness : exists s', col_run = (Ok s', {[ vtxo_id (B := model) sample_vtxo ]}) /\ co_inv (B := model) (F := col_fees) s'.
Proof.
  assert (Hk : keys_ok (B := model) col_db).
  { eapply (keys_ok_le (B := model)); [apply (db_upsert_keeps (B := model))|]. intros id v Hv. cbn in Hv. by rewrite lookup_empty in Hv. }
  assert (Hs : co_inv (B := model) (F := col_fees) col_state) by by apply (collecting_new_inv (B := model) (F := col_fees)).
  pose proof (process_payment_sound (B := model) (F := col_fees) (SecretKey := Byte.byte) col_state true col_db
    (fun _ => Ok TxStatus.NotFound) [col_input] [col_out] [] ∅ Hs Hk) as H.
  assert (Hok : is_ok col_run.1 = true) by (vm_compute; reflexivity). unfold col_run in *.
  destruct (process_payment _ _ _ _ _ _ _ _) as [[s'|e|] flux']; [|discriminate Hok..].
  destruct H as (H & _ & _ & ->). exists s'. split; [|exact H]. f_equal.
Defined.

(** Two outputs of 1000 sat for payment hashes the requester chose. *)
Definition col_htlc (b k : Byte.byte) : VtxoParticipant (B := model) :=
  mkParticipant (B := model) (mkSignedRequest (B := model) (mkRequest (B := model) 1000
    (ServerHtlcRecv (B := model) (mkHtlcRecvPolicy (B := model) Byte.x05 (replicate 32 b) 40 100))) (Some k)) [1; 2].

Lemma htlc_outputs_unfunded_witness :
  (exists s', process_payment (B := model) (F := col_fees) (SecretKey := Byte.byte) col_state true col_db (fun _ => Ok TxStatus.NotFound)
     [] [col_htlc Byte.x01 Byte.x21; col_htlc Byte.x02 Byte.x22] [] ∅ = (Ok s', ∅) /\
     co_outputs s' = [col_htlc Byte.x01 Byte.x21; col_htlc Byte.x02 Byte.x22]) /\
  process_payment (B := model) (F := col_fees) (SecretKey := Byte.byte) col_state true col_db (fun _ => Ok TxStatus.NotFound)
     [] [col_htlc Byte.x01 Byte.x21; col_htlc Byte.x02 Byte.x21] [] ∅ = (Panic, ∅).
Proof.
  assert (Hs : co_inv (B := model) (F := col_fees) col_state) by by apply (collecting_new_inv (B := model) (F := col_fees)).
  assert (Ho : forall b k, htlc_output (B := model) col_state (col_htlc b k)).
  { intros b k. split_and!; [reflexivity|vm_compute; discriminate|reflexivity|intros max H; discriminate H|reflexivity]. }
  assert (Hf : forall a b, Forall (htlc_output (B := model) col_state) [col_htlc Byte.x01 a; col_htlc Byte.x02 b])
    by (intros a b; by repeat constructor).
  split.
  - destruct (proj1 (htlc_outputs_unfunded (B := model) (F := col_fees) (SecretKey := Byte.byte) col_state col_db
      (fun _ => Ok TxStatus.NotFound) [col_htlc Byte.x01 Byte.x21; col_htlc Byte.x02 Byte.x22] ∅ Hs ltac:(done) (Hf _ _)
      ltac:(cbn; lia))) as (s' & H & _ & H'); [apply (bool_decide_unpack _); reflexivity|]. by exists s'.
  - apply (htlc_outputs_unfunded (B := model) (F := col_fees) (SecretKey := Byte.byte) col_state col_db
      (fun _ => Ok TxStatus.NotFound) [col_htlc Byte.x01 Byte.x21; col_htlc Byte.x02 Byte.x21] ∅ Hs ltac:(done) (Hf _ _)
      ltac:(cbn; lia)). intros H. by apply (bool_decide_pack _) in H.
Defined.
