(* ===== verification/RoundSigning.v ===== *)
(** * Rounds of the server: signing (server/src/round/mod.rs)

    What follows the collection of payments in a round attempt: the round
    transaction and the VTXO tree are built ([collecting_progress]), the owners
    of the new VTXOs sign the tree ([SigningVtxoTree]), the owners of the inputs
    sign the forfeits ([SigningForfeits]), and the round is broadcast and stored
    ([finish]).  When signatures are missing the attempt is restarted without
    the inputs of those who did not sign.

    The on-chain wallet, the broadcaster, the height of the chain and the random
    draws are the [Answers] a step gets from the outside.  Wallet outputs are
    their outpoints; the lock on the wallet is not modelled. *)
From stdpp Require Import gmap.
From S2P Require Import Prelude Keyed Effects Tree Bitcoin Encode Concrete Policy Vtxo Validation Board Extend Arkoor.
From S2P Require Import SignedTree TreeTxs TreeVtxos TreeCosign ChainSource Flux Rounds Connectors Forfeit ServerDb RoundCollect.

Open Scope Z_scope.

(** The transaction the wallet is asked to build; [ordering] is [Untouched]. *)
Record TxParams := mkTxParams {
  tp_current_height : Z; tp_trusted_height : option Z; tp_common_input : option OutPoint;
  tp_recipients : list TxOut; tp_fee_rate : Z }.

(** PSBTs of the wallet library. *)
Class RoundWallet := { Psbt : Type; extract_tx : Psbt -> outcome string Transaction }.

Section Signing.
Context `{B : Bitcoin} `{S : !Signing B} `{P : !RoundWallet}.

(** The parts of the configuration that rounds use, and the server's key. *)
Record RoundConfig := mkRoundConfig {
  nb_round_nonces : nat; vtxo_lifetime : Z; vtxo_exit_delta : Z; untrusted_input_confirmations : Z;
  max_vtxo_amount : option Z; round_tx_feerate : Z; server_key : Keypair }.

Record Draws := mkDraws {
  dr_challenge : bytes; dr_attempt_key : Keypair; dr_change_key : Keypair; dr_connector_key : Keypair;
  dr_change_nonce : nat -> Z; dr_cosign_nonce : nat -> Z; dr_forfeit_nonce : VtxoId -> nat -> Z }.

Record Answers := mkAnswers {
  an_tip : Z;
  an_build_tx : TxParams -> outcome string Psbt;
  an_finish_tx : Psbt -> outcome string Transaction;
  an_broadcast_up : bool;
  an_db_up : bool;
  an_tx_status : bytes -> outcome SrvError TxStatus.t;
  an_reply_open : bool;
  an_draws : Draws;
}.

Inductive RoundError := Recoverable (e : SrvError) | Fatal (e : SrvError).

(** ** The attempt's data while the tree and the forfeits are signed *)
Record SigningVtxoTree := mkSigningTree {
  vt_data : RoundData; vt_round_seq : Z; vt_attempt_seq : nat; vt_expiry_height : Z;
  vt_cosign_key : Keypair; vt_cosign_sec_nonces : list SecretNonce; vt_cosign_pub_nonces : list PublicNonce;
  vt_cosign_part_sigs : list (PublicKey * list PartialSignature); vt_cosign_agg_nonces : list AggregatedNonce;
  vt_unsigned_tree : UnsignedVtxoTree; vt_psbt : Psbt; vt_round_txid : bytes; vt_connector_key : Keypair;
  vt_inputs : gmap VtxoId Vtxo; vt_user_cosign_nonces : list (PublicKey * list PublicNonce);
  vt_inputs_per_cosigner : list (PublicKey * list VtxoId); vt_locked : VtxoFluxLock;
  vt_common_input : OutPoint; vt_proceed : bool }.

Record SigningForfeits := mkSigningForfeits {
  sf_data : RoundData; sf_round_seq : Z; sf_attempt_seq : nat; sf_expiry_height : Z;
  sf_sec_nonces : gmap VtxoId (list SecretNonce); sf_pub_nonces : gmap VtxoId (list PublicNonce);
  sf_part_sigs : gmap VtxoId (list PublicNonce * list PartialSignature);
  sf_signed_vtxos : CachedSignedVtxoTree; sf_inputs : gmap VtxoId Vtxo; sf_locked : VtxoFluxLock;
  sf_connectors : ConnectorChain; sf_connector_key : Keypair; sf_psbt : Psbt; sf_common_input : OutPoint;
  sf_proceed : bool }.

(** [musig::nonce_pair] for a number of nonces. *)
Definition nonce_pairs_for (key : Keypair) (n : nat) (rand : nat -> Z) : list (SecretNonce * PublicNonce) :=
  (fun i => nonce_pair key (rand i)) <$> seq 0 n.

(** ** [CollectingPayments::progress] *)

(** The key of the placeholder for a change VTXO, which nobody can spend. *)
Definition UNSPENDABLE_bytes : bytes :=
  [Byte.x03; Byte.x15; Byte.x75; Byte.xa4; Byte.xc3; Byte.xad; Byte.x39; Byte.x75; Byte.x90; Byte.xcc; Byte.xf7;
   Byte.xaa; Byte.x97; Byte.x52; Byte.x0a; Byte.x60; Byte.x63; Byte.x5c; Byte.x32; Byte.x15; Byte.x04; Byte.x79;
   Byte.x76; Byte.xaf; Byte.xb9; Byte.xdf; Byte.x22; Byte.x0b; Byte.xc6; Byte.xb4; Byte.x24; Byte.x1b; Byte.x0d].

Definition change_vtxo {E} (cfg : RoundConfig) (d : Draws) : outcome E (VtxoParticipant * list SecretNonce) :=
  unspendable ← expect (pk_from_slice UNSPENDABLE_bytes);
  let nonces := nonce_pairs_for (dr_change_key d) (nb_round_nonces cfg) (dr_change_nonce d) in
  let req := mkSignedRequest (mkRequest P2WSH_DUST (new_pubkey unspendable)) (Some (keypair_public_key (dr_change_key d))) in
  Ok (mkParticipant req nonces.*2, nonces.*1).

(** The outputs, with the placeholder when there are none, and its nonces. *)
Definition with_change {E} (cfg : RoundConfig) (d : Draws) (outputs : list VtxoParticipant)
  : outcome E (list VtxoParticipant * option (VtxoParticipant * list SecretNonce)) :=
  if bool_decide (length outputs = 0%nat)
  then change ← change_vtxo cfg d; Ok (outputs ++ [change.1], Some change)
  else Ok (outputs, None).

Definition trusted_height (cfg : RoundConfig) (tip : Z) : option Z :=
  if untrusted_input_confirmations cfg =? 0 then None
  else Some (Z.max 0 (tip - (untrusted_input_confirmations cfg - 1))).

(** The HashMap of the users' nonces by cosign key. *)
Definition user_nonces (outputs : list VtxoParticipant) : list (PublicKey * list PublicNonce) :=
  foldl (fun m o => match cosign_pubkey (vp_req o) with Some pk => kset pk (vp_nonces o) m | None => m end) [] outputs.

(** The round transaction: the tree, the connectors, the offboards. *)
Definition build_round_tx (a : Answers) (cfg : RoundConfig) (s : CollectingPayments) (spec : VtxoTreeSpec)
    (connector_out : TxOut) : outcome RoundError (Psbt * Transaction) :=
  script ← funding_tx_script_pubkey spec;
  v ← total_required_value spec;
  psbt ← map_err (fun e => Recoverable (Bail e)) (an_build_tx a (mkTxParams (an_tip a) (trusted_height cfg (an_tip a))
    (co_common_input s)
    ([mkTxOut v script; connector_out] ++ (to_txout <$> co_offboards s)) (round_tx_feerate cfg)));
  tx ← map_err (fun e => Recoverable (Bail e)) (extract_tx psbt);
  Ok (psbt, tx).

(** The server signs for its placeholder, which is the only leaf then. *)
Definition sign_change {E} (u : UnsignedVtxoTree) (aggs : list AggregatedNonce) (d : Draws)
    (change : option (VtxoParticipant * list SecretNonce)) : outcome E (list (PublicKey * list PartialSignature) * bool) :=
  match change with
  | Some (p, sec) =>
      idx ← expect (leaf_idx_of (ut_spec u) (vp_req p));
      sigs ← expect (match cosign_branch u aggs idx (dr_change_key d) sec with Ok sigs => Some sigs | _ => None end);
      Ok (kset (keypair_public_key (dr_change_key d)) sigs [], true)
  | None => Ok ([], false)
  end.

Definition collecting_progress (a : Answers) (cfg : RoundConfig) (s : CollectingPayments)
  : outcome RoundError SigningVtxoTree :=
  let d := an_draws a in
  expiry_height ← u_add 32 (an_tip a) (vtxo_lifetime cfg);
  '(outputs, change) ← with_change cfg d (co_outputs s);
  spec ← tree_spec_new (vp_req <$> outputs) (keypair_public_key (server_key cfg)) expiry_height (vtxo_exit_delta cfg)
    [keypair_public_key (co_cosign_key s)];
  nb_nodes ← expect (spec_nb_nodes spec);
  _ ← assert (nb_nodes <=? nb_round_nonces cfg)%nat;
  connector_out ← connector_output (Z.of_nat (size (co_inputs s))) (keypair_public_key (dr_connector_key d));
  '(psbt, tx) ← build_round_tx a cfg s spec connector_out;
  common ← (match co_common_input s with
    | Some p => Ok p
    | None => i ← expect (head (input tx)); Ok (previous_output i)
    end);
  let round_txid := compute_txid tx in
  let nonces := nonce_pairs_for (co_cosign_key s) nb_nodes (dr_cosign_nonce d) in
  let user_cosign_nonces := user_nonces outputs in
  aggs ← map_err (fun e => Recoverable (Bail e)) (calculate_cosign_agg_nonces spec (kget user_cosign_nonces) [nonces.*2]);
  u ← into_unsigned_tree spec (mkOutPoint round_txid ROUND_TX_VTXO_TREE_VOUT);
  '(part_sigs, proceed) ← sign_change u aggs d change;
  Ok (mkSigningTree (co_data s) (co_round_seq s) (co_attempt_seq s) expiry_height (co_cosign_key s) nonces.*1 nonces.*2
        part_sigs aggs u psbt round_txid (dr_connector_key d) (co_inputs s) user_cosign_nonces
        (co_inputs_per_cosigner s) (co_locked s) common proceed).

(** ** [SigningVtxoTree] *)
Definition set_part_sigs (s : SigningVtxoTree) (m : list (PublicKey * list PartialSignature)) (proceed : bool) : SigningVtxoTree :=
  mkSigningTree (vt_data s) (vt_round_seq s) (vt_attempt_seq s) (vt_expiry_height s) (vt_cosign_key s) (vt_cosign_sec_nonces s)
    (vt_cosign_pub_nonces s) m (vt_cosign_agg_nonces s) (vt_unsigned_tree s) (vt_psbt s) (vt_round_txid s) (vt_connector_key s)
    (vt_inputs s) (vt_user_cosign_nonces s) (vt_inputs_per_cosigner s) (vt_locked s) (vt_common_input s) proceed.

Definition register_signature (s : SigningVtxoTree) (pubkey : PublicKey) (signatures : list PartialSignature)
  : outcome SrvError SigningVtxoTree :=
  _ ← ensure (bool_decide (kget (vt_cosign_part_sigs s) pubkey = None)) (Bail "duplicate signatures for pubkey"%string);
  req ← ok_or (List.find (fun v => bool_decide (cosign_pubkey v = Some pubkey)) (ts_vtxos (ut_spec (vt_unsigned_tree s))))
    (Bail "pubkey is not part of cosigner group"%string);
  nonces ← expect (kget (vt_user_cosign_nonces s) pubkey);
  _ ← map_err Bail (verify_branch_cosign_partial_sigs (vt_unsigned_tree s) (vt_cosign_agg_nonces s) req nonces signatures);
  let m := kset pubkey signatures (vt_cosign_part_sigs s) in
  Ok (set_part_sigs s m (vt_proceed s || bool_decide (length m = tree_nb_leaves (ut_tree (vt_unsigned_tree s))))).

(** The inputs of the cosigners that have signed. *)
Definition signed_inputs (s : SigningVtxoTree) : gset VtxoId :=
  foldl (fun allowed p =>
    match kget (vt_cosign_part_sigs s) p.1 with
    | None => allowed ∖ list_to_set p.2
    | Some _ => allowed
    end) (dom (vt_inputs s)) (vt_inputs_per_cosigner s).

Definition tree_restart (d : Draws) (s : SigningVtxoTree) : CollectingPayments :=
  collecting_new (vt_round_seq s) (vt_attempt_seq s + 1) (vt_data s) (vt_locked s) (Some (signed_inputs s))
    (Some (vt_common_input s)) (dr_challenge d) (dr_attempt_key d).

(** [SigningVtxoTree::progress]; nonces for all forfeits: as many as there are
    inputs, for every input. *)
Definition forfeit_nonces (cfg : RoundConfig) (d : Draws) (inputs : gmap VtxoId Vtxo)
  : gmap VtxoId (list (SecretNonce * PublicNonce)) :=
  map_imap (fun id _ => Some (nonce_pairs_for (server_key cfg) (size inputs) (dr_forfeit_nonce d id))) inputs.

Definition tree_progress {E} (cfg : RoundConfig) (d : Draws) (s : SigningVtxoTree) : outcome E SigningForfeits :=
  let u := vt_unsigned_tree s in
  srv_sigs ← cosign_tree u (vt_cosign_agg_nonces s) (vt_cosign_key s) (vt_cosign_sec_nonces s);
  _ ← assert (is_ok (verify_global_cosign_partial_sigs u (keypair_public_key (vt_cosign_key s)) (vt_cosign_agg_nonces s)
        (vt_cosign_pub_nonces s) srv_sigs));
  sigs ← expect (match tree_combine_partial_signatures u (vt_cosign_agg_nonces s) (kget (vt_cosign_part_sigs s)) [srv_sigs] with
    | Ok sigs => Some sigs | _ => None end);
  _ ← assert (is_ok (verify_cosign_sigs u sigs));
  signed ← into_cached_tree (into_signed_tree u sigs);
  let nonces := forfeit_nonces cfg d (vt_inputs s) in
  connectors ← chain_new (Z.of_nat (size (vt_inputs s))) (mkOutPoint (vt_round_txid s) ROUND_TX_CONNECTOR_VOUT)
    (keypair_public_key (vt_connector_key s));
  Ok (mkSigningForfeits (vt_data s) (vt_round_seq s) (vt_attempt_seq s) (vt_expiry_height s)
        ((fun l => l.*1) <$> nonces) ((fun l => l.*2) <$> nonces) ∅ signed (vt_inputs s) (vt_locked s) connectors
        (vt_connector_key s) (vt_psbt s) (vt_common_input s) false).

(** ** [SigningForfeits] *)
Definition set_forfeit_sigs (s : SigningForfeits) (m : gmap VtxoId (list PublicNonce * list PartialSignature))
    (proceed : bool) : SigningForfeits :=
  mkSigningForfeits (sf_data s) (sf_round_seq s) (sf_attempt_seq s) (sf_expiry_height s) (sf_sec_nonces s) (sf_pub_nonces s)
    m (sf_signed_vtxos s) (sf_inputs s) (sf_locked s) (sf_connectors s) (sf_connector_key s) (sf_psbt s) (sf_common_input s)
    proceed.

Fixpoint add_forfeits {E : Type} (s : SigningForfeits) (m : gmap VtxoId (list PublicNonce * list PartialSignature))
    (signatures : list (VtxoId * list PublicNonce * list PartialSignature))
  : outcome E (gmap VtxoId (list PublicNonce * list PartialSignature)) :=
  match signatures with
  | [] => Ok m
  | (id, nonces, sigs) :: rest =>
      match sf_inputs s !! id with
      | Some vtxo =>
          pub_nonces ← expect (sf_pub_nonces s !! id);
          match validate_forfeit_sigs vtxo (sf_connectors s) (keypair_public_key (sf_connector_key s)) pub_nonces nonces sigs with
          | Ok _ => add_forfeits s (<[id := (nonces, sigs)]> m) rest
          | Err _ => add_forfeits s m rest
          | Panic => Panic
          end
      | None => add_forfeits s m rest
      end
  end.

(** [register_forfeits] never returns an error. *)
Definition register_forfeits {E : Type} (s : SigningForfeits)
    (signatures : list (VtxoId * list PublicNonce * list PartialSignature)) : outcome E SigningForfeits :=
  m ← add_forfeits s (sf_part_sigs s) signatures;
  Ok (set_forfeit_sigs s m (sf_proceed s || bool_decide (size m = size (sf_inputs s)))).

Definition check_forfeits (s : SigningForfeits) : option (gset VtxoId) :=
  let missing := dom (sf_inputs s) ∖ dom (sf_part_sigs s) in
  if bool_decide (missing = ∅) then None else Some missing.

Definition restart_missing_forfeits (d : Draws) (s : SigningForfeits) (missing : option (gset VtxoId)) : CollectingPayments :=
  let allowed := match missing with
    | Some missing => dom (sf_inputs s) ∖ missing
    | None => dom (sf_inputs s) ∩ dom (sf_part_sigs s)
    end in
  collecting_new (sf_round_seq s) (sf_attempt_seq s + 1) (sf_data s) (sf_locked s) (Some allowed) (Some (sf_common_input s))
    (dr_challenge d) (dr_attempt_key d).

(** The forfeits as [finish] hands them to the database. *)
Definition forfeit_state_of {E : Type} (s : SigningForfeits) (round_txid : bytes) (id : VtxoId) : outcome E (VtxoId * ForfeitState) :=
  '(user_nonces, user_part_sigs) ← expect (sf_part_sigs s !! id);
  pub_nonces ← expect (sf_pub_nonces s !! id);
  sec_nonces ← expect (sf_sec_nonces s !! id);
  Ok (id, mkForfeitState round_txid user_nonces user_part_sigs pub_nonces sec_nonces).

(** What a round changes outside of its own state. *)
Record RoundWorld := mkRoundWorld {
  rw_flux : VtxosInFlux; rw_db : Db Keypair; rw_broadcast : list Transaction }.

Definition finish (a : Answers) (s : SigningForfeits) : M RoundWorld RoundError unit :=
  tx ← Effects.lift (map_err (fun e => Recoverable (Bail e)) (an_finish_tx a (sf_psbt s)));
  _ ← Effects.lift (ensure (an_broadcast_up a) (Fatal (Bail "failed to broadcast round"%string)));
  _ ← modify (fun w => mkRoundWorld (rw_flux w) (rw_db w) (rw_broadcast w ++ [tx]));
  forfeit_vtxos ← Effects.lift (mapM (forfeit_state_of s (compute_txid tx)) (map_to_list (sf_inputs s)).*1);
  zoom rw_db (fun db w => mkRoundWorld (rw_flux w) db (rw_broadcast w))
    (map_err_m Fatal (finish_round (an_db_up a) (sf_round_seq s) tx (sf_signed_vtxos s) (sf_connector_key s) forfeit_vtxos)).
End Signing.
