(* ===== verification/ServerRound.v ===== *)
(** * Rounds of the server: the state machine (server/src/round/mod.rs)

    [perform_round] as a step function: [start_round] creates the first attempt,
    and [handle_event] is what the coordinator does with one message of a user
    or one timeout, up to the next point where it waits.  What the outside
    answers in between are the [Answers] of the step.  Locks that are held by a
    state which is dropped are released. *)
From stdpp Require Import gmap.
From S2P Require Import Prelude Keyed Effects Tree Bitcoin Encode Concrete Policy Vtxo Validation Board Extend Arkoor.
From S2P Require Import SignedTree TreeTxs TreeVtxos TreeCosign ChainSource Flux Rounds Connectors Forfeit ServerDb RoundCollect.
From S2P Require Import RoundSigning.

Open Scope Z_scope.

Section Machine.
Context `{B : Bitcoin} `{C : !Consensus} `{S : !Signing B} `{P : !RoundWallet} `{F : !Fees}.

Inductive RoundInput :=
  | RegisterPayment (inputs : list VtxoIdInput) (vtxo_requests : list VtxoParticipant) (offboards : list OffboardRequest)
  | VtxoSignatures (pubkey : PublicKey) (signatures : list PartialSignature)
  | ForfeitSignatures (signatures : list (VtxoId * list PublicNonce * list PartialSignature)).

Inductive RoundResult := REmpty | RAbandoned | RSuccess | RErr (e : RoundError).

Inductive RoundState :=
  | StCollectingPayments (s : CollectingPayments)
  | StSigningVtxoTree (s : SigningVtxoTree)
  | StSigningForfeits (s : SigningForfeits)
  | StFinished (r : RoundResult).

Inductive RoundStateKind :=
  | KCollectingPayments | KSigningVtxoTree | KSigningForfeits
  | KFinishedEmpty | KFinishedAbandoned | KFinishedSuccess | KFinishedError.

#[export] Instance RoundStateKind_eq_dec : EqDecision RoundStateKind.
Proof. solve_decision. Defined.

Definition kind (st : RoundState) : RoundStateKind :=
  match st with
  | StCollectingPayments _ => KCollectingPayments
  | StSigningVtxoTree _ => KSigningVtxoTree
  | StSigningForfeits _ => KSigningForfeits
  | StFinished REmpty => KFinishedEmpty
  | StFinished RAbandoned => KFinishedAbandoned
  | StFinished RSuccess => KFinishedSuccess
  | StFinished (RErr _) => KFinishedError
  end.

(** What waking up the coordinator can mean. *)
Inductive Event := EvTimeout | EvInput (i : RoundInput).

Definition round_m (A : Type) : Type := M RoundWorld Empty_set A.

Definition set_flux (f : VtxosInFlux) (w : RoundWorld) : RoundWorld := mkRoundWorld f (rw_db w) (rw_broadcast w).
Definition release_lock (l : VtxoFluxLock) : round_m unit := modify (fun w => set_flux (drop_lock l (rw_flux w)) w).

(** The beginning of an attempt: [locked_inputs.release_all()]. *)
Definition set_locked (l : VtxoFluxLock) (s : CollectingPayments) : CollectingPayments :=
  mkCollecting (co_data s) (co_round_seq s) (co_attempt_seq s) (co_challenge s) l (co_cosign_key s) (co_allowed s)
    (co_inputs s) (co_outputs s) (co_inputs_per_cosigner s) (co_offboards s) (co_common_input s) (co_proceed s).

Definition start_attempt (s : CollectingPayments) : round_m RoundState :=
  flux ← gets rw_flux;
  let r := release_all (co_locked s) flux in
  _ ← modify (set_flux r.2);
  mret (StCollectingPayments (set_locked r.1 s)).

Definition round_data_of (cfg : RoundConfig) : RoundData :=
  mkRoundData (nb_round_nonces cfg * 3 / 4)%nat (nb_round_nonces cfg) (round_tx_feerate cfg) (max_vtxo_amount cfg).

Definition start_round (cfg : RoundConfig) (round_seq : Z) (d : Draws) : round_m RoundState :=
  start_attempt (collecting_new round_seq 0 (round_data_of cfg) empty_lock None None (dr_challenge d) (dr_attempt_key d)).

(** The end of the round: what the state still held is dropped. *)
Definition into_finished (locked : VtxoFluxLock) (r : RoundResult) : round_m RoundState :=
  _ ← release_lock locked; mret (StFinished r).

(** An error is sent back; when the user has gone, the channel is broken. *)
Definition reply (a : Answers) (st : RoundState) : round_m RoundState :=
  _ ← infallible (assert (an_reply_open a)); mret st.

(** A signed tree leads to the forfeits, without waiting when all have signed. *)
Definition close_signing (cfg : RoundConfig) (a : Answers) (s : SigningVtxoTree) : round_m RoundState :=
  if vt_proceed s then s' ← infallible (tree_progress cfg (an_draws a) s); mret (StSigningForfeits s')
  else mret (StSigningVtxoTree s).

(** After the submission time, or when the round is full. *)
Definition close_collecting (cfg : RoundConfig) (a : Answers) (s : CollectingPayments) : round_m RoundState :=
  _ ← infallible (total_input_amount s);
  if negb (have_payments s) then into_finished (co_locked s) REmpty
  else
    r ← try_m (Effects.lift (collecting_progress a cfg s));
    match r with
    | inr s' => close_signing cfg a s'
    | inl e => into_finished (co_locked s) (RErr e)
    end.

(** A new attempt, unless no inputs are left. *)
Definition next_attempt (new : CollectingPayments) : round_m RoundState :=
  need_new_round ← infallible (need_new_round new);
  if (need_new_round : bool) then into_finished (co_locked new) RAbandoned else start_attempt new.

Definition close_forfeits (a : Answers) (s : SigningForfeits) : round_m RoundState :=
  match check_forfeits s with
  | Some missing => start_attempt (restart_missing_forfeits (an_draws a) s (Some missing))
  | None =>
      r ← try_m (finish a s);
      into_finished (sf_locked s) (match r with inr _ => RSuccess | inl e => RErr e end)
  end.

Definition process (a : Answers) (s : CollectingPayments) (ins : list VtxoIdInput) (reqs : list VtxoParticipant)
    (offs : list OffboardRequest) : round_m (SrvError + CollectingPayments) :=
  db ← gets rw_db;
  zoom rw_flux set_flux (try_m (process_payment s (an_db_up a) db (an_tx_status a) ins reqs offs)).

Definition on_collecting (cfg : RoundConfig) (a : Answers) (ev : Event) (s : CollectingPayments) : round_m RoundState :=
  match ev with
  | EvTimeout => close_collecting cfg a s
  | EvInput (RegisterPayment ins reqs offs) =>
      r ← process a s ins reqs offs;
      match r with
      | inl _ => reply a (StCollectingPayments s)
      | inr s' => if co_proceed s' then close_collecting cfg a s' else mret (StCollectingPayments s')
      end
  | EvInput _ => reply a (StCollectingPayments s)
  end.

Definition on_signing_tree (cfg : RoundConfig) (a : Answers) (ev : Event) (s : SigningVtxoTree) : round_m RoundState :=
  match ev with
  | EvTimeout => next_attempt (tree_restart (an_draws a) s)
  | EvInput (VtxoSignatures pubkey signatures) =>
      r ← try_m (map_err_m (fun e : SrvError => e) (Effects.lift (register_signature s pubkey signatures)));
      match r with
      | inl _ => reply a (StSigningVtxoTree s)
      | inr s' => close_signing cfg a s'
      end
  | EvInput _ => reply a (StSigningVtxoTree s)
  end.

Definition on_signing_forfeits (cfg : RoundConfig) (a : Answers) (ev : Event) (s : SigningForfeits) : round_m RoundState :=
  match ev with
  | EvTimeout => next_attempt (restart_missing_forfeits (an_draws a) s None)
  | EvInput (ForfeitSignatures signatures) =>
      s' ← infallible (register_forfeits s signatures);
      if sf_proceed s' then close_forfeits a s' else mret (StSigningForfeits s')
  | EvInput _ => reply a (StSigningForfeits s)
  end.

Definition handle_event (cfg : RoundConfig) (a : Answers) (ev : Event) (st : RoundState) : round_m RoundState :=
  match st with
  | StCollectingPayments s => on_collecting cfg a ev s
  | StSigningVtxoTree s => on_signing_tree cfg a ev s
  | StSigningForfeits s => on_signing_forfeits cfg a ev s
  | StFinished _ => mret st
  end.

(** What [run_round_coordinator] does after a round: the next one at once, or
    after the interval, or no more rounds at all. *)
Inductive AfterRound := NextRound | WaitInterval | Halt (e : SrvError).

Definition after_round (r : RoundResult) : AfterRound :=
  match r with
  | RSuccess | REmpty => WaitInterval
  | RAbandoned => NextRound
  | RErr (Recoverable _) => NextRound
  | RErr (Fatal e) => Halt e
  end.
End Machine.
