(* ===== verification/RoundSafety.v ===== *)
(** * Rounds of the server: what a finished round guarantees

    The invariant of every state of a round, that each step keeps it, and what
    follows when a round finishes: the users hold valid VTXOs and the server
    holds enforceable forfeits for everything they gave up. *)
From stdpp Require Import gmap.
From S2P Require Import Prelude Keyed Effects Tree Bitcoin Encode Concrete Policy Vtxo Validation Board Extend Arkoor.
From S2P Require Import SignedTree TreeTxs TreeVtxos TreeCosign ChainSource Flux Rounds Connectors Forfeit ServerDb RoundCollect.
From S2P Require Import RoundSigning ServerRound.

Open Scope Z_scope.

(** ** A tree that could be built has a well-formed specification *)
Section SpecOk.
Context `{B : Bitcoin}.

Lemma build_txs_leaves {E} s pks ns : forall txs out, build_txs (E:=E) s pks ns txs = Ok out ->
  Forall (fun nd => is_leaf nd = true -> exists v tx, ts_vtxos s !! node_idx nd = Some v /\ leaf_tx (E:=E) s (sr_vtxo v) = Ok tx) ns.
Proof.
  induction ns as [|nd ns IH]; intros txs out H; [constructor|]. cbn [build_txs] in H.
  apply bind_Ok in H as (tx & Htx & H). constructor; [|by eapply IH]. intros Hl. unfold build_node_tx in Htx. rewrite Hl in Htx.
  apply bind_Ok in Htx as (v & Hv%expect_Ok & Htx). by exists v, tx.
Qed.

Lemma unsigned_tree_spec_ok {E} s utxo u v : unsigned_tree_new (E:=E) s utxo = Ok u -> total_required_value (E:=E) s = Ok v ->
  Forall (fun r => 0 <= req_amount (sr_vtxo r)) (ts_vtxos s) -> spec_ok s.
Proof.
  intros H Hv Hpos. unfold unsigned_tree_new in H. apply bind_Ok in H as (t & Hnew%expect_Ok & H).
  apply bind_Ok in H as (pks & Hpks & H). apply bind_Ok in H as (txs & Htxs & H). apply bind_Ok in H as (o & Ho & _).
  destruct (new_tree_ok _ _ Hnew) as [Hn Ht]. split; [exact Hn| |..].
  - unfold funding_tx_txout, funding_tx_script_pubkey in Ho. apply bind_Ok in Ho as (script & Hs & _).
    apply fmap_Ok in Hs as (tr & Htr & _). unfold node_taproot, cosign_taproot in Htr. apply bind_Ok in Htr as (sc & Hsc & _).
    unfold expiry_clause, timelock_sign in Hsc. apply bind_Ok in Hsc as (lt & Hlt%expect_Ok & _). by eexists.
  - unfold unsigned_transactions in Htxs. rewrite Hnew in Htxs. cbn [expect mbind outcome_bind] in Htxs. rewrite Hpks in Htxs.
    cbn [mbind outcome_bind] in Htxs. apply bind_Ok in Htxs as (txs' & Hb%build_txs_leaves & _).
    apply Forall_lookup. intros l r Hr. pose proof (lookup_lt_Some _ _ _ Hr) as Hl. split; [by eapply (Forall_lookup_1 _ _ _ _ Hpos)|].
    destruct (node_at t l) as [nd Hnd]; [rewrite (ok_length _ _ Ht); unfold nb_leaves; lia|].
    destruct (Forall_lookup_1 _ _ _ _ Hb Hnd) as (r' & tx & Hr' & Htx); [by apply (is_leaf_at (nb_leaves s) t l nd)|].
    rewrite (node_idx_at (nb_leaves s) t Ht _ _ Hnd) in Hr'. assert (r' = r) as -> by congruence.
    apply bind_Ok in Htx as (sc & Hsc & _). unfold policy_script_pubkey in *. apply fmap_Ok in Hsc as (tr & Htr & ->).
    exists (taproot_script_pubkey tr).
    pose proof (input_taproot_err (F:=unit) (Arkoor (req_policy (sr_vtxo r)) None) _ _ _ _ Htr) as Htr'. cbn in Htr'. by rewrite Htr'.
  - apply amount_sum_Ok in Hv as [-> Hv]; [exact Hv|by apply Forall_fmap].
Qed.
End SpecOk.

Lemma omap_NoDup_inj {A K} (f : A -> option K) l : NoDup (omap f l) -> forall i j a b k,
  l !! i = Some a -> l !! j = Some b -> f a = Some k -> f b = Some k -> i = j.
Proof.
  induction l as [|x l IH]; intros Hnd i j a b k Hi Hj Ha Hb; [done|]. cbn [omap list_omap] in Hnd.
  assert (Hin : forall c n, l !! n = Some c -> f c = Some k -> k ∈ omap f l).
  { intros c n Hc Hk. apply list_elem_of_omap. exists c. split; [by eapply list_elem_of_lookup_2|done]. }
  destruct i as [|i], j as [|j]; cbn in Hi, Hj; try done.
  - injection Hi as ->. rewrite Ha in Hnd. apply NoDup_cons in Hnd as [Hnd _]. by destruct Hnd; eapply Hin.
  - injection Hj as ->. rewrite Hb in Hnd. apply NoDup_cons in Hnd as [Hnd _]. by destruct Hnd; eapply Hin.
  - f_equal. eapply IH; [|done..]. destruct (f x); [by apply NoDup_cons in Hnd as [_ Hnd]|done].
Qed.

Section Facts.
Context `{B : Bitcoin} `{C : !Consensus} `{S : !Signing B} `{P : !RoundWallet} `{F : !Fees}.

(** The wallet library keeps the recipients in order, with a change output at
    most after them, and signing only adds witnesses. *)
Record answers_ok (a : Answers) : Prop := {
  ao_build : forall p psbt tx, an_build_tx a p = Ok psbt -> extract_tx psbt = Ok tx ->
    exists change, output tx = tp_recipients p ++ change;
  ao_finish : forall psbt tx stx, extract_tx psbt = Ok tx -> an_finish_tx a psbt = Ok stx ->
    compute_txid stx = compute_txid tx /\ output stx = output tx;
}.

Lemma cosign_keys_reqs outs : omap cosign_pubkey (vp_req <$> outs) = cosign_keys outs.
Proof.
  unfold cosign_keys. induction outs as [|o outs IH]; [done|]. cbn. destruct (cosign_pubkey (vp_req o)); by rewrite IH.
Qed.

(** The nonces of a user are found under the cosign key. *)
Lemma user_nonces_kget outs o pk : NoDup (cosign_keys outs) -> o ∈ outs -> cosign_pubkey (vp_req o) = Some pk ->
  kget (user_nonces outs) pk = Some (vp_nonces o).
Proof.
  unfold user_nonces. generalize (@nil (PublicKey * list PublicNonce)).
  assert (Hout : forall outs m, pk ∉ cosign_keys outs -> kget (foldl (fun m o =>
    match cosign_pubkey (vp_req o) with Some pk => kset pk (vp_nonces o) m | None => m end) m outs) pk = kget m pk).
  { induction outs0 as [|x outs0 IH]; intros m H; [done|]. cbn [foldl]. unfold cosign_keys in *. cbn [omap list_omap] in H.
    destruct (cosign_pubkey (vp_req x)) as [k|]; [|by apply IH]. apply not_elem_of_cons in H as [Hne H].
    rewrite IH by done. by rewrite kget_kset, decide_False. }
  induction outs as [|x outs IH]; intros m Hnd Hin Hpk; [by apply elem_of_nil in Hin|]. cbn [foldl].
  unfold cosign_keys in Hnd. cbn [omap list_omap] in Hnd. apply elem_of_cons in Hin as [->|Hin].
  - rewrite Hpk in *. apply NoDup_cons in Hnd as [Hnd _]. rewrite Hout by done. by rewrite kget_kset, decide_True.
  - apply IH; [|done..]. destruct (cosign_pubkey (vp_req x)); [by apply NoDup_cons in Hnd as [_ Hnd]|done].
Qed.

(** ** The tree of an attempt *)
Record tree_facts (cfg : RoundConfig) (s0 : CollectingPayments) (t : SigningVtxoTree) : Prop := {
  tf_spec : spec_ok (ut_spec (vt_unsigned_tree t));
  tf_dust : no_dust_leaves (ut_spec (vt_unsigned_tree t));
  tf_tree : unsigned_tree_new (E:=RoundError) (ut_spec (vt_unsigned_tree t)) (mkOutPoint (vt_round_txid t) ROUND_TX_VTXO_TREE_VOUT) =
    Ok (vt_unsigned_tree t);
  tf_server : ts_server_pubkey (ut_spec (vt_unsigned_tree t)) = keypair_public_key (server_key cfg);
  tf_keys : NoDup (omap cosign_pubkey (ts_vtxos (ut_spec (vt_unsigned_tree t))));
  tf_signers : global_cosign_pubkeys (ut_spec (vt_unsigned_tree t)) = [keypair_public_key (vt_cosign_key t)];
  tf_aggs : calculate_cosign_agg_nonces (ut_spec (vt_unsigned_tree t)) (kget (vt_user_cosign_nonces t)) [vt_cosign_pub_nonces t] =
    Ok (vt_cosign_agg_nonces t);
  tf_nonces : exists rand, let l := nonce_pairs_for (vt_cosign_key t) (length (nodes (ut_tree (vt_unsigned_tree t)))) rand in
    vt_cosign_sec_nonces t = l.*1 /\ vt_cosign_pub_nonces t = l.*2;
  tf_requests : ts_vtxos (ut_spec (vt_unsigned_tree t)) = vp_req <$> co_outputs s0 \/
    (co_outputs s0 = [] /\ exists r, ts_vtxos (ut_spec (vt_unsigned_tree t)) = [r] /\ req_amount (sr_vtxo r) = P2WSH_DUST);
  tf_users : forall r pk, r ∈ ts_vtxos (ut_spec (vt_unsigned_tree t)) -> cosign_pubkey r = Some pk ->
    is_Some (kget (vt_user_cosign_nonces t) pk);
  tf_tx : exists tx o c change, extract_tx (vt_psbt t) = Ok tx /\ vt_round_txid t = compute_txid tx /\
    funding_tx_txout (E:=unit) (ut_spec (vt_unsigned_tree t)) = Ok o /\
    connector_output (E:=unit) (Z.of_nat (size (co_inputs s0))) (keypair_public_key (vt_connector_key t)) = Ok c /\
    output tx = [o; c] ++ (to_txout <$> co_offboards s0) ++ change;
  tf_inputs : vt_inputs t = co_inputs s0 /\ vt_inputs_per_cosigner t = co_inputs_per_cosigner s0 /\ vt_locked t = co_locked s0 /\
    vt_attempt_seq t = co_attempt_seq s0 /\ vt_data t = co_data s0 /\ vt_round_seq t = co_round_seq s0;
}.

Lemma with_change_Ok {E} cfg d s outs change : co_inv s -> with_change (E:=E) cfg d (co_outputs s) = Ok (outs, change) ->
  NoDup (cosign_keys outs) /\ Forall (fun o => P2TR_DUST <= req_amount (out_request o)) outs /\
  (outs = co_outputs s \/ co_outputs s = [] /\ exists o, outs = [o] /\ req_amount (out_request o) = P2WSH_DUST).
Proof.
  intros Hs H. unfold with_change in H. case_bool_decide as Hnil.
  - apply nil_length_inv in Hnil. rewrite Hnil in *. apply bind_Ok in H as ([o sec] & Ho & [= <- <-]).
    apply bind_Ok in Ho as (k & _ & [= <- <-]). cbn [app fst]. split; [|split].
    + cbn. apply NoDup_singleton.
    + constructor; [|constructor]. cbn. unfold P2WSH_DUST, P2TR_DUST. lia.
    + right. split; [done|]. by eexists.
  - injection H as <- <-. split; [|split; [|by left]].
    + rewrite <- (ci_cosigners _ Hs). apply (ci_keys _ Hs).
    + eapply Forall_impl; [apply (ci_outputs _ Hs)|]. by intros o [_ [Ho _]].
Qed.

Lemma unsigned_tree_new_spec {E} s utxo u : unsigned_tree_new (E:=E) s utxo = Ok u -> ut_spec u = s /\ new (nb_leaves s) = Some (ut_tree u).
Proof.
  intros H. unfold unsigned_tree_new in H. apply bind_Ok in H as (t & Hnew%expect_Ok & H). apply bind_Ok in H as (pks & _ & H).
  apply bind_Ok in H as (txs & _ & H). apply bind_Ok in H as (o & _ & H). apply bind_Ok in H as (sh & _ & [= <-]). done.
Qed.

Lemma connector_output_err {E E'} len pk o : connector_output (E:=E) len pk = Ok o -> connector_output (E:=E') len pk = Ok o.
Proof.
  unfold connector_output, required_budget, u_mul. destruct (negb (len =? 0)); [|done]. cbn. destruct (in_width _ _); [by intros [= <-]|done].
Qed.

Lemma build_round_tx_Ok a cfg s spec c psbt tx : answers_ok a -> spec_ok spec -> build_round_tx a cfg s spec c = Ok (psbt, tx) ->
  extract_tx psbt = Ok tx /\ exists o change, funding_tx_txout (E:=unit) spec = Ok o /\
    output tx = [o; c] ++ (to_txout <$> co_offboards s) ++ change.
Proof.
  intros Ha Hs H. apply bind_Ok in H as (script & Hscript & H). apply bind_Ok in H as (v & Hv & H).
  apply bind_Ok in H as (psbt' & Hb%map_err_Ok & H). apply bind_Ok in H as (tx' & Hx%map_err_Ok & [= <- <-]).
  split; [done|]. destruct (ao_build _ Ha _ _ _ Hb Hx) as [change Hout]. cbn [tp_recipients] in Hout.
  exists (mkTxOut v script), change. split; [|by rewrite Hout, <- app_assoc].
  unfold funding_tx_txout. unfold funding_tx_script_pubkey in *. apply fmap_Ok in Hscript as (tr & Htr & ->).
  unfold node_taproot, cosign_taproot in *. destruct (so_expiry _ Hs) as [lt Hlt].
  unfold expiry_clause, timelock_sign in *. rewrite Hlt in *. cbn in Htr |- *. apply Ok_inj in Htr as <-. cbn.
  unfold total_required_value in *.
  assert (Hpos : Forall (fun a0 => 0 <= a0) ((fun d => req_amount (sr_vtxo d)) <$> ts_vtxos spec)).
  { apply Forall_fmap. eapply Forall_impl; [apply (so_requests _ Hs)|]. by intros r [? _]. }
  apply amount_sum_Ok in Hv as [-> Hv]; [|done]. rewrite amount_sum_exact by done. by rewrite (proj2 (Z.ltb_lt _ _) Hv).
Qed.

Lemma progress_facts a cfg s0 t : answers_ok a -> co_inv s0 -> collecting_progress a cfg s0 = Ok t -> tree_facts cfg s0 t.
Proof.
  intros Ha Hs H. unfold collecting_progress in H. apply bind_Ok in H as (eh & _ & H).
  apply bind_Ok in H as ([outs change] & Hc & H). destruct (with_change_Ok cfg _ s0 outs change Hs Hc) as (Hnd & Hdust & Houts).
  apply bind_Ok in H as (spec & Hspec & H). apply bind_Ok in Hspec as (u0 & _ & [= <-]).
  apply bind_Ok in H as (nb & Hnb%expect_Ok & H). apply bind_Ok in H as (u1 & _ & H).
  apply bind_Ok in H as (c & Hconn & H). apply bind_Ok in H as ([psbt tx] & Hb & H). apply bind_Ok in H as (common & _ & H).
  apply bind_Ok in H as (aggs & Haggs%map_err_Ok & H). apply bind_Ok in H as (u & Hu & H).
  apply bind_Ok in H as ([parts pr] & _ & [= <-]). cbn -[nonce_pairs_for] in *. unfold into_unsigned_tree in Hu.
  destruct (unsigned_tree_new_spec _ _ _ Hu) as [Hus Hnew]. set (spec := mkTreeSpec _ _ _ _ _) in *.
  assert (Hreqs : Forall (fun r => P2TR_DUST <= req_amount (sr_vtxo r)) (ts_vtxos spec)) by (by apply Forall_fmap).
  assert (Hok : spec_ok spec).
  { pose proof Hb as Hb'. apply bind_Ok in Hb' as (sc & _ & Hb'). apply bind_Ok in Hb' as (v & Hv & _).
    eapply unsigned_tree_spec_ok; [exact Hu|exact Hv|]. eapply Forall_impl; [exact Hreqs|]. unfold P2TR_DUST. intros; lia. }
  destruct (build_round_tx_Ok _ _ _ _ _ _ _ Ha Hok Hb) as (Hx & o & ch & Ho & Hout).
  split; cbn [vt_unsigned_tree vt_round_txid vt_cosign_key vt_user_cosign_nonces vt_cosign_pub_nonces vt_cosign_agg_nonces
    vt_cosign_sec_nonces vt_psbt vt_inputs vt_connector_key vt_inputs_per_cosigner vt_locked vt_attempt_seq vt_data vt_round_seq];
    rewrite ?Hus; try done.
  - cbn. by rewrite cosign_keys_reqs.
  - exists (dr_cosign_nonce (an_draws a)). assert (nb = length (nodes (ut_tree u))) as ->; [|done].
    destruct (new_tree_ok _ _ Hnew) as [Hn Ht]. change (nb_nodes_for_leaves (nb_leaves spec) = Some nb) in Hnb.
    rewrite (nb_nodes_for_leaves_tree _ _ Hn Ht) in Hnb. by injection Hnb.
  - cbn. destruct Houts as [->|(-> & o' & -> & Ho')]; [by left|right]. split; [done|]. by eexists.
  - cbn. intros r pk (o' & -> & Hin)%list_elem_of_fmap Hpk. by rewrite (user_nonces_kget outs o' pk).
  - exists tx, o, c, ch. split_and!; [done..| |done]. by eapply connector_output_err.
Qed.
End Facts.

(** ** Signing the tree *)
Section Tree.
Context `{B : Bitcoin} `{C : !Consensus} `{S : !Signing B} `{P : !RoundWallet} `{F : !Fees}.
Context `{W : !WitnessLaws B} `{K : !KeyLaws B} `{M : !MusigLaws B}.

Notation requests t := (ts_vtxos (ut_spec (vt_unsigned_tree t))).

(** The partial signatures of an owner are valid. *)
Definition branch_signed (t : SigningVtxoTree) (r : SignedVtxoRequest) (pk : PublicKey) (sigs : list PartialSignature) : Prop :=
  r ∈ requests t /\ cosign_pubkey r = Some pk /\ exists ns, kget (vt_user_cosign_nonces t) pk = Some ns /\
    verify_branch_cosign_partial_sigs (vt_unsigned_tree t) (vt_cosign_agg_nonces t) r ns sigs = Ok tt.

Record tree_inv (cfg : RoundConfig) (s0 : CollectingPayments) (t : SigningVtxoTree) : Prop := {
  tv_facts : tree_facts cfg s0 t;
  tv_collected : co_inv s0 /\ have_payments s0 = true;
  tv_keys : NoDup (vt_cosign_part_sigs t).*1;
  tv_parts : forall pk sigs, kget (vt_cosign_part_sigs t) pk = Some sigs -> exists r, branch_signed t r pk sigs;
  tv_proceed : vt_proceed t = true ->
    forall r, r ∈ requests t -> exists pk, cosign_pubkey r = Some pk /\ is_Some (kget (vt_cosign_part_sigs t) pk);
}.

Lemma round_nonces_pub key n rand : (nonce_pairs_for key n rand).*2 = sec_to_pub_nonce <$> (nonce_pairs_for key n rand).*1.
Proof.
  unfold nonce_pairs_for. rewrite <- !list_fmap_compose. apply list_fmap_ext. intros i j _. apply new_nonce_pair_pub.
Qed.

Lemma length_nonce_pairs key n rand : length (nonce_pairs_for key n rand) = n.
Proof. unfold nonce_pairs_for. by rewrite length_fmap, length_seq. Qed.

Lemma tree_distinct cfg s0 t : tree_facts cfg s0 t -> keys_distinct (ut_spec (vt_unsigned_tree t)).
Proof.
  intros Hf l l' pk Hl Hl'. unfold leaf_key in *. apply bind_Some in Hl as (r & Hr & Hpk). apply bind_Some in Hl' as (r' & Hr' & Hpk').
  by eapply (omap_NoDup_inj cosign_pubkey); [apply (tf_keys _ _ _ Hf)|..].
Qed.

Lemma tree_ok_of cfg s0 t : tree_facts cfg s0 t ->
  new (nb_leaves (ut_spec (vt_unsigned_tree t))) = Some (ut_tree (vt_unsigned_tree t)) /\
  utree_ok (ut_spec (vt_unsigned_tree t)) (ut_tree (vt_unsigned_tree t)) (mkOutPoint (vt_round_txid t) ROUND_TX_VTXO_TREE_VOUT)
    (vt_unsigned_tree t).
Proof. intros Hf. eapply unsigned_tree_inv; [apply Hf|apply (tf_tree _ _ _ Hf)]. Qed.

Lemma inputs_nonempty s0 : have_payments s0 = true -> (size (co_inputs s0) <> 0)%nat.
Proof.
  unfold have_payments. rewrite andb_true_iff, negb_true_iff, bool_decide_eq_false. intros [H _] ?. by apply H, map_size_empty_inv.
Qed.

(** The first state of the signing: the server has signed for its placeholder. *)
Lemma progress_inv a cfg s0 t : answers_ok a -> co_inv s0 -> have_payments s0 = true ->
  collecting_progress a cfg s0 = Ok t -> tree_inv cfg s0 t.
Proof.
  intros Ha Hs Hh H. pose proof (progress_facts _ _ _ _ Ha Hs H) as Hf.
  assert (Hparts : (vt_cosign_part_sigs t = [] /\ vt_proceed t = false) \/ exists r key sns sigs, requests t = [r] /\
    cosign_pubkey r = Some (keypair_public_key key) /\ vt_cosign_part_sigs t = [(keypair_public_key key, sigs)] /\
    kget (vt_user_cosign_nonces t) (keypair_public_key key) = Some (sec_to_pub_nonce <$> sns) /\
    cosign_branch (vt_unsigned_tree t) (vt_cosign_agg_nonces t) 0 key sns = Ok sigs).
  { unfold collecting_progress in H. apply bind_Ok in H as (eh & _ & H). apply bind_Ok in H as ([outs change] & Hc & H).
    apply bind_Ok in H as (spec & Hspec & H). apply bind_Ok in Hspec as (u0 & _ & [= <-]).
    apply bind_Ok in H as (nb & _ & H). apply bind_Ok in H as (u1 & _ & H).
    apply bind_Ok in H as (c & _ & H). apply bind_Ok in H as ([psbt tx] & _ & H). apply bind_Ok in H as (common & _ & H).
    apply bind_Ok in H as (aggs & _ & H). apply bind_Ok in H as (u & Hu & H).
    apply bind_Ok in H as ([parts pr] & Hsc & [= <-]). cbn -[nonce_pairs_for kget] in *. unfold into_unsigned_tree in Hu.
    destruct (unsigned_tree_new_spec _ _ _ Hu) as [Hus _]. unfold sign_change in Hsc. destruct change as [[p sec]|].
    2: { injection Hsc as <- <-. by left. }
    right. unfold with_change in Hc. destruct (bool_decide _) eqn:Hnil; [|done]. apply bool_decide_eq_true, nil_length_inv in Hnil.
    rewrite Hnil in Hc. apply bind_Ok in Hc as (ch & Hch & [= <- ->]). apply bind_Ok in Hch as (k & _ & [= <- <-]).
    apply bind_Ok in Hsc as (idx & Hidx%expect_Ok & Hsc). apply bind_Ok in Hsc as (sigs & Hsigs%expect_Ok & [= <- <-]).
    rewrite Hus in Hidx. unfold leaf_idx_of in Hidx. cbn -[nonce_pairs_for] in Hidx. rewrite bool_decide_true in Hidx by done.
    injection Hidx as <-. destruct (cosign_branch _ _ _ _ _) eqn:Hb; [|done..]. injection Hsigs as ->.
    eexists _, (dr_change_key (an_draws a)), _, sigs. rewrite Hus. split; [reflexivity|]. split; [reflexivity|]. split; [reflexivity|].
    split; [|exact Hb]. cbn -[nonce_pairs_for]. rewrite decide_True by done. f_equal. apply round_nonces_pub. }
  split; [done|done|..].
  - destruct Hparts as [[-> _]|(? & ? & ? & ? & _ & _ & -> & _)]; [apply NoDup_nil_2|apply NoDup_singleton].
  - intros pk sigs. destruct Hparts as [[-> _]|(r & key & sns & sigs' & Hr & Hpk & -> & Hns & Hb)]; [done|]. cbn.
    destruct (decide _) as [<-|]; [|done]. intros [= <-]. exists r. split; [rewrite Hr; left|]. split; [done|].
    destruct (tree_ok_of _ _ _ Hf) as [Hnew Hok].
    destruct (cosign_branch_valid _ (tf_spec _ _ _ Hf) _ Hnew _ _ Hok _ _ _ 0 r key sns (tree_distinct _ _ _ Hf) (tf_aggs _ _ _ Hf))
      as (sigs2 & Hb2 & Hv); [by rewrite Hr|done..|]. rewrite Hb in Hb2. injection Hb2 as <-. eauto.
  - destruct Hparts as [[_ ->]|(r & key & sns & sigs' & Hr & Hpk & -> & _)]; [done|]. intros _ r' Hin.
    rewrite Hr in Hin. apply list_elem_of_singleton in Hin as ->. exists (keypair_public_key key). split; [done|]. cbn.
    rewrite decide_True by done. by eexists.
Qed.

Lemma length_omap {A K'} (f : A -> option K') l : (length (omap f l) <= length l)%nat.
Proof. induction l as [|a l IH]; [done|]. cbn. destruct (f a); cbn; lia. Qed.

Lemma omap_total {A K'} (f : A -> option K') l : length (omap f l) = length l -> forall a, a ∈ l -> exists k, f a = Some k.
Proof.
  induction l as [|x l IH]; intros Hlen a Hin; [by apply elem_of_nil in Hin|]. cbn in Hlen. pose proof (length_omap f l).
  destruct (f x) as [k|] eqn:Hx; cbn in Hlen; [|lia]. apply elem_of_cons in Hin as [->|Hin]; [eauto|]. apply IH; [lia|done].
Qed.

(** As many signers as leaves: every leaf has a signer. *)
Lemma all_signed (keys : list PublicKey) (vs : list SignedVtxoRequest) : NoDup keys ->
  (forall k, k ∈ keys -> k ∈ omap cosign_pubkey vs) -> length keys = length vs ->
  forall r, r ∈ vs -> exists pk, cosign_pubkey r = Some pk /\ pk ∈ keys.
Proof.
  intros Hnd Hsub Hlen r Hr. pose proof (NoDup_submseteq _ _ Hnd Hsub) as Hs.
  pose proof (length_omap cosign_pubkey vs). pose proof (submseteq_length _ _ Hs).
  destruct (omap_total cosign_pubkey vs ltac:(lia) r Hr) as [pk Hpk]. exists pk. split; [done|].
  rewrite (submseteq_length_Permutation _ _ Hs) by lia. apply list_elem_of_omap. eauto.
Qed.

Lemma register_signature_inv cfg s0 t pk sigs t' : tree_inv cfg s0 t -> register_signature t pk sigs = Ok t' -> tree_inv cfg s0 t'.
Proof.
  intros Ht H. pose proof (tv_facts _ _ _ Ht) as Hf. unfold register_signature in H.
  apply bind_Ok in H as ([] & Hn%ensure_Ok%bool_decide_eq_true & H). apply bind_Ok in H as (r & Hr%ok_or_Ok & H).
  apply bind_Ok in H as (ns & Hns%expect_Ok & H). apply bind_Ok in H as ([] & Hv%map_err_Ok & [= <-]).
  apply List.find_some in Hr as [Hr Hpk%bool_decide_eq_true]. apply list_elem_of_In in Hr.
  assert (Hparts : forall k l, kget (kset pk sigs (vt_cosign_part_sigs t)) k = Some l -> exists q, branch_signed t q k l).
  { intros k l Hk. rewrite kget_kset in Hk. destruct (decide (k = pk)) as [->|]; [|by apply (tv_parts _ _ _ Ht)].
    injection Hk as <-. exists r. split; [done|]. split; [done|]. eauto. }
  split; cbn -[kset kget].
  - by destruct Hf; split.
  - apply (tv_collected _ _ _ Ht).
  - apply (kset_NoDup (vt_cosign_part_sigs t) pk sigs), (tv_keys _ _ _ Ht).
  - exact Hparts.
  - intros [Hp|Hlen%bool_decide_eq_true]%orb_true_iff q Hq.
    + destruct (tv_proceed _ _ _ Ht Hp q Hq) as (k & Hk & Hs). exists k. split; [done|]. rewrite kget_kset.
      destruct (decide (k = pk)); [by eexists|done].
    + destruct (tree_ok_of _ _ _ Hf) as [Hnew Hok].
      destruct (all_signed (kset pk sigs (vt_cosign_part_sigs t)).*1 (requests t)) with (r := q) as (k & Hk & Hin); [| | |done|].
      * apply (kset_NoDup (vt_cosign_part_sigs t) pk sigs), (tv_keys _ _ _ Ht).
      * intros k Hk. apply kget_is_Some in Hk as [l Hk]. destruct (Hparts k l Hk) as (q' & Hq' & Hk' & _).
        apply list_elem_of_omap. eauto.
      * rewrite length_fmap. etrans; [exact Hlen|]. by rewrite (ok_leaves _ _ (proj2 (new_tree_ok _ _ Hnew))).
      * exists k. split; [done|]. by apply kget_is_Some.
Qed.

(** The forfeits that the owners of the inputs sign next. *)
Record forfeit_facts (cfg : RoundConfig) (t : SigningVtxoTree) (f : SigningForfeits) : Prop := {
  ff_sigs : exists sigs, verify_cosign_sigs (vt_unsigned_tree t) sigs = Ok tt /\
    into_cached_tree (E:=Empty_set) (into_signed_tree (vt_unsigned_tree t) sigs) = Ok (sf_signed_vtxos f);
  ff_conn : chain_new (E:=string) (Z.of_nat (size (vt_inputs t))) (mkOutPoint (vt_round_txid t) ROUND_TX_CONNECTOR_VOUT)
    (keypair_public_key (vt_connector_key t)) = Ok (sf_connectors f);
  ff_nonces : forall id v, vt_inputs t !! id = Some v -> exists secs, sf_sec_nonces f !! id = Some secs /\
    sf_pub_nonces f !! id = Some (sec_to_pub_nonce <$> secs) /\ length secs = size (vt_inputs t);
  ff_same : sf_inputs f = vt_inputs t /\ sf_psbt f = vt_psbt t /\ sf_connector_key f = vt_connector_key t /\
    sf_locked f = vt_locked t /\ sf_attempt_seq f = vt_attempt_seq t /\ sf_data f = vt_data t /\ sf_round_seq f = vt_round_seq t;
}.

Lemma forfeit_nonces_lookup (cfg : RoundConfig) (d : Draws) (inputs : gmap VtxoId Vtxo) (id : VtxoId) : forfeit_nonces cfg d inputs !! id =
  (fun _ => nonce_pairs_for (server_key cfg) (size inputs) (dr_forfeit_nonce d id)) <$> inputs !! id.
Proof. unfold forfeit_nonces. rewrite map_lookup_imap. by destruct (inputs !! id). Qed.

Lemma owners_verified cfg s0 t : tree_inv cfg s0 t -> vt_proceed t = true ->
  leaves_verified (ut_spec (vt_unsigned_tree t)) (vt_unsigned_tree t) (vt_cosign_agg_nonces t) (kget (vt_user_cosign_nonces t))
    (kget (vt_cosign_part_sigs t)).
Proof.
  intros Ht Hp l r pk Hr Hpk. pose proof (list_elem_of_lookup_2 _ _ _ Hr) as Hin.
  destruct (tv_proceed _ _ _ Ht Hp r Hin) as (pk' & Hpk' & [sigs Hs]). assert (pk' = pk) as -> by congruence.
  destruct (tv_parts _ _ _ Ht pk sigs Hs) as (r' & Hr' & Hk' & ns & Hns & Hv). apply list_elem_of_lookup_1 in Hr' as [l' Hl'].
  assert (l' = l) as -> by (eapply (tree_distinct _ _ _ (tv_facts _ _ _ Ht)); unfold leaf_key; [rewrite Hl'|rewrite Hr]; done).
  assert (r' = r) as -> by congruence. eauto.
Qed.

(** Once all owners have signed the server completes the tree: none of its
    assertions and expectations fails, and all node signatures are valid. *)
Lemma tree_progress_total (cfg : RoundConfig) (d : Draws) s0 t : tree_inv cfg s0 t -> vt_proceed t = true ->
  exists f, tree_progress (E:=Empty_set) cfg d t = Ok f /\ forfeit_facts cfg t f /\ sf_part_sigs f = ∅ /\ sf_proceed f = false.
Proof.
  intros Ht Hp. pose proof (tv_facts _ _ _ Ht) as Hf. destruct (tree_ok_of _ _ _ Hf) as [Hnew Hok].
  destruct (tf_nonces _ _ _ Hf) as (rand & Hsec & Hpub). pose proof (tf_aggs _ _ _ Hf) as Haggs.
  assert (Hps : vt_cosign_pub_nonces t = sec_to_pub_nonce <$> vt_cosign_sec_nonces t) by (rewrite Hsec, Hpub; apply round_nonces_pub).
  assert (Hls : length (vt_cosign_sec_nonces t) = nb_nodes (ut_tree (vt_unsigned_tree t))).
  { rewrite Hsec, length_fmap. apply length_nonce_pairs. }
  destruct (cosign_tree_valid _ (tf_spec _ _ _ Hf) _ Hnew _ _ Hok (E:=Empty_set) _ _ _ 0 (vt_cosign_key t) (vt_cosign_sec_nonces t) Haggs)
    as (srv & Hsrv & Hlen & Hver); [rewrite (tf_signers _ _ _ Hf); left|cbn; by rewrite Hps|done|].
  assert (Hg : globals_verified (ut_spec (vt_unsigned_tree t)) (ut_tree (vt_unsigned_tree t)) (vt_unsigned_tree t)
    (vt_cosign_agg_nonces t) [vt_cosign_pub_nonces t] [srv]).
  { exists [keypair_public_key (vt_cosign_key t)], [vt_cosign_pub_nonces t]. rewrite (tf_signers _ _ _ Hf).
    split; [done|]. split; [done|]. split; [done|]. intros [|j] pk ns sl Hpk Hns Hsl; [|done].
    injection Hpk as <-. injection Hns as <-. injection Hsl as <-. split; [done|]. by rewrite Hps. }
  destruct (combine_verified _ (tf_spec _ _ _ Hf) _ Hnew _ _ Hok (tree_distinct _ _ _ Hf) _ _ _ Haggs _ (owners_verified _ _ _ Ht Hp) _ Hg)
    as (sigs & Hc & Hv).
  destruct (into_cached_tree_Ok (E:=Empty_set) _ _ _ _ sigs (tf_spec _ _ _ Hf) Hnew Hok) as (stxs & Hct & _).
  unfold tree_progress. rewrite Hsrv. cbn [mbind outcome_bind]. rewrite Hps, Hver. cbn [is_ok assert mbind outcome_bind].
  rewrite Hc. cbn [expect mbind outcome_bind]. rewrite Hv. cbn [is_ok assert mbind outcome_bind]. rewrite Hct. cbn [mbind outcome_bind].
  destruct (tf_inputs _ _ _ Hf) as (Hin & _). pose proof (inputs_nonempty _ (proj2 (tv_collected _ _ _ Ht))) as Hne. rewrite <- Hin in Hne.
  unfold chain_new at 1. assert (Hz : negb (Z.of_nat (size (vt_inputs t)) =? 0) = true) by (apply negb_true_iff, Z.eqb_neq; lia).
  rewrite Hz. cbn [assert mbind outcome_bind]. eexists. split; [reflexivity|]. split; [|done].
  split; cbn -[nonce_pairs_for]; [| | |done].
  - exists sigs. done.
  - unfold chain_new. by rewrite Hz.
  - intros id v Hv'. rewrite !lookup_fmap, forfeit_nonces_lookup, Hv'. cbn -[nonce_pairs_for]. eexists. split; [reflexivity|].
    split; [f_equal; apply round_nonces_pub|]. by rewrite length_fmap, length_nonce_pairs.
Qed.

(** ** Signing the forfeits *)
Definition forfeit_signed (f : SigningForfeits) (id : VtxoId) (sigs : list PublicNonce * list PartialSignature) : Prop :=
  exists v pubs, sf_inputs f !! id = Some v /\ sf_pub_nonces f !! id = Some pubs /\
    validate_forfeit_sigs v (sf_connectors f) (keypair_public_key (sf_connector_key f)) pubs sigs.1 sigs.2 = Ok tt.

Record forfeits_inv (cfg : RoundConfig) (s0 : CollectingPayments) (t : SigningVtxoTree) (f : SigningForfeits) : Prop := {
  fv_tree : tree_inv cfg s0 t;
  fv_facts : forfeit_facts cfg t f;
  fv_parts : forall id sigs, sf_part_sigs f !! id = Some sigs -> forfeit_signed f id sigs;
  fv_proceed : sf_proceed f = true -> dom (sf_part_sigs f) =@{gset VtxoId} dom (sf_inputs f);
}.

Lemma add_forfeits_inv {E : Type} (f : SigningForfeits) l : forall m m', add_forfeits (E:=E) f m l = Ok m' ->
  (forall id sigs, m !! id = Some sigs -> forfeit_signed f id sigs) ->
  forall id sigs, m' !! id = Some sigs -> forfeit_signed f id sigs.
Proof.
  induction l as [|[[i ns] sg] l IH]; intros m m' H Hm; cbn [add_forfeits] in H; [by injection H as <-|].
  destruct (sf_inputs f !! i) as [v|] eqn:Hv; [|by eapply IH]. apply bind_Ok in H as (pubs & Hp%expect_Ok & H).
  destruct (validate_forfeit_sigs _ _ _ _ _ _) as [[]|e|] eqn:Hval; [|by eapply IH|done]. eapply IH; [exact H|].
  intros id sigs Hid. apply lookup_insert_Some in Hid as [[<- <-]|[_ Hid]]; [|by apply Hm]. exists v, pubs. done.
Qed.

Lemma register_forfeits_inv {E : Type} cfg s0 t (f : SigningForfeits) l f' : forfeits_inv cfg s0 t f ->
  register_forfeits (E:=E) f l = Ok f' -> forfeits_inv cfg s0 t f'.
Proof.
  intros Hf H. apply bind_Ok in H as (m & Hm & [= <-]). pose proof (add_forfeits_inv f l _ _ Hm (fv_parts _ _ _ _ Hf)) as Hparts.
  split; cbn -[size]; [apply Hf|by destruct (fv_facts _ _ _ _ Hf); split|exact Hparts|].
  assert (Hdom : dom m ⊆@{gset VtxoId} dom (sf_inputs f)).
  { intros id [sigs Hid]%elem_of_dom. destruct (Hparts id sigs Hid) as (v & _ & Hv & _). apply elem_of_dom. by eexists. }
  intros [Hp|Hsize%bool_decide_eq_true]%orb_true_iff.
  - pose proof (fv_proceed _ _ _ _ Hf Hp) as Hd. apply set_eq_subseteq. split; [done|]. rewrite <- Hd.
    clear -Hm. revert Hm. generalize (sf_part_sigs f). revert m. induction l as [|[[i ns] sg] l IH]; intros m m0 H; cbn [add_forfeits] in H.
    { by injection H as <-. }
    destruct (sf_inputs f !! i); [|by apply IH]. apply bind_Ok in H as (pubs & _ & H).
    destruct (validate_forfeit_sigs _ _ _ _ _ _); [|by apply IH|done]. apply IH in H. rewrite dom_insert_L in H. set_solver.
  - apply leibniz_equiv, set_subseteq_size_equiv; [done|]. by rewrite !size_dom, Hsize.
Qed.
End Tree.
