(* ===== verification/RoundOutcome.v ===== *)
(** * Rounds of the server: every step and every outcome

    The invariant of the state machine of a round, the effect of each step on
    the locks, and what a round that finishes with success leaves behind. *)
From stdpp Require Import gmap.
From S2P Require Import Prelude Keyed Effects Tree Bitcoin Encode Concrete Policy Vtxo Validation Board Extend Arkoor.
From S2P Require Import SignedTree TreeTxs TreeVtxos TreeCosign ChainSource Flux Rounds Connectors Forfeit ServerDb RoundCollect.
From S2P Require Import RoundSigning ServerRound RoundSafety.

Open Scope Z_scope.

(** [runs] lemmas end with the run: it fixes what is not known yet. *)
Ltac run_by l H := eapply l; [..|exact H].

Section Machine.
Context `{B : Bitcoin} `{C : !Consensus} `{S : !Signing B} `{P : !RoundWallet} `{F : !Fees}.
Context `{W : !WitnessLaws B} `{K : !KeyLaws B} `{M : !MusigLaws B}.

Definition locked_of (st : RoundState) : VtxoFluxLock :=
  match st with
  | StCollectingPayments s => co_locked s
  | StSigningVtxoTree t => vt_locked t
  | StSigningForfeits f => sf_locked f
  | StFinished _ => ∅
  end.

Definition round_inv (cfg : RoundConfig) (st : RoundState) : Prop :=
  match st with
  | StCollectingPayments s => co_inv s
  | StSigningVtxoTree t => vt_proceed t = false /\ exists s0, tree_inv cfg s0 t
  | StSigningForfeits f => sf_proceed f = false /\ exists s0 t, forfeits_inv cfg s0 t f
  | StFinished _ => True
  end.

(** What a round does to the locks: those of others stay, its own are in flux. *)
Definition flux_frame (l : VtxoFluxLock) (w : RoundWorld) (l' : VtxoFluxLock) (w' : RoundWorld) : Prop :=
  l ⊆ rw_flux w -> l' ⊆ rw_flux w' /\ rw_flux w' ∖ l' = rw_flux w ∖ l.

Lemma flux_frame_refl l w : flux_frame l w l w.
Proof. done. Qed.

Definition untouched (w w' : RoundWorld) : Prop := rw_db w' = rw_db w /\ rw_broadcast w' = rw_broadcast w.

(** A step without an effect outside; it does not end the round with success. *)
Record quiet (cfg : RoundConfig) (st : RoundState) (w : RoundWorld) (st' : RoundState) (w' : RoundWorld) : Prop := {
  qu_untouched : untouched w w';
  qu_result : st' <> StFinished RSuccess;
  qu_inv : round_inv cfg st';
  qu_flux : flux_frame (locked_of st) w (locked_of st') w';
}.

(** The result of a step: the round goes on or ends without success and without
    an effect outside, or the forfeits are complete and the round was finished. *)
Inductive step_post (cfg : RoundConfig) (a : Answers) (st : RoundState) (w : RoundWorld) (st' : RoundState) (w' : RoundWorld) : Prop :=
  | sp_quiet : quiet cfg st w st' w' -> step_post cfg a st w st' w'
  | sp_finish s0 t f r w1 : forfeits_inv cfg s0 t f -> dom (sf_part_sigs f) =@{gset VtxoId} dom (sf_inputs f) ->
      locked_of st = sf_locked f -> finish a f w = (r, w1) -> r <> Panic ->
      st' = StFinished (match r with Ok _ => RSuccess | Err e => RErr e | Panic => RAbandoned end) ->
      w' = set_flux (drop_lock (sf_locked f) (rw_flux w1)) w1 -> step_post cfg a st w st' w'.

Lemma quiet_trans cfg st1 w1 st2 w2 st3 w3 : quiet cfg st1 w1 st2 w2 -> quiet cfg st2 w2 st3 w3 -> quiet cfg st1 w1 st3 w3.
Proof.
  intros [[H1 H2] _ _ H3] [[H4 H5] H6 H7 H8]. split; [split; congruence|done..|]. intros Hsub. destruct (H3 Hsub) as [H9 H10].
  destruct (H8 H9) as [H11 H12]. split; [done|congruence].
Qed.

(** Every run of [m] from a state is quiet. *)
Definition runs (cfg : RoundConfig) (st : RoundState) (m : round_m RoundState) (w : RoundWorld) : Prop :=
  forall st' w', m w = (Ok st', w') -> quiet cfg st w st' w'.

Lemma start_attempt_runs cfg st s : locked_of st = co_locked s ->
  co_inv (set_locked ∅ s) -> forall w, runs cfg st (start_attempt s) w.
Proof.
  intros Hl Hs w st' w' H. unfold start_attempt in H. apply bind_run_Ok in H as (fl & w1 & [= <- <-] & H).
  rewrite release_all_spec in H. apply bind_run_Ok in H as ([] & w2 & [= <-] & [= <- <-]).
  split; [done|done|exact Hs|]. intros _. cbn. rewrite Hl. split; [set_solver|set_solver].
Qed.

Lemma into_finished_runs cfg st l r : locked_of st = l -> r <> RSuccess -> forall w, runs cfg st (into_finished l r) w.
Proof.
  intros Hl Hr w st' w' H. apply bind_run_Ok in H as ([] & w1 & [= <-] & [= <- <-]).
  split; [done|congruence|done|]. intros _. cbn. rewrite drop_lock_spec, Hl. split; set_solver.
Qed.

Lemma reply_runs cfg a st : round_inv cfg st -> st <> StFinished RSuccess -> forall w, runs cfg st (reply a st) w.
Proof.
  intros Hst Hne w st' w' H. apply bind_run_Ok in H as ([] & w1 & Ha & [= <- <-]). unfold infallible, Effects.lift in Ha.
  injection Ha as _ <-. by split.
Qed.

Lemma close_signing_runs cfg a st s0 t : tree_inv cfg s0 t -> locked_of st = vt_locked t ->
  forall w, runs cfg st (close_signing cfg a t) w.
Proof.
  intros Ht Hl w st' w' H. unfold close_signing in H. destruct (vt_proceed t) eqn:Hp.
  - destruct (tree_progress_total cfg (an_draws a) s0 t Ht Hp) as (f & Hf & Hff & Hparts & Hpr).
    apply bind_run_Ok in H as (f' & w1 & Hi & [= <- <-]). unfold infallible in Hi. rewrite Hf in Hi. injection Hi as <- <-.
    split; [done|done| |].
    + cbn. split; [done|]. exists s0, t. split; [done..| |congruence]. intros id sigs. by rewrite Hparts, lookup_empty.
    + cbn. destruct (ff_same _ _ _ Hff) as (_ & _ & _ & -> & _). rewrite <- Hl. done.
  - injection H as <- <-. split; [done|done| |]; cbn; [eauto|by rewrite <- Hl].
Qed.

Lemma run_infallible {A} (m : outcome Empty_set A) (w : RoundWorld) x w' : infallible (E := Empty_set) m w = (Ok x, w') -> m = Ok x /\ w' = w.
Proof. unfold infallible, Effects.lift. intros [= H <-]. by apply map_err_Ok in H. Qed.

Lemma close_collecting_runs cfg a st s : answers_ok a -> co_inv s -> locked_of st = co_locked s ->
  forall w, runs cfg st (close_collecting cfg a s) w.
Proof.
  intros Ha Hs Hl w st' w' H. unfold close_collecting in H. apply bind_run_Ok in H as (z & w1 & [_ ->]%run_infallible & H).
  destruct (have_payments s) eqn:Hh; cbn [negb] in H; [|by run_by into_finished_runs H].
  apply bind_run_Ok in H as (r & w2 & Hr & H). unfold try_m, Effects.lift in Hr. cbn in Hr.
  destruct (collecting_progress a cfg s) as [t|e|] eqn:Hp; [| |done]; injection Hr as <- <-.
  - pose proof (progress_inv _ _ _ _ Ha Hs Hh Hp) as Ht. eapply close_signing_runs; [exact Ht| |exact H].
    destruct (tf_inputs _ _ _ (tv_facts _ _ _ Ht)) as (_ & _ & -> & _). done.
  - by run_by into_finished_runs H.
Qed.

Lemma restart_inv seq att data locked allowed common ch key :
  co_inv (set_locked ∅ (collecting_new seq (att + 1) data locked (Some allowed) common ch key)).
Proof. apply (collecting_new_inv seq (att + 1) data (Some allowed) common ch key). split; [lia|done]. Qed.

Lemma next_attempt_runs cfg st seq att data locked allowed common ch key : locked_of st = locked ->
  forall w, runs cfg st (next_attempt (collecting_new seq (att + 1) data locked (Some allowed) common ch key)) w.
Proof.
  intros Hl w st' w' H. unfold next_attempt in H. apply bind_run_Ok in H as (b & w1 & [_ ->]%run_infallible & H).
  destruct b; [by run_by into_finished_runs H|]. run_by start_attempt_runs H; [by rewrite Hl|apply restart_inv].
Qed.

Lemma close_forfeits_runs cfg a st s0 t f : forfeits_inv cfg s0 t f -> locked_of st = sf_locked f ->
  forall w st' w', close_forfeits a f w = (Ok st', w') -> step_post cfg a st w st' w'.
Proof.
  intros Hf Hl w st' w' H. unfold close_forfeits in H. destruct (check_forfeits f) as [missing|] eqn:Hc.
  - apply sp_quiet. run_by start_attempt_runs H; [by rewrite Hl|apply restart_inv].
  - assert (Hdom : dom (sf_part_sigs f) =@{gset VtxoId} dom (sf_inputs f)).
    { unfold check_forfeits in Hc. case_bool_decide as Hm; [|done]. apply set_eq_subseteq. split; [|set_solver].
      intros id [sigs Hid]%elem_of_dom. destruct (fv_parts _ _ _ _ Hf id sigs Hid) as (v & _ & Hv & _). apply elem_of_dom. by eexists. }
    apply bind_run_Ok in H as (r & w1 & Hr & H). unfold try_m in Hr. destruct (finish a f w) as [o w2] eqn:Hfin. cbn in Hr.
    apply bind_run_Ok in H as ([] & w3 & [= <-] & [= <- <-]).
    destruct o as [[]|e|]; [| |done]; injection Hr as <- <-; by eapply (sp_finish _ _ _ _ _ _ s0 t f).
Qed.

Lemma process_runs a s ins reqs offs w r w' : co_inv s -> keys_ok (rw_db w) -> process a s ins reqs offs w = (Ok r, w') ->
  untouched w w' /\ match r with
  | inl _ => w' = w
  | inr s' => co_inv s' /\ flux_frame (co_locked s) w (co_locked s') w'
  end.
Proof.
  intros Hs Hk H. apply bind_run_Ok in H as (db & w1 & [= <- <-] & H). unfold zoom, try_m in H.
  pose proof (process_payment_spec s (an_db_up a) (rw_db w) (an_tx_status a) ins reqs offs (rw_flux w) Hs Hk) as Hp.
  destruct (process_payment s (an_db_up a) (rw_db w) (an_tx_status a) ins reqs offs (rw_flux w)) as [[s'|e|] fl] eqn:E; cbn in H; [| |done];
    injection H as <- <-; split; try done.
  - destruct Hp as (Hs' & Hlock & (vs & Hids & _ & Hr) & ->). split; [done|]. intros Hsub. cbn.
    rewrite (ci_locked _ Hs'), (ci_locked _ Hs) in *. destruct (rg_attempt _ _ _ _ _ Hr) as (-> & _).
    rewrite (rg_inputs _ _ _ _ _ Hr), insert_inputs_dom, Hids.
    destruct Hlock as [_ Hfree]. destruct (decide (co_attempt_seq s = 0%nat)); [|by split].
    assert (Hdis : list_to_set (vi_vtxo_id <$> ins) ## rw_flux w) by (intros x Hx%elem_of_list_to_set; by apply Hfree).
    split; set_solver.
  - rewrite Hp. by destruct w.
Qed.

(** A payment that arrives, and possibly fills the round. *)
Lemma register_runs cfg a s ins reqs offs w : answers_ok a -> keys_ok (rw_db w) -> co_inv s ->
  runs cfg (StCollectingPayments s) (handle_event cfg a (EvInput (RegisterPayment ins reqs offs)) (StCollectingPayments s)) w.
Proof.
  intros Ha Hk Hs st' w' H. cbn [handle_event on_collecting on_signing_tree on_signing_forfeits] in H. apply bind_run_Ok in H as (r & w1 & Hr & H).
  destruct (process_runs _ _ _ _ _ _ _ _ Hs Hk Hr) as [Hu Hp]. destruct r as [e|s']; [subst w1; by run_by reply_runs H|].
  destruct Hp as [Hs' Hfr]. assert (Hq : quiet cfg (StCollectingPayments s) w (StCollectingPayments s') w1) by by split.
  destruct (co_proceed s'); [|by injection H as <- <-]. eapply quiet_trans; [exact Hq|]. by run_by close_collecting_runs H.
Qed.

Lemma handle_runs cfg a ev st w st' w' : answers_ok a -> keys_ok (rw_db w) -> round_inv cfg st -> st <> StFinished RSuccess ->
  handle_event cfg a ev st w = (Ok st', w') -> step_post cfg a st w st' w'.
Proof.
  intros Ha Hk Hst Hne H. destruct st as [s|t|f|r].
  - apply sp_quiet. destruct ev as [|[ins reqs offs|pk sigs|sigs]]; [by run_by close_collecting_runs H| |by run_by reply_runs H..].
    by eapply register_runs.
  - apply sp_quiet. pose proof Hst as [Hpr (s0 & Ht)]. destruct ev as [|[ins reqs offs|pk sigs|sigs]]; cbn [handle_event on_collecting on_signing_tree on_signing_forfeits] in H;
      [by run_by next_attempt_runs H|by run_by reply_runs H| |by run_by reply_runs H].
    apply bind_run_Ok in H as (r & w1 & Hr & H). unfold try_m, map_err_m, Effects.lift in Hr. cbn in Hr.
    destruct (register_signature t pk sigs) as [t'|e|] eqn:E; [| |done]; injection Hr as <- <-; [|by run_by reply_runs H].
    pose proof (register_signature_inv _ _ _ _ _ _ Ht E) as Ht'. eapply close_signing_runs; [exact Ht'| |exact H].
    destruct (tf_inputs _ _ _ (tv_facts _ _ _ Ht)) as (_ & _ & Hl & _), (tf_inputs _ _ _ (tv_facts _ _ _ Ht')) as (_ & _ & Hl' & _).
    cbn. congruence.
  - pose proof Hst as [Hpr (s0 & t & Hf)]. destruct ev as [|[ins reqs offs|pk sigs|sigs]]; cbn [handle_event on_collecting on_signing_tree on_signing_forfeits] in H;
      [apply sp_quiet; by run_by next_attempt_runs H|apply sp_quiet; by run_by reply_runs H..|].
    apply bind_run_Ok in H as (f' & w1 & [Hr ->]%run_infallible & H). pose proof (register_forfeits_inv _ _ _ _ _ _ Hf Hr) as Hf'.
    assert (Hl : sf_locked f' = sf_locked f) by (apply bind_Ok in Hr as (m & _ & [= <-]); done).
    destruct (sf_proceed f') eqn:Hp; [by eapply close_forfeits_runs|].
    injection H as <- <-. apply sp_quiet. split; [done|done| |]; cbn; [split; eauto|by rewrite Hl].
  - apply sp_quiet. destruct ev as [|i]; cbn in H; injection H as <- <-; by split.
Qed.
End Machine.
