(* ===== verification/RoundSuccess.v ===== *)
(** * Rounds of the server: what a successful round leaves behind

    The states a round can reach, and what holds once it has finished with
    success: the round transaction that was broadcast pays the tree, the
    connectors and the offboards, every new VTXO is valid, and the server can
    enforce the forfeit of every VTXO it was given. *)
From stdpp Require Import gmap.
From S2P Require Import Prelude Keyed Effects Tree Bitcoin Encode Concrete Policy Vtxo Validation Board Extend Arkoor.
From S2P Require Import SignedTree TreeTxs TreeVtxos TreeCosign ChainSource Flux Rounds Connectors Forfeit ServerDb RoundCollect.
From S2P Require Import RoundSigning ServerRound RoundSafety RoundOutcome.

Open Scope Z_scope.

Section Spec.
Context `{B : Bitcoin} `{C : !Consensus} `{S : !Signing B} `{P : !RoundWallet} `{F : !Fees}.

(** The states of a round: it starts, and goes on with any messages, timeouts
    that are [fine] and any answers, while other rounds, payments and users
    change the world. *)
Inductive reachable (cfg : RoundConfig) (fine : Event -> Prop) : RoundState -> Prop :=
  | reach_start round_seq d w st w' : start_round cfg round_seq d w = (Ok st, w') -> reachable cfg fine st
  | reach_step a ev st w st' w' : reachable cfg fine st -> answers_ok a -> keys_ok (rw_db w) -> fine ev ->
      handle_event cfg a ev st w = (Ok st', w') -> reachable cfg fine st'.

Definition any_event : Event -> Prop := fun _ => True.

(** For every connector the server can complete a valid forfeit transaction. *)
Definition enforceable (c : ConnectorChain) (conn_key server_key : Keypair) (v : Vtxo) (ff : ForfeitState) : Prop :=
  exists tr conns, output_taproot (E:=string) v = Ok tr /\ connector_points (E:=string) c = Ok conns /\
    Z.of_nat (length conns) = cc_len c /\
    forall idx conn r, conns !! idx = Some conn ->
    exists tx, finalize_forfeit_tx (E:=string) v ff idx conn conn_key server_key r = Ok tx /\
      forfeit_tx_ok v tr (keypair_public_key conn_key) conn tx.

Notation tree_spec f := (st_spec (ct_spec (sf_signed_vtxos f))).
Notation nb_inputs s0 := (Z.of_nat (size (co_inputs s0))).

(** What was collected in [s0] and signed in [f] is settled by [tx]. *)
Record round_done (cfg : RoundConfig) (s0 : CollectingPayments) (f : SigningForfeits) (tx : Transaction) (round_id : nat)
    (db : Db Keypair) : Prop := {
  rd_value : paid_outputs (co_outputs s0) + sum_Z (offboard_cost (offboard_feerate (co_data s0)) <$> co_offboards s0) <=
    inputs_total (co_inputs s0);
  rd_requests : ts_vtxos (tree_spec f) = vp_req <$> co_outputs s0 \/
    (co_outputs s0 = [] /\ exists r, ts_vtxos (tree_spec f) = [r] /\ req_amount (sr_vtxo r) = P2WSH_DUST);
  rd_outputs : exists tree_out conn_out change, funding_tx_txout (E:=unit) (tree_spec f) = Ok tree_out /\
    connector_output (E:=unit) (nb_inputs s0) (keypair_public_key (sf_connector_key f)) = Ok conn_out /\
    output tx = [tree_out; conn_out] ++ (to_txout <$> co_offboards s0) ++ change;
  rd_connectors : chain_new (E:=string) (nb_inputs s0) (mkOutPoint (compute_txid tx) ROUND_TX_CONNECTOR_VOUT)
    (keypair_public_key (sf_connector_key f)) = Ok (sf_connectors f);
  rd_vtxos : forall l r, ts_vtxos (tree_spec f) !! l = Some r ->
    exists v, build_vtxo (E:=SrvError) (sf_signed_vtxos f) l = Ok (Some v) /\ good tx v /\
      vtxo_of_request (tree_spec f) (mkOutPoint (compute_txid tx) ROUND_TX_VTXO_TREE_VOUT) r v /\ is_fully_signed v = true /\
      is_Some (tbl_vtxo db !! vtxo_id v);
  rd_round : exists r, tbl_round db !! round_id = Some r /\ sr_funding_txid r = compute_txid tx /\
    sr_signed_tree r = ct_spec (sf_signed_vtxos f) /\ sr_connector_key r = sf_connector_key f;
  rd_forfeits : forall id v, co_inputs s0 !! id = Some v -> server_pubkey v = keypair_public_key (server_key cfg) ->
    exists ff, forfeited_as db id round_id ff /\ enforceable (sf_connectors f) (sf_connector_key f) (server_key cfg) v ff;
}.
End Spec.

(** The tree is the same for every type of errors. *)
Lemma push_signatures_err {B : Bitcoin} {E F} txs : forall sigs out, push_signatures (E:=E) txs sigs = Ok out ->
  push_signatures (E:=F) txs sigs = Ok out.
Proof.
  induction txs as [|tx txs IH]; intros [|sig sigs] out H; [by apply Ok_inj in H as <-..|]. cbn [push_signatures] in *.
  apply bind_Ok in H as (tx' & Htx & H). apply bind_Ok in H as (rest & Hr%IH & <-%Ok_inj). rewrite Hr.
  unfold push_signature in *. by destruct (input tx); [|apply Ok_inj in Htx as <-].
Qed.

Section Success.
Context `{B : Bitcoin} `{C : !Consensus} `{S : !Signing B} `{P : !RoundWallet} `{F : !Fees}.
Context `{W : !WitnessLaws B} `{K : !KeyLaws B} `{M : !MusigLaws B} `{SL : !SigningLaws B}.

Lemma into_cached_tree_err {E E'} s t utxo u sigs c : spec_ok s -> new (nb_leaves s) = Some t -> utree_ok s t utxo u ->
  into_cached_tree (E:=E) (into_signed_tree u sigs) = Ok c -> into_cached_tree (E:=E') (into_signed_tree u sigs) = Ok c.
Proof.
  intros Hs Hnew Hu H. apply bind_Ok in H as (txs & Htxs & <-%Ok_inj). unfold into_cached_tree, all_signed_txs, signed_transactions in *.
  apply bind_Ok in Htxs as (utxs & Hutxs & Hpush). cbn [into_signed_tree st_spec st_utxo cosign_sigs] in *.
  rewrite (uo_spec _ _ _ _ Hu), (uo_utxo _ _ _ _ Hu) in *.
  destruct (unsigned_transactions_Ok s Hs t Hnew (E:=E) utxo) as (t1 & Ht1 & Hok1).
  destruct (unsigned_transactions_Ok s Hs t Hnew (E:=E') utxo) as (t2 & Ht2 & Hok2).
  assert (t1 = utxs) as -> by congruence. assert (t2 = utxs) as -> by (by eapply txs_ok_unique).
  rewrite Ht2. cbn [mbind outcome_bind]. by rewrite (push_signatures_err (F:=E') _ _ _ Hpush).
Qed.

Lemma finish_run a f w w' : finish a f w = (Ok tt, w') -> exists tx ffs, an_finish_tx a (sf_psbt f) = Ok tx /\
  rw_broadcast w' = rw_broadcast w ++ [tx] /\ rw_flux w' = rw_flux w /\
  mapM (forfeit_state_of (E:=RoundError) f (compute_txid tx)) (map_to_list (sf_inputs f)).*1 = Ok ffs /\
  finish_round (an_db_up a) (sf_round_seq f) tx (sf_signed_vtxos f) (sf_connector_key f) ffs (rw_db w) = (Ok tt, rw_db w').
Proof.
  intros H. apply bind_run_Ok in H as (tx & w1 & [= Htx <-] & H). apply map_err_Ok in Htx.
  apply bind_run_Ok in H as ([] & w2 & [= _ <-] & H). apply bind_run_Ok in H as ([] & w3 & [= <-] & H).
  apply bind_run_Ok in H as (ffs & w4 & [= Hffs <-] & H). unfold zoom, map_err_m in H. cbn [rw_db] in H.
  destruct (finish_round _ _ _ _ _ _ _) as [o db] eqn:E. injection H as Ho <-. apply map_err_Ok in Ho as ->. by exists tx, ffs.
Qed.

Lemma finish_flux a f w : rw_flux (finish a f w).2 = rw_flux w.
Proof.
  revert w. change (keeps (fun w w' => rw_flux w' = rw_flux w) (finish a f)).
  assert (PreOrder (fun w w' : RoundWorld => rw_flux w' = rw_flux w)) by (split; [by intros x|intros x y z; congruence]).
  unfold finish. solve_keeps; [done|]. intros w. unfold zoom. by destruct (map_err_m _ _ _).
Qed.

Lemma forfeit_states_Ok cfg s0 t f txid ffs : forfeits_inv cfg s0 t f ->
  mapM (forfeit_state_of (E:=RoundError) f txid) (map_to_list (sf_inputs f)).*1 = Ok ffs ->
  forall id v, sf_inputs f !! id = Some v -> exists uns sigs secs, (id, mkForfeitState txid uns sigs (sec_to_pub_nonce <$> secs) secs) ∈ ffs /\
    length secs = size (sf_inputs f) /\
    validate_forfeit_sigs v (sf_connectors f) (keypair_public_key (sf_connector_key f)) (sec_to_pub_nonce <$> secs) uns sigs = Ok tt.
Proof.
  intros Hf H id v Hv. assert (Hin : id ∈ (map_to_list (sf_inputs f)).*1).
  { apply list_elem_of_fmap. exists (id, v). split; [done|]. by apply elem_of_map_to_list. }
  apply list_elem_of_lookup_1 in Hin as [i Hi]. destruct (mapM_lookup _ _ _ _ _ H Hi) as ([id' ff] & Hff & Hs).
  apply bind_Ok in Hs as ([uns sigs] & Hp%expect_Ok & Hs). apply bind_Ok in Hs as (pubs & Hpub%expect_Ok & Hs).
  apply bind_Ok in Hs as (secs & Hsec%expect_Ok & [= <- <-]).
  destruct (fv_parts _ _ _ _ Hf _ _ Hp) as (v' & pubs' & Hv' & Hpub' & Hval). cbn [fst snd] in Hval.
  assert (v' = v) as -> by congruence. assert (pubs' = pubs) as -> by congruence.
  destruct (ff_same _ _ _ (fv_facts _ _ _ _ Hf)) as (Hins & _). rewrite Hins in *.
  destruct (ff_nonces _ _ _ (fv_facts _ _ _ _ Hf) id v Hv) as (secs' & Hsec' & Hpub'' & Hlen).
  assert (secs' = secs) as -> by congruence. assert (pubs = sec_to_pub_nonce <$> secs) as -> by congruence.
  exists uns, sigs, secs. split; [by eapply list_elem_of_lookup_2|]. done.
Qed.

(** As many connectors and nonces as inputs. *)
Lemma round_connectors cfg s0 t f : forfeits_inv cfg s0 t f -> exists n, size (sf_inputs f) = Datatypes.S n /\
  cc_len (sf_connectors f) = Z.of_nat (Datatypes.S n) /\ P2TR_DUST * cc_len (sf_connectors f) < 2 ^ 64.
Proof.
  intros Hf. destruct (fv_facts _ _ _ _ Hf) as [_ Hconn _ (Hins & _)].
  destruct (tf_tx _ _ _ (tv_facts _ _ _ (fv_tree _ _ _ _ Hf))) as (tx & o & c & change & _ & _ & _ & Hco & _).
  destruct (tf_inputs _ _ _ (tv_facts _ _ _ (fv_tree _ _ _ _ Hf))) as (Hins0 & _). rewrite Hins. rewrite Hins0 in *.
  apply connector_output_inv in Hco as (Hpos & Hsize & _); [|lia].
  apply bind_Ok in Hconn as ([] & _ & Hc). apply Ok_inj in Hc. destruct (size (co_inputs s0)) as [|n]; [lia|].
  exists n. by rewrite <- Hc.
Qed.

Lemma round_enforceable cfg s0 t f txid v uns sigs secs : forfeits_inv cfg s0 t f ->
  server_pubkey v = keypair_public_key (server_key cfg) -> length secs = size (sf_inputs f) ->
  validate_forfeit_sigs v (sf_connectors f) (keypair_public_key (sf_connector_key f)) (sec_to_pub_nonce <$> secs) uns sigs = Ok tt ->
  enforceable (sf_connectors f) (sf_connector_key f) (server_key cfg) v (mkForfeitState txid uns sigs (sec_to_pub_nonce <$> secs) secs).
Proof.
  intros Hf Hk Hlen Hval. destruct (round_connectors _ _ _ _ Hf) as (n & Hn & Hcl & Hsize). rewrite Hn in Hlen.
  pose proof Hval as Htr. unfold validate_forfeit_sigs in Htr. destruct (negb _ || negb _); [done|].
  apply bind_Ok in Htr as (tr & Htr & _). exists tr, (conn_list (sf_connectors f) n). split; [done|].
  split; [by apply connector_points_Ok|]. split; [by rewrite length_conn_list, Hcl|].
  intros idx conn r Hi. by eapply accepted_forfeit_finalizes.
Qed.

Lemma finish_done cfg s0 t f a w w' : answers_ok a -> forfeits_inv cfg s0 t f -> finish a f w = (Ok tt, w') ->
  exists tx, rw_broadcast w' = rw_broadcast w ++ [tx] /\ round_done cfg s0 f tx (length (tbl_round (rw_db w))) (rw_db w').
Proof.
  intros Ha Hf H. apply finish_run in H as (tx & ffs & Htx & Hb & _ & Hffs & Hfin). exists tx. split; [done|].
  pose proof (fv_tree _ _ _ _ Hf) as Ht. pose proof (tv_facts _ _ _ Ht) as Hfacts.
  destruct (fv_facts _ _ _ _ Hf) as [(sigs & Hver & Hct) Hconn _ (Hins & Hpsbt & Hckey & _)].
  destruct (tree_ok_of _ _ _ Hfacts) as [Hnew Hok]. destruct (tf_inputs _ _ _ Hfacts) as (Hins0 & _).
  destruct (tf_tx _ _ _ Hfacts) as (rtx & o & c & change & Hx & Htxid & Ho & Hc & Hout).
  rewrite Hpsbt in Htx. destruct (ao_finish _ Ha _ _ _ Hx Htx) as [Hid Houts]. rewrite <- Hid in Htxid. rewrite <- Houts in Hout.
  set (spec := ut_spec (vt_unsigned_tree t)) in *. set (utxo := mkOutPoint (vt_round_txid t) ROUND_TX_VTXO_TREE_VOUT) in *.
  apply (into_cached_tree_err (E':=SrvError) spec _ _ _ _ _ (tf_spec _ _ _ Hfacts) Hnew Hok) in Hct.
  assert (Hspec : st_spec (ct_spec (sf_signed_vtxos f)) = spec).
  { apply bind_Ok in Hct as (x & _ & Hct). by apply Ok_inj in Hct as <-. }
  destruct (finish_round_run _ _ _ _ _ _ _ _ Hfin) as (Hforf & (r & Hr & Hr1 & _ & Hr3 & Hr4) & (new & Hall & Hmem)).
  split; rewrite ?Hspec, ?Hckey, <- ?Htxid.
  - apply (ci_value _ (proj1 (tv_collected _ _ _ Ht))).
  - apply (tf_requests _ _ _ Hfacts).
  - exists o, c, change. done.
  - by rewrite <- Hins0.
  - intros l q Hq. destruct (build_vtxo_good (E:=SrvError) spec _ utxo _ sigs tx l q (tf_spec _ _ _ Hfacts) (tf_dust _ _ _ Hfacts) Hnew Hok Hver)
      as (c' & v & txs & Hc' & Hbv & Hg & Hreq & Hs & _); [|done|].
    { split; [done|]. exists o. split; [done|]. by rewrite Hout. }
    assert (c' = sf_signed_vtxos f) as -> by congruence. exists v. split; [done|]. split; [done|]. split; [done|]. split; [done|].
    apply Hmem. unfold all_vtxos in Hall. rewrite Hspec in Hall.
    destruct (mapM_lookup _ _ _ l l Hall) as (v' & Hv' & Hb'); [apply lookup_seq; split; [done|]; by eapply lookup_lt_Some|].
    rewrite Hbv in Hb'. cbn in Hb'. apply Ok_inj in Hb' as ->. by eapply list_elem_of_lookup_2.
  - exists r. rewrite Hr, lookup_app_r, Nat.sub_diag by done. split; [done|]. split; [congruence|]. rewrite Hr4. done.
  - intros id v Hv Hk. rewrite <- Hins0, <- Hins in Hv.
    destruct (forfeit_states_Ok cfg s0 t f _ ffs Hf Hffs id v Hv) as (uns & sg & secs & Hin & Hlen & Hval).
    eexists. split; [exact (proj1 (Forall_forall _ _) Hforf _ Hin)|]. rewrite <- Hckey. by eapply round_enforceable.
Qed.

(** ** Every state a round can reach *)
Lemma start_attempt_Ok s w st w' : start_attempt s w = (Ok st, w') -> st = StCollectingPayments (set_locked ∅ s).
Proof.
  intros H. apply bind_run_Ok in H as (fl & w1 & [= <- <-] & H). rewrite release_all_spec in H.
  apply bind_run_Ok in H as ([] & w2 & _ & [= <- _]). done.
Qed.

Lemma step_post_inv cfg a st w st' w' : step_post cfg a st w st' w' -> round_inv cfg st'.
Proof. intros [Hq|s0 t f r w1 Hf Hd Hl Hfin _ -> ->]; [apply (qu_inv _ _ _ _ _ Hq)|done]. Qed.

Lemma reachable_inv cfg fine st : reachable cfg fine st -> round_inv cfg st.
Proof.
  induction 1 as [seq d w st w' H|a ev st w st' w' _ IH Ha Hk _ H].
  - apply start_attempt_Ok in H as ->. by apply (collecting_new_inv seq 0 (round_data_of cfg) None).
  - destruct (decide (kind st = KFinishedSuccess)) as [Hs|Hs].
    + destruct st as [| | |[| | |]]; try done. by destruct ev; cbn in H; injection H as <- <-.
    + eapply step_post_inv, handle_runs; [done..| |exact H]. by intros ->.
Qed.


(** ** What a step does besides *)

(** C20. The round's own locks, and nothing else.  As long as the locks of a round
    are held, a step changes no lock of anybody else; the locks the next state
    names are held; and a round that has finished, with success or without,
    holds none.  Without success the database and the chain stay as they were. *)
Theorem round_step_locks (cfg : RoundConfig) (st : RoundState) (a : Answers) (ev : Event) (w : RoundWorld) (st' : RoundState) (w' : RoundWorld) :
  reachable cfg any_event st -> answers_ok a -> keys_ok (rw_db w) -> locked_of st ⊆ rw_flux w ->
  handle_event cfg a ev st w = (Ok st', w') ->
  locked_of st' ⊆ rw_flux w' /\ rw_flux w' ∖ locked_of st' = rw_flux w ∖ locked_of st /\
  (untouched w w' \/ kind st' = KFinishedSuccess \/ kind st' = KFinishedError).
Proof.
  intros Hr Ha Hk Hl H. apply reachable_inv in Hr. destruct (decide (kind st = KFinishedSuccess)) as [Hs|Hs].
  { destruct st as [| | |[| | |]]; try done. destruct ev; cbn in H; injection H as <- <-; split_and!; try done; by left. }
  destruct (handle_runs _ _ _ _ _ _ _ Ha Hk Hr ltac:(by intros ->) H) as [Hq|s0 t f r w1 _ _ Hlf Hfin Hp -> ->].
  { destruct (qu_flux _ _ _ _ _ Hq Hl) as [H1 H2]. split_and!; [done..|left; apply (qu_untouched _ _ _ _ _ Hq)]. }
  pose proof (finish_flux a f w) as Hfl. rewrite Hfin in Hfl. cbn in *. rewrite drop_lock_spec, Hfl, Hlf.
  split_and!; [set_solver|set_solver|]. right. destruct r; [by left|by right|done].
Qed.
End Success.

(** *** Witness: the sample VTXO is refreshed in a round of one user. *)
#[export] Instance sample_wallet : RoundWallet := {| Psbt := Transaction; extract_tx tx := Ok tx |}.

Definition sample_round_cfg : RoundConfig (B := model) :=
  mkRoundConfig (B := model) 2 144 12 0 None 1 (server_pubkey (B := model) sample_vtxo).
Definition sample_draws : Draws (B := model) :=
  mkDraws (B := model) (replicate 32 Byte.x01) Byte.x0a Byte.x0c Byte.x0d (fun i => Z.of_nat i) (fun i => 10 + Z.of_nat i)
    (fun _ i => 20 + Z.of_nat i).
Definition sample_answers : Answers (B := model) (P := sample_wallet) :=
  mkAnswers (B := model) (P := sample_wallet) 100
    (fun p => Ok (mkTx 2 0 [mkTxIn (mkOutPoint (replicate 32 Byte.x33) 0) [] 0 []] (tp_recipients p)))
    (fun tx => Ok tx) true true (fun _ => Ok TxStatus.NotFound) true sample_draws.
Definition sample_world : RoundWorld (B := model) := mkRoundWorld (B := model) ∅ col_db [].

Notation sample_step := (handle_event (B := model) (P := sample_wallet) (F := col_fees) sample_round_cfg sample_answers).

(** The state after a run, and whether it returned. *)
Definition ended {St Err A} (r : outcome Err A * St) (a : A) : A := match r.1 with Ok b => b | _ => a end.

Lemma ended_ok {St Err A} (r : outcome Err A * St) a : is_ok r.1 = true -> r = (Ok (ended r a), r.2).
Proof. by destruct r as [[|e|] s]. Qed.

Definition sample_st0 : RoundState (B := model) (P := sample_wallet) :=
  ended (start_round (B := model) (P := sample_wallet) sample_round_cfg 1 sample_draws sample_world) (StFinished REmpty).
Definition sample_ev1 : Event (B := model) := EvInput (RegisterPayment (B := model) [col_input] [col_out] []).
Definition sample_st1 := ended (sample_step sample_ev1 sample_st0 sample_world) sample_st0.
Definition sample_ev2 : Event (B := model) :=
  match sample_st1 with
  | StSigningVtxoTree t =>
      EvInput (VtxoSignatures (B := model) Byte.x0b
        (ok_value [] (cosign_branch (B := model) (vt_unsigned_tree t) (vt_cosign_agg_nonces t) 0 Byte.x0b [1; 2])))
  | _ => EvTimeout
  end.
Definition sample_st2 := ended (sample_step sample_ev2 sample_st1 sample_world) sample_st0.
Definition sample_ev3 : Event (B := model) :=
  match sample_st2 with
  | StSigningForfeits f =>
      let id := vtxo_id (B := model) sample_vtxo in
      let sigs := ok_value [] (sign_vtxo_forfeits (B := model) sample_vtxo Byte.x07 Byte.x09
        (keypair_public_key (Bitcoin := model) (sf_connector_key f)) (sf_pub_nonces f !! id) (fun _ => 50) (sf_connectors f)) in
      EvInput (ForfeitSignatures (B := model) [(id, sigs.*1, sigs.*2)])
  | _ => EvTimeout
  end.

Lemma sample_answers_ok : answers_ok (B := model) (P := sample_wallet) sample_answers.
Proof.
  split; [|by intros psbt tx stx [= <-] [= <-]]. intros p psbt tx [= <-] [= <-]. exists []. by rewrite app_nil_r.
Qed.

Lemma sample_keys_ok : keys_ok (B := model) (rw_db sample_world).
Proof.
  eapply (keys_ok_le (B := model)); [apply (db_upsert_keeps (B := model))|]. intros id v Hv. cbn in Hv. by rewrite lookup_empty in Hv.
Qed.

Lemma sample_reach fine : fine sample_ev1 -> reachable (B := model) (P := sample_wallet) (F := col_fees) sample_round_cfg fine sample_st1.
Proof.
  intros Hf. apply (reach_step (B := model) (P := sample_wallet) (F := col_fees) sample_round_cfg fine sample_answers sample_ev1
    sample_st0 sample_world sample_st1 (sample_step sample_ev1 sample_st0 sample_world).2).
  - eapply (reach_start (B := model) (P := sample_wallet) (F := col_fees) _ _ 1 sample_draws sample_world), ended_ok. vm_compute. reflexivity.
  - apply sample_answers_ok.
  - apply sample_keys_ok.
  - exact Hf.
  - apply ended_ok. vm_compute. reflexivity.
Qed.

Lemma sample_reach2 : reachable (B := model) (P := sample_wallet) (F := col_fees) sample_round_cfg any_event sample_st2.
Proof.
  eapply (reach_step (B := model) (P := sample_wallet) (F := col_fees) sample_round_cfg any_event sample_answers sample_ev2
    sample_st1 sample_world sample_st2).
  - by apply sample_reach.
  - apply sample_answers_ok.
  - apply sample_keys_ok.
  - done.
  - apply ended_ok. vm_compute. reflexivity.
Qed.

Lemma kind_success (st : RoundState (B := model) (P := sample_wallet)) : kind (B := model) st = KFinishedSuccess -> st = StFinished RSuccess.
Proof. by destruct st as [| | |[]]. Qed.


Lemma round_step_locks_witness :
  let w' := (sample_step sample_ev1 sample_st0 sample_world).2 in
  locked_of (B := model) sample_st1 ⊆ rw_flux w' /\
  rw_flux w' ∖ locked_of (B := model) sample_st1 = rw_flux (B := model) sample_world ∖ locked_of (B := model) sample_st0 /\
  (untouched (B := model) sample_world w' \/ kind (B := model) sample_st1 = KFinishedSuccess \/ kind (B := model) sample_st1 = KFinishedError).
Proof.
  apply (round_step_locks (B := model) (P := sample_wallet) (F := col_fees) sample_round_cfg sample_st0 sample_answers sample_ev1 sample_world).
  - eapply (reach_start (B := model) (P := sample_wallet) (F := col_fees) _ _ 1 sample_draws sample_world), ended_ok. vm_compute. reflexivity.
  - apply sample_answers_ok.
  - apply sample_keys_ok.
  - apply (bool_decide_unpack _). vm_compute. exact I.
  - apply ended_ok. vm_compute. reflexivity.
Defined.
