(* ===== verification/RoundTermination.v ===== *)
(** * Rounds of the server: every round ends

    An attempt that does not complete is restarted without the inputs of those
    who did not sign.  When every request names an input and a cosign key for
    each output, as the RPC interface ensures for the keys, each restart leaves
    fewer inputs, so a bounded number of timeouts ends the round.  A request
    without inputs, which is accepted for HTLC outputs, breaks the argument. *)
From stdpp Require Import gmap.
From S2P Require Import Prelude Keyed Effects Tree Bitcoin Encode Concrete Policy Vtxo Validation Board Extend Arkoor.
From S2P Require Import SignedTree TreeTxs TreeVtxos TreeCosign ChainSource Flux Rounds Connectors Forfeit ServerDb RoundCollect.
From S2P Require Import RoundSigning ServerRound RoundSafety RoundOutcome RoundSuccess.

Open Scope Z_scope.

Section Spec.
Context `{B : Bitcoin} `{C : !Consensus} `{S : !Signing B} `{P : !RoundWallet} `{F : !Fees}.

(** A run of the round from one state to another. *)
Inductive run (cfg : RoundConfig) : list Event -> RoundState -> RoundState -> Prop :=
  | run_nil st : run cfg [] st st
  | run_cons a ev evs st w st1 w1 st2 : answers_ok a -> keys_ok (rw_db w) -> handle_event cfg a ev st w = (Ok st1, w1) ->
      run cfg evs st1 st2 -> run cfg (ev :: evs) st st2.

Fixpoint timeouts (evs : list Event) : nat :=
  match evs with
  | [] => 0
  | EvTimeout :: evs => Datatypes.S (timeouts evs)
  | EvInput _ :: evs => timeouts evs
  end.

(** A request pays for its outputs and every output has a cosigner. *)
Definition polite (ev : Event) : Prop :=
  match ev with
  | EvInput (RegisterPayment ins reqs _) => ins <> [] /\ Forall (fun o => cosign_pubkey (vp_req o) <> None) reqs
  | _ => True
  end.

(** How many timeouts a round can still take; the first attempt is open to all. *)
Definition budget (st : RoundState) : option nat :=
  match st with
  | StCollectingPayments s => (fun allowed : gset VtxoId => 3 * size allowed + 3)%nat <$> co_allowed s
  | StSigningVtxoTree t => Some (3 * size (vt_inputs t) + 2)%nat
  | StSigningForfeits f => Some (3 * size (sf_inputs f) + 1)%nat
  | StFinished _ => Some 0%nat
  end.

Definition owners_paid (m : list (PublicKey * list VtxoId)) : Prop := forall pk l, kget m pk = Some l -> l <> [].

(** Somebody can always be excluded. *)
Definition fair (st : RoundState) : Prop :=
  match st with
  | StCollectingPayments s => owners_paid (co_inputs_per_cosigner s) /\ Forall (fun o => cosign_pubkey (vp_req o) <> None) (co_outputs s)
  | StSigningVtxoTree t => owners_paid (vt_inputs_per_cosigner t) /\
      (forall r, r ∈ ts_vtxos (ut_spec (vt_unsigned_tree t)) -> exists pk, cosign_pubkey r = Some pk /\ pk ∈ (vt_inputs_per_cosigner t).*1) /\
      length (vt_cosign_part_sigs t) <> tree_nb_leaves (ut_tree (vt_unsigned_tree t))
  | StSigningForfeits f => size (sf_part_sigs f) <> size (sf_inputs f)
  | StFinished _ => True
  end.
End Spec.

Section Steps.
Context `{B : Bitcoin} `{C : !Consensus} `{S : !Signing B} `{P : !RoundWallet} `{F : !Fees}.
Context `{W : !WitnessLaws B} `{K : !KeyLaws B} `{M : !MusigLaws B}.

(** ** Who signed stays, and nobody else *)
Lemma signed_inputs_spec (t : SigningVtxoTree) : signed_inputs t ⊆ dom (vt_inputs t) /\
  (forall pk l, (pk, l) ∈ vt_inputs_per_cosigner t -> kget (vt_cosign_part_sigs t) pk = None -> signed_inputs t ## list_to_set l) /\
  ((forall pk l, (pk, l) ∈ vt_inputs_per_cosigner t -> kget (vt_cosign_part_sigs t) pk = None -> l = []) ->
    signed_inputs t = dom (vt_inputs t)).
Proof.
  unfold signed_inputs. generalize (dom (vt_inputs t) : gset VtxoId) as d.
  induction (vt_inputs_per_cosigner t) as [|[pk l] m IH]; intros d.
  - split_and!; [done| |done]. intros pk l Hin. by apply elem_of_nil in Hin.
  - cbn [foldl fst snd]. destruct (kget (vt_cosign_part_sigs t) pk) eqn:Hpk.
    + destruct (IH d) as (H1 & H2 & H3). split_and!; [done| |].
      * intros pk' l' [[= -> ->]|Hin]%elem_of_cons Hn; [congruence|]. by eapply H2.
      * intros H. apply H3. intros pk' l' Hin. apply H. by right.
    + destruct (IH (d ∖ list_to_set l)) as (H1 & H2 & H3). split_and!; [set_solver| |].
      * intros pk' l' [[= -> ->]|Hin]%elem_of_cons Hn; [set_solver|by eapply H2].
      * intros H. rewrite H3; [|intros pk' l' Hin; apply H; by right]. rewrite (H pk l ltac:(left) Hpk). set_solver.
Qed.

Definition has_signed (t : SigningVtxoTree) (r : SignedVtxoRequest) : bool :=
  match cosign_pubkey r with
  | Some pk => match kget (vt_cosign_part_sigs t) pk with Some _ => true | None => false end
  | None => false
  end.

(** When all have signed there are as many signers as leaves. *)
Lemma all_have_signed cfg s0 t : tree_inv cfg s0 t -> Forall (fun r => has_signed t r = true) (ts_vtxos (ut_spec (vt_unsigned_tree t))) ->
  length (vt_cosign_part_sigs t) = tree_nb_leaves (ut_tree (vt_unsigned_tree t)).
Proof.
  intros Ht Hall. destruct (tree_ok_of _ _ _ (tv_facts _ _ _ Ht)) as [Hnew _].
  rewrite (ok_leaves _ _ (proj2 (new_tree_ok _ _ Hnew))). unfold nb_leaves. rewrite <- (length_fmap fst).
  assert (Hp : (vt_cosign_part_sigs t).*1 ≡ₚ omap cosign_pubkey (ts_vtxos (ut_spec (vt_unsigned_tree t)))).
  { apply NoDup_Permutation; [apply (tv_keys _ _ _ Ht)|apply (tf_keys _ _ _ (tv_facts _ _ _ Ht))|]. intros pk. split.
    - intros [sigs Hs]%kget_is_Some. destruct (tv_parts _ _ _ Ht pk sigs Hs) as (r & Hr & Hk & _). apply list_elem_of_omap. eauto.
    - intros (r & Hr & Hk)%list_elem_of_omap. rewrite Forall_forall in Hall. specialize (Hall r Hr). unfold has_signed in Hall.
      rewrite Hk in Hall. apply kget_is_Some. by destruct (kget _ _). }
  rewrite (Permutation_length Hp). clear -Hall. induction Hall as [|r reqs Hr _ IH]; [done|]. cbn. unfold has_signed in Hr.
  destruct (cosign_pubkey r); [|done]. cbn. by f_equal.
Qed.

(** While signatures are missing, somebody's inputs are excluded. *)
Lemma signed_inputs_shrink cfg s0 t : tree_inv cfg s0 t -> fair (StSigningVtxoTree t) -> (size (signed_inputs t) < size (vt_inputs t))%nat.
Proof.
  intros Ht (Hpaid & Hkeys & Hlen). destruct (tf_inputs _ _ _ (tv_facts _ _ _ Ht)) as (Hi & Hc & _).
  destruct (decide (Forall (fun r => has_signed t r = true) (ts_vtxos (ut_spec (vt_unsigned_tree t))))) as [Hall|Hn].
  { by destruct Hlen; eapply all_have_signed. }
  apply not_Forall_Exists in Hn; [|apply _]. apply Exists_exists in Hn as (r & Hr & Hn). cbn in Hn.
  destruct (Hkeys r Hr) as (pk & Hk & Hin). unfold has_signed in Hn. rewrite Hk in Hn.
  destruct (kget (vt_cosign_part_sigs t) pk) eqn:Hs; [done|].
  apply kget_is_Some in Hin as [l Hl]. pose proof (Hpaid pk l Hl) as Hne. pose proof (kget_Some_elem _ _ _ Hl) as Hin.
  destruct (signed_inputs_spec t) as (H1 & H2 & _). specialize (H2 pk l Hin Hs). destruct l as [|id l]; [done|].
  rewrite Hc in Hl. pose proof (ci_owned _ (proj1 (tv_collected _ _ _ Ht)) pk _ Hl) as Ho. rewrite <- Hi in Ho.
  apply Forall_cons in Ho as [Ho _]. rewrite <- (size_dom (D := gset VtxoId)). apply subset_size. set_solver.
Qed.

(** Likewise for the forfeits. *)
Lemma forfeits_shrink cfg s0 t f : forfeits_inv cfg s0 t f -> fair (StSigningForfeits f) ->
  (size (dom (sf_inputs f) ∩ dom (sf_part_sigs f) : gset VtxoId) < size (sf_inputs f))%nat.
Proof.
  intros Hf Hne. cbn in Hne. rewrite <- (size_dom (D := gset VtxoId) (sf_inputs f)).
  assert (Hsub : dom (sf_part_sigs f) ⊆@{gset VtxoId} dom (sf_inputs f)).
  { intros id [sigs Hid]%elem_of_dom. destruct (fv_parts _ _ _ _ Hf id sigs Hid) as (v & _ & Hv & _). apply elem_of_dom. by eexists. }
  rewrite <- !(size_dom (D := gset VtxoId)) in Hne. apply subset_size. split; [set_solver|]. intros H. apply Hne. f_equal. set_solver.
Qed.

(** ** One step *)
Definition within (st : RoundState) (n : nat) : Prop := fair st /\ exists b, budget st = Some b /\ (b <= n)%nat.

Lemma within_le st n m : within st n -> (n <= m)%nat -> within st m.
Proof. intros (Hf & b & Hb & Hn) Hm. split; [done|]. exists b. split; [done|lia]. Qed.

Lemma within_finished r n : within (StFinished r) n.
Proof. split; [done|]. exists 0%nat. split; [done|lia]. Qed.

Lemma into_finished_Ok l r w st w' : into_finished l r w = (Ok st, w') -> st = StFinished r.
Proof. intros H. by apply bind_run_Ok in H as ([] & w1 & [= <-] & [= <- _]). Qed.

Lemma reply_Ok a st w st' w' : reply a st w = (Ok st', w') -> st' = st.
Proof. intros H. by apply bind_run_Ok in H as (u & w1 & _ & [= <- _]). Qed.

Lemma next_attempt_within seq att data locked allowed common ch key w st w' :
  next_attempt (collecting_new seq att data locked (Some allowed) common ch key) w = (Ok st, w') -> within st (3 * size allowed + 3).
Proof.
  intros H. unfold next_attempt in H. apply bind_run_Ok in H as (b & w1 & _ & H).
  destruct b; [apply into_finished_Ok in H as ->; apply within_finished|]. apply start_attempt_Ok in H as ->.
  split; [by split; [intros pk l Hl|apply Forall_nil_2]|]. by eexists.
Qed.

Lemma close_signing_within cfg a s0 t w st w' : tree_inv cfg s0 t -> (vt_proceed t = false -> fair (StSigningVtxoTree t)) ->
  close_signing cfg a t w = (Ok st, w') -> within st (3 * size (vt_inputs t) + 2).
Proof.
  intros Ht Hfair H. unfold close_signing in H. destruct (vt_proceed t) eqn:Hp.
  - destruct (tree_progress_total cfg (an_draws a) s0 t Ht Hp) as (f & Hf & Hff & Hparts & _).
    apply bind_run_Ok in H as (f' & w1 & [Hi ->]%run_infallible & [= <- <-]). rewrite Hf in Hi. injection Hi as <-.
    destruct (ff_same _ _ _ Hff) as (Hins & _). destruct (tf_inputs _ _ _ (tv_facts _ _ _ Ht)) as (Hi0 & _).
    pose proof (inputs_nonempty _ (proj2 (tv_collected _ _ _ Ht))) as Hne. rewrite <- Hi0, <- Hins in Hne. split.
    + cbn -[size]. rewrite Hparts, map_size_empty. done.
    + eexists. split; [reflexivity|]. rewrite Hins. lia.
  - injection H as <- <-. split; [by apply Hfair|]. by eexists.
Qed.

(** A tree that is not complete at once has an owner for each leaf. *)
Lemma progress_fair a cfg s0 t : answers_ok a -> co_inv s0 -> collecting_progress a cfg s0 = Ok t ->
  fair (StCollectingPayments s0) -> vt_proceed t = false -> fair (StSigningVtxoTree t).
Proof.
  intros Ha Hs H [Hpaid Hkeys] Hp. pose proof (progress_facts _ _ _ _ Ha Hs H) as Hf.
  destruct (tf_inputs _ _ _ Hf) as (_ & Hc & _). destruct (tree_ok_of _ _ _ Hf) as [Hnew _].
  assert (Hparts : vt_cosign_part_sigs t = [] /\ ts_vtxos (ut_spec (vt_unsigned_tree t)) = vp_req <$> co_outputs s0).
  { unfold collecting_progress in H. apply bind_Ok in H as (eh & _ & H). apply bind_Ok in H as ([outs change] & Hch & H).
    apply bind_Ok in H as (spec & Hspec & H). apply bind_Ok in Hspec as (u0 & _ & [= <-]).
    apply bind_Ok in H as (nb & _ & H). apply bind_Ok in H as (u1 & _ & H).
    apply bind_Ok in H as (c & _ & H). apply bind_Ok in H as ([psbt tx] & _ & H). apply bind_Ok in H as (common & _ & H).
    apply bind_Ok in H as (aggs & _ & H). apply bind_Ok in H as (u & Hu & H).
    apply bind_Ok in H as ([parts pr] & Hsc & [= <-]). cbn -[nonce_pairs_for kget] in *. unfold into_unsigned_tree in Hu.
    destruct (unsigned_tree_new_spec _ _ _ Hu) as [Hus _]. rewrite Hus. unfold sign_change in Hsc.
    destruct change as [[p sec]|]; [apply bind_Ok in Hsc as (? & _ & Hsc); apply bind_Ok in Hsc as (? & _ & [= _ <-]); done|].
    injection Hsc as <- _. split; [done|]. unfold with_change in Hch. destruct (bool_decide _); [|by injection Hch as <-].
    by apply bind_Ok in Hch as (? & _ & [=]). }
  destruct Hparts as [Hparts Hreqs]. split; [by rewrite Hc|]. split.
  - rewrite Hreqs, Hc. intros r (o & -> & Ho)%list_elem_of_fmap. rewrite Forall_forall in Hkeys. specialize (Hkeys o Ho).
    destruct (cosign_pubkey (vp_req o)) as [pk|] eqn:Hk; [|done]. exists pk. split; [done|]. rewrite (ci_cosigners _ Hs).
    apply list_elem_of_omap. eauto.
  - rewrite Hparts, (ok_leaves _ _ (proj2 (new_tree_ok _ _ Hnew))). pose proof (proj1 (new_tree_ok _ _ Hnew)). cbn. lia.
Qed.

Lemma close_collecting_within cfg a s w st w' : answers_ok a -> co_inv s -> fair (StCollectingPayments s) ->
  close_collecting cfg a s w = (Ok st, w') -> within st (3 * size (co_inputs s) + 2).
Proof.
  intros Ha Hs Hfair H. unfold close_collecting in H. apply bind_run_Ok in H as (z & w1 & [_ ->]%run_infallible & H).
  destruct (have_payments s) eqn:Hh; cbn [negb] in H; [|apply into_finished_Ok in H as ->; apply within_finished].
  apply bind_run_Ok in H as (r & w2 & Hr & H). unfold try_m, Effects.lift in Hr. cbn in Hr.
  destruct (collecting_progress a cfg s) as [t|e|] eqn:Hp; [| |done]; injection Hr as <- <-.
  - pose proof (progress_inv _ _ _ _ Ha Hs Hh Hp) as Ht. destruct (tf_inputs _ _ _ (tv_facts _ _ _ Ht)) as (<- & _).
    eapply close_signing_within; [exact Ht| |exact H]. by eapply progress_fair.
  - apply into_finished_Ok in H as ->. apply within_finished.
Qed.

Lemma process_fair a s ins reqs offs w s' w' : co_inv s -> keys_ok (rw_db w) -> fair (StCollectingPayments s) ->
  polite (EvInput (RegisterPayment ins reqs offs)) -> process a s ins reqs offs w = (Ok (inr s'), w') ->
  co_inv s' /\ fair (StCollectingPayments s') /\ co_allowed s' = co_allowed s.
Proof.
  intros Hs Hk [Hpaid Hkeys] [Hne Hreqs] H. apply bind_run_Ok in H as (db & w1 & [= <- <-] & H). unfold zoom, try_m in H.
  pose proof (process_payment_spec s (an_db_up a) (rw_db w) (an_tx_status a) ins reqs offs (rw_flux w) Hs Hk) as Hp.
  destruct (process_payment s (an_db_up a) (rw_db w) (an_tx_status a) ins reqs offs (rw_flux w)) as [[s1|e|] fl] eqn:E; cbn in H; [|done..].
  injection H as -> _. destruct Hp as (Hs' & _ & (vs & Hids & _ & Hr) & _). split; [done|]. destruct (rg_attempt _ _ _ _ _ Hr) as (_ & Ha & _).
  split; [|done]. split.
  - intros pk l [Hl| ->]%(rg_cosigners _ _ _ _ _ Hr); [by eapply Hpaid|]. rewrite Hids. by destruct ins.
  - rewrite (rg_outputs _ _ _ _ _ Hr). by apply Forall_app.
Qed.

(** At most the budget, and less after a timeout. *)
Definition spends (st st' : RoundState) (cost : nat) : Prop :=
  fair st' /\ forall n, budget st = Some n -> exists b, budget st' = Some b /\ (b <= n - cost)%nat.

Lemma within_spends st st' n cost : within st' n -> (forall m, budget st = Some m -> (n <= m - cost)%nat) -> spends st st' cost.
Proof. intros (Hf & b & Hb & Hn) H. split; [done|]. intros m Hm. exists b. split; [done|]. specialize (H m Hm). lia. Qed.

Lemma spends_refl st : fair st -> spends st st 0.
Proof. intros H. split; [done|]. intros n Hn. exists n. split; [done|lia]. Qed.

Lemma collected_size s allowed : co_inv s -> co_allowed s = Some allowed -> (size (co_inputs s) <= size allowed)%nat.
Proof. intros Hs Ha. rewrite <- (size_dom (D := gset VtxoId)). apply subseteq_size, (ci_allowed _ Hs _ Ha). Qed.

Lemma timeout_spends cfg a st w st' w' : answers_ok a -> round_inv cfg st -> fair st ->
  handle_event cfg a EvTimeout st w = (Ok st', w') -> spends st st' 1 /\ is_Some (budget st').
Proof.
  intros Ha Hi Hf H.
  assert (Hw : exists n, within st' n /\ forall m, budget st = Some m -> (n <= m - 1)%nat).
  2: { destruct Hw as (n & Hw & Hn). split; [by eapply within_spends|]. destruct Hw as (_ & b & -> & _). by eexists. }
  destruct st as [s|t|f|r]; cbn [handle_event on_collecting on_signing_tree on_signing_forfeits] in H.
  - eexists. split; [by eapply close_collecting_within|]. intros m Hm. apply fmap_Some in Hm as (allowed & Hall & ->).
    pose proof (collected_size _ _ Hi Hall). lia.
  - destruct Hi as [_ (s0 & Ht)]. eexists. split; [by eapply next_attempt_within|].
    pose proof (signed_inputs_shrink _ _ _ Ht Hf). intros m [= <-]. lia.
  - destruct Hi as [_ (s0 & t & Hff)]. eexists. split; [by eapply next_attempt_within|].
    pose proof (forfeits_shrink _ _ _ _ Hff Hf). intros m [= <-]. lia.
  - injection H as <- <-. exists 0%nat. split; [apply within_finished|]. lia.
Qed.

Lemma input_spends cfg a i st w st' w' : answers_ok a -> keys_ok (rw_db w) -> round_inv cfg st -> fair st -> polite (EvInput i) ->
  handle_event cfg a (EvInput i) st w = (Ok st', w') -> spends st st' 0.
Proof.
  intros Ha Hk Hi Hf Hpol H. destruct st as [s|t|f|r].
  - destruct i as [ins reqs offs| |]; cbn [handle_event on_collecting on_signing_tree on_signing_forfeits] in H; [|by apply reply_Ok in H as ->; apply spends_refl..].
    apply bind_run_Ok in H as (r & w1 & Hr & H). destruct r as [e|s']; [by apply reply_Ok in H as ->; apply spends_refl|].
    destruct (process_fair _ _ _ _ _ _ _ _ Hi Hk Hf Hpol Hr) as (Hs' & Hf' & Hall). destruct (co_proceed s').
    + eapply within_spends; [by eapply close_collecting_within|]. intros m Hm. apply fmap_Some in Hm as (allowed & Hal & ->).
      rewrite <- Hall in Hal. pose proof (collected_size _ _ Hs' Hal). lia.
    + injection H as <- _. split; [done|]. intros n Hn. exists n. cbn in *. rewrite Hall. split; [done|lia].
  - destruct i as [|pk sigs|]; cbn [handle_event on_collecting on_signing_tree on_signing_forfeits] in H; [by apply reply_Ok in H as ->; apply spends_refl| |by apply reply_Ok in H as ->; apply spends_refl].
    destruct Hi as [_ (s0 & Ht)]. apply bind_run_Ok in H as (r & w1 & Hr & H). unfold try_m, map_err_m, Effects.lift in Hr. cbn in Hr.
    destruct (register_signature t pk sigs) as [t'|e|] eqn:E; [| |done]; injection Hr as <- <-; [|by apply reply_Ok in H as ->; apply spends_refl].
    pose proof (register_signature_inv _ _ _ _ _ _ Ht E) as Ht'. eapply within_spends; [eapply close_signing_within; [exact Ht'| |exact H]|].
    + intros Hp. apply bind_Ok in E as (? & _ & E). apply bind_Ok in E as (? & _ & E). apply bind_Ok in E as (? & _ & E).
      apply bind_Ok in E as (? & _ & [= <-]). destruct Hf as (H1 & H2 & _). split; [done|]. split; [done|].
      by apply orb_false_iff in Hp as [_ Hp%bool_decide_eq_false].
    + intros m [= <-]. apply bind_Ok in E as (? & _ & E). apply bind_Ok in E as (? & _ & E). apply bind_Ok in E as (? & _ & E).
      apply bind_Ok in E as (? & _ & [= <-]). cbn. lia.
  - destruct i as [| |sigs]; cbn [handle_event on_collecting on_signing_tree on_signing_forfeits] in H; [by apply reply_Ok in H as ->; apply spends_refl..|].
    destruct Hi as [_ (s0 & t & Hff)]. apply bind_run_Ok in H as (f' & w1 & [Hr ->]%run_infallible & H).
    pose proof (register_forfeits_inv _ _ _ _ _ _ Hff Hr) as Hff'. apply bind_Ok in Hr as (m & _ & [= <-]).
    destruct (sf_proceed (set_forfeit_sigs _ _ _)) eqn:Hp.
    + unfold close_forfeits, check_forfeits in H. rewrite (fv_proceed _ _ _ _ Hff' Hp), bool_decide_true in H by set_solver.
      apply bind_run_Ok in H as (r & w2 & _ & H). apply into_finished_Ok in H as ->.
      eapply within_spends; [apply (within_finished _ 0)|]. lia.
    + injection H as <- _. split; [by apply orb_false_iff in Hp as [_ Hp%bool_decide_eq_false]|]. intros n [= <-].
      eexists. split; [reflexivity|]. cbn. lia.
  - cbn in H. injection H as <- _. by apply spends_refl.
Qed.

(** ** Runs *)
Lemma reachable_fair cfg st : reachable cfg polite st -> fair st.
Proof.
  induction 1 as [seq d w st w' H|a [|i] st w st' w' Hr IH Ha Hk Hp H].
  - apply start_attempt_Ok in H as ->. by split; [intros pk l Hl|apply Forall_nil_2].
  - by eapply timeout_spends; [exact Ha|by eapply reachable_inv|exact IH|].
  - by eapply input_spends; [exact Ha|exact Hk|by eapply reachable_inv|exact IH|..].
Qed.

Lemma run_spends cfg evs st st' : run cfg evs st st' -> reachable cfg polite st -> Forall polite evs -> spends st st' (timeouts evs).
Proof.
  induction 1 as [st|a ev evs st w st1 w1 st2 Ha Hk H _ IH]; intros Hr Hp; [by apply spends_refl, (reachable_fair cfg)|].
  apply Forall_cons in Hp as [Hp Hps]. pose proof (reachable_inv _ _ _ Hr) as Hi. pose proof (reachable_fair _ _ Hr) as Hf.
  destruct (IH ltac:(by eapply reach_step) Hps) as [Hf2 H2].
  assert (Hs : spends st st1 (timeouts [ev])).
  { destruct ev; [by eapply timeout_spends|]. by eapply input_spends. }
  destruct Hs as [_ H1]. split; [done|]. intros n Hn. destruct (H1 n Hn) as (b & Hb & Hle). destruct (H2 b Hb) as (b2 & Hb2 & Hle2).
  exists b2. split; [done|]. destruct ev; cbn in *; lia.
Qed.

(** C18. Every round ends.  When every request names an input and every output
    a cosign key, then from any state after the first attempt was closed at most
    three timeouts for each input (and one for each stage) end the round,
    whatever the users send in between, whether they sign or not. *)
Theorem round_terminates (cfg : RoundConfig) (evs : list Event) (st st' : RoundState) n : reachable cfg polite st -> budget st = Some n ->
  run cfg evs st st' -> Forall polite evs -> (n <= timeouts evs)%nat -> exists r, st' = StFinished r.
Proof.
  intros Hr Hn Hrun Hp Hle. destruct (run_spends _ _ _ _ Hrun Hr Hp) as [_ H]. destruct (H n Hn) as (b & Hb & Hb0).
  assert (b = 0%nat) as -> by lia. destruct st' as [s|t|f|r]; [|cbn in Hb; injection Hb as Hb; lia..|by exists r].
  cbn in Hb. destruct (co_allowed s); [|done]. injection Hb as Hb. lia.
Qed.

(** Outputs without inputs are never excluded: when only their owners did not
    sign, a restart asks everybody again and allows the same inputs. *)
Lemma free_outputs_stall (d : Draws) (t : SigningVtxoTree) :
  (forall pk l, (pk, l) ∈ vt_inputs_per_cosigner t -> kget (vt_cosign_part_sigs t) pk = None -> l = []) ->
  co_allowed (tree_restart d t) = Some (dom (vt_inputs t)).
Proof. intros H. cbn. f_equal. by apply signed_inputs_spec. Qed.
End Steps.

(** *** Witness: the user of the sample round never signs. *)
Definition sample_abandoned : RoundState (B := model) (P := sample_wallet) :=
  ended (sample_step EvTimeout sample_st1 sample_world) sample_st0.

Lemma finished_run n r : run (B := model) (P := sample_wallet) (F := col_fees) sample_round_cfg (replicate n EvTimeout) (StFinished r) (StFinished r).
Proof.
  induction n as [|n IH]; [constructor|].
  apply (run_cons (B := model) (P := sample_wallet) (F := col_fees) sample_round_cfg sample_answers EvTimeout (replicate n EvTimeout) (StFinished r) sample_world (StFinished r) sample_world (StFinished r));
    [apply sample_answers_ok|apply sample_keys_ok|done|exact IH].
Qed.

Lemma round_terminates_witness : exists r, sample_abandoned = StFinished r.
Proof.
  apply (round_terminates (B := model) (P := sample_wallet) (F := col_fees) sample_round_cfg (replicate 5 EvTimeout) sample_st1 sample_abandoned 5).
  - apply sample_reach. split; [discriminate|]. repeat constructor. discriminate.
  - vm_compute. reflexivity.
  - assert (Hs : sample_abandoned = StFinished RAbandoned).
    { assert (Hk : kind (B := model) sample_abandoned = KFinishedAbandoned) by (vm_compute; reflexivity).
      by destruct sample_abandoned as [| | |[| | |]]. }
    apply (run_cons (B := model) (P := sample_wallet) (F := col_fees) sample_round_cfg sample_answers EvTimeout (replicate 4 EvTimeout) sample_st1 sample_world
      sample_abandoned (sample_step EvTimeout sample_st1 sample_world).2 sample_abandoned).
    + apply sample_answers_ok.
    + apply sample_keys_ok.
    + apply ended_ok. vm_compute. reflexivity.
    + rewrite Hs. apply finished_run.
  - by repeat constructor.
  - apply le_n.
Defined.
