(* ===== verification/RoundPanics.v ===== *)
(** * Rounds of the server: the coordinator does not panic

    [perform_round] runs in the one task that does the rounds, so a message that
    made it panic would stop all of them.  No message a user sends while the
    tree or the forfeits are signed can, nor the timeouts. *)
From stdpp Require Import gmap.
From S2P Require Import Prelude Keyed Effects Tree Bitcoin Encode Concrete Policy Vtxo Validation Board Extend Arkoor.
From S2P Require Import SignedTree TreeTxs TreeVtxos TreeCosign ChainSource Flux Rounds Connectors Forfeit ServerDb RoundCollect.
From S2P Require Import RoundSigning ServerRound RoundSafety RoundOutcome RoundSuccess.

Open Scope Z_scope.

(** ** Code that does not panic *)
Lemma no_panic_bind {E A A'} (m : outcome E A) (f : A -> outcome E A') :
  m <> Panic -> (forall a, m = Ok a -> f a <> Panic) -> (m ≫= f) <> Panic.
Proof. destruct m; cbn; auto. Qed.
Lemma safe_ensure {E} b (e : E) : ensure b e <> Panic.
Proof. by destruct b. Qed.
Lemma safe_ok_or {E A} (o : option A) (e : E) : ok_or o e <> Panic.
Proof. by destruct o. Qed.
Lemma safe_map_err {E E' A} (g : E -> E') (m : outcome E A) : m <> Panic -> map_err g m <> Panic.
Proof. by destruct m. Qed.
Lemma safe_expect {E A} (o : option A) : is_Some o -> expect (E:=E) o <> Panic.
Proof. by intros [a ->]. Qed.
Lemma safe_mapM {E A A'} (f : A -> outcome E A') l : (forall a, a ∈ l -> f a <> Panic) -> mapM f l <> Panic.
Proof.
  induction l as [|a l IH]; intros H; [done|]. cbn [mapM]. apply no_panic_bind; [apply H; left|]. intros b _.
  apply no_panic_bind; [|done]. apply IH. intros c Hc. apply H. by right.
Qed.
Create HintDb safe.
#[export] Hint Resolve safe_ensure safe_ok_or safe_map_err safe_expect : safe.

Definition safe {S E A} (m : M S E A) (s : S) : Prop := (m s).1 <> Panic.

Lemma run_safe_bind {S E A A'} (m : M S E A) (f : A -> M S E A') s :
  safe m s -> (forall a s', m s = (Ok a, s') -> safe (f a) s') -> safe (m ≫= f) s.
Proof.
  unfold safe, mbind, M_bind. intros H H'. destruct (m s) as [[a|e|] s'] eqn:Hm; [by apply H'|done|by destruct H].
Qed.
Lemma run_safe_lift {S E A} (m : outcome E A) (s : S) : m <> Panic -> safe (Effects.lift m) s.
Proof. done. Qed.
Lemma run_safe_infallible {S E A} (m : outcome Empty_set A) (s : S) : m <> Panic -> safe (infallible (E:=E) m) s.
Proof. intros H. by apply safe_map_err. Qed.
Lemma run_safe_try {S E E' A} (m : M S E A) (s : S) : safe m s -> safe (try_m (F:=E') m) s.
Proof. unfold safe, try_m. by destruct (m s) as [[a|e|] s']. Qed.
Lemma run_safe_map_err {S E E' A} (g : E -> E') (m : M S E A) (s : S) : safe m s -> safe (map_err_m g m) s.
Proof. unfold safe, map_err_m. by destruct (m s) as [[a|e|] s']. Qed.

Section NoPanic.
Context `{B : Bitcoin} `{C : !Consensus} `{S : !Signing B} `{P : !RoundWallet} `{F : !Fees}.
Context `{W : !WitnessLaws B} `{K : !KeyLaws B} `{M : !MusigLaws B} `{SL : !SigningLaws B}.

(** ** Signatures of the tree *)
Lemma verify_node_safe s t utxo u i nd pk aggs ps pn : spec_ok s -> new (nb_leaves s) = Some t -> utree_ok s t utxo u ->
  nodes t !! i = Some nd -> verify_node_cosign_partial_sig u nd pk aggs ps pn <> Panic.
Proof.
  intros Hs Hnew Hu Hnd. unfold verify_node_cosign_partial_sig.
  rewrite (uo_spec _ _ _ _ Hu), (node_cosign_pubkeys_Ok s Hs t Hnew _ _ Hnd), (node_tweak_Ok s Hs t Hnew utxo u Hu _ _ Hnd).
  destruct (sighash_at s t utxo u Hu i nd Hnd) as [msg Hmsg].
  rewrite (node_idx_at _ _ (proj2 (new_tree_ok _ _ Hnew)) _ _ Hnd), (at_idx_Some _ _ _ Hmsg). cbn [mbind outcome_bind].
  apply no_panic_bind; auto with safe.
Qed.

Lemma verify_branch_loop_safe s t utxo u pk aggs branch : spec_ok s -> new (nb_leaves s) = Some t -> utree_ok s t utxo u ->
  (forall nd, nd ∈ branch -> exists i, nodes t !! i = Some nd) ->
  forall nonces sigs, verify_branch_loop u aggs pk branch nonces sigs <> Panic.
Proof.
  intros Hs Hnew Hu. induction branch as [|nd branch IH]; intros Hb nonces sigs; [done|]. cbn [verify_branch_loop].
  apply no_panic_bind; [auto with safe|]. intros r _. apply no_panic_bind; [auto with safe|]. intros sg _.
  destruct (Hb nd ltac:(left)) as [i Hi]. apply no_panic_bind; [by eapply safe_map_err, verify_node_safe|]. intros _ _.
  apply IH. intros nd' Hn. apply Hb. by right.
Qed.

Lemma register_signature_safe cfg s0 t pk sigs : tree_inv cfg s0 t -> register_signature t pk sigs <> Panic.
Proof.
  intros Ht. pose proof (tv_facts _ _ _ Ht) as Hf. destruct (tree_ok_of _ _ _ Hf) as [Hnew Hok]. unfold register_signature.
  apply no_panic_bind; [auto with safe|]. intros _ _. apply no_panic_bind; [auto with safe|]. intros r Hr%ok_or_Ok.
  apply List.find_some in Hr as [Hr Hpk%bool_decide_eq_true]. apply list_elem_of_In in Hr.
  apply no_panic_bind; [apply safe_expect; by eapply (tf_users _ _ _ Hf)|]. intros ns _.
  apply no_panic_bind; [|done]. apply safe_map_err. unfold verify_branch_cosign_partial_sigs.
  destruct (agg_nonces_inv _ (tf_spec _ _ _ Hf) _ Hnew _ _ _ (tf_aggs _ _ _ Hf)) as (_ & Hlen & _).
  rewrite bool_decide_true by done. cbn [assert mbind outcome_bind]. apply no_panic_bind; [auto with safe|]. intros k _.
  apply no_panic_bind; [auto with safe|]. intros l Hl%ok_or_Ok. destruct (_ ?= _)%nat; [|done..].
  apply list_elem_of_lookup_1 in Hr as [j Hj]. rewrite (leaf_idx_of_Ok _ (tf_spec _ _ _ Hf) j r pk (tree_distinct _ _ _ Hf) Hj Hpk) in Hl.
  injection Hl as <-. eapply verify_branch_loop_safe; [apply (tf_spec _ _ _ Hf)|exact Hnew|exact Hok|].
  intros nd [m Hm]%list_elem_of_lookup_1. apply (branch_elem _ (tf_spec _ _ _ Hf) _ Hnew) in Hm as [Hm _]; [eauto|].
  by eapply lookup_lt_Some.
Qed.

Lemma close_signing_safe cfg a s0 t w : tree_inv cfg s0 t -> safe (close_signing cfg a t) w.
Proof.
  intros Ht. unfold close_signing. destruct (vt_proceed t) eqn:Hp; [|done].
  destruct (tree_progress_total cfg (an_draws a) s0 t Ht Hp) as (f & Hf & _).
  apply run_safe_bind; [apply run_safe_infallible; by rewrite Hf|done].
Qed.

(** ** Signatures of the forfeits *)
Definition inputs_valid (inputs : gmap VtxoId Vtxo) : Prop :=
  forall id v, inputs !! id = Some v -> exists tr, output_taproot (E:=string) v = Ok tr.

Lemma for_enumerate_safe {E A} (f : nat -> A -> outcome E unit) l : forall i,
  (forall k a, l !! k = Some a -> f (i + k)%nat a <> Panic) -> for_enumerate f i l <> Panic.
Proof.
  induction l as [|a l IH]; intros i H; [done|]. cbn [for_enumerate]. apply no_panic_bind.
  - rewrite <- (Nat.add_0_r i). by apply (H 0%nat).
  - intros _ _. apply IH. intros k b Hk. rewrite Nat.add_succ_comm. by apply H.
Qed.

Lemma check_forfeit_sig_safe v tr cpk pubs uns sigs idx conn : output_taproot (E:=string) v = Ok tr ->
  (idx < length pubs)%nat -> (idx < length uns)%nat -> (idx < length sigs)%nat ->
  check_forfeit_sig v tr cpk pubs uns sigs idx conn <> Panic.
Proof.
  intros Htr H1 H2 H3. unfold check_forfeit_sig, connector_forfeit_sighash_exit. rewrite (ff_sighash_at v tr) by done.
  cbn [mbind outcome_bind]. by repeat (apply no_panic_bind; [by apply safe_expect, lookup_lt_is_Some_2|intros ? _]); auto with safe.
Qed.

Lemma validate_forfeit_sigs_safe cfg s0 t f v tr pubs uns sigs : forfeits_inv cfg s0 t f -> output_taproot (E:=string) v = Ok tr ->
  length pubs = size (sf_inputs f) ->
  validate_forfeit_sigs v (sf_connectors f) (keypair_public_key (sf_connector_key f)) pubs uns sigs <> Panic.
Proof.
  intros Hf Htr Hlen. destruct (round_connectors _ _ _ _ Hf) as (n & Hn & Hcl & Hsize). unfold validate_forfeit_sigs.
  destruct (negb _ || negb _) eqn:Hl; [done|]. apply orb_false_iff in Hl as [H1%negb_false_iff%Z.eqb_eq H2%negb_false_iff%Z.eqb_eq].
  rewrite Htr, (connector_points_Ok _ n Hcl Hsize). cbn [mbind outcome_bind]. apply for_enumerate_safe.
  intros k conn Hk%lookup_lt_Some. rewrite length_conn_list in Hk. apply check_forfeit_sig_safe; [done|lia..].
Qed.

Lemma add_forfeits_safe {E : Type} cfg s0 t f l : forfeits_inv cfg s0 t f -> inputs_valid (sf_inputs f) ->
  forall m, add_forfeits (E:=E) f m l <> Panic.
Proof.
  intros Hf Hv. pose proof (ff_nonces _ _ _ (fv_facts _ _ _ _ Hf)) as Hn. destruct (ff_same _ _ _ (fv_facts _ _ _ _ Hf)) as (Hins & _).
  induction l as [|[[id ns] sg] l IH]; intros m; [done|]. cbn [add_forfeits]. destruct (sf_inputs f !! id) as [v|] eqn:Hid; [|apply IH].
  destruct (Hv id v Hid) as [tr Htr]. rewrite <- Hins in Hn. destruct (Hn id v Hid) as (secs & _ & Hp & Hlen). rewrite Hp.
  cbn [expect mbind outcome_bind].
  pose proof (validate_forfeit_sigs_safe cfg s0 t f v tr (sec_to_pub_nonce <$> secs) ns sg Hf Htr) as Hs.
  destruct (validate_forfeit_sigs _ _ _ _ _ _); [apply IH..|]. destruct Hs; [|done]. by rewrite length_fmap.
Qed.

(** ** The end of the round *)
Lemma finish_round_safe up seq tx vs key ffs (db : Db Keypair) : all_vtxos (E:=SrvError) vs <> Panic ->
  safe (finish_round up seq tx vs key ffs) db.
Proof.
  intros Hv. unfold safe, finish_round, transaction. destruct up; [cbn [negb]|done].
  match goal with |- (match ?m ?d with _ => _ end).1 <> _ => assert (Hs : safe m d) end.
  { apply run_safe_bind; [unfold insert_round, safe; by destruct (existsb _ _)|]. intros rid s1 _.
    apply run_safe_bind.
    - unfold forM_. clear. generalize tt. revert s1. induction ffs as [|p ffs IH]; intros s1 u; [done|]. cbn [foldM].
      apply run_safe_bind; [|intros; apply IH]. unfold mark_forfeited. apply run_safe_bind.
      + unfold update_spendable, safe. destruct (tbl_vtxo s1 !! p.1) as [v|]; [|done]. by destruct (is_spendable v).
      + intros n s2 _. by case_bool_decide.
    - intros _ s2 _. apply run_safe_bind; [by apply run_safe_lift|]. intros new s3 _. by apply run_safe_bind. }
  unfold safe in Hs. match goal with |- (match ?m ?d with _ => _ end).1 <> _ => by destruct (m d) as [[[[] a]|e|] s'] end.
Qed.

Lemma all_vtxos_safe cfg s0 t f : forfeits_inv cfg s0 t f -> all_vtxos (E:=SrvError) (sf_signed_vtxos f) <> Panic.
Proof.
  intros Hf. pose proof (fv_tree _ _ _ _ Hf) as Ht. pose proof (tv_facts _ _ _ Ht) as Hfacts.
  destruct (fv_facts _ _ _ _ Hf) as [(sigs & Hver & Hct) _ _ _]. destruct (tree_ok_of _ _ _ Hfacts) as [Hnew Hok].
  destruct (tf_tx _ _ _ Hfacts) as (rtx & o & c & change & _ & Htxid & Ho & _ & Hout).
  apply (into_cached_tree_err (E':=SrvError) _ _ _ _ _ _ (tf_spec _ _ _ Hfacts) Hnew Hok) in Hct.
  assert (Hspec : st_spec (ct_spec (sf_signed_vtxos f)) = ut_spec (vt_unsigned_tree t)).
  { pose proof Hct as Hct'. apply bind_Ok in Hct' as (x & _ & Hct'). by apply Ok_inj in Hct' as <-. }
  unfold all_vtxos. rewrite Hspec. apply safe_mapM. intros l Hl%elem_of_seq.
  destruct (lookup_lt_is_Some_2 (ts_vtxos (ut_spec (vt_unsigned_tree t))) l) as [q Hq]; [unfold nb_leaves in Hl; lia|].
  destruct (build_vtxo_good (E:=SrvError) _ _ _ _ sigs rtx l q (tf_spec _ _ _ Hfacts) (tf_dust _ _ _ Hfacts) Hnew Hok Hver)
    as (c' & v & txs & Hc' & Hbv & _); [|done|].
  { split; [done|]. exists o. split; [done|]. by rewrite Hout. }
  assert (c' = sf_signed_vtxos f) as -> by congruence. by rewrite Hbv.
Qed.

Lemma finish_safe cfg s0 t f a w : forfeits_inv cfg s0 t f -> sf_proceed f = true -> (forall psbt, an_finish_tx a psbt <> Panic) ->
  safe (finish a f) w.
Proof.
  intros Hf Hp Ha. unfold finish. apply run_safe_bind; [by apply run_safe_lift, safe_map_err|]. intros tx w1 _.
  apply run_safe_bind; [apply run_safe_lift, safe_ensure|]. intros _ w2 _. apply run_safe_bind; [done|]. intros _ w3 _.
  apply run_safe_bind; [apply run_safe_lift, safe_mapM|].
  - intros id (p & -> & Hid)%list_elem_of_fmap. destruct p as [id v]. apply elem_of_map_to_list in Hid. cbn [fst]. unfold forfeit_state_of.
    pose proof (fv_proceed _ _ _ _ Hf Hp) as Hd. assert (Hin : id ∈ dom (sf_inputs f)) by (apply elem_of_dom; by eexists).
    rewrite <- Hd in Hin. apply elem_of_dom in Hin. apply no_panic_bind; [by apply safe_expect|]. intros [uns sg] _.
    destruct (ff_same _ _ _ (fv_facts _ _ _ _ Hf)) as (Hins & _). rewrite Hins in Hid.
    destruct (ff_nonces _ _ _ (fv_facts _ _ _ _ Hf) id v Hid) as (secs & -> & -> & _). done.
  - intros ffs w4 _. unfold zoom, safe. apply run_safe_map_err, finish_round_safe. by eapply all_vtxos_safe.
Qed.

Definition state_inputs (st : RoundState) : gmap VtxoId Vtxo :=
  match st with
  | StCollectingPayments s => co_inputs s
  | StSigningVtxoTree t => vt_inputs t
  | StSigningForfeits f => sf_inputs f
  | StFinished _ => ∅
  end.

Lemma next_attempt_safe seq att data locked allowed common ch key w :
  safe (next_attempt (collecting_new seq (att + 1) data locked (Some allowed) common ch key)) w.
Proof.
  unfold next_attempt. apply run_safe_bind.
  - apply run_safe_infallible. unfold need_new_round, first_attempt. cbn [collecting_new co_attempt_seq co_allowed].
    rewrite (bool_decide_false (_ = None)) by done. rewrite (bool_decide_false (att + 1 = 0)%nat) by lia. done.
  - intros b w' _. by destruct b.
Qed.


(** ** Enough nonces *)
Lemma with_change_nonces {E} cfg d s outs change : co_inv s -> co_data s = round_data_of cfg ->
  with_change (E:=E) cfg d (co_outputs s) = Ok (outs, change) ->
  Forall (fun o => length (vp_nonces o) = nb_round_nonces cfg) outs /\
  (length outs = 1 \/ length outs <= nb_round_nonces cfg * 3 / 4)%nat /\ (0 < length outs)%nat.
Proof.
  intros Hs Hd H. unfold with_change in H. case_bool_decide as Hnil.
  - apply nil_length_inv in Hnil. rewrite Hnil in H. apply bind_Ok in H as ([o sec] & Ho & [= <- <-]).
    apply bind_Ok in Ho as (k & _ & [= <- <-]). cbn -[nonce_pairs_for]. split; [|split; [by left|lia]].
    constructor; [|constructor]. cbn -[nonce_pairs_for]. by rewrite length_fmap, length_nonce_pairs.
  - injection H as <- <-. pose proof (ci_max _ Hs) as Hm. rewrite Hd in Hm. cbn [round_data_of max_output_vtxos] in Hm.
    split; [|split; [by right|lia]]. eapply Forall_impl; [apply (ci_outputs _ Hs)|]. intros o [-> _]. by rewrite Hd.
Qed.

(** The specification of the tree for these outputs. *)
Definition round_spec (cfg : RoundConfig) (s : CollectingPayments) (outs : list VtxoParticipant) (height : Z) : VtxoTreeSpec :=
  mkTreeSpec (vp_req <$> outs) height (keypair_public_key (server_key cfg)) (vtxo_exit_delta cfg)
    [keypair_public_key (co_cosign_key s)].

(** C36. The configured number of nonces is enough.  A round takes at most three
    outputs for every four nonces, and then the tree never has more nodes than
    there are nonces: the assertion in [CollectingPayments::progress] holds, and
    the nonces of all users and of the server can be aggregated for every node. *)
Theorem round_nonces_suffice (cfg : RoundConfig) (d : Draws) (s : CollectingPayments) outs change height : co_inv s ->
  co_data s = round_data_of cfg -> (0 < nb_round_nonces cfg)%nat ->
  with_change (E:=RoundError) cfg d (co_outputs s) = Ok (outs, change) ->
  spec_ok (round_spec cfg s outs height) ->
  exists nb, spec_nb_nodes (round_spec cfg s outs height) = Some nb /\ (nb <= nb_round_nonces cfg)%nat /\ forall rand, exists aggs,
    calculate_cosign_agg_nonces (round_spec cfg s outs height) (kget (user_nonces outs)) [(nonce_pairs_for (co_cosign_key s) nb rand).*2] = Ok aggs /\
    length aggs = nb.
Proof.
  intros Hs Hd Hpos H. set (spec := round_spec cfg s outs height). intros Hok. destruct (with_change_nonces _ _ _ _ _ Hs Hd H) as (Hns & Hmax & Hlen).
  destruct (with_change_Ok _ _ _ _ _ Hs H) as (Hnd & _).
  assert (Hn : nb_leaves spec = length outs) by (unfold nb_leaves; cbn; apply length_fmap).
  destruct (new_spec (nb_leaves spec)) as (t & Hnew & Hok'); [lia|]. pose proof (nb_nodes_for_leaves_tree (nb_leaves spec) t ltac:(lia) Hok') as Hnb.
  assert (Hle : (nb_nodes t <= nb_round_nonces cfg)%nat).
  { rewrite (ok_length _ _ Hok'), Hn. pose proof (nb_inner_spec (length outs) ltac:(lia)). destruct Hmax as [Hmax|Hmax]; [lia|].
    pose proof (Nat.div_mod_eq (nb_round_nonces cfg * 3) 4). lia. }
  exists (nb_nodes t). split; [done|]. split; [done|]. intros rand.
  destruct (agg_nonces_total spec Hok t Hnew (kget (user_nonces outs)) [(nonce_pairs_for (co_cosign_key s) (nb_nodes t) rand).*2])
    as [aggs Haggs]; [done| | |].
  - constructor; [|constructor]. by rewrite length_fmap, length_nonce_pairs.
  - intros l pk Hl. unfold leaf_key in Hl. apply bind_Some in Hl as (r & Hr & Hpk). cbn in Hr.
    rewrite list_lookup_fmap in Hr. apply fmap_Some in Hr as (o & Ho & ->). apply list_elem_of_lookup_2 in Ho.
    exists (vp_nonces o). split; [by apply user_nonces_kget|]. rewrite Forall_forall in Hns. by rewrite (Hns o Ho).
  - exists aggs. split; [done|]. by apply (agg_nonces_inv spec Hok t Hnew) in Haggs as (_ & Hl & _).
Qed.
End NoPanic.

(** *** Witness: no signatures at all are sent for the sample round. *)
Lemma sample_inputs_valid : inputs_valid (B := model) (state_inputs (B := model) sample_st1).
Proof.
  assert (H : forallb (fun p => is_ok (output_taproot (B := model) (E := string) p.2)) (map_to_list (state_inputs (B := model) sample_st1)) = true)
    by (vm_compute; reflexivity).
  intros id v Hv%elem_of_map_to_list. rewrite List.forallb_forall in H. apply list_elem_of_In in Hv. specialize (H _ Hv). cbn in H.
  destruct (output_taproot _) as [tr|e|]; [by exists tr|discriminate H..].
Qed.


(** Nobody takes part: the server's placeholder is the only output. *)
Definition idle_state : CollectingPayments (B := model) :=
  collecting_new (B := model) 1 0 (round_data_of (B := model) sample_round_cfg) ∅ None None (replicate 32 Byte.x01) Byte.x0a.
Definition idle_outs : list (VtxoParticipant (B := model)) :=
  (ok_value ([], None) (with_change (B := model) (E := RoundError) sample_round_cfg sample_draws (co_outputs idle_state))).1.

Lemma idle_spec_ok height server delta keys : height = 244 ->
  spec_ok (B := model) (mkTreeSpec (B := model) (vp_req (B := model) <$> idle_outs) height server delta keys).
Proof.
  intros ->. assert (H : exists k pk ns, idle_outs =
    [mkParticipant (B := model) (mkSignedRequest (B := model) (mkRequest (B := model) P2WSH_DUST (new_pubkey (B := model) k)) (Some pk)) ns])
    by (eexists _, _, _; reflexivity).
  destruct H as (k & pk & ns & ->). split; [cbn; lia|by eexists| |cbn; unfold P2WSH_DUST; lia].
  repeat constructor; cbn; [unfold P2WSH_DUST; lia|by eexists].
Qed.

Lemma round_nonces_suffice_witness : exists nb, (nb <= 2)%nat /\ exists aggs,
  calculate_cosign_agg_nonces (B := model)
    (round_spec (B := model) sample_round_cfg idle_state idle_outs 244)
    (kget (user_nonces (B := model) idle_outs)) [(nonce_pairs_for (B := model) (co_cosign_key idle_state) nb (fun _ => 0)).*2] = Ok aggs /\ length aggs = nb.
Proof.
  destruct (round_nonces_suffice (B := model) (F := col_fees) sample_round_cfg sample_draws idle_state idle_outs
    (ok_value ([], None) (with_change (B := model) (E := RoundError) sample_round_cfg sample_draws (co_outputs idle_state))).2 244)
    as (nb & _ & Hnb & Haggs).
  - by apply (collecting_new_inv (B := model) (F := col_fees)).
  - reflexivity.
  - cbn. lia.
  - assert (Hok : is_ok (with_change (B := model) (E := RoundError) sample_round_cfg sample_draws (co_outputs idle_state)) = true)
      by (vm_compute; reflexivity).
    unfold idle_outs. destruct (with_change _ _ _) as [[outs change]|e|]; [reflexivity|discriminate Hok..].
  - by apply idle_spec_ok.
  - exists nb. split; [exact Hnb|]. apply (Haggs (fun _ => 0)).
Defined.

(** An output for an HTLC whose expiry is no block height is accepted, and
    building the tree then panics. *)
Definition bad_htlc : VtxoParticipant (B := model) :=
  mkParticipant (B := model) (mkSignedRequest (B := model) (mkRequest (B := model) 1000
    (ServerHtlcRecv (B := model) (mkHtlcRecvPolicy (B := model) Byte.x05 (replicate 32 Byte.x01) 100 500000000))) (Some Byte.x0b)) [1; 2].
Definition bad_sig : @Signature model :=
  (x_only_public_key (Bitcoin := model) (vtxo_user_pubkey (B := model) sample_vtxo),
   ok_value [] (as_signable_message (B := model) (replicate 32 Byte.x01) (vtxo_id (B := model) sample_vtxo) [vp_req (B := model) bad_htlc] [])).
Definition bad_request : Event (B := model) :=
  EvInput (RegisterPayment (B := model) [mkIdInput (B := model) (vtxo_id (B := model) sample_vtxo) bad_sig] [bad_htlc] []).

Lemma bad_htlc_expiry_panics :
  match (process (B := model) (P := sample_wallet) (F := col_fees) sample_answers
    (match sample_st0 with StCollectingPayments s => s | _ => col_state end)
    [mkIdInput (B := model) (vtxo_id (B := model) sample_vtxo) bad_sig] [bad_htlc] [] sample_world).1 with
  | Ok (inr _) => true | _ => false end = true /\
  match (sample_step bad_request sample_st0 sample_world).1 with Panic => true | _ => false end = true.
Proof. split; vm_compute; reflexivity. Qed.
