(* ===== verification/WalletRoundState.v ===== *)
(** * Rounds of the wallet: the state of a participation
      (bark/src/round.rs, bark/src/persist/models.rs, bark/src/persist/sqlite/)

    What the wallet knows of a round it takes part in: what it gives up and
    asks for, how far the flow of messages with the server got, and the round
    transactions it has signed forfeits for.  The database stores this state
    through the models of [persist/models.rs].  [RoundPersister] is the part of
    the database the round code uses besides [Persister]; [RoundTables]
    implements both with the tables of the sqlite backend. *)
From stdpp Require Import gmap.
From S2P Require Import Prelude Effects Tree Bitcoin Concrete Policy Vtxo Arkoor SignedTree ChainSource ExitStates Persist Rounds.

Open Scope Z_scope.

(** ** The state (bark/src/round.rs) *)
Section State.
Context `{B : Bitcoin}.

Record RoundParticipation := mkParticipation {
  pt_inputs : list Vtxo; pt_outputs : list VtxoRequest; pt_offboards : list OffboardRequest }.

Inductive AttemptState :=
  | AwaitingAttempt
  | AwaitingUnsignedVtxoTree (cosign_keys : list Keypair) (secret_nonces : list (list SecretNonce))
  | AwaitingRoundProposal (unsigned_round_tx : Transaction) (vtxos_spec : VtxoTreeSpec)
  | AwaitingFinishedRound (unsigned_round_tx : Transaction) (new_vtxos : list Vtxo).

Definition attempt_kind (s : AttemptState) : string :=
  match s with
  | AwaitingAttempt => "AwaitingAttempt"
  | AwaitingUnsignedVtxoTree _ _ => "AwaitingUnsignedVtxoTree"
  | AwaitingRoundProposal _ _ => "AwaitingRoundProposal"
  | AwaitingFinishedRound _ _ => "AwaitingFinishedRound"
  end.

Inductive RoundFlowState :=
  | WaitingToStart
  | Ongoing (round_seq attempt_seq : Z) (state : AttemptState)
  | FlowSuccess
  | FlowFailed (error : string)
  | FlowCanceled.

(** The time is in nanoseconds. *)
Record UnconfirmedRound := mkUnconfirmed {
  ur_funding_tx : Transaction; ur_new_vtxos : list Vtxo;
  ur_double_spenders : list (option bytes); ur_first_double_spent_at : option Z }.

Definition unconfirmed_new (funding_tx : Transaction) (new_vtxos : list Vtxo) : UnconfirmedRound :=
  mkUnconfirmed funding_tx new_vtxos (replicate (length (input funding_tx)) None) None.

Definition funding_txid (r : UnconfirmedRound) : bytes := compute_txid (ur_funding_tx r).

Definition is_tx_signed (r : UnconfirmedRound) : bool :=
  negb (existsb (fun i => bool_decide (witness i = [])) (input (ur_funding_tx r))).

Record WalletRound := mkWalletRound {
  wr_participation : RoundParticipation; wr_flow : RoundFlowState;
  wr_unconfirmed : list UnconfirmedRound; wr_movement_id : option Z }.

Definition wallet_round_new (participation : RoundParticipation) (movement_id : option Z) : WalletRound :=
  mkWalletRound participation WaitingToStart [] movement_id.

Definition ongoing_participation (s : WalletRound) : bool :=
  match wr_flow s with
  | WaitingToStart | Ongoing _ _ _ => true
  | FlowSuccess | FlowFailed _ | FlowCanceled => false
  end.

Definition output_vtxos (s : WalletRound) : option (list Vtxo) :=
  ur_new_vtxos <$> List.find is_tx_signed (wr_unconfirmed s).

Definition locked_pending_inputs (s : WalletRound) : list Vtxo :=
  if existsb is_tx_signed (wr_unconfirmed s) then []
  else match wr_flow s with
       | WaitingToStart | Ongoing _ _ _ | FlowSuccess => pt_inputs (wr_participation s)
       | FlowFailed _ | FlowCanceled => []
       end.

Inductive RoundStatus :=
  | StConfirmed (funding_txid : bytes)
  | StUnconfirmed (funding_txid : bytes)
  | StPending (unsigned_funding_txids : list bytes)
  | StFailed (error : string)
  | StCanceled.

Definition status_is_final (s : RoundStatus) : bool :=
  match s with StConfirmed _ | StFailed _ | StCanceled => true | StUnconfirmed _ | StPending _ => false end.
Definition status_is_success (s : RoundStatus) : bool :=
  match s with StConfirmed _ | StUnconfirmed _ => true | StPending _ | StFailed _ | StCanceled => false end.

Record StoredRoundState := mkStored { sto_id : Z; sto_state : WalletRound }.

(** ** The models of the database (persist/models.rs) *)
Record SerdeVtxoRequest := mkSerdeRequest { svr_amount : Z; svr_policy : VtxoPolicy }.
Record SerdeOffboardRequest := mkSerdeOffboard { sor_script_pubkey : bytes; sor_amount : Z }.
Record SerdeUnconfirmedRound := mkSerdeUnconfirmed {
  sur_funding_tx : Transaction; sur_new_vtxos : list Vtxo;
  sur_double_spenders : list (option bytes); sur_first_double_spent_at : option Z }.
Record SerdeRoundParticipation := mkSerdeParticipation {
  srp_inputs : list Vtxo; srp_outputs : list SerdeVtxoRequest; srp_offboards : list SerdeOffboardRequest }.
Inductive SerdeAttemptState :=
  | SAwaitingAttempt
  | SAwaitingUnsignedVtxoTree (cosign_keys : list Keypair) (secret_nonces : list (list SecretNonce))
  | SAwaitingRoundProposal (unsigned_round_tx : Transaction) (vtxos_spec : VtxoTreeSpec)
  | SAwaitingFinishedRound (unsigned_round_tx : Transaction) (new_vtxos : list Vtxo).
Inductive SerdeRoundFlowState :=
  | SWaitingToStart
  | SOngoing (round_seq attempt_seq : Z) (state : SerdeAttemptState)
  | SFinished
  | SFailed (error : string)
  | SCanceled.
Record SerdeRoundState := mkSerdeRound {
  srs_participation : SerdeRoundParticipation; srs_movement_id : option Z;
  srs_flow : SerdeRoundFlowState; srs_unconfirmed_rounds : list SerdeUnconfirmedRound }.

Definition ser_participation (v : RoundParticipation) : SerdeRoundParticipation :=
  mkSerdeParticipation (pt_inputs v) ((fun r => mkSerdeRequest (req_amount r) (req_policy r)) <$> pt_outputs v)
    ((fun o => mkSerdeOffboard (ob_script_pubkey o) (ob_amount o)) <$> pt_offboards v).
Definition de_participation (v : SerdeRoundParticipation) : RoundParticipation :=
  mkParticipation (srp_inputs v) ((fun r => mkRequest (svr_amount r) (svr_policy r)) <$> srp_outputs v)
    ((fun o => mkOffboard (sor_script_pubkey o) (sor_amount o)) <$> srp_offboards v).

Definition ser_unconfirmed (v : UnconfirmedRound) : SerdeUnconfirmedRound :=
  mkSerdeUnconfirmed (ur_funding_tx v) (ur_new_vtxos v) (ur_double_spenders v) (ur_first_double_spent_at v).
Definition de_unconfirmed (v : SerdeUnconfirmedRound) : UnconfirmedRound :=
  mkUnconfirmed (sur_funding_tx v) (sur_new_vtxos v) (sur_double_spenders v) (sur_first_double_spent_at v).

Definition ser_attempt (s : AttemptState) : SerdeAttemptState :=
  match s with
  | AwaitingAttempt => SAwaitingAttempt
  | AwaitingUnsignedVtxoTree ks ns => SAwaitingUnsignedVtxoTree ks ns
  | AwaitingRoundProposal tx spec => SAwaitingRoundProposal tx spec
  | AwaitingFinishedRound tx vs => SAwaitingFinishedRound tx vs
  end.
Definition de_attempt (s : SerdeAttemptState) : AttemptState :=
  match s with
  | SAwaitingAttempt => AwaitingAttempt
  | SAwaitingUnsignedVtxoTree ks ns => AwaitingUnsignedVtxoTree ks ns
  | SAwaitingRoundProposal tx spec => AwaitingRoundProposal tx spec
  | SAwaitingFinishedRound tx vs => AwaitingFinishedRound tx vs
  end.

Definition ser_flow (s : RoundFlowState) : SerdeRoundFlowState :=
  match s with
  | WaitingToStart => SWaitingToStart
  | Ongoing r a st => SOngoing r a (ser_attempt st)
  | FlowSuccess => SFinished
  | FlowFailed e => SFailed e
  | FlowCanceled => SCanceled
  end.
Definition de_flow (s : SerdeRoundFlowState) : RoundFlowState :=
  match s with
  | SWaitingToStart => WaitingToStart
  | SOngoing r a st => Ongoing r a (de_attempt st)
  | SFinished => FlowSuccess
  | SFailed e => FlowFailed e
  | SCanceled => FlowCanceled
  end.

Definition ser_round (s : WalletRound) : SerdeRoundState :=
  mkSerdeRound (ser_participation (wr_participation s)) (wr_movement_id s) (ser_flow (wr_flow s))
    (ser_unconfirmed <$> wr_unconfirmed s).
Definition de_round (s : SerdeRoundState) : WalletRound :=
  mkWalletRound (de_participation (srs_participation s)) (de_flow (srs_flow s))
    (de_unconfirmed <$> srs_unconfirmed_rounds s) (srs_movement_id s).

Lemma map_roundtrip {A A'} (f : A -> A') (g : A' -> A) (l : list A) : (forall a, g (f a) = a) -> g <$> (f <$> l) = l.
Proof. intros H. rewrite <- list_fmap_compose. rewrite <- (list_fmap_id l) at 2. apply list_fmap_ext. intros. cbn. by rewrite H. Qed.

Lemma de_ser_round s : de_round (ser_round s) = s.
Proof.
  destruct s as [[ins outs offs] fl urs mid]. unfold de_round, ser_round, de_participation, ser_participation. cbn.
  rewrite !map_roundtrip by (by intros []). by destruct fl as [|r a []| | |].
Qed.

(** ** The database *)
Class RoundPersister (db : Type) := {
  store_round_state_lock_vtxos : WalletRound -> ext db string Z;
  update_round_state : StoredRoundState -> ext db string unit;
  remove_round_state : Z -> ext db string unit;
  load_round_states : ext db string (list StoredRoundState);
  get_public_key_idx : PublicKey -> ext db string (option Z);
  (* the contents of the table of rounds *)
  db_rounds : db -> gmap Z WalletRound;
}.

Definition lock_for (mid : option Z) (w : WalletVtxo) : WalletVtxo := mkWalletVtxo _ (wv_vtxo w) (VtxoState.Locked mid).

(** A call that fails changes nothing; the calls of [Persister] leave the rounds
    alone. *)
Class RoundPersisterLaws (db : Type) {P : Persister db} {R : RoundPersister db} := {
  store_round_db : forall st s,
    match (store_round_state_lock_vtxos st s).1 with
    | inr id => db_rounds s !! id = None /\ db_rounds (store_round_state_lock_vtxos st s).2 = <[id := st]> (db_rounds s) /\
        (forall v, v ∈ pt_inputs (wr_participation st) -> exists w, db_vtxos s !! vtxo_id v = Some w /\ wv_state w = VtxoState.Spendable) /\
        (forall i, db_vtxos (store_round_state_lock_vtxos st s).2 !! i =
           if decide (i ∈ vtxo_id <$> pt_inputs (wr_participation st)) then lock_for (wr_movement_id st) <$> db_vtxos s !! i
           else db_vtxos s !! i)
    | inl _ => db_rounds (store_round_state_lock_vtxos st s).2 = db_rounds s /\
        db_vtxos (store_round_state_lock_vtxos st s).2 = db_vtxos s
    end;
  update_round_db : forall st s, db_vtxos (update_round_state st s).2 = db_vtxos s /\
    match (update_round_state st s).1 with
    | inr _ => forall i, db_rounds (update_round_state st s).2 !! i =
        if decide (i = sto_id st) then (fun _ => sto_state st) <$> db_rounds s !! i else db_rounds s !! i
    | inl _ => db_rounds (update_round_state st s).2 = db_rounds s
    end;
  remove_round_db : forall id s, db_vtxos (remove_round_state id s).2 = db_vtxos s /\
    match (remove_round_state id s).1 with
    | inr _ => db_rounds (remove_round_state id s).2 = delete id (db_rounds s)
    | inl _ => db_rounds (remove_round_state id s).2 = db_rounds s
    end;
  load_rounds_db : forall s, db_vtxos (load_round_states s).2 = db_vtxos s /\ db_rounds (load_round_states s).2 = db_rounds s /\
    forall l, (load_round_states s).1 = inr l -> l ≡ₚ (fun p => mkStored p.1 p.2) <$> map_to_list (db_rounds s);
  get_public_key_idx_db : forall pk s, db_vtxos (get_public_key_idx pk s).2 = db_vtxos s /\
    db_rounds (get_public_key_idx pk s).2 = db_rounds s;
  update_vtxo_state_rounds : forall id st allowed s, db_rounds (update_vtxo_state_checked id st allowed s).2 = db_rounds s;
  store_vtxos_db : forall l s, db_rounds (store_vtxos l s).2 = db_rounds s /\
    match (store_vtxos l s).1 with
    | inr _ => (forall p, p ∈ l -> db_vtxos s !! vtxo_id p.1 = None) /\
        (forall p, p ∈ l -> db_vtxos (store_vtxos l s).2 !! vtxo_id p.1 = Some (mkWalletVtxo _ p.1 p.2)) /\
        (forall i, i ∉ (fun p => vtxo_id p.1) <$> l -> db_vtxos (store_vtxos l s).2 !! i = db_vtxos s !! i)
    | inl _ => db_vtxos (store_vtxos l s).2 = db_vtxos s
    end;
}.
End State.

(** ** The sqlite backend

    The table [bark_round_state] with the last id of its [AUTOINCREMENT], and
    the rows of [bark_vtxo_key] by their index, next to the tables of [Persist]. *)
Section Tables.
Context `{B : Bitcoin}.

Record RoundTables := mkRoundTables {
  rt_db : Sqlite; rt_rounds : gmap Z SerdeRoundState; rt_last : Z; rt_keys : gmap Z PublicKey }.

Definition on_sq {A} (f : ext Sqlite string A) : ext RoundTables string A := fun s =>
  ((f (rt_db s)).1, mkRoundTables (f (rt_db s)).2 (rt_rounds s) (rt_last s) (rt_keys s)).

#[export] Instance round_tables_persister : Persister RoundTables := {
  store_vtxos l := on_sq (store_vtxos l);
  get_wallet_vtxo id := on_sq (get_wallet_vtxo id);
  get_vtxos_by_state ks := on_sq (get_vtxos_by_state ks);
  update_vtxo_state_checked id st allowed := on_sq (update_vtxo_state_checked id st allowed);
  store_exit_vtxo_entry e := on_sq (store_exit_vtxo_entry e);
  remove_exit_vtxo_entry id := on_sq (remove_exit_vtxo_entry id);
  get_exit_vtxo_entries := on_sq get_exit_vtxo_entries;
  store_exit_child_tx id tx o := on_sq (store_exit_child_tx id tx o);
  get_exit_child_tx id := on_sq (get_exit_child_tx id);
  db_vtxos s := db_vtxos (rt_db s);
  db_exits s := db_exits (rt_db s);
}.

#[export] Instance round_tables_persister_laws : PersisterLaws RoundTables.
Proof.
  split; intros; cbn [db_vtxos db_exits round_tables_persister get_wallet_vtxo update_vtxo_state_checked store_exit_vtxo_entry
    remove_exit_vtxo_entry get_exit_vtxo_entries store_exit_child_tx get_exit_child_tx get_vtxos_by_state]; unfold on_sq; cbn [fst snd rt_db];
    [apply get_wallet_vtxo_db|apply update_vtxo_state_db|apply store_exit_vtxo_entry_db|apply remove_exit_vtxo_entry_db
    |apply get_exit_vtxo_entries_db|apply exit_child_tx_db|apply get_exit_child_tx_db|apply get_vtxos_by_state_db].
Qed.

(** A query of the round tables, which fails when a fault is due. *)
Definition rt_query {A} (f : RoundTables -> (string + A) * RoundTables) : ext RoundTables string A := fun s =>
  let d := rt_db s in
  let s' := mkRoundTables (mkSqlite (sq_vtxos d) (sq_exits d) (sq_children d) (tail (sq_faults d))) (rt_rounds s) (rt_last s) (rt_keys s) in
  match head (sq_faults d) with Some true => (inl "database error"%string, s') | _ => f s' end.

Fixpoint lock_all (movement_id : option Z) (ids : list bytes) : ext Sqlite string unit := fun d =>
  match ids with
  | [] => (inr tt, d)
  | id :: ids =>
      match sq_update_vtxo_state_checked id (VtxoState.Locked movement_id) [VtxoStateKind.Spendable] d with
      | (inl e, d') => (inl e, d')
      | (inr _, d') => lock_all movement_id ids d'
      end
  end.

Definition insert_round (st : WalletRound) : ext RoundTables string Z := rt_query (fun s =>
  let id := foldr Z.max (rt_last s) (map_to_list (rt_rounds s)).*1 + 1 in
  (inr id, mkRoundTables (rt_db s) (<[id := ser_round st]> (rt_rounds s)) id (rt_keys s))).

(** One transaction: an error rolls the rows back.  (Row ids are cast to [u32];
    the model has them below the bound.) *)
Definition roll_back (s s' : RoundTables) : RoundTables :=
  mkRoundTables (mkSqlite (sq_vtxos (rt_db s)) (sq_exits (rt_db s)) (sq_children (rt_db s)) (sq_faults (rt_db s')))
    (rt_rounds s) (rt_last s) (rt_keys s).

Definition rt_store (st : WalletRound) : ext RoundTables string Z := fun s =>
  match on_sq (lock_all (wr_movement_id st) (vtxo_id <$> pt_inputs (wr_participation st))) s with
  | (inl e, s') => (inl e, roll_back s s')
  | (inr _, s') =>
      match insert_round st s' with
      | (inl e, s'') => (inl e, roll_back s s'')
      | (inr id, s'') => (inr id, s'')
      end
  end.

Definition rt_update (st : StoredRoundState) : ext RoundTables string unit := rt_query (fun s =>
  (inr tt, mkRoundTables (rt_db s) (alter (fun _ => ser_round (sto_state st)) (sto_id st) (rt_rounds s)) (rt_last s) (rt_keys s))).

Definition rt_remove (id : Z) : ext RoundTables string unit := rt_query (fun s =>
  (inr tt, mkRoundTables (rt_db s) (delete id (rt_rounds s)) (rt_last s) (rt_keys s))).

Definition rt_load : ext RoundTables string (list StoredRoundState) := rt_query (fun s =>
  (inr ((fun p => mkStored p.1 (de_round p.2)) <$> map_to_list (rt_rounds s)), s)).

Definition rt_get_public_key_idx (pk : PublicKey) : ext RoundTables string (option Z) := rt_query (fun s =>
  (inr (fst <$> List.find (fun row => bool_decide (row.2 = pk)) (map_to_list (rt_keys s))), s)).

#[export] Instance round_tables : RoundPersister RoundTables := {
  store_round_state_lock_vtxos := rt_store;
  update_round_state := rt_update;
  remove_round_state := rt_remove;
  load_round_states := rt_load;
  get_public_key_idx := rt_get_public_key_idx;
  db_rounds s := de_round <$> rt_rounds s;
}.

(** *** The laws *)
Lemma rt_query_cases {A} (f : RoundTables -> (string + A) * RoundTables) s : exists s',
  sq_vtxos (rt_db s') = sq_vtxos (rt_db s) /\ rt_rounds s' = rt_rounds s /\ rt_last s' = rt_last s /\ rt_keys s' = rt_keys s /\
  (rt_query f s = (inl "database error"%string, s') \/ rt_query f s = f s').
Proof. eexists (mkRoundTables (mkSqlite _ _ _ (tail _)) _ _ _). do 4 (split; [done|]). unfold rt_query. destruct (head _) as [[]|]; auto. Qed.

Lemma fresh_round (s : RoundTables) : rt_rounds s !! (foldr Z.max (rt_last s) (map_to_list (rt_rounds s)).*1 + 1) = None.
Proof.
  apply eq_None_not_Some. intros [m Hm]. set (x := foldr _ _ _) in *.
  assert (Hin : x + 1 ∈ (map_to_list (rt_rounds s)).*1).
  { apply list_elem_of_fmap. exists (x + 1, m). split; [done|]. by apply elem_of_map_to_list. }
  apply (max_above _ _ (rt_last s)) in Hin. fold x in Hin. lia.
Qed.

(** A checked update that succeeds, on the contents. *)
Lemma update_state_Ok id st allowed (d d' : Sqlite) w : sq_update_vtxo_state_checked id st allowed d = (inr w, d') ->
  exists v, db_vtxos d !! id = Some v /\ VtxoState.kind (wv_state v) ∈ allowed /\
    db_vtxos d' = <[id := mkWalletVtxo _ (wv_vtxo v) st]> (db_vtxos d).
Proof.
  intros H. pose proof (update_vtxo_state_db (db := Sqlite) id st allowed d) as [_ Hu].
  change (update_vtxo_state_checked id st allowed d) with (sq_update_vtxo_state_checked id st allowed d) in Hu.
  rewrite H in Hu. cbn [fst snd] in Hu. destruct Hu as (v & Hv & Hk & -> & Hd). exists v. split_and!; [exact Hv|exact Hk|exact Hd].
Qed.

Lemma lock_all_Ok mid ids : forall d d', lock_all mid ids d = (inr tt, d') ->
  (forall i, i ∈ ids -> exists w, db_vtxos d !! i = Some w /\ wv_state w = VtxoState.Spendable) /\
  (forall i, db_vtxos d' !! i = if decide (i ∈ ids) then lock_for mid <$> db_vtxos d !! i else db_vtxos d !! i).
Proof.
  induction ids as [|id ids IH]; intros d d' H; cbn [lock_all] in H.
  - injection H as <-. split; [by intros i ?%elem_of_nil|]. intros i. by rewrite decide_False by apply not_elem_of_nil.
  - destruct (sq_update_vtxo_state_checked _ _ _ d) as [[e|w] d1] eqn:Hu; [done|].
    apply update_state_Ok in Hu as (v & Hv & Hk & Hd1). apply list_elem_of_singleton in Hk.
    apply IH in H as [Hsp Hd']. clear IH. rewrite Hd1 in Hsp, Hd'. split.
    + intros i [->|Hi]%elem_of_cons; [exists v; split; [done|]; by destruct (wv_state v)|].
      destruct (Hsp i Hi) as (x & Hx & Hs). destruct (decide (i = id)) as [->|Hne]; [exists v; split; [done|]; by destruct (wv_state v)|].
      rewrite lookup_insert_ne in Hx by done. eauto.
    + intros i. rewrite Hd'. destruct (decide (i = id)) as [->|Hne].
      * rewrite (decide_True (P := id ∈ id :: ids)) by left. rewrite lookup_insert_eq, Hv. destruct (decide (id ∈ ids)) as [Hin|]; [|done].
        exfalso. destruct (Hsp id Hin) as (x & Hx & Hs). rewrite lookup_insert_eq in Hx. injection Hx as <-. done.
      * rewrite lookup_insert_ne by done. destruct (decide (i ∈ ids)) as [Hin|Hn]; [by rewrite decide_True by by right|].
        rewrite decide_False; [done|]. by intros [?|?]%elem_of_cons.
Qed.

Lemma store_vtxos_rows (l : list (Vtxo * VtxoState.t)) : forall m0 m : gmap bytes (Vtxo * VtxoState.t * list VtxoState.t),
  foldl (fun acc (p : Vtxo * VtxoState.t) =>
     m ← acc; if bool_decide (is_Some (m !! vtxo_id p.1)) then None else Some (<[vtxo_id p.1 := (p.1, p.2, [])]> m)) (Some m0) l = Some m ->
  (forall p, p ∈ l -> m0 !! vtxo_id p.1 = None /\ m !! vtxo_id p.1 = Some (p.1, p.2, [])) /\
  (forall i, i ∉ (fun p => vtxo_id p.1) <$> l -> m !! i = m0 !! i).
Proof.
  induction l as [|p l IH]; intros m0 m H; cbn in H; [injection H as <-; split; [by intros p ?%elem_of_nil|done]|].
  case_bool_decide as Hp.
  { exfalso. clear IH. induction l as [|q l IHl]; [done|]. by apply IHl. }
  apply eq_None_not_Some in Hp. apply IH in H as [H1 H2]. split.
  - intros q [->|Hq]%elem_of_cons.
    + split; [done|]. destruct (decide (vtxo_id p.1 ∈ (fun q => vtxo_id q.1) <$> l)) as [Hin|Hn]; [|by rewrite (H2 _ Hn), lookup_insert_eq].
      apply list_elem_of_fmap in Hin as (q & Hq & Hin). destruct (H1 q Hin) as [Hnone _]. rewrite <- Hq in Hnone. by rewrite lookup_insert_eq in Hnone.
    + destruct (H1 q Hq) as [Hnone ?]. split; [|done]. destruct (decide (vtxo_id q.1 = vtxo_id p.1)) as [He|Hne];
        [by rewrite He, lookup_insert_eq in Hnone|by rewrite lookup_insert_ne in Hnone].
  - intros i [Hne Hi]%not_elem_of_cons. rewrite H2 by done. by rewrite lookup_insert_ne.
Qed.

#[local] Ltac run_rt :=
  match goal with |- context [rt_query ?f ?s] =>
    let s' := fresh "s'" in let Hv := fresh "Hv" in let Hr := fresh "Hr" in let Hl := fresh "Hl" in let Hk := fresh "Hk" in
    destruct (rt_query_cases f s) as (s' & Hv & Hr & Hl & Hk & [-> | ->]); cbn
  end.

#[export] Instance round_tables_laws : RoundPersisterLaws RoundTables.
Proof.
  split; [intros st s|intros st s|intros id s|intros s|intros pk s|intros id st al s|intros l s];
    cbn [db_vtxos db_rounds round_tables round_tables_persister sqlite store_round_state_lock_vtxos update_round_state remove_round_state
      load_round_states get_public_key_idx update_vtxo_state_checked store_vtxos].
  - unfold rt_store, on_sq. destruct (lock_all _ _ (rt_db s)) as [[e|[]] d] eqn:Hlock; [done|]. cbn [fst snd].
    apply lock_all_Ok in Hlock as [Hsp Hd]. unfold insert_round. run_rt; [done|]. rewrite Hr, Hl, Hv. cbn.
    pose proof (fresh_round s) as Hfr. rewrite lookup_fmap, Hfr. split; [done|]. rewrite fmap_insert, de_ser_round. split; [done|]. split; [|exact Hd].
    intros v Hin. apply Hsp, list_elem_of_fmap. eauto.
  - unfold rt_update. run_rt; rewrite Hv, Hr; [done|]. split; [done|]. intros i. rewrite !lookup_fmap. destruct (decide (i = sto_id st)) as [->|Hne].
    + rewrite lookup_alter_eq. destruct (rt_rounds s !! sto_id st); cbn; [by rewrite de_ser_round|done].
    + by rewrite lookup_alter_ne.
  - unfold rt_remove. run_rt; rewrite Hv, Hr; [done|]. by rewrite fmap_delete.
  - unfold rt_load. run_rt; rewrite ?Hv, ?Hr; [done|]. split; [done|]. split; [done|]. intros l [= <-]. rewrite map_to_list_fmap.
    rewrite <- list_fmap_compose. done.
  - unfold rt_get_public_key_idx. run_rt; by rewrite Hv, Hr.
  - done.
  - unfold on_sq. cbn. unfold sq_store_vtxos, query. destruct (head _) as [[]|]; [done| |];
      (destruct (foldl _ _ _) as [m|] eqn:Hf; cbn; [|done]; apply store_vtxos_rows in Hf as [H1 H2]; cbn [sq_vtxos] in H1, H2; split; [done|]; split_and!;
       [intros p Hp; rewrite lookup_fmap; by rewrite (proj1 (H1 p Hp))
       |intros p Hp; rewrite lookup_fmap; by rewrite (proj2 (H1 p Hp))
       |intros i Hi; rewrite !lookup_fmap; by rewrite H2]).
Qed.
End Tables.
