(* ===== verification/WalletRound.v ===== *)
(** * Rounds of the wallet: what it does (bark/src/round.rs)

    The wallet's side of a round: it submits what it gives up and asks for,
    checks and cosigns the tree the server proposes, checks the signed tree and
    signs the forfeits of its inputs, and then follows the round transaction
    until it is deeply confirmed or double spent.

    The code runs over a [World]: the database, the chain source, the
    connection to the server and the movements.  What the program draws at
    random for an event is an argument ([Draws]).  Futures that the code joins
    or runs concurrently are run one after the other. *)
From stdpp Require Import gmap.
From S2P Require Import Prelude Effects Keyed Tree Bitcoin Encode Concrete Policy Vtxo Validation Arkoor SignedTree ChainSource.
From S2P Require Import ExitStates Persist Movement Rounds Connectors Forfeit WalletRoundState.

Open Scope Z_scope.

(** The map of forfeit signatures that is sent to the server. *)
Notation ForfeitSigs := (gmap VtxoId (list (PublicNonce * PartialSignature))).

(** ** Events of the server (lib/src/rounds.rs) *)
Section Events.
Context `{B : Bitcoin}.

Inductive RoundEvent :=
  | EvAttempt (round_seq attempt_seq : Z) (challenge : bytes)
  | EvVtxoProposal (round_seq attempt_seq : Z) (unsigned_round_tx : Transaction) (vtxos_spec : VtxoTreeSpec)
      (cosign_agg_nonces : list AggregatedNonce)
  (* the nonces in the order in which the map is walked *)
  | EvRoundProposal (round_seq attempt_seq : Z) (cosign_sigs : list Signature)
      (forfeit_nonces : list (VtxoId * list PublicNonce)) (connector_pubkey : PublicKey)
  | EvFinished (round_seq attempt_seq : Z) (signed_round_tx : Transaction).

Definition event_round_seq (e : RoundEvent) : Z :=
  match e with EvAttempt r _ _ | EvVtxoProposal r _ _ _ _ | EvRoundProposal r _ _ _ _ | EvFinished r _ _ => r end.
Definition event_attempt_seq (e : RoundEvent) : Z :=
  match e with EvAttempt _ a _ | EvVtxoProposal _ a _ _ _ | EvRoundProposal _ a _ _ _ | EvFinished _ a _ => a end.

(** ** The server and the chain *)
Record ArkInfo := mkArkInfo {
  ai_server_pubkey : PublicKey; ai_nb_round_nonces : nat; ai_vtxo_exit_delta : Z; ai_vtxo_expiry_delta : Z;
  ai_htlc_expiry_delta : Z; ai_required_board_confirmations : Z; ai_max_user_invoice_cltv_delta : Z;
  ai_min_board_amount : Z; ai_offboard_feerate : Z }.

Record SubmitPayment := mkSubmit {
  sp_inputs : list (VtxoId * Signature); sp_requests : list (VtxoRequest * PublicKey * list PublicNonce);
  sp_offboards : list OffboardRequest }.

(** The connection to the server: a call may be answered or not, and a call
    that fails may have reached the server.  [forfeits_sent] is what the server
    has been given. *)
Class RoundServer (srv : Type) := {
  require_server : ext srv string unit;
  get_ark_info : ext srv string ArkInfo;
  submit_payment : SubmitPayment -> ext srv string unit;
  provide_vtxo_signatures : PublicKey -> list PartialSignature -> ext srv string unit;
  provide_forfeit_signatures : ForfeitSigs -> ext srv string unit;
  last_round_event : ext srv string RoundEvent;
  forfeits_sent : srv -> list ForfeitSigs;
}.

Class RoundServerLaws (srv : Type) {R : RoundServer srv} := {
  require_server_sent : forall s, forfeits_sent (require_server s).2 = forfeits_sent s;
  get_ark_info_sent : forall s, forfeits_sent (get_ark_info s).2 = forfeits_sent s;
  submit_payment_sent : forall p s, forfeits_sent (submit_payment p s).2 = forfeits_sent s;
  provide_vtxo_signatures_sent : forall k l s, forfeits_sent (provide_vtxo_signatures k l s).2 = forfeits_sent s;
  last_round_event_sent : forall s, forfeits_sent (last_round_event s).2 = forfeits_sent s;
  provide_forfeit_signatures_sent : forall m s,
    forfeits_sent (provide_forfeit_signatures m s).2 = forfeits_sent s \/
    forfeits_sent (provide_forfeit_signatures m s).2 = forfeits_sent s ++ [m];
}.
End Events.

(** What the round code asks the chain for, besides [ChainSource]: the clients
    behind it, and the clock. *)
Inductive ChainSourceClient := Esplora | Bitcoind.

Record OutputStatus := mkOutputStatus {
  os_spent : bool; os_txid : option bytes; os_status : option (option Z) }.

Class RoundChain (net : Type) := {
  get_output_status : bytes -> Z -> ext net string (option OutputStatus);
  get_tx_out : bytes -> Z -> ext net string (option TxOut);
  broadcast_tx : Transaction -> ext net string unit;
  clock : net -> Z;
}.

(** The parts of the wallet that make movements (bark/src/subsystem/mod.rs). *)
Inductive BarkSubsystem := SubArkoor | SubBoard | SubExit | SubLightningReceive | SubLightningSend | SubRound.

(** [BLOCK_TIME], in nanoseconds. *)
Definition BLOCK_TIME : Z := 10 * 60 * 10 ^ 9.

(** [Vec::swap_remove]. *)
Definition swap_remove {A} (i : nat) (l : list A) : list A :=
  match last l with Some x => take (length l - 1) (<[i := x]> l) | None => l end.

(** For every element of [theirs], one element of [mine] that matches it is
    taken off the list. *)
Fixpoint remove_matching {A A'} (matches : A -> A' -> bool) (mine : list A) (theirs : list A') : list A :=
  match theirs with
  | [] => mine
  | t :: theirs =>
      match position (fun v => matches v t) mine with
      | Some i => remove_matching matches (swap_remove i mine) theirs
      | None => remove_matching matches mine theirs
      end
  end.

Section Wallet.
Context `{B : Bitcoin} `{C : !Consensus} `{S : !Signing B} `{PT : !PaymentTypes}.
Context {db net srv mdb : Type} `{!Persister db, !RoundPersister db, !ChainSource net, !RoundChain net, !RoundServer srv, !MovementDb mdb}.

(** The configuration of the wallet, the clients behind its chain source, the ids
    of the subsystems it has registered and its seed. *)
Record WalletConfig := mkWalletConfig {
  wc_required_confirmations : Z; wc_vtxo_refresh_expiry_threshold : Z; wc_vtxo_exit_margin : Z; wc_htlc_recv_claim_delta : Z;
  wc_client : ChainSourceClient; wc_subsystem_ids : BarkSubsystem -> Z; wc_derive_keypair : Z -> Keypair }.

Record World := mkWorld { w_db : db; w_net : net; w_srv : srv; w_mov : MovementManager * mdb }.
Notation X := (M World string).

Definition on_wdb {E A} (err : E -> string) (m : M db E A) : X A :=
  map_err_m err (zoom w_db (fun d w => mkWorld d (w_net w) (w_srv w) (w_mov w)) m).
Definition query_db {A} (f : ext db string A) : X A := on_wdb (fun e => e) (call f).
Definition on_net {A} (f : ext net string A) : X A :=
  zoom w_net (fun n w => mkWorld (w_db w) n (w_srv w) (w_mov w)) (call f).
Definition on_srv {A} (f : ext srv string A) : X A :=
  zoom w_srv (fun s w => mkWorld (w_db w) (w_net w) s (w_mov w)) (call f).
Definition on_mov {A} (m : M (MovementManager * mdb) MovementError A) : X A :=
  map_err_m (fun _ => "movement error"%string) (zoom w_mov (fun v w => mkWorld (w_db w) (w_net w) (w_srv w) v) m).
Definition now : X Z := gets (fun w => clock (w_net w)).

Context (cfg : WalletConfig).

(** What is drawn at random for one event: a key for every output, nonces, and
    the auxiliary randomness of signatures. *)
Record Draws := mkDraws {
  dr_key : nat -> Keypair; dr_nonce : nat -> nat -> Z; dr_proof : VtxoId -> Z; dr_forfeit : VtxoId -> nat -> Z }.

(** [Wallet::get_vtxo_key] (bark/src/lib.rs). *)
Definition get_vtxo_key (vtxo : Vtxo) : X Keypair :=
  idx ← query_db (get_public_key_idx (vtxo_user_pubkey vtxo));
  idx ← Effects.lift (ok_or idx "VTXO key not found"%string);
  mret (wc_derive_keypair cfg idx).

(** [res.expect(..)]. *)
Definition expect_m {A} (m : X A) : X A := fun w =>
  match m w with (Err _, w') => (Panic, w') | r => r end.

(** ** Movements (to_movement_update, persist_round_success, persist_round_failure) *)
Definition to_signed (a : Z) : outcome string Z := ensure (a <? 2 ^ 63) "amount out of range"%string ≫= fun _ => Ok a.

Definition to_movement_update (p : RoundParticipation) : outcome string MovementUpdate :=
  input_amount ← amount_sum (amount <$> pt_inputs p);
  output_amount ← amount_sum (req_amount <$> pt_outputs p);
  offboard_amount ← amount_sum (ob_amount <$> pt_offboards p);
  f ← u_sub input_amount output_amount;
  f ← u_sub f offboard_amount;
  intended ← (fun a => - a) <$> to_signed offboard_amount;
  let destinations := (fun o =>
    mkDestination (match address_from_script (ob_script_pubkey o) with
                   | Some address => PmBitcoin address
                   | None => PmOutputScript (ob_script_pubkey o)
                   end) (ob_amount o)) <$> pt_offboards p in
  sf ← to_signed f;
  _ ← assert ((- 2 ^ 63) <=? intended - sf);
  Ok (sent_to destinations (fee f (effective_balance (intended - sf) (intended_balance intended
        (consumed_vtxos (vtxo_id <$> pt_inputs p) update_new))))).

Definition state_error (bad : list bytes) : string := "could not update the state of some VTXOs".

Definition funding_txid_metadata (txid : bytes) (u : MovementUpdate) : MovementUpdate :=
  metadata [("funding_txid"%string, txid_to_value txid)] u.

(** All of it is tried, and the first error reported. *)
Definition first_error (rs : list (string + unit)) : outcome string unit :=
  match omap (fun r => match r with inl e => Some e | inr _ => None end) rs with e :: _ => Err e | [] => Ok tt end.

Definition persist_round_success (p : RoundParticipation) (movement_id : option Z) (new_vtxos : list Vtxo)
    (signed_round_tx : Transaction) : X unit :=
  store_result ← try_m (on_wdb (fun e => e) (store_spendable_vtxos new_vtxos));
  spent_result ← try_m (on_wdb state_error (mark_vtxos_as_spent (vtxo_id <$> pt_inputs p)));
  update_result ← (match movement_id with
    | Some id =>
        t ← now;
        try_m (on_mov (update_movement id (funding_txid_metadata (compute_txid signed_round_tx)
          (produced_vtxos (vtxo_id <$> new_vtxos) update_new)) t))
    | None => mret (inr tt)
    end);
  Effects.lift (first_error [store_result; spent_result; update_result]).

Definition persist_round_failure (p : RoundParticipation) (movement_id : option Z) : X unit :=
  unlock_result ← try_m (on_wdb state_error (unlock_vtxos (vtxo_id <$> pt_inputs p)));
  finish_result ← (match movement_id with
    | Some id => t ← now; try_m (on_mov (finish_movement id MovementStatus.Failed t))
    | None => mret (inr tt)
    end);
  Effects.lift (first_error [unlock_result; finish_result]).

Definition update_funding_txid (funding_txid : bytes) (movement_id : Z) : X unit :=
  t ← now; on_mov (update_movement movement_id (funding_txid_metadata funding_txid update_new) t).

(** ** Joining an attempt (start_attempt) *)
Definition challenge_sign (challenge : bytes) (id : VtxoId) (reqs : list SignedVtxoRequest) (offs : list OffboardRequest)
    (keypair : Keypair) (rand : Z) : outcome string Signature :=
  match as_signable_message challenge id reqs offs with
  | Ok msg => Ok (sign_schnorr msg keypair rand)
  | _ => Panic
  end.

Definition cosign_nonces (d : Draws) (nb : nat) (i : nat) (key : Keypair) : list (SecretNonce * PublicNonce) :=
  (fun j => nonce_pair key (dr_nonce d i j)) <$> seq 0 nb.

Definition start_attempt (p : RoundParticipation) (challenge : bytes) (d : Draws) : X AttemptState :=
  _ ← on_srv require_server;
  ark_info ← on_srv get_ark_info;
  let cosign_keys := dr_key d <$> seq 0 (length (pt_outputs p)) in
  let vtxo_reqs := zip_with (fun r ck => mkSignedRequest r (Some (keypair_public_key ck))) (pt_outputs p) cosign_keys in
  let nonces := imap (cosign_nonces d (ai_nb_round_nonces ark_info)) cosign_keys in
  inputs ← foldM (fun inputs vtxo =>
    keypair ← expect_m (get_vtxo_key vtxo);
    sig ← Effects.lift (challenge_sign challenge (vtxo_id vtxo) vtxo_reqs (pt_offboards p) keypair (dr_proof d (vtxo_id vtxo)));
    mret (inputs ++ [(vtxo_id vtxo, sig)])) [] (pt_inputs p);
  _ ← on_srv (submit_payment (mkSubmit inputs
        (zip (zip (pt_outputs p) (keypair_public_key <$> cosign_keys)) ((fun l : list (SecretNonce * PublicNonce) => l.*2) <$> nonces)) (pt_offboards p)));
  mret (AwaitingUnsignedVtxoTree cosign_keys ((fun l : list (SecretNonce * PublicNonce) => l.*1) <$> nonces)).

(** ** Cosigning the tree (sign_vtxo_tree) *)
Definition same_request (v t : VtxoRequest) : bool :=
  bool_decide (req_policy v = req_policy t) && bool_decide (req_amount v = req_amount t).
Definition is_offboard (o : OffboardRequest) (t : TxOut) : bool := bool_decide (to_txout o = t).

Definition cosign_one (u : UnsignedVtxoTree) (agg_nonces : list AggregatedNonce) (item : SignedVtxoRequest * Keypair * list SecretNonce)
  : X unit :=
  let '(req, key, sec) := item in
  leaf_idx ← Effects.lift (expect (leaf_idx_of (ut_spec u) req));
  part_sigs ← Effects.lift (map_err (fun _ => "failed to cosign branch: our request not part of tree"%string)
    (cosign_branch u agg_nonces leaf_idx key sec));
  on_srv (provide_vtxo_signatures (keypair_public_key key) part_sigs).

Definition sign_vtxo_tree (p : RoundParticipation) (cosign_keys : list Keypair) (secret_nonces : list (list SecretNonce))
    (unsigned_round_tx : Transaction) (vtxo_tree : VtxoTreeSpec) (cosign_agg_nonces : list AggregatedNonce) : X unit :=
  _ ← on_srv require_server;
  _ ← Effects.lift (ensure (MIN_ROUND_TX_OUTPUTS <=? Z.of_nat (length (output unsigned_round_tx)))
        "server sent round tx with less than 2 outputs"%string);
  let vtxos_utxo := mkOutPoint (compute_txid unsigned_round_tx) ROUND_TX_VTXO_TREE_VOUT in
  let my_vtxos := zip_with (fun r k => mkSignedRequest r (Some (keypair_public_key k))) (pt_outputs p) cosign_keys in
  _ ← Effects.lift (ensure (bool_decide (remove_matching same_request (pt_outputs p) (sr_vtxo <$> ts_vtxos vtxo_tree) = []))
        "server didn't include all of our vtxos"%string);
  _ ← Effects.lift (ensure (bool_decide (remove_matching is_offboard (pt_offboards p) (drop 2 (output unsigned_round_tx)) = []))
        "server didn't include all of our offboards"%string);
  unsigned_vtxos ← Effects.lift (into_unsigned_tree vtxo_tree vtxos_utxo);
  forM_ (zip (zip my_vtxos cosign_keys) secret_nonces) (cosign_one unsigned_vtxos cosign_agg_nonces).

(** ** Signing forfeits (sign_forfeits, submit_forfeit_sigs) *)

(** The leaves that match what is still [expected] become our VTXOs. *)
Fixpoint pick_vtxos (c : CachedSignedVtxoTree) (unsigned_round_tx : Transaction) (expected : list VtxoRequest)
    (reqs : list (nat * SignedVtxoRequest)) : outcome string (list VtxoRequest * list Vtxo) :=
  match reqs with
  | [] => Ok (expected, [])
  | (idx, req) :: reqs =>
      match position (fun r => bool_decide (r = sr_vtxo req)) expected with
      | Some i =>
          vtxo ← build_vtxo c idx;
          vtxo ← expect vtxo;
          _ ← map_err (fun _ => "constructed invalid vtxo from tree"%string) (validate vtxo unsigned_round_tx);
          r ← pick_vtxos c unsigned_round_tx (swap_remove i expected) reqs;
          Ok (r.1, vtxo :: r.2)
      | None => pick_vtxos c unsigned_round_tx expected reqs
      end
  end.

Definition all_included (expected total : list VtxoRequest) : outcome string unit :=
  if bool_decide (expected = []) then Ok tt
  else if (length expected =? length total)%nat then Err "None of our VTXOs were present in round!"%string
  else Err "Server included some of our VTXOs but not all"%string.

Definition sign_forfeits (p : RoundParticipation) (unsigned_round_tx : Transaction) (vtxo_tree : VtxoTreeSpec)
    (vtxo_cosign_sigs : list Signature) (forfeit_nonces : list (VtxoId * list PublicNonce)) (connector_pubkey : PublicKey)
    (d : Draws) : X (list Vtxo * ForfeitSigs) :=
  _ ← on_srv require_server;
  ark_info ← on_srv get_ark_info;
  let round_txid := compute_txid unsigned_round_tx in
  vtxo_tree ← Effects.lift (into_unsigned_tree vtxo_tree (mkOutPoint round_txid ROUND_TX_VTXO_TREE_VOUT));
  _ ← Effects.lift (map_err (fun _ => "Received incorrect vtxo cosign signatures from server"%string)
        (verify_cosign_sigs vtxo_tree vtxo_cosign_sigs));
  let signed_vtxos := into_signed_tree vtxo_tree vtxo_cosign_sigs in
  conn_txout ← Effects.lift (expect (output unsigned_round_tx !! Z.to_nat ROUND_TX_CONNECTOR_VOUT));
  expected_conn_txout ← Effects.lift (connector_output (Z.of_nat (length forfeit_nonces)) connector_pubkey);
  _ ← Effects.lift (ensure (bool_decide (conn_txout = expected_conn_txout)) "round tx from server has unexpected connector output"%string);
  first ← Effects.lift (expect (head forfeit_nonces));
  connectors ← Effects.lift (chain_new (Z.of_nat (length first.2)) (mkOutPoint round_txid ROUND_TX_CONNECTOR_VOUT) connector_pubkey);
  forfeit_sigs ← foldM (fun (sigs : ForfeitSigs) vtxo =>
    keypair ← get_vtxo_key vtxo;
    s ← Effects.lift (sign_vtxo_forfeits vtxo keypair (ai_server_pubkey ark_info) connector_pubkey
          (kget forfeit_nonces (vtxo_id vtxo)) (dr_forfeit d (vtxo_id vtxo)) connectors);
    mret (<[vtxo_id vtxo := s]> sigs)) ∅ (pt_inputs p);
  signed_vtxos ← Effects.lift (into_cached_tree signed_vtxos);
  picked ← Effects.lift (pick_vtxos signed_vtxos unsigned_round_tx (pt_outputs p)
             (imap pair (ts_vtxos (st_spec (ct_spec signed_vtxos)))));
  _ ← Effects.lift (all_included picked.1 (pt_outputs p));
  mret (picked.2, forfeit_sigs).

Definition submit_forfeit_sigs (forfeit_sigs : ForfeitSigs) : X unit :=
  _ ← on_srv require_server; on_srv (provide_forfeit_signatures forfeit_sigs).

(** ** One event (progress_attempt, process_event) *)
Inductive AttemptProgressResult :=
  | ApFinished (signed_round_tx : Transaction) (vtxos : list Vtxo)
  | ApFailed (error : string)
  | ApUpdated (new_state : AttemptState) (new_unconfirmed_round : option UnconfirmedRound)
  | ApNotUpdated.

Definition progress_attempt (state : AttemptState) (p : RoundParticipation) (event : RoundEvent) (d : Draws) : X AttemptProgressResult :=
  match state, event with
  | AwaitingUnsignedVtxoTree cosign_keys secret_nonces, EvVtxoProposal _ _ tx spec aggs =>
      r ← try_m (sign_vtxo_tree p cosign_keys secret_nonces tx spec aggs);
      mret (match r with inr _ => ApUpdated (AwaitingRoundProposal tx spec) None | inl e => ApFailed e end)
  | AwaitingRoundProposal tx spec, EvRoundProposal _ _ sigs nonces pk =>
      r ← try_m (sign_forfeits p tx spec sigs nonces pk d);
      match r with
      | inr (new_vtxos, forfeit_sigs) =>
          let round := unconfirmed_new tx new_vtxos in
          sent ← try_m (submit_forfeit_sigs forfeit_sigs);
          mret (ApUpdated (match sent with inr _ => AwaitingFinishedRound tx new_vtxos | inl _ => AwaitingAttempt end) (Some round))
      | inl e => mret (ApFailed e)
      end
  | AwaitingFinishedRound tx new_vtxos, EvFinished _ _ signed_tx =>
      if bool_decide (compute_txid tx <> compute_txid signed_tx)
      then mret (ApFailed "signed funding tx doesn't match tx received before")
      else mret (ApFinished signed_tx new_vtxos)
  | _, EvFinished _ _ _ => mret (ApFailed "unexpectedly received a finished round")
  | _, _ => mret ApNotUpdated
  end.

(** The state of the round next to the world. *)
Notation R := (M (WalletRound * World) string).

Definition on_world {A} (m : X A) : R A := zoom snd (fun w s => (s.1, w)) m.
Definition on_round (f : WalletRound -> WalletRound) : R unit := modify (fun s => (f s.1, s.2)).
Definition set_flow (fl : RoundFlowState) (s : WalletRound) : WalletRound :=
  mkWalletRound (wr_participation s) fl (wr_unconfirmed s) (wr_movement_id s).
Definition set_unconfirmed (urs : list UnconfirmedRound) (s : WalletRound) : WalletRound :=
  mkWalletRound (wr_participation s) (wr_flow s) urs (wr_movement_id s).

Definition try_start_attempt (round_seq attempt_seq : Z) (challenge : bytes) (d : Draws) : R unit :=
  s ← gets fst;
  r ← on_world (try_m (start_attempt (wr_participation s) challenge d));
  on_round (set_flow (match r with inr state => Ongoing round_seq attempt_seq state | inl e => FlowFailed e end)).

Definition set_funding_tx (tx : Transaction) (r : UnconfirmedRound) : UnconfirmedRound :=
  mkUnconfirmed tx (ur_new_vtxos r) (ur_double_spenders r) (ur_first_double_spent_at r).

(** The round finished: its transaction is looked up among ours. *)
Definition finish_attempt (signed_round_tx : Transaction) (vtxos : list Vtxo) : R unit :=
  s ← gets fst;
  _ ← Effects.lift (assert (negb (bool_decide (wr_unconfirmed s = []))));
  match position (fun r => bool_decide (funding_txid r = compute_txid signed_round_tx)) (wr_unconfirmed s) with
  | Some i =>
      _ ← on_round (fun s => set_unconfirmed (alter (set_funding_tx signed_round_tx) i (wr_unconfirmed s)) s);
      _ ← on_world (try_m (F := string) (persist_round_success (wr_participation s) (wr_movement_id s) vtxos signed_round_tx));
      on_round (set_flow FlowSuccess)
  | None => on_round (set_flow (FlowFailed "server sent signed round tx, but we don't have a state for that"))
  end.

Definition process_event (event : RoundEvent) (d : Draws) : R bool :=
  s ← gets fst;
  match wr_flow s with
  | WaitingToStart =>
      match event with
      | EvAttempt r a challenge => if a =? 0 then _ ← try_start_attempt r a challenge d; mret true else mret false
      | _ => mret false
      end
  | Ongoing round_seq attempt_seq state =>
      if round_seq <? event_round_seq event then
        _ ← on_round (set_flow (FlowFailed "round started while we were on another")); mret true
      else if event_attempt_seq event <? attempt_seq then mret false
      else
        match event with
        | EvAttempt r a challenge =>
            if attempt_seq <? a then _ ← try_start_attempt r a challenge d; mret true
            else mret false
        | _ =>
            res ← on_world (progress_attempt state (wr_participation s) event d);
            match res with
            | ApNotUpdated => mret false
            | ApUpdated new_state new_round =>
                _ ← on_round (fun s => set_flow (Ongoing round_seq attempt_seq new_state)
                      (set_unconfirmed (wr_unconfirmed s ++ option_list new_round) s));
                mret true
            | ApFailed e => _ ← on_round (set_flow (FlowFailed e)); mret true
            | ApFinished tx vtxos => _ ← finish_attempt tx vtxos; mret true
            end
        end
  | FlowSuccess | FlowFailed _ | FlowCanceled => mret false
  end.

(** [try_cancel]. *)
Definition try_cancel : R bool :=
  s ← gets fst;
  ret ← (match wr_flow s with
    | FlowCanceled => mret true
    | FlowSuccess => mret false
    | WaitingToStart => _ ← on_round (set_flow FlowCanceled); mret true
    | FlowFailed _ => mret (bool_decide (wr_unconfirmed s = []))
    | Ongoing _ _ _ =>
        if bool_decide (wr_unconfirmed s = []) then _ ← on_round (set_flow FlowCanceled); mret true else mret false
    end);
  if (ret : bool) then _ ← on_world (persist_round_failure (wr_participation s) (wr_movement_id s)); mret true else mret false.

(** ** Following the round transaction (UnconfirmedRound) *)
Inductive UnconfirmedRoundStatus :=
  | UrConfirmed
  | UrDoubleSpent (double_spender : option bytes)
  | UrUnconfirmed.

Notation U := (M (UnconfirmedRound * World) string).
Definition on_world_u {A} (m : X A) : U A := zoom snd (fun w s => (s.1, w)) m.
Definition on_ur (f : UnconfirmedRound -> UnconfirmedRound) : U unit := modify (fun s => (f s.1, s.2)).
Definition set_double_spender (idx : nat) (t : option bytes) (r : UnconfirmedRound) : UnconfirmedRound :=
  mkUnconfirmed (ur_funding_tx r) (ur_new_vtxos r) (<[idx := t]> (ur_double_spenders r)) (ur_first_double_spent_at r).
Definition set_first_double_spent (t : option Z) (r : UnconfirmedRound) : UnconfirmedRound :=
  mkUnconfirmed (ur_funding_tx r) (ur_new_vtxos r) (ur_double_spenders r) t.

(** Only a transaction that is not signed yet is replaced. *)
Definition maybe_update_tx (txid : bytes) : U unit :=
  r ← gets fst;
  if is_tx_signed r then mret tt
  else
    tx ← on_world_u (try_m (F := string) (on_net (get_tx txid)));
    match tx with
    | inr (Some tx) =>
        _ ← Effects.lift (assert (bool_decide (txid = compute_txid tx)));
        on_ur (set_funding_tx tx)
    | _ => mret tt
    end.

(** The order on pairs of a height and a txid. *)
Fixpoint bytes_ltb (a b : bytes) : bool :=
  match a, b with
  | _, [] => false
  | [], _ :: _ => true
  | x :: a, y :: b =>
      if N.ltb (Byte.to_N x) (Byte.to_N y) then true
      else if N.eqb (Byte.to_N x) (Byte.to_N y) then bytes_ltb a b else false
  end.

Definition later (confirmed : option (Z * bytes)) (c : Z * bytes) : option (Z * bytes) :=
  match confirmed with
  | Some (h, t) => if (c.1 <? h) || ((c.1 =? h) && bytes_ltb c.2 t) then Some (h, t) else Some c
  | None => Some c
  end.

(** Esplora: look for a transaction that spends one input. *)
Definition look_up_spender (idx : nat) (i : TxIn) (round_txid : bytes) (confirmed : option (Z * bytes)) : U (option (Z * bytes)) :=
  info ← on_world_u (on_net (get_output_status (op_txid (previous_output i)) (op_vout (previous_output i))));
  match info with
  | None => mret confirmed
  | Some info =>
      if negb (os_spent info) || bool_decide (os_txid info = Some round_txid) then mret confirmed
      else
        txid ← Effects.lift (ok_or (os_txid info) "expected txid"%string);
        _ ← on_ur (set_double_spender idx (Some txid));
        status ← Effects.lift (ok_or (os_status info) "expected status"%string);
        mret (match status with Some height => later confirmed (height, txid) | None => confirmed end)
  end.

Definition check_input (round_txid : bytes) (confirmed : option (Z * bytes)) (p : nat * TxIn) : U (option (Z * bytes)) :=
  r ← gets fst;
  spender ← Effects.lift (at_idx (ur_double_spenders r) p.1);
  match spender with
  | Some txid =>
      st ← on_world_u (on_net (chain_tx_status txid));
      match st with
      | TxStatus.Confirmed b => mret (later confirmed (height b, txid))
      | TxStatus.Mempool => mret confirmed
      | TxStatus.NotFound => _ ← on_ur (set_double_spender p.1 None); look_up_spender p.1 p.2 round_txid confirmed
      end
  | None => look_up_spender p.1 p.2 round_txid confirmed
  end.

(** bitcoind: is an output that the round spends gone? *)
Fixpoint some_input_gone (inputs : list TxIn) : X bool :=
  match inputs with
  | [] => mret false
  | i :: inputs =>
      out ← on_net (get_tx_out (op_txid (previous_output i)) (op_vout (previous_output i)));
      match out with None => mret true | Some _ => some_input_gone inputs end
  end.

Definition check_if_double_spent : U (option UnconfirmedRoundStatus) :=
  r ← gets fst;
  match wc_client cfg with
  | Esplora =>
      confirmed ← foldM (check_input (funding_txid r)) None (imap pair (input (ur_funding_tx r)));
      match confirmed with
      | Some (height, txid) =>
          tip ← on_world_u (on_net chain_tip);
          h ← Effects.lift (u_sub height 1);
          confirmations ← Effects.lift (u_sub tip h);
          mret (if wc_required_confirmations cfg <=? confirmations then Some (UrDoubleSpent (Some txid)) else None)
      | None => mret None
      end
  | Bitcoind =>
      doublespent ← on_world_u (some_input_gone (input (ur_funding_tx r)));
      if (doublespent : bool) then
        t ← on_world_u now;
        let since := default t (ur_first_double_spent_at r) in
        _ ← on_ur (set_first_double_spent (Some since));
        blocks ← Effects.lift (u_mul 32 2 (wc_required_confirmations cfg));
        mret (if (since <=? t) && (blocks * BLOCK_TIME <? t - since) then Some (UrDoubleSpent None) else None)
      else _ ← on_ur (set_first_double_spent None); mret None
  end.

Definition unconfirmed_sync : U UnconfirmedRoundStatus :=
  r ← gets fst;
  let txid := funding_txid r in
  st ← on_world_u (on_net (chain_tx_status txid));
  match st with
  | TxStatus.NotFound =>
      res ← check_if_double_spent;
      match res with
      | Some res => mret res
      | None =>
          r ← gets fst;
          _ ← (if is_tx_signed r then _ ← on_world_u (try_m (F := string) (on_net (broadcast_tx (ur_funding_tx r)))); mret tt else mret tt);
          mret UrUnconfirmed
      end
  | TxStatus.Mempool =>
      _ ← on_ur (set_first_double_spent None);
      _ ← maybe_update_tx txid;
      mret UrUnconfirmed
  | TxStatus.Confirmed block =>
      _ ← on_ur (set_first_double_spent None);
      _ ← maybe_update_tx txid;
      tip ← on_world_u (on_net chain_tip);
      c ← Effects.lift (u_sub tip (height block));
      confirmations ← Effects.lift (u_add 32 c 1);
      mret (if wc_required_confirmations cfg <=? confirmations then UrConfirmed else UrUnconfirmed)
  end.

(** ** Syncing a round (RoundState::sync) *)

(** Code on the round at a position ([get_mut(idx).unwrap()]). *)
Definition at_round {A} (idx : nat) (m : U A) : R A := fun s =>
  match wr_unconfirmed s.1 !! idx with
  | Some r => ((m (r, s.2)).1, (set_unconfirmed (<[idx := (m (r, s.2)).2.1]> (wr_unconfirmed s.1)) s.1, (m (r, s.2)).2.2))
  | None => (Panic, s)
  end.

(** What a sync of one round leads to: the round txid if it has confirmed, and
    whether the round was taken off the list. *)
Definition sync_at (idx : nat) : R (option bytes * bool) :=
  s ← gets fst;
  let was_signed := default false (is_tx_signed <$> wr_unconfirmed s !! idx) in
  res ← try_m (F := string) (at_round idx unconfirmed_sync);
  s ← gets fst;
  round ← Effects.lift (expect (wr_unconfirmed s !! idx));
  persisted ← (if negb was_signed && is_tx_signed round
               then try_m (F := string) (on_world (persist_round_success (wr_participation s) (wr_movement_id s)
                      (ur_new_vtxos round) (ur_funding_tx round)))
               else mret (inr tt));
  match persisted, res with
  | inl _, _ => mret (None, false)
  | inr _, inr UrConfirmed => mret (Some (funding_txid round), false)
  | inr _, inr (UrDoubleSpent _) => _ ← on_round (fun s => set_unconfirmed (swap_remove idx (wr_unconfirmed s)) s); mret (None, true)
  | inr _, inr UrUnconfirmed => mret (None, false)
  | inr _, inl _ => mret (None, false)
  end.

(** The loop over the rounds; every turn brings [idx] and the length one closer. *)
Fixpoint sync_rounds (fuel idx : nat) (confirmed : option bytes) : R (option bytes) := fun s =>
  if (idx <? length (wr_unconfirmed s.1))%nat then
    match fuel with
    | O => (Panic, s)
    | Datatypes.S fuel =>
        (r ← sync_at idx;
         sync_rounds fuel (if (r.2 : bool) then idx else Datatypes.S idx) (match r.1 with Some t => Some t | None => confirmed end)) s
    end
  else (Ok confirmed, s).

Definition round_sync : R RoundStatus :=
  s ← gets fst;
  confirmed ← sync_rounds (length (wr_unconfirmed s)) 0 None;
  s ← gets fst;
  match confirmed with
  | Some funding_txid =>
      _ ← (match wr_movement_id s with
           | Some id =>
               _ ← on_world (update_funding_txid funding_txid id);
               t ← on_world now; on_world (on_mov (finish_movement id MovementStatus.Successful t))
           | None => mret tt
           end);
      mret (StConfirmed funding_txid)
  | None =>
      if bool_decide (wr_unconfirmed s = []) then
        let fail status := _ ← on_world (persist_round_failure (wr_participation s) (wr_movement_id s)); mret status in
        match wr_flow s with
        | WaitingToStart | Ongoing _ _ _ => mret (StPending [])
        | FlowSuccess => fail (StFailed "all pending round funding transactions have been double spent")
        | FlowFailed error => fail (StFailed error)
        | FlowCanceled => fail StCanceled
        end
      else
        match List.find is_tx_signed (wr_unconfirmed s) with
        | Some signed =>
            _ ← (match wr_movement_id s with
                 | Some id => on_world (update_funding_txid (funding_txid signed) id)
                 | None => mret tt
                 end);
            mret (StUnconfirmed (funding_txid signed))
        | None => mret (StPending (funding_txid <$> wr_unconfirmed s))
        end
  end.

(** ** The wallet (impl Wallet) *)

(** Run code of one stored round on the world. *)
Definition with_round {A} (m : R A) (st : WalletRound) : X (A * WalletRound) := fun w =>
  (((fun a => (a, (m (st, w)).2.1)) <$> (m (st, w)).1), (m (st, w)).2.2).

(** The same, with the state that is left also when there is an error. *)
Definition try_round {A} (m : R A) (st : WalletRound) : X ((string + A) * WalletRound) := with_round (try_m m) st.

(** An error of the database that is only logged. *)
Definition logged {A} (m : X A) : X unit := _ ← try_m (F := string) m; mret tt.

Definition join_next_round (p : RoundParticipation) (movement_kind : option string) : X StoredRoundState :=
  _ ← Effects.lift (ensure (negb (existsb (fun r => req_amount r <? P2TR_DUST) (pt_outputs p))) "VTXO amount must be at least the dust limit"%string);
  _ ← Effects.lift (ensure (negb (existsb (fun o => ob_amount o <? P2TR_DUST) (pt_offboards p))) "Offboard amount must be at least the dust limit"%string);
  movement_id ← (match movement_kind with
    | Some kind =>
        update ← Effects.lift (to_movement_update p);
        t ← now;
        id ← on_mov (new_movement_with_update (wc_subsystem_ids cfg SubRound) kind update t);
        mret (Some id)
    | None => mret None
    end);
  let state := wallet_round_new p movement_id in
  id ← query_db (store_round_state_lock_vtxos state);
  mret (mkStored id state).

(** The body of [sync_pending_rounds]. *)
Definition sync_pending_one (st : StoredRoundState) : X unit :=
  if ongoing_participation (sto_state st) then mret tt
  else
    r ← try_round round_sync (sto_state st);
    match r.1 with
    | inr status =>
        if status_is_final status then logged (query_db (remove_round_state (sto_id st)))
        else logged (query_db (update_round_state (mkStored (sto_id st) r.2)))
    | inl _ => mret tt
    end.

Definition sync_pending_rounds : X unit :=
  states ← query_db load_round_states;
  forM_ states sync_pending_one.

(** The body of [inner_process_event]: what becomes of one state. *)
Definition process_one (event : option (RoundEvent * Draws)) (st : StoredRoundState) : X StoredRoundState :=
  st ← (match event with
    | Some (e, d) =>
        if ongoing_participation (sto_state st) then
          r ← with_round (process_event e d) (sto_state st);
          _ ← (if (r.1 : bool) then logged (query_db (update_round_state (mkStored (sto_id st) r.2))) else mret tt);
          mret (mkStored (sto_id st) r.2)
        else mret st
    | None => mret st
    end);
  r ← try_round round_sync (sto_state st);
  _ ← (match r.1 with
    | inl _ => mret tt
    | inr s =>
        if status_is_final s then logged (query_db (remove_round_state (sto_id st)))
        else logged (query_db (update_round_state (mkStored (sto_id st) r.2)))
    end);
  mret (mkStored (sto_id st) r.2).

(** One event for every state; the draws are given per state. *)
Definition inner_process_event (states : list StoredRoundState) (event : option (RoundEvent * (Z -> Draws))) : X (list StoredRoundState) :=
  foldM (fun acc st =>
    st' ← process_one ((fun p => (p.1, p.2 (sto_id st))) <$> event) st; mret (acc ++ [st'])) [] states.

Definition progress_pending_rounds (last_event : option RoundEvent) (d : Z -> Draws) : X unit :=
  states ← query_db load_round_states;
  event ← (match last_event with
    | Some e => mret (Some e)
    | None =>
        if existsb (fun st => ongoing_participation (sto_state st)) states then
          r ← try_m (F := string) (_ ← on_srv require_server; on_srv last_round_event);
          mret (match r with inr e => Some e | inl _ => None end)
        else mret None
    end);
  _ ← inner_process_event states ((fun e => (e, d)) <$> event);
  mret tt.

(** A stream of events: each item is an event or an error, with the draws for
    it; the stream may break. *)
Definition EventStream : Type := list (string + RoundEvent * (Z -> Draws)).

Definition keep_ongoing (states : list StoredRoundState) : list StoredRoundState :=
  List.filter (fun st => ongoing_participation (sto_state st)) states.

Fixpoint participate_loop (states : list StoredRoundState) (events : EventStream) : X unit :=
  match events with
  | [] => throw "events stream broke"%string
  | inl e :: _ => throw e
  | inr event :: events =>
      states ← inner_process_event states (Some event);
      if bool_decide (keep_ongoing states = []) then mret tt else participate_loop (keep_ongoing states) events
  end.

Definition participate_ongoing_rounds (events : EventStream) : X unit :=
  states ← query_db load_round_states;
  if bool_decide (keep_ongoing states = []) then mret tt
  else _ ← on_srv require_server; participate_loop (keep_ongoing states) events.

(** The body of [cancel_all_pending_rounds]. *)
Definition cancel_one (st : StoredRoundState) : X unit :=
  r ← try_round try_cancel (sto_state st);
  match r.1 with
  | inr true => logged (query_db (remove_round_state (sto_id st)))
  | _ => mret tt
  end.

Definition cancel_all_pending_rounds : X unit :=
  states ← query_db load_round_states;
  forM_ states cancel_one.

Definition cancel_pending_round (id : Z) : X unit :=
  states ← query_db load_round_states;
  match List.find (fun st => bool_decide (sto_id st = id)) states with
  | Some st =>
      r ← with_round try_cancel (sto_state st);
      if (r.1 : bool) then query_db (remove_round_state (sto_id st)) else throw "failed to cancel round"%string
  | None => throw "round not found"%string
  end.

(** The loop of [participate_round]. *)
Fixpoint participate_round_loop (st : StoredRoundState) (events : EventStream) : X RoundStatus :=
  if negb (ongoing_participation (sto_state st)) then r ← with_round round_sync (sto_state st); mret r.1
  else
    match events with
    | [] => throw "events stream broke"%string
    | inl e :: _ => throw e
    | inr (event, d) :: events =>
        r ← with_round (process_event event (d (sto_id st))) (sto_state st);
        _ ← (if (r.1 : bool) then query_db (update_round_state (mkStored (sto_id st) r.2)) else mret tt);
        participate_round_loop (mkStored (sto_id st) r.2) events
    end.

Definition participate_round (p : RoundParticipation) (movement_kind : option string) (events : EventStream) : X RoundStatus :=
  st ← join_next_round p movement_kind;
  _ ← on_srv require_server;
  participate_round_loop st events.
End Wallet.
