(* ===== verification/WalletRoundSafety.v ===== *)
(** * Rounds of the wallet: no forfeit is forgotten

    A forfeit the wallet has signed and sent takes its VTXO away as soon as the
    round transaction confirms.  The wallet therefore follows every round it
    has signed forfeits for until that round can no longer confirm, keeps the
    VTXOs it was promised in return, and does not touch the inputs before. *)
From stdpp Require Import gmap.
From S2P Require Import Prelude Effects Keyed Tree Bitcoin Encode Concrete Policy Vtxo Validation Arkoor SignedTree ChainSource.
From S2P Require Import ExitStates Persist Movement Rounds Connectors Forfeit WalletRoundState WalletRound.

Open Scope Z_scope.

(** ** Matching lists *)
Lemma swap_remove_perm {A} (l : list A) i a : l !! i = Some a -> l ≡ₚ a :: swap_remove i l.
Proof.
  intros (l1 & l2 & -> & ->)%list_elem_of_split_length. unfold swap_remove.
  destruct l2 as [|x l2 _] using rev_ind.
  - rewrite last_snoc, length_app, Nat.add_sub, list_insert_id by (by apply list_lookup_middle).
    rewrite take_app_length. by rewrite Permutation_app_comm.
  - rewrite app_comm_cons, app_assoc, last_snoc. rewrite length_app, Nat.add_sub.
    rewrite insert_app_l by (rewrite length_app; cbn; lia). rewrite take_app_le by (by rewrite length_insert).
    rewrite take_ge by (by rewrite length_insert). rewrite insert_app_r_alt, Nat.sub_diag by done. cbn.
    rewrite <- !app_assoc. cbn. rewrite <- !Permutation_middle. rewrite Permutation_app_comm with (l := l2). cbn.
    by rewrite Permutation_middle.
Qed.

Lemma position_lookup {A} (p : A -> bool) l i : position p l = Some i -> exists a, l !! i = Some a /\ p a = true.
Proof.
  revert i. induction l as [|a l IH]; intros i; cbn; [done|]. destruct (p a) eqn:Hp; [intros [= <-]; by exists a|].
  intros (j & Hj & ->)%fmap_Some. apply IH in Hj as (b & ? & ?). by exists b.
Qed.

Lemma remove_matching_perm {A A'} (matches : A -> A' -> bool) theirs : forall mine,
  exists took theirs' rest, mine ≡ₚ remove_matching matches mine theirs ++ took /\ theirs ≡ₚ theirs' ++ rest /\
    Forall2 (fun a t => matches a t = true) took theirs'.
Proof.
  induction theirs as [|t theirs IH]; intros mine; cbn [remove_matching]; [exists [], [], []; by rewrite app_nil_r|].
  destruct (position _ mine) as [i|] eqn:Hp.
  - apply position_lookup in Hp as (a & Ha & Hm). destruct (IH (swap_remove i mine)) as (took & ts & rest & H1 & H2 & H3).
    exists (a :: took), (t :: ts), rest. split_and!; [|by rewrite H2|by constructor].
    rewrite (swap_remove_perm mine i a Ha), H1 at 1. by rewrite Permutation_middle.
  - destruct (IH mine) as (took & ts & rest & H1 & H2 & H3). exists took, ts, (t :: rest). split_and!; [done| |done].
    rewrite H2. by rewrite Permutation_middle.
Qed.

(** A set of states of the chain source that its calls do not leave: the states
    of a run are in every such set that contains the first one. *)
Class SeenLaws {net : Type} `{!ChainSource net, !RoundChain net} (Seen : net -> Prop) := {
  seen_tip : forall n, Seen n -> Seen (chain_tip n).2;
  seen_tx_status : forall t n, Seen n -> Seen (chain_tx_status t n).2;
  seen_tx : forall t n, Seen n -> Seen (get_tx t n).2;
  seen_output_status : forall t v n, Seen n -> Seen (get_output_status t v n).2;
  seen_tx_out : forall t v n, Seen n -> Seen (get_tx_out t v n).2;
  seen_broadcast : forall tx n, Seen n -> Seen (broadcast_tx tx n).2;
}.

Section Sound.
Context `{B : Bitcoin} `{C : !Consensus} `{S : !Signing B} `{PT : !PaymentTypes}.
Context {db net srv mdb : Type} `{!Persister db, !RoundPersister db, !ChainSource net, !RoundChain net, !RoundServer srv, !MovementDb mdb}.
Context `{!PersisterLaws db, !RoundPersisterLaws db, !RoundServerLaws srv}.
Notation W := (World (db := db) (net := net) (srv := srv) (mdb := mdb)).
Context (cfg : WalletConfig) (Seen : net -> Prop) `{!SeenLaws Seen}.

(** ** Code that leaves VTXOs and forfeits alone *)
Definition quiet : relation W := fun w w' =>
  db_vtxos (w_db w') = db_vtxos (w_db w) /\ forfeits_sent (w_srv w') = forfeits_sent (w_srv w) /\
  (Seen (w_net w) -> Seen (w_net w')).

#[local] Instance quiet_preorder : PreOrder quiet.
Proof. split; [done|]. intros w1 w2 w3 (H1 & H2 & H3) (H4 & H5 & H6). split_and!; [congruence..|auto]. Qed.

Lemma quiet_net {A} (f : ext net string A) : (forall n, Seen n -> Seen (f n).2) -> keeps quiet (on_net f : M W string A).
Proof. intros H w. split_and!; [done..|]. cbn. apply H. Qed.

Lemma quiet_mov {A} (m : M (MovementManager * mdb) MovementError A) : keeps quiet (on_mov m : M W string A).
Proof. by intros w. Qed.

Lemma quiet_now : keeps quiet (now : M W string Z).
Proof. by intros w. Qed.

Lemma quiet_srv {A} (f : ext srv string A) : (forall s, forfeits_sent (f s).2 = forfeits_sent s) ->
  keeps quiet (on_srv f : M W string A).
Proof. intros H w. split_and!; [done| |done]. cbn. apply H. Qed.

Lemma quiet_key vtxo : keeps quiet (get_vtxo_key cfg vtxo : M W string Keypair).
Proof.
  unfold get_vtxo_key. apply keeps_bind; [apply _| |intros; solve_keeps].
  intros w. destruct (get_public_key_idx_db (vtxo_user_pubkey vtxo) (w_db w)) as [H _]. split_and!; [exact H|done..].
Qed.

Lemma quiet_expect {A} (m : M W string A) : keeps quiet m -> keeps quiet (expect_m m).
Proof. intros H w. specialize (H w). unfold expect_m. by destruct (m w) as [[a|e|] w']. Qed.

#[local] Hint Resolve quiet_mov quiet_now quiet_key quiet_expect : effects.
#[local] Hint Extern 2 (keeps quiet (on_srv _)) => apply quiet_srv; intros; first
  [apply require_server_sent | apply get_ark_info_sent | apply submit_payment_sent | apply provide_vtxo_signatures_sent
  | apply last_round_event_sent] : effects.

Lemma quiet_start_attempt p ch d : keeps quiet (start_attempt cfg p ch d : M W string AttemptState).
Proof. unfold start_attempt. solve_keeps. Qed.

Lemma quiet_sign_vtxo_tree p ks ns tx spec aggs : keeps quiet (sign_vtxo_tree p ks ns tx spec aggs : M W string unit).
Proof. unfold sign_vtxo_tree, forM_, cosign_one. solve_keeps. Qed.

Lemma quiet_sign_forfeits p tx spec sigs ns pk d : keeps quiet (sign_forfeits cfg p tx spec sigs ns pk d : M W string _).
Proof. unfold sign_forfeits. solve_keeps. Qed.

Lemma quiet_funding_txid t id : keeps quiet (update_funding_txid t id : M W string unit).
Proof. unfold update_funding_txid. solve_keeps. Qed.

(** ** What is asked for, and what is given up *)
Definition request_of (v : Vtxo) : VtxoRequest := mkRequest (amount v) (policy v).

(** [vs] is what the participant was promised by the round transaction [tx]:
    the VTXOs asked for, as different leaves of a tree below its first output,
    each of them valid, and all offboards among its outputs. *)
Record covers (p : RoundParticipation) (tx : Transaction) (vs : list Vtxo) : Prop := {
  cv_requests : request_of <$> vs ≡ₚ pt_outputs p;
  cv_valid : Forall (fun v => validate v tx = Ok tt) vs;
  cv_leaves : exists c idxs, NoDup idxs /\
    st_utxo (ct_spec c) = mkOutPoint (compute_txid tx) ROUND_TX_VTXO_TREE_VOUT /\
    Forall2 (fun idx v => build_vtxo (E:=string) c idx = Ok (Some v)) idxs vs;
  cv_offboards : exists others, drop 2 (output tx) ≡ₚ (to_txout <$> pt_offboards p) ++ others;
}.

(** Signatures on forfeits that are only valid with a connector of the round
    transaction with the id [txid]. *)
Definition forfeits_for (p : RoundParticipation) (txid : bytes) (m : ForfeitSigs) : Prop :=
  exists c spk pk nonces d, cc_utxo c = mkOutPoint txid ROUND_TX_CONNECTOR_VOUT /\
  forall id s, m !! id = Some s -> exists v kp, v ∈ pt_inputs p /\ vtxo_id v = id /\
    sign_vtxo_forfeits v kp spk pk (kget nonces id) (dr_forfeit d id) c = Ok s.

Lemma lift_run {A} (m : outcome string A) (w w' : W) a : Effects.lift m w = (Ok a, w') -> m = Ok a /\ w' = w.
Proof. unfold Effects.lift. by intros [= -> ->]. Qed.

Lemma pick_vtxos_spec c tx reqs : forall k expected left vs, pick_vtxos c tx expected (imap (fun i r => ((k + i)%nat, r)) reqs) = Ok (left, vs) ->
  (forall i r, reqs !! i = Some r -> ts_vtxos (st_spec (ct_spec c)) !! (k + i)%nat = Some r) ->
  expected ≡ₚ left ++ (request_of <$> vs) /\ Forall (fun v => validate v tx = Ok tt) vs /\
  exists idxs, NoDup idxs /\ Forall (fun i => k <= i)%nat idxs /\ Forall2 (fun idx v => build_vtxo (E:=string) c idx = Ok (Some v)) idxs vs.
Proof.
  induction reqs as [|r reqs IH]; intros k expected left vs H Hreqs; cbn [imap pick_vtxos] in H.
  { injection H as -> <-. rewrite app_nil_r. split; [done|]. split; [constructor|]. exists []. split_and!; constructor. }
  assert (Himap : imap ((fun i r => ((k + i)%nat, r)) ∘ Datatypes.S) reqs = imap (fun i r => ((Datatypes.S k + i)%nat, r)) reqs)
    by (apply imap_ext; intros i x _; cbn; f_equal; lia).
  rewrite Himap in H.
  assert (Hrest : forall i r, reqs !! i = Some r -> ts_vtxos (st_spec (ct_spec c)) !! (Datatypes.S k + i)%nat = Some r).
  { intros i x Hx. rewrite <- (Hreqs (Datatypes.S i) x Hx). f_equal. lia. }
  destruct (position _ expected) as [i|] eqn:Hp.
  - apply position_lookup in Hp as (a & Ha & ->%bool_decide_eq_true).
    apply bind_Ok in H as (o & Hb & H). apply bind_Ok in H as (v & ->%expect_Ok & H). apply bind_Ok in H as ([] & Hval%map_err_Ok & H).
    apply bind_Ok in H as ([l2 vs2] & Hpick & [= <- <-]%Ok_inj). apply IH in Hpick as (Hperm & Hv & idxs & Hnd & Hge & Hf); [|done].
    assert (Hreq : request_of v = sr_vtxo r).
    { unfold build_vtxo in Hb. rewrite Nat.add_0_r in Hb. specialize (Hreqs 0%nat r eq_refl). rewrite Nat.add_0_r in Hreqs. rewrite Hreqs in Hb.
      repeat (apply bind_Ok in Hb as (? & _ & Hb)). injection Hb as <-. by destruct (sr_vtxo r). }
    split_and!.
    + rewrite (swap_remove_perm expected i _ Ha), Hperm. cbn. rewrite Hreq. by rewrite Permutation_middle.
    + by constructor.
    + exists (k :: idxs). rewrite Nat.add_0_r in Hb. split_and!; [|constructor; [lia|]; eapply Forall_impl; [exact Hge|]; cbn; lia|by constructor].
      constructor; [|done]. intros Hin. rewrite Forall_forall in Hge. specialize (Hge k Hin). lia.
  - apply IH in H as (Hperm & Hv & idxs & Hnd & Hge & Hf); [|done]. split_and!; [done..|]. exists idxs. split_and!; [done| |done].
    eapply Forall_impl; [exact Hge|]. cbn. lia.
Qed.

(** The loop that signs the forfeits of the inputs. *)
Lemma sign_loop_spec (p : RoundParticipation) spk pk nonces d c inputs : forall (m m' : ForfeitSigs) (w w' : W),
  (forall v, v ∈ inputs -> v ∈ pt_inputs p) ->
  (forall id s, m !! id = Some s -> exists v kp, v ∈ pt_inputs p /\ vtxo_id v = id /\
     sign_vtxo_forfeits v kp spk pk (kget nonces id) (dr_forfeit d id) c = Ok s) ->
  foldM (fun (sigs : ForfeitSigs) vtxo =>
    keypair ← get_vtxo_key cfg vtxo;
    s ← Effects.lift (sign_vtxo_forfeits vtxo keypair spk pk (kget nonces (vtxo_id vtxo)) (dr_forfeit d (vtxo_id vtxo)) c);
    mret (<[vtxo_id vtxo := s]> sigs)) m inputs w = (Ok m', w') ->
  forall id s, m' !! id = Some s -> exists v kp, v ∈ pt_inputs p /\ vtxo_id v = id /\
     sign_vtxo_forfeits v kp spk pk (kget nonces id) (dr_forfeit d id) c = Ok s.
Proof.
  induction inputs as [|v inputs IH]; intros m m' w w' Hin Hm H; cbn [foldM] in H.
  { injection H as <- <-. done. }
  apply bind_run_Ok in H as (m1 & w1 & H1 & H). apply bind_run_Ok in H1 as (kp & w2 & _ & H1).
  apply bind_run_Ok in H1 as (s & w3 & [Hs _]%lift_run & H1). injection H1 as <- _.
  eapply IH; [|clear H|exact H]; [set_solver|].
  intros id s' Hid. destruct (decide (id = vtxo_id v)) as [->|Hne].
  - rewrite lookup_insert_eq in Hid. injection Hid as <-. exists v, kp. split; [apply Hin; left|done].
  - rewrite lookup_insert_ne in Hid by done. by apply Hm.
Qed.

(** The outputs and the offboards are in what was proposed. *)
Lemma sign_vtxo_tree_Ok p ks ns tx spec aggs (w w' : W) : sign_vtxo_tree p ks ns tx spec aggs w = (Ok tt, w') ->
  exists others, drop 2 (output tx) ≡ₚ (to_txout <$> pt_offboards p) ++ others.
Proof.
  unfold sign_vtxo_tree. intros H. apply bind_run_Ok in H as (? & w1 & _ & H). apply bind_run_Ok in H as (? & w2 & _ & H).
  apply bind_run_Ok in H as (? & w3 & _ & H). apply bind_run_Ok in H as (? & w4 & [Hoff _]%lift_run & _).
  apply ensure_Ok, bool_decide_eq_true in Hoff.
  destruct (remove_matching_perm is_offboard (drop 2 (output tx)) (pt_offboards p)) as (took & ts & rest & H1 & H2 & H3).
  rewrite Hoff in H1. cbn in H1. exists rest. rewrite H2, H1. apply Permutation_app_tail.
  assert (to_txout <$> took = ts) as <-; [|done]. clear -H3. induction H3 as [|o t took ts Ho _ IH]; [done|].
  cbn. f_equal; [by apply bool_decide_eq_true in Ho|exact IH].
Qed.

Lemma sign_forfeits_Ok p tx spec sigs ns pk d (w w' : W) vs m : sign_forfeits cfg p tx spec sigs ns pk d w = (Ok (vs, m), w') ->
  (exists others, drop 2 (output tx) ≡ₚ (to_txout <$> pt_offboards p) ++ others) ->
  covers p tx vs /\ forfeits_for p (compute_txid tx) m.
Proof.
  unfold sign_forfeits. intros H Hoff. apply bind_run_Ok in H as (? & w1 & _ & H). apply bind_run_Ok in H as (info & w2 & _ & H).
  apply bind_run_Ok in H as (u & w3 & [Hu _]%lift_run & H). apply bind_run_Ok in H as (? & w4 & _ & H).
  apply bind_run_Ok in H as (? & w5 & _ & H). apply bind_run_Ok in H as (? & w6 & _ & H). apply bind_run_Ok in H as (? & w7 & _ & H).
  apply bind_run_Ok in H as (first & w8 & _ & H). apply bind_run_Ok in H as (c & w9 & [Hc _]%lift_run & H).
  apply bind_run_Ok in H as (m1 & w10 & Hsigs & H). apply bind_run_Ok in H as (cached & w11 & [Hcached _]%lift_run & H).
  apply bind_run_Ok in H as ([left vs1] & w12 & [Hpick _]%lift_run & H). apply bind_run_Ok in H as (? & w13 & [Hall _]%lift_run & H).
  injection H as <- <- _.
  apply bind_Ok in Hc as (? & _ & <-%Ok_inj).
  assert (left = []) as ->.
  { unfold all_included in Hall. cbn [fst] in Hall. case_bool_decide as Hl; [done|]. by destruct (_ =? _)%nat. }
  assert (Hm1 : forall id s, m1 !! id = Some s -> exists v kp, v ∈ pt_inputs p /\ vtxo_id v = id /\ sign_vtxo_forfeits v kp (ai_server_pubkey info) pk (kget ns id) (dr_forfeit d id) (mkChain (Z.of_nat (length first.2)) (output_script pk) (mkOutPoint (compute_txid tx) ROUND_TX_CONNECTOR_VOUT)) = Ok s)
    by (eapply sign_loop_spec; [| |exact Hsigs]; [done|by intros ? ? ?%lookup_empty_Some]).
  assert (Hutxo : st_utxo (ct_spec cached) = mkOutPoint (compute_txid tx) ROUND_TX_VTXO_TREE_VOUT).
  { apply bind_Ok in Hcached as (txs & _ & <-%Ok_inj). cbn. apply bind_Ok in Hu as (? & _ & Hu).
    unfold unsigned_tree_new in Hu. repeat (apply bind_Ok in Hu as (? & _ & Hu)). by injection Hu as <-. }
  apply (pick_vtxos_spec cached tx _ 0%nat) in Hpick as (Hperm & Hval & idxs & Hnd & _ & Hf); [|done].
  split_and!.
  - split; [by rewrite Hperm|exact Hval| |exact Hoff]. exists cached, idxs. done.
  - do 5 eexists. split; [|exact Hm1]. done.
Qed.

(** ** Rounds that can no longer confirm *)

(** The chain source has said so: [t] spends [i] and is not the round. *)
Definition spender_reported (txid : bytes) (i : TxIn) (t : bytes) : Prop := exists (n : net) info, Seen n /\
  (get_output_status (op_txid (previous_output i)) (op_vout (previous_output i)) n).1 = inr (Some info) /\
  os_spent info = true /\ os_txid info = Some t /\ t <> txid.

Definition reported_at (t : bytes) (h : Z) : Prop :=
  (exists (n : net) b, Seen n /\ (chain_tx_status t n).1 = inr (TxStatus.Confirmed b) /\ height b = h) \/
  (exists (n : net) i info, Seen n /\ (get_output_status (op_txid (previous_output i)) (op_vout (previous_output i)) n).1 = inr (Some info) /\
     os_txid info = Some t /\ os_status info = Some (Some h)).

Definition deep (h : Z) : Prop := exists (n : net) tip, Seen n /\ (chain_tip n).1 = inr tip /\ wc_required_confirmations cfg <= tip - (h - 1).

(** bitcoind has said at time [t] that the output is gone. *)
Definition gone_at (i : TxIn) (t : Z) : Prop := exists n : net, Seen n /\
  (get_tx_out (op_txid (previous_output i)) (op_vout (previous_output i)) n).1 = inr None /\
  clock (get_tx_out (op_txid (previous_output i)) (op_vout (previous_output i)) n).2 = t.

Definition input_of (txid : bytes) (i : TxIn) : Prop := exists tx, compute_txid tx = txid /\ i ∈ input tx.

(** A round is double spent when another transaction that spends one of its
    inputs is deep enough in the chain, or when outputs it spends were gone
    over a time in which twice the required blocks are expected. *)
Definition double_spent (txid : bytes) : Prop :=
  match wc_client cfg with
  | Esplora => exists i t h, input_of txid i /\ spender_reported txid i t /\ reported_at t h /\ deep h
  | Bitcoind => exists i j since t, input_of txid i /\ input_of txid j /\ gone_at i since /\ gone_at j t /\
      2 * wc_required_confirmations cfg * BLOCK_TIME < t - since
  end.

(** What is remembered of a round was reported. *)
Record ur_wf (r : UnconfirmedRound) : Prop := {
  uw_spenders : forall idx t, ur_double_spenders r !! idx = Some (Some t) ->
    exists i, input_of (funding_txid r) i /\ spender_reported (funding_txid r) i t;
  uw_since : forall t, ur_first_double_spent_at r = Some t -> exists i, input_of (funding_txid r) i /\ gone_at i t;
}.

(** A round after some steps of its sync. *)
Record ur_step (r : UnconfirmedRound) (w : W) (r' : UnconfirmedRound) (w' : W) : Prop := {
  us_txid : funding_txid r' = funding_txid r;
  us_vtxos : ur_new_vtxos r' = ur_new_vtxos r;
  us_wf : ur_wf r -> ur_wf r';
  us_quiet : quiet w w';
}.

Lemma ur_step_refl r w : ur_step r w r w.
Proof. by split. Qed.

Lemma ur_step_trans r1 w1 r2 w2 r3 w3 : ur_step r1 w1 r2 w2 -> ur_step r2 w2 r3 w3 -> ur_step r1 w1 r3 w3.
Proof. intros [] []. split; [congruence|congruence|auto|by etrans]. Qed.

Lemma wf_spender r idx o : ur_wf r ->
  (forall t, o = Some t -> exists i, input_of (funding_txid r) i /\ spender_reported (funding_txid r) i t) ->
  ur_wf (set_double_spender idx o r).
Proof.
  intros [H1 H2] Ho. split; [|exact H2]. intros j t Hj. cbn in Hj. destruct (decide (j = idx)) as [->|Hne].
  - apply list_lookup_insert_Some in Hj as [(_ & Ht & _)|[? _]]; [|done]. by apply Ho.
  - rewrite list_lookup_insert_ne in Hj by done. by eapply H1.
Qed.

Lemma wf_funding r tx : ur_wf r -> compute_txid tx = funding_txid r -> ur_wf (set_funding_tx tx r).
Proof. intros [H1 H2] Htx. unfold funding_txid in *. split; cbn; unfold funding_txid; cbn; by rewrite Htx. Qed.

Lemma wf_first r o : ur_wf r -> (forall t, o = Some t -> exists i, input_of (funding_txid r) i /\ gone_at i t) ->
  ur_wf (set_first_double_spent o r).
Proof. intros [H1 H2] Ho. by split. Qed.

Lemma wf_new tx vs : ur_wf (unconfirmed_new tx vs).
Proof. split; [|done]. intros idx t H. cbn in H. by apply lookup_replicate in H as [? _]. Qed.

(** ** The sync of one round *)
Notation US := (UnconfirmedRound * W)%type.

Definition uinv (r0 : UnconfirmedRound) (w0 : W) (s : US) : Prop :=
  ur_step r0 w0 s.1 s.2 /\ ur_wf s.1 /\ Seen (w_net s.2).

Definition upost {A} (r0 : UnconfirmedRound) (w0 : W) (Q : A -> Prop) (o : outcome string A) (s : US) : Prop :=
  uinv r0 w0 s /\ match o with Ok a => Q a | _ => True end.

Lemma upost_bind {A A'} r0 w0 (m : M US string A) (f : A -> M US string A') (P : A -> US -> Prop) (Q : A' -> Prop) s :
  wp m (fun o s' => uinv r0 w0 s' /\ match o with Ok a => P a s' | _ => True end) s ->
  (forall a s', uinv r0 w0 s' -> P a s' -> wp (f a) (upost r0 w0 Q) s') -> wp (m ≫= f) (upost r0 w0 Q) s.
Proof.
  intros Hm Hf. apply wp_bind. eapply wp_mono; [exact Hm|]. intros [a|e|] s' [Hi HP]; cbn; [by apply Hf|done..].
Qed.

Lemma wp_ask {A} (f : ext net string A) r0 w0 (s : US) : uinv r0 w0 s -> (forall n, Seen n -> Seen (f n).2) ->
  wp (on_world_u (on_net f)) (fun o s' => uinv r0 w0 s' /\
    match o with Ok a => s'.1 = s.1 /\ w_net s'.2 = (f (w_net s.2)).2 /\ (f (w_net s.2)).1 = inr a /\ Seen (w_net s.2) | _ => True end) s.
Proof.
  intros (Hs & Hwf & Hseen) Hf. unfold wp, on_world_u, on_net, zoom, call. cbn. split.
  - split_and!; [|done|by apply Hf]. eapply ur_step_trans; [exact Hs|]. split; [done..|].
    split_and!; [done..|]. cbn. intros _. by apply Hf.
  - by destruct (f (w_net s.2)) as [[e|a] n'].
Qed.

Lemma wp_on_ur r0 w0 f (s : US) : uinv r0 w0 s -> funding_txid (f s.1) = funding_txid s.1 -> ur_new_vtxos (f s.1) = ur_new_vtxos s.1 ->
  ur_wf (f s.1) -> wp (on_ur f : M US string unit) (fun o s' => uinv r0 w0 s' /\ match o with Ok _ => s' = (f s.1, s.2) | _ => True end) s.
Proof.
  intros (Hs & Hwf & Hseen) H1 H2 H3. unfold wp, on_ur, modify. cbn. split; [|done]. split_and!; [|done..].
  eapply ur_step_trans; [exact Hs|]. by split.
Qed.

Lemma upost_lift {A} r0 w0 (m : outcome string A) (Q : A -> Prop) (s : US) : uinv r0 w0 s -> (forall a, m = Ok a -> Q a) ->
  wp (Effects.lift m) (upost r0 w0 Q) s.
Proof. intros Hs HQ. unfold wp, upost. cbn. split; [done|]. destruct m; [by apply HQ|done..]. Qed.

Lemma upost_ret {A} r0 w0 (a : A) (Q : A -> Prop) (s : US) : uinv r0 w0 s -> Q a -> wp (mret a : M US string A) (upost r0 w0 Q) s.
Proof. done. Qed.

(** A double spender in the chain that was found so far. *)
Definition found (txid : bytes) (c : option (Z * bytes)) : Prop := forall h t, c = Some (h, t) ->
  exists i, input_of txid i /\ spender_reported txid i t /\ reported_at t h.

Lemma found_later txid c h t i : found txid c -> input_of txid i -> spender_reported txid i t -> reported_at t h ->
  found txid (later c (h, t)).
Proof.
  intros Hc Hi Hs Hr h' t'. unfold later. destruct c as [[h1 t1]|]; [destruct (_ || _); [apply Hc|]|]; intros [= <- <-]; eauto.
Qed.

Lemma look_up_spender_ok r0 w0 idx i c (s : US) : uinv r0 w0 s -> input_of (funding_txid r0) i -> found (funding_txid r0) c ->
  wp (look_up_spender idx i (funding_txid r0) c) (upost r0 w0 (found (funding_txid r0))) s.
Proof.
  intros Hs Hi Hc. unfold look_up_spender. eapply upost_bind; [apply wp_ask; [done|]; intros n; apply seen_output_status|].
  intros [info|] s1 Hs1 (Hr1 & Hn1 & Hask & Hseen); [|by apply upost_ret].
  destruct (negb _ || _) eqn:Hskip; [by apply upost_ret|]. apply orb_false_iff in Hskip as [Hsp%negb_false_iff Hne%bool_decide_eq_false].
  destruct (os_txid info) as [t|] eqn:Ht; [|by apply wp_bind, wp_lift].
  assert (Hrep : spender_reported (funding_txid r0) i t) by (exists (w_net s.2), info; split_and!; [done..|congruence]).
  eapply upost_bind; [by apply upost_lift with (Q := fun a => a = t); [done|]; cbn; intros a [= ->]|]. intros _ s2 Hs2 ->.
  assert (Htx2 : funding_txid s2.1 = funding_txid r0) by apply Hs2.
  eapply upost_bind; [apply wp_on_ur; [done..|]; apply wf_spender; [apply Hs2|]; intros t' [= <-]; rewrite Htx2; eauto|].
  intros _ s3 Hs3 _. destruct (os_status info) as [st|] eqn:Hst; [|by apply wp_bind, wp_lift].
  eapply upost_bind; [by apply upost_lift with (Q := fun a => a = st); [done|]; cbn; intros a [= ->]|]. intros _ s4 Hs4 ->.
  apply upost_ret; [done|]. destruct st as [h|]; [|done]. eapply found_later; [done..|]. right. exists (w_net s.2), i, info. done.
Qed.

Lemma check_input_ok r0 w0 c idx i (s : US) : uinv r0 w0 s -> input_of (funding_txid r0) i -> found (funding_txid r0) c ->
  wp (check_input (funding_txid r0) c (idx, i)) (upost r0 w0 (found (funding_txid r0))) s.
Proof.
  intros Hs Hi Hc. unfold check_input. cbn [fst snd]. apply wp_bind, wp_gets. cbn [and_then].
  destruct (ur_double_spenders s.1 !! idx) as [sp|] eqn:Hsp; unfold at_idx; rewrite Hsp; cbn [expect]; [|by apply wp_bind, wp_lift].
  apply wp_bind, wp_lift. cbn [and_then]. destruct sp as [t|]; [|by apply look_up_spender_ok].
  destruct (uw_spenders _ (proj1 (proj2 Hs)) idx t Hsp) as (j & Hj & Hrep).
  assert (Htx : funding_txid s.1 = funding_txid r0) by apply Hs. rewrite Htx in Hj, Hrep.
  eapply upost_bind; [apply wp_ask; [done|]; intros n; apply seen_tx_status|]. intros st s1 Hs1 (Hr1 & Hn1 & Hask & Hseen).
  destruct st as [b| |].
  - apply upost_ret; [done|]. eapply found_later; [done..|]. left. exists (w_net s.2), b. done.
  - by apply upost_ret.
  - eapply upost_bind; [apply wp_on_ur; [done..|]; apply wf_spender; [apply Hs1|done]|]. intros _ s2 Hs2 _. by apply look_up_spender_ok.
Qed.

Lemma some_input_gone_ok r0 w0 inputs (s : US) : uinv r0 w0 s ->
  wp (on_world_u (some_input_gone inputs)) (fun o s' => uinv r0 w0 s' /\
    match o with Ok b => s'.1 = s.1 /\ (b = true -> exists i, i ∈ inputs /\ gone_at i (clock (w_net s'.2))) | _ => True end) s.
Proof.
  revert s. induction inputs as [|i inputs IH]; intros s Hs; [done|].
  pose proof (wp_ask (get_tx_out (op_txid (previous_output i)) (op_vout (previous_output i))) r0 w0 s Hs) as Hask.
  unfold wp, on_world_u, zoom in *. cbn [some_input_gone]. unfold mbind, M_bind.
  destruct (on_net _ s.2) as [[[out|]|e|] w1]; cbn in *; (destruct Hask as [H1 H2]; [intros n; apply seen_tx_out|]); [| |done..].
  - destruct (IH (s.1, w1) H1) as [H3 H4]. cbn in *. split; [exact H3|]. destruct (some_input_gone inputs w1) as [[b| |] w2]; [|done..].
    cbn in *. destruct H4 as [Heq H4]. split; [done|]. intros Hb. destruct (H4 Hb) as (j & Hj & Hg). exists j. split; [by right|done].
  - split; [done|]. destruct H2 as (_ & Hn & Hg & Hseen). split; [done|]. intros _. exists i. split; [by left|].
    exists (w_net s.2). split_and!; [done..|by rewrite Hn].
Qed.

Lemma wp_clock (Q : outcome string Z -> US -> Prop) s : Q (Ok (clock (w_net s.2))) s -> wp (on_world_u now) Q s.
Proof. by destruct s as [r [d n v m]]. Qed.

Definition reported_double (txid : bytes) (o : option UnconfirmedRoundStatus) : Prop :=
  match o with Some (UrDoubleSpent _) => double_spent txid | Some _ => False | None => True end.

Lemma check_if_double_spent_ok r0 w0 (s : US) : uinv r0 w0 s ->
  wp (check_if_double_spent cfg) (upost r0 w0 (reported_double (funding_txid r0))) s.
Proof.
  intros Hs. unfold check_if_double_spent. apply wp_bind, wp_gets. cbn [and_then].
  assert (Htx : funding_txid s.1 = funding_txid r0) by apply Hs. rewrite Htx.
  assert (Hin : forall i, i ∈ input (ur_funding_tx s.1) -> input_of (funding_txid r0) i).
  { intros i Hi. exists (ur_funding_tx s.1). split; [exact Htx|done]. }
  unfold reported_double, double_spent. destruct (wc_client cfg).
  - eapply upost_bind.
    { eapply wp_mono; [apply (wp_foldM _ (fun c s' => uinv r0 w0 s' /\ found (funding_txid r0) c) (fun _ s' => uinv r0 w0 s'))|].
      - by split.
      - intros [idx i] c s1 Hel [H1 H2]. eapply wp_mono; [apply check_input_ok; [done| |done]|].
        + apply Hin. apply elem_of_lookup_imap in Hel as (j & x & [= -> ->] & Hj). by eapply list_elem_of_lookup_2.
        + intros [b|e|] s2 [H3 H4]; done.
      - intros [b|e|] s2 H; [destruct H as [H1 H2]; split; [done|exact H2]|done..]. }
    intros [[h t]|] s1 Hs1 Hf; [|by apply upost_ret]. destruct (Hf h t eq_refl) as (i & Hi & Hsp & Hrep).
    eapply upost_bind; [apply wp_ask; [done|]; intros n; apply seen_tip|]. intros tip s2 Hs2 (_ & _ & Htip & Hseen).
    unfold u_sub, checked_sub. destruct (1 <=? h); [|by apply wp_bind, wp_lift]. apply wp_bind, wp_lift. cbn [and_then expect].
    destruct (h - 1 <=? tip) eqn:Hle; [|by apply wp_bind, wp_lift]. apply wp_bind, wp_lift. cbn [and_then expect].
    apply upost_ret; [done|]. destruct (_ <=? tip - _) eqn:Hreq; [|done]. exists i, t, h. split_and!; [done..|].
    exists (w_net s1.2), tip. split_and!; [done..|lia].
  - eapply upost_bind; [by apply some_input_gone_ok|]. intros [] s1 Hs1 [Hr1 Hgone].
    + destruct (Hgone eq_refl) as (j & Hj & Hg). apply Hin in Hj. apply wp_bind, wp_clock. cbn [and_then].
      set (t := clock (w_net s1.2)) in *. set (since := default t (ur_first_double_spent_at s.1)).
      assert (Hsince : exists i, input_of (funding_txid r0) i /\ gone_at i since).
      { unfold since. destruct (ur_first_double_spent_at s.1) as [t0|] eqn:Ht0; [|by exists j].
        rewrite <- Htx. apply Hs, Ht0. }
      eapply upost_bind; [apply wp_on_ur; [done..|]; apply wf_first; [apply Hs1|]|].
      { intros t' [= <-]. rewrite Hr1, Htx. done. }
      intros _ s2 Hs2 _. unfold u_mul. destruct (in_width 32 _); [|by apply wp_bind, wp_lift]. apply wp_bind, wp_lift. cbn [and_then].
      apply upost_ret; [done|]. destruct (_ && _) eqn:Hc; [|done]. destruct Hsince as (i & Hi & Hgi).
      exists i, j, since, t. split_and!; [done..|lia].
    + eapply upost_bind; [apply wp_on_ur; [done..|]; apply wf_first; [apply Hs1|done]|]. intros _ s2 Hs2 _. by apply upost_ret.
Qed.

Lemma maybe_update_tx_ok r0 w0 (s : US) : uinv r0 w0 s ->
  wp (maybe_update_tx (funding_txid r0)) (upost r0 w0 (fun _ => True)) s.
Proof.
  intros Hs. unfold maybe_update_tx. apply wp_bind, wp_gets. cbn [and_then]. destruct (is_tx_signed s.1); [by apply upost_ret|].
  assert (Hask : wp (on_world_u (try_m (on_net (get_tx (funding_txid r0))))) (fun o s' => uinv r0 w0 s' /\ match o with Ok _ => s'.1 = s.1 | _ => True end) s).
  { pose proof (wp_ask (get_tx (funding_txid r0)) r0 w0 s Hs (fun n => seen_tx _ n)) as [H1 H2].
    unfold wp, on_world_u, try_m, zoom in *. cbn in *. split; [exact H1|]. by destruct (get_tx _ _) as [[]]. }
  eapply upost_bind; [exact Hask|]. intros [e|[tx|]] s1 Hs1 Hr1; [by apply upost_ret| |by apply upost_ret].
  eapply upost_bind; [apply upost_lift with (Q := fun _ => funding_txid r0 = compute_txid tx); [done|]; intros a H%assert_Ok; by apply bool_decide_eq_true in H|].
  intros ? s2 Hs2 Htx; cbn in Htx. assert (Htx2 : funding_txid s2.1 = funding_txid r0) by apply Hs2.
  eapply wp_mono; [apply wp_on_ur; [done| |done|]|].
  - unfold funding_txid at 1. cbn. congruence.
  - apply wf_funding; [apply Hs2|congruence].
  - intros [b|e|] s3 [H3 _]; done.
Qed.

Definition sync_result (txid : bytes) (o : UnconfirmedRoundStatus) : Prop :=
  match o with UrDoubleSpent _ => double_spent txid | _ => True end.

Lemma unconfirmed_sync_ok r0 w0 : ur_wf r0 -> Seen (w_net w0) ->
  wp (unconfirmed_sync cfg) (upost r0 w0 (sync_result (funding_txid r0))) (r0, w0).
Proof.
  intros Hwf Hseen. assert (Hs : uinv r0 w0 (r0, w0)) by (split_and!; [apply ur_step_refl|done..]).
  unfold unconfirmed_sync. apply wp_bind, wp_gets. cbn [and_then fst].
  eapply upost_bind; [apply wp_ask; [done|]; intros n; apply seen_tx_status|]. intros st s1 Hs1 _. destruct st as [b| |].
  - eapply upost_bind; [apply wp_on_ur; [done..|]; apply wf_first; [apply Hs1|done]|]. intros _ s2 Hs2 _.
    eapply upost_bind; [eapply wp_mono; [by apply maybe_update_tx_ok|]; intros o s' H; exact H|]. intros _ s3 Hs3 _.
    eapply upost_bind; [apply wp_ask; [done|]; intros n; apply seen_tip|]. intros tip s4 Hs4 _.
    eapply upost_bind; [by apply upost_lift with (Q := fun _ => True)|]. intros c s5 Hs5 _.
    eapply upost_bind; [by apply upost_lift with (Q := fun _ => True)|]. intros cs s6 Hs6 _.
    apply upost_ret; [done|]. by destruct (_ <=? _).
  - eapply upost_bind; [apply wp_on_ur; [done..|]; apply wf_first; [apply Hs1|done]|]. intros _ s2 Hs2 _.
    eapply upost_bind; [eapply wp_mono; [by apply maybe_update_tx_ok|]; intros o s' H; exact H|]. intros _ s3 Hs3 _. by apply upost_ret.
  - eapply upost_bind; [eapply wp_mono; [by apply check_if_double_spent_ok|]; intros o s' H; exact H|].
    intros [res|] s2 Hs2 Hres; [apply upost_ret; [done|]; by destruct res|].
    apply wp_bind, wp_gets. cbn [and_then]. eapply upost_bind with (P := fun _ _ => True); [|intros; by apply upost_ret].
    destruct (is_tx_signed s2.1); [|by split].
    pose proof (wp_ask (broadcast_tx (ur_funding_tx s2.1)) r0 w0 s2 Hs2 (fun n => seen_broadcast _ n)) as [H1 _].
    unfold wp, on_world_u, try_m, zoom, mbind, M_bind in *. cbn in *. by destruct (broadcast_tx _ _) as [[]].
Qed.

(** ** The inputs of a round *)
Definition input_ids (p : RoundParticipation) : list VtxoId := vtxo_id <$> pt_inputs p.

(** Locked for the round, or spent by it. *)
Definition held (mid : option Z) (w : W) (id : VtxoId) : Prop :=
  state_of (w_db w) id = Some (VtxoState.Locked mid) \/ state_of (w_db w) id = Some VtxoState.Spent.

Definition loose : relation W := fun w w' =>
  forfeits_sent (w_srv w') = forfeits_sent (w_srv w) /\ (Seen (w_net w) -> Seen (w_net w')).

Definition holds (p : RoundParticipation) (mid : option Z) : relation W := fun w w' =>
  loose w w' /\ forall id, id ∈ input_ids p -> held mid w id -> held mid w' id.

#[local] Instance loose_preorder : PreOrder loose.
Proof. split; [done|]. intros w1 w2 w3 (H1 & H2) (H3 & H4). split; [congruence|auto]. Qed.
#[local] Instance holds_preorder p mid : PreOrder (holds p mid).
Proof. split; [by split|]. intros w1 w2 w3 (H1 & H2) (H3 & H4). split; [by etrans|auto]. Qed.

Lemma quiet_holds p mid w w' : quiet w w' -> holds p mid w w'.
Proof. intros (H1 & H2 & H3). split; [done|]. intros id _. unfold held, state_of. by rewrite H1. Qed.

Lemma holds_loose p mid w w' : holds p mid w w' -> loose w w'.
Proof. by intros []. Qed.

Lemma keeps_weaken {A} (R1 R2 : relation W) (m : M W string A) : (forall w w', R1 w w' -> R2 w w') -> keeps R1 m -> keeps R2 m.
Proof. intros H Hm w. apply H, Hm. Qed.

Lemma loose_wdb {E A} (err : E -> string) (m : M db E A) : keeps loose (on_wdb err m : M W string A).
Proof. by intros w. Qed.

Lemma holds_states p mid ids new allowed : new = VtxoState.Spent ->
  keeps (holds p mid) (on_wdb state_error (set_vtxo_states ids new allowed) : M W string unit).
Proof.
  intros -> w. split; [done|]. intros id _ Hid. pose proof (keeps_set_vtxo_states ids VtxoState.Spent allowed (w_db w)) as [_ H].
  unfold held, state_of in *. cbn. destruct (H id) as [->|(v & Hv & _ & ->)]; [exact Hid|]. by right.
Qed.

Lemma holds_store p mid vs : keeps (holds p mid) (on_wdb (fun e => e) (store_spendable_vtxos vs) : M W string unit).
Proof.
  intros w. split; [done|]. intros id _ Hid. set (l := (fun v => (v, VtxoState.Spendable)) <$> vs : list (Vtxo * VtxoState.t)).
  change (held mid (mkWorld (store_vtxos l (w_db w)).2 (w_net w) (w_srv w) (w_mov w)) id).
  assert (Hsame : forall id', is_Some (db_vtxos (w_db w) !! id') -> db_vtxos (store_vtxos l (w_db w)).2 !! id' = db_vtxos (w_db w) !! id').
  { intros id' Hs. pose proof (store_vtxos_db l (w_db w)) as [_ H]. destruct (store_vtxos l (w_db w)).1; [by rewrite H|].
    destruct H as (Hnone & _ & Hold). apply Hold. intros (q & Heq & Hq)%list_elem_of_fmap.
    assert (Hn : db_vtxos (w_db w) !! id' = None) by (rewrite Heq; exact (Hnone q Hq)). rewrite Hn in Hs. by destruct Hs. }
  unfold held, state_of in *. rewrite Hsame; [done|].
  destruct Hid as [H|H]; apply fmap_Some in H as (x & Hx & _); exists x; exact Hx.
Qed.

Lemma holds_quiet_mov {A} p mid (m : M (MovementManager * mdb) MovementError A) : keeps (holds p mid) (on_mov m : M W string A).
Proof. eapply keeps_weaken; [apply quiet_holds|apply quiet_mov]. Qed.
Lemma holds_quiet_now p mid : keeps (holds p mid) (now : M W string Z).
Proof. eapply keeps_weaken; [apply quiet_holds|apply quiet_now]. Qed.

#[local] Hint Resolve holds_store holds_quiet_mov holds_quiet_now : effects.

Lemma holds_success p q mid mid' vs tx : keeps (holds p mid) (persist_round_success q mid' vs tx : M W string unit).
Proof.
  unfold persist_round_success. apply keeps_bind; [apply _|apply keeps_try, holds_store|]. intros r1.
  apply keeps_bind; [apply _|apply keeps_try, holds_states; done|]. intros r2. solve_keeps.
Qed.

Lemma loose_mov {A} (m : M (MovementManager * mdb) MovementError A) : keeps loose (on_mov m : M W string A).
Proof. by intros w. Qed.
Lemma loose_now : keeps loose (now : M W string Z).
Proof. by intros w. Qed.
#[local] Hint Resolve loose_wdb loose_mov loose_now : effects.

Lemma loose_failure q mid : keeps loose (persist_round_failure q mid : M W string unit).
Proof. unfold persist_round_failure. solve_keeps. Qed.

(** ** The invariant of a round *)
Notation RS := (WalletRound * W)%type.

Definition tracked (st : WalletRound) (txid : bytes) : Prop := txid ∈ funding_txid <$> wr_unconfirmed st.

(** What the server was sent concerns other VTXOs, or a round that is followed
    or dead. *)
Definition accounted (p : RoundParticipation) (st : WalletRound) (m : ForfeitSigs) : Prop :=
  (forall id, id ∈ input_ids p -> m !! id = None) \/
  exists txid, forfeits_for p txid m /\ (double_spent txid \/ tracked st txid).

Definition good_round (p : RoundParticipation) (r : UnconfirmedRound) : Prop :=
  ur_wf r /\ exists tx, compute_txid tx = funding_txid r /\ covers p tx (ur_new_vtxos r).

Definition flow_ok (p : RoundParticipation) (fl : RoundFlowState) : Prop :=
  match fl with
  | Ongoing _ _ (AwaitingRoundProposal tx _) => exists others, drop 2 (output tx) ≡ₚ (to_txout <$> pt_offboards p) ++ others
  | Ongoing _ _ (AwaitingFinishedRound tx vs) => covers p tx vs
  | _ => True
  end.

Definition over (st : WalletRound) : Prop := wr_unconfirmed st = [] /\ ongoing_participation st = false.

Record round_inv (p : RoundParticipation) (mid : option Z) (sent0 : list ForfeitSigs) (s : RS) : Prop := {
  ri_part : wr_participation s.1 = p;
  ri_mid : wr_movement_id s.1 = mid;
  ri_seen : Seen (w_net s.2);
  ri_sent : exists l, forfeits_sent (w_srv s.2) = sent0 ++ l /\ Forall (accounted p s.1) l;
  ri_rounds : Forall (good_round p) (wr_unconfirmed s.1);
  ri_flow : flow_ok p (wr_flow s.1);
  ri_empty : wr_flow s.1 = WaitingToStart \/ wr_flow s.1 = FlowCanceled -> wr_unconfirmed s.1 = [];
  ri_held : (forall id, id ∈ input_ids p -> held mid s.2 id) \/ over s.1;
}.

Lemma inv_holds p mid sent0 st w w' : round_inv p mid sent0 (st, w) -> holds p mid w w' -> round_inv p mid sent0 (st, w').
Proof.
  intros [H1 H2 H3 (l & Hl & Hacc) H5 H6 H7 H8] [[Hs Hn] Hh]. split; cbn in *; try done; [by apply Hn| |].
  - exists l. by rewrite Hs.
  - destruct H8 as [H8|H8]; [left|by right]. intros id Hid. by apply Hh, H8.
Qed.

Lemma inv_over p mid sent0 st w w' : round_inv p mid sent0 (st, w) -> over st -> loose w w' -> round_inv p mid sent0 (st, w').
Proof.
  intros [H1 H2 H3 (l & Hl & Hacc) H5 H6 H7 H8] Ho [Hs Hn]. split; cbn in *; try done; [by apply Hn| |by right]. exists l. by rewrite Hs.
Qed.

(** The round changes, and what was followed still is, or is dead. *)
Lemma inv_round p mid sent0 st st' w : round_inv p mid sent0 (st, w) ->
  wr_participation st' = wr_participation st -> wr_movement_id st' = wr_movement_id st ->
  (forall txid, tracked st txid -> double_spent txid \/ tracked st' txid) ->
  Forall (good_round p) (wr_unconfirmed st') -> flow_ok p (wr_flow st') ->
  (wr_flow st' = WaitingToStart \/ wr_flow st' = FlowCanceled -> wr_unconfirmed st' = []) ->
  (over st -> over st') -> round_inv p mid sent0 (st', w).
Proof.
  intros [H1 H2 H3 (l & Hl & Hacc) H5 H6 H7 H8] Hp Hm Ht Hr Hf He Ho. split; cbn in *; [congruence|congruence|done| |done..|].
  - exists l. split; [done|]. eapply Forall_impl; [exact Hacc|]. intros m [Hn|(txid & Hfor & [Hd|Htr])]; [by left|right..]; exists txid; auto.
  - destruct H8 as [H8|H8]; [by left|right; auto].
Qed.

Definition rpost {A : Type} (p : RoundParticipation) (mid : option Z) (sent0 : list ForfeitSigs) (Q : A -> WalletRound -> Prop)
    (o : outcome string A) (s : RS) : Prop :=
  match o with Ok a => round_inv p mid sent0 s /\ Q a s.1 | Err _ => round_inv p mid sent0 s | Panic => True end.

(** ** The steps of a round keep the invariant *)
Section Steps.
Context (p : RoundParticipation) (mid : option Z) (sent0 : list ForfeitSigs).
Notation inv := (round_inv p mid sent0).
Notation post := (rpost p mid sent0).

Lemma wp_round_world {A : Type} (m : M W string A) (s : RS) (Q : outcome string A -> RS -> Prop) : inv s -> keeps (holds p mid) m ->
  (forall o w', inv (s.1, w') -> Q o (s.1, w')) -> wp (on_world m) Q s.
Proof.
  intros Hs Hm HQ. unfold wp, on_world, zoom. cbn. apply HQ. apply inv_holds with (w := s.2); [by destruct s|apply Hm].
Qed.

Lemma ongoing_not_over (st : WalletRound) : ongoing_participation st = true -> ~ over st.
Proof. intros H [_ H2]. congruence. Qed.

Lemma inv_set_flow (st : WalletRound) w fl : inv (st, w) -> ongoing_participation st = true -> flow_ok p fl ->
  fl <> WaitingToStart -> fl <> FlowCanceled -> inv (set_flow fl st, w).
Proof.
  intros Hs Ho Hf H1 H2. apply (inv_round p mid sent0 st); try done.
  - intros t Ht. by right.
  - apply Hs.
  - by intros [?|?].
  - intros Hover. by apply ongoing_not_over in Ho.
Qed.

Lemma start_attempt_state (q : RoundParticipation) ch d (w w' : W) st : start_attempt cfg q ch d w = (Ok st, w') ->
  exists ks ns, st = AwaitingUnsignedVtxoTree ks ns.
Proof.
  unfold start_attempt. intros H. do 4 (apply bind_run_Ok in H as (? & ? & _ & H)). injection H as <- _. eauto.
Qed.

Lemma try_start_ok r a ch d (s : RS) : inv s -> ongoing_participation s.1 = true ->
  wp (try_start_attempt cfg r a ch d) (post (fun _ _ => True)) s.
Proof.
  intros Hs Ho. unfold try_start_attempt. apply wp_bind, wp_gets. cbn [and_then]. apply wp_bind.
  unfold wp at 1. unfold on_world, zoom, try_m. cbn [fst snd].
  pose proof (quiet_start_attempt (wr_participation s.1) ch d s.2) as Hq.
  pose proof (start_attempt_state (wr_participation s.1) ch d s.2) as Hst.
  destruct (start_attempt _ _ _ _ s.2) as [o w']. cbn [fst snd] in *.
  assert (Hs' : inv (s.1, w')) by (eapply inv_holds; [|by apply quiet_holds]; by destruct s).
  destruct o as [st|e|]; [| |done]; cbn [and_then]; unfold wp, on_round, modify; cbn [fst snd]; (split; [|done]).
  - destruct (Hst w' st eq_refl) as (ks & ns & ->). by apply inv_set_flow.
  - by apply inv_set_flow.
Qed.

Lemma inv_send (st : WalletRound) w w' m : inv (st, w) -> accounted p st m -> db_vtxos (w_db w') = db_vtxos (w_db w) ->
  (Seen (w_net w) -> Seen (w_net w')) ->
  forfeits_sent (w_srv w') = forfeits_sent (w_srv w) \/ forfeits_sent (w_srv w') = forfeits_sent (w_srv w) ++ [m] -> inv (st, w').
Proof.
  intros [H1 H2 H3 (l & Hl & Hacc) H5 H6 H7 H8] Hm Hdb Hn Hs. split; cbn in *; try done; [by apply Hn| |].
  - destruct Hs as [->|Hs]; [by exists l|]. exists (l ++ [m]). rewrite Hs, Hl, app_assoc. split; [done|]. apply Forall_app. split; [done|]. by apply Forall_singleton.
  - destruct H8 as [H8|H8]; [left|by right]. intros id Hid. unfold held, state_of in *. rewrite Hdb. by apply H8.
Qed.

(** The state after an event of an ongoing attempt. *)
Definition updated (r a : Z) (ns : AttemptState) (nr : option UnconfirmedRound) (st : WalletRound) : WalletRound :=
  set_flow (Ongoing r a ns) (set_unconfirmed (wr_unconfirmed st ++ option_list nr) st).

Lemma inv_updated (st : WalletRound) w r a ns nr : inv (st, w) -> ongoing_participation st = true -> flow_ok p (Ongoing r a ns) ->
  (forall u, nr = Some u -> good_round p u) -> inv (updated r a ns nr st, w).
Proof.
  intros Hs Ho Hf Hnr. apply (inv_round p mid sent0 st); try done.
  - intros t Ht. right. unfold tracked in *. cbn. rewrite fmap_app. apply elem_of_app. by left.
  - cbn. apply Forall_app. split; [apply Hs|]. destruct nr as [u|]; cbn; [|constructor]. apply Forall_singleton. by apply Hnr.
  - by intros [?|?].
  - intros Hover. by apply ongoing_not_over in Ho.
Qed.

Lemma submit_ok m (st : WalletRound) w o w' : inv (st, w) -> accounted p st m -> submit_forfeit_sigs m w = (o, w') -> inv (st, w').
Proof.
  intros Hs Hm. unfold submit_forfeit_sigs, mbind, M_bind. pose proof (quiet_srv require_server require_server_sent w) as Hq.
  destruct (on_srv require_server w) as [[[]|e|] w1]; cbn [snd] in Hq.
  - assert (Hs1 : inv (st, w1)) by (eapply inv_holds; [done|by apply quiet_holds]).
    unfold on_srv, zoom, call. intros [= <- <-]. eapply inv_send; [exact Hs1|exact Hm|done|done|]. apply provide_forfeit_signatures_sent.
  - intros [= <- <-]. eapply inv_holds; [done|by apply quiet_holds].
  - intros [= <- <-]. eapply inv_holds; [done|by apply quiet_holds].
Qed.

Definition progressed (r a : Z) (st : WalletRound) (o : outcome string AttemptProgressResult) (w' : W) : Prop :=
  match o with
  | Ok ApNotUpdated => inv (st, w')
  | Ok (ApUpdated ns nr) => inv (updated r a ns nr st, w')
  | Ok (ApFailed e) => inv (st, w')
  | Ok (ApFinished tx vs) => inv (st, w')
  | Err _ => inv (st, w')
  | Panic => True
  end.

Lemma progress_ok r a state e d (st : WalletRound) (w : W) : inv (st, w) -> wr_flow st = Ongoing r a state ->
  wp (progress_attempt cfg state p e d) (progressed r a st) w.
Proof.
  intros Hs Hfl. assert (Ho : ongoing_participation st = true) by (unfold ongoing_participation; by rewrite Hfl).
  assert (Hok : flow_ok p (Ongoing r a state)) by (rewrite <- Hfl; apply Hs).
  assert (Hstay : forall res, match res with ApUpdated _ _ => False | _ => True end -> progressed r a st (Ok res) w) by by intros [].
  destruct state as [|ks ns|tx spec|tx vs], e as [? ? ?|? ? tx' spec' aggs|? ? sigs nonces pk|? ? tx']; cbn [progress_attempt];
    try (apply wp_ret, Hstay; done).
  - apply wp_bind. unfold wp at 1, try_m. pose proof (quiet_sign_vtxo_tree p ks ns tx' spec' aggs w) as Hq.
    pose proof (sign_vtxo_tree_Ok p ks ns tx' spec' aggs w) as Hspec.
    destruct (sign_vtxo_tree _ _ _ _ _ _ w) as [o w']. cbn [fst snd] in *. apply (quiet_holds p mid) in Hq.
    apply (inv_holds _ _ _ _ _ _ Hs) in Hq. destruct o as [[]|er|]; [| |done]; cbn [and_then]; apply wp_ret; [|exact Hq].
    apply inv_updated; [done|done| |done]. cbn. by apply (Hspec w').
  - apply wp_bind. unfold wp at 1, try_m. pose proof (quiet_sign_forfeits p tx spec sigs nonces pk d w) as Hq.
    pose proof (sign_forfeits_Ok p tx spec sigs nonces pk d w) as Hspec.
    destruct (sign_forfeits _ _ _ _ _ _ _ _ w) as [o w1]. cbn [fst snd] in *. apply (quiet_holds p mid) in Hq.
    apply (inv_holds _ _ _ _ _ _ Hs) in Hq. destruct o as [[new_vtxos m]|er|]; [| |done]; cbn [and_then]; [|apply wp_ret; exact Hq].
    destruct (Hspec w1 new_vtxos m eq_refl Hok) as [Hcov Hfor]. apply wp_bind. unfold wp at 1, try_m.
    assert (Hgood : good_round p (unconfirmed_new tx new_vtxos)) by (split; [apply wf_new|by exists tx]).
    assert (Hupd : forall ns, flow_ok p (Ongoing r a ns) -> inv (updated r a ns (Some (unconfirmed_new tx new_vtxos)) st, w1)).
    { intros ns Hns. apply inv_updated; [done..|]. by intros u [= <-]. }
    assert (Hacc : forall ns, accounted p (updated r a ns (Some (unconfirmed_new tx new_vtxos)) st) m).
    { intros ns. right. exists (compute_txid tx). split; [done|]. right. unfold tracked. cbn. rewrite fmap_app. apply elem_of_app. right. by left. }
    destruct (submit_forfeit_sigs m w1) as [o2 w2] eqn:Hsub. cbn [fst snd].
    destruct o2 as [[]|er|]; [| |done]; cbn [and_then]; apply wp_ret.
    + eapply submit_ok; [by apply Hupd|apply Hacc|exact Hsub].
    + eapply submit_ok; [by apply Hupd|apply Hacc|exact Hsub].
  - case_bool_decide; apply wp_ret; apply Hstay; done.
Qed.

Lemma wp_round {A : Type} (f : WalletRound -> WalletRound) (k : unit -> M RS string A) Q (s : RS) :
  wp (k tt) Q (f s.1, s.2) -> wp (on_round f ≫= k) Q s.
Proof. by intros H. Qed.

Lemma txids_alter (f : UnconfirmedRound -> UnconfirmedRound) (i : nat) (l : list UnconfirmedRound) : (forall x, l !! i = Some x -> funding_txid (f x) = funding_txid x) ->
  funding_txid <$> alter f i l = funding_txid <$> l.
Proof.
  intros H. apply list_eq. intros j. rewrite !list_lookup_fmap. destruct (decide (i = j)) as [->|Hne].
  - rewrite list_lookup_alter_eq. destruct (l !! j) as [x|] eqn:Hx; cbn; [|done]. by rewrite H.
  - by rewrite list_lookup_alter_ne.
Qed.

(** A round of the list is replaced by one with the same id. *)
Lemma inv_alter (st : WalletRound) w f i : inv (st, w) ->
  (forall x, wr_unconfirmed st !! i = Some x -> good_round p x -> funding_txid (f x) = funding_txid x /\ good_round p (f x)) ->
  inv (set_unconfirmed (alter f i (wr_unconfirmed st)) st, w).
Proof.
  intros Hs Hf. pose proof (ri_rounds _ _ _ _ Hs) as Hall. cbn in Hall. rewrite Forall_lookup in Hall.
  assert (Hids : funding_txid <$> alter f i (wr_unconfirmed st) = funding_txid <$> wr_unconfirmed st).
  { apply txids_alter. intros x Hx. by destruct (Hf x Hx (Hall i x Hx)). }
  assert (Hnil : wr_unconfirmed st = [] -> alter f i (wr_unconfirmed st) = []) by by intros ->.
  apply (inv_round p mid sent0 st); try done.
  - intros t Ht. right. unfold tracked in *. cbn. by rewrite Hids.
  - cbn. apply Forall_lookup. intros j x Hx. destruct (decide (i = j)) as [->|Hne].
    + rewrite list_lookup_alter_eq in Hx. apply fmap_Some in Hx as (y & Hy & ->). by destruct (Hf y Hy (Hall j y Hy)).
    + rewrite list_lookup_alter_ne in Hx by done. by eapply Hall.
  - apply Hs.
  - intros H. cbn. by apply Hnil, Hs.
  - intros [H1 H2]. split; [by apply Hnil|done].
Qed.

Lemma good_funding r tx : good_round p r -> compute_txid tx = funding_txid r -> good_round p (set_funding_tx tx r).
Proof.
  intros [Hwf (tx0 & H0 & Hc)] Htx. split; [by apply wf_funding|]. exists tx0. split; [|done]. unfold funding_txid in *. cbn. congruence.
Qed.

Lemma finish_attempt_ok tx vs (s : RS) : inv s -> ongoing_participation s.1 = true ->
  wp (finish_attempt tx vs) (post (fun _ _ => True)) s.
Proof.
  intros Hs Ho. destruct s as [st w]. unfold finish_attempt. apply wp_bind, wp_gets. cbn [and_then fst].
  apply wp_bind, wp_lift. destruct (negb _); cbn [assert and_then]; [|done].
  destruct (position _ _) as [i|] eqn:Hp.
  - apply position_lookup in Hp as (r & Hr & Hid%bool_decide_eq_true). apply wp_round. cbn [fst snd].
    assert (Hs1 : inv (set_unconfirmed (alter (set_funding_tx tx) i (wr_unconfirmed st)) st, w)).
    { apply inv_alter; [done|]. intros x Hx Hg. rewrite Hr in Hx. injection Hx as <-.
      split; [by unfold funding_txid at 1; cbn|]. by apply good_funding. }
    apply wp_bind. apply wp_round_world; [exact Hs1|apply keeps_try, holds_success|]. intros o w' Hw'. cbn [fst] in *.
    destruct o as [r'|e|]; cbn [and_then]; [|exact Hw'|done]. split; [|done]. cbn [fst]. by apply inv_set_flow.
  - split; [|done]. by apply inv_set_flow.
Qed.

Lemma process_event_ok e d (s : RS) : inv s -> wp (process_event cfg e d) (post (fun _ _ => True)) s.
Proof.
  intros Hs. unfold process_event. apply wp_bind, wp_gets. cbn [and_then fst].
  assert (Hret : forall b : bool, wp (mret b : M RS string bool) (post (fun _ _ => True)) s) by by split.
  assert (Hpart : wr_participation s.1 = p) by apply Hs.
  assert (Htrue : forall (m : M RS string unit) s', wp m (post (fun _ _ => True)) s' ->
    wp (_ ← m; mret true) (post (fun (_ : bool) _ => True)) s').
  { intros m s' H. apply wp_bind. eapply wp_mono; [exact H|]. by intros [|e'|] s1; cbn. }
  destruct (wr_flow s.1) as [|r a state| | |] eqn:Hfl; [| |done..].
  - destruct e as [r' a' ch| | |]; [|done..]. destruct (a' =? 0); [|done]. apply Htrue, try_start_ok; [done|].
    unfold ongoing_participation. by rewrite Hfl.
  - assert (Ho : ongoing_participation s.1 = true) by (unfold ongoing_participation; by rewrite Hfl).
    destruct (r <? _). { apply Htrue. unfold wp, on_round, modify. cbn [fst snd]. split; [|done]. apply inv_set_flow; try done. by destruct s. }
    destruct (_ <? a); [done|].
    assert (Hgo : forall ev, wp (res ← on_world (progress_attempt cfg state (wr_participation s.1) ev d);
      match res with
      | ApNotUpdated => mret false
      | ApUpdated new_state new_round =>
          _ ← on_round (fun s => set_flow (Ongoing r a new_state) (set_unconfirmed (wr_unconfirmed s ++ option_list new_round) s));
          mret true
      | ApFailed e => _ ← on_round (set_flow (FlowFailed e)); mret true
      | ApFinished tx vtxos => _ ← finish_attempt tx vtxos; mret true
      end) (post (fun (_ : bool) _ => True)) s).
    { intros ev. apply wp_bind. unfold wp at 1, on_world, zoom. cbn [fst snd]. rewrite Hpart.
      pose proof (progress_ok r a state ev d s.1 s.2) as Hpr. unfold wp in Hpr.
      destruct (progress_attempt cfg state p ev d s.2) as [o w']. cbn [fst snd] in *.
      assert (Hpo : progressed r a s.1 o w') by (apply Hpr; [by destruct s|done]).
      destruct o as [[tx vs|er|ns nr|]|er|]; cbn [and_then]; [| | | |exact Hpo|done]; cbn [progressed] in Hpo.
      - apply Htrue, finish_attempt_ok; [exact Hpo|done].
      - apply Htrue. unfold wp, on_round, modify. cbn [fst snd]. split; [|done]. by apply inv_set_flow.
      - apply Htrue. unfold wp, on_round, modify. cbn [fst snd]. split; [exact Hpo|done].
      - by split. }
    destruct e as [r' a' ch| | |]; [|apply Hgo..]. destruct (a <? a'); [|done]. by apply Htrue, try_start_ok.
Qed.

(** Inputs are unlocked only when a round is over. *)
Lemma failure_ok q m (s : RS) : inv s -> over s.1 ->
  wp (on_world (persist_round_failure q m)) (fun o s' => inv s' /\ s'.1 = s.1) s.
Proof.
  intros Hs Ho. unfold wp, on_world, zoom. cbn [fst snd]. split; [|done]. apply inv_over with (w := s.2); [by destruct s|done|apply loose_failure].
Qed.

Lemma try_cancel_ok (s : RS) : inv s -> wp try_cancel (post (fun _ _ => True)) s.
Proof.
  intros Hs. destruct s as [st w]. unfold try_cancel. apply wp_bind, wp_gets. cbn [and_then fst].
  assert (Hno : forall st', inv (st', w) -> wp (if (false : bool)
      then _ ← on_world (persist_round_failure (wr_participation st) (wr_movement_id st)); mret true else mret false) (post (fun _ _ => True)) (st', w)).
  { intros st' H. by split. }
  assert (Hyes : forall st', inv (st', w) -> over st' -> wp (if (true : bool)
      then _ ← on_world (persist_round_failure (wr_participation st) (wr_movement_id st)); mret true else mret false) (post (fun _ _ => True)) (st', w)).
  { intros st' H Ho. apply wp_bind. eapply wp_mono; [by apply failure_ok|]. intros [[]|e|] s' [H1 H2]; cbn; [by split|done..]. }
  assert (Hcancel : wr_unconfirmed st = [] -> inv (set_flow FlowCanceled st, w)).
  { intros Hnil. apply (inv_round p mid sent0 st); try done; [intros t Ht; by right|apply Hs]. }
  destruct (wr_flow st) as [|r a state| |e|] eqn:Hfl; apply wp_bind.
  - assert (Hnil : wr_unconfirmed st = []) by (apply Hs; by left). apply wp_round, wp_ret. cbn [and_then fst snd]. apply Hyes; [by apply Hcancel|by split].
  - case_bool_decide as Hnil.
    + apply wp_round, wp_ret. cbn [and_then fst snd]. apply Hyes; [by apply Hcancel|by split].
    + apply wp_ret. cbn [and_then]. by apply Hno.
  - apply wp_ret. cbn [and_then]. by apply Hno.
  - apply wp_ret. cbn [and_then]. case_bool_decide as Hnil; [|by apply Hno]. apply Hyes; [done|]. split; [done|]. unfold ongoing_participation. by rewrite Hfl.
  - assert (Hnil : wr_unconfirmed st = []) by (apply Hs; by right). apply wp_ret. cbn [and_then]. apply Hyes; [done|]. split; [done|].
    unfold ongoing_participation. by rewrite Hfl.
Qed.

Lemma insert_alter {A : Type} (l : list A) i x : <[i := x]> l = alter (fun _ => x) i l.
Proof.
  apply list_eq. intros j. destruct (decide (i = j)) as [->|Hne].
  - rewrite list_lookup_alter_eq. destruct (l !! j) as [y|] eqn:Hy; cbn.
    + apply list_lookup_insert_eq. by eapply lookup_lt_Some.
    + apply lookup_ge_None in Hy. rewrite list_insert_ge by done. by apply lookup_ge_None.
  - by rewrite list_lookup_insert_ne, list_lookup_alter_ne.
Qed.

(** The sync of the round at [idx]: the list has the same rounds, and a round
    that is reported as double spent is. *)
Lemma at_round_ok idx (s : RS) : inv s -> (idx < length (wr_unconfirmed s.1))%nat ->
  wp (try_m (F := string) (at_round idx (unconfirmed_sync cfg))) (fun o s' =>
    match o with
    | Ok res => inv s' /\ length (wr_unconfirmed s'.1) = length (wr_unconfirmed s.1) /\ wr_flow s'.1 = wr_flow s.1 /\
        forall r d, wr_unconfirmed s'.1 !! idx = Some r -> res = inr (UrDoubleSpent d) -> double_spent (funding_txid r)
    | Err _ => False
    | Panic => True
    end) s.
Proof.
  intros Hs Hidx. destruct s as [st w]. apply lookup_lt_is_Some_2 in Hidx as [r Hr]. cbn [fst] in Hr.
  pose proof (ri_rounds _ _ _ _ Hs) as Hall. cbn [fst] in Hall. pose proof (Forall_lookup_1 _ _ _ _ Hall Hr) as [Hwf (tx & Htx & Hcov)].
  pose proof (unconfirmed_sync_ok r w Hwf (ri_seen _ _ _ _ Hs)) as [Hstep Hres]. unfold wp, try_m, at_round. cbn [fst snd]. rewrite Hr.
  destruct (unconfirmed_sync cfg (r, w)) as [o [r' w']]. cbn [fst snd] in *. destruct Hstep as ([H1 H2 H3 H4] & Hwf' & Hn). cbn [fst snd] in *.
  assert (Hs' : inv (set_unconfirmed (<[idx := r']> (wr_unconfirmed st)) st, w')).
  { eapply inv_holds; [|apply quiet_holds, H4]. rewrite insert_alter. apply inv_alter; [done|]. intros x Hx _. rewrite Hr in Hx. injection Hx as <-.
    split; [done|]. split; [done|]. exists tx. rewrite H1, H2. done. }
  assert (Hlen : length (<[idx := r']> (wr_unconfirmed st)) = length (wr_unconfirmed st)) by apply length_insert.
  destruct o as [res|e|]; [| |done]; (split; [exact Hs'|]); (split; [exact Hlen|]); (split; [done|]); intros x d Hx Hd; [|done].
  cbn in Hx. rewrite list_lookup_insert_eq in Hx by (by eapply lookup_lt_Some). injection Hx as <-. injection Hd as ->. rewrite H1. exact Hres.
Qed.

Lemma inv_remove (st : WalletRound) w idx r : inv (st, w) -> wr_unconfirmed st !! idx = Some r -> double_spent (funding_txid r) ->
  wr_flow st <> WaitingToStart -> wr_flow st <> FlowCanceled ->
  inv (set_unconfirmed (swap_remove idx (wr_unconfirmed st)) st, w).
Proof.
  intros Hs Hr Hd Hf1 Hf2. pose proof (swap_remove_perm _ _ _ Hr) as Hperm. apply (inv_round p mid sent0 st); try done.
  - intros t Ht. unfold tracked in *. rewrite Hperm in Ht. cbn in Ht. apply elem_of_cons in Ht as [->|Ht]; [by left|by right].
  - cbn. pose proof (ri_rounds _ _ _ _ Hs) as Hall. cbn in Hall. rewrite Hperm in Hall. by apply Forall_cons in Hall as [_ Hall].
  - apply Hs.
  - by intros [?|?].
  - intros [Hnil _]. by rewrite Hnil in Hr.
Qed.

Lemma sync_at_ok idx (s : RS) : inv s -> (idx < length (wr_unconfirmed s.1))%nat ->
  wp (sync_at cfg idx) (post (fun r st' =>
    (length (wr_unconfirmed st') + (if (r.2 : bool) then 1 else 0) = length (wr_unconfirmed s.1))%nat /\ wr_flow st' = wr_flow s.1)) s.
Proof.
  intros Hs Hidx. unfold sync_at. apply wp_bind, wp_gets. cbn [and_then]. apply wp_bind.
  eapply wp_mono; [by apply at_round_ok|]. cbn beta. intros [res|e|] s1; cbn [and_then]; [|by intros []|done]. intros (Hs1 & Hlen & Hfl & Hd).
  apply wp_bind, wp_gets. cbn [and_then]. apply wp_bind, wp_lift.
  destruct (wr_unconfirmed s1.1 !! idx) as [r|] eqn:Hr; cbn [expect and_then]; [|done].
  assert (Hret : forall x s', inv s' -> s'.1 = s1.1 -> wp (mret (x, false) : M RS string (option bytes * bool)) (post (fun r st' =>
    (length (wr_unconfirmed st') + (if (r.2 : bool) then 1 else 0) = length (wr_unconfirmed s.1))%nat /\ wr_flow st' = wr_flow s.1)) s').
  { intros x s' H1 H2. split; [done|]. cbn. rewrite H2. split; [lia|done]. }
  apply wp_bind. apply wp_mono with (P := fun o s' => match o with Ok _ => inv s' /\ s'.1 = s1.1 | Err _ => False | Panic => True end).
  { destruct (_ && _); [|done]. unfold wp, try_m, on_world, zoom. cbn [fst snd].
    pose proof (holds_success p (wr_participation s1.1) mid (wr_movement_id s1.1) (ur_new_vtxos r) (ur_funding_tx r) s1.2) as Hh.
    assert (Hinv : forall w', holds p mid s1.2 w' -> inv (s1.1, w')) by (intros w'; apply inv_holds; by destruct s1).
    destruct (persist_round_success _ _ _ _ _) as [[[]|e|] w']; cbn in *; [split; [by apply Hinv|done]..|done]. }
  intros [persisted|e|] s2; cbn [and_then]; [|by intros []|done]. intros [Hs2 Heq].
  destruct persisted as [e|[]]; [by apply Hret|]. destruct res as [e|[|d|]]; try by apply Hret.
  unfold wp, on_round, modify, mbind, M_bind. cbn [fst snd]. rewrite Heq. cbn.
  assert (Hdead : double_spent (funding_txid r)) by by eapply Hd.
  assert (Hne : wr_unconfirmed s1.1 <> []) by (intros H; by rewrite H in Hr).
  pose proof (ri_empty _ _ _ _ Hs2) as Hemp. rewrite Heq in Hemp.
  assert (Hs2' : inv (s1.1, s2.2)) by (rewrite <- Heq; by destruct s2).
  split; [apply inv_remove with (r := r); [exact Hs2'|exact Hr|exact Hdead|intros ?; by apply Hne, Hemp; left|intros ?; by apply Hne, Hemp; right]|].
  split; [|done]. pose proof (Permutation_length (swap_remove_perm _ _ _ Hr)) as Hl. cbn in Hl. lia.
Qed.

Lemma sync_rounds_ok fuel : forall idx confirmed (s : RS), inv s -> (length (wr_unconfirmed s.1) <= fuel + idx)%nat ->
  wp (sync_rounds cfg fuel idx confirmed) (post (fun _ st' => wr_flow st' = wr_flow s.1)) s.
Proof.
  induction fuel as [|fuel IH]; intros idx confirmed s Hs Hlen; unfold wp; cbn [sync_rounds];
    destruct (idx <? length (wr_unconfirmed s.1))%nat eqn:Hidx; [apply Nat.ltb_lt in Hidx; lia|done| |done].
  apply wp_bind. eapply wp_mono; [apply sync_at_ok; [done|by apply Nat.ltb_lt]|].
  intros [r|e|] s1; cbn [and_then]; [|done..]. intros [Hs1 [Hl Hfl]].
  eapply wp_mono; [apply IH; [done|]; apply Nat.ltb_lt in Hidx; destruct r.2; lia|].
  intros [c|e|] s2; cbn; [|done..]. intros [? ->]. done.
Qed.

Lemma quiet_finish id st : keeps (holds p mid) (t ← now; on_mov (finish_movement id st t) : M W string unit).
Proof. solve_keeps. Qed.

Lemma keeps_funding t id : keeps (holds p mid) (update_funding_txid t id : M W string unit).
Proof. eapply keeps_weaken; [apply quiet_holds|apply quiet_funding_txid]. Qed.

Lemma round_sync_ok (s : RS) : inv s -> wp (round_sync cfg) (post (fun _ _ => True)) s.
Proof.
  intros Hs. unfold round_sync. apply wp_bind, wp_gets. cbn [and_then]. apply wp_bind.
  eapply wp_mono; [apply sync_rounds_ok; [done|]; lia|]. intros [c|e|] s1; cbn [and_then]; [|done..]. intros [Hs1 _].
  apply wp_bind, wp_gets. cbn [and_then]. clear s Hs. rename s1 into s. rename Hs1 into Hs.
  assert (Hthen : forall (m : M RS string unit) (r : RoundStatus), wp m (post (fun _ _ => True)) s ->
    wp (_ ← m; mret r) (post (fun _ _ => True)) s).
  { intros m r H. apply wp_bind. eapply wp_mono; [exact H|]. by intros [[]|e|] s'; cbn. }
  assert (Hworld : forall m : M W string unit, keeps (holds p mid) m -> wp (on_world m) (post (fun _ _ => True)) s).
  { intros m Hm. apply wp_round_world; [done..|]. by intros [[]|e|] w'; cbn. }
  assert (Hnone : wp (mret tt : M RS string unit) (post (fun _ _ => True)) s) by by split.
  destruct c as [t|].
  - apply Hthen. destruct (wr_movement_id s.1) as [id|]; [|done]. apply wp_bind. eapply wp_mono; [apply Hworld, keeps_funding|].
    intros [[]|e|] s2; cbn [and_then]; [|done..]. intros [Hs2 _].
    apply wp_bind. apply wp_round_world; [exact Hs2|apply holds_quiet_now|]. intros [t'|e|] w' Hw'; cbn [and_then]; [|done..].
    apply wp_round_world; [exact Hw'|apply holds_quiet_mov|]. by intros [[]|e|] w2 Hw2; cbn.
  - case_bool_decide as Hnil.
    + assert (Hfail : forall r, ongoing_participation s.1 = false -> wp (_ ← on_world (persist_round_failure (wr_participation s.1) (wr_movement_id s.1)); mret r)
        (post (fun (_ : RoundStatus) _ => True)) s).
      { intros r Ho. apply Hthen. eapply wp_mono; [apply failure_ok; [done|by split]|]. intros [[]|e|] s' [H1 H2]; by cbn. }
      unfold ongoing_participation in Hfail. destruct (wr_flow s.1); [by split..| | |]; by apply Hfail.
    + destruct (List.find _ _) as [r|]; [|by split]. apply Hthen. destruct (wr_movement_id s.1); [|done]. apply Hworld, keeps_funding.
Qed.
End Steps.
End Sound.
