(* ===== verification/WalletRoundReach.v ===== *)
(** * Rounds of the wallet: every state of a participation

    The states a participation can reach, through events of the server, syncs
    with the chain, attempts to cancel it, and whatever else happens to the
    wallet in between; the safety theorem, and a run of a whole round. *)
From stdpp Require Import gmap.
From S2P Require Import Prelude Effects Keyed Tree Bitcoin Encode Concrete Policy Vtxo Validation Arkoor SignedTree TreeTxs ChainSource.
From S2P Require Import ExitStates Persist Movement MovementFacts Rounds Connectors Forfeit WalletRoundState WalletRound WalletRoundSafety.

Open Scope Z_scope.

Section Reach.
Context `{B : Bitcoin} `{C : !Consensus} `{S : !Signing B} `{PT : !PaymentTypes}.
Context {db net srv mdb : Type} `{!Persister db, !RoundPersister db, !ChainSource net, !RoundChain net, !RoundServer srv, !MovementDb mdb}.
Notation W := (World (db := db) (net := net) (srv := srv) (mdb := mdb)).
Context (cfg : WalletConfig) (Seen : net -> Prop).

(** What the rest of the wallet and of the world may do: the chain goes on, and
    the server is sent forfeits of other VTXOs; the inputs of the round are left
    alone while they are locked, and stay spent. *)
Record others (p : RoundParticipation) (mid : option Z) (w w' : W) : Prop := {
  ot_seen : Seen (w_net w) -> Seen (w_net w');
  ot_sent : exists l, forfeits_sent (w_srv w') = forfeits_sent (w_srv w) ++ l /\
    Forall (fun m : ForfeitSigs => forall id, id ∈ input_ids p -> m !! id = None) l;
  ot_held : forall id, id ∈ input_ids p -> held mid w id -> held mid w' id;
}.

(** The states of a participation, after any outcome but a panic.  [sent0] is
    what the server had been sent before. *)
Inductive round_reach (p : RoundParticipation) (mid : option Z) (sent0 : list ForfeitSigs) : WalletRound -> W -> Prop :=
  | rr_join kind st w0 w : Seen (w_net w0) -> forfeits_sent (w_srv w0) = sent0 ->
      join_next_round cfg p kind w0 = (Ok st, w) -> wr_movement_id (sto_state st) = mid ->
      round_reach p mid sent0 (sto_state st) w
  | rr_event e d st w r st' w' : round_reach p mid sent0 st w ->
      process_event cfg e d (st, w) = (r, (st', w')) -> r <> Panic -> round_reach p mid sent0 st' w'
  | rr_sync st w r st' w' : round_reach p mid sent0 st w ->
      round_sync cfg (st, w) = (r, (st', w')) -> r <> Panic -> round_reach p mid sent0 st' w'
  | rr_cancel st w r st' w' : round_reach p mid sent0 st w ->
      try_cancel (st, w) = (r, (st', w')) -> r <> Panic -> round_reach p mid sent0 st' w'
  | rr_others st w w' : round_reach p mid sent0 st w -> others p mid w w' -> round_reach p mid sent0 st w'.

Context `{!PersisterLaws db, !RoundPersisterLaws db, !RoundServerLaws srv, !SeenLaws Seen}.
Notation inv := (round_inv cfg Seen).

Lemma join_spec p kind (w0 w : W) st : join_next_round cfg p kind w0 = (Ok st, w) ->
  wr_participation (sto_state st) = p /\ wr_flow (sto_state st) = WaitingToStart /\ wr_unconfirmed (sto_state st) = [] /\
  w_net w = w_net w0 /\ forfeits_sent (w_srv w) = forfeits_sent (w_srv w0) /\
  (forall id, id ∈ input_ids p -> state_of (w_db w) id = Some (VtxoState.Locked (wr_movement_id (sto_state st)))) /\
  db_rounds (w_db w) !! sto_id st = Some (sto_state st).
Proof.
  unfold join_next_round. intros H. apply bind_run_Ok in H as (? & w1 & [_ ->]%lift_run & H).
  apply bind_run_Ok in H as (? & w2 & [_ ->]%lift_run & H). apply bind_run_Ok in H as (mid & w3 & Hm & H).
  assert (Hw3 : w_db w3 = w_db w0 /\ w_net w3 = w_net w0 /\ w_srv w3 = w_srv w0).
  { destruct kind as [k|]; [|by injection Hm as _ <-]. apply bind_run_Ok in Hm as (u & w4 & [_ ->]%lift_run & Hm).
    apply bind_run_Ok in Hm as (t & w5 & Ht & Hm). injection Ht as _ <-. apply bind_run_Ok in Hm as (id & w6 & Hid & Hm).
    injection Hm as _ <-. unfold on_mov, map_err_m, zoom in Hid. by injection Hid as _ <-. }
  destruct Hw3 as (H1 & H2 & H3). apply bind_run_Ok in H as (id & w4 & Hst & H). injection H as <- <-.
  unfold query_db, on_wdb, map_err_m, zoom, call in Hst. cbn [fst snd] in Hst.
  pose proof (store_round_db (wallet_round_new p mid) (w_db w3)) as Hdb.
  destruct (store_round_state_lock_vtxos _ (w_db w3)) as [[e|id'] d]; cbn [fst snd map_err] in *; [done|].
  injection Hst as -> <-. destruct Hdb as (_ & Hr & Hsp & Hv). cbn [w_db w_net w_srv sto_state sto_id wallet_round_new
    wr_participation wr_flow wr_unconfirmed wr_movement_id] in *. rewrite H2, H3. split_and!; try done.
  - intros i Hi. unfold state_of. rewrite Hv. rewrite decide_True by exact Hi.
    apply list_elem_of_fmap in Hi as (v & -> & Hin). destruct (Hsp v Hin) as (row & Hx & _). exact (f_equal (fun o => wv_state <$> (lock_for mid <$> o)) Hx).
  - rewrite Hr. apply lookup_insert_eq.
Qed.

Lemma reach_inv p mid sent0 st w : round_reach p mid sent0 st w -> inv p mid sent0 (st, w).
Proof.
  intros H. induction H as [kind st w0 w Hseen Hsent Hjoin Hmid|e d st w r st' w' _ IH Hrun Hr|st w r st' w' _ IH Hrun Hr
    |st w r st' w' _ IH Hrun Hr|st w w' _ IH [Hn (l & Hl & Hoth) Hh]].
  - apply join_spec in Hjoin as (H1 & H2 & H3 & H4 & H5 & H6 & _). rewrite Hmid in H6. split; cbn; try done.
    + by rewrite H4.
    + exists []. rewrite H5, app_nil_r. by split.
    + by rewrite H3.
    + by rewrite H2.
    + left. intros i Hi. left. by apply H6.
  - pose proof (wp_run _ _ _ _ _ Hrun (process_event_ok cfg Seen p mid sent0 e d (st, w) IH)) as Hp. destruct r; [apply Hp|exact Hp|done].
  - pose proof (wp_run _ _ _ _ _ Hrun (round_sync_ok cfg Seen p mid sent0 (st, w) IH)) as Hp. destruct r; [apply Hp|exact Hp|done].
  - pose proof (wp_run _ _ _ _ _ Hrun (try_cancel_ok cfg Seen p mid sent0 (st, w) IH)) as Hp. destruct r; [apply Hp|exact Hp|done].
  - destruct IH as [H1 H2 H3 (l0 & Hl0 & Hacc) H5 H6 H7 H8]. split; cbn in *; try done; [by apply Hn| |].
    + exists (l0 ++ l). rewrite Hl, Hl0, app_assoc. split; [done|]. apply Forall_app. split; [done|].
      eapply Forall_impl; [exact Hoth|]. by left.
    + destruct H8 as [H8|H8]; [left; auto|by right].
Qed.

End Reach.

(** ** A round in the model

    A chain source that always answers the same, and a server that keeps what
    it is sent. *)
Record SampleNet := mkSampleNet {
  sn_status : TxStatus.t; sn_tip : Z; sn_tx : option Transaction; sn_output : option OutputStatus; sn_gone : bool; sn_clock : Z }.

#[export] Instance sample_chain : ChainSource SampleNet := {|
  fee_rates _ := mkFeeRates 1 1 1;
  chain_tip n := (inr (sn_tip n), n);
  block_ref h n := (inr (mkBlockRef h []), n);
  chain_tx_status _ n := (inr (sn_status n), n);
  txs_spending_inputs _ _ n := (inr ∅, n);
  get_tx _ n := (inr (sn_tx n), n);
  mempool_ancestor_info _ n := (inl "not found"%string, n);
  broadcast_txs _ n := (inr tt, n) |}.

#[export] Instance sample_round_chain : RoundChain SampleNet := {|
  get_output_status _ _ n := (inr (sn_output n), n);
  get_tx_out _ _ n := (inr (if sn_gone n then None else Some (mkTxOut 0 [])), n);
  broadcast_tx _ n := (inr tt, n);
  clock := sn_clock |}.

#[export] Instance sample_seen n0 : SeenLaws (fun n : SampleNet => n = n0).
Proof. by split; intros; subst. Qed.

Record SampleServer := mkSampleServer { sv_up : bool; sv_sent : list (gmap VtxoId (list (@PublicNonce model * @PartialSignature model))) }.

#[export] Instance sample_server : RoundServer (B := model) SampleServer := {|
  require_server s := (if sv_up s then inr tt else inl "not connected"%string, s);
  get_ark_info s := (inr (mkArkInfo (B := model) Byte.x09 4 12 144 6 1 250 1000 1), s);
  submit_payment _ s := (inr tt, s);
  provide_vtxo_signatures _ _ s := (inr tt, s);
  provide_forfeit_signatures m s := (inr tt, mkSampleServer (sv_up s) (sv_sent s ++ [m]));
  last_round_event s := (inl "no event"%string, s);
  forfeits_sent := sv_sent |}.

#[export] Instance sample_server_laws : RoundServerLaws (B := model) SampleServer.
Proof. split; try done. intros m s. by right. Qed.

Definition sample_cfg : WalletConfig (B := model) :=
  mkWalletConfig (B := model) 6 12 12 18 Esplora (fun _ => 0) (fun i => match Byte.of_N (Z.to_N i) with Some b => b | None => Byte.x00 end).

Definition sample_tables : RoundTables (B := model) :=
  mkRoundTables (B := model)
    (mkSqlite (B := model) {[ vtxo_id sample_vtxo := (sample_vtxo, VtxoState.Spendable, []) ]} ∅ ∅ [])
    ∅ 0 (list_to_map ((fun i => (Z.of_nat i, default Byte.x00 (Byte.of_N (N.of_nat i)))) <$> seq 0 256)).

Notation SampleWorld := (World (PT := sample_types) (db := RoundTables (B := model)) (net := SampleNet) (srv := SampleServer) (mdb := MovTables (PT := sample_types))).

Definition quiet_net0 : SampleNet := mkSampleNet TxStatus.NotFound 100 None None false 0.
Definition sample_w0 : SampleWorld :=
  mkWorld (PT := sample_types) sample_tables quiet_net0 (mkSampleServer true []) (mkManager {[ 0 := "bark.round"%string ]} ∅, mkTables ∅ 0 []).

(** The wallet gives up its VTXO for one of 2900 sat. *)
Definition sample_out : VtxoRequest (B := model) := mkRequest (B := model) 2900 (new_pubkey (B := model) Byte.x08).
Definition sample_part : RoundParticipation (B := model) := mkParticipation (B := model) [sample_vtxo] [sample_out] [].
Definition sample_d : Draws (B := model) :=
  mkDraws (B := model) (fun _ => Byte.x11) (fun _ j => Z.of_nat j) (fun _ => 0) (fun _ i => Z.of_nat i).

Definition sample_spec : VtxoTreeSpec (B := model) :=
  mkTreeSpec (B := model) [mkSignedRequest (B := model) sample_out (Some Byte.x11)] 100000 Byte.x09 144 [Byte.x19].
Definition sample_round_tx : Transaction :=
  mkTx 2 0 [mkTxIn (mkOutPoint (Concrete.hash [Byte.x33]) 0) [] 0 []]
    [ok_value (mkTxOut 0 []) (funding_tx_txout (B := model) (E := unit) sample_spec);
     ok_value (mkTxOut 0 []) (connector_output (B := model) (E := unit) 1 Byte.x21)].
Definition sample_signed_tx : Transaction :=
  mkTx 2 0 [mkTxIn (mkOutPoint (Concrete.hash [Byte.x33]) 0) [] 0 [[Byte.x01]]] (output sample_round_tx).
Definition sample_u : UnsignedVtxoTree (B := model) :=
  ok_value (mkUnsignedTree (B := model) sample_spec (mkOutPoint [] 0) [] [] [] (mkTree [] 0))
    (unsigned_tree_new (B := model) (E := unit) sample_spec (mkOutPoint (compute_txid (Bitcoin := model) sample_round_tx) 0)).
Definition sample_tree_sigs : list (@Signature model) :=
  zip_with (fun nd sh => (output_key (B := model) (node_tr sample_spec (agg_pk_of sample_spec nd)), sh))
    (nodes (ut_tree sample_u)) (ut_sighashes sample_u).

Definition ev_attempt : RoundEvent (B := model) := EvAttempt (B := model) 1 0 [Byte.x44].
Definition ev_tree : RoundEvent (B := model) := EvVtxoProposal (B := model) 1 0 sample_round_tx sample_spec [0; 0; 0; 0].
Definition ev_proposal : RoundEvent (B := model) :=
  EvRoundProposal (B := model) 1 0 sample_tree_sigs [(vtxo_id sample_vtxo, [3])] Byte.x21.
Definition ev_finished : RoundEvent (B := model) := EvFinished (B := model) 1 0 sample_signed_tx.

Definition sample_event (e : RoundEvent (B := model)) (s : WalletRound (B := model) * SampleWorld) :=
  process_event (B := model) (C := model_consensus) sample_cfg e sample_d s.

Definition sample_join := join_next_round (B := model) sample_cfg sample_part None sample_w0.
Definition sample_s0 : WalletRound (B := model) * SampleWorld := (match sample_join.1 with Ok st => sto_state st | _ => wallet_round_new (B := model) sample_part None end, sample_join.2).
Definition sample_s1 := (sample_event ev_attempt sample_s0).2.
Definition sample_s2 := (sample_event ev_tree sample_s1).2.
Definition sample_s3 := (sample_event ev_proposal sample_s2).2.
Definition sample_s4 := (sample_event ev_finished sample_s3).2.

(** The outcome of a step that does not panic, and where it leads. *)
Definition no_panic_out {E A} (o : outcome E A) : bool := match o with Panic => false | _ => true end.

Lemma no_panic_ne {E A} (o : outcome E A) : no_panic_out o = true -> o <> Panic.
Proof. by intros H ->. Qed.

Notation sample_reach := (round_reach (B := model) (C := model_consensus) (PT := sample_types) (db := RoundTables (B := model))
  (net := SampleNet) (srv := SampleServer) (mdb := MovTables (PT := sample_types)) sample_cfg (fun n => n = quiet_net0) sample_part None []).

Lemma sample_step (e : RoundEvent (B := model)) (s : WalletRound (B := model) * SampleWorld) :
  sample_reach s.1 s.2 -> no_panic_out (sample_event e s).1 = true -> sample_reach (sample_event e s).2.1 (sample_event e s).2.2.
Proof.
  intros Hs Hn. destruct s as [st w]. cbn [fst snd] in Hs.
  apply (rr_event (B := model) (C := model_consensus) sample_cfg (fun n => n = quiet_net0) sample_part None [] e sample_d st w
    (sample_event e (st, w)).1); [exact Hs| |by apply no_panic_ne].
  unfold sample_event. by destruct (process_event _ _ _ _) as [o [st' w']].
Qed.

Lemma sample_reach0 : sample_reach sample_s0.1 sample_s0.2.
Proof.
  destruct sample_join as [o w] eqn:Hj. assert (Ho : is_ok sample_join.1 = true) by vm_eq. rewrite Hj in Ho. destruct o as [st|e|]; [|done..].
  unfold sample_s0. rewrite Hj. cbn [fst snd].
  apply (rr_join (B := model) (C := model_consensus) sample_cfg (fun n => n = quiet_net0) sample_part None [] None st sample_w0 w); [done|done|exact Hj|].
  assert (Hm : (match sample_join.1 with Ok st => wr_movement_id (sto_state st) | _ => Some 0 end) = None) by vm_eq. by rewrite Hj in Hm.
Qed.

Lemma sample_reach3 : sample_reach sample_s3.1 sample_s3.2.
Proof. do 3 (apply sample_step; [|vm_eq]). apply sample_reach0. Qed.

