(* ===== verification/WalletRoundErrors.v ===== *)
(** * Rounds of the wallet: where the code falls short

    Theorems about paths on which the wallet loses track of funds: a crash
    between sending forfeits and storing that it did, a leaf of the tree that
    only looks like ours, a confirmed round whose transaction could not be
    fetched, and a round that is double spent after it succeeded. *)
From stdpp Require Import gmap.
From S2P Require Import Prelude Effects Keyed Tree Bitcoin Encode Concrete Policy Vtxo Validation Arkoor SignedTree TreeTxs ChainSource.
From S2P Require Import ExitStates Persist Movement MovementFacts Rounds Connectors Forfeit WalletRoundState WalletRound WalletRoundSafety WalletRoundReach.

Open Scope Z_scope.

Section Errors.
Context `{B : Bitcoin} `{C : !Consensus} `{S : !Signing B} `{PT : !PaymentTypes}.
Context {db net srv mdb : Type} `{!Persister db, !RoundPersister db, !ChainSource net, !RoundChain net, !RoundServer srv, !MovementDb mdb}.
Context `{!PersisterLaws db, !RoundPersisterLaws db}.
Notation W := (World (db := db) (net := net) (srv := srv) (mdb := mdb)).
Notation RS := (WalletRound * W)%type.
Context (cfg : WalletConfig).

(** ** Handling an event stores no round *)
Definition same_rounds : relation W := fun w w' => db_rounds (w_db w') = db_rounds (w_db w).
Definition same_rounds_r : relation RS := fun s s' => same_rounds s.2 s'.2.

#[local] Instance same_rounds_preorder : PreOrder same_rounds.
Proof. split; [done|]. intros w1 w2 w3 H1 H2. unfold same_rounds in *. congruence. Qed.
#[local] Instance same_rounds_r_preorder : PreOrder same_rounds_r.
Proof. split; [by intros s|]. intros s1 s2 s3 H1 H2. unfold same_rounds_r in *. by etrans. Qed.

Lemma rounds_net {A} (f : ext net string A) : keeps same_rounds (on_net f : M W string A).
Proof. by intros w. Qed.
Lemma rounds_srv {A} (f : ext srv string A) : keeps same_rounds (on_srv f : M W string A).
Proof. by intros w. Qed.
Lemma rounds_mov {A} (m : M (MovementManager * mdb) MovementError A) : keeps same_rounds (on_mov m : M W string A).
Proof. by intros w. Qed.
Lemma rounds_now : keeps same_rounds (now : M W string Z).
Proof. by intros w. Qed.

Lemma rounds_wdb {E A} (err : E -> string) (m : M db E A) : keeps (fun d d' => db_rounds d' = db_rounds d) m ->
  keeps same_rounds (on_wdb err m : M W string A).
Proof. intros H w. apply H. Qed.

Lemma rounds_states ids st al : keeps same_rounds (on_wdb state_error (set_vtxo_states ids st al) : M W string unit).
Proof.
  apply rounds_wdb. unfold set_vtxo_states. assert (PreOrder (fun d d' : db => db_rounds d' = db_rounds d)).
  { split; [done|]. intros d1 d2 d3 H1 H2. congruence. }
  solve_keeps. intros d. apply update_vtxo_state_rounds.
Qed.

Lemma rounds_store vs : keeps same_rounds (on_wdb (fun e => e) (store_spendable_vtxos vs) : M W string unit).
Proof. apply rounds_wdb. intros d. apply (store_vtxos_db _ d). Qed.

Lemma rounds_key vtxo : keeps same_rounds (get_vtxo_key cfg vtxo : M W string Keypair).
Proof.
  unfold get_vtxo_key. apply keeps_bind; [apply _| |intros; solve_keeps]. intros w. apply (get_public_key_idx_db _ (w_db w)).
Qed.

Lemma rounds_expect {A} (m : M W string A) : keeps same_rounds m -> keeps same_rounds (expect_m m).
Proof. intros H w. specialize (H w). unfold expect_m. by destruct (m w) as [[a|e|] w']. Qed.

#[local] Hint Resolve rounds_net rounds_srv rounds_mov rounds_now rounds_states rounds_store rounds_key rounds_expect : effects.
#[local] Hint Extern 2 (keeps same_rounds (on_wdb state_error (mark_vtxos_as_spent _))) => apply rounds_states : effects.
#[local] Hint Extern 2 (keeps same_rounds (on_wdb state_error (unlock_vtxos _))) => apply rounds_states : effects.

Lemma rounds_success p mid vs tx : keeps same_rounds (persist_round_success p mid vs tx : M W string unit).
Proof. unfold persist_round_success. solve_keeps. Qed.

Lemma rounds_progress st p e d : keeps same_rounds (progress_attempt cfg st p e d : M W string _).
Proof.
  unfold progress_attempt, sign_vtxo_tree, sign_forfeits, submit_forfeit_sigs, forM_, cosign_one. destruct st, e; solve_keeps.
Qed.

Lemma rounds_start p ch d : keeps same_rounds (start_attempt cfg p ch d : M W string AttemptState).
Proof. unfold start_attempt. solve_keeps. Qed.

Lemma rounds_on_world {A} (m : M W string A) : keeps same_rounds m -> keeps same_rounds_r (on_world m).
Proof. intros H s. apply H. Qed.
Lemma rounds_on_round f : keeps same_rounds_r (on_round f : M RS string unit).
Proof. by intros s. Qed.

#[local] Hint Resolve rounds_on_world rounds_on_round rounds_progress rounds_start rounds_success keeps_try : effects.

Lemma rounds_process_event e d : keeps same_rounds_r (process_event cfg e d).
Proof.
  unfold process_event, try_start_attempt, finish_attempt. solve_keeps.
Qed.

(** ** Canceling *)

(** A participation that is not past its start can be canceled; the inputs are
    spendable then. *)
Lemma try_cancel_early (st st' : WalletRound) (w w' : W) b : ongoing_participation st = true -> wr_unconfirmed st = [] ->
  try_cancel (st, w) = (Ok b, (st', w')) -> b = true /\
  forall id, id ∈ input_ids (wr_participation st) -> state_of (w_db w') id = Some VtxoState.Spendable.
Proof.
  intros Ho Hn H. unfold try_cancel in H. apply bind_run_Ok in H as (s & s1 & Hs & H). injection Hs as <- <-. cbn [fst] in H.
  apply bind_run_Ok in H as (ret & s2 & Hret & H).
  assert (Hr : ret = true /\ s2.2 = w).
  { unfold ongoing_participation in Ho. rewrite Hn in Hret. destruct (wr_flow st); try done.
    all: rewrite ?bool_decide_true in Hret by done; by injection Hret as <- <-. }
  destruct Hr as [-> <-]. apply bind_run_Ok in H as ([] & s3 & Hf & H). injection H as <- ->. split; [done|].
  unfold on_world, zoom in Hf. destruct (persist_round_failure _ _ _) as [o w3] eqn:Hp. cbn in Hf. injection Hf as -> _ ->.
  unfold persist_round_failure in Hp. apply bind_run_Ok in Hp as (r1 & w1 & H1 & Hp). apply bind_run_Ok in Hp as (r2 & w2 & H2 & Hp).
  assert (Hdb : w_db w2 = w_db w1).
  { destruct (wr_movement_id st); [|by injection H2 as _ <-]. apply bind_run_Ok in H2 as (t & w4 & Ht & H2). injection Ht as _ <-.
    unfold try_m, on_mov, map_err_m, zoom in H2. destruct (finish_movement _ _ _ _) as [[] ?]; cbn in H2; by injection H2 as _ <-. }
  unfold Effects.lift in Hp. injection Hp as Hp <-. rewrite Hdb. intros id Hid.
  unfold try_m, on_wdb, map_err_m, zoom in H1. unfold unlock_vtxos in H1.
  destruct (set_vtxo_states _ _ _ _) as [o d] eqn:Hset in H1. apply set_vtxo_states_spec in Hset as [_ Hset].
  destruct o as [[]|bad|]; cbn in H1; [| |done]; injection H1 as H1 <-; cbn [w_db]; [by apply Hset|]. subst r1. by destruct r2.
Qed.

(** C37. A crash after an event was handled, and before the new state is stored,
    leaves the database with the state of before the event, whatever was sent
    to the server; when that state has no unconfirmed rounds, the participation
    can be canceled, and the inputs are spendable again. *)
Theorem crash_forgets_forfeits e d id (st st' : WalletRound) (w w' : W) o :
  db_rounds (w_db w) !! id = Some st -> ongoing_participation st = true -> wr_unconfirmed st = [] ->
  process_event cfg e d (st, w) = (o, (st', w')) ->
  db_rounds (w_db w') !! id = Some st /\
  forall b st2 w2, try_cancel (st, w') = (Ok b, (st2, w2)) ->
    b = true /\ forall i, i ∈ input_ids (wr_participation st) -> state_of (w_db w2) i = Some VtxoState.Spendable.
Proof.
  intros Hid Ho Hn Hrun. split.
  - pose proof (rounds_process_event e d (st, w)) as Hk. rewrite Hrun in Hk. unfold same_rounds_r, same_rounds in Hk. cbn [fst snd] in Hk.
    by rewrite Hk.
  - intros b st2 w2. by apply try_cancel_early.
Qed.

(** ** A round that confirms before its transaction is fetched *)

Definition with_net (n : net) (w : W) : W := mkWorld (w_db w) n (w_srv w) (w_mov w).

Lemma unconfirmed_sync_unfetched r (w : W) n1 n2 n3 b tip g : is_tx_signed r = false ->
  chain_tx_status (funding_txid r) (w_net w) = (inr (TxStatus.Confirmed b), n1) ->
  get_tx (funding_txid r) n1 = (g, n2) -> (forall tx, g <> inr (Some tx)) ->
  chain_tip n2 = (inr tip, n3) -> 0 <= height b <= tip -> tip + 1 < 2 ^ 32 -> wc_required_confirmations cfg <= tip - height b + 1 ->
  unconfirmed_sync cfg (r, w) = (Ok UrConfirmed, (set_first_double_spent None r, with_net n3 w)).
Proof.
  intros Hs H1 H2 Hg H3 Hb Ht Hc. unfold unconfirmed_sync, mbind, M_bind, gets, on_world_u, on_net, zoom, call. cbn [fst snd].
  rewrite H1. cbn [fst snd]. unfold on_ur, modify. cbn [fst snd w_net].
  unfold maybe_update_tx, mbind, M_bind, gets. cbn [fst snd].
  assert (Hs' : is_tx_signed (set_first_double_spent None r) = false) by exact Hs. rewrite Hs'.
  unfold on_world_u, try_m, on_net, zoom, call. cbn [fst snd w_net]. rewrite H2. cbn [fst snd].
  assert (Hu : u_sub (E := string) tip (height b) = Ok (tip - height b)) by (apply u_sub_Ok; lia).
  assert (Ha : u_add (E := string) 32 (tip - height b) 1 = Ok (tip - height b + 1)) by (unfold u_add; replace (in_width 32 (tip - height b + 1)) with true; [done|symmetry; apply in_width_spec; lia]).
  assert (Hle : (wc_required_confirmations cfg <=? tip - height b + 1) = true) by by apply Z.leb_le.
  destruct g as [e|[tx|]]; [|by destruct (Hg tx)|]; cbn [fst snd w_net mret M_ret]; rewrite H3; cbn [fst snd]; unfold Effects.lift;
    rewrite Hu, Ha, Hle; reflexivity.
Qed.

(** A round whose transaction was never seen signed, which is deeply confirmed
    when the transaction cannot be fetched: the sync is final, so the state is
    removed, and none of the round's VTXOs is stored. *)
Theorem confirmed_round_lost id (st : WalletRound) r (w : W) n1 n2 n3 b tip g :
  ongoing_participation st = false -> wr_unconfirmed st = [r] -> wr_movement_id st = None -> is_tx_signed r = false ->
  chain_tx_status (funding_txid r) (w_net w) = (inr (TxStatus.Confirmed b), n1) ->
  get_tx (funding_txid r) n1 = (g, n2) -> (forall tx, g <> inr (Some tx)) ->
  chain_tip n2 = (inr tip, n3) -> 0 <= height b <= tip -> tip + 1 < 2 ^ 32 -> wc_required_confirmations cfg <= tip - height b + 1 ->
  exists w', sync_pending_one cfg (mkStored id st) w = (Ok tt, w') /\ db_vtxos (w_db w') = db_vtxos (w_db w) /\
    ((remove_round_state id (w_db w)).1 = inr tt -> db_rounds (w_db w') = delete id (db_rounds (w_db w))).
Proof.
  intros Ho Hr Hm Hs H1 H2 Hg H3 Hb Ht Hc.
  pose proof (unconfirmed_sync_unfetched r w n1 n2 n3 b tip g Hs H1 H2 Hg H3 Hb Ht Hc) as Hrun.
  assert (Hat : sync_at cfg 0 (st, w) = (Ok (Some (funding_txid r), false),
    (set_unconfirmed [set_first_double_spent None r] st, with_net n3 w))).
  { unfold sync_at, mbind, M_bind, gets. cbn [fst snd]. unfold try_m, at_round. cbn [fst snd]. rewrite Hr. cbn [lookup list_lookup].
    rewrite Hrun. cbn. unfold is_tx_signed in *. cbn [ur_funding_tx set_first_double_spent]. rewrite Hs. done. }
  assert (Hsync : round_sync cfg (st, w) = (Ok (StConfirmed (funding_txid r)),
    (set_unconfirmed [set_first_double_spent None r] st, with_net n3 w))).
  { unfold round_sync, mbind, M_bind, gets. cbn [fst snd]. rewrite Hr. cbn [length sync_rounds fst]. rewrite Hr. cbn [length Nat.ltb Nat.leb].
    unfold mbind, M_bind. rewrite Hat. cbn. rewrite Hm. done. }
  unfold sync_pending_one. cbn [sto_state sto_id]. rewrite Ho. unfold mbind, M_bind, try_round, with_round, try_m. cbn [fst snd].
  rewrite Hsync. cbn [fst snd fmap outcome_fmap status_is_final].
  exists (mkWorld (remove_round_state id (w_db w)).2 n3 (w_srv w) (w_mov w)). split; [|split].
  - unfold logged, mbind, M_bind, query_db, on_wdb, map_err_m, zoom, try_m, call. cbn [fst snd].
    cbn [w_db with_net w_net w_srv w_mov]. destruct (remove_round_state id (w_db w)) as [[e|[]] d]; reflexivity.
  - cbn [w_db with_net]. apply (remove_round_db id (w_db w)).
  - cbn [w_db with_net]. intros Hok. pose proof (remove_round_db id (w_db w)) as [_ Hd]. by rewrite Hok in Hd.
Qed.

(** ** Leaves that look like ours *)

(** The last item of a VTXO read off the tree is cosigned with the key of its
    leaf and the keys that cosign the whole tree. *)
Lemma leaf_item c l v r : build_vtxo (E := string) c l = Ok (Some v) -> ts_vtxos (st_spec (ct_spec c)) !! l = Some r ->
  exists items item sig, genesis v = items ++ [item] /\
    transition item = Cosigned (omap cosign_pubkey [r] ++ global_cosign_pubkeys (st_spec (ct_spec c))) sig.
Proof.
  intros H Hr. unfold build_vtxo in H. rewrite Hr in H. apply bind_Ok in H as (t & Ht%expect_Ok & H).
  apply bind_Ok in H as (items & Hitems & H). apply bind_Ok in H as (ltx & _ & [= <-]%Ok_inj). cbn [genesis].
  destruct (new_tree_ok _ _ Ht) as [Hn Hok]. pose proof (lookup_lt_Some _ _ _ Hr) as Hl. pose proof (ok_length _ _ Hok) as Hlen. unfold nb_leaves in Hlen.
  destruct (node_at t l ltac:(lia)) as [nl Hnl].
  assert (Hb : exists rest, iter_branch t l = nl :: rest).
  { unfold iter_branch. destruct (nb_nodes t) as [|k]; [lia|]. cbn [branch_loop]. rewrite Hnl. eauto. }
  destruct Hb as [rest Hb]. rewrite Hb in Hitems. cbn [genesis_loop] in Hitems.
  apply bind_Ok in Hitems as (item & Hitem & Hitems). apply bind_Ok in Hitems as (more & _ & <-%Ok_inj).
  unfold genesis_item in Hitem. apply bind_Ok in Hitem as (pks & Hpks & Hitem). apply bind_Ok in Hitem as (sig & _ & Hitem).
  apply bind_Ok in Hitem as (oi & _ & Hitem). apply bind_Ok in Hitem as (tx & _ & <-%Ok_inj).
  exists (reverse more). eexists _, sig. rewrite reverse_cons. split; [done|]. cbn [transition]. f_equal.
  unfold node_cosign_pubkeys in Hpks.
  assert (leaves nl = [l]) as Hlv.
  { pose proof (leaves_leaf _ _ Hn Hok l Hl) as H1. unfold leaves_at in H1. by rewrite Hnl in H1. }
  rewrite Hlv in Hpks. apply bind_Ok in Hpks as (vs & Hvs & <-%Ok_inj). cbn in Hvs. rewrite (at_idx_Some _ _ _ Hr) in Hvs.
  by injection Hvs as <-.
Qed.

(** The wallet gives up its inputs for the first leaf that pays what it asked
    for, whoever cosigns that leaf. *)
Theorem decoy_leaf_taken p tx spec sigs ns pk d (w w' : W) out r0 rest vs m :
  pt_outputs p = [out] -> ts_vtxos spec = r0 :: rest -> sr_vtxo r0 = out ->
  sign_forfeits cfg p tx spec sigs ns pk d w = (Ok (vs, m), w') ->
  exists v items item sig, vs = [v] /\ genesis v = items ++ [item] /\
    transition item = Cosigned (omap cosign_pubkey [r0] ++ global_cosign_pubkeys spec) sig.
Proof.
  intros Hout Hspec Hr0 H. unfold sign_forfeits in H. apply bind_run_Ok in H as (? & w1 & _ & H). apply bind_run_Ok in H as (info & w2 & _ & H).
  apply bind_run_Ok in H as (u & w3 & [Hu _]%lift_run & H). do 6 (apply bind_run_Ok in H as (? & ? & _ & H)).
  apply bind_run_Ok in H as (m1 & w10 & _ & H). apply bind_run_Ok in H as (cached & w11 & [Hcached _]%lift_run & H).
  apply bind_run_Ok in H as ([left vs1] & w12 & [Hpick _]%lift_run & H). apply bind_run_Ok in H as (? & w13 & _ & H).
  injection H as -> -> _.
  assert (Hsp : st_spec (ct_spec cached) = spec).
  { apply bind_Ok in Hcached as (txs & _ & <-%Ok_inj). cbn. apply bind_Ok in Hu as (? & _ & Hu).
    unfold unsigned_tree_new in Hu. repeat (apply bind_Ok in Hu as (? & _ & Hu)). by injection Hu as <-. }
  rewrite Hsp, Hspec, Hout in Hpick. cbn [imap pick_vtxos] in Hpick.
  assert (Hpos : position (fun r => bool_decide (r = sr_vtxo r0)) [out] = Some 0%nat) by (cbn; by rewrite bool_decide_true).
  rewrite Hpos in Hpick. apply bind_Ok in Hpick as (o & Hb & Hpick). apply bind_Ok in Hpick as (v & ->%expect_Ok & Hpick).
  apply bind_Ok in Hpick as (? & _ & Hpick). apply bind_Ok in Hpick as ([l2 vs2] & Hrest & [= _ <-]%Ok_inj).
  assert (vs2 = []) as ->.
  { clear -Hrest. cbn [swap_remove last length] in Hrest. revert Hrest. generalize (imap (pair ∘ Datatypes.S) rest) as l. cbn. intros l. revert l2 vs2.
    induction l as [|[i r] l IH]; intros l2 vs2 H; cbn [pick_vtxos] in H; [by injection H|]. cbn in H. by eapply IH. }
  apply leaf_item with (r := r0) in Hb as (items & item & sig & H1 & H2); [|by rewrite Hsp, Hspec].
  exists v, items, item, sig. rewrite Hsp in H2. done.
Qed.
End Errors.

(** ** The sample round, canceled after its forfeits were sent *)

Lemma nil_of_length {A} (l : list A) : (length l =? 0)%nat = true -> l = [].
Proof. by destruct l. Qed.

(** The wallet stored that it waits for the round proposal. *)
Definition stored_w2 : SampleWorld :=
  mkWorld (PT := sample_types) (update_round_state (mkStored 1 sample_s2.1) (w_db sample_s2.2)).2 (w_net sample_s2.2) (w_srv sample_s2.2) (w_mov sample_s2.2).

Lemma stored_w2_round : db_rounds (B := model) (w_db stored_w2) !! 1 = Some sample_s2.1.
Proof.
  assert (Hin : bool_decide (is_Some (db_rounds (B := model) (w_db sample_s2.2) !! 1)) = true) by vm_eq.
  apply bool_decide_eq_true in Hin as [r0 Hr0]. pose proof (update_round_db (mkStored 1 sample_s2.1) (w_db sample_s2.2)) as [_ Hu].
  assert (Hok : (match (update_round_state (mkStored 1 sample_s2.1) (w_db sample_s2.2)).1 with inr _ => true | inl _ => false end) = true) by vm_eq.
  unfold stored_w2. cbn [w_db]. destruct (update_round_state _ _) as [[e|[]] d]; [done|]. cbn [fst snd] in *. specialize (Hu 1).
  rewrite Hr0 in Hu. exact Hu.
Qed.

Lemma crash_forgets_forfeits_witness : exists st3 w3, sample_event ev_proposal (sample_s2.1, stored_w2) = (Ok true, (st3, w3)) /\
  length (sv_sent (w_srv w3)) = 1%nat /\ db_rounds (B := model) (w_db w3) !! 1 = Some sample_s2.1 /\
  forall b st4 w4, try_cancel (B := model) (sample_s2.1, w3) = (Ok b, (st4, w4)) ->
    b = true /\ forall i, i ∈ input_ids (B := model) (wr_participation sample_s2.1) -> state_of (B := model) (db := RoundTables (B := model)) (w_db w4) i = Some VtxoState.Spendable.
Proof.
  assert (Hob : (match (sample_event ev_proposal (sample_s2.1, stored_w2)).1 with Ok b => b | _ => false end) = true) by vm_eq.
  assert (Hsent : length (sv_sent (w_srv (sample_event ev_proposal (sample_s2.1, stored_w2)).2.2)) = 1%nat) by vm_eq.
  assert (Hon : ongoing_participation (B := model) sample_s2.1 = true) by vm_eq.
  assert (Hun : wr_unconfirmed (B := model) sample_s2.1 = []) by (apply nil_of_length; vm_eq).
  destruct (sample_event ev_proposal (sample_s2.1, stored_w2)) as [o [st3 w3]] eqn:Hrun. cbn [fst snd] in *.
  exists st3, w3. destruct o as [[]|e|]; [|discriminate Hob..]. split; [exact eq_refl|]. split; [exact Hsent|].
  exact (crash_forgets_forfeits (B := model) (C := model_consensus) (PT := sample_types) sample_cfg ev_proposal sample_d 1 sample_s2.1 st3 stored_w2 w3 (Ok true)
    stored_w2_round Hon Hun Hrun).
Defined.

(** ** The sample round, confirmed when its transaction cannot be fetched *)

(** The server started another round after it was sent the forfeits. *)
Definition ev_next : RoundEvent (B := model) := EvAttempt (B := model) 2 0 [Byte.x45].
Definition failed_s4 := (sample_event ev_next sample_s3).2.
Definition confirmed_net : SampleNet := mkSampleNet (TxStatus.Confirmed (mkBlockRef 90 [])) 100 None None false 0.
Definition confirmed_w : SampleWorld :=
  mkWorld (PT := sample_types) (w_db failed_s4.2) confirmed_net (w_srv failed_s4.2) (w_mov failed_s4.2).

Lemma one_of_length {A} (l : list A) : (length l =? 1)%nat = true -> exists x, l = [x].
Proof. destruct l as [|x [|]]; [done| |done]. eauto. Qed.

Lemma confirmed_round_lost_witness : length (sv_sent (w_srv confirmed_w)) = 1%nat /\
  exists w', sync_pending_one (B := model) sample_cfg (mkStored (B := model) 1 failed_s4.1) confirmed_w = (Ok tt, w') /\
    db_vtxos (B := model) (w_db w') = db_vtxos (B := model) (w_db confirmed_w) /\
    db_rounds (B := model) (w_db w') = delete 1 (db_rounds (B := model) (w_db confirmed_w)).
Proof.
  split; [vm_eq|].
  assert (Hon : ongoing_participation (B := model) failed_s4.1 = false) by vm_eq.
  assert (Hun : exists r, wr_unconfirmed (B := model) failed_s4.1 = [r]) by (apply one_of_length; vm_eq).
  assert (Hs : existsb (is_tx_signed (B := model)) (wr_unconfirmed failed_s4.1) = false) by vm_eq.
  assert (Hm : wr_movement_id (B := model) failed_s4.1 = None) by vm_eq.
  assert (Hok : (remove_round_state (B := model) 1 (w_db confirmed_w)).1 = inr tt) by vm_eq.
  destruct Hun as [r Hr]. rewrite Hr in Hs. cbn [existsb] in Hs. rewrite orb_false_r in Hs.
  destruct (confirmed_round_lost (B := model) (PT := sample_types) (db := RoundTables (B := model)) (net := SampleNet) (srv := SampleServer)
    (mdb := MovTables (PT := sample_types)) (ChainSource0 := sample_chain) sample_cfg 1 failed_s4.1 r confirmed_w confirmed_net confirmed_net confirmed_net
    (mkBlockRef 90 []) 100 (inr None) Hon Hr Hm Hs eq_refl eq_refl ltac:(intros tx; discriminate) eq_refl ltac:(cbn; lia) eq_refl ltac:(cbn; lia)) as (w' & H1 & H2 & H3).
  exists w'. split; [exact H1|]. split; [exact H2|exact (H3 Hok)].
Defined.

(** ** A tree with a decoy

    The first leaf pays what the wallet asked for, but another key cosigns it;
    the wallet's own leaf comes after it. *)
Definition decoy_spec : VtxoTreeSpec (B := model) :=
  mkTreeSpec (B := model) [mkSignedRequest (B := model) sample_out (Some Byte.x55); mkSignedRequest (B := model) sample_out (Some Byte.x11)]
    100000 Byte.x09 144 [Byte.x19].
Definition decoy_tx : Transaction :=
  mkTx 2 0 [mkTxIn (mkOutPoint (Concrete.hash [Byte.x33]) 0) [] 0 []]
    [ok_value (mkTxOut 0 []) (funding_tx_txout (B := model) (E := unit) decoy_spec);
     ok_value (mkTxOut 0 []) (connector_output (B := model) (E := unit) 1 Byte.x21)].
Definition decoy_u : UnsignedVtxoTree (B := model) :=
  ok_value (mkUnsignedTree (B := model) decoy_spec (mkOutPoint [] 0) [] [] [] (mkTree [] 0))
    (unsigned_tree_new (B := model) (E := unit) decoy_spec (mkOutPoint (compute_txid (Bitcoin := model) decoy_tx) 0)).
Definition decoy_sigs : list (@Signature model) :=
  zip_with (fun nd sh => (output_key (B := model) (node_tr decoy_spec (agg_pk_of decoy_spec nd)), sh))
    (nodes (ut_tree decoy_u)) (ut_sighashes decoy_u).
Definition decoy_tree : RoundEvent (B := model) := EvVtxoProposal (B := model) 1 0 decoy_tx decoy_spec [0; 0; 0; 0; 0; 0].
Definition decoy_s2 := (sample_event decoy_tree sample_s1).2.

(** The wallet cosigned the tree, and then signs its forfeit. *)
Definition decoy_forfeits :=
  sign_forfeits (B := model) (PT := sample_types) sample_cfg sample_part decoy_tx decoy_spec decoy_sigs
    [(vtxo_id sample_vtxo, [3])] Byte.x21 sample_d decoy_s2.2.

Definition waits_for_proposal (st : WalletRound (B := model)) : bool :=
  match wr_flow st with Ongoing _ _ (AwaitingRoundProposal _ _) => true | _ => false end.

Lemma decoy_leaf_taken_witness : waits_for_proposal decoy_s2.1 = true /\
  exists vs m w', decoy_forfeits = (Ok (vs, m), w') /\
  exists v items item sig, vs = [v] /\ genesis (B := model) v = items ++ [item] /\
    transition (B := model) item = Cosigned (B := model) [Byte.x55; Byte.x19] sig.
Proof.
  split; [vm_eq|]. assert (Hok : is_ok decoy_forfeits.1 = true) by vm_eq.
  destruct decoy_forfeits as [[[vs m]|e|] w'] eqn:Hrun; [|discriminate Hok..]. exists vs, m, w'. split; [exact eq_refl|].
  exact (decoy_leaf_taken (B := model) (PT := sample_types) (db := RoundTables (B := model)) sample_cfg sample_part decoy_tx decoy_spec decoy_sigs
    [(vtxo_id sample_vtxo, [3])] Byte.x21 sample_d decoy_s2.2 w' sample_out (mkSignedRequest (B := model) sample_out (Some Byte.x55))
    [mkSignedRequest (B := model) sample_out (Some Byte.x11)] vs m eq_refl eq_refl eq_refl Hrun).
Defined.
