(* ===== verification/WalletKeys.v ===== *)
(** * The wallet's keys and VTXOs (bark/src/lib.rs, bark/src/persist/sqlite/query.rs)

    The wallet derives its keys from a seed, one after the other, and stores
    under which index it derived each of them.  [KeyPersister] is the part of
    the database for that, and [KeyPersisterLaws] what its users rely on: also
    that the query for VTXOs by state returns just the rows in these states, the
    soonest to expire first. *)
From stdpp Require Import gmap.
From S2P Require Import Prelude Effects Bitcoin Encode Concrete Policy Vtxo Validation Arkoor ChainSource ExitStates Persist Movement.
From S2P Require Import Rounds WalletRoundState WalletRound.

Open Scope Z_scope.

(** ** The database *)
Section KeyDb.
Context `{B : Bitcoin}.

Class KeyPersister (db : Type) := {
  store_vtxo_key : Z -> PublicKey -> ext db string unit;
  get_last_vtxo_key_index : ext db string (option Z);
  (* the contents of the table of keys *)
  db_keys : db -> gmap Z PublicKey;
}.

(** [ORDER BY expiry_height ASC, amount_sat DESC]. *)
Definition sooner (a b : WalletVtxo) : Prop :=
  expiry_height (wv_vtxo a) < expiry_height (wv_vtxo b) \/
  expiry_height (wv_vtxo a) = expiry_height (wv_vtxo b) /\ amount (wv_vtxo b) <= amount (wv_vtxo a).

#[export] Instance sooner_dec a b : Decision (sooner a b).
Proof. unfold sooner. apply _. Defined.
#[export] Instance sooner_trans : Transitive sooner.
Proof. unfold sooner. intros a b c. lia. Qed.
#[export] Instance sooner_total : Total sooner.
Proof. unfold sooner. intros a b. lia. Qed.

Definition in_states (ks : list VtxoStateKind.t) (w : WalletVtxo) : Prop := VtxoState.kind (wv_state w) ∈ ks.
#[export] Instance in_states_dec ks w : Decision (in_states ks w).
Proof. unfold in_states. apply _. Defined.

Class KeyPersisterLaws (db : Type) {P : Persister db} {R : RoundPersister db} {K : KeyPersister db} := {
  store_vtxo_key_db : forall i pk s, db_vtxos (store_vtxo_key i pk s).2 = db_vtxos s /\
    db_rounds (store_vtxo_key i pk s).2 = db_rounds s /\
    match (store_vtxo_key i pk s).1 with
    | inr _ => db_keys s !! i = None /\ (forall j, db_keys s !! j <> Some pk) /\
        db_keys (store_vtxo_key i pk s).2 = <[i := pk]> (db_keys s)
    | inl _ => db_keys (store_vtxo_key i pk s).2 = db_keys s
    end;
  get_last_index_db : forall s, db_vtxos (get_last_vtxo_key_index s).2 = db_vtxos s /\
    db_rounds (get_last_vtxo_key_index s).2 = db_rounds s /\ db_keys (get_last_vtxo_key_index s).2 = db_keys s /\
    match (get_last_vtxo_key_index s).1 with
    | inr None => db_keys s = ∅
    | inr (Some i) => is_Some (db_keys s !! i) /\ forall j, is_Some (db_keys s !! j) -> j <= i
    | inl _ => True
    end;
  get_key_idx_db : forall pk s, db_keys (get_public_key_idx pk s).2 = db_keys s /\
    match (get_public_key_idx pk s).1 with
    | inr None => forall i, db_keys s !! i <> Some pk
    | inr (Some i) => db_keys s !! i = Some pk
    | inl _ => True
    end;
  get_by_state_db : forall ks s, db_rounds (get_vtxos_by_state ks s).2 = db_rounds s /\
    db_keys (get_vtxos_by_state ks s).2 = db_keys s /\
    forall l, (get_vtxos_by_state ks s).1 = inr l ->
      l ≡ₚ filter (in_states ks) (map_to_list (db_vtxos s)).*2 /\ StronglySorted sooner l;
  get_wallet_vtxo_keys : forall id s, db_rounds (get_wallet_vtxo id s).2 = db_rounds s /\
    db_keys (get_wallet_vtxo id s).2 = db_keys s;
  store_round_keys : forall st s, db_keys (store_round_state_lock_vtxos st s).2 = db_keys s;
  update_vtxo_state_keys : forall id st allowed s, db_keys (update_vtxo_state_checked id st allowed s).2 = db_keys s;
  store_vtxos_keys : forall l s, db_keys (store_vtxos l s).2 = db_keys s;
}.

(** *** The rows of [bark_vtxo_key]: both columns are unique *)
Definition rt_store_vtxo_key (index : Z) (public_key : PublicKey) : ext RoundTables string unit := rt_query (fun s =>
  if bool_decide (is_Some (rt_keys s !! index)) || existsb (fun row => bool_decide (row.2 = public_key)) (map_to_list (rt_keys s))
  then (inl "unique constraint failed"%string, s)
  else (inr tt, mkRoundTables (rt_db s) (rt_rounds s) (rt_last s) (<[index := public_key]> (rt_keys s)))).

(** [ORDER BY idx DESC LIMIT 1]. *)
Definition rt_get_last_vtxo_key_index : ext RoundTables string (option Z) := rt_query (fun s =>
  (inr (match (map_to_list (rt_keys s)).*1 with [] => None | i :: l => Some (foldr Z.max i l) end), s)).

#[export] Instance round_tables_keys : KeyPersister RoundTables := {
  store_vtxo_key := rt_store_vtxo_key;
  get_last_vtxo_key_index := rt_get_last_vtxo_key_index;
  db_keys := rt_keys;
}.

#[local] Ltac run_keys :=
  match goal with |- context [rt_query ?f ?s] =>
    let s' := fresh "s'" in let Hv := fresh "Hv" in let Hr := fresh "Hr" in let Hl := fresh "Hl" in let Hk := fresh "Hk" in
    destruct (rt_query_cases f s) as (s' & Hv & Hr & Hl & Hk & [-> | ->]); cbn
  end.

Lemma max_of_in i (l : list Z) : foldr Z.max i l ∈ i :: l /\ forall j, j ∈ i :: l -> j <= foldr Z.max i l.
Proof.
  induction l as [|x l [IH1 IH2]]; cbn [foldr].
  - split; [left|]. intros j [->|[]%elem_of_nil]%elem_of_cons. lia.
  - split.
    + destruct (Z.max_spec x (foldr Z.max i l)) as [[_ ->]|[_ ->]]; set_solver.
    + intros j Hj. assert (j = x \/ j ∈ i :: l) as [->|H] by set_solver; [lia|]. specialize (IH2 j H). lia.
Qed.

#[export] Instance round_tables_key_laws : KeyPersisterLaws RoundTables.
Proof.
  split; [intros i pk s|intros s|intros pk s|intros ks s|intros id s|intros st s|done..];
    cbn [db_keys db_vtxos db_rounds round_tables_keys round_tables round_tables_persister store_vtxo_key get_last_vtxo_key_index
      get_public_key_idx get_vtxos_by_state get_wallet_vtxo store_round_state_lock_vtxos].
  - unfold rt_store_vtxo_key. run_keys; rewrite ?Hv, ?Hr, ?Hk; [done|].
    destruct (bool_decide _ || _) eqn:Hu; cbn; rewrite ?Hv, ?Hr, ?Hk; [done|].
    apply orb_false_iff in Hu as [H1 H2]. apply bool_decide_eq_false, eq_None_not_Some in H1.
    split; [done|]. split; [done|]. split; [done|]. split; [|done]. intros j Hj.
    apply not_true_iff_false in H2. apply H2. apply existsb_exists. exists (j, pk). split; [|by apply bool_decide_eq_true].
    by apply list_elem_of_In, elem_of_map_to_list.
  - unfold rt_get_last_vtxo_key_index. run_keys; rewrite ?Hv, ?Hr, ?Hk; [done|]. do 3 (split; [done|]).
    assert (Hdom : forall j, is_Some (rt_keys s !! j) <-> j ∈ (map_to_list (rt_keys s)).*1).
    { intros j. rewrite list_elem_of_fmap. split.
      - intros [pk Hpk]. exists (j, pk). split; [done|]. by apply elem_of_map_to_list.
      - intros ([k pk] & -> & Hin%elem_of_map_to_list). by exists pk. }
    destruct ((map_to_list (rt_keys s)).*1) as [|i l] eqn:Hl2.
    + apply map_empty. intros j. apply eq_None_not_Some. intros Hj. by apply Hdom, elem_of_nil in Hj.
    + destruct (max_of_in i l) as [H1 H2]. split; [by apply Hdom|]. intros j Hj. by apply H2, Hdom.
  - unfold rt_get_public_key_idx. run_keys; rewrite ?Hv, ?Hr, ?Hk; [done|]. split; [done|].
    destruct (List.find _ _) as [[i k]|] eqn:Hf; cbn.
    + apply find_some in Hf as [Hin Hpk%bool_decide_eq_true]. cbn in Hpk. subst k. by apply list_elem_of_In, elem_of_map_to_list in Hin.
    + intros i Hi%elem_of_map_to_list%list_elem_of_In. apply (find_none _ _ Hf) in Hi. by rewrite bool_decide_true in Hi.
  - unfold on_sq, sq_get_vtxos_by_state. cbn. split; [done|]. split; [done|]. intros l Hq. unfold sq_get_vtxos_by_state, query in Hq.
    destruct (head (sq_faults (rt_db s))) as [[]|]; [done| |]; cbn in Hq; injection Hq as <-;
      (split; [rewrite merge_sort_Permutation, map_to_list_fmap; unfold in_states; by rewrite <- !list_fmap_compose
              |apply Sorted_StronglySorted; [apply sooner_trans|]; apply (Sorted_merge_sort sooner)]).
  - done.
  - unfold rt_store, on_sq. destruct (lock_all _ _ (rt_db s)) as [[e|[]] d]; [done|]. cbn [fst snd]. unfold insert_round. by run_keys.
Qed.
End KeyDb.

(** ** The wallet's operations *)
Section Wallet.
Context `{B : Bitcoin} `{C : !Consensus} `{S : !Signing B} `{PT : !PaymentTypes}.
Context {db net srv mdb : Type} `{!Persister db, !RoundPersister db, !KeyPersister db, !ChainSource net, !RoundChain net, !RoundServer srv, !MovementDb mdb}.
Notation W := (World (db := db) (net := net) (srv := srv) (mdb := mdb)).
Notation X := (M W string).
Context (cfg : WalletConfig).

(** The index is a [u32]. *)
Definition derive_store_next_keypair : X (Keypair * Z) :=
  last_revealed ← query_db get_last_vtxo_key_index;
  index ← Effects.lift (match last_revealed with Some i => u_add 32 i 1 | None => Ok 0 end);
  let keypair := wc_derive_keypair cfg index in
  _ ← query_db (store_vtxo_key index (keypair_public_key keypair));
  mret (keypair, index).

Definition peak_keypair (index : Z) : X Keypair :=
  let keypair := wc_derive_keypair cfg index in
  idx ← query_db (get_public_key_idx (keypair_public_key keypair));
  match idx with Some _ => mret keypair | None => throw "VTXO key does not exist, please derive it first"%string end.

Definition pubkey_keypair (public_key : PublicKey) : X (option (Z * Keypair)) :=
  idx ← query_db (get_public_key_idx public_key);
  mret ((fun index => (index, wc_derive_keypair cfg index)) <$> idx).

Definition validate_vtxo (vtxo : Vtxo) : X unit :=
  tx ← on_net (get_tx (op_txid (anchor_point vtxo)));
  tx ← Effects.lift (ok_or tx "vtxo chain anchor not found for vtxo"%string);
  Effects.lift (map_err (fun _ => "invalid vtxo"%string) (validate vtxo tx)).

Definition get_vtxo_by_id (vtxo_id : bytes) : X WalletVtxo :=
  vtxo ← query_db (get_wallet_vtxo vtxo_id);
  Effects.lift (ok_or vtxo "The VTXO with this id cannot be found"%string).

(** [vtxos]: the ones that are not spent. *)
Definition unspent_vtxos : X (list WalletVtxo) := query_db (get_vtxos_by_state UNSPENT_STATES).

(** ** Facts *)
Context `{!PersisterLaws db, !RoundPersisterLaws db, !KeyPersisterLaws db}.

(** The table of keys holds the keys derived so far, and only these. *)
Definition keys_ok (d : db) : Prop := exists n, 0 <= n <= 2 ^ 32 /\
  forall i, db_keys d !! i = if decide (0 <= i < n) then Some (keypair_public_key (wc_derive_keypair cfg i)) else None.

(** A key of the wallet. *)
Definition own_key (d : db) (pk : PublicKey) : Prop :=
  exists i, db_keys d !! i = Some pk /\ pk = keypair_public_key (wc_derive_keypair cfg i).

(** Code on one part of the world. *)
Lemma query_db_run {A} (f : ext db string A) (w w' : W) o : query_db f w = (o, w') ->
  w' = mkWorld (f (w_db w)).2 (w_net w) (w_srv w) (w_mov w) /\
  match o with Ok a => (f (w_db w)).1 = inr a | Err e => (f (w_db w)).1 = inl e | Panic => False end.
Proof.
  unfold query_db, on_wdb, map_err_m, zoom, call. cbn [fst snd]. intros H. injection H as <- <-. split; [done|].
  by destruct (f (w_db w)).1.
Qed.

Lemma on_net_run {A} (f : ext net string A) (w w' : W) o : on_net f w = (o, w') ->
  w' = mkWorld (w_db w) (f (w_net w)).2 (w_srv w) (w_mov w) /\
  match o with Ok a => (f (w_net w)).1 = inr a | Err e => (f (w_net w)).1 = inl e | Panic => False end.
Proof.
  unfold on_net, zoom, call. cbn [fst snd]. intros H. injection H as <- <-. split; [done|]. by destruct (f (w_net w)).1.
Qed.

Lemma on_srv_run {A} (f : ext srv string A) (w w' : W) o : on_srv f w = (o, w') ->
  w' = mkWorld (w_db w) (w_net w) (f (w_srv w)).2 (w_mov w) /\
  match o with Ok a => (f (w_srv w)).1 = inr a | Err e => (f (w_srv w)).1 = inl e | Panic => False end.
Proof.
  unfold on_srv, zoom, call. cbn [fst snd]. intros H. injection H as <- <-. split; [done|]. by destruct (f (w_srv w)).1.
Qed.

Lemma throw_run {A} (e : string) (w w' : W) (a : A) : throw e w = (Ok a, w') -> False.
Proof. done. Qed.

(** Every key is the next one of the seed, and was never handed out before; a
    failure leaves the table as it is. *)
Lemma derive_keys_spec (w w' : W) o : keys_ok (w_db w) -> derive_store_next_keypair w = (o, w') ->
  keys_ok (w_db w') /\ db_vtxos (w_db w') = db_vtxos (w_db w) /\ db_rounds (w_db w') = db_rounds (w_db w) /\
  w_net w' = w_net w /\ w_srv w' = w_srv w /\ w_mov w' = w_mov w /\
  match o with
  | Ok (keypair, index) => keypair = wc_derive_keypair cfg index /\ 0 <= index < 2 ^ 32 /\ db_keys (w_db w) !! index = None /\
      db_keys (w_db w') = <[index := keypair_public_key keypair]> (db_keys (w_db w))
  | _ => db_keys (w_db w') = db_keys (w_db w)
  end.
Proof.
  intros (n & Hn & Hk) H. unfold derive_store_next_keypair, mbind at 1, M_bind at 1 in H.
  destruct (query_db _ w) as [o1 w1] eqn:H1. apply query_db_run in H1 as [-> H1].
  pose proof (get_last_index_db (w_db w)) as (Hv & Hr & Hkk & Hlast).
  assert (Hsame : keys_ok (get_last_vtxo_key_index (w_db w)).2) by (exists n; rewrite Hkk; by split).
  destruct o1 as [last|e|]; [|injection H as <- <-; by split_and!|done]. rewrite H1 in Hlast.
  unfold mbind at 1, M_bind at 1, Effects.lift at 1 in H.
  assert (Hidx : match (match last with Some i => u_add (E := string) 32 i 1 | None => Ok 0 end) with
                 | Ok index => index = n /\ 0 <= n < 2 ^ 32 | Err _ => False | Panic => True end).
  { destruct last as [i|].
    - destruct Hlast as [Hi Hmax]. assert (Hin : i = n - 1).
      { destruct Hi as [x Hx]. rewrite Hk in Hx. case_decide as Hd; [|done].
        assert (n - 1 <= i); [|lia]. apply Hmax. rewrite Hk. rewrite decide_True by lia. eauto. }
      unfold u_add. destruct (in_width 32 (i + 1)) eqn:Hw; [|done]. apply in_width_spec in Hw. lia.
    - assert (n = 0); [|lia]. destruct (decide (n = 0)) as [|Hne]; [done|]. exfalso. specialize (Hk 0). rewrite Hlast, lookup_empty in Hk.
      by rewrite decide_True in Hk by lia. }
  destruct (match last with Some i => _ | None => _ end) as [index|e|]; [|done|injection H as <- <-; by split_and!].
  destruct Hidx as [-> [Hn1 Hn2]]. unfold mbind at 1, M_bind at 1 in H.
  destruct (query_db (store_vtxo_key n _) _) as [o2 w2] eqn:H2. apply query_db_run in H2 as [-> H2]. cbn [w_db w_net w_srv w_mov] in H2.
  destruct (store_vtxo_key_db n (keypair_public_key (wc_derive_keypair cfg n)) (get_last_vtxo_key_index (w_db w)).2) as (Hv2 & Hr2 & Hs2).
  destruct o2 as [[]|e|]; [|injection H as <- <-|done]; rewrite H2 in Hs2.
  - injection H as <- <-. cbn [w_db w_net w_srv w_mov]. destruct Hs2 as (Hnone & _ & Hk2). rewrite Hkk in Hnone, Hk2. rewrite Hv2, Hr2, Hv, Hr.
    split; [|by split_and!]. exists (n + 1). split; [lia|]. intros i. rewrite Hk2. destruct (decide (i = n)) as [->|Hne].
    + rewrite lookup_insert_eq. by rewrite decide_True by lia.
    + rewrite lookup_insert_ne, Hk by done. destruct (decide (0 <= i < n)); [by rewrite decide_True by lia|by rewrite decide_False by lia].
  - cbn [w_db w_net w_srv w_mov]. rewrite Hv2, Hr2, Hs2, Hv, Hr, Hkk. split; [|by split_and!]. exists n. split; [done|]. rewrite Hs2, Hkk. done.
Qed.

(** The key found for a VTXO is the one its policy names. *)
Lemma get_vtxo_key_spec vtxo (w w' : W) kp : keys_ok (w_db w) -> get_vtxo_key cfg vtxo w = (Ok kp, w') ->
  keypair_public_key kp = vtxo_user_pubkey vtxo /\ db_vtxos (w_db w') = db_vtxos (w_db w) /\
  db_rounds (w_db w') = db_rounds (w_db w) /\ keys_ok (w_db w') /\ w_net w' = w_net w /\ w_srv w' = w_srv w /\ w_mov w' = w_mov w.
Proof.
  intros (n & Hn & Hk) H. unfold get_vtxo_key in H. apply bind_run_Ok in H as (idx & w1 & H1 & H).
  apply query_db_run in H1 as [-> H1]. apply bind_run_Ok in H as (i & w2 & Hi & H). unfold Effects.lift in Hi. injection Hi as Hi <-.
  injection H as <- <-. destruct (get_key_idx_db (vtxo_user_pubkey vtxo) (w_db w)) as [Hkk Hidx]. rewrite H1 in Hidx.
  destruct idx as [idx|]; [|done]. injection Hi as <-. destruct (get_public_key_idx_db (vtxo_user_pubkey vtxo) (w_db w)) as [Hv Hr].
  cbn [w_db w_net w_srv w_mov]. split_and!; try done; [|exists n; by rewrite Hkk].
  rewrite Hk in Hidx. case_decide; [by injection Hidx|done].
Qed.
End Wallet.
