(* ===== verification/Selection.v ===== *)
(** * Selecting VTXOs (bark/src/vtxo/selection.rs, bark/src/lib.rs)

    Which of its VTXOs the wallet uses for what: filters that keep the VTXOs
    that match, the strategies that find VTXOs close to their expiry, the
    selection of VTXOs that cover an amount, and the participations in a round
    that are built from them.  The fields of a filter that refer to the wallet
    are the arguments of the section. *)
From stdpp Require Import gmap.
From S2P Require Import Prelude Effects Bitcoin Encode Concrete Policy Vtxo Validation Arkoor ChainSource ExitStates Persist Movement.
From S2P Require Import Rounds ExitProgress Connectors WalletRoundState WalletRound WalletKeys.

Open Scope Z_scope.

Section Selection.
Context `{B : Bitcoin} `{C : !Consensus} `{S : !Signing B} `{PT : !PaymentTypes} {F : Fees}.
Context {db net srv mdb : Type} `{!Persister db, !RoundPersister db, !KeyPersister db, !ChainSource net, !RoundChain net, !RoundServer srv, !MovementDb mdb}.
Notation W := (World (db := db) (net := net) (srv := srv) (mdb := mdb)).
Notation X := (M W string).
Context (cfg : WalletConfig).

(** ** Filters *)
Class FilterVtxos (T : Type) := matches : T -> WalletVtxo -> X bool.

(** The loop of [filter_vtxos], from the end of the list. *)
Fixpoint filter_loop {T} `{!FilterVtxos T} (filter : T) (i : nat) (vtxos : list WalletVtxo) : X (list WalletVtxo) :=
  match i with
  | O => mret vtxos
  | Datatypes.S i =>
      v ← Effects.lift (expect (vtxos !! i));
      b ← matches filter v;
      filter_loop filter i (if (b : bool) then vtxos else swap_remove i vtxos)
  end.

Definition filter_vtxos {T} `{!FilterVtxos T} (filter : T) (vtxos : list WalletVtxo) : X (list WalletVtxo) :=
  filter_loop filter (length vtxos) vtxos.

#[export] Instance filter_fn : FilterVtxos (WalletVtxo -> X bool) := fun f vtxo => f vtxo.

#[export] Instance filter_state_kind : FilterVtxos VtxoStateKind.t := fun kind vtxo =>
  mret (bool_decide (VtxoState.kind (wv_state vtxo) = kind)).

(** *** By criteria *)
Fixpoint some_pubkey_unknown (pubkeys : list PublicKey) : X bool :=
  match pubkeys with
  | [] => mret false
  | past_pk :: pubkeys =>
      idx ← query_db (get_public_key_idx past_pk);
      match idx with None => mret true | Some _ => some_pubkey_unknown pubkeys end
  end.

Definition has_counterparty_risk (vtxo : Vtxo) : X bool :=
  unknown ← some_pubkey_unknown (past_arkoor_pubkeys vtxo);
  if (unknown : bool) then mret true
  else idx ← query_db (get_public_key_idx (vtxo_user_pubkey vtxo)); mret (bool_decide (idx = None)).

Record VtxoFilter := mkFilter {
  vf_expires_before : option Z; vf_counterparty : bool; vf_exclude : gset bytes; vf_include : gset bytes }.

Definition filter_new : VtxoFilter := mkFilter None false ∅ ∅.
Definition expires_before (height : Z) (f : VtxoFilter) : VtxoFilter :=
  mkFilter (Some height) (vf_counterparty f) (vf_exclude f) (vf_include f).
Definition counterparty (f : VtxoFilter) : VtxoFilter := mkFilter (vf_expires_before f) true (vf_exclude f) (vf_include f).
Definition exclude_many (ids : list bytes) (f : VtxoFilter) : VtxoFilter :=
  mkFilter (vf_expires_before f) (vf_counterparty f) (vf_exclude f ∪ list_to_set ids) (vf_include f).
Definition include_many (ids : list bytes) (f : VtxoFilter) : VtxoFilter :=
  mkFilter (vf_expires_before f) (vf_counterparty f) (vf_exclude f) (vf_include f ∪ list_to_set ids).

#[export] Instance filter_criteria : FilterVtxos VtxoFilter := fun f vtxo =>
  let id := vtxo_id (wv_vtxo vtxo) in
  if bool_decide (id ∈ vf_include f) then mret true
  else if bool_decide (id ∈ vf_exclude f) then mret false
  else if (match vf_expires_before f with Some height => expiry_height (wv_vtxo vtxo) <? height | None => false end) then mret true
  else if vf_counterparty f then has_counterparty_risk (wv_vtxo vtxo)
  else mret false.

(** *** To be refreshed *)
Inductive InnerRefreshStrategy := MustRefresh | ShouldRefresh.
Record RefreshStrategy := mkStrategy { rs_inner : InnerRefreshStrategy; rs_tip : Z; rs_fee_rate : Z }.

Definition must_refresh (tip fee_rate : Z) : RefreshStrategy := mkStrategy MustRefresh tip fee_rate.
Definition should_refresh (tip fee_rate : Z) : RefreshStrategy := mkStrategy ShouldRefresh tip fee_rate.

(** [a.saturating_sub(b)]. *)
Definition saturating_sub (a b : Z) : Z := Z.max 0 (a - b).

#[export] Instance filter_refresh : FilterVtxos RefreshStrategy := fun f vtxo =>
  let expiry := expiry_height (wv_vtxo vtxo) in
  match rs_inner f with
  | MustRefresh => mret (saturating_sub expiry (wc_vtxo_refresh_expiry_threshold cfg) <? rs_tip f)
  | ShouldRefresh =>
      soft_threshold ← Effects.lift (u_add 32 (wc_vtxo_refresh_expiry_threshold cfg) 28);
      if saturating_sub expiry soft_threshold <? rs_tip f then mret true
      else
        cost ← Effects.lift (estimate_exit_cost [wv_vtxo vtxo] (rs_fee_rate f));
        mret (amount (wv_vtxo vtxo) <? cost)
  end.

(** ** The wallet's VTXOs *)
Definition vtxos_with {T} `{!FilterVtxos T} (filter : T) : X (list WalletVtxo) :=
  vtxos ← unspent_vtxos; filter_vtxos filter vtxos.

Definition spendable_vtxos : X (list WalletVtxo) := vtxos_with VtxoStateKind.Spendable.

Definition spendable_vtxos_with {T} `{!FilterVtxos T} (filter : T) : X (list WalletVtxo) :=
  vtxos ← spendable_vtxos; filter_vtxos filter vtxos.

Definition get_expiring_vtxos (threshold : Z) : X (list WalletVtxo) :=
  tip ← on_net chain_tip;
  expiry ← Effects.lift (u_add 32 tip threshold);
  spendable_vtxos_with (expires_before expiry filter_new).

Definition get_vtxos_to_refresh : X (list WalletVtxo) :=
  tip ← on_net chain_tip;
  fee_rate ← gets (fun w => fast (fee_rates (w_net w)));
  must_refresh_vtxos ← spendable_vtxos_with (must_refresh tip fee_rate);
  if bool_decide (length must_refresh_vtxos = O) then mret []
  else spendable_vtxos_with (should_refresh tip fee_rate).

Definition min_height (l : list Z) : option Z :=
  match l with [] => None | h :: l => Some (foldr Z.min h l) end.

Definition get_first_expiring_vtxo_blockheight : X (option Z) :=
  vtxos ← spendable_vtxos; mret (min_height ((fun v => expiry_height (wv_vtxo v)) <$> vtxos)).

Definition get_next_required_refresh_blockheight : X (option Z) :=
  first_expiry ← get_first_expiring_vtxo_blockheight;
  mret ((fun h => saturating_sub h (wc_vtxo_refresh_expiry_threshold cfg)) <$> first_expiry).

(** [select_vtxos_to_cover]: its loop, with what is selected so far and its total. *)
Fixpoint cover_loop (required : Z) (expiry_threshold : option Z) (result : list Vtxo) (total_amount : Z) (inputs : list WalletVtxo)
  : outcome string (list Vtxo) :=
  match inputs with
  | [] => Err "Insufficient money available"%string
  | input :: inputs =>
      if (match expiry_threshold with Some threshold => expiry_height (wv_vtxo input) <? threshold | None => false end)
      then cover_loop required expiry_threshold result total_amount inputs
      else
        total_amount ← u_add 64 total_amount (amount (wv_vtxo input));
        let result := result ++ [wv_vtxo input] in
        if required <=? total_amount then Ok result else cover_loop required expiry_threshold result total_amount inputs
  end.

Definition select_vtxos_to_cover (required : Z) (expiry_threshold : option Z) : X (list Vtxo) :=
  inputs ← spendable_vtxos;
  Effects.lift (cover_loop required expiry_threshold [] 0 inputs).

(** ** Participations in a round *)

(** The rows that are asked for, by their id; the order of the hash map is the
    one of the keys. *)
Definition collect_vtxos (ids : list bytes) : X (gmap bytes WalletVtxo) :=
  foldM (fun (ret : gmap bytes WalletVtxo) id =>
    vtxo ← get_vtxo_by_id id;
    if bool_decide (is_Some (ret !! id)) then throw "duplicate VTXO id"%string else mret (<[id := vtxo]> ret)) ∅ ids.

Definition build_refresh_participation (ids : list bytes) : X (option RoundParticipation) :=
  vtxos ← collect_vtxos ids;
  if bool_decide (vtxos = ∅) then mret None
  else
    let inputs := (fun p => wv_vtxo p.2) <$> map_to_list vtxos in
    total_amount ← Effects.lift (amount_sum (amount <$> inputs));
    k ← derive_store_next_keypair cfg;
    mret (Some (mkParticipation inputs [mkRequest total_amount (new_pubkey (keypair_public_key k.1))] [])).

(** What [add_should_refresh_vtxos] makes of the participation. *)
Definition add_should_refresh_vtxos (p : RoundParticipation) : X RoundParticipation :=
  let excluded_ids : gset bytes := list_to_set (vtxo_id <$> pt_inputs p) in
  vtxos ← get_vtxos_to_refresh;
  let should_refresh_vtxos := wv_vtxo <$> filter (fun v => vtxo_id (wv_vtxo v) ∉ excluded_ids) vtxos in
  total_amount ← Effects.lift (amount_sum (amount <$> should_refresh_vtxos));
  if P2TR_DUST <? total_amount then
    k ← derive_store_next_keypair cfg;
    mret (mkParticipation (pt_inputs p ++ should_refresh_vtxos)
            (pt_outputs p ++ [mkRequest total_amount (new_pubkey (keypair_public_key k.1))]) (pt_offboards p))
  else mret p.

(** An error is logged, and the participation is as it was. *)
Definition add_or_keep (p : RoundParticipation) : X RoundParticipation :=
  r ← try_m (F := string) (add_should_refresh_vtxos p);
  mret (match r with inr p' => p' | inl _ => p end).

Definition build_offboard_participation (vtxos : list Vtxo) (destination : bytes) : X RoundParticipation :=
  _ ← on_srv require_server;
  ark_info ← on_srv get_ark_info;
  _ ← Effects.lift (ensure (negb (bool_decide (length vtxos = O))) "no VTXO to offboard"%string);
  fee ← expect_m (Effects.lift (calculate_fee destination (ai_offboard_feerate ark_info)));
  vtxo_sum ← Effects.lift (amount_sum (amount <$> vtxos));
  _ ← Effects.lift (ensure (negb (vtxo_sum <? fee)) "offboarded amount is lower than fees"%string);
  mret (mkParticipation vtxos [] [mkOffboard destination (vtxo_sum - fee)]).

Definition build_round_onchain_payment_participation (script_pubkey : bytes) (sent : Z) : X RoundParticipation :=
  _ ← on_srv require_server;
  ark_info ← on_srv get_ark_info;
  let offb := mkOffboard script_pubkey sent in
  fee ← Effects.lift (offboard_fee offb (ai_offboard_feerate ark_info));
  required_amount ← Effects.lift (u_add 64 (ob_amount offb) fee);
  inputs ← select_vtxos_to_cover required_amount None;
  input_sum ← Effects.lift (amount_sum (amount <$> inputs));
  change ← (if input_sum <? ob_amount offb then throw "Your balance is too low"%string
            else
              limit ← Effects.lift (u_add 64 required_amount P2TR_DUST);
              if input_sum <=? limit then mret None
              else
                change_amount ← Effects.lift (u_sub input_sum required_amount);
                k ← derive_store_next_keypair cfg;
                mret (Some (mkRequest change_amount (new_pubkey (keypair_public_key k.1)))));
  mret (mkParticipation inputs (option_list change) [offb]).

(** ** Into a round *)
Definition maybe_schedule_maintenance_refresh : X (option Z) :=
  vtxos ← get_vtxos_to_refresh;
  if bool_decide (length vtxos = O) then mret None
  else
    participation ← build_refresh_participation ((fun v => vtxo_id (wv_vtxo v)) <$> vtxos);
    match participation with
    | None => mret None
    | Some participation =>
        participation ← add_or_keep participation;
        state ← join_next_round cfg participation (Some "refresh"%string);
        mret (Some (sto_id state))
    end.

Definition refresh_vtxos (ids : list bytes) (events : EventStream) : X (option RoundStatus) :=
  participation ← build_refresh_participation ids;
  match participation with
  | None => mret None
  | Some participation =>
      participation ← add_or_keep participation;
      status ← participate_round cfg participation (Some "refresh"%string) events;
      mret (Some status)
  end.

Definition maintenance_refresh (events : EventStream) : X (option RoundStatus) :=
  vtxos ← get_vtxos_to_refresh;
  if bool_decide (length vtxos = O) then mret None
  else refresh_vtxos ((fun v => vtxo_id (wv_vtxo v)) <$> vtxos) events.

Definition offboard (vtxos : list Vtxo) (destination : bytes) (events : EventStream) : X RoundStatus :=
  participation ← build_offboard_participation vtxos destination;
  participation ← add_or_keep participation;
  participate_round cfg participation (Some "offboard"%string) events.

Definition offboard_all (script_pubkey : bytes) (events : EventStream) : X RoundStatus :=
  input_vtxos ← spendable_vtxos;
  offboard (wv_vtxo <$> input_vtxos) script_pubkey events.

Definition offboard_vtxos (ids : list bytes) (script_pubkey : bytes) (events : EventStream) : X RoundStatus :=
  input_vtxos ← foldM (fun l id =>
    v ← query_db (get_wallet_vtxo id);
    v ← Effects.lift (ok_or v "cannot find requested vtxo"%string);
    mret (l ++ [wv_vtxo v])) [] ids;
  offboard input_vtxos script_pubkey events.

Definition send_round_onchain_payment (script_pubkey : bytes) (sent : Z) (events : EventStream) : X RoundStatus :=
  participation ← build_round_onchain_payment_participation script_pubkey sent;
  participation ← add_or_keep participation;
  participate_round cfg participation (Some "send_onchain"%string) events.
End Selection.
