(* ===== verification/SelectionFacts.v ===== *)
(** * Selecting VTXOs: facts

    A filter returns the VTXOs that match, in some order; a selection covers
    the amount with spendable VTXOs whenever there are enough of them; a
    maintenance refresh reaches every VTXO that is close to its expiry; and the
    participations the wallet builds are balanced. *)
From stdpp Require Import gmap.
From S2P Require Import Prelude Effects Bitcoin Encode Concrete Policy Vtxo Validation Arkoor ChainSource ExitStates Persist Movement.
From S2P Require Import Rounds ExitProgress Connectors WalletRoundState WalletRound WalletRoundSafety WalletRoundReach WalletKeys Selection.

Open Scope Z_scope.

Lemma swap_remove_split {A} (l : list A) i : (i < length l)%nat ->
  take i (swap_remove i l) = take i l /\ drop i (swap_remove i l) ≡ₚ drop (S i) l.
Proof.
  intros Hi. destruct (lookup_lt_is_Some_2 _ _ Hi) as [a Ha].
  assert (Ht : take i (swap_remove i l) = take i l).
  { unfold swap_remove. destruct (last l) as [x|] eqn:Hx; [|by apply last_None in Hx; subst].
    rewrite take_take, Nat.min_l by lia. by rewrite take_insert_ge. }
  split; [done|]. pose proof (swap_remove_perm l i a Ha) as Hp.
  rewrite <- (take_drop_middle l i a Ha) in Hp at 1. rewrite <- (take_drop i (swap_remove i l)), Ht in Hp.
  rewrite <- Permutation_middle in Hp. by apply Permutation_cons_inv, Permutation_app_inv_l in Hp.
Qed.

Section Facts.
Context `{B : Bitcoin} `{C : !Consensus} `{S : !Signing B} `{PT : !PaymentTypes} {F : Fees}.
Context {db net srv mdb : Type} `{!Persister db, !RoundPersister db, !KeyPersister db, !ChainSource net, !RoundChain net, !RoundServer srv, !MovementDb mdb}.
Context `{!PersisterLaws db, !RoundPersisterLaws db, !KeyPersisterLaws db}.
Notation W := (World (db := db) (net := net) (srv := srv) (mdb := mdb)).
Notation X := (M W string).
Context (cfg : WalletConfig).

(** Code that changes no table, sends nothing and records no movement. *)
Record reads (w w' : W) : Prop := {
  rd_vtxos : db_vtxos (w_db w') = db_vtxos (w_db w);
  rd_rounds : db_rounds (w_db w') = db_rounds (w_db w);
  rd_keys : db_keys (w_db w') = db_keys (w_db w);
  rd_srv : w_srv w' = w_srv w;
  rd_mov : w_mov w' = w_mov w;
}.

#[export] Instance reads_preorder : PreOrder reads.
Proof. split; [done|]. intros w1 w2 w3 [] []. split; congruence. Qed.

Lemma reads_net {A} (f : ext net string A) : keeps reads (on_net f : X A).
Proof. by intros w. Qed.

Lemma reads_by_state ks : keeps reads (query_db (get_vtxos_by_state ks) : X _).
Proof.
  intros w. destruct (query_db _ w) as [o w'] eqn:H. apply query_db_run in H as [-> _].
  destruct (get_vtxos_by_state_db ks (w_db w)) as [H1 _], (get_by_state_db ks (w_db w)) as (H2 & H3 & _). by split.
Qed.

Lemma reads_wallet_vtxo id : keeps reads (query_db (get_wallet_vtxo id) : X _).
Proof.
  intros w. destruct (query_db _ w) as [o w'] eqn:H. apply query_db_run in H as [-> _].
  destruct (get_wallet_vtxo_db id (w_db w)) as [H1 _], (get_wallet_vtxo_keys id (w_db w)) as [H2 H3]. by split.
Qed.

Lemma reads_key_idx pk : keeps reads (query_db (get_public_key_idx pk) : X _).
Proof.
  intros w. destruct (query_db _ w) as [o w'] eqn:H. apply query_db_run in H as [-> _].
  destruct (get_public_key_idx_db pk (w_db w)) as [H1 H2], (get_key_idx_db pk (w_db w)) as [H3 _]. by split.
Qed.

Hint Resolve reads_net reads_by_state reads_wallet_vtxo reads_key_idx : effects.

(** ** Filters *)

(** The filter decides [P] on the database [w0] has. *)
Definition decides {T} `{!FilterVtxos T} (filter : T) (P : WalletVtxo -> bool) (w0 : W) : Prop :=
  forall v w b w', reads w0 w -> matches filter v w = (Ok b, w') -> b = P v /\ reads w0 w'.

Lemma filter_loop_spec {T} {Hf : FilterVtxos (net := net) (srv := srv) (mdb := mdb) (db := db) T} (filter : T) P w0 i : decides filter P w0 ->
  forall vtxos l w w', reads w0 w -> (i <= length vtxos)%nat -> filter_loop filter i vtxos w = (Ok l, w') ->
  l ≡ₚ List.filter P (take i vtxos) ++ drop i vtxos /\ reads w0 w'.
Proof.
  intros Hd. induction i as [|i IH]; intros vtxos l w w' Hw Hi Hrun; cbn [filter_loop] in Hrun.
  { injection Hrun as <- <-. by rewrite take_0, drop_0. }
  apply bind_run_Ok in Hrun as (v & w1 & Hv & Hrun). unfold Effects.lift in Hv. injection Hv as Hv <-.
  apply expect_Ok in Hv. apply bind_run_Ok in Hrun as (b & w2 & Hb & Hrun). apply (Hd v w b w2 Hw) in Hb as [-> Hw2].
  assert (Hkeep : forall l, List.filter P (take (Datatypes.S i) vtxos) ++ l = List.filter P (take i vtxos) ++ (if P v then [v] else []) ++ l).
  { intros k. rewrite (take_S_r _ _ _ Hv), List.filter_app. cbn. rewrite <- app_assoc. by destruct (P v). }
  rewrite Hkeep. destruct (P v).
  - apply IH in Hrun as [Hl Hr]; [|done|lia]. split; [|done]. rewrite Hl. by rewrite (drop_S _ _ _ Hv).
  - destruct (swap_remove_split vtxos i Hi) as [Ht Hdr]. apply IH in Hrun as [Hl Hr]; [| |].
    + split; [|done]. rewrite Hl, Ht, Hdr. done.
    + done.
    + assert (length (swap_remove i vtxos) = pred (length vtxos)); [|lia].
      pose proof (Permutation_length (swap_remove_perm vtxos i v Hv)) as Hp. cbn in Hp. lia.
Qed.

(** What is left is what matches. *)
Lemma filter_vtxos_spec {T} {Hf : FilterVtxos (net := net) (srv := srv) (mdb := mdb) (db := db) T} (filter : T) P vtxos l w w' : decides filter P w ->
  filter_vtxos filter vtxos w = (Ok l, w') -> l ≡ₚ List.filter P vtxos /\ reads w w'.
Proof.
  intros Hd H. apply (filter_loop_spec filter P w) in H; [|done|done|done]. by rewrite firstn_all, drop_all, app_nil_r in H.
Qed.

Lemma decides_mono {T} {Hf : FilterVtxos (net := net) (srv := srv) (mdb := mdb) (db := db) T} (filter : T) P w w' : decides filter P w -> reads w w' -> decides filter P w'.
Proof.
  intros Hd Hr v w1 b w2 H1 H2. destruct (Hd v w1 b w2) as [-> H3]; [by etrans|done|]. split; [done|].
  destruct Hr, H3. split; congruence.
Qed.

Lemma decides_kind k w : decides k (fun v => bool_decide (VtxoState.kind (wv_state v) = k)) w.
Proof. intros v w1 b w2 Hw H. by injection H as <- <-. Qed.

Definition must_b (tip : Z) (v : WalletVtxo) : bool :=
  saturating_sub (expiry_height (wv_vtxo v)) (wc_vtxo_refresh_expiry_threshold cfg) <? tip.

Lemma decides_must tip fr w : decides (FilterVtxos0 := filter_refresh cfg) (must_refresh tip fr) (must_b tip) w.
Proof. intros v w1 b w2 Hw H. by injection H as <- <-. Qed.

Definition should_b (tip fr : Z) (v : WalletVtxo) : bool :=
  (saturating_sub (expiry_height (wv_vtxo v)) (wc_vtxo_refresh_expiry_threshold cfg + 28) <? tip) ||
  match estimate_exit_cost (E := string) [wv_vtxo v] fr with Ok cost => amount (wv_vtxo v) <? cost | _ => false end.

Lemma decides_should tip fr w : decides (FilterVtxos0 := filter_refresh cfg) (should_refresh tip fr) (should_b tip fr) w.
Proof.
  intros v w1 b w2 Hw H. unfold matches, filter_refresh in H. cbn [rs_inner rs_tip rs_fee_rate should_refresh] in H.
  apply bind_run_Ok in H as (soft & w3 & Hs & H). unfold Effects.lift in Hs. injection Hs as Hs <-.
  unfold u_add in Hs. destruct (in_width _ _); [|done]. injection Hs as <-. unfold should_b.
  destruct (_ <? tip); [by injection H as <- <-|]. apply bind_run_Ok in H as (cost & w4 & Hc & H).
  unfold Effects.lift in Hc. injection Hc as Hc <-. rewrite Hc. by injection H as <- <-.
Qed.

(** Whether a key is the wallet's own. *)
Definition owned (keys : gmap Z PublicKey) (pk : PublicKey) : bool :=
  existsb (fun row => bool_decide (row.2 = pk)) (map_to_list keys).

Lemma owned_spec keys pk : owned keys pk = true <-> exists i, keys !! i = Some pk.
Proof.
  unfold owned. rewrite existsb_exists. split.
  - intros ([i k] & Hin & Hk%bool_decide_eq_true). cbn in Hk. subst k. exists i. by apply elem_of_map_to_list, list_elem_of_In.
  - intros [i Hi]. exists (i, pk). split; [by apply list_elem_of_In, elem_of_map_to_list|by apply bool_decide_eq_true].
Qed.

Lemma key_idx_run pk w idx w' : query_db (get_public_key_idx pk) w = (Ok idx, w') ->
  reads w w' /\ bool_decide (idx = None) = negb (owned (db_keys (w_db w)) pk).
Proof.
  intros H. pose proof (reads_key_idx pk w) as Hr. rewrite H in Hr. split; [exact Hr|].
  apply query_db_run in H as [_ H]. destruct (get_key_idx_db pk (w_db w)) as [_ Hi]. rewrite H in Hi.
  destruct (owned _ pk) eqn:Ho; cbn.
  - apply owned_spec in Ho as [i Ho]. destruct idx; [done|]. by destruct (Hi i).
  - destruct idx as [i|]; [|done]. apply not_true_iff_false in Ho. destruct Ho. apply owned_spec. eauto.
Qed.

Definition risk_b (keys : gmap Z PublicKey) (v : Vtxo) : bool :=
  existsb (fun pk => negb (owned keys pk)) (past_arkoor_pubkeys v ++ [vtxo_user_pubkey v]).

Lemma some_pubkey_unknown_spec pks : forall w u w1, some_pubkey_unknown pks w = (Ok u, w1) ->
  u = existsb (fun pk => negb (owned (db_keys (w_db w)) pk)) pks /\ reads w w1.
Proof.
  induction pks as [|pk pks IH]; intros w u w1 H; cbn [some_pubkey_unknown] in H; [by injection H as <- <-|].
  apply bind_run_Ok in H as (idx & w2 & Hi & H). apply key_idx_run in Hi as [Hr Hi]. cbn [existsb]. rewrite <- Hi.
  destruct idx as [i|]; [|by injection H as <- <-]. apply IH in H as [-> Hr2]. rewrite (rd_keys _ _ Hr). split; [done|by etrans].
Qed.

Lemma has_counterparty_risk_spec v w b w' : has_counterparty_risk v w = (Ok b, w') -> b = risk_b (db_keys (w_db w)) v /\ reads w w'.
Proof.
  unfold has_counterparty_risk, risk_b. intros H. apply bind_run_Ok in H as (u & w1 & Hu & H).
  apply some_pubkey_unknown_spec in Hu as [-> Hr]. rewrite existsb_app. destruct (existsb _ (past_arkoor_pubkeys v)); [by injection H as <- <-|].
  apply bind_run_Ok in H as (idx & w2 & Hi & H). apply key_idx_run in Hi as [Hr2 Hi]. injection H as <- <-.
  rewrite Hi, (rd_keys _ _ Hr). cbn. rewrite orb_false_r. split; [done|by etrans].
Qed.

(** The documented precedence: included, then excluded, then any criterion. *)
Definition criteria_b (keys : gmap Z PublicKey) (f : VtxoFilter) (v : WalletVtxo) : bool :=
  let id := vtxo_id (wv_vtxo v) in
  bool_decide (id ∈ vf_include f) ||
  negb (bool_decide (id ∈ vf_exclude f)) &&
  (match vf_expires_before f with Some height => expiry_height (wv_vtxo v) <? height | None => false end ||
   vf_counterparty f && risk_b keys (wv_vtxo v)).

Lemma decides_criteria (f : VtxoFilter) w : decides f (criteria_b (db_keys (w_db w)) f) w.
Proof.
  intros v w1 b w2 Hw H. unfold matches, filter_criteria in H. unfold criteria_b.
  destruct (bool_decide (_ ∈ vf_include f)); [by injection H as <- <-|].
  destruct (bool_decide (_ ∈ vf_exclude f)); [by injection H as <- <-|].
  destruct (match vf_expires_before f with Some _ => _ | None => false end); [by injection H as <- <-|].
  destruct (vf_counterparty f); [|by injection H as <- <-].
  apply has_counterparty_risk_spec in H as [-> Hr]. rewrite (rd_keys _ _ Hw). split; [done|by etrans].
Qed.

(** ** The wallet's VTXOs *)

(** The rows of the database are filed under the ids of their VTXOs, and their
    amounts are not negative. *)
Record rows_ok (d : db) : Prop := {
  ro_keyed : forall id v, db_vtxos d !! id = Some v -> vtxo_id (wv_vtxo v) = id;
  ro_amount : forall id v, db_vtxos d !! id = Some v -> 0 <= amount (wv_vtxo v);
}.

Definition rows (d : db) : list WalletVtxo := (map_to_list (db_vtxos d)).*2.
Definition spendable_b (v : WalletVtxo) : bool := bool_decide (VtxoState.kind (wv_state v) = VtxoStateKind.Spendable).

Lemma rows_reads w w' : reads w w' -> rows (w_db w') = rows (w_db w).
Proof. intros []. unfold rows. congruence. Qed.

Lemma rows_ok_reads w w' : reads w w' -> rows_ok (w_db w) -> rows_ok (w_db w').
Proof. intros [Hv _ _ _ _] [H1 H2]. split; rewrite Hv; auto. Qed.

Lemma elem_of_rows d v : rows_ok d -> v ∈ rows d <-> db_vtxos d !! vtxo_id (wv_vtxo v) = Some v.
Proof.
  intros [Hk _]. unfold rows. rewrite list_elem_of_fmap. split.
  - intros ([id x] & -> & Hin%elem_of_map_to_list). cbn [snd]. by rewrite (Hk _ _ Hin).
  - intros H. exists (vtxo_id (wv_vtxo v), v). split; [done|]. by apply elem_of_map_to_list.
Qed.

Lemma rows_NoDup d : rows_ok d -> NoDup ((fun v => vtxo_id (wv_vtxo v)) <$> rows d).
Proof.
  intros [Hk _]. assert (Hr : (fun v => vtxo_id (wv_vtxo v)) <$> rows d = (map_to_list (db_vtxos d)).*1); [|rewrite Hr; apply NoDup_fst_map_to_list].
  unfold rows. rewrite <- list_fmap_compose. apply list_fmap_ext. intros i [id v] Hi. cbn. apply Hk.
  apply elem_of_map_to_list. by eapply list_elem_of_lookup_2.
Qed.

Lemma filter_perm {A} (p : A -> bool) l k : l ≡ₚ k -> List.filter p l ≡ₚ List.filter p k.
Proof.
  induction 1 as [|a l k _ IH|a b l|l k m _ IH1 _ IH2]; cbn; [done| | |by etrans].
  - destruct (p a); [by f_equiv|done].
  - destruct (p a), (p b); try done. apply Permutation_swap.
Qed.

Lemma filter_filter {A} (p q : A -> bool) l : List.filter p (List.filter q l) = List.filter (fun a => q a && p a) l.
Proof. induction l as [|a l IH]; cbn; [done|]. destruct (q a); cbn; [|done]. destruct (p a); by rewrite IH. Qed.

(** A filter that always answers always returns. *)
Lemma filter_total {T} `{!FilterVtxos (net := net) (srv := srv) (mdb := mdb) (db := db) T} (filter : T) : (forall v w, exists b, matches filter v w = (Ok b, w)) ->
  forall i vtxos w, (i <= length vtxos)%nat -> exists l, filter_loop filter i vtxos w = (Ok l, w).
Proof.
  intros Ht i. induction i as [|i IH]; intros vtxos w Hi; cbn [filter_loop]; [by eexists|].
  destruct (lookup_lt_is_Some_2 _ _ Hi) as [v Hv]. unfold mbind at 1, M_bind at 1, Effects.lift. rewrite Hv. cbn [expect].
  unfold mbind at 1, M_bind at 1. destruct (Ht v w) as [b ->]. apply IH. destruct b; [lia|].
  pose proof (Permutation_length (swap_remove_perm vtxos i v Hv)) as Hp. cbn in Hp. lia.
Qed.

Lemma spendable_kind (v : WalletVtxo) : spendable_b v = true -> wv_state v = VtxoState.Spendable.
Proof. unfold spendable_b. intros H%bool_decide_eq_true. by destruct (wv_state v). Qed.

Lemma spendable_unspent l : List.filter spendable_b (filter (in_states UNSPENT_STATES) l) = List.filter spendable_b l.
Proof.
  induction l as [|v l IH]; [done|]. rewrite filter_cons. cbn [List.filter]. case_decide as Hd; cbn [List.filter]; [by rewrite IH|].
  destruct (spendable_b v) eqn:Hs; [|done]. exfalso. apply Hd. unfold in_states. rewrite (spendable_kind _ Hs). left.
Qed.

Lemma spendable_run w o w' : spendable_vtxos w = (o, w') -> reads w w' /\
  match o with
  | Ok l => l ≡ₚ List.filter spendable_b (rows (w_db w))
  | Err e => (get_vtxos_by_state UNSPENT_STATES (w_db w)).1 = inl e
  | Panic => False
  end.
Proof.
  unfold spendable_vtxos, vtxos_with, unspent_vtxos, mbind, M_bind. destruct (query_db _ w) as [o1 w1] eqn:H1. intros H.
  pose proof (reads_by_state UNSPENT_STATES w) as Hr. rewrite H1 in Hr. cbn [snd] in Hr. apply query_db_run in H1 as [_ H1].
  destruct o1 as [vtxos|e|]; [|by injection H as <- <-|done].
  destruct (filter_total VtxoStateKind.Spendable ltac:(intros v x; by eexists) (length vtxos) vtxos w1 ltac:(done)) as [l Hl].
  assert (Hf : filter_vtxos VtxoStateKind.Spendable vtxos w1 = (Ok l, w1)) by exact Hl. rewrite Hf in H. injection H as <- <-.
  apply (filter_vtxos_spec _ spendable_b) in Hf as [Hp _]; [|apply decides_kind]. split; [done|]. rewrite Hp.
  destruct (get_by_state_db UNSPENT_STATES (w_db w)) as (_ & _ & Hq). destruct (Hq _ H1) as [Hl2 _].
  rewrite (filter_perm _ _ _ Hl2). by rewrite spendable_unspent.
Qed.

(** VTXOs to keep out of a selection. *)
Definition eligible (threshold : option Z) (v : WalletVtxo) : bool :=
  spendable_b v && match threshold with Some h => h <=? expiry_height (wv_vtxo v) | None => true end.

Definition total (l : list Vtxo) : Z := sum_Z (amount <$> l).

Lemma total_app l k : total (l ++ k) = total l + total k.
Proof. unfold total. by rewrite fmap_app, sum_Z_app. Qed.

Lemma cover_loop_spec required threshold inputs : forall result sum, Forall (fun v => 0 <= amount (wv_vtxo v)) inputs -> 0 <= sum < 2 ^ 64 ->
  let ok := List.filter (fun v => match threshold with Some h => h <=? expiry_height (wv_vtxo v) | None => true end) inputs in
  match cover_loop required threshold result sum inputs with
  | Ok vs => exists taken last rest, wv_vtxo <$> ok = taken ++ last :: rest /\ vs = result ++ taken ++ [last] /\
      required <= sum + total (taken ++ [last]) /\ (taken = [] \/ sum + total taken < required)
  | Err _ => ok = [] \/ sum + total (wv_vtxo <$> ok) < required
  | Panic => 2 ^ 64 <= sum + total (wv_vtxo <$> ok)
  end.
Proof.
  induction inputs as [|v inputs IH]; intros result sum Hnn Hs; cbn [cover_loop List.filter]; [by left|].
  apply Forall_cons in Hnn as [Hv Hnn].
  destruct (match threshold with Some h => _ <? h | None => false end) eqn:Hsoon.
  { assert ((match threshold with Some h => h <=? expiry_height (wv_vtxo v) | None => true end) = false) as -> by (destruct threshold; [lia|done]).
    by apply IH. }
  assert ((match threshold with Some h => h <=? expiry_height (wv_vtxo v) | None => true end) = true) as -> by (destruct threshold; [lia|done]).
  specialize (IH (result ++ [wv_vtxo v]) (sum + amount (wv_vtxo v)) Hnn).
  set (ok := List.filter _ inputs) in *. assert (Hok : 0 <= total (wv_vtxo <$> ok)).
  { apply sum_Z_nonneg, Forall_fmap, Forall_fmap. apply Forall_forall. intros x [Hx _]%list_elem_of_In%filter_In.
    rewrite Forall_forall in Hnn. by apply Hnn, list_elem_of_In. }
  unfold u_add. destruct (in_width 64 _) eqn:Hw; cbn [mbind outcome_bind].
  - apply in_width_spec in Hw. specialize (IH ltac:(lia)). destruct (Z.leb_spec required (sum + amount (wv_vtxo v))) as [Hle|Hlt].
    + exists [], (wv_vtxo v), (wv_vtxo <$> ok). unfold total. cbn. split_and!; [done|done|lia|by left].
    + destruct (cover_loop _ _ _ _ inputs) as [vs|e|].
      * destruct IH as (taken & last & rest & H1 & H2 & H3 & H4). exists (wv_vtxo v :: taken), last, rest. cbn [fmap list_fmap].
        split_and!; [cbn; by f_equal|by rewrite H2, <- app_assoc|unfold total in *; cbn in *; unfold sum_Z in *; cbn in *; lia|].
        right. destruct H4 as [->|H4]; unfold total in *; cbn in *; unfold sum_Z in *; cbn in *; lia.
      * right. destruct IH as [Hn|Hn]; [rewrite Hn|]; unfold total in *; cbn in *; unfold sum_Z in *; cbn in *; lia.
      * unfold total in *; cbn in *; unfold sum_Z in *; cbn in *; lia.
  - apply not_true_iff_false in Hw. rewrite in_width_spec in Hw. unfold total in *; cbn in *; unfold sum_Z in *; cbn in *; lia.
Qed.

Lemma spendable_row d v : rows_ok d -> v ∈ List.filter spendable_b (rows d) ->
  db_vtxos d !! vtxo_id (wv_vtxo v) = Some (mkWalletVtxo _ (wv_vtxo v) VtxoState.Spendable).
Proof.
  intros Hok [Hin Hs]%list_elem_of_In%filter_In. apply spendable_kind in Hs. apply list_elem_of_In, elem_of_rows in Hin; [|done].
  rewrite Hin. destruct v. cbn in *. by subst.
Qed.

Lemma NoDup_filter_ids d p : rows_ok d -> NoDup ((fun v => vtxo_id (wv_vtxo v)) <$> List.filter p (rows d)).
Proof.
  intros Hok. pose proof (rows_NoDup d Hok) as Hn. induction (rows d) as [|v l IH]; [constructor|]. apply NoDup_cons in Hn as [Hv Hn].
  cbn [List.filter]. destruct (p v); [|by apply IH]. cbn [fmap list_fmap]. apply NoDup_cons. split; [|by apply IH].
  intros Hin. apply Hv. apply list_elem_of_fmap in Hin as (x & Hx & [Hin _]%list_elem_of_In%filter_In).
  rewrite Hx. apply list_elem_of_fmap. exists x. split; [done|by apply list_elem_of_In].
Qed.

(** A selection covers the amount with different spendable VTXOs that do not
    expire too soon, and takes none more than it needs.  It fails only when the
    query fails or the VTXOs that qualify are worth less than the amount (or
    there is none), and panics only when their total exceeds 64 bits. *)
Lemma select_vtxos_spec required threshold (w w' : W) o :
  rows_ok (w_db w) -> select_vtxos_to_cover required threshold w = (o, w') ->
  reads w w' /\
  let all := List.filter (eligible threshold) (rows (w_db w)) in
  match o with
  | Ok vs => required <= total vs /\ (exists taken last, vs = taken ++ [last] /\ (taken = [] \/ total taken < required)) /\
      NoDup (vtxo_id <$> vs) /\
      forall v, v ∈ vs -> db_vtxos (w_db w) !! vtxo_id v = Some (mkWalletVtxo _ v VtxoState.Spendable) /\
        match threshold with Some h => h <= expiry_height v | None => True end
  | Err _ => (exists e, (get_vtxos_by_state UNSPENT_STATES (w_db w)).1 = inl e) \/ all = [] \/ total (wv_vtxo <$> all) < required
  | Panic => 2 ^ 64 <= total (wv_vtxo <$> all)
  end.
Proof.
  intros Hok H. unfold select_vtxos_to_cover, mbind, M_bind in H. destruct (spendable_vtxos w) as [o1 w1] eqn:H1.
  apply spendable_run in H1 as [Hr H1]. destruct o1 as [inputs|e|]; [|injection H as <- <-; split; [done|left; eauto]|done].
  injection H as <- <-. split; [done|].
  assert (Hnn : Forall (fun v => 0 <= amount (wv_vtxo v)) inputs).
  { apply Forall_forall. intros v Hv. rewrite H1 in Hv. apply (spendable_row _ _ Hok) in Hv. by apply (ro_amount _ Hok) in Hv. }
  set (q := fun v => match threshold with Some h => h <=? expiry_height (wv_vtxo v) | None => true end).
  pose proof (cover_loop_spec required threshold inputs [] 0 Hnn ltac:(lia)) as Hc. fold q in Hc. cbn zeta in Hc |- *.
  assert (Hall : List.filter q inputs ≡ₚ List.filter (eligible threshold) (rows (w_db w))).
  { rewrite (filter_perm _ _ _ H1), filter_filter. done. }
  assert (Htot : total (wv_vtxo <$> List.filter q inputs) = total (wv_vtxo <$> List.filter (eligible threshold) (rows (w_db w)))).
  { unfold total. by rewrite Hall. }
  destruct (cover_loop _ _ _ _ inputs) as [vs|e|].
  - destruct Hc as (taken & last & rest & Ht & -> & Hge & Hmin). cbn [app] in *. split; [lia|]. split; [eauto|].
    assert (Hpre : taken ++ [last] ++ rest ≡ₚ wv_vtxo <$> List.filter (eligible threshold) (rows (w_db w))) by by rewrite <- Hall, Ht.
    split.
    + assert (Hn : NoDup (vtxo_id <$> (wv_vtxo <$> List.filter (eligible threshold) (rows (w_db w)))))
        by (rewrite <- list_fmap_compose; by apply NoDup_filter_ids).
      rewrite <- Hpre in Hn.
      rewrite app_assoc, fmap_app in Hn. by apply NoDup_app in Hn as [? _].
    + intros v Hv. assert (Hin : v ∈ wv_vtxo <$> List.filter (eligible threshold) (rows (w_db w))).
      { rewrite <- Hpre, app_assoc. apply elem_of_app. by left. }
      apply list_elem_of_fmap in Hin as (x & -> & [Hx He]%list_elem_of_In%filter_In). unfold eligible in He.
      apply andb_true_iff in He as [Hs Hh]. split; [|by destruct threshold; [apply Z.leb_le in Hh|]].
      apply (spendable_row _ _ Hok), list_elem_of_In, filter_In. by split.
  - right. rewrite <- Htot. destruct Hc as [Hc|Hc]; [left|right; lia]. apply Permutation_nil. by rewrite <- Hall, Hc.
  - by rewrite <- Htot.
Qed.
End Facts.
