(* ===== verification/RefreshFacts.v ===== *)
(** * Refreshing VTXOs and paying on chain: the participations

    A maintenance refresh reaches every spendable VTXO that is close to its
    expiry and asks for exactly what it gives up, under keys of the wallet; what
    the wallet builds passes the check of the server that nobody gets more than
    he brings. *)
From stdpp Require Import gmap.
From S2P Require Import Prelude Effects Bitcoin Encode Concrete Policy Vtxo Validation Arkoor ChainSource ExitStates Persist Movement.
From S2P Require Import MovementFacts SignedTree Rounds ExitProgress Connectors RoundCollect WalletRoundState WalletRound WalletRoundSafety WalletRoundReach WalletKeys Selection SelectionFacts.

Open Scope Z_scope.

Section Facts.
Context `{B : Bitcoin} `{C : !Consensus} `{S : !Signing B} `{PT : !PaymentTypes} {F : Fees}.
Context {db net srv mdb : Type} `{!Persister db, !RoundPersister db, !KeyPersister db, !ChainSource net, !RoundChain net, !RoundServer srv, !MovementDb mdb}.
Context `{!PersisterLaws db, !RoundPersisterLaws db, !KeyPersisterLaws db}.
Notation W := (World (db := db) (net := net) (srv := srv) (mdb := mdb)).
Notation X := (M W string).
Context (cfg : WalletConfig).
Notation must := (must_b cfg).
Notation should := (should_b cfg).
Notation own_key := (WalletKeys.own_key cfg).

(** When the VTXOs that can be spent and do not expire too soon are worth the
    amount, the selection succeeds: with different VTXOs out of these, worth at
    least the amount, of which none is superfluous. *)
Theorem select_vtxos_covers required threshold (w : W) l : rows_ok (w_db w) ->
  (get_vtxos_by_state UNSPENT_STATES (w_db w)).1 = inr l ->
  let all := List.filter (eligible threshold) (rows (w_db w)) in
  all <> [] -> required <= total (wv_vtxo <$> all) < 2 ^ 64 ->
  exists vs w', select_vtxos_to_cover required threshold w = (Ok vs, w') /\ reads w w' /\
    required <= total vs /\ (exists taken last, vs = taken ++ [last] /\ (taken = [] \/ total taken < required)) /\
    NoDup (vtxo_id <$> vs) /\
    forall v, v ∈ vs -> db_vtxos (w_db w) !! vtxo_id v = Some (mkWalletVtxo _ v VtxoState.Spendable) /\
      match threshold with Some h => h <= expiry_height v | None => True end.
Proof.
  intros Hok Hq all Hne Ht. destruct (select_vtxos_to_cover required threshold w) as [o w'] eqn:H.
  apply select_vtxos_spec in H as [Hr H]; [|done]. cbn zeta in H. fold all in H. clearbody all. destruct o as [vs|e|]; [by exists vs, w'|exfalso|exfalso; lia].
  destruct H as [[e' He]|[Hn|Hn]]; [by rewrite Hq in He|done|lia].
Qed.

(** ** Which VTXOs are refreshed *)
Lemma must_should tip fr v : must tip v = true -> should tip fr v = true.
Proof. unfold must_b, should_b, saturating_sub. intros H%Z.ltb_lt. apply orb_true_iff. left. apply Z.ltb_lt. lia. Qed.

Lemma spendable_with_run {T} `{!FilterVtxos (net := net) (srv := srv) (mdb := mdb) (db := db) T} (filter : T) P (w : W) l (w' : W) :
  (forall w : W, decides filter P w) -> spendable_vtxos_with filter w = (Ok l, w') ->
  reads w w' /\ l ≡ₚ List.filter (fun v => spendable_b v && P v) (rows (w_db w)).
Proof.
  intros Hd H. unfold spendable_vtxos_with in H. apply bind_run_Ok in H as (vs & w1 & H1 & H). apply spendable_run in H1 as [Hr H1].
  apply (filter_vtxos_spec filter P) in H as [Hl Hr2]; [|done]. split; [by etrans|]. rewrite Hl, (filter_perm _ _ _ H1). by rewrite filter_filter.
Qed.

Lemma to_refresh_run (w : W) l (w' : W) : get_vtxos_to_refresh cfg w = (Ok l, w') -> exists tip fr,
  (chain_tip (w_net w)).1 = inr tip /\ reads w w' /\
  l ≡ₚ (if existsb (fun v => spendable_b v && must tip v) (rows (w_db w))
        then List.filter (fun v => spendable_b v && should tip fr v) (rows (w_db w)) else []).
Proof.
  intros H. unfold get_vtxos_to_refresh in H. apply bind_run_Ok in H as (tip & w1 & H1 & H).
  apply bind_run_Ok in H as (fr & w2 & H2 & H). injection H2 as Hfr <-. exists tip, fr.
  apply on_net_run in H1 as [-> Htip]. split; [done|]. apply bind_run_Ok in H as (ms & w3 & H3 & H).
  apply (spendable_with_run (FilterVtxos0 := filter_refresh cfg) _ (must tip)) in H3 as [Hr3 H3]; [|intros; apply decides_must].
  assert (Hw : reads w w3) by (etrans; [|exact Hr3]; by split).
  assert (He : bool_decide (length ms = O) = negb (existsb (fun v => spendable_b v && must tip v) (rows (w_db w)))).
  { destruct (existsb _ _) eqn:He; cbn.
    - apply bool_decide_eq_false. apply existsb_exists in He as (v & Hin & Hv). apply Permutation_length in H3. rewrite H3.
      cbn [w_db]. intros Hn%nil_length_inv. assert (Hf : In v []) by (rewrite <- Hn; by apply filter_In). done.
    - apply bool_decide_eq_true. rewrite (Permutation_length H3). cbn [w_db].
      destruct (List.filter _ _) as [|v k] eqn:Hf; [done|]. exfalso. apply not_true_iff_false in He. apply He, existsb_exists.
      assert (Hv : In v (v :: k)) by by left. rewrite <- Hf in Hv. apply filter_In in Hv as []. eauto. }
  rewrite He in H. destruct (existsb _ _); cbn [negb] in H.
  - apply (spendable_with_run (FilterVtxos0 := filter_refresh cfg) _ (should tip fr)) in H as [Hr Hl]; [|intros; apply decides_should].
    split; [by etrans|]. rewrite Hl. by rewrite (rows_reads _ _ Hw).
  - injection H as <- <-. done.
Qed.

(** *** Rows by id *)
Lemma get_vtxo_by_id_run id (w w' : W) v : get_vtxo_by_id id w = (Ok v, w') -> reads w w' /\ db_vtxos (w_db w) !! id = Some v.
Proof.
  unfold get_vtxo_by_id. intros H. apply bind_run_Ok in H as (o & w1 & H1 & H). unfold Effects.lift in H. injection H as H <-.
  apply ok_or_Ok in H as ->. pose proof (reads_wallet_vtxo id w) as Hr. rewrite H1 in Hr. split; [exact Hr|].
  apply query_db_run in H1 as [_ H1]. destruct (get_wallet_vtxo_db id (w_db w)) as (_ & _ & Hg). by rewrite <- (Hg _ H1).
Qed.

Lemma collect_run ids : forall (m m' : gmap bytes WalletVtxo) (w w' : W),
  foldM (fun (ret : gmap bytes WalletVtxo) id =>
    vtxo ← get_vtxo_by_id id;
    if bool_decide (is_Some (ret !! id)) then throw "duplicate VTXO id"%string else mret (<[id := vtxo]> ret)) m ids w = (Ok m', w') ->
  reads w w' /\ NoDup ids /\ (forall id, id ∈ ids -> m !! id = None /\ m' !! id = db_vtxos (w_db w) !! id /\ is_Some (m' !! id)) /\
  (forall id, id ∉ ids -> m' !! id = m !! id).
Proof.
  induction ids as [|id ids IH]; intros m m' w w' H; cbn [foldM] in H.
  { injection H as <- <-. split_and!; [done|constructor|by intros id []%elem_of_nil|done]. }
  apply bind_run_Ok in H as (m1 & w1 & H1 & H). apply bind_run_Ok in H1 as (v & w2 & H2 & H1).
  apply get_vtxo_by_id_run in H2 as [Hr Hv]. case_bool_decide as Hd; [done|]. injection H1 as <- <-. apply eq_None_not_Some in Hd.
  apply IH in H as (Hr2 & Hn & Hin & Hout). rewrite (rd_vtxos _ _ Hr) in Hin. split; [by etrans|].
  assert (Hni : id ∉ ids) by (intros Hi; destruct (Hin id Hi) as [Hc _]; by rewrite lookup_insert_eq in Hc).
  split; [by constructor|]. split.
  - intros i [->|Hi]%elem_of_cons.
    + rewrite Hout, lookup_insert_eq, Hv by done. split_and!; [done|done|eauto].
    + destruct (Hin i Hi) as (H1 & H2 & H3). rewrite lookup_insert_ne in H1 by set_solver. by split_and!.
  - intros i [Hne Hi]%not_elem_of_cons. rewrite Hout by done. by rewrite lookup_insert_ne.
Qed.

Definition asked (p : RoundParticipation) : Z := sum_Z (req_amount <$> pt_outputs p).

(** What a refresh is built from: the inputs are the rows asked for, and the
    outputs their value under keys of the wallet. *)
Record refreshes (w w' : W) (p : RoundParticipation) : Prop := {
  rf_inputs : forall v, v ∈ pt_inputs p -> exists r, db_vtxos (w_db w) !! vtxo_id v = Some r /\ wv_vtxo r = v;
  rf_nodup : NoDup (vtxo_id <$> pt_inputs p);
  rf_value : asked p = total (pt_inputs p);
  rf_offboards : pt_offboards p = [];
  rf_keys : Forall (fun r => exists pk, req_policy r = new_pubkey pk /\ own_key (w_db w') pk) (pt_outputs p);
}.

(** Code that only reads and derives keys. *)
Record derived (w w' : W) : Prop := {
  dv_vtxos : db_vtxos (w_db w') = db_vtxos (w_db w);
  dv_rounds : db_rounds (w_db w') = db_rounds (w_db w);
  dv_keys : forall i pk, db_keys (w_db w) !! i = Some pk -> db_keys (w_db w') !! i = Some pk;
  dv_ok : keys_ok cfg (w_db w');
}.
Definition derives (w w' : W) : Prop := keys_ok cfg (w_db w) -> derived w w'.

#[export] Instance derives_preorder : PreOrder derives.
Proof.
  split; [by split|]. intros w1 w2 w3 H1 H2 Hk. destruct (H1 Hk) as [A1 A2 A3 A4], (H2 A4) as [B1 B2 B3 B4].
  split; [congruence|congruence|auto|auto].
Qed.

Lemma reads_derives (w w' : W) : reads w w' -> derives w w'.
Proof. intros [H1 H2 H3 _ _] (n & Hn & Hk). split; [done|done|by rewrite H3|]. exists n. split; [done|]. by rewrite H3. Qed.

Lemma keeps_reads {A} (m : X A) : keeps reads m -> keeps derives m.
Proof. intros H w. apply reads_derives, H. Qed.

Lemma own_key_derives (w w' : W) pk : derived w w' -> own_key (w_db w) pk -> own_key (w_db w') pk.
Proof. intros [_ _ Hk _] (i & Hi & Hpk). exists i. auto. Qed.

Lemma keeps_derive : keeps derives (derive_store_next_keypair cfg : X _).
Proof.
  intros w Hk. destruct (derive_store_next_keypair cfg w) as [o w'] eqn:H. cbn [snd].
  destruct (derive_keys_spec cfg _ _ _ Hk H) as (H1 & H2 & H3 & _ & _ & _ & H4). split; [done|done| |done].
  destruct o as [[kp i]|e|]; [|by rewrite H4..]. destruct H4 as (_ & _ & Hn & H4). intros j pk Hj. rewrite H4.
  rewrite lookup_insert_ne; [done|]. intros <-. by rewrite Hn in Hj.
Qed.

Lemma derive_run (w w' : W) k : keys_ok cfg (w_db w) -> derive_store_next_keypair cfg w = (Ok k, w') ->
  derived w w' /\ own_key (w_db w') (keypair_public_key k.1).
Proof.
  intros Hk H. pose proof (keeps_derive w Hk) as Hd. rewrite H in Hd. split; [exact Hd|]. destruct k as [kp i].
  destruct (derive_keys_spec cfg _ _ _ Hk H) as (_ & _ & _ & _ & _ & _ & -> & _ & _ & H4).
  exists i. cbn [fst]. rewrite H4, lookup_insert_eq. done.
Qed.

Lemma build_refresh_run ids (w w' : W) o : rows_ok (w_db w) -> keys_ok cfg (w_db w) -> build_refresh_participation cfg ids w = (Ok o, w') ->
  derived w w' /\ match o with
  | None => ids = []
  | Some p => refreshes w w' p /\ vtxo_id <$> pt_inputs p ≡ₚ ids
  end.
Proof.
  intros Hok Hk H. unfold build_refresh_participation in H. apply bind_run_Ok in H as (m & w1 & H1 & H).
  unfold collect_vtxos in H1. apply collect_run in H1 as (Hr & Hnd & Hin & Hout).
  case_bool_decide as Hm.
  { injection H as <- <-. split; [by apply (reads_derives _ _ Hr)|]. destruct ids as [|id ids]; [done|].
    destruct (Hin id) as (_ & _ & Hs); [left|]. subst m. rewrite lookup_empty in Hs. by destruct Hs. }
  apply bind_run_Ok in H as (total_amount & w2 & Ht & H). unfold Effects.lift in Ht. injection Ht as Ht <-.
  apply bind_run_Ok in H as (k & w3 & Hd & H). injection H as <- <-.
  pose proof (reads_derives _ _ Hr Hk) as Hdr.
  assert (Hdw : derived w w3).
  { apply (transitivity (R := derives) (reads_derives _ _ Hr) (fun _ => proj1 (derive_run _ _ _ (dv_ok _ _ Hdr) Hd)) Hk). }
  split; [exact Hdw|]. apply derive_run in Hd as [_ Hown]; [|exact (dv_ok _ _ Hdr)].
  assert (Hrows : forall (id : bytes) r, m !! id = Some r -> id ∈ ids /\ db_vtxos (w_db w) !! id = Some r /\ vtxo_id (wv_vtxo r) = id).
  { intros id r Hr2. destruct (decide (id ∈ ids)) as [Hi|Hi]; [|by rewrite Hout, lookup_empty in Hr2].
    destruct (Hin id Hi) as (_ & He & _). rewrite He in Hr2. split_and!; [done|done|]. by apply (ro_keyed _ Hok). }
  assert (Hids : vtxo_id <$> ((fun p => wv_vtxo p.2) <$> map_to_list m) ≡ₚ ids).
  { assert (Hf : vtxo_id <$> ((fun p => wv_vtxo p.2) <$> map_to_list m) = (map_to_list m).*1).
    { rewrite <- list_fmap_compose. apply list_fmap_ext. intros i [id r] Hi. cbn. apply Hrows.
      apply elem_of_map_to_list. by eapply list_elem_of_lookup_2. }
    rewrite Hf. apply NoDup_Permutation; [apply NoDup_fst_map_to_list|done|]. intros id. rewrite list_elem_of_fmap. split.
    - intros ([i r] & -> & Hi%elem_of_map_to_list). by apply (Hrows i r).
    - intros Hi. destruct (Hin id Hi) as (_ & _ & r & Hr2). exists (id, r). split; [done|]. by apply elem_of_map_to_list. }
  split; [|exact Hids]. split; cbn [pt_inputs pt_outputs pt_offboards].
  - intros v ([id r] & -> & Hi%elem_of_map_to_list)%list_elem_of_fmap. apply Hrows in Hi as (_ & Hi & Hid). cbn [snd]. rewrite Hid. eauto.
  - by rewrite Hids.
  - unfold asked. cbn [pt_outputs fmap list_fmap req_amount]. apply amount_sum_Ok in Ht as [-> _]; [unfold total; unfold sum_Z; cbn; lia|].
    apply Forall_fmap, Forall_fmap, Forall_forall. intros [id r] Hi%elem_of_map_to_list. apply Hrows in Hi as (_ & Hi & _). by apply (ro_amount _ Hok) in Hi.
  - done.
  - constructor; [|constructor]. exists (keypair_public_key k.1). by split.
Qed.

(** *** More VTXOs *)
Lemma reads_filter_loop {T} `{!FilterVtxos (net := net) (srv := srv) (mdb := mdb) (db := db) T} (filter : T) :
  (forall v, keeps reads (matches filter v : X bool)) -> forall i vtxos, keeps reads (filter_loop filter i vtxos : X _).
Proof.
  intros Hm i. induction i as [|i IH]; intros vtxos; cbn [filter_loop]; [by intros w|].
  apply keeps_bind; [apply _|by intros w|]. intros v. apply keeps_bind; [apply _|apply Hm|]. intros b. apply IH.
Qed.

Lemma reads_spendable_with {T} `{!FilterVtxos (net := net) (srv := srv) (mdb := mdb) (db := db) T} (filter : T) :
  (forall v, keeps reads (matches filter v : X bool)) -> keeps reads (spendable_vtxos_with filter : X _).
Proof.
  intros Hm. apply keeps_bind; [apply _| |intros vs; by apply reads_filter_loop].
  intros w. destruct (spendable_vtxos w) as [o w'] eqn:H. by apply spendable_run in H as [Hr _].
Qed.

Lemma reads_refresh_matches f v : keeps reads (matches (FilterVtxos := filter_refresh cfg) f v : X bool).
Proof.
  unfold matches, filter_refresh. destruct (rs_inner f); [by intros w|]. apply keeps_bind; [apply _|by intros w|]. intros s.
  destruct (_ <? _); [by intros w|]. apply keeps_bind; [apply _|by intros w|]. by intros c w.
Qed.

Lemma reads_to_refresh : keeps reads (get_vtxos_to_refresh cfg : X _).
Proof.
  unfold get_vtxos_to_refresh. apply keeps_bind; [apply _|apply reads_net|]. intros tip. apply keeps_bind; [apply _|by intros w|]. intros fr.
  apply keeps_bind; [apply _| |].
  - apply (reads_spendable_with (FilterVtxos0 := filter_refresh cfg)), reads_refresh_matches.
  - intros ms. destruct (bool_decide _); [by intros w|]. apply (reads_spendable_with (FilterVtxos0 := filter_refresh cfg)), reads_refresh_matches.
Qed.

Lemma keeps_add_should p : keeps derives (add_should_refresh_vtxos cfg p : X _).
Proof.
  unfold add_should_refresh_vtxos. apply keeps_bind; [apply _|apply keeps_reads, reads_to_refresh|]. intros vs.
  apply keeps_bind; [apply _|by intros w|]. intros t. destruct (_ <? _); [|by intros w].
  apply keeps_bind; [apply _|apply keeps_derive|]. by intros k w.
Qed.

(** What may be added: other spendable VTXOs, and an output of their value. *)
Definition extended (p p' : RoundParticipation) (w w' : W) : Prop :=
  exists extra outs, pt_inputs p' = pt_inputs p ++ extra /\ pt_outputs p' = pt_outputs p ++ outs /\ pt_offboards p' = pt_offboards p /\
  total extra = sum_Z (req_amount <$> outs) /\ NoDup (vtxo_id <$> extra) /\
  (forall v, v ∈ extra -> vtxo_id v ∉ vtxo_id <$> pt_inputs p /\ db_vtxos (w_db w) !! vtxo_id v = Some (mkWalletVtxo _ v VtxoState.Spendable)) /\
  Forall (fun r => exists pk, req_policy r = new_pubkey pk /\ own_key (w_db w') pk) outs.

Lemma extended_refl p w w' : extended p p w w'.
Proof.
  exists [], []. rewrite !app_nil_r. split_and!; try done; [apply NoDup_nil_2|by intros v ?%elem_of_nil].
Qed.

Lemma add_should_run p p' (w w' : W) : rows_ok (w_db w) -> keys_ok cfg (w_db w) -> add_should_refresh_vtxos cfg p w = (Ok p', w') ->
  extended p p' w w'.
Proof.
  intros Hok Hk H. unfold add_should_refresh_vtxos in H. apply bind_run_Ok in H as (l & w1 & H1 & H).
  apply to_refresh_run in H1 as (tip & fr & _ & Hr & Hl). apply bind_run_Ok in H as (t & w2 & Ht & H). unfold Effects.lift in Ht. injection Ht as Ht <-.
  set (extra := wv_vtxo <$> _) in *.
  assert (Hin : forall v, v ∈ l -> v ∈ List.filter spendable_b (rows (w_db w))).
  { intros v Hv. rewrite Hl in Hv. destruct (existsb _ _); [|by apply elem_of_nil in Hv].
    apply list_elem_of_In, filter_In in Hv as [Hv [Hs _]%andb_true_iff]. by apply list_elem_of_In, filter_In. }
  assert (Hex : forall v, v ∈ extra -> vtxo_id v ∉ vtxo_id <$> pt_inputs p /\ db_vtxos (w_db w) !! vtxo_id v = Some (mkWalletVtxo _ v VtxoState.Spendable)).
  { intros v (r & -> & [Hn Hr2]%list_elem_of_filter)%list_elem_of_fmap. split; [by rewrite elem_of_list_to_set in Hn|].
    apply spendable_row; [done|by apply Hin]. }
  assert (Hnd : NoDup (vtxo_id <$> extra)).
  { unfold extra. rewrite <- list_fmap_compose. eapply sublist_NoDup; [|apply fmap_sublist, sublist_filter].
    change (NoDup ((fun v => vtxo_id (wv_vtxo v)) <$> l)). rewrite Hl. destruct (existsb _ _); [by apply NoDup_filter_ids|constructor]. }
  destruct (_ <? t).
  - apply bind_run_Ok in H as (k & w3 & Hd & H). injection H as <- <-. apply derive_run in Hd as [_ Hown]; [|by apply (reads_derives _ _ Hr)].
    exists extra, [mkRequest t (new_pubkey (keypair_public_key k.1))]. cbn [pt_inputs pt_outputs pt_offboards]. split_and!; [done..| |done|done|].
    + cbn [fmap list_fmap req_amount]. apply amount_sum_Ok in Ht as [-> _]; [unfold total, sum_Z; cbn; lia|].
      apply Forall_forall. intros a (v & -> & Hv)%list_elem_of_fmap. apply Hex in Hv as [_ Hv]. by apply (ro_amount _ Hok) in Hv.
    + constructor; [eauto|constructor].
  - injection H as <- <-. apply extended_refl.
Qed.

Lemma add_or_keep_run p p' (w w' : W) : rows_ok (w_db w) -> keys_ok cfg (w_db w) -> add_or_keep cfg p w = (Ok p', w') ->
  derived w w' /\ extended p p' w w'.
Proof.
  intros Hok Hk H. unfold add_or_keep, mbind, M_bind, try_m in H. pose proof (keeps_add_should p w Hk) as Hd.
  destruct (add_should_refresh_vtxos cfg p w) as [[x|e|] w1] eqn:Ha; cbn in H; [| |done]; injection H as <- <-.
  - split; [exact Hd|]. by apply add_should_run in Ha.
  - split; [exact Hd|]. apply extended_refl.
Qed.

(** ** Into the round *)
Lemma join_dust p kind (w w' : W) st : join_next_round cfg p kind w = (Ok st, w') ->
  Forall (fun r => P2TR_DUST <= req_amount r) (pt_outputs p) /\ db_keys (w_db w') = db_keys (w_db w).
Proof.
  unfold join_next_round. intros H. apply bind_run_Ok in H as (? & w1 & H1 & H). unfold Effects.lift in H1. injection H1 as H1 <-.
  apply ensure_Ok, negb_true_iff in H1. split.
  { apply Forall_forall. intros r Hr. destruct (Z.ltb_spec (req_amount r) P2TR_DUST) as [Hlt|]; [|done]. exfalso.
    apply not_true_iff_false in H1. apply H1, existsb_exists. exists r. split; [by apply list_elem_of_In|by apply Z.ltb_lt]. }
  apply bind_run_Ok in H as (? & w2 & H2 & H). unfold Effects.lift in H2. injection H2 as _ <-.
  apply bind_run_Ok in H as (mid & w3 & Hm & H).
  assert (Hw3 : w_db w3 = w_db w).
  { destruct kind as [k|]; [|by injection Hm as _ <-]. apply bind_run_Ok in Hm as (u & w4 & Hu & Hm). unfold Effects.lift in Hu. injection Hu as _ <-.
    apply bind_run_Ok in Hm as (t & w5 & Ht & Hm). injection Ht as _ <-. apply bind_run_Ok in Hm as (id & w6 & Hid & Hm).
    injection Hm as _ <-. unfold on_mov, map_err_m, zoom in Hid. by injection Hid as _ <-. }
  apply bind_run_Ok in H as (id & w4 & Hs & H). injection H as _ <-. apply query_db_run in Hs as [-> _]. cbn [w_db].
  by rewrite store_round_keys, Hw3.
Qed.

Lemma total_perm l k : l ≡ₚ k -> total l = total k.
Proof. intros H. unfold total. by rewrite H. Qed.

(** C16. A refresh that is scheduled, when it succeeds: if no VTXO has to be
    refreshed, none is; otherwise the wallet joins a round with a participation
    that gives up every spendable VTXO close to its expiry, only VTXOs that were
    spendable and are locked for the round now, and each of them once; what it
    asks for is worth exactly as much, in outputs over the dust limit that
    belong to keys of the wallet. *)
Theorem maintenance_refresh_complete (w w' : W) r : rows_ok (w_db w) -> keys_ok cfg (w_db w) ->
  maybe_schedule_maintenance_refresh cfg w = (Ok r, w') ->
  exists tip, (chain_tip (w_net w)).1 = inr tip /\
  match r with
  | None => forall v, v ∈ rows (w_db w) -> spendable_b v = true -> must tip v = false
  | Some id => exists st, db_rounds (w_db w') !! id = Some st /\ let p := wr_participation st in
      (forall v, v ∈ rows (w_db w) -> spendable_b v = true -> must tip v = true -> vtxo_id (wv_vtxo v) ∈ vtxo_id <$> pt_inputs p) /\
      (forall v, v ∈ pt_inputs p -> db_vtxos (w_db w) !! vtxo_id v = Some (mkWalletVtxo _ v VtxoState.Spendable) /\
        state_of (w_db w') (vtxo_id v) = Some (VtxoState.Locked (wr_movement_id st))) /\
      NoDup (vtxo_id <$> pt_inputs p) /\ asked p = total (pt_inputs p) /\ pt_offboards p = [] /\
      Forall (fun r => P2TR_DUST <= req_amount r /\ exists pk, req_policy r = new_pubkey pk /\ own_key (w_db w') pk) (pt_outputs p)
  end.
Proof.
  intros Hok Hk H. unfold maybe_schedule_maintenance_refresh in H. apply bind_run_Ok in H as (vs & w1 & H1 & H).
  apply to_refresh_run in H1 as (tip & fr & Htip & Hr & Hvs). exists tip. split; [done|].
  assert (Hmust : forall v, v ∈ rows (w_db w) -> spendable_b v = true -> must tip v = true -> v ∈ vs).
  { intros v Hv Hs Hm. rewrite Hvs. rewrite (proj2 (existsb_exists _ _)).
    - apply list_elem_of_In, filter_In. split; [by apply list_elem_of_In|]. by rewrite Hs, (must_should tip fr v Hm).
    - exists v. split; [by apply list_elem_of_In|]. by rewrite Hs, Hm. }
  assert (Hin : forall v, v ∈ vs -> v ∈ List.filter spendable_b (rows (w_db w))).
  { intros v Hv. rewrite Hvs in Hv. destruct (existsb _ _); [|by apply elem_of_nil in Hv].
    apply list_elem_of_In, filter_In in Hv as [Hv [Hs _]%andb_true_iff]. by apply list_elem_of_In, filter_In. }
  case_bool_decide as Hz.
  { injection H as <- <-. intros v Hv Hs. apply nil_length_inv in Hz. subst vs. apply not_true_iff_false. intros Hm.
    by apply (Hmust v Hv Hs), elem_of_nil in Hm. }
  apply bind_run_Ok in H as (op & w2 & H2 & H). pose proof (reads_derives _ _ Hr Hk) as Hd1.
  apply build_refresh_run in H2 as [Hd2 H2]; [|by apply (rows_ok_reads _ _ Hr)|apply Hd1].
  destruct op as [p|]; [|by destruct vs]. destruct H2 as [[Hrows Hnd Hval Hoff Hkeys] Hids].
  apply bind_run_Ok in H as (p' & w3 & H3 & H). assert (Hok2 : rows_ok (w_db w2)).
  { destruct Hok as [Ho1 Ho2]. split; rewrite (dv_vtxos _ _ Hd2), (rd_vtxos _ _ Hr); auto. }
  apply add_or_keep_run in H3 as [Hd3 (extra & outs & Hi' & Ho' & Hf' & Hval' & Hnd' & Hex & Hkeys')]; [|done|apply Hd2].
  apply bind_run_Ok in H as (st & w4 & H4 & H). injection H as <- <-.
  pose proof (join_dust _ _ _ _ _ H4) as [Hdust Hk4]. destruct (join_spec cfg _ _ _ _ _ H4) as (Hp & _ & _ & _ & _ & Hlock & Hst).
  exists (sto_state st). split; [exact Hst|]. cbn zeta. rewrite Hp. clear Hst.
  assert (Hrow : forall v, v ∈ pt_inputs p' -> db_vtxos (w_db w) !! vtxo_id v = Some (mkWalletVtxo _ v VtxoState.Spendable)).
  { intros v Hv. rewrite Hi' in Hv. apply elem_of_app in Hv as [Hv|Hv].
    - destruct (Hrows v Hv) as (row & Hrow & <-). rewrite (rd_vtxos _ _ Hr) in Hrow.
      assert (Hx : vtxo_id (wv_vtxo row) ∈ (fun v => vtxo_id (wv_vtxo v)) <$> vs) by (rewrite <- Hids; by apply list_elem_of_fmap_2).
      apply list_elem_of_fmap in Hx as (x & Hid & Hx). apply Hin, spendable_row in Hx; [|done]. rewrite Hid in *. rewrite Hx in Hrow. by injection Hrow as <-.
    - destruct (Hex v Hv) as [_ Hrow]. by rewrite (dv_vtxos _ _ Hd2), (rd_vtxos _ _ Hr) in Hrow. }
  split_and!.
  - intros v Hv Hs Hm. rewrite Hi', fmap_app. apply elem_of_app. left. rewrite Hids. apply list_elem_of_fmap. exists v. split; [done|by apply Hmust].
  - intros v Hv. split; [by apply Hrow|]. apply Hlock. by apply list_elem_of_fmap_2.
  - rewrite Hi', fmap_app. apply NoDup_app. split_and!; [done| |done]. intros id Hid1 (v & -> & Hv)%list_elem_of_fmap. by destruct (Hex v Hv).
  - unfold asked in *. rewrite Ho', fmap_app, sum_Z_app, Hval, <- Hval', Hi', total_app. done.
  - by rewrite Hf'.
  - apply Forall_forall. intros r Hr2. split; [rewrite Forall_forall in Hdust; by apply Hdust|].
    assert (Hown : exists pk, req_policy r = new_pubkey pk /\ own_key (w_db w3) pk).
    { rewrite Ho' in Hr2. apply elem_of_app in Hr2 as [Hr2|Hr2].
      - rewrite Forall_forall in Hkeys. destruct (Hkeys r Hr2) as (pk & ? & Hpk). exists pk. split; [done|]. by apply (own_key_derives _ _ _ Hd3).
      - rewrite Forall_forall in Hkeys'. by apply Hkeys'. }
    destruct Hown as (pk & ? & i & Hi & Hpk). exists pk. split; [done|]. exists i. by rewrite Hk4.
Qed.

(** ** What the server makes of it *)

(** A participation as the wallet builds it: for a refresh, for VTXOs to
    offboard, or for a payment on chain, perhaps with more VTXOs to refresh. *)
Inductive built (w : W) (p : RoundParticipation) (w' : W) : Prop :=
  | built_refresh ids p0 w1 : build_refresh_participation cfg ids w = (Ok (Some p0), w1) -> add_or_keep cfg p0 w1 = (Ok p, w') -> built w p w'
  | built_offboard vtxos dest p0 w1 : NoDup (vtxo_id <$> vtxos) ->
      (forall v, v ∈ vtxos -> exists st, db_vtxos (w_db w) !! vtxo_id v = Some (mkWalletVtxo _ v st)) ->
      build_offboard_participation vtxos dest w = (Ok p0, w1) -> add_or_keep cfg p0 w1 = (Ok p, w') -> built w p w'
  | built_onchain spk sent p0 w1 : build_round_onchain_payment_participation cfg spk sent w = (Ok p0, w1) ->
      add_or_keep cfg p0 w1 = (Ok p, w') -> built w p w'.

(** What is brought pays for what is asked for; [feerate] is the server's rate
    for offboards. *)
Record balanced (feerate : Z) (p : RoundParticipation) : Prop := {
  bl_nodup : NoDup (vtxo_id <$> pt_inputs p);
  bl_amounts : Forall (fun v => 0 <= amount v) (pt_inputs p);
  bl_policies : Forall (fun r => exists pk, req_policy r = new_pubkey pk) (pt_outputs p);
  bl_fees : Forall (fun o => exists fee, offboard_fee o feerate = Ok fee /\ 0 <= ob_amount o + fee) (pt_offboards p);
  bl_value : asked p + sum_Z (offboard_cost feerate <$> pt_offboards p) <= total (pt_inputs p);
}.

Lemma check_inputs_total ins : forall seen sum, NoDup (vtxo_id <$> ins) -> (forall v, v ∈ ins -> vtxo_id v ∉ seen) ->
  Forall (fun v => 0 <= amount v) ins -> 0 <= sum -> sum + total ins <= MAX_MONEY -> check_inputs seen sum ins = Ok (sum + total ins).
Proof.
  induction ins as [|v ins IH]; intros seen sum Hnd Hs Hnn H0 Hmax; cbn [check_inputs]; [unfold total; cbn; f_equal; lia|].
  cbn [fmap list_fmap] in Hnd. apply NoDup_cons in Hnd as [Hv Hnd]. apply Forall_cons in Hnn as [Ha Hnn].
  assert (Ht : total (v :: ins) = amount v + total ins) by done. assert (Hti : 0 <= total ins) by (apply sum_Z_nonneg, Forall_fmap; done).
  rewrite Ht in Hmax |- *. unfold MAX_MONEY in *. unfold u_add. replace (in_width 64 (sum + amount v)) with true by (symmetry; apply in_width_spec; lia).
  cbn [mbind outcome_bind]. destruct (_ <? _) eqn:Hlt; [lia|]. rewrite bool_decide_false by (apply Hs; left).
  rewrite IH; [f_equal; lia|done| |done|lia|unfold MAX_MONEY; lia].
  intros x Hx. rewrite not_elem_of_union, not_elem_of_singleton. split; [|apply Hs; by right].
  intros He. apply Hv. rewrite <- He. by apply list_elem_of_fmap_2.
Qed.

Lemma check_outputs_total in_sum outs : forall sum, 0 <= sum -> in_sum < 2 ^ 64 ->
  Forall (fun r => P2TR_DUST <= req_amount r /\ exists pk, req_policy r = new_pubkey pk) (out_request <$> outs) ->
  sum + sum_Z (req_amount <$> (out_request <$> outs)) <= in_sum -> check_outputs in_sum sum outs = Ok (sum + sum_Z (req_amount <$> (out_request <$> outs))).
Proof.
  induction outs as [|o outs IH]; intros sum H0 Hw Hf Hle; cbn [check_outputs fmap list_fmap] in *; [f_equal; unfold sum_Z; cbn; lia|].
  rewrite sum_Z_cons in Hle |- *. apply Forall_cons in Hf as [[Hd (pk & Hpk)] Hf]. unfold out_request in Hd, Hpk.
  assert (Hrest : 0 <= sum_Z (req_amount <$> (out_request <$> outs))).
  { apply sum_Z_nonneg, Forall_fmap. eapply Forall_impl; [exact Hf|]. intros r [Hr _]. unfold P2TR_DUST in Hr. cbn. lia. }
  destruct (_ <? P2TR_DUST) eqn:Hlt; [lia|]. rewrite Hpk. cbn [new_pubkey]. unfold P2TR_DUST in *. unfold out_request in Hle at 1.
  unfold u_add. replace (in_width 64 _) with true by (symmetry; apply in_width_spec; lia). cbn [mbind outcome_bind].
  destruct (in_sum <? _) eqn:Hlt2; [lia|]. rewrite IH; [f_equal; unfold out_request at 2; lia|lia|done|done|lia].
Qed.

Lemma check_offboards_total feerate in_sum offs : forall sum, 0 <= sum -> in_sum < 2 ^ 64 ->
  Forall (fun o => P2TR_DUST <= ob_amount o /\ exists fee, offboard_fee o feerate = Ok fee /\ 0 <= ob_amount o + fee) offs ->
  sum + sum_Z (offboard_cost feerate <$> offs) <= in_sum -> check_offboards feerate in_sum sum offs = Ok tt.
Proof.
  induction offs as [|o offs IH]; intros sum H0 Hw Hf Hle; cbn [check_offboards fmap list_fmap] in *; [done|].
  rewrite sum_Z_cons in Hle. apply Forall_cons in Hf as [(Hd & fee & Hfee & Hc) Hf].
  assert (Hcost : offboard_cost feerate o = ob_amount o + fee) by (unfold offboard_cost; by rewrite Hfee).
  assert (Hrest : 0 <= sum_Z (offboard_cost feerate <$> offs)).
  { apply sum_Z_nonneg, Forall_fmap. eapply Forall_impl; [exact Hf|]. intros x (_ & fx & Hx & Hcx). cbn. unfold offboard_cost. by rewrite Hx. }
  destruct (_ <? P2TR_DUST) eqn:Hlt; [lia|]. rewrite Hfee. cbn [map_err mbind outcome_bind]. unfold u_add.
  replace (in_width 64 (ob_amount o + fee)) with true by (symmetry; apply in_width_spec; lia). cbn [mbind outcome_bind].
  replace (in_width 64 (sum + _)) with true by (symmetry; apply in_width_spec; lia). cbn [mbind outcome_bind].
  destruct (in_sum <? _) eqn:Hlt2; [lia|]. apply IH; [lia|done|done|lia].
Qed.

Lemma balanced_accepted feerate p sv outs : balanced feerate p -> offboard_feerate (co_data sv) = feerate ->
  Forall (fun r => P2TR_DUST <= req_amount r) (pt_outputs p) -> Forall (fun o => P2TR_DUST <= ob_amount o) (pt_offboards p) ->
  total (pt_inputs p) <= MAX_MONEY -> out_request <$> outs = pt_outputs p ->
  validate_payment_amounts sv (pt_inputs p) outs (pt_offboards p) = Ok tt.
Proof.
  intros [H1 H2 H3 H4 H5] <- Hd Ho Hmax Hout. unfold validate_payment_amounts. pose proof H2 as Hnn.
  assert (Hc : 0 <= sum_Z (offboard_cost (offboard_feerate (co_data sv)) <$> pt_offboards p)).
  { apply sum_Z_nonneg, Forall_fmap. eapply Forall_impl; [exact H4|]. intros o (fee & Hf & Hc). cbn. unfold offboard_cost. by rewrite Hf. }
  assert (Ha : 0 <= asked p).
  { apply sum_Z_nonneg, Forall_fmap. eapply Forall_impl; [exact Hd|]. intros r Hr. unfold P2TR_DUST in Hr. cbn. lia. }
  rewrite check_inputs_total by (try done; lia). cbn [mbind outcome_bind]. unfold MAX_MONEY in Hmax. unfold asked in *.
  rewrite check_outputs_total; [|lia|lia|rewrite Hout; apply Forall_forall; intros r Hr; rewrite Forall_forall in Hd, H3; split; [by apply Hd|by apply H3]
    |rewrite Hout; lia].
  cbn [mbind outcome_bind]. rewrite Hout. apply check_offboards_total; [lia|lia| |lia].
  apply Forall_forall. intros o Hin. rewrite Forall_forall in Ho, H4. split; [by apply Ho|by apply H4].
Qed.

Lemma extended_balanced feerate p p' (w w' : W) : rows_ok (w_db w) -> balanced feerate p -> extended p p' w w' -> balanced feerate p'.
Proof.
  intros Hok [H1 H2 H3 H4 H5] (extra & outs & Hi & Ho & Hf & Hval & Hnd & Hex & Hk). split.
  - rewrite Hi, fmap_app. apply NoDup_app. split_and!; [done| |done]. intros id Hid (v & -> & Hv)%list_elem_of_fmap. by destruct (Hex v Hv).
  - rewrite Hi. apply Forall_app. split; [done|]. apply Forall_forall. intros v Hv. destruct (Hex v Hv) as [_ Hrow]. by apply (ro_amount _ Hok) in Hrow.
  - rewrite Ho. apply Forall_app. split; [done|]. eapply Forall_impl; [exact Hk|]. intros r (pk & Hpk & _). eauto.
  - by rewrite Hf.
  - unfold asked in *. rewrite Ho, Hi, Hf, fmap_app, sum_Z_app, total_app. lia.
Qed.

Lemma offboard_balanced feerate vtxos dest p (w w' : W) : (forall s i, (get_ark_info s).1 = inr i -> ai_offboard_feerate i = feerate) ->
  NoDup (vtxo_id <$> vtxos) -> Forall (fun v => 0 <= amount v) vtxos ->
  build_offboard_participation vtxos dest w = (Ok p, w') -> balanced feerate p /\ w_db w' = w_db w.
Proof.
  intros Hfr Hnd Hnn H. unfold build_offboard_participation in H. apply bind_run_Ok in H as (? & w1 & H1 & H). apply on_srv_run in H1 as [-> _].
  apply bind_run_Ok in H as (info & w2 & H2 & H). apply on_srv_run in H2 as [-> Hinfo]. apply Hfr in Hinfo.
  apply bind_run_Ok in H as (? & w3 & H3 & H). unfold Effects.lift in H3. injection H3 as _ <-.
  apply bind_run_Ok in H as (fee & w4 & H4 & H). unfold expect_m, Effects.lift in H4.
  destruct (calculate_fee _ _) as [fee'|e|] eqn:Hfee; [|done..]. injection H4 as -> <-. rewrite Hinfo in Hfee.
  apply bind_run_Ok in H as (t & w5 & H5 & H). unfold Effects.lift in H5. injection H5 as H5 <-.
  apply amount_sum_Ok in H5 as [-> _]; [|by apply Forall_fmap].
  apply bind_run_Ok in H as (? & w6 & H6 & H). unfold Effects.lift in H6. injection H6 as H6 <-. apply ensure_Ok in H6. injection H as <- <-.
  split; [|done]. assert (Hle : fee <= sum_Z (amount <$> vtxos)) by lia. assert (0 <= sum_Z (amount <$> vtxos)) by (apply sum_Z_nonneg, Forall_fmap; done).
  split; cbn [pt_inputs pt_outputs pt_offboards]; [done|done|constructor| |].
  - constructor; [|constructor]. exists fee. unfold offboard_fee. cbn [ob_script_pubkey ob_amount]. split; [done|lia].
  - unfold asked, offboard_cost, offboard_fee. cbn [pt_outputs fmap list_fmap ob_script_pubkey ob_amount]. rewrite Hfee. cbn [ok_value].
    unfold total, sum_Z in *. cbn in *. lia.
Qed.

Lemma onchain_balanced feerate spk sent p (w w' : W) : rows_ok (w_db w) -> keys_ok cfg (w_db w) ->
  (forall s i, (get_ark_info s).1 = inr i -> ai_offboard_feerate i = feerate) ->
  build_round_onchain_payment_participation cfg spk sent w = (Ok p, w') -> balanced feerate p /\ derived w w'.
Proof.
  intros Hok Hk Hfr H. unfold build_round_onchain_payment_participation in H. apply bind_run_Ok in H as (? & w1 & H1 & H). apply on_srv_run in H1 as [-> _].
  apply bind_run_Ok in H as (info & w2 & H2 & H). apply on_srv_run in H2 as [-> Hinfo]. apply Hfr in Hinfo.
  apply bind_run_Ok in H as (fee & w3 & H3 & H). unfold Effects.lift in H3. injection H3 as Hfee <-. rewrite Hinfo in Hfee.
  apply bind_run_Ok in H as (req & w4 & H4 & H). unfold Effects.lift in H4. injection H4 as H4 <-. apply u_add_Ok in H4 as [-> Hreq].
  cbn [ob_amount] in Hreq. apply bind_run_Ok in H as (ins & w5 & H5 & H).
  apply select_vtxos_spec in H5 as [Hr (Hge & _ & Hnd & Hrows)]; [|done]. cbn [w_db] in Hr, Hrows. cbn [ob_amount] in Hge.
  assert (Hd5 : derived w w5) by (destruct (reads_derives _ _ Hr Hk) as [? ? ? ?]; by split).
  apply bind_run_Ok in H as (t & w6 & H6 & H). unfold Effects.lift in H6. injection H6 as H6 <-.
  assert (Hnn : Forall (fun v => 0 <= amount v) ins).
  { apply Forall_forall. intros v Hv. destruct (Hrows v Hv) as [Hrow _]. by apply (ro_amount _ Hok) in Hrow. }
  apply amount_sum_Ok in H6 as [-> _]; [|by apply Forall_fmap]. fold (total ins) in H.
  apply bind_run_Ok in H as (change & w7 & H7 & H). injection H as <- <-. cbn [ob_amount] in H7.
  assert (Hch : derived w w7 /\ match change with Some c => req_amount c = total ins - (sent + fee) /\ exists pk, req_policy c = new_pubkey pk | None => True end).
  { destruct (_ <? sent); [done|]. apply bind_run_Ok in H7 as (lim & w8 & H8 & H7). unfold Effects.lift in H8. injection H8 as _ <-.
    destruct (_ <=? lim); [injection H7 as <- <-; by split|]. apply bind_run_Ok in H7 as (c & w9 & H9 & H7). unfold Effects.lift in H9. injection H9 as H9 <-.
    apply bind_run_Ok in H7 as (k & w10 & H10 & H7). injection H7 as <- <-. unfold u_sub in H9. apply expect_Ok, checked_sub_Some in H9 as [_ ->].
    split; [|split; [done|eauto]]. apply (transitivity (R := derives) (fun _ => Hd5) (fun Hk5 => proj1 (derive_run _ _ _ Hk5 H10)) Hk). }
  destruct Hch as [Hd7 Hch]. split; [|exact Hd7]. split; cbn [pt_inputs pt_outputs pt_offboards]; [done|done| | |].
  - destruct change as [c|]; [|constructor]. constructor; [apply Hch|constructor].
  - constructor; [|constructor]. exists fee. cbn [ob_amount]. split; [exact Hfee|lia].
  - assert (Hc : offboard_cost feerate (mkOffboard spk sent) = sent + fee) by (unfold offboard_cost; by rewrite Hfee).
    unfold asked. cbn [pt_outputs]. destruct change as [c|]; cbn; rewrite Hc; [destruct Hch as [-> _]|]; lia.
Qed.

Lemma built_balanced feerate p (w w' : W) : rows_ok (w_db w) -> keys_ok cfg (w_db w) ->
  (forall s i, (get_ark_info s).1 = inr i -> ai_offboard_feerate i = feerate) -> built w p w' -> balanced feerate p.
Proof.
  intros Hok Hk Hfr H.
  assert (Hmove : forall w1 : W, derived w w1 -> rows_ok (w_db w1) /\ keys_ok cfg (w_db w1)).
  { intros w1 Hd. split; [|apply Hd]. destruct Hok as [Ho1 Ho2]. split; rewrite (dv_vtxos _ _ Hd); auto. }
  destruct H as [ids p0 w1 H1 H2|vtxos dest p0 w1 Hnd Hin H1 H2|spk sent p0 w1 H1 H2].
  - apply build_refresh_run in H1 as [Hd [[Hrows Hnd Hval Hoff Hkeys] _]]; [|done|done]. destruct (Hmove _ Hd) as [Hok1 Hk1].
    apply add_or_keep_run in H2 as [_ Hext]; [|done|done]. eapply extended_balanced; [exact Hok1| |exact Hext]. split.
    + done.
    + apply Forall_forall. intros v Hv. destruct (Hrows v Hv) as (r & Hr & <-). by apply (ro_amount _ Hok) in Hr.
    + eapply Forall_impl; [exact Hkeys|]. intros r (pk & Hpk & _). eauto.
    + rewrite Hoff. constructor.
    + rewrite Hoff, Hval. cbn. lia.
  - apply (offboard_balanced feerate) in H1 as [Hb Hdb]; [|done|done|].
    + rewrite <- Hdb in Hok, Hk. apply add_or_keep_run in H2 as [_ Hext]; [|done|done]. by eapply extended_balanced.
    + apply Forall_forall. intros v Hv. destruct (Hin v Hv) as (st & Hr). by apply (ro_amount _ Hok) in Hr.
  - apply (onchain_balanced feerate) in H1 as [Hb Hd]; [|done..]. destruct (Hmove _ Hd) as [Hok1 Hk1].
    apply add_or_keep_run in H2 as [_ Hext]; [|done|done]. by eapply extended_balanced.
Qed.

End Facts.

(** ** Witnesses: a wallet with a VTXO that expires soon, one that is not worth
    its exit, one that is locked and one that is left alone. *)
Definition with_terms (amt expiry : Z) (b : Byte.byte) : Vtxo (B := model) :=
  mkVtxo (B := model) (policy sample_vtxo) amt expiry (server_pubkey sample_vtxo) (exit_delta sample_vtxo)
    (anchor_point sample_vtxo) (genesis sample_vtxo) (mkOutPoint (Concrete.hash [b]) 0).
Definition near_vtxo := with_terms 4000 105 Byte.x41.
Definition small_vtxo := with_terms 1 2000 Byte.x42.
Definition locked_vtxo := with_terms 7000 105 Byte.x43.

Definition refresh_tables : RoundTables (B := model) :=
  mkRoundTables (B := model)
    (mkSqlite (B := model)
       (<[vtxo_id near_vtxo := (near_vtxo, VtxoState.Spendable, [])]> (<[vtxo_id small_vtxo := (small_vtxo, VtxoState.Spendable, [])]>
        (<[vtxo_id locked_vtxo := (locked_vtxo, VtxoState.Locked None, [])]> {[ vtxo_id sample_vtxo := (sample_vtxo, VtxoState.Spendable, []) ]})))
       ∅ ∅ []) ∅ 0 ∅.
Definition refresh_w0 : SampleWorld :=
  mkWorld (PT := sample_types) refresh_tables quiet_net0 (mkSampleServer true []) (mkManager {[ 0 := "bark.round"%string ]} ∅, mkTables ∅ 0 []).

Lemma refresh_rows : rows_ok (B := model) (w_db refresh_w0).
Proof.
  assert (H : forall id v, db_vtxos (w_db refresh_w0) !! id = Some v -> id = vtxo_id (wv_vtxo v) /\ 0 <= amount (wv_vtxo v)).
  { intros id v. cbn [db_vtxos round_tables_persister sqlite rt_db refresh_tables refresh_w0 w_db sq_vtxos]. rewrite lookup_fmap.
    intros (row & Hrow & ->)%fmap_Some. repeat (apply lookup_insert_Some in Hrow as [[<- <-]|[_ Hrow]]; [split; [reflexivity|cbn; lia]|]).
    apply lookup_singleton_Some in Hrow as [<- <-]. split; [reflexivity|cbn; lia]. }
  split; intros id v Hv; [symmetry; by apply H|by eapply H].
Qed.

Lemma refresh_keys : keys_ok (B := model) sample_cfg (w_db refresh_w0).
Proof. exists 0. split; [lia|]. intros i. rewrite decide_False by lia. reflexivity. Qed.

Definition refresh_run : outcome string (option Z) * SampleWorld :=
  maybe_schedule_maintenance_refresh (B := model) (F := col_fees) sample_cfg refresh_w0.

Lemma maintenance_refresh_complete_witness : exists st, db_rounds (w_db refresh_run.2) !! 1 = Some st /\
  vtxo_id near_vtxo ∈ vtxo_id <$> pt_inputs (wr_participation st) /\
  asked (wr_participation st) = total (pt_inputs (wr_participation st)) /\ NoDup (vtxo_id <$> pt_inputs (wr_participation st)).
Proof.
  assert (Hrun : refresh_run = (Ok (Some 1), refresh_run.2)).
  { assert (H : refresh_run.1 = Ok (Some 1)) by vm_eq. destruct refresh_run as [o w]. cbn in H. by rewrite H. }
  destruct (maintenance_refresh_complete (B := model) (F := col_fees) sample_cfg refresh_w0 refresh_run.2 (Some 1)
    refresh_rows refresh_keys Hrun) as (tip & Htip & st & Hst & Hmust & _ & Hnd & Hval & _).
  injection Htip as <-. exists st. split; [exact Hst|]. split; [|split; [exact Hval|exact Hnd]].
  apply (Hmust (mkWalletVtxo model near_vtxo VtxoState.Spendable)); [|reflexivity|reflexivity].
  apply (elem_of_rows (B := model)); [apply refresh_rows|]. vm_eq.
Defined.

(** A payment of 3500 sat on chain, from two of the VTXOs. *)
Definition pay_spk : bytes := p2tr_script (Bitcoin := model) [Byte.x07].
Definition pay_run1 := build_round_onchain_payment_participation (B := model) (F := col_fees) sample_cfg pay_spk 3500 refresh_w0.
Definition pay_p1 : RoundParticipation (B := model) := match pay_run1.1 with Ok p => p | _ => mkParticipation (B := model) [] [] [] end.
Definition pay_run2 := add_or_keep (B := model) (F := col_fees) sample_cfg pay_p1 pay_run1.2.
Definition pay_p2 : RoundParticipation (B := model) := match pay_run2.1 with Ok p => p | _ => pay_p1 end.
Definition pay_outs : list (VtxoParticipant (B := model)) :=
  (fun r => mkParticipant (B := model) (mkSignedRequest (B := model) r None) []) <$> pt_outputs pay_p2.



(** A selection of 2500 sat that do not expire before height 1000. *)
Lemma select_vtxos_covers_witness : exists vs w', select_vtxos_to_cover (B := model) 2500 (Some 1000) refresh_w0 = (Ok vs, w') /\
  2500 <= total (B := model) vs /\ NoDup (vtxo_id <$> vs).
Proof.
  pose proof (fun l => select_vtxos_covers (B := model) 2500 (Some 1000) refresh_w0 l refresh_rows) as Hs.
  lazymatch type of Hs with forall l, ?q = inr l -> _ =>
    assert (Hq : (match q with inr _ => true | inl _ => false end) = true) by vm_eq; destruct q as [e|l]; [discriminate Hq|] end.
  destruct (Hs l eq_refl) as (vs & w' & H1 & _ & H2 & _ & H3 & _).
  - assert (H : length (List.filter (eligible (B := model) (Some 1000)) (rows (w_db refresh_w0))) = 2%nat) by vm_eq.
    intros Hn. apply (f_equal length) in Hn. pose proof (eq_trans (eq_sym H) Hn) as H2'. discriminate H2'.
  - assert (H : total (B := model) (wv_vtxo <$> List.filter (eligible (B := model) (Some 1000)) (rows (w_db refresh_w0))) = 3001) by vm_eq.
    refine (eq_ind_r (fun t => 2500 <= t < 2 ^ 64) _ H). cbn beta. lia.
  - exists vs, w'. split; [exact H1|]. split; [exact H2|exact H3].
Defined.
