(* ===== verification/WalletTables.v ===== *)
(** * Lightning payments and boards in the database (bark/src/persist/models.rs,
      bark/src/persist/sqlite/query.rs)

    [LightningPersister] and [BoardPersister] are the parts of the trait
    [BarkPersister] for lightning payments in both directions and for pending
    boards; [WalletDbLaws] says what the wallet relies on: every call changes
    its own table only, and nothing when it fails.  [WalletTables] implements
    them with the tables of the sqlite backend, next to those of
    [WalletRoundState]. *)
From stdpp Require Import gmap sorting.
From S2P Require Import Prelude Effects Bitcoin Concrete Policy Vtxo ChainSource ExitStates Persist Movement WalletRoundState WalletKeys.

Open Scope Z_scope.

(** Invoices: types of other crates.  [Invoice] is the type of both kinds of
    them. *)
Class LightningTypes `{PT : PaymentTypes} := {
  Bolt11Invoice : Type;
  parse_bolt11 : string -> option Bolt11Invoice;
  amount_milli_satoshis : Bolt11Invoice -> option Z;
  bolt11_payment_hash : Bolt11Invoice -> bytes;
  invoice_bolt11 : Bolt11Invoice -> Invoice;
  invoice_payment_hash : Invoice -> bytes;
}.

(** ** The records (persist/models.rs) *)
Section Models.
Context `{B : Bitcoin} `{LT : LightningTypes}.

Record LightningReceive := mkReceive {
  lr_payment_hash : bytes; lr_payment_preimage : bytes; lr_invoice : Bolt11Invoice; lr_preimage_revealed_at : option Z;
  lr_htlc_vtxos : option (list WalletVtxo); lr_htlc_recv_cltv_delta : Z; lr_movement_id : option Z; lr_finished_at : option Z }.

Record LightningSend := mkSend {
  ls_invoice : Invoice; ls_amount : Z; ls_htlc_vtxos : list WalletVtxo; ls_movement_id : Z; ls_preimage : option bytes }.

Record PendingBoard := mkPendingBoard {
  pb_funding_tx : Transaction; pb_vtxos : list bytes; pb_amount : Z; pb_movement_id : Z }.

(** The rows: VTXOs are kept by their ids. *)
Record ReceiveRow := mkReceiveRow {
  rr_preimage : bytes; rr_invoice : Bolt11Invoice; rr_revealed_at : option Z; rr_htlc_vtxo_ids : option (list bytes);
  rr_cltv_delta : Z; rr_movement_id : option Z; rr_finished_at : option Z; rr_created_at : Z }.

Record SendRow := mkSendRow {
  sr_invoice : Invoice; sr_amount : Z; sr_htlc_vtxo_ids : list bytes; sr_movement_id : Z; sr_preimage : option bytes;
  sr_finished_at : option Z }.

Record BoardRow := mkBoardRow { br_amount : Z; br_funding_tx : Transaction; br_movement_id : Z }.

(** What an update sets. *)
Definition set_revealed (t : Z) (r : ReceiveRow) : ReceiveRow :=
  mkReceiveRow (rr_preimage r) (rr_invoice r) (Some t) (rr_htlc_vtxo_ids r) (rr_cltv_delta r) (rr_movement_id r) (rr_finished_at r) (rr_created_at r).
Definition set_htlcs (ids : list bytes) (movement_id : Z) (r : ReceiveRow) : ReceiveRow :=
  mkReceiveRow (rr_preimage r) (rr_invoice r) (rr_revealed_at r) (Some ids) (rr_cltv_delta r) (Some movement_id) (rr_finished_at r) (rr_created_at r).
Definition set_finished (t : Z) (r : ReceiveRow) : ReceiveRow :=
  mkReceiveRow (rr_preimage r) (rr_invoice r) (rr_revealed_at r) (rr_htlc_vtxo_ids r) (rr_cltv_delta r) (rr_movement_id r) (Some t) (rr_created_at r).
Definition receive_new (preimage : bytes) (invoice : Bolt11Invoice) (cltv_delta : Z) (t : Z) : ReceiveRow :=
  mkReceiveRow preimage invoice None None cltv_delta None None t.
Definition set_send_finished (preimage : option bytes) (t : Z) (r : SendRow) : SendRow :=
  mkSendRow (sr_invoice r) (sr_amount r) (sr_htlc_vtxo_ids r) (sr_movement_id r) preimage (Some t).

(** The record a row stands for, given the VTXOs the ids are those of. *)
Definition receive_record (payment_hash : bytes) (r : ReceiveRow) (htlcs : option (list WalletVtxo)) : LightningReceive :=
  mkReceive payment_hash (rr_preimage r) (rr_invoice r) (rr_revealed_at r) htlcs (rr_cltv_delta r) (rr_movement_id r) (rr_finished_at r).
Definition send_record (r : SendRow) (htlcs : list WalletVtxo) : LightningSend :=
  mkSend (sr_invoice r) (sr_amount r) htlcs (sr_movement_id r) (sr_preimage r).
Definition board_record (id : bytes) (r : BoardRow) : PendingBoard :=
  mkPendingBoard (br_funding_tx r) [id] (br_amount r) (br_movement_id r).

(** ** The database (persist/mod.rs)

    What the database reads from its clock is an argument. *)
Class LightningPersister (db : Type) := {
  store_lightning_receive : bytes -> bytes -> Bolt11Invoice -> Z -> Z -> ext db string unit;
  get_all_pending_lightning_receives : ext db string (list LightningReceive);
  set_preimage_revealed : bytes -> Z -> ext db string unit;
  update_lightning_receive : bytes -> list bytes -> Z -> ext db string unit;
  fetch_lightning_receive_by_payment_hash : bytes -> ext db string (option LightningReceive);
  finish_pending_lightning_receive : bytes -> Z -> ext db string unit;
  store_new_pending_lightning_send : Invoice -> Z -> list bytes -> Z -> ext db string LightningSend;
  get_all_pending_lightning_send : ext db string (list LightningSend);
  finish_lightning_send : bytes -> option bytes -> Z -> ext db string unit;
  remove_lightning_send : bytes -> ext db string unit;
  get_lightning_send : bytes -> ext db string (option LightningSend);
  (* the contents of the tables *)
  db_receives : db -> gmap bytes ReceiveRow;
  db_sends : db -> gmap bytes SendRow;
}.

Class BoardPersister (db : Type) := {
  store_pending_board : Vtxo -> Transaction -> Z -> ext db string unit;
  remove_pending_board : bytes -> ext db string unit;
  get_all_pending_board_ids : ext db string (list bytes);
  get_pending_board_by_vtxo_id : bytes -> ext db string (option PendingBoard);
  (* the contents of the table *)
  db_boards : db -> gmap bytes BoardRow;
}.
End Models.

(** ** The laws *)
Section Laws.
Context `{B : Bitcoin} `{LT : LightningTypes}.

(** The tables of the other interfaces, and the ones of this file. *)
Definition core_tables {db : Type} `{!Persister db, !RoundPersister db, !KeyPersister db} (s : db) :=
  (db_vtxos s, db_exits s, db_rounds s, db_keys s).
Definition payment_tables {db : Type} `{!LightningPersister db, !BoardPersister db} (s : db) := (db_receives s, db_sends s, db_boards s).

(** The VTXOs with these ids, when all of them are known. *)
Definition vtxos_of {db : Type} `{!Persister db} (s : db) (ids : list bytes) : option (list WalletVtxo) := mapM (fun id => db_vtxos s !! id) ids.

(** A record that was read is the one of its row. *)
Definition receive_read {db : Type} `{!Persister db, !LightningPersister db} (s : db) (r : LightningReceive) : Prop :=
  exists row, db_receives s !! lr_payment_hash r = Some row /\ r = receive_record (lr_payment_hash r) row (lr_htlc_vtxos r) /\
  match rr_htlc_vtxo_ids row, lr_htlc_vtxos r with
  | Some ids, Some vs => vtxos_of s ids = Some vs
  | None, None => True
  | _, _ => False
  end.
Definition send_read {db : Type} `{!Persister db, !LightningPersister db} (s : db) (h : bytes) (r : LightningSend) : Prop :=
  exists row, db_sends s !! h = Some row /\ r = send_record row (ls_htlc_vtxos r) /\ vtxos_of s (sr_htlc_vtxo_ids row) = Some (ls_htlc_vtxos r).

(** What a call does: it answers, and changes one table or nothing. *)
Definition receives_change {db A : Type} `{!Persister db, !RoundPersister db, !KeyPersister db, !LightningPersister db, !BoardPersister db}
    (r : (string + A) * db) (s : db) (f : A -> gmap bytes ReceiveRow -> gmap bytes ReceiveRow) : Prop :=
  core_tables r.2 = core_tables s /\ db_sends r.2 = db_sends s /\ db_boards r.2 = db_boards s /\
  db_receives r.2 = match r.1 with inr a => f a (db_receives s) | inl _ => db_receives s end.
Definition sends_change {db A : Type} `{!Persister db, !RoundPersister db, !KeyPersister db, !LightningPersister db, !BoardPersister db}
    (r : (string + A) * db) (s : db) (f : A -> gmap bytes SendRow -> gmap bytes SendRow) : Prop :=
  core_tables r.2 = core_tables s /\ db_receives r.2 = db_receives s /\ db_boards r.2 = db_boards s /\
  db_sends r.2 = match r.1 with inr a => f a (db_sends s) | inl _ => db_sends s end.
Definition boards_change {db A : Type} `{!Persister db, !RoundPersister db, !KeyPersister db, !LightningPersister db, !BoardPersister db}
    (r : (string + A) * db) (s : db) (f : A -> gmap bytes BoardRow -> gmap bytes BoardRow) : Prop :=
  core_tables r.2 = core_tables s /\ db_receives r.2 = db_receives s /\ db_sends r.2 = db_sends s /\
  db_boards r.2 = match r.1 with inr a => f a (db_boards s) | inl _ => db_boards s end.
Definition only_reads {db A : Type} `{!Persister db, !RoundPersister db, !KeyPersister db, !LightningPersister db, !BoardPersister db}
    (r : (string + A) * db) (s : db) (P : A -> Prop) : Prop :=
  core_tables r.2 = core_tables s /\ payment_tables r.2 = payment_tables s /\ forall a, r.1 = inr a -> P a.

Class WalletDbLaws (db : Type) {P : Persister db} {R : RoundPersister db} {K : KeyPersister db} {L : LightningPersister db} {Bp : BoardPersister db} := {
  (* receives *)
  store_receive_law : forall h p inv delta t s,
    receives_change (store_lightning_receive h p inv delta t s) s (fun _ => <[h := receive_new p inv delta t]>) /\
    ((store_lightning_receive h p inv delta t s).1 = inr tt -> db_receives s !! h = None);
  pending_receives_law : forall s, only_reads (get_all_pending_lightning_receives s) s (fun l =>
    forall r, r ∈ l -> receive_read s r /\ lr_finished_at r = None);
  set_revealed_law : forall h t s, receives_change (set_preimage_revealed h t s) s (fun _ => alter (set_revealed t) h);
  update_receive_law : forall h ids mid s, receives_change (update_lightning_receive h ids mid s) s (fun _ => alter (set_htlcs ids mid) h) /\
    ((update_lightning_receive h ids mid s).1 = inr tt -> forall id, id ∈ ids -> is_Some (db_vtxos s !! id));
  fetch_receive_law : forall h s, only_reads (fetch_lightning_receive_by_payment_hash h s) s (fun o =>
    match o with Some r => lr_payment_hash r = h /\ receive_read s r | None => db_receives s !! h = None end);
  finish_receive_law : forall h t s, receives_change (finish_pending_lightning_receive h t s) s (fun _ => alter (set_finished t) h);
  (* sends *)
  store_send_law : forall inv a ids mid s,
    sends_change (store_new_pending_lightning_send inv a ids mid s) s (fun _ => <[invoice_payment_hash inv := mkSendRow inv a ids mid None None]>) /\
    forall r, (store_new_pending_lightning_send inv a ids mid s).1 = inr r -> db_sends s !! invoice_payment_hash inv = None /\
      exists vs, vtxos_of s ids = Some vs /\ r = mkSend inv a vs mid None;
  pending_sends_law : forall s, only_reads (get_all_pending_lightning_send s) s (fun l =>
    forall r, r ∈ l -> exists h, send_read s h r);
  finish_send_law : forall h p t s, sends_change (finish_lightning_send h p t s) s (fun _ => alter (set_send_finished p t) h);
  remove_send_law : forall h s, sends_change (remove_lightning_send h s) s (fun _ => delete h);
  get_send_law : forall h s, only_reads (get_lightning_send h s) s (fun o =>
    match o with Some r => send_read s h r | None => db_sends s !! h = None end);
  (* boards *)
  store_board_law : forall v tx mid s,
    boards_change (store_pending_board v tx mid s) s (fun _ => <[vtxo_id v := mkBoardRow (amount v) tx mid]>) /\
    ((store_pending_board v tx mid s).1 = inr tt -> db_boards s !! vtxo_id v = None);
  remove_board_law : forall id s, boards_change (remove_pending_board id s) s (fun _ => delete id);
  board_ids_law : forall s, only_reads (get_all_pending_board_ids s) s (fun l => l ≡ₚ (map_to_list (db_boards s)).*1);
  get_board_law : forall id s, only_reads (get_pending_board_by_vtxo_id id s) s (fun o => o = board_record id <$> db_boards s !! id);
  (* the calls of the other interfaces *)
  store_vtxos_frame : forall l s, payment_tables (store_vtxos l s).2 = payment_tables s /\ db_exits (store_vtxos l s).2 = db_exits s;
  store_vtxos_once : forall l s, (store_vtxos l s).1 = inr tt -> NoDup ((fun p : Vtxo * VtxoState.t => vtxo_id p.1) <$> l);
  get_wallet_vtxo_frame : forall id s, payment_tables (get_wallet_vtxo id s).2 = payment_tables s;
  get_by_state_frame : forall ks s, payment_tables (get_vtxos_by_state ks s).2 = payment_tables s;
  update_state_frame : forall id st al s, payment_tables (update_vtxo_state_checked id st al s).2 = payment_tables s;
  store_exit_frame : forall e s, payment_tables (store_exit_vtxo_entry e s).2 = payment_tables s /\
    db_rounds (store_exit_vtxo_entry e s).2 = db_rounds s /\ db_keys (store_exit_vtxo_entry e s).2 = db_keys s;
  store_key_frame : forall i pk s, payment_tables (store_vtxo_key i pk s).2 = payment_tables s /\ db_exits (store_vtxo_key i pk s).2 = db_exits s;
  last_index_frame : forall s, payment_tables (get_last_vtxo_key_index s).2 = payment_tables s /\ db_exits (get_last_vtxo_key_index s).2 = db_exits s;
  key_idx_frame : forall pk s, payment_tables (get_public_key_idx pk s).2 = payment_tables s /\ db_exits (get_public_key_idx pk s).2 = db_exits s;
}.
End Laws.

(** ** The sqlite backend

    The rows of [bark_pending_lightning_receive] and [bark_lightning_send] by
    their payment hash, and those of [bark_pending_board]. *)
Section Tables.
Context `{B : Bitcoin} `{LT : LightningTypes}.

Record WalletTables := mkWalletTables {
  wt_rt : RoundTables; wt_receives : gmap bytes ReceiveRow; wt_sends : gmap bytes SendRow; wt_boards : gmap bytes BoardRow }.

Definition on_rt {A} (f : ext RoundTables string A) : ext WalletTables string A := fun s =>
  ((f (wt_rt s)).1, mkWalletTables (f (wt_rt s)).2 (wt_receives s) (wt_sends s) (wt_boards s)).

#[export] Instance wallet_tables_persister : Persister WalletTables := {
  store_vtxos l := on_rt (store_vtxos l);
  get_wallet_vtxo id := on_rt (get_wallet_vtxo id);
  get_vtxos_by_state ks := on_rt (get_vtxos_by_state ks);
  update_vtxo_state_checked id st allowed := on_rt (update_vtxo_state_checked id st allowed);
  store_exit_vtxo_entry e := on_rt (store_exit_vtxo_entry e);
  remove_exit_vtxo_entry id := on_rt (remove_exit_vtxo_entry id);
  get_exit_vtxo_entries := on_rt get_exit_vtxo_entries;
  store_exit_child_tx id tx o := on_rt (store_exit_child_tx id tx o);
  get_exit_child_tx id := on_rt (get_exit_child_tx id);
  db_vtxos s := db_vtxos (wt_rt s);
  db_exits s := db_exits (wt_rt s);
}.

#[export] Instance wallet_tables_rounds : RoundPersister WalletTables := {
  store_round_state_lock_vtxos st := on_rt (store_round_state_lock_vtxos st);
  update_round_state st := on_rt (update_round_state st);
  remove_round_state id := on_rt (remove_round_state id);
  load_round_states := on_rt load_round_states;
  get_public_key_idx pk := on_rt (get_public_key_idx pk);
  db_rounds s := db_rounds (wt_rt s);
}.

#[export] Instance wallet_tables_keys : KeyPersister WalletTables := {
  store_vtxo_key i pk := on_rt (store_vtxo_key i pk);
  get_last_vtxo_key_index := on_rt get_last_vtxo_key_index;
  db_keys s := db_keys (wt_rt s);
}.

#[export] Instance wallet_tables_persister_laws : PersisterLaws WalletTables.
Proof.
  split; intros; cbn [db_vtxos db_exits wallet_tables_persister get_wallet_vtxo update_vtxo_state_checked store_exit_vtxo_entry
    remove_exit_vtxo_entry get_exit_vtxo_entries store_exit_child_tx get_exit_child_tx get_vtxos_by_state]; unfold on_rt; cbn [fst snd wt_rt];
    [apply get_wallet_vtxo_db|apply update_vtxo_state_db|apply store_exit_vtxo_entry_db|apply remove_exit_vtxo_entry_db
    |apply get_exit_vtxo_entries_db|apply exit_child_tx_db|apply get_exit_child_tx_db|apply get_vtxos_by_state_db].
Qed.

#[export] Instance wallet_tables_round_laws : RoundPersisterLaws WalletTables.
Proof.
  split; intros; cbn [db_vtxos db_rounds wallet_tables_persister wallet_tables_rounds store_round_state_lock_vtxos update_round_state
    remove_round_state load_round_states get_public_key_idx update_vtxo_state_checked store_vtxos]; unfold on_rt; cbn [fst snd wt_rt];
    [apply store_round_db|apply update_round_db|apply remove_round_db|apply load_rounds_db|apply get_public_key_idx_db
    |apply update_vtxo_state_rounds|apply store_vtxos_db].
Qed.

#[export] Instance wallet_tables_key_laws : KeyPersisterLaws WalletTables.
Proof.
  split; intros; cbn [db_vtxos db_rounds db_keys wallet_tables_persister wallet_tables_rounds wallet_tables_keys store_vtxo_key
    get_last_vtxo_key_index get_public_key_idx get_vtxos_by_state get_wallet_vtxo store_round_state_lock_vtxos update_vtxo_state_checked store_vtxos];
    unfold on_rt; cbn [fst snd wt_rt];
    [apply store_vtxo_key_db|apply get_last_index_db|apply get_key_idx_db|apply get_by_state_db|apply get_wallet_vtxo_keys
    |apply store_round_keys|apply update_vtxo_state_keys|apply store_vtxos_keys].
Qed.

(** A query of the tables of this file, which fails when a fault is due. *)
Definition wt_query {A} (f : WalletTables -> (string + A) * WalletTables) : ext WalletTables string A := fun s =>
  let r := wt_rt s in let d := rt_db r in
  let s' := mkWalletTables (mkRoundTables (mkSqlite (sq_vtxos d) (sq_exits d) (sq_children d) (tail (sq_faults d))) (rt_rounds r) (rt_last r) (rt_keys r))
    (wt_receives s) (wt_sends s) (wt_boards s) in
  match head (sq_faults d) with Some true => (inl "database error"%string, s') | _ => f s' end.

Definition set_receives (m : gmap bytes ReceiveRow) (s : WalletTables) : WalletTables := mkWalletTables (wt_rt s) m (wt_sends s) (wt_boards s).
Definition set_sends (m : gmap bytes SendRow) (s : WalletTables) : WalletTables := mkWalletTables (wt_rt s) (wt_receives s) m (wt_boards s).
Definition set_boards (m : gmap bytes BoardRow) (s : WalletTables) : WalletTables := mkWalletTables (wt_rt s) (wt_receives s) (wt_sends s) m.

(** Reading the VTXOs of a row: all have to be there. *)
Definition get_htlc_vtxos (s : WalletTables) (ids : option (list bytes)) : string + option (list WalletVtxo) :=
  match ids with
  | Some ids => match vtxos_of s ids with Some vs => inr (Some vs) | None => inl "no vtxo found"%string end
  | None => inr None
  end.

Definition row_to_receive (s : WalletTables) (h : bytes) (row : ReceiveRow) : string + LightningReceive :=
  match get_htlc_vtxos s (rr_htlc_vtxo_ids row) with inr vs => inr (receive_record h row vs) | inl e => inl e end.

(** The rows in turn, up to the first that cannot be read. *)
Fixpoint read_rows {R A} (f : R -> string + A) (rows : list R) : string + list A :=
  match rows with
  | [] => inr []
  | row :: rows =>
      match f row with
      | inr a => match read_rows f rows with inr l => inr (a :: l) | inl e => inl e end
      | inl e => inl e
      end
  end.

(** The payment hash is the primary key, and preimages are unique. *)
Definition wt_store_lightning_receive (h preimage : bytes) (invoice : Bolt11Invoice) (delta t : Z) : ext WalletTables string unit := wt_query (fun s =>
  if bool_decide (is_Some (wt_receives s !! h)) || existsb (fun p => bool_decide (rr_preimage p.2 = preimage)) (map_to_list (wt_receives s))
  then (inl "unique constraint failed"%string, s)
  else (inr tt, set_receives (<[h := receive_new preimage invoice delta t]> (wt_receives s)) s)).

(** [ORDER BY created_at DESC]. *)
Definition newer (a b : bytes * ReceiveRow) : Prop := rr_created_at b.2 <= rr_created_at a.2.
#[export] Instance newer_dec a b : Decision (newer a b).
Proof. unfold newer. apply _. Defined.

Definition wt_get_all_pending_lightning_receives : ext WalletTables string (list LightningReceive) := wt_query (fun s =>
  (read_rows (fun p : bytes * ReceiveRow => row_to_receive s p.1 p.2)
     (merge_sort newer (filter (fun p : bytes * ReceiveRow => rr_finished_at p.2 = None) (map_to_list (wt_receives s)))), s)).

Definition wt_set_preimage_revealed (h : bytes) (t : Z) : ext WalletTables string unit := wt_query (fun s =>
  (inr tt, set_receives (alter (set_revealed t) h (wt_receives s)) s)).

Definition wt_update_lightning_receive (h : bytes) (ids : list bytes) (movement_id : Z) : ext WalletTables string unit := wt_query (fun s =>
  match vtxos_of s ids with
  | Some _ => (inr tt, set_receives (alter (set_htlcs ids movement_id) h (wt_receives s)) s)
  | None => (inl "no vtxo found"%string, s)
  end).

Definition wt_fetch_lightning_receive (h : bytes) : ext WalletTables string (option LightningReceive) := wt_query (fun s =>
  (match wt_receives s !! h with
   | Some row => match row_to_receive s h row with inr r => inr (Some r) | inl e => inl e end
   | None => inr None
   end, s)).

Definition wt_finish_pending_lightning_receive (h : bytes) (t : Z) : ext WalletTables string unit := wt_query (fun s =>
  (inr tt, set_receives (alter (set_finished t) h (wt_receives s)) s)).

Definition row_to_send (s : WalletTables) (row : SendRow) : string + LightningSend :=
  match vtxos_of s (sr_htlc_vtxo_ids row) with Some vs => inr (send_record row vs) | None => inl "no vtxo found"%string end.

Definition wt_store_new_pending_lightning_send (invoice : Invoice) (amount : Z) (ids : list bytes) (movement_id : Z)
  : ext WalletTables string LightningSend := wt_query (fun s =>
  match vtxos_of s ids with
  | None => (inl "no vtxo found"%string, s)
  | Some vs =>
      if bool_decide (is_Some (wt_sends s !! invoice_payment_hash invoice)) then (inl "unique constraint failed"%string, s)
      else (inr (mkSend invoice amount vs movement_id None),
            set_sends (<[invoice_payment_hash invoice := mkSendRow invoice amount ids movement_id None None]> (wt_sends s)) s)
  end).

Definition wt_get_all_pending_lightning_send : ext WalletTables string (list LightningSend) := wt_query (fun s =>
  (read_rows (row_to_send s) (filter (fun row => sr_finished_at row = None) (map_to_list (wt_sends s)).*2), s)).

Definition wt_finish_lightning_send (h : bytes) (preimage : option bytes) (t : Z) : ext WalletTables string unit := wt_query (fun s =>
  (inr tt, set_sends (alter (set_send_finished preimage t) h (wt_sends s)) s)).

Definition wt_remove_lightning_send (h : bytes) : ext WalletTables string unit := wt_query (fun s =>
  (inr tt, set_sends (delete h (wt_sends s)) s)).

Definition wt_get_lightning_send (h : bytes) : ext WalletTables string (option LightningSend) := wt_query (fun s =>
  (match wt_sends s !! h with
   | Some row => match row_to_send s row with inr r => inr (Some r) | inl e => inl e end
   | None => inr None
   end, s)).

#[export] Instance wallet_tables_lightning : LightningPersister WalletTables := {
  store_lightning_receive := wt_store_lightning_receive;
  get_all_pending_lightning_receives := wt_get_all_pending_lightning_receives;
  set_preimage_revealed := wt_set_preimage_revealed;
  update_lightning_receive := wt_update_lightning_receive;
  fetch_lightning_receive_by_payment_hash := wt_fetch_lightning_receive;
  finish_pending_lightning_receive := wt_finish_pending_lightning_receive;
  store_new_pending_lightning_send := wt_store_new_pending_lightning_send;
  get_all_pending_lightning_send := wt_get_all_pending_lightning_send;
  finish_lightning_send := wt_finish_lightning_send;
  remove_lightning_send := wt_remove_lightning_send;
  get_lightning_send := wt_get_lightning_send;
  db_receives := wt_receives;
  db_sends := wt_sends;
}.

Definition wt_store_pending_board (v : Vtxo) (tx : Transaction) (movement_id : Z) : ext WalletTables string unit := wt_query (fun s =>
  if bool_decide (is_Some (wt_boards s !! vtxo_id v)) || existsb (fun p => bool_decide (br_funding_tx p.2 = tx)) (map_to_list (wt_boards s))
  then (inl "unique constraint failed"%string, s)
  else (inr tt, set_boards (<[vtxo_id v := mkBoardRow (amount v) tx movement_id]> (wt_boards s)) s)).
Definition wt_remove_pending_board (id : bytes) : ext WalletTables string unit := wt_query (fun s =>
  (inr tt, set_boards (delete id (wt_boards s)) s)).
Definition wt_get_all_pending_board_ids : ext WalletTables string (list bytes) := wt_query (fun s => (inr (map_to_list (wt_boards s)).*1, s)).
Definition wt_get_pending_board (id : bytes) : ext WalletTables string (option PendingBoard) := wt_query (fun s =>
  (inr (board_record id <$> wt_boards s !! id), s)).

#[export] Instance wallet_tables_boards : BoardPersister WalletTables := {
  store_pending_board := wt_store_pending_board;
  remove_pending_board := wt_remove_pending_board;
  get_all_pending_board_ids := wt_get_all_pending_board_ids;
  get_pending_board_by_vtxo_id := wt_get_pending_board;
  db_boards := wt_boards;
}.
End Tables.

(** *** The laws *)
Section TablesLaws.
Context `{B : Bitcoin} `{LT : LightningTypes}.

Lemma wt_query_cases {A} (f : WalletTables -> (string + A) * WalletTables) s : exists s',
  core_tables s' = core_tables s /\ payment_tables s' = payment_tables s /\
  (wt_query f s = (inl "database error"%string, s') \/ wt_query f s = f s').
Proof.
  eexists (mkWalletTables (mkRoundTables (mkSqlite _ _ _ (tail _)) _ _ _) _ _ _). split; [reflexivity|]. split; [reflexivity|].
  unfold wt_query. destruct (head _) as [[]|]; auto.
Qed.

Lemma vtxos_of_core (s s' : WalletTables) ids : core_tables s' = core_tables s -> vtxos_of s' ids = vtxos_of s ids.
Proof. intros H. pose proof (f_equal (fun t => t.1.1.1) H) as Hv. cbn [fst core_tables] in Hv. unfold vtxos_of. by rewrite Hv. Qed.

Lemma read_rows_in {R A} (f : R -> string + A) (rows : list R) l a : read_rows f rows = inr l -> a ∈ l -> exists row, row ∈ rows /\ f row = inr a.
Proof.
  revert l. induction rows as [|row rows IH]; intros l H Ha; cbn in H; [injection H as <-; by apply elem_of_nil in Ha|].
  destruct (f row) as [e|b] eqn:Hf; [done|]. destruct (read_rows f rows) as [e|k]; [done|]. injection H as <-.
  apply elem_of_cons in Ha as [->|Ha]; [exists row; split; [left|done]|].
  destruct (IH k eq_refl Ha) as (row' & Hin & Hr). exists row'. split; [by right|done].
Qed.

Lemma row_to_receive_read (s : WalletTables) h row r : wt_receives s !! h = Some row -> row_to_receive s h row = inr r ->
  lr_payment_hash r = h /\ receive_read s r.
Proof.
  unfold row_to_receive, get_htlc_vtxos. intros Hrow H.
  destruct (rr_htlc_vtxo_ids row) as [ids|] eqn:Hids.
  - destruct (vtxos_of s ids) as [vs|] eqn:Hvs; [|done]. injection H as <-. split; [done|]. exists row. cbn. by rewrite Hids.
  - injection H as <-. split; [done|]. exists row. cbn. by rewrite Hids.
Qed.

(** Rows read after a fault was passed are those of the tables before. *)
Lemma receive_read_core (s s' : WalletTables) r : core_tables s' = core_tables s -> payment_tables s' = payment_tables s ->
  receive_read s' r -> receive_read s r.
Proof.
  intros Hc Hp (row & Hrow & Hr & Hv). exists row. pose proof (f_equal (fun t => t.1.1) Hp) as Hq. cbn [fst payment_tables] in Hq. rewrite <- Hq. split; [done|]. split; [done|].
  destruct (rr_htlc_vtxo_ids row), (lr_htlc_vtxos r); try done. by rewrite <- (vtxos_of_core s s').
Qed.

Lemma send_read_core (s s' : WalletTables) h r : core_tables s' = core_tables s -> payment_tables s' = payment_tables s ->
  send_read s' h r -> send_read s h r.
Proof.
  intros Hc Hp (row & Hrow & Hr & Hv). exists row. pose proof (f_equal (fun t => t.1.2) Hp) as Hq. cbn [fst snd payment_tables] in Hq. rewrite <- Hq. split; [done|]. split; [done|].
  by rewrite <- (vtxos_of_core s s').
Qed.

Lemma row_to_send_read (s : WalletTables) h row r : wt_sends s !! h = Some row -> row_to_send s row = inr r -> send_read s h r.
Proof.
  unfold row_to_send. intros Hrow H. destruct (vtxos_of s _) as [vs|] eqn:Hvs; [|done]. injection H as <-. by exists row.
Qed.

(** An id that is there already is refused. *)
Lemma stored_once (l : list (Vtxo * VtxoState.t)) : forall m0 m : gmap bytes (Vtxo * VtxoState.t * list VtxoState.t),
  foldl (fun acc (p : Vtxo * VtxoState.t) =>
     m ← acc; if bool_decide (is_Some (m !! vtxo_id p.1)) then None else Some (<[vtxo_id p.1 := (p.1, p.2, [])]> m)) (Some m0) l = Some m ->
  NoDup ((fun p : Vtxo * VtxoState.t => vtxo_id p.1) <$> l).
Proof.
  induction l as [|p l IH]; intros m0 m H; [constructor|]. cbn [fmap list_fmap]. pose proof (store_vtxos_rows _ _ _ H) as [Hrows _]. cbn in H.
  destruct (bool_decide (is_Some (m0 !! _))); [exfalso; clear -H; induction l as [|q l IHl]; [done|]; by apply IHl|].
  constructor; [|by apply IH in H]. intros (q & Hq & Hin)%list_elem_of_fmap. apply store_vtxos_rows in H as [H _].
  destruct (H q Hin) as [Hn _]. rewrite <- Hq in Hn. by rewrite lookup_insert_eq in Hn.
Qed.

#[local] Ltac run_wt :=
  match goal with |- context [wt_query ?f ?s] =>
    let s' := fresh "s'" in let Hc := fresh "Hc" in let Hp := fresh "Hp" in let Hrun := fresh "Hrun" in
    destruct (wt_query_cases f s) as (s' & Hc & Hp & Hrun);
    pose proof (f_equal (fun t => t.1.1) Hp) as Hrec; pose proof (f_equal (fun t => t.1.2) Hp) as Hsend; pose proof (f_equal snd Hp) as Hboard;
    cbn [fst snd payment_tables db_receives db_sends db_boards wallet_tables_lightning wallet_tables_boards] in Hrec, Hsend, Hboard;
    destruct Hrun as [-> | ->]
  end.
#[local] Ltac unfold_ops :=
  unfold receives_change, sends_change, boards_change, only_reads;
  cbn [store_lightning_receive get_all_pending_lightning_receives set_preimage_revealed update_lightning_receive
    fetch_lightning_receive_by_payment_hash finish_pending_lightning_receive store_new_pending_lightning_send get_all_pending_lightning_send
    finish_lightning_send remove_lightning_send get_lightning_send db_receives db_sends wallet_tables_lightning
    store_pending_board remove_pending_board get_all_pending_board_ids get_pending_board_by_vtxo_id db_boards wallet_tables_boards].

(** The tables after a query: the rest is as it was. *)
#[local] Ltac frame Hc := cbn [fst snd]; split_and?; try first [done | exact Hc | assumption | congruence].

Lemma core_set_receives m (s : WalletTables) : core_tables (set_receives m s) = core_tables s.
Proof. done. Qed.
Lemma core_set_sends m (s : WalletTables) : core_tables (set_sends m s) = core_tables s.
Proof. done. Qed.
Lemma core_set_boards m (s : WalletTables) : core_tables (set_boards m s) = core_tables s.
Proof. done. Qed.

#[local] Ltac close_wt := rewrite ?core_set_receives, ?core_set_sends, ?core_set_boards; cbn [fst snd wt_receives wt_sends wt_boards set_receives set_sends set_boards];
  split_and?; try first [done | assumption | congruence | by intros ?].

#[export] Instance wallet_tables_laws : WalletDbLaws WalletTables.
Proof.
  split; try (intros; unfold_ops).
  - unfold wt_store_lightning_receive. run_wt; [close_wt|]. rewrite Hrec.
    destruct (bool_decide (is_Some _) || _) eqn:Hu; [close_wt|]. close_wt. intros _. apply orb_false_iff in Hu as [Hu _].
    by apply bool_decide_eq_false, eq_None_not_Some in Hu.
  - unfold wt_get_all_pending_lightning_receives. run_wt; [close_wt|]. split; [exact Hc|]. split; [exact Hp|]. intros l Hl r Hr. cbn [fst] in Hl.
    destruct (read_rows_in _ _ _ r Hl Hr) as ([h row] & Hin & Hrow). rewrite merge_sort_Permutation in Hin.
    apply list_elem_of_filter in Hin as [Hf Hin%elem_of_map_to_list]. cbn in Hf, Hrow.
    destruct (row_to_receive_read s' h row r Hin Hrow) as [Hh Hread]. split; [by apply (receive_read_core _ s')|].
    destruct Hread as (row' & Hrow' & Hr' & _). rewrite Hh in Hrow'. cbn [db_receives wallet_tables_lightning] in Hrow'.
    rewrite Hr'. cbn. congruence.
  - unfold wt_set_preimage_revealed. run_wt; [close_wt|]. rewrite Hrec. close_wt.
  - unfold wt_update_lightning_receive. run_wt; [close_wt|]. rewrite Hrec. destruct (vtxos_of s' ids) as [vs|] eqn:Hvs; [|close_wt]. close_wt.
    intros _ id Hid. rewrite (vtxos_of_core s s') in Hvs by done. apply mapM_Some in Hvs.
    apply list_elem_of_lookup in Hid as [i Hi]. destruct (Forall2_lookup_l _ _ _ _ _ Hvs Hi) as (v & _ & Hv). eauto.
  - unfold wt_fetch_lightning_receive. run_wt; [close_wt|]. split; [exact Hc|]. split; [exact Hp|]. cbn [fst]. intros o Ho.
    destruct (wt_receives s' !! h) as [row|] eqn:Hrow.
    + destruct (row_to_receive s' h row) as [e|r] eqn:Hr; [done|]. injection Ho as <-.
      destruct (row_to_receive_read s' h row r Hrow Hr) as [Hh Hread]. split; [exact Hh|]. by apply (receive_read_core _ s').
    + injection Ho as <-. by rewrite <- Hrec.
  - unfold wt_finish_pending_lightning_receive. run_wt; [close_wt|]. rewrite Hrec. close_wt.
  - unfold wt_store_new_pending_lightning_send. run_wt; [close_wt|]. rewrite Hsend. destruct (vtxos_of s' ids) as [vs|] eqn:Hvs; [|close_wt].
    case_bool_decide as Hu; [close_wt|]. close_wt. intros r [= <-]. apply eq_None_not_Some in Hu. split; [done|]. exists vs. split; [|done].
    by rewrite <- (vtxos_of_core s s').
  - unfold wt_get_all_pending_lightning_send. run_wt; [close_wt|]. split; [exact Hc|]. split; [exact Hp|]. intros l Hl r Hr. cbn [fst] in Hl.
    destruct (read_rows_in _ _ _ r Hl Hr) as (row & Hin & Hrow). apply list_elem_of_filter in Hin as [_ Hin].
    apply list_elem_of_fmap in Hin as ([h row'] & -> & Hin%elem_of_map_to_list). exists h. apply (send_read_core _ s'); [done..|].
    by eapply row_to_send_read.
  - unfold wt_finish_lightning_send. run_wt; [close_wt|]. rewrite Hsend. close_wt.
  - unfold wt_remove_lightning_send. run_wt; [close_wt|]. rewrite Hsend. close_wt.
  - unfold wt_get_lightning_send. run_wt; [close_wt|]. split; [exact Hc|]. split; [exact Hp|]. cbn [fst]. intros o Ho.
    destruct (wt_sends s' !! h) as [row|] eqn:Hrow.
    + destruct (row_to_send s' row) as [e|r] eqn:Hr; [done|]. injection Ho as <-. apply (send_read_core _ s'); [done..|]. by eapply row_to_send_read.
    + injection Ho as <-. by rewrite <- Hsend.
  - unfold wt_store_pending_board. run_wt; [close_wt|]. rewrite Hboard. destruct (bool_decide (is_Some _) || _) eqn:Hu; [close_wt|]. close_wt.
    intros _. apply orb_false_iff in Hu as [Hu _]. by apply bool_decide_eq_false, eq_None_not_Some in Hu.
  - unfold wt_remove_pending_board. run_wt; [close_wt|]. rewrite Hboard. close_wt.
  - unfold wt_get_all_pending_board_ids. run_wt; [close_wt|]. split; [exact Hc|]. split; [exact Hp|]. intros l [= <-]. by rewrite Hboard.
  - unfold wt_get_pending_board. run_wt; [close_wt|]. split; [exact Hc|]. split; [exact Hp|]. intros o [= <-]. by rewrite Hboard.
  - split; [done|]. unfold store_vtxos, wallet_tables_persister, on_rt. cbn. unfold on_sq, sq_store_vtxos, query. cbn.
    destruct (head _) as [[]|]; [done| |]; by destruct (foldl _ _ _).
  - match goal with H : _ = inr tt |- _ => rename H into Hr end. unfold store_vtxos, wallet_tables_persister, on_rt in Hr. cbn in Hr. unfold on_sq, sq_store_vtxos, query in Hr. cbn in Hr.
    destruct (head _) as [[]|]; [done| |]; (destruct (foldl _ _ _) eqn:Hf in Hr; [by apply stored_once in Hf|done]).
  - done.
  - done.
  - done.
  - split; [done|]. unfold store_exit_vtxo_entry, wallet_tables_persister, on_rt. cbn. done.
  - split; [done|]. unfold store_vtxo_key, wallet_tables_keys, on_rt. cbn. unfold rt_store_vtxo_key, rt_query.
    destruct (head _) as [[]|]; [done| |]; by destruct (bool_decide _ || _).
  - split; [done|]. unfold get_last_vtxo_key_index, wallet_tables_keys, on_rt. cbn. unfold rt_get_last_vtxo_key_index, rt_query.
    by destruct (head _) as [[]|].
  - split; [done|]. unfold get_public_key_idx, wallet_tables_rounds, on_rt. cbn. unfold rt_get_public_key_idx, rt_query. by destruct (head _) as [[]|].
Qed.
End TablesLaws.
