(* ===== verification/WalletState.v ===== *)
(** * The wallet with its exits (bark/src/lib.rs, bark/src/exit/mod.rs,
      bark/src/subsystem/mod.rs)

    Lightning payments use the [World] of [WalletRound] and, when something goes
    wrong, start unilateral exits.  [WalletState] has both: the world, and the
    exits with their transaction manager. *)
From stdpp Require Import gmap.
From S2P Require Import Prelude Effects Bitcoin Policy Vtxo Arkoor ChainSource ExitStates Persist ExitManager ExitProgress ExitVtxo Movement.
From S2P Require Import Rounds WalletRoundState WalletRound.

Open Scope Z_scope.

Section State.
Context `{B : Bitcoin} `{PT : !PaymentTypes}.
Context {db net srv mdb : Type} `{!Persister db, !RoundPersister db, !ChainSource net, !RoundChain net, !RoundServer srv, !MovementDb mdb}.
Notation W := (World (db := db) (net := net) (srv := srv) (mdb := mdb)).
Notation X := (M W string).
Context (cfg : WalletConfig).

Record WalletState := mkState { ws_world : W; ws_exits : list ExitVtxo; ws_txs : ExitTransactionManager }.
Notation Y := (M WalletState string).

Definition in_world {A} (m : X A) : Y A := zoom ws_world (fun w s => mkState w (ws_exits s) (ws_txs s)) m.

(** The exit system works on the wallet's database, movements and chain source. *)
Notation EW := (ExitManager.World net (MovementManager * mdb) db).
Definition exit_world (s : WalletState) : list ExitVtxo * EW :=
  (ws_exits s, ExitManager.mkWorld (w_net (ws_world s)) (w_mov (ws_world s)) (w_db (ws_world s)) (ws_txs s)).
Definition set_exit_world (e : list ExitVtxo * EW) (s : WalletState) : WalletState :=
  mkState (mkWorld (ExitManager.w_db e.2) (ExitManager.w_net e.2) (w_srv (ws_world s)) (ExitManager.w_wallet e.2)) e.1 (ExitManager.w_mgr e.2).
Definition on_exits {A} (m : M (list ExitVtxo * EW) ExitError.t A) : Y A :=
  map_err_m (fun _ => "exit error"%string) (zoom exit_world set_exit_world m).

(** The movement of an exit that was started. *)
Definition register_exit_movement (vtxo : Vtxo) : M EW ExitError.t unit :=
  balance ← Effects.lift (map_err ExitError.InternalError (to_signed (amount vtxo)));
  txout ← Effects.lift (vtxo_txout vtxo);
  let payment_method := match address_from_script (script_pubkey txout) with
                        | Some addr => PmBitcoin addr
                        | None => PmOutputScript (script_pubkey txout)
                        end in
  t ← gets (fun w => clock (ExitManager.w_net w));
  _ ← map_err_m (fun _ => ExitError.InternalError "Failed to register exit movement")
        (zoom ExitManager.w_wallet ExitManager.set_wallet
           (new_finished_movement (wc_subsystem_ids cfg SubExit) "start" MovementStatus.Successful
              (sent_to [mkDestination payment_method (amount vtxo)]
                 (consumed_vtxos [vtxo_id vtxo] (intended_and_effective_balance (- balance) update_new))) t));
  mret tt.

Definition start_exits (vtxos : list Vtxo) : Y unit := on_exits (start_exit_for_vtxos register_exit_movement vtxos).
End State.
