(* ===== verification/LightningReceive.v ===== *)
(** * Receiving lightning payments (bark/src/lightning/receive.rs)

    The wallet makes an invoice with a preimage of its own.  When the payment
    has reached the server, the server gives the wallet VTXOs that are locked by
    the payment hash; the wallet checks them, and only then gives the preimage
    away in exchange for VTXOs of its own.  What is drawn at random and what
    the server answers are arguments; [preimages_sent] is what the server has
    been told. *)
From stdpp Require Import gmap.
From S2P Require Import Prelude Effects Bitcoin Encode Concrete Policy Vtxo VtxoEncoding Validation Arkoor ArkoorPackage ChainSource ExitStates.
From S2P Require Import Persist ExitManager ExitProgress ExitVtxo Movement Rounds SignedTree Connectors WalletRoundState WalletRound.
From S2P Require Import WalletKeys Selection WalletTables WalletState.

Open Scope Z_scope.

(** [LIGHTNING_PREPARE_CLAIM_DELTA]. *)
Definition LIGHTNING_PREPARE_CLAIM_DELTA : Z := 2.

(** ** The server *)
Inductive LightningReceiveStatus := LrsCreated | LrsAccepted | LrsHtlcsReady | LrsSettled | LrsCanceled.

Section Messages.
Context `{B : Bitcoin}.

Inductive LightningReceiveAntiDos :=
  | AdToken (token : string)
  | AdInputVtxo (vtxo_id : bytes) (ownership_proof : Signature).

Record PrepareLightningReceiveClaim := mkPrepareClaim {
  pc_payment_hash : bytes; pc_user_pubkey : PublicKey; pc_htlc_recv_expiry : Z; pc_anti_dos : option LightningReceiveAntiDos }.

Record ClaimLightningReceive := mkClaimReceive {
  cr_payment_hash : bytes; cr_payment_preimage : bytes; cr_vtxo_policy : VtxoPolicy; cr_user_pub_nonces : list PublicNonce }.

(** A call that fails may have reached the server.  The status is [None] for a
    number the client does not know. *)
Class ReceiveServer (srv : Type) := {
  start_lightning_receive : bytes -> Z -> Z -> ext srv string string;
  check_receive_status : bytes -> bool -> ext srv string (option LightningReceiveStatus);
  prepare_lightning_receive_claim : PrepareLightningReceiveClaim -> ext srv string (list bytes);
  send_claim : ClaimLightningReceive -> ext srv string (list ArkoorCosignResponse);
  preimages_sent : srv -> list bytes;
}.

Class ReceiveServerLaws (srv : Type) {R : RoundServer srv} {Q : ReceiveServer srv} := {
  require_server_preimages : forall s, preimages_sent (require_server s).2 = preimages_sent s;
  get_ark_info_preimages : forall s, preimages_sent (get_ark_info s).2 = preimages_sent s;
  start_receive_preimages : forall h a d s, preimages_sent (start_lightning_receive h a d s).2 = preimages_sent s;
  check_status_preimages : forall h b s, preimages_sent (check_receive_status h b s).2 = preimages_sent s;
  prepare_claim_preimages : forall p s, preimages_sent (prepare_lightning_receive_claim p s).2 = preimages_sent s;
  send_claim_preimages : forall c s, preimages_sent (send_claim c s).2 = preimages_sent s \/
    preimages_sent (send_claim c s).2 = preimages_sent s ++ [cr_payment_preimage c];
}.
End Messages.

Section Receive.
Context `{B : Bitcoin} `{C : !Consensus} `{S : !Signing B} `{PT : !PaymentTypes} `{LT : !LightningTypes}.
Context {db net srv mdb : Type} `{!Persister db, !RoundPersister db, !KeyPersister db, !LightningPersister db, !ChainSource net, !RoundChain net,
  !RoundServer srv, !ReceiveServer srv, !MovementDb mdb}.
Notation W := (World (db := db) (net := net) (srv := srv) (mdb := mdb)).
Notation X := (M W string).
Notation Y := (M (WalletState (db := db) (net := net) (srv := srv) (mdb := mdb)) string).
Context (cfg : WalletConfig).

(** ** Invoices *)
Definition requested_min_cltv_delta (ark_info : ArkInfo) : outcome string Z :=
  d ← u_add 16 (ai_vtxo_exit_delta ark_info) (ai_htlc_expiry_delta ark_info);
  d ← u_add 16 d (wc_vtxo_exit_margin cfg);
  d ← u_add 16 d (wc_htlc_recv_claim_delta cfg);
  u_add 16 d LIGHTNING_PREPARE_CLAIM_DELTA.

Definition compute_payment_hash (preimage : bytes) : bytes := sha256 preimage.

Definition make_bolt11_invoice (amount : Z) (preimage : bytes) : X Bolt11Invoice :=
  _ ← on_srv require_server;
  ark_info ← on_srv get_ark_info;
  delta ← Effects.lift (requested_min_cltv_delta ark_info);
  _ ← Effects.lift (ensure (negb (ai_max_user_invoice_cltv_delta ark_info <? delta)) "HTLC CLTV delta is greater than Server's max"%string);
  let payment_hash := compute_payment_hash preimage in
  resp ← on_srv (start_lightning_receive payment_hash amount delta);
  invoice ← Effects.lift (ok_or (parse_bolt11 resp) "invalid bolt11 invoice returned by Ark server"%string);
  t ← now;
  _ ← query_db (store_lightning_receive payment_hash preimage invoice delta t);
  mret invoice.

Definition lightning_receive_status (payment_hash : bytes) : X (option LightningReceive) :=
  query_db (fetch_lightning_receive_by_payment_hash payment_hash).
Definition pending_lightning_receives : X (list LightningReceive) := query_db get_all_pending_lightning_receives.

Definition claimable_lightning_receive_balance : X Z :=
  receives ← pending_lightning_receives;
  foldM (fun total r =>
    match lr_htlc_vtxos r with
    | Some vs => s ← Effects.lift (amount_sum ((fun v => amount (wv_vtxo v)) <$> vs)); Effects.lift (u_add 64 total s)
    | None => mret total
    end) 0 receives.

(** ** Claiming (claim_lightning_receive) *)
Definition id_le (a b : Vtxo) : Prop := bytes_ltb (vtxo_id b) (vtxo_id a) = false.
#[export] Instance id_le_dec a b : Decision (id_le a b).
Proof. unfold id_le. apply _. Defined.

(** A key and a nonce for every input; [rand] is drawn per input. *)
Definition claim_nonces (inputs : list Vtxo) (rand : nat -> Z) : X (list Keypair * list (SecretNonce * PublicNonce)) :=
  keypairs ← foldM (fun l v => k ← get_vtxo_key cfg v; mret (l ++ [k])) [] inputs;
  mret (keypairs, imap (fun i k => nonce_pair k (rand i)) keypairs).

Definition claim_lightning_receive (receive : LightningReceive) (rand : nat -> Z) : X (list Vtxo) :=
  movement_id ← Effects.lift (ok_or (lr_movement_id receive) "No movement created for lightning receive"%string);
  _ ← on_srv require_server;
  htlc_vtxos ← Effects.lift (ok_or (lr_htlc_vtxos receive) "no HTLC VTXOs set on record yet"%string);
  let inputs := merge_sort id_le (wv_vtxo <$> htlc_vtxos) in
  kn ← claim_nonces inputs rand;
  let keypairs := kn.1 in let sec_nonces := kn.2.*1 in let pub_nonces := kn.2.*2 in
  claim ← derive_store_next_keypair cfg;
  let receive_policy := new_pubkey (keypair_public_key claim.1) in
  total ← Effects.lift (amount_sum (amount <$> inputs));
  builder ← Effects.lift (map_err (fun _ => "arkoor package error"%string)
              (package_new inputs pub_nonces (mkRequest total receive_policy) None));
  t ← now;
  _ ← query_db (set_preimage_revealed (lr_payment_hash receive) t);
  cosign_resp ← on_srv (send_claim (mkClaimReceive (lr_payment_hash receive) (lr_payment_preimage receive) receive_policy pub_nonces));
  ok ← Effects.lift (package_verify_cosign_response builder cosign_resp);
  _ ← Effects.lift (ensure ok "invalid arkoor cosignature received from server"%string);
  built ← Effects.lift (map_err (fun _ => "arkoor package error"%string) (package_build_vtxos builder cosign_resp keypairs sec_nonces));
  _ ← Effects.lift (ensure (bool_decide (built.2 = None)) "shouldn't have change VTXO, this is a bug"%string);
  let outputs := built.1 in
  effective_balance ← foldM (fun balance vtxo =>
    _ ← validate_vtxo vtxo; Effects.lift (u_add 64 balance (amount vtxo))) 0 outputs;
  _ ← on_wdb (fun e => e) (store_spendable_vtxos outputs);
  _ ← on_wdb state_error (mark_vtxos_as_spent (vtxo_id <$> inputs));
  balance ← Effects.lift (to_signed effective_balance);
  t ← now;
  _ ← on_mov (finish_movement_with_update movement_id MovementStatus.Successful
        (produced_vtxos (vtxo_id <$> outputs) (Movement.effective_balance balance update_new)) t);
  t ← now;
  _ ← query_db (finish_pending_lightning_receive (lr_payment_hash receive) t);
  mret outputs.

(** ** Giving up (exit_or_cancel_lightning_receive) *)
Definition exit_or_cancel_lightning_receive (r : LightningReceive) : Y unit :=
  update_opt ← (match (fun vs : list WalletVtxo => wv_vtxo <$> vs) <$> lr_htlc_vtxos r, lr_preimage_revealed_at r with
    | Some vtxos, Some _ =>
        _ ← start_exits cfg vtxos;
        mret ((fun id : Z => (id, exited_vtxos (vtxo_id <$> vtxos) update_new, MovementStatus.Failed)) <$> lr_movement_id r)
    | Some vtxos, None =>
        _ ← in_world (on_wdb state_error (mark_vtxos_as_spent (vtxo_id <$> vtxos)));
        mret ((fun id : Z => (id, Movement.effective_balance 0 update_new, MovementStatus.Canceled)) <$> lr_movement_id r)
    | None, Some _ =>
        mret ((fun id : Z => (id, Movement.effective_balance 0 update_new, MovementStatus.Canceled)) <$> lr_movement_id r)
    | None, None => mret None
    end);
  _ ← (match update_opt with
       | Some (movement_id, update, status) =>
           t ← in_world now; in_world (on_mov (finish_movement_with_update movement_id status update t))
       | None => mret tt
       end);
  t ← in_world now;
  in_world (query_db (finish_pending_lightning_receive (lr_payment_hash r) t)).

(** ** HTLCs (check_lightning_receive) *)
Definition compute_lightning_receive_anti_dos (payment_hash : bytes) (token : option string) (rand : Z) : X LightningReceiveAntiDos :=
  match token with
  | Some token => mret (AdToken token)
  | None =>
      vtxos ← select_vtxos_to_cover 1 None;
      vtxo ← Effects.lift (ok_or (head vtxos) "have no spendable vtxo to prove ownership of"%string);
      vtxo_keypair ← expect_m (get_vtxo_key cfg vtxo);
      mret (AdInputVtxo (vtxo_id vtxo) (sign_schnorr (lightning_message payment_hash (vtxo_id vtxo)) vtxo_keypair rand))
  end.

(** What a VTXO from the server has to be. *)
Definition check_htlc (payment_hash : bytes) (user_pubkey : PublicKey) (htlc_recv_expiry : Z) (vtxo : Vtxo) : outcome string unit :=
  match policy vtxo with
  | ServerHtlcRecv p =>
      _ ← ensure (bool_decide (hr_payment_hash p = payment_hash)) "invalid payment hash on HTLC VTXOs received from server"%string;
      _ ← ensure (bool_decide (hr_user_pubkey p = user_pubkey)) "invalid pubkey on HTLC VTXOs received from server"%string;
      ensure (negb (hr_htlc_expiry p <? htlc_recv_expiry)) "HTLC VTXO expiry height is less than requested"%string
  | _ => Err "invalid HTLC VTXO policy"%string
  end.

(** [Amount::from_msat_floor]. *)
Definition from_msat_floor (msat : Z) : Z := msat / 1000.

Definition lightning_metadata (payment_hash : bytes) (htlcs : list bytes) : list (string * Json) :=
  [("payment_hash"%string, payment_hash_to_value payment_hash); ("htlc_vtxos"%string, vtxo_ids_to_value htlcs)].

Definition with_htlcs (vtxos : list WalletVtxo) (movement_id : Z) (r : LightningReceive) : LightningReceive :=
  mkReceive (lr_payment_hash r) (lr_payment_preimage r) (lr_invoice r) (lr_preimage_revealed_at r) (Some vtxos)
    (lr_htlc_recv_cltv_delta r) (Some movement_id) (lr_finished_at r).

(** The part that asks the server for HTLCs and checks them. *)
Definition receive_htlcs (payment_hash : bytes) (current_height : Z) (receive : LightningReceive) (token : option string) (rand : Z)
  : X (list Vtxo) :=
  anti_dos ← try_m (F := string) (compute_lightning_receive_anti_dos payment_hash token rand);
  htlc_recv_expiry ← Effects.lift (u_add 32 current_height (lr_htlc_recv_cltv_delta receive));
  next ← derive_store_next_keypair cfg;
  let user_pubkey := keypair_public_key next.1 in
  res ← on_srv (prepare_lightning_receive_claim (mkPrepareClaim (lr_payment_hash receive) user_pubkey htlc_recv_expiry
          (match anti_dos with inr a => Some a | inl _ => None end)));
  vtxos ← Effects.lift (map_err (fun _ => "invalid htlc vtxos from server"%string) (mapM (fun b => deserialize b : outcome DecodingError Vtxo) res));
  _ ← forM_ vtxos (fun vtxo =>
    _ ← validate_vtxo vtxo;
    Effects.lift (check_htlc (lr_payment_hash receive) user_pubkey htlc_recv_expiry vtxo));
  mret vtxos.

Definition store_htlcs (payment_hash : bytes) (receive : LightningReceive) (vtxos : list Vtxo) : X LightningReceive :=
  invoice_amount ← Effects.lift (from_msat_floor <$> expect (amount_milli_satoshis (lr_invoice receive)));
  htlc_amount ← Effects.lift (amount_sum (amount <$> vtxos));
  _ ← Effects.lift (ensure (invoice_amount <=? htlc_amount) "Server didn't return enough VTXOs to cover invoice amount"%string);
  movement_id ← (match lr_movement_id receive with
    | Some id => mret id
    | None =>
        intended ← Effects.lift (to_signed invoice_amount);
        effective ← Effects.lift (to_signed htlc_amount);
        t ← now;
        on_mov (new_movement_with_update (wc_subsystem_ids cfg SubLightningReceive) "receive"%string
          (received_on [mkDestination (PmInvoice (invoice_bolt11 (lr_invoice receive))) htlc_amount]
             (metadata (lightning_metadata (lr_payment_hash receive) (vtxo_id <$> vtxos))
                (Movement.effective_balance effective (intended_balance intended update_new)))) t)
    end);
  _ ← on_wdb (fun e => e) (store_locked_vtxos vtxos (Some movement_id));
  _ ← query_db (update_lightning_receive payment_hash (vtxo_id <$> vtxos) movement_id);
  stored ← foldM (fun l v =>
    w ← query_db (get_wallet_vtxo (vtxo_id v));
    w ← Effects.lift (ok_or w "Failed to get wallet VTXO for lightning receive"%string);
    mret (l ++ [w])) [] vtxos;
  mret (with_htlcs stored movement_id receive).

Definition check_lightning_receive (payment_hash : bytes) (wait : bool) (token : option string) (rand : Z) : Y (option LightningReceive) :=
  _ ← in_world (on_srv require_server);
  current_height ← in_world (on_net chain_tip);
  receive ← in_world (query_db (fetch_lightning_receive_by_payment_hash payment_hash));
  receive ← Effects.lift (ok_or receive "no pending lightning receive found for payment hash, might already be claimed"%string);
  match lr_htlc_vtxos receive with
  | Some _ => mret (Some receive)
  | None =>
      status ← in_world (on_srv (check_receive_status payment_hash wait));
      status ← Effects.lift (ok_or status "unknown payment status"%string);
      match status with
      | LrsCreated => mret None
      | LrsSettled => throw "payment already settled"%string
      | LrsCanceled => _ ← exit_or_cancel_lightning_receive receive; mret None
      | LrsAccepted | LrsHtlcsReady =>
          vtxos ← in_world (receive_htlcs payment_hash current_height receive token rand);
          receive ← in_world (store_htlcs payment_hash receive vtxos);
          mret (Some receive)
      end
  end.

(** ** All of it (try_claim_lightning_receive) *)

(** [as_server_htlc_recv]. *)
Definition as_server_htlc_recv (p : VtxoPolicy) : option ServerHtlcRecvVtxoPolicy :=
  match p with ServerHtlcRecv p => Some p | _ => None end.

(** After a failed claim: is it time to give up?  (The assertion is a debug
    assertion.) *)
Definition about_to_expire (ark_info : ArkInfo) (vtxos : list WalletVtxo) (tip : Z) : outcome string bool :=
  first_vtxo ← wv_vtxo <$> expect (head vtxos);
  _ ← assert (forallb (fun v => bool_decide (policy (wv_vtxo v) = policy first_vtxo) && (exit_delta (wv_vtxo v) =? exit_delta first_vtxo)) vtxos);
  vtxo_htlc_expiry ← hr_htlc_expiry <$> expect (as_server_htlc_recv (policy first_vtxo));
  margin ← u_add 16 (exit_delta first_vtxo) (ai_htlc_expiry_delta ark_info);
  safe_exit_margin ← u_add 16 margin (wc_vtxo_exit_margin cfg);
  Ok (saturating_sub vtxo_htlc_expiry safe_exit_margin <? tip).

(** What is drawn for one attempt. *)
Record ReceiveDraws := mkReceiveDraws { rd_proof : Z; rd_nonce : nat -> Z }.

Definition try_claim_lightning_receive (payment_hash : bytes) (wait : bool) (token : option string) (d : ReceiveDraws) : Y unit :=
  _ ← in_world (on_srv require_server);
  ark_info ← in_world (on_srv get_ark_info);
  receive ← check_lightning_receive payment_hash wait token (rd_proof d);
  match receive with
  | None => mret tt
  | Some receive =>
      if bool_decide (is_Some (lr_finished_at receive)) then mret tt
      else
        match lr_htlc_vtxos receive with
        | None => mret tt
        | Some vtxos =>
            r ← try_m (in_world (claim_lightning_receive receive (rd_nonce d)));
            match r with
            | inr _ => mret tt
            | inl e =>
                tip ← in_world (on_net chain_tip);
                expires ← Effects.lift (about_to_expire ark_info vtxos tip);
                _ ← (if (expires : bool) then exit_or_cancel_lightning_receive receive else mret tt);
                throw e
            end
        end
  end.

(** The errors of one payment are only logged; the payments are run one after
    the other. *)
Definition try_claim_all_lightning_receives (wait : bool) (d : bytes -> ReceiveDraws) : Y unit :=
  receives ← in_world pending_lightning_receives;
  forM_ receives (fun r =>
    let h := bolt11_payment_hash (lr_invoice r) in
    _ ← try_m (F := string) (try_claim_lightning_receive h wait None (d h)); mret tt).
End Receive.
