(* ===== verification/LightningReceiveFacts.v ===== *)
(** * Receiving lightning payments: facts

    The preimage of a payment is only given away when the wallet holds valid
    VTXOs that the preimage unlocks and that are worth the invoice; what a
    failed claim leaves behind; and what a successful one gives. *)
From stdpp Require Import gmap.
From S2P Require Import Prelude Effects Bitcoin Encode Concrete Policy Vtxo VtxoEncoding Validation Extend Arkoor ArkoorPackage ChainSource ExitStates.
From S2P Require Import Persist ExitManager ExitProgress ExitVtxo ExitDurable Movement Rounds SignedTree Connectors WalletRoundState WalletRound.
From S2P Require Import WalletKeys Selection WalletTables WalletState LightningReceive.

Open Scope Z_scope.

(** A sum that does not overflow is exact, whatever the amounts are. *)
Lemma amount_sum_eq {E} l s : amount_sum (E := E) l = Ok s -> s = sum_Z l.
Proof.
  unfold amount_sum. assert (H : forall l (o : outcome E Z), foldl (fun acc a => s ← acc; u_add 64 s a) o l = Ok s -> exists t, o = Ok t /\ s = t + sum_Z l).
  { clear l. intros l. induction l as [|a l IH]; intros o H; cbn [foldl] in H; [exists s; split; [done|unfold sum_Z; cbn; lia]|].
    apply IH in H as (t & H & ->). apply bind_Ok in H as (t0 & -> & H). unfold u_add in H. destruct (in_width _ _); [|done]. injection H as <-.
    exists t0. split; [done|]. rewrite sum_Z_cons. lia. }
  intros (t & [= <-] & ->)%H. lia.
Qed.

Section Facts.
Context `{B : Bitcoin} `{C : !Consensus} `{S : !Signing B} `{PT : !PaymentTypes} `{LT : !LightningTypes}.
Context {db net srv mdb : Type} `{!Persister db, !RoundPersister db, !KeyPersister db, !LightningPersister db, !BoardPersister db,
  !ChainSource net, !RoundChain net, !RoundServer srv, !ReceiveServer srv, !MovementDb mdb}.
Context `{!PersisterLaws db, !RoundPersisterLaws db, !KeyPersisterLaws db, !WalletDbLaws db, !ReceiveServerLaws srv}.
Notation W := (World (db := db) (net := net) (srv := srv) (mdb := mdb)).
Notation X := (M W string).
Notation WS := (WalletState (db := db) (net := net) (srv := srv) (mdb := mdb)).
Notation Y := (M WS string).
Context (cfg : WalletConfig).

(** What the chain source reports as a transaction is on chain. *)
Context (onchain : bytes -> Transaction -> Prop).
Context (honest_chain : forall txid (n : net) tx, (get_tx txid n).1 = inr (Some tx) -> onchain txid tx).

(** ** Code that leaves receives alone *)

(** Rows are kept by the id of their VTXO. *)
Definition keyed (d : db) : Prop := forall id v, db_vtxos d !! id = Some v -> vtxo_id (wv_vtxo v) = id.

(** No VTXO and no key is lost, and the table of receives is the same. *)
Record calm_db (d d' : db) : Prop := {
  cd_rows : forall id v, db_vtxos d !! id = Some v -> exists v', db_vtxos d' !! id = Some v' /\ wv_vtxo v' = wv_vtxo v;
  cd_keyed : keyed d -> keyed d';
  cd_keys : forall i pk, db_keys d !! i = Some pk -> db_keys d' !! i = Some pk;
  cd_keys_ok : keys_ok cfg d -> keys_ok cfg d';
  cd_receives : db_receives d' = db_receives d;
}.
Definition calm : relation W := fun w w' =>
  calm_db (w_db w) (w_db w') /\ preimages_sent (w_srv w') = preimages_sent (w_srv w).

#[export] Instance calm_db_preorder : PreOrder calm_db.
Proof.
  split; [by split; eauto|]. intros d1 d2 d3 [A1 A2 A3 A4 A5] [B1 B2 B3 B4 B5]. split; [|auto|auto|auto|congruence].
  intros id v H. destruct (A1 id v H) as (v' & H' & He). destruct (B1 id v' H') as (v'' & H'' & He'). exists v''. split; [done|congruence].
Qed.
#[export] Instance calm_preorder : PreOrder calm.
Proof. split; [by split|]. intros w1 w2 w3 [H1 H2] [H3 H4]. split; [by etrans|congruence]. Qed.

Lemma calm_core (d d' : db) : core_tables d' = core_tables d -> db_receives d' = db_receives d -> calm_db d d'.
Proof.
  intros Hc Hr. pose proof (f_equal (fun t => t.1.1.1) Hc) as Hv. pose proof (f_equal (fun t => t.2) Hc) as Hk. cbn in Hv, Hk.
  split; [|unfold keyed|..|done]; rewrite ?Hv, ?Hk; eauto. intros (n & Hn & H). exists n. split; [done|]. by rewrite Hk.
Qed.

Lemma calm_rows (d d' : db) : db_keys d' = db_keys d -> db_receives d' = db_receives d ->
  (forall id v, db_vtxos d !! id = Some v -> exists v', db_vtxos d' !! id = Some v' /\ wv_vtxo v' = wv_vtxo v) -> (keyed d -> keyed d') -> calm_db d d'.
Proof. intros Hk Hr H1 H2. split; [done|done|by rewrite Hk| |done]. intros (n & Hn & H). exists n. split; [done|]. by rewrite Hk. Qed.

(** The calls of the database. *)
Lemma payments_receives (d d' : db) : payment_tables d' = payment_tables d -> db_receives d' = db_receives d.
Proof. intros H. by pose proof (f_equal (fun t => t.1.1) H). Qed.

Lemma calm_reads {A} (r : (string + A) * db) s P : only_reads r s P -> calm_db s r.2.
Proof. intros (Hc & Hp & _). apply calm_core; [done|]. by apply payments_receives. Qed.

Lemma calm_get_vtxo id s : calm_db s (get_wallet_vtxo id s).2.
Proof.
  destruct (get_wallet_vtxo_db id s) as (H1 & H2 & _), (get_wallet_vtxo_keys id s) as [H3 H4].
  apply calm_core; [unfold core_tables; congruence|apply payments_receives, get_wallet_vtxo_frame].
Qed.
Lemma calm_by_state ks s : calm_db s (get_vtxos_by_state ks s).2.
Proof.
  destruct (get_vtxos_by_state_db ks s) as [H1 H2], (get_by_state_db ks s) as (H3 & H4 & _).
  apply calm_core; [unfold core_tables; congruence|apply payments_receives, get_by_state_frame].
Qed.
Lemma calm_key_idx pk s : calm_db s (get_public_key_idx pk s).2.
Proof.
  destruct (get_public_key_idx_db pk s) as [H1 H2], (get_key_idx_db pk s) as [H3 _], (key_idx_frame pk s) as [H4 H5].
  apply calm_core; [unfold core_tables; congruence|by apply payments_receives].
Qed.
Lemma keyed_insert (d : db) m id v st : keyed d -> db_vtxos d !! id = Some v -> m = <[id := mkWalletVtxo _ (wv_vtxo v) st]> (db_vtxos d) ->
  forall i x, m !! i = Some x -> vtxo_id (wv_vtxo x) = i.
Proof.
  intros Hk Hv -> i x. destruct (decide (i = id)) as [->|Hne].
  - rewrite lookup_insert_eq. intros [= <-]. exact (Hk id v Hv).
  - rewrite lookup_insert_ne by done. exact (Hk i x).
Qed.
Lemma rows_insert (d : db) m id v st : db_vtxos d !! id = Some v -> m = <[id := mkWalletVtxo _ (wv_vtxo v) st]> (db_vtxos d) ->
  forall i x, db_vtxos d !! i = Some x -> exists x', m !! i = Some x' /\ wv_vtxo x' = wv_vtxo x.
Proof.
  intros Hv -> i x Hx. destruct (decide (i = id)) as [->|Hne].
  - rewrite lookup_insert_eq. eexists. split; [done|]. cbn. congruence.
  - rewrite lookup_insert_ne by done. by exists x.
Qed.
Lemma calm_update id st al s : calm_db s (update_vtxo_state_checked id st al s).2.
Proof.
  apply calm_rows; [apply update_vtxo_state_keys|apply payments_receives, update_state_frame|..]; unfold keyed;
    destruct (update_vtxo_state_db id st al s) as [_ H]; destruct (update_vtxo_state_checked id st al s) as [[e|w] s']; cbn [fst snd] in *.
  - destruct H as [H|(v & Hv & _ & H)]; [rewrite H; by eauto|]. by eapply rows_insert.
  - destruct H as (v & Hv & _ & -> & H). by eapply rows_insert.
  - destruct H as [H|(v & Hv & _ & H)]; [by rewrite H|]. intros Hk. by eapply keyed_insert.
  - destruct H as (v & Hv & _ & -> & H). intros Hk. by eapply keyed_insert.
Qed.
Lemma calm_store l s : calm_db s (store_vtxos l s).2.
Proof.
  apply calm_rows; [apply store_vtxos_keys|apply payments_receives, store_vtxos_frame|..];
    destruct (store_vtxos_db l s) as [_ H]; destruct (store_vtxos l s) as [[e|[]] s']; cbn [fst snd] in *; try (rewrite ?H; by eauto).
  - intros i v Hv. destruct H as (H1 & _ & H3). exists v. split; [|done]. rewrite H3; [done|].
    intros (p & -> & Hp)%list_elem_of_fmap. by pose proof (eq_trans (eq_sym Hv) (H1 p Hp)).
  - unfold keyed. rewrite H. done.
  - intros Hk i v. destruct H as (_ & H2 & H3). destruct (decide (i ∈ (fun p => vtxo_id p.1) <$> l)) as [Hin|Hn]; [|rewrite H3 by done; exact (Hk i v)].
    apply list_elem_of_fmap in Hin as (p & -> & Hp). rewrite (H2 p Hp). by intros [= <-].
Qed.
Lemma calm_store_exit e s : calm_db s (store_exit_vtxo_entry e s).2.
Proof.
  destruct (store_exit_vtxo_entry_db e s) as [H1 _], (store_exit_frame e s) as (H2 & H3 & H4).
  apply calm_rows; [done|by apply payments_receives|..]; unfold keyed; rewrite H1; eauto.
Qed.

(** Runs. *)
Lemma calm_query {A} (f : ext db string A) : (forall s, calm_db s (f s).2) -> keeps calm (query_db f : X A).
Proof. intros H w. destruct (query_db f w) as [o w'] eqn:Hr. apply query_db_run in Hr as [-> _]. split; [apply H|done]. Qed.
Lemma calm_wdb {E A} (err : E -> string) (m : M db E A) : keeps calm_db m -> keeps calm (on_wdb err m : X A).
Proof. intros H w. split; [apply H|done]. Qed.
Lemma calm_net {A} (f : ext net string A) : keeps calm (on_net f : X A).
Proof. by intros w. Qed.
Lemma calm_mov {A} (m : M (MovementManager * mdb) MovementError A) : keeps calm (on_mov m : X A).
Proof. by intros w. Qed.
Lemma calm_now : keeps calm (now : X Z).
Proof. by intros w. Qed.
Lemma calm_srv {A} (f : ext srv string A) : (forall s, preimages_sent (f s).2 = preimages_sent s) -> keeps calm (on_srv f : X A).
Proof. intros H w. split; [done|]. cbn. apply H. Qed.
Lemma calm_expect {A} (m : X A) : keeps calm m -> keeps calm (expect_m m).
Proof. intros H w. specialize (H w). unfold expect_m. by destruct (m w) as [[a|e|] w']. Qed.
Lemma calm_set_states ids st al : keeps calm (on_wdb state_error (set_vtxo_states ids st al) : X unit).
Proof. apply calm_wdb. unfold set_vtxo_states. solve_keeps. intros d. apply calm_update. Qed.
Lemma calm_store_vtxos vs st : keeps calm (on_wdb (fun e => e) (wallet_store_vtxos vs st) : X unit).
Proof. apply calm_wdb. intros d. apply calm_store. Qed.

Lemma calm_derive : keeps calm (derive_store_next_keypair cfg : X _).
Proof.
  assert (Hidx : keeps calm (query_db get_last_vtxo_key_index : X _)).
  { apply calm_query. intros s. destruct (get_last_index_db s) as (H1 & H2 & H3 & _), (last_index_frame s) as [H4 H5].
    apply calm_core; [unfold core_tables; congruence|by apply payments_receives]. }
  intros w. destruct (derive_store_next_keypair cfg w) as [o w'] eqn:H. cbn [snd].
  assert (Hp : db_receives (w_db w') = db_receives (w_db w) /\ db_vtxos (w_db w') = db_vtxos (w_db w) /\ w_srv w' = w_srv w /\
    forall i pk, db_keys (w_db w) !! i = Some pk -> db_keys (w_db w') !! i = Some pk).
  { unfold derive_store_next_keypair, mbind at 1, M_bind at 1 in H. destruct (query_db _ w) as [o1 w1] eqn:H1.
    apply query_db_run in H1 as [-> _]. destruct (get_last_index_db (w_db w)) as (A1 & _ & A3 & _), (last_index_frame (w_db w)) as [A4 _].
    apply payments_receives in A4.
    assert (Hsame : forall w2, w2 = mkWorld (get_last_vtxo_key_index (w_db w)).2 (w_net w) (w_srv w) (w_mov w) ->
      db_receives (w_db w2) = db_receives (w_db w) /\ db_vtxos (w_db w2) = db_vtxos (w_db w) /\ w_srv w2 = w_srv w /\
      forall i pk, db_keys (w_db w) !! i = Some pk -> db_keys (w_db w2) !! i = Some pk).
    { intros w2 ->. cbn [w_db w_srv]. rewrite A3. by split_and!. }
    destruct o1 as [last|e|]; [|apply Hsame; by injection H as _ <-..].
    unfold mbind at 1, M_bind at 1, Effects.lift at 1 in H.
    destruct (match last with Some i => _ | None => _ end) as [index|e|]; [|apply Hsame; by injection H as _ <-..].
    unfold mbind at 1, M_bind at 1 in H. destruct (query_db (store_vtxo_key index _) _) as [o2 w2] eqn:H2.
    apply query_db_run in H2 as [-> H2]. cbn [w_db w_net w_srv w_mov] in *.
    set (d1 := (get_last_vtxo_key_index (w_db w)).2) in *. set (pk0 := keypair_public_key _) in *.
    destruct (store_vtxo_key_db index pk0 d1) as (B1 & _ & B3), (store_key_frame index pk0 d1) as [B4 _]. apply payments_receives in B4.
    assert (w' = mkWorld (store_vtxo_key index pk0 d1).2 (w_net w) (w_srv w) (w_mov w)) as -> by (destruct o2; by injection H as _ <-).
    cbn [w_db w_srv]. split_and!; [congruence|congruence|done|]. intros i pk Hi. rewrite <- A3 in Hi.
    destruct (store_vtxo_key index pk0 d1).1; [by rewrite B3|]. destruct B3 as (Hn & _ & ->).
    rewrite lookup_insert_ne; [done|]. intros <-. congruence. }
  destruct Hp as (Hr & Hv & Hs & Hk). split; [|by rewrite Hs]. split; [|unfold keyed; by rewrite Hv|done| |done].
  - intros id v. rewrite Hv. eauto.
  - intros Hok. by destruct (derive_keys_spec cfg _ _ _ Hok H).
Qed.

Lemma calm_get_key vtxo : keeps calm (get_vtxo_key cfg vtxo : X Keypair).
Proof. unfold get_vtxo_key. apply keeps_bind; [apply _|apply calm_query, calm_key_idx|intros; solve_keeps]. Qed.

Hint Resolve calm_net calm_mov calm_now calm_expect calm_set_states calm_store_vtxos calm_derive calm_get_key : effects.
Hint Extern 2 (keeps calm (on_wdb state_error (mark_vtxos_as_spent _))) => apply calm_set_states : effects.
Hint Extern 2 (keeps calm (on_wdb _ (store_spendable_vtxos _))) => apply calm_store_vtxos : effects.
Hint Extern 2 (keeps calm (on_wdb _ (store_locked_vtxos _ _))) => apply calm_store_vtxos : effects.
Hint Extern 2 (keeps calm (query_db _)) => apply calm_query; intros; first
  [apply calm_get_vtxo | apply calm_by_state | apply calm_key_idx | eapply calm_reads, fetch_receive_law | eapply calm_reads, pending_receives_law] : effects.
Hint Extern 2 (keeps calm (on_srv _)) => apply calm_srv; intros; first
  [apply require_server_preimages | apply get_ark_info_preimages | apply start_receive_preimages | apply check_status_preimages
  | apply prepare_claim_preimages] : effects.

Lemma calm_validate v : keeps calm (validate_vtxo v : X unit).
Proof. unfold validate_vtxo. solve_keeps. Qed.
Hint Resolve calm_validate : effects.

Lemma calm_filter_kind k i vtxos : keeps calm (filter_loop (T := VtxoStateKind.t) k i vtxos : X _).
Proof. revert vtxos. induction i as [|i IH]; intros vtxos; cbn [filter_loop]; solve_keeps. Qed.

Lemma calm_select req th : keeps calm (select_vtxos_to_cover req th : X _).
Proof.
  unfold select_vtxos_to_cover, spendable_vtxos, vtxos_with, unspent_vtxos, filter_vtxos. solve_keeps. apply calm_filter_kind.
Qed.
Hint Resolve calm_select : effects.

Lemma calm_receive_htlcs h height r token rand : keeps calm (receive_htlcs cfg h height r token rand : X _).
Proof. unfold receive_htlcs, compute_lightning_receive_anti_dos, forM_. solve_keeps. Qed.

Lemma calm_nonces inputs rand : keeps calm (claim_nonces cfg inputs rand : X _).
Proof. unfold claim_nonces. solve_keeps. Qed.
Hint Resolve calm_receive_htlcs calm_nonces : effects.


(** ** What the table of receives promises *)

(** A VTXO the wallet can claim on chain with the preimage of [h]: valid on a
    transaction the chain reported, locked by [h] and by a key of the wallet. *)
Definition good_htlc (h : bytes) (d : db) (v : Vtxo) : Prop :=
  (exists tx, onchain (op_txid (anchor_point v)) tx /\ validate v tx = Ok tt) /\
  exists p, policy v = ServerHtlcRecv p /\ hr_payment_hash p = h /\ own_key cfg d (hr_user_pubkey p).

(** These VTXOs are worth the invoice. *)
Definition backed (d : db) (h : bytes) (invoice : Bolt11Invoice) (ids : list bytes) : Prop :=
  NoDup ids /\ exists vs msat, vtxos_of d ids = Some vs /\ Forall (good_htlc h d) (wv_vtxo <$> vs) /\
  amount_milli_satoshis invoice = Some msat /\ msat / 1000 <= sum_Z (amount <$> (wv_vtxo <$> vs)).

Definition receive_ok (d : db) (h : bytes) (row : ReceiveRow) : Prop :=
  h = compute_payment_hash (rr_preimage row) /\ (is_Some (rr_revealed_at row) -> is_Some (rr_htlc_vtxo_ids row)) /\
  forall ids, rr_htlc_vtxo_ids row = Some ids -> backed d h (rr_invoice row) ids.

Record receives_inv (w : W) : Prop := {
  ri_keyed : keyed (w_db w);
  ri_keys : keys_ok cfg (w_db w);
  ri_rows : forall h row, db_receives (w_db w) !! h = Some row -> receive_ok (w_db w) h row;
  ri_sent : forall p, p ∈ preimages_sent (w_srv w) -> exists row, db_receives (w_db w) !! compute_payment_hash p = Some row /\
    rr_preimage row = p /\ is_Some (rr_revealed_at row);
}.

Lemma own_key_calm (d d' : db) pk : calm_db d d' -> own_key cfg d pk -> own_key cfg d' pk.
Proof. intros Hc (i & Hi & Hpk). exists i. split; [|done]. by apply (cd_keys _ _ Hc). Qed.

Lemma good_htlc_calm h (d d' : db) v : calm_db d d' -> good_htlc h d v -> good_htlc h d' v.
Proof. intros Hc [Hv (p & Hp & Hh & Hk)]. split; [done|]. exists p. split_and!; [done..|]. by apply (own_key_calm d). Qed.

Lemma vtxos_of_calm (d d' : db) ids vs : calm_db d d' -> vtxos_of d ids = Some vs ->
  exists vs', vtxos_of d' ids = Some vs' /\ wv_vtxo <$> vs' = wv_vtxo <$> vs.
Proof.
  intros Hc. unfold vtxos_of. revert vs. induction ids as [|id ids IH]; intros vs H; [injection H as <-; by exists []|].
  cbn in H. destruct (db_vtxos d !! id) as [v|] eqn:Hv; [|done]. cbn in H. destruct (mapM _ ids) as [k|] eqn:Hk; [|done]. injection H as <-.
  destruct (cd_rows _ _ Hc id v Hv) as (v' & Hv' & He). destruct (IH k eq_refl) as (k' & Hk' & Hke).
  exists (v' :: k'). cbn. rewrite Hv'. cbn. rewrite Hk'. split; [done|]. cbn. by rewrite He, Hke.
Qed.

Lemma backed_calm (d d' : db) h inv ids : calm_db d d' -> backed d h inv ids -> backed d' h inv ids.
Proof.
  intros Hc [Hn (vs & msat & Hvs & Hg & Hm & Hle)]. split; [done|]. destruct (vtxos_of_calm _ _ _ _ Hc Hvs) as (vs' & Hvs' & He).
  exists vs', msat. split; [done|]. split; [|split; [done|]].
  - rewrite He. eapply Forall_impl; [exact Hg|]. intros v. by apply good_htlc_calm.
  - by rewrite He.
Qed.

Lemma receive_ok_calm (d d' : db) h row : calm_db d d' -> receive_ok d h row -> receive_ok d' h row.
Proof. intros Hc (H1 & H2 & H3). split_and!; [done..|]. intros ids Hi. by apply (backed_calm d), H3. Qed.

Lemma inv_calm w w' : receives_inv w -> calm w w' -> receives_inv w'.
Proof.
  intros [H1 H2 H3 H4] [Hc Hs]. split; [by apply Hc|by apply Hc|..].
  - intros h row Hrow. rewrite (cd_receives _ _ Hc) in Hrow. apply (receive_ok_calm (w_db w)); [done|auto].
  - intros p. rewrite Hs, (cd_receives _ _ Hc). apply H4.
Qed.

(** ** Runs between predicates: [Q] holds after success, [F] after a failure *)
Definition runs {St A} (P : St -> Prop) (m : M St string A) (Q : A -> St -> Prop) (F : St -> Prop) : Prop :=
  forall s, P s -> match m s with (Ok a, s') => Q a s' | (_, s') => F s' end.

Lemma runs_bind {St A A'} P (m : M St string A) (f : A -> M St string A') Q R F :
  runs P m Q F -> (forall a, runs (Q a) (f a) R F) -> runs P (m ≫= f) R F.
Proof. intros Hm Hf s HP. specialize (Hm s HP). unfold mbind, M_bind. destruct (m s) as [[a|e|] s']; [by apply Hf|done..]. Qed.

Lemma runs_lift {St A} (P : St -> Prop) (o : outcome string A) (F : St -> Prop) : (forall s, P s -> F s) ->
  runs P (Effects.lift o : M St string A) (fun a s => o = Ok a /\ P s) F.
Proof. intros HF s HP. unfold Effects.lift. destruct o as [a|e|]; [by split|by apply HF..]. Qed.

Lemma runs_ret {St A} (P : St -> Prop) (a : A) (Q : A -> St -> Prop) F : (forall s, P s -> Q a s) -> runs P (mret a : M St string A) Q F.
Proof. intros H s HP. by apply H. Qed.

Lemma runs_pre {St A} (P P' : St -> Prop) (m : M St string A) Q F : (forall s, P s -> P' s) -> runs P' m Q F -> runs P m Q F.
Proof. intros H Hm s HP. by apply Hm, H. Qed.

Lemma runs_post {St A} (P : St -> Prop) (m : M St string A) Q Q' (F F' : St -> Prop) : runs P m Q F ->
  (forall a s, Q a s -> Q' a s) -> (forall s, F s -> F' s) -> runs P m Q' F'.
Proof. intros Hm HQ HF s HP. specialize (Hm s HP). destruct (m s) as [[a|e|] s']; auto. Qed.

(** Code that keeps a relation keeps what the relation keeps. *)
Lemma runs_keeps {St A} (R : relation St) (P F : St -> Prop) (m : M St string A) : keeps R m -> (forall s s', P s -> R s s' -> P s') ->
  (forall s, P s -> F s) -> runs P m (fun _ => P) F.
Proof. intros Hk HR HF s HP. specialize (Hk s). destruct (m s) as [[a|e|] s']; cbn in Hk; [|apply HF|apply HF]; by eapply HR. Qed.


(** ** Each operation keeps the promise *)
Definition steady : relation W := fun w w' => receives_inv w -> receives_inv w'.
#[export] Instance steady_preorder : PreOrder steady.
Proof. split; [exact (fun w H => H)|]. exact (fun w1 w2 w3 H1 H2 H => H2 (H1 H)). Qed.
Lemma keeps_steady {A} (m : X A) : keeps calm m -> keeps steady m.
Proof. intros H w Hi. by apply (inv_calm w). Qed.

(** An update of the table of receives, by a function that keeps the rows good. *)
Lemma steady_update (w w' : W) (d : db) : receives_inv w -> w' = mkWorld d (w_net w) (w_srv w) (w_mov w) ->
  core_tables d = core_tables (w_db w) ->
  (forall h row, db_receives d !! h = Some row -> receive_ok (w_db w) h row) ->
  (forall h row, db_receives (w_db w) !! h = Some row -> is_Some (rr_revealed_at row) -> exists row', db_receives d !! h = Some row' /\
     rr_preimage row' = rr_preimage row /\ is_Some (rr_revealed_at row')) -> receives_inv w'.
Proof.
  intros [H1 H2 H3 H4] -> Hc Hback Hfwd. pose proof (f_equal (fun t => t.1.1.1) Hc) as Hv. pose proof (f_equal (fun t => t.2) Hc) as Hk. cbn in Hv, Hk.
  assert (Hok : forall h row, receive_ok (w_db w) h row -> receive_ok d h row).
  { intros h row (A1 & A2 & A3). split_and!; [done..|]. intros ids Hi. destruct (A3 ids Hi) as [Hn (vs & msat & B1 & B2 & B3)]. split; [done|].
    exists vs, msat. split; [unfold vtxos_of in *; by rewrite Hv|]. split; [|done]. eapply Forall_impl; [exact B2|].
    intros v [Hva (p & C1 & C2 & i & C3)]. split; [done|]. exists p. split_and!; [done..|]. exists i. by rewrite Hk. }
  split; cbn [w_db w_srv].
  - unfold keyed. rewrite Hv. exact H1.
  - destruct H2 as (n & Hn & H2). exists n. split; [done|]. by rewrite Hk.
  - intros h row Hrow. by apply Hok, Hback.
  - intros p Hp. destruct (H4 p Hp) as (row & Hrow & <- & Hrev). destruct (Hfwd _ _ Hrow Hrev) as (row' & Hl & Hp' & Hrev'). by exists row'.
Qed.

Lemma steady_finish h t : keeps steady (query_db (finish_pending_lightning_receive h t) : X unit).
Proof.
  intros w Hi. destruct (query_db _ w) as [o w'] eqn:Hr. apply query_db_run in Hr as [Hw _]. cbn [snd].
  destruct (finish_receive_law h t (w_db w)) as (Hc & _ & _ & Hrec).
  apply (steady_update w w' _ Hi Hw Hc); destruct (finish_pending_lightning_receive h t (w_db w)) as [[e|[]] d]; cbn [fst snd] in *; rewrite Hrec.
  - apply (ri_rows _ Hi).
  - intros h' row Hrow. apply lookup_alter_Some in Hrow as [(<- & row0 & Hrow & ->)|[_ Hrow]]; exact (ri_rows _ Hi _ _ Hrow).
  - eauto.
  - intros h' row Hrow Hrev. destruct (decide (h = h')) as [->|Hne].
    + rewrite lookup_alter_eq, Hrow. by eexists.
    + rewrite lookup_alter_ne by done. eauto.
Qed.
Hint Resolve steady_finish keeps_steady : effects.

Lemma invoice_steady amount preimage : keeps steady (make_bolt11_invoice cfg amount preimage : X _).
Proof.
  assert (Hstore : forall inv delta t, keeps steady (query_db (store_lightning_receive (compute_payment_hash preimage) preimage inv delta t) : X unit)).
  { intros inv delta t w Hi. destruct (query_db _ w) as [o w'] eqn:Hr. apply query_db_run in Hr as [Hw _]. cbn [snd].
    set (h := compute_payment_hash preimage) in *. destruct (store_receive_law h preimage inv delta t (w_db w)) as ((Hc & _ & _ & Hrec) & Hnew).
    destruct (store_lightning_receive h preimage inv delta t (w_db w)) as [[e|[]] d]; cbn [fst snd] in *.
    { apply (steady_update w w' d Hi Hw Hc); rewrite Hrec; [apply (ri_rows _ Hi)|eauto]. }
    specialize (Hnew eq_refl). apply (steady_update w w' d Hi Hw Hc); rewrite Hrec.
    - intros h' row [[<- <-]|[_ Hrow]]%lookup_insert_Some; [|by apply (ri_rows _ Hi)]. split; [done|]. split; [by intros []|by intros ids].
    - intros h' row Hrow Hrev. exists row. split; [|done]. rewrite lookup_insert_ne; [done|]. intros <-. by rewrite Hnew in Hrow. }
  unfold make_bolt11_invoice. solve_keeps.
Qed.


(** *** Claiming *)

(** The record [r] is the one of a row with HTLCs. *)
Definition armed (r : LightningReceive) (w : W) : Prop := receives_inv w /\
  exists row, db_receives (w_db w) !! lr_payment_hash r = Some row /\ rr_preimage row = lr_payment_preimage r /\ is_Some (rr_htlc_vtxo_ids row).
Definition revealed (r : LightningReceive) (w : W) : Prop := receives_inv w /\
  exists row, db_receives (w_db w) !! lr_payment_hash r = Some row /\ rr_preimage row = lr_payment_preimage r /\ is_Some (rr_revealed_at row).

Lemma armed_calm r w w' : armed r w -> calm w w' -> armed r w'.
Proof. intros [Hi H] Hc. split; [by eapply inv_calm|]. destruct Hc as [Hc _]. by rewrite (cd_receives _ _ Hc). Qed.

Lemma runs_armed {A} r (m : X A) : keeps calm m -> runs (armed r) m (fun _ => armed r) receives_inv.
Proof. intros H. apply (runs_keeps calm); [done|by eapply armed_calm|by intros w []]. Qed.

Lemma runs_steady {A} (m : X A) (Q : A -> W -> Prop) : keeps steady m -> runs receives_inv m (fun _ => receives_inv) receives_inv.
Proof. intros H. by apply (runs_keeps steady); [|by intros w w' Hi Hs; apply Hs|]. Qed.

Lemma runs_reveal r t : runs (armed r) (query_db (set_preimage_revealed (lr_payment_hash r) t) : X unit) (fun _ => revealed r) receives_inv.
Proof.
  intros w [Hi (row & Hrow & Hp & Hh)]. destruct (query_db _ w) as [o w'] eqn:Hr. apply query_db_run in Hr as [Hw Ho].
  destruct (set_revealed_law (lr_payment_hash r) t (w_db w)) as (Hc & _ & _ & Hrec).
  assert (Hinv : receives_inv w').
  { apply (steady_update w w' _ Hi Hw Hc); destruct (set_preimage_revealed _ t (w_db w)) as [[e|[]] d]; cbn [fst snd] in *; rewrite Hrec.
    - apply (ri_rows _ Hi).
    - intros h' row' Hrow'. apply lookup_alter_Some in Hrow' as [(<- & row0 & Hrow' & ->)|[_ Hrow']]; [|exact (ri_rows _ Hi _ _ Hrow')].
      destruct (ri_rows _ Hi _ _ Hrow') as (A1 & A2 & A3). split_and!; [done| |done]. intros _. cbn. by simplify_eq.
    - eauto.
    - intros h' row' Hrow' Hrev. destruct (decide (lr_payment_hash r = h')) as [<-|Hne].
      + rewrite lookup_alter_eq, Hrow'. by eexists.
      + rewrite lookup_alter_ne by done. eauto. }
  destruct o as [[]|e|]; [|done..]. split; [done|]. rewrite Hw. cbn [w_db]. rewrite Hrec, Ho, lookup_alter_eq, Hrow. by eexists.
Qed.

Lemma runs_send r pol nonces : runs (revealed r)
  (on_srv (send_claim (mkClaimReceive (lr_payment_hash r) (lr_payment_preimage r) pol nonces)) : X _) (fun _ => receives_inv) receives_inv.
Proof.
  intros w [Hi (row & Hrow & Hp & Hrev)]. destruct (on_srv _ w) as [o w'] eqn:Hr. apply on_srv_run in Hr as [-> _].
  set (c := mkClaimReceive _ _ _ _). assert (receives_inv (mkWorld (w_db w) (w_net w) (send_claim c (w_srv w)).2 (w_mov w))); [|by destruct o].
  destruct (send_claim_preimages c (w_srv w)) as [Hs|Hs].
  { apply (inv_calm w); [done|]. by split. }
  destruct Hi as [H1 H2 H3 H4]. split; [done..|]. cbn [w_db w_srv]. rewrite Hs. intros p [Hp'|Hp']%elem_of_app; [by apply H4|].
  apply list_elem_of_singleton in Hp' as ->. cbn. exists row. destruct (H3 _ _ Hrow) as [Heq _]. rewrite Hp in Heq. rewrite <- Heq. done.
Qed.

Ltac calm_step := eapply runs_bind; [apply runs_armed; solve_keeps|intros ?; cbv beta zeta].

Lemma claim_steady r rand : runs (armed r) (claim_lightning_receive cfg r rand : X _) (fun _ => receives_inv) receives_inv.
Proof.
  unfold claim_lightning_receive. do 8 calm_step.
  eapply runs_bind; [apply runs_reveal|intros []]. eapply runs_bind; [apply runs_send|intros resp].
  apply runs_steady; [exact (fun _ _ => True)|]. solve_keeps.
Qed.

(** *** HTLCs *)
Lemma validate_run v (w w' : W) : validate_vtxo v w = (Ok tt, w') ->
  exists tx, onchain (op_txid (anchor_point v)) tx /\ validate v tx = Ok tt.
Proof.
  unfold validate_vtxo. intros H. apply bind_run_Ok in H as (o & w1 & H1 & H). apply on_net_run in H1 as [_ H1].
  apply bind_run_Ok in H as (tx & w2 & H2 & H). unfold Effects.lift in H2, H. injection H2 as H2 <-. injection H as H <-.
  apply ok_or_Ok in H2 as ->. apply map_err_Ok in H. eauto.
Qed.

Lemma check_htlc_Ok h pk e v : check_htlc h pk e v = Ok tt -> exists p, policy v = ServerHtlcRecv p /\ hr_payment_hash p = h /\ hr_user_pubkey p = pk.
Proof.
  unfold check_htlc. destruct (policy v) as [p|p|p|p]; [done..|]. intros H.
  apply bind_Ok in H as ([] & H1%ensure_Ok%bool_decide_eq_true & H). apply bind_Ok in H as ([] & H2%ensure_Ok%bool_decide_eq_true & H). by exists p.
Qed.

Lemma derive_own (w w' : W) k : receives_inv w -> derive_store_next_keypair cfg w = (Ok k, w') -> own_key cfg (w_db w') (keypair_public_key k.1).
Proof.
  intros Hi H. destruct k as [kp i]. destruct (derive_keys_spec cfg _ _ _ (ri_keys _ Hi) H) as (_ & _ & _ & _ & _ & _ & -> & _ & _ & H4).
  exists i. cbn [fst]. by rewrite H4, lookup_insert_eq.
Qed.

Lemma check_loop_run h pk e vs : forall w w' : W, own_key cfg (w_db w) pk ->
  forM_ vs (fun v => _ ← validate_vtxo v; Effects.lift (check_htlc h pk e v)) w = (Ok tt, w') -> Forall (good_htlc h (w_db w')) vs /\ calm w w'.
Proof.
  unfold forM_. induction vs as [|v vs IH]; intros w w' Hown H; cbn [foldM] in H; [injection H as <-; by split; [constructor|]|].
  apply bind_run_Ok in H as ([] & w1 & H1 & H). apply bind_run_Ok in H1 as ([] & w2 & H2 & H1). unfold Effects.lift in H1. injection H1 as H1 <-.
  pose proof (calm_validate v w) as Hc. rewrite H2 in Hc. cbn [snd] in Hc. pose proof (own_key_calm _ _ _ (proj1 Hc) Hown) as Hown2.
  apply IH in H as [Hg Hc2]; [|done]. split; [|by etrans]. constructor; [|done]. apply (good_htlc_calm _ (w_db w2)); [apply Hc2|].
  split; [by eapply validate_run|]. apply check_htlc_Ok in H1 as (p & Hp & Hh & Hk). exists p. by rewrite Hk.
Qed.

Lemma receive_htlcs_run h height r token rand (w w' : W) vs : receives_inv w -> receive_htlcs cfg h height r token rand w = (Ok vs, w') ->
  Forall (good_htlc (lr_payment_hash r) (w_db w')) vs.
Proof.
  intros Hi H. unfold receive_htlcs in H. apply bind_run_Ok in H as (ad & w1 & H1 & H).
  assert (Hc1 : calm w w1).
  { assert (Hk : keeps calm (try_m (F := string) (compute_lightning_receive_anti_dos cfg h token rand) : X _)).
    { unfold compute_lightning_receive_anti_dos. solve_keeps. }
    specialize (Hk w). by rewrite H1 in Hk. }
  apply bind_run_Ok in H as (e & w2 & H2 & H). unfold Effects.lift in H2. injection H2 as _ <-.
  apply bind_run_Ok in H as (k & w3 & H3 & H). pose proof (derive_own _ _ _ (inv_calm _ _ Hi Hc1) H3) as Hown.
  apply bind_run_Ok in H as (res & w4 & H4 & H). apply on_srv_run in H4 as [-> _].
  apply bind_run_Ok in H as (vtxos & w5 & H5 & H). unfold Effects.lift in H5. injection H5 as _ <-.
  apply bind_run_Ok in H as ([] & w6 & H6 & H). injection H as <- <-.
  by apply (check_loop_run (lr_payment_hash r) (keypair_public_key k.1) e) in H6 as [Hg _].
Qed.

Lemma runs_pure {St A} (phi : Prop) (P : St -> Prop) (m : M St string A) Q F : (phi -> runs P m Q F) -> runs (fun s => phi /\ P s) m Q F.
Proof. intros H s [Hphi HP]. by apply H. Qed.

(** Good VTXOs for the row of [r]. *)
Definition stocked (h : bytes) (r : LightningReceive) (vs : list Vtxo) (w : W) : Prop := receives_inv w /\ lr_payment_hash r = h /\
  Forall (good_htlc h (w_db w)) vs /\
  exists row, db_receives (w_db w) !! h = Some row /\ rr_preimage row = lr_payment_preimage r /\ rr_invoice row = lr_invoice r.

Lemma stocked_calm h r vs w w' : stocked h r vs w -> calm w w' -> stocked h r vs w'.
Proof.
  intros (Hi & Hh & Hg & Hrow) Hc. split; [by eapply inv_calm|]. destruct Hc as [Hc _]. split; [done|]. split; [|by rewrite (cd_receives _ _ Hc)].
  eapply Forall_impl; [exact Hg|]. intros v. by apply good_htlc_calm.
Qed.
Lemma runs_stocked {A} h r vs (m : X A) : keeps calm m -> runs (stocked h r vs) m (fun _ => stocked h r vs) receives_inv.
Proof. intros H. apply (runs_keeps calm); [done|by eapply stocked_calm|by intros w []]. Qed.

Lemma runs_store_locked h r vs mid : runs (stocked h r vs) (on_wdb (fun e => e) (store_locked_vtxos vs mid) : X unit)
  (fun _ w => stocked h r vs w /\ NoDup (vtxo_id <$> vs) /\
     vtxos_of (w_db w) (vtxo_id <$> vs) = Some ((fun v => mkWalletVtxo _ v (VtxoState.Locked mid)) <$> vs)) receives_inv.
Proof.
  intros w Hs. destruct (on_wdb _ _ w) as [o w'] eqn:Hr. pose proof (calm_store_vtxos vs (VtxoState.Locked mid) w) as Hc.
  change (wallet_store_vtxos vs (VtxoState.Locked mid)) with (store_locked_vtxos vs mid) in Hc. rewrite Hr in Hc. cbn [snd] in Hc.
  pose proof (stocked_calm _ _ _ _ _ Hs Hc) as Hs'. destruct o as [[]|e|]; [|by destruct Hs'..]. split; [done|].
  unfold on_wdb, map_err_m, zoom, store_locked_vtxos, wallet_store_vtxos, call in Hr. cbn [fst snd] in Hr.
  set (l := (fun v => (v, VtxoState.Locked mid)) <$> vs) in *. destruct (store_vtxos_db l (w_db w)) as [_ Hst]. pose proof (store_vtxos_once l (w_db w)) as Hnd.
  destruct (store_vtxos l (w_db w)) as [[e|[]] d]; cbn in Hr; [done|]. injection Hr as <-. cbn [fst snd w_db] in *.
  specialize (Hnd eq_refl). destruct Hst as (_ & Hst & _). unfold l in Hnd. rewrite <- list_fmap_compose in Hnd. split; [exact Hnd|].
  unfold vtxos_of. apply mapM_Some_2, Forall2_fmap, Forall_Forall2_diag, Forall_forall. intros v Hv.
  apply (Hst (v, VtxoState.Locked mid)). apply list_elem_of_fmap. by exists v.
Qed.

Lemma calm_stored (vs : list Vtxo) l : keeps calm (foldM (fun l v => w ← query_db (get_wallet_vtxo (vtxo_id v));
  w ← Effects.lift (ok_or w "Failed to get wallet VTXO for lightning receive"%string); mret (l ++ [w])) l vs : X (list WalletVtxo)).
Proof. solve_keeps. Qed.

Lemma store_htlcs_runs h r vs : runs (stocked h r vs) (store_htlcs cfg h r vs : X _) (fun r' w => armed r' w /\ is_Some (lr_htlc_vtxos r')) receives_inv.
Proof.
  unfold store_htlcs. eapply runs_bind; [by apply (runs_lift (stocked h r vs)); intros w []|intros inv_amount]. cbv beta. apply runs_pure. intros Hinv.
  apply fmap_Ok in Hinv as (msat & Hmsat%expect_Ok & ->).
  eapply runs_bind; [by apply (runs_lift (stocked h r vs)); intros w []|intros htlc_amount]. cbv beta. apply runs_pure. intros Hsum.
  eapply runs_bind; [by apply (runs_lift (stocked h r vs)); intros w []|intros []]. cbv beta. apply runs_pure. intros Hle%ensure_Ok%Z.leb_le.
  eapply runs_bind; [apply runs_stocked; solve_keeps|intros mid; cbv beta zeta].
  eapply runs_bind; [apply runs_store_locked|intros []; cbv beta].
  eapply (runs_bind _ _ _ (fun _ w => receives_inv w /\ exists row, db_receives (w_db w) !! lr_payment_hash r = Some row /\
    rr_preimage row = lr_payment_preimage r /\ is_Some (rr_htlc_vtxo_ids row))).
  - intros w ((Hi & Hh & Hg & row & Hrow & Hp & Hri) & Hnd & Hvs). destruct (query_db _ w) as [o w'] eqn:Hr. apply query_db_run in Hr as [Hw Ho].
    destruct (update_receive_law h (vtxo_id <$> vs) mid (w_db w)) as ((Hc & _ & _ & Hrec) & _).
    assert (Hinv : receives_inv w').
    { apply (steady_update w w' _ Hi Hw Hc); destruct (update_lightning_receive h _ mid (w_db w)) as [[e|[]] d]; cbn [fst snd] in *; rewrite Hrec.
      - apply (ri_rows _ Hi).
      - intros h' row' Hrow'. apply lookup_alter_Some in Hrow' as [(<- & row0 & Hrow' & ->)|[_ Hrow']]; [|exact (ri_rows _ Hi _ _ Hrow')].
        destruct (ri_rows _ Hi _ _ Hrow') as (A1 & A2 & A3). split; [done|]. split; [by eexists|]. cbn. intros ids [= <-]. rewrite Hrow in Hrow'. injection Hrow' as <-.
        split; [done|]. eexists _, msat. split; [exact Hvs|]. rewrite <- list_fmap_compose. cbn. rewrite list_fmap_id. rewrite Hri. split_and!; [done|done|].
        unfold from_msat_floor in Hle. by rewrite <- (amount_sum_eq _ _ Hsum).
      - eauto.
      - intros h' row' Hrow' Hrev. destruct (decide (h = h')) as [<-|Hne].
        + rewrite lookup_alter_eq, Hrow'. by eexists.
        + rewrite lookup_alter_ne by done. eauto. }
    destruct o as [[]|e|]; [|done..]. split; [done|]. rewrite Hw. cbn [w_db]. rewrite Hrec, Ho, Hh, lookup_alter_eq, Hrow. by eexists.
  - intros []. eapply runs_bind; [apply (runs_armed r), calm_stored|intros stored; cbv beta]. apply runs_ret. intros w Hw. split; [exact Hw|by eexists].
Qed.


(** ** With the exits *)
Lemma runs_in_world {A} P (m : X A) Q F : runs P m Q F ->
  runs (fun s : WS => P (ws_world s)) (in_world m) (fun a s => Q a (ws_world s)) (fun s => F (ws_world s)).
Proof. intros H s HP. specialize (H _ HP). unfold in_world, zoom. destruct (m (ws_world s)) as [[a|e|] w]; exact H. Qed.

Definition exits_calm : relation (list ExitVtxo * ExitManager.World net (MovementManager * mdb) db) := fun s s' =>
  calm_db (ExitManager.w_db s.2) (ExitManager.w_db s'.2).
#[export] Instance exits_calm_preorder : PreOrder exits_calm.
Proof. unfold exits_calm. split; [intros s|intros s1 s2 s3 H1 H2]; [reflexivity|by etrans]. Qed.

Lemma exits_calm_db {A} (f : string -> ExitError.t) (c : ext db string A) : (forall s, calm_db s (c s).2) ->
  keeps exits_calm (on_all (ExitManager.on_db f c)).
Proof. intros H s. apply H. Qed.

Lemma exits_calm_register vtxo : keeps exits_calm (on_all (register_exit_movement cfg vtxo)).
Proof.
  assert (Hk : keeps (fun w w' : ExitManager.World net (MovementManager * mdb) db => calm_db (ExitManager.w_db w) (ExitManager.w_db w'))
    (register_exit_movement cfg vtxo)).
  { unfold register_exit_movement. assert (PreOrder (fun w w' : ExitManager.World net (MovementManager * mdb) db => calm_db (ExitManager.w_db w) (ExitManager.w_db w'))).
    { split; [by intros w|]. intros w1 w2 w3 H1 H2. by etrans. }
    solve_keeps. by intros w. }
  intros s. apply Hk.
Qed.

Lemma calm_start_one tip vtxo : keeps exits_calm (start_exit_for_vtxo (register_exit_movement cfg) tip vtxo).
Proof.
  unfold start_exit_for_vtxo. apply keeps_bind; [apply _|by intros s|intros exits]. apply keeps_if; [apply keeps_ret, _|].
  apply keeps_bind; [apply _|apply exits_calm_db, calm_store_exit|intros _].
  apply keeps_bind; [apply _|apply exits_calm_db; intros s; apply calm_update|intros _].
  apply keeps_bind; [apply _|intros s; unfold exits_calm; cbn; reflexivity|intros _]. apply exits_calm_register.
Qed.

Lemma calm_start_exits vtxos (s : WS) : calm (ws_world s) (ws_world (start_exits cfg vtxos s).2).
Proof.
  assert (Hk : keeps exits_calm (start_exit_for_vtxos (register_exit_movement cfg) vtxos)).
  { unfold start_exit_for_vtxos. destruct vtxos as [|v vtxos]; [apply keeps_ret, _|]. apply keeps_bind; [apply _|intros s'; unfold exits_calm; cbn; reflexivity|intros tip].
    unfold forM_. apply keeps_foldM; [apply _|]. intros _ v'. apply calm_start_one. }
  unfold start_exits, on_exits, map_err_m, zoom. cbn [snd]. specialize (Hk (exit_world s)). split; [exact Hk|done].
Qed.

(** *** Giving up, and everything together *)
Notation good := (fun s : WS => receives_inv (ws_world s)).
Definition keeps_inv {A} (m : Y A) : Prop := forall s, good s -> good (m s).2.

Lemma runs_good {A} (m : Y A) : keeps_inv m -> runs good m (fun _ => good) good.
Proof. intros H s Hs. specialize (H s Hs). by destruct (m s) as [[a|e|] s']. Qed.
Lemma good_bind {A A'} (m : Y A) (f : A -> Y A') : keeps_inv m -> (forall a, keeps_inv (f a)) -> keeps_inv (m ≫= f).
Proof. intros Hm Hf s Hs. specialize (Hm s Hs). unfold mbind, M_bind. destruct (m s) as [[a|e|] s']; [by apply Hf|done..]. Qed.
Lemma good_world {A} (m : X A) : keeps steady m -> keeps_inv (in_world m).
Proof. intros H s Hs. by apply (H (ws_world s)). Qed.
Lemma good_pure {A} (o : outcome string A) : keeps_inv (Effects.lift o).
Proof. by intros s. Qed.
Lemma good_ret {A} (a : A) : keeps_inv (mret a).
Proof. by intros s. Qed.

Lemma cancel_keeps r : keeps_inv (exit_or_cancel_lightning_receive cfg r).
Proof.
  unfold exit_or_cancel_lightning_receive. apply good_bind.
  - destruct (_ <$> lr_htlc_vtxos r) as [vs|], (lr_preimage_revealed_at r); try apply good_ret.
    + apply good_bind; [|intros; apply good_ret]. intros s Hs. eapply inv_calm; [exact Hs|apply calm_start_exits].
    + apply good_bind; [|intros; apply good_ret]. apply good_world. solve_keeps.
  - intros o. apply good_bind.
    + destruct o as [[[id u] st]|]; [|apply good_ret]. apply good_bind; [apply good_world; solve_keeps|intros t; apply good_world; solve_keeps].
    + intros _. apply good_bind; [apply good_world; solve_keeps|intros t; apply good_world, steady_finish].
Qed.

(** What the check of a payment returns can be claimed. *)
Lemma check_runs h wait token rand : runs good (check_lightning_receive cfg h wait token rand)
  (fun o s => match o with Some r => is_Some (lr_htlc_vtxos r) /\ armed r (ws_world s) | None => good s end) good.
Proof.
  unfold check_lightning_receive. eapply runs_bind; [apply runs_good, good_world; solve_keeps|intros ?; cbv beta].
  eapply runs_bind; [apply runs_good, good_world; solve_keeps|intros height; cbv beta].
  eapply (runs_bind _ _ _ (fun o s => good s /\ match o with Some r => lr_payment_hash r = h /\ receive_read (w_db (ws_world s)) r | None => True end)).
  { intros s Hs. unfold in_world, zoom. destruct (query_db _ (ws_world s)) as [o w'] eqn:Hr. cbn [fst snd].
    pose proof (fetch_receive_law h (w_db (ws_world s))) as Hl. pose proof (calm_reads _ _ _ Hl) as Hcd. destruct Hl as (Hc & Hp & Hl).
    apply query_db_run in Hr as [-> Ho].
    assert (Hgood : receives_inv (mkWorld (fetch_lightning_receive_by_payment_hash h (w_db (ws_world s))).2 (w_net (ws_world s)) (w_srv (ws_world s)) (w_mov (ws_world s)))).
    { eapply inv_calm; [exact Hs|]. by split. }
    destruct o as [r|e|]; [|exact Hgood..]. split; [exact Hgood|]. specialize (Hl _ Ho). destruct r as [r|]; [|done].
    destruct Hl as [Hh (row & Hrow & Hr & Hv)]. split; [done|]. exists row. cbn [ws_world w_db].
    pose proof (f_equal (fun t => t.1.1) Hp) as Hp1. pose proof (f_equal (fun t => t.1.1.1) Hc) as Hc1. cbn in Hp1, Hc1.
    rewrite Hp1. unfold vtxos_of in *. by rewrite Hc1. }
  intros o. eapply runs_bind; [apply runs_lift; by intros s []|intros r; cbv beta]. apply runs_pure. intros Ho%ok_or_Ok. subst o. cbn beta iota.
  destruct (lr_htlc_vtxos r) as [vs|] eqn:Hvs.
  { apply runs_ret. intros s (Hs & Hh & row & Hrow & Hr & Hv). split; [by rewrite Hvs|]. split; [done|]. exists row. split; [done|].
    rewrite Hr. cbn. split; [done|]. rewrite Hvs in Hv. by destruct (rr_htlc_vtxo_ids row). }
  set (P := fun s : WS => good s /\ lr_payment_hash r = h /\ receive_read (w_db (ws_world s)) r).
  assert (HP : forall s s', P s -> calm (ws_world s) (ws_world s') -> P s').
  { intros s s' (Hs & Hh & row & Hrow & Hr & Hv) Hc. split; [by eapply inv_calm|]. split; [done|]. exists row.
    destruct Hc as [Hc _]. rewrite (cd_receives _ _ Hc). rewrite Hvs in *. split; [done|]. split; [done|]. by destruct (rr_htlc_vtxo_ids row). }
  assert (Hkeep : forall {A} (m : X A), keeps calm m -> runs P (in_world m) (fun _ => P) good).
  { intros A m Hm. apply (runs_keeps (fun s s' : WS => calm (ws_world s) (ws_world s'))); [|exact HP|by intros s []]. intros s. apply (Hm (ws_world s)). }
  eapply runs_bind; [apply Hkeep; solve_keeps|intros status; cbv beta].
  eapply runs_bind; [apply runs_lift; by intros s []|intros st; cbv beta]. apply runs_pure. intros _.
  assert (Hprep : runs P (vtxos ← in_world (receive_htlcs cfg h height r token rand); receive ← in_world (store_htlcs cfg h r vtxos); mret (Some receive))
    (fun o s => match o with Some r => is_Some (lr_htlc_vtxos r) /\ armed r (ws_world s) | None => good s end) good).
  { eapply (runs_bind _ _ _ (fun vs s => stocked h r vs (ws_world s))).
    - intros s Hs. pose proof (Hkeep _ (receive_htlcs cfg h height r token rand) (calm_receive_htlcs _ _ _ _ _) s Hs) as Hr.
      unfold in_world, zoom in *. destruct (receive_htlcs _ _ _ _ _ _ (ws_world s)) as [[vs|e|] w'] eqn:Hrun; cbn [fst snd] in *; [|exact Hr..].
      apply receive_htlcs_run in Hrun; [|apply Hs]. destruct Hr as (Hi & Hh & row & Hrow & Hrr & _). rewrite Hh in *. split; [done|]. split; [done|].
      split; [exact Hrun|]. exists row. split; [done|]. by rewrite Hrr.
    - intros vs. eapply runs_bind; [apply runs_in_world, store_htlcs_runs|intros r'; cbv beta].
      apply runs_ret. by intros s []. }
  destruct st; try exact Hprep.
  - apply runs_ret. by intros s [].
  - intros s []. done.
  - apply (runs_pre _ good); [by intros s []|]. eapply runs_bind; [apply runs_good, cancel_keeps|intros ?]. by apply runs_ret.
Qed.

Lemma keeps_runs {A} (m : Y A) : runs good m (fun _ => good) good -> keeps_inv m.
Proof. intros H s Hs. specialize (H s Hs). by destruct (m s) as [[a|e|] s']. Qed.

(** A claim keeps the promise, also when it fails and the wallet gives up. *)
Lemma try_claim_keeps h wait token d : keeps_inv (try_claim_lightning_receive cfg h wait token d).
Proof.
  apply keeps_runs. unfold try_claim_lightning_receive.
  eapply runs_bind; [apply runs_good, good_world; solve_keeps|intros ?; cbv beta].
  eapply runs_bind; [apply runs_good, good_world; solve_keeps|intros ark_info; cbv beta].
  eapply runs_bind; [apply check_runs|intros [r|]; cbv beta iota]; [|by apply runs_ret].
  intros s [[vs Hvs] Har]. destruct (bool_decide _); [apply Har|]. rewrite Hvs.
  unfold mbind at 1, M_bind at 1, try_m. pose proof (runs_in_world _ _ _ _ (claim_steady r (rd_nonce d)) s Har) as Hc.
  destruct (in_world _ s) as [[outs|e|] s1]; [exact Hc| |exact Hc]. cbn [mret]. revert s1 Hc.
  assert (Hrest : keeps_inv (tip ← in_world (on_net chain_tip : X _); expires ← Effects.lift (about_to_expire cfg ark_info vs tip);
    _ ← (if (expires : bool) then exit_or_cancel_lightning_receive cfg r else mret tt); throw e : Y unit)); [|exact (runs_good _ Hrest)]. apply good_bind; [apply good_world; solve_keeps|intros tip]. apply good_bind; [apply good_pure|intros b].
  apply good_bind; [destruct b; [apply cancel_keeps|apply good_ret]|intros _ s1 Hs; exact Hs].
Qed.

Lemma try_claim_all_keeps wait d : keeps_inv (try_claim_all_lightning_receives cfg wait d).
Proof.
  unfold try_claim_all_lightning_receives. apply good_bind; [apply good_world; unfold pending_lightning_receives; solve_keeps|intros l].
  unfold forM_. induction l as [|r l IH]; cbn [foldM]; [apply good_ret|]. apply good_bind; [|intros []; exact IH].
  apply good_bind; [|intros; apply good_ret]. intros s Hs. pose proof (try_claim_keeps (bolt11_payment_hash (lr_invoice r)) wait None (d (bolt11_payment_hash (lr_invoice r))) s Hs) as H.
  unfold try_m. by destruct (try_claim_lightning_receive _ _ _ _ _ s) as [[[]|e|] s'].
Qed.


(** ** A claim that fails *)

(** The row of a payment, and a payment that is not finished. *)
Definition at_row (h : bytes) (row : ReceiveRow) (w : W) : Prop := keyed (w_db w) /\ db_receives (w_db w) !! h = Some row.
Definition unfinished (h : bytes) (ids : option (list bytes)) (w : W) : Prop :=
  exists row, at_row h row w /\ rr_finished_at row = None /\ rr_htlc_vtxo_ids row = ids.
Definition open_receive (h : bytes) (w : W) : Prop := exists ids, unfinished h ids w.

Lemma at_row_calm h row w w' : at_row h row w -> calm w w' -> at_row h row w'.
Proof. intros [Hk Hr] [Hc _]. split; [by apply Hc|]. by rewrite (cd_receives _ _ Hc). Qed.
Lemma unfinished_open h ids w : unfinished h ids w -> open_receive h w.
Proof. by exists ids. Qed.

Lemma unfinished_calm h ids w w' : unfinished h ids w -> calm w w' -> unfinished h ids w'.
Proof. intros (row & Hr & H) Hc. exists row. split; [by eapply at_row_calm|done]. Qed.
Lemma runs_unfinished {A} h ids (m : X A) : keeps calm m -> runs (unfinished h ids) m (fun _ => unfinished h ids) (unfinished h ids).
Proof. intros H. apply (runs_keeps calm); [done|by eapply unfinished_calm|done]. Qed.
Lemma runs_row {A} h row (m : X A) : rr_finished_at row = None -> keeps calm m -> runs (at_row h row) m (fun _ => at_row h row) (open_receive h).
Proof. intros Hf H. apply (runs_keeps calm); [done|by eapply at_row_calm|]. intros w Hw. by exists (rr_htlc_vtxo_ids row), row. Qed.

(** A call that changes the row of [h] by [f], or fails. *)
Lemma runs_alter h row f (g : ext db string unit) : rr_finished_at row = None -> (forall s, receives_change (g s) s (fun _ => alter f h)) ->
  runs (at_row h row) (query_db g : X unit) (fun _ => at_row h (f row)) (unfinished h (rr_htlc_vtxo_ids row)).
Proof.
  intros Hf Hg w [Hk Hrow]. destruct (query_db g w) as [o w'] eqn:Hr. apply query_db_run in Hr as [-> Ho].
  destruct (Hg (w_db w)) as (Hc & _ & _ & Hrec). pose proof (f_equal (fun t => t.1.1.1) Hc) as Hv. cbn in Hv.
  assert (Hk' : keyed (g (w_db w)).2) by (unfold keyed; by rewrite Hv).
  destruct o as [[]|e|]; [| |done]; rewrite Ho in Hrec.
  - split; [done|]. cbn [w_db]. by rewrite Hrec, lookup_alter_eq, Hrow.
  - exists row. split; [|done]. split; [done|]. cbn [w_db]. by rewrite Hrec.
Qed.

Lemma runs_finish h ids t : runs (unfinished h ids) (query_db (finish_pending_lightning_receive h t) : X unit)
  (fun _ w => exists row, db_receives (w_db w) !! h = Some row /\ rr_htlc_vtxo_ids row = ids) (unfinished h ids).
Proof.
  intros w (row & Hrow & Hf & Hids). pose proof (runs_alter h row (set_finished t) _ Hf (finish_receive_law h t) w Hrow) as H.
  destruct (query_db _ w) as [[[]|e|] w']; [|by rewrite Hids in H..]. exists (set_finished t row). by destruct H.
Qed.

Lemma claim_unfinished r rand ids : runs (unfinished (lr_payment_hash r) ids) (claim_lightning_receive cfg r rand : X _)
  (fun _ _ => True) (unfinished (lr_payment_hash r) ids).
Proof.
  unfold claim_lightning_receive. set (h := lr_payment_hash r).
  do 7 (eapply runs_bind; [apply runs_unfinished; solve_keeps|intros ?; cbv beta zeta]).
  eapply runs_bind; [apply runs_unfinished; solve_keeps|intros t; cbv beta zeta].
  eapply (runs_bind _ _ _ (fun _ => unfinished h ids)).
  { intros w (row & Hrow & Hf & Hids). pose proof (runs_alter h row (set_revealed t) _ Hf (set_revealed_law h t) w Hrow) as H.
    destruct (query_db _ w) as [[[]|e|] w']; [|by rewrite Hids in H..]. by exists (set_revealed t row). }
  intros []. eapply (runs_bind _ _ _ (fun _ => unfinished h ids)).
  { intros w Hw. destruct (on_srv _ w) as [o w'] eqn:Hr. apply on_srv_run in Hr as [-> _]. by destruct o. }
  intros resp. do 11 (eapply runs_bind; [apply runs_unfinished; solve_keeps|intros ?; cbv beta zeta]).
  eapply runs_bind; [apply runs_finish|intros ?; cbv beta]. by apply runs_ret.
Qed.


(** The wallet gives a payment up: its VTXOs are being exited, or they are
    marked as spent and no exit was started. *)
Definition given_up (r : LightningReceive) (vs : list WalletVtxo) (E : list ExitVtxo) (s : WS) : Prop :=
  match lr_preimage_revealed_at r with
  | Some _ => forall v, v ∈ vs -> vtxo_id (wv_vtxo v) ∈ exit_ids (ws_exits s)
  | None => ws_exits s = E /\ forall v, v ∈ vs -> spent_in (w_db (ws_world s)) (vtxo_id (wv_vtxo v))
  end.

Definition still (s s' : WS) : Prop := core_tables (w_db (ws_world s')) = core_tables (w_db (ws_world s)) /\ ws_exits s' = ws_exits s.
Lemma given_up_still r vs E s s' : given_up r vs E s -> still s s' -> given_up r vs E s'.
Proof.
  unfold given_up. intros H [Hc He]. pose proof (f_equal (fun t => t.1.1.1) Hc) as Hv. cbn in Hv. rewrite He.
  destruct (lr_preimage_revealed_at r); [done|]. unfold spent_in, state_of. by rewrite Hv.
Qed.

Lemma same_db_register vtxo : keeps same_db (register_exit_movement cfg vtxo : M (ExitManager.World net (MovementManager * mdb) db) ExitError.t unit).
Proof. unfold register_exit_movement. solve_keeps. by intros w. Qed.

Lemma start_exits_run vtxos (s s' : WS) : NoDup (exit_ids (ws_exits s)) -> start_exits cfg vtxos s = (Ok tt, s') ->
  forall v, v ∈ vtxos -> vtxo_id v ∈ exit_ids (ws_exits s').
Proof.
  intros Hnd H. unfold start_exits, on_exits, map_err_m, zoom in H.
  destruct (start_exit_for_vtxos (register_exit_movement cfg) vtxos (exit_world s)) as [o e] eqn:Hr. cbn [fst snd] in H.
  destruct (start_exits_spec _ _ (exit_world s) _ _ same_db_register Hnd Hr) as (_ & _ & Hin). destruct o as [[]|e'|]; [|done..].
  injection H as <-. by apply (Hin tt).
Qed.

Lemma spent_run ids (w w' : W) : on_wdb state_error (mark_vtxos_as_spent ids) w = (Ok tt, w') -> forall id, id ∈ ids -> spent_in (w_db w') id.
Proof.
  unfold on_wdb, map_err_m, zoom. cbn [fst snd]. destruct (mark_vtxos_as_spent ids (w_db w)) as [o d] eqn:Hs. intros H.
  apply set_vtxo_states_spec in Hs as [_ Hs]. destruct o as [[]|e|]; [|done..]. injection H as <-. exact Hs.
Qed.

Lemma on_mov_still {A} (m : M (MovementManager * mdb) MovementError A) (P : WS -> Prop) :
  (forall s s', P s -> calm (ws_world s) (ws_world s') -> still s s' -> P s') -> runs P (in_world (on_mov m : X A)) (fun _ => P) P.
Proof.
  intros HP. apply (runs_keeps (fun s s' : WS => calm (ws_world s) (ws_world s') /\ still s s')); [|by intros s s' H []; eauto|done].
  intros s. split; [apply (calm_mov m (ws_world s))|done].
Qed.

Lemma cancel_outcome r ids E : NoDup (exit_ids E) ->
  runs (fun s => unfinished (lr_payment_hash r) ids (ws_world s) /\ ws_exits s = E) (exit_or_cancel_lightning_receive cfg r)
    (fun _ s => given_up r (default [] (lr_htlc_vtxos r)) E s /\ exists row, db_receives (w_db (ws_world s)) !! lr_payment_hash r = Some row /\ rr_htlc_vtxo_ids row = ids)
    (fun s => open_receive (lr_payment_hash r) (ws_world s)).
Proof.
  intros Hnd. unfold exit_or_cancel_lightning_receive. set (vs := default [] (lr_htlc_vtxos r)).
  set (Q := fun s : WS => unfinished (lr_payment_hash r) ids (ws_world s) /\ given_up r vs E s).
  assert (HQ : forall s s', Q s -> calm (ws_world s) (ws_world s') -> still s s' -> Q s').
  { intros s s' [H1 H2] Hc Hs. split; [by eapply unfinished_calm|by eapply given_up_still]. }
  apply (runs_bind _ _ _ (fun _ => Q)).
  - unfold Q, given_up, vs. destruct (lr_htlc_vtxos r) as [l|], (lr_preimage_revealed_at r) as [t|]; cbn [default fmap option_fmap option_map].
    + eapply runs_bind; [|intros a; apply runs_ret; exact (fun s H => H)]. intros s [Hu He]. pose proof (calm_start_exits (wv_vtxo <$> l) s) as Hc.
      destruct (start_exits cfg (wv_vtxo <$> l) s) as [[[]|e|] s'] eqn:Hr; cbn [snd] in Hc; [|by eapply unfinished_open, unfinished_calm..].
      split; [by eapply unfinished_calm|]. intros v Hv. eapply start_exits_run; [by rewrite He|exact Hr|]. apply list_elem_of_fmap. by exists v.
    + eapply runs_bind; [|intros a; apply runs_ret; exact (fun s H => H)]. intros s [Hu He].
      pose proof (runs_unfinished (lr_payment_hash r) ids (on_wdb state_error (mark_vtxos_as_spent (vtxo_id <$> (wv_vtxo <$> l))))
        ltac:(solve_keeps) (ws_world s) Hu) as Hk.
      unfold in_world, zoom. destruct (on_wdb _ _ (ws_world s)) as [[[]|e|] w'] eqn:Hr; [|by eapply unfinished_open..]. split; [exact Hk|]. split; [exact He|].
      intros v Hv. eapply (spent_run _ _ _ Hr). rewrite <- list_fmap_compose. apply list_elem_of_fmap. by exists v.
    + apply runs_ret. intros s [Hu _]. split; [exact Hu|]. by intros v ?%elem_of_nil.
    + apply runs_ret. intros s [Hu He]. split; [exact Hu|]. split; [exact He|]. by intros v ?%elem_of_nil.
  - intros o. eapply (runs_bind _ _ _ (fun _ => Q)).
    + apply (runs_post _ _ (fun _ => Q) (fun _ => Q) Q); [|done|exact (fun s (H : Q s) => unfinished_open _ _ _ (proj1 H))].
      destruct o as [[[id u] st]|]; [|by apply runs_ret].
      apply (runs_bind _ _ _ (fun _ => Q)); [by intros s|intros t; by apply on_mov_still].
    + intros a. apply (runs_bind _ _ _ (fun _ => Q)); [by intros s|intros t].
      intros s [Hu Hg]. pose proof (runs_finish _ _ t _ Hu) as H. destruct (finish_receive_law (lr_payment_hash r) t (w_db (ws_world s))) as (Hc & _).
      unfold in_world, zoom. destruct (query_db _ (ws_world s)) as [o' w'] eqn:Hr. apply query_db_run in Hr as [-> _].
      destruct o' as [[]|e|]; [|by eapply unfinished_open..]. split; [|exact H]. eapply given_up_still; [exact Hg|]. split; [exact Hc|done].
Qed.

(** What the check finds out about a payment that is not finished. *)
Definition claimable (h : bytes) (row : ReceiveRow) (E : list ExitVtxo) (o : option LightningReceive) (s : WS) : Prop :=
  match o with
  | Some r => lr_payment_hash r = h /\ lr_preimage_revealed_at r = rr_revealed_at row /\ lr_finished_at r = None /\ ws_exits s = E /\
      exists vs, lr_htlc_vtxos r = Some vs /\ unfinished h (Some ((fun v => vtxo_id (wv_vtxo v)) <$> vs)) (ws_world s)
  | None => True
  end.

Lemma stored_run h row vs : forall l, rr_finished_at row = None -> runs (at_row h row) (foldM (fun l v => w ← query_db (get_wallet_vtxo (vtxo_id v));
    w ← Effects.lift (ok_or w "Failed to get wallet VTXO for lightning receive"%string); mret (l ++ [w])) l vs : X (list WalletVtxo))
  (fun ws w => (fun v => vtxo_id (wv_vtxo v)) <$> ws = ((fun v => vtxo_id (wv_vtxo v)) <$> l) ++ (vtxo_id <$> vs) /\ at_row h row w) (open_receive h).
Proof.
  induction vs as [|v vs IH]; intros l Hf; cbn [foldM]; [apply runs_ret; intros w Hw; by rewrite app_nil_r|].
  apply (runs_bind _ _ _ (fun l' w => (fun v => vtxo_id (wv_vtxo v)) <$> l' = ((fun v => vtxo_id (wv_vtxo v)) <$> l) ++ [vtxo_id v] /\ at_row h row w)).
  - apply (runs_bind _ _ _ (fun o w => (forall x, o = Some x -> vtxo_id (wv_vtxo x) = vtxo_id v) /\ at_row h row w)).
    + intros w Hw. pose proof (runs_row h row (query_db (get_wallet_vtxo (vtxo_id v))) Hf ltac:(solve_keeps) w Hw) as H.
      destruct (query_db _ w) as [[o|e|] w'] eqn:Hr; [|exact H..]. apply query_db_run in Hr as [_ Ho]. split; [|exact H].
      intros x ->. destruct (get_wallet_vtxo_db (vtxo_id v) (w_db w)) as (_ & _ & Hg). apply Hg in Ho. destruct Hw as [Hk _]. by apply (Hk (vtxo_id v)).
    + intros o. intros w [Ho Hw]. destruct o as [x|]; [|by exists (rr_htlc_vtxo_ids row), row].
      refine (conj _ Hw). rewrite <- (Ho x eq_refl). exact (fmap_app _ l [x]).
  - intros l'. apply runs_pure. intros Hl'. eapply runs_post; [by apply IH| |done]. cbv beta. intros ws w [-> Hw]. split; [|done].
    by rewrite Hl', <- app_assoc.
Qed.


Lemma store_htlcs_claimable h row r vs : lr_payment_hash r = h -> lr_preimage_revealed_at r = rr_revealed_at row -> lr_finished_at r = None ->
  rr_finished_at row = None ->
  runs (at_row h row) (store_htlcs cfg h r vs : X _) (fun r' w => lr_payment_hash r' = h /\ lr_preimage_revealed_at r' = rr_revealed_at row /\
    lr_finished_at r' = None /\ exists ws, lr_htlc_vtxos r' = Some ws /\ unfinished h (Some ((fun v => vtxo_id (wv_vtxo v)) <$> ws)) w) (open_receive h).
Proof.
  intros H1 H2 H3 Hf. unfold store_htlcs. do 3 (eapply runs_bind; [apply (runs_row h row _ Hf); solve_keeps|intros ?; cbv beta]).
  eapply runs_bind; [apply (runs_row h row _ Hf); solve_keeps|intros mid; cbv beta zeta].
  eapply runs_bind; [apply (runs_row h row _ Hf); solve_keeps|intros ?; cbv beta].
  eapply runs_bind; [eapply runs_post; [apply (runs_alter h row (set_htlcs (vtxo_id <$> vs) mid)); [exact Hf|intros s; apply update_receive_law]|
    exact (fun _ _ H => H)|apply unfinished_open]|intros ?; cbv beta].
  eapply runs_bind; [by apply stored_run|intros ws; cbv beta]. intros w [Hws Hrow]. split_and!; [done..|]. exists ws. split; [done|].
  exists (set_htlcs (vtxo_id <$> vs) mid row). split; [exact Hrow|]. split; [exact Hf|]. cbn. by rewrite Hws.
Qed.

Lemma check_outcome h row E wait token rand : rr_finished_at row = None -> NoDup (exit_ids E) ->
  runs (fun s => at_row h row (ws_world s) /\ ws_exits s = E) (check_lightning_receive cfg h wait token rand)
    (claimable h row E) (fun s => open_receive h (ws_world s)).
Proof.
  intros Hf Hnd. set (P := fun s : WS => at_row h row (ws_world s) /\ ws_exits s = E). set (F := fun s : WS => open_receive h (ws_world s)).
  assert (HF : forall s, P s -> F s) by (intros s [Hs _]; by exists (rr_htlc_vtxo_ids row), row).
  assert (Hk : forall {A} (m : X A), keeps calm m -> runs P (in_world m) (fun _ => P) F).
  { intros A m Hm s [Hr He]. pose proof (runs_row h row m Hf Hm (ws_world s) Hr) as H. unfold in_world, zoom.
    by destruct (m (ws_world s)) as [[a|e|] w']. }
  unfold check_lightning_receive. eapply runs_bind; [apply Hk; solve_keeps|intros ?; cbv beta].
  eapply runs_bind; [apply Hk; solve_keeps|intros height; cbv beta].
  apply (runs_bind _ _ _ (fun o s => (forall r, o = Some r -> lr_payment_hash r = h /\ r = receive_record h row (lr_htlc_vtxos r) /\
      match lr_htlc_vtxos r with Some vs => rr_htlc_vtxo_ids row = Some ((fun v => vtxo_id (wv_vtxo v)) <$> vs) | None => True end) /\ P s)).
  { intros s Hs. pose proof (Hk _ (query_db (fetch_lightning_receive_by_payment_hash h)) ltac:(solve_keeps) s Hs) as H. unfold in_world, zoom in *.
    destruct (query_db _ (ws_world s)) as [o w'] eqn:Hr. cbn [fst snd] in *. apply query_db_run in Hr as [_ Ho]. destruct o as [r|e|]; [|exact H..].
    split; [|exact H]. intros r' ->. destruct (fetch_receive_law h (w_db (ws_world s))) as (_ & _ & Hl).
    destruct (Hl _ Ho) as [Hh (row' & Hrow' & Hrec & Hv)]. destruct Hs as [[Hkd Hrow] _]. rewrite Hh in *.
    pose proof (eq_trans (eq_sym Hrow) Hrow') as [= <-]. split_and!; [done|done|].
    destruct (lr_htlc_vtxos r') as [vs|]; [|done]. destruct (rr_htlc_vtxo_ids row) as [ids|]; [|done]. f_equal. unfold vtxos_of in Hv. clear -Hv Hkd.
    revert vs Hv. induction ids as [|id ids IH]; intros vs Hv; [by injection Hv as <-|]. cbn in Hv.
    destruct (db_vtxos _ !! id) as [v|] eqn:Hid; [|done]. cbn in Hv. destruct (mapM _ ids) as [l|] eqn:Hl; [|done]. injection Hv as <-.
    cbn. f_equal; [by rewrite (Hkd _ _ Hid)|by apply IH]. }
  intros o. apply (runs_bind _ _ _ (fun r s => o = Some r /\ (forall r, o = Some r -> lr_payment_hash r = h /\ r = receive_record h row (lr_htlc_vtxos r) /\
      match lr_htlc_vtxos r with Some vs => rr_htlc_vtxo_ids row = Some ((fun v => vtxo_id (wv_vtxo v)) <$> vs) | None => True end) /\ P s)).
  { intros s [Ho Hs]. destruct o as [r|]; [by split|by apply HF]. }
  intros r. apply runs_pure. intros ->. apply runs_pure. intros Ho. destruct (Ho r eq_refl) as (Hh & Hr & Hv). clear Ho.
  assert (Hrev : lr_preimage_revealed_at r = rr_revealed_at row) by by rewrite Hr. assert (Hfin : lr_finished_at r = None) by by rewrite Hr.
  destruct (lr_htlc_vtxos r) as [vs|] eqn:Hvs.
  { apply runs_ret. intros s [Hrow He]. split_and!; [done..|]. exists vs. split; [done|]. by exists row. }
  eapply runs_bind; [apply Hk; solve_keeps|intros status; cbv beta].
  apply (runs_bind _ _ _ (fun _ => P)); [intros s Hs; destruct status; [exact Hs|by apply HF]|intros st].
  assert (Hprep : runs P (vtxos ← in_world (receive_htlcs cfg h height r token rand); receive ← in_world (store_htlcs cfg h r vtxos); mret (Some receive))
    (claimable h row E) F).
  { eapply runs_bind; [apply Hk; solve_keeps|intros vtxos; cbv beta].
    intros s [Hrow He]. pose proof (store_htlcs_claimable h row r vtxos Hh Hrev Hfin Hf (ws_world s) Hrow) as H.
    unfold mbind, M_bind, in_world, zoom. destruct (store_htlcs _ _ _ _ (ws_world s)) as [[r'|e|] w']; [|exact H..].
    destruct H as (A1 & A2 & A3 & A4). by split_and!. }
  destruct st; try exact Hprep; [by apply runs_ret|exact HF|].
  apply (runs_bind _ _ _ (fun _ _ => True)); [|intros ?; by apply runs_ret]. subst h.
  pose proof (cancel_outcome r (rr_htlc_vtxo_ids row) E Hnd) as Hc. intros s [Hrow He]. specialize (Hc s (conj (ex_intro _ row (conj Hrow (conj Hf eq_refl))) He)).
  by destruct (exit_or_cancel_lightning_receive cfg r s) as [[[]|e|] s'].
Qed.


(** A claim leaves the payment open, or gives it up. *)
Lemma try_claim_outcome h row E wait token d : rr_finished_at row = None -> NoDup (exit_ids E) ->
  runs (fun s => at_row h row (ws_world s) /\ ws_exits s = E) (try_claim_lightning_receive cfg h wait token d) (fun _ _ => True)
    (fun s => open_receive h (ws_world s) \/ exists r vs, lr_preimage_revealed_at r = rr_revealed_at row /\ given_up r vs E s /\
       exists row', db_receives (w_db (ws_world s)) !! h = Some row' /\ rr_htlc_vtxo_ids row' = Some ((fun v => vtxo_id (wv_vtxo v)) <$> vs)).
Proof.
  intros Hf Hnd. set (F := fun s : WS => open_receive h (ws_world s) \/ _).
  assert (Hk : forall {A} (m : X A), keeps calm m -> runs (fun s : WS => at_row h row (ws_world s) /\ ws_exits s = E) (in_world m)
    (fun _ s => at_row h row (ws_world s) /\ ws_exits s = E) F).
  { intros A m Hm s [Hr He]. pose proof (runs_row h row m Hf Hm (ws_world s) Hr) as H. unfold in_world, zoom.
    destruct (m (ws_world s)) as [[a|e|] w']; [by split|by left..]. }
  unfold try_claim_lightning_receive. eapply runs_bind; [apply Hk; solve_keeps|intros ?; cbv beta].
  eapply runs_bind; [apply Hk; solve_keeps|intros ark_info; cbv beta].
  apply (runs_bind _ _ _ (claimable h row E)).
  { eapply runs_post; [by apply check_outcome|done|]. intros s Hs. by left. }
  intros [r|]; [|by apply runs_ret]. intros s (Hh & Hrev & Hfin & He & vs & Hvs & Hu). rewrite Hfin, Hvs. cbn [bool_decide is_Some_dec]. subst h.
  assert (He1 : ws_exits (in_world (claim_lightning_receive cfg r (rd_nonce d)) s).2 = E) by exact He.
  pose proof (runs_in_world _ _ _ _ (claim_unfinished r (rd_nonce d) _) s Hu) as Hc. unfold mbind at 1, M_bind at 1, try_m.
  destruct (in_world _ s) as [[outs|e|] s1]; [exact I| |left; apply (unfinished_open _ _ _ Hc)].
  unfold mret at 1, M_ret at 1.
  set (P := fun s : WS => unfinished (lr_payment_hash r) (Some ((fun v => vtxo_id (wv_vtxo v)) <$> vs)) (ws_world s) /\ ws_exits s = E).
  assert (HF : forall s, P s -> F s) by (intros s0 [H0 _]; left; by eapply unfinished_open).
  assert (Htail : runs P (tip ← in_world (on_net chain_tip : X _); expires ← Effects.lift (about_to_expire cfg ark_info vs tip);
     _ ← (if (expires : bool) then exit_or_cancel_lightning_receive cfg r else mret tt); throw e : Y unit) (fun _ _ => True) F); [|by apply Htail].
  eapply runs_bind; [|intros tip; eapply runs_bind; [by apply (runs_lift P)|intros b; cbv beta]].
  { intros s0 [H0 He0]. pose proof (runs_unfinished _ _ (on_net chain_tip) ltac:(solve_keeps) _ H0) as H. unfold in_world, zoom.
    destruct (on_net chain_tip (ws_world s0)) as [[tip|e'|] w0]; [exact (conj H He0)|by apply HF..]. }
  apply runs_pure. intros _. destruct b; [|by intros s0 H0; apply HF].
  intros s0 H0. unfold mbind, M_bind. pose proof (cancel_outcome r _ E Hnd s0 H0) as H. rewrite Hvs in H.
  destruct (exit_or_cancel_lightning_receive cfg r s0) as [[[]|e'|] s2]; [right|by left..]. exists r, vs. by split; [|exact H].
Qed.

End Facts.
