(* ===== verification/LightningReceiveReach.v ===== *)
(** * Receiving lightning payments: what the wallet risks

    [preimage_revealed_safely]: in every state the wallet reaches, a preimage
    the server was told unlocks VTXOs the wallet holds.  [failed_claim_outcome]:
    what is left of a payment the wallet gave up after a failed claim. *)
From stdpp Require Import gmap relations.
From S2P Require Import Prelude Effects Bitcoin Encode Concrete Policy Vtxo VtxoEncoding Validation Extend Arkoor ArkoorPackage ChainSource ExitStates.
From S2P Require Import Persist ExitManager ExitProgress ExitVtxo ExitDurable Movement Rounds SignedTree Connectors WalletRoundState WalletRound.
From S2P Require Import MovementFacts WalletRoundReach WalletKeys Selection WalletTables WalletState LightningReceive LightningReceiveFacts.

Open Scope Z_scope.

Section Reach.
Context `{B : Bitcoin} `{C : !Consensus} `{S : !Signing B} `{PT : !PaymentTypes} `{LT : !LightningTypes}.
Context {db net srv mdb : Type} `{!Persister db, !RoundPersister db, !KeyPersister db, !LightningPersister db, !BoardPersister db,
  !ChainSource net, !RoundChain net, !RoundServer srv, !ReceiveServer srv, !MovementDb mdb}.
Context `{!PersisterLaws db, !RoundPersisterLaws db, !KeyPersisterLaws db, !WalletDbLaws db, !ReceiveServerLaws srv}.
Notation W := (World (db := db) (net := net) (srv := srv) (mdb := mdb)).
Notation X := (M W string).
Notation WS := (WalletState (db := db) (net := net) (srv := srv) (mdb := mdb)).
Notation Y := (M WS string).
Context (cfg : WalletConfig).
Context (onchain : bytes -> Transaction -> Prop).
Context (honest_chain : forall txid (n : net) tx, (get_tx txid n).1 = inr (Some tx) -> onchain txid tx).

(** The steps of a wallet: the operations of this component, whatever becomes
    of them, and any other change that loses no VTXO and no key and leaves
    receives alone. *)
Inductive receive_step : relation WS :=
  | StepInvoice amount preimage s : receive_step s (in_world (make_bolt11_invoice cfg amount preimage) s).2
  | StepCheck h wait token rand s : receive_step s (check_lightning_receive cfg h wait token rand s).2
  | StepClaim h wait token d s : receive_step s (try_claim_lightning_receive cfg h wait token d s).2
  | StepClaimAll wait d s : receive_step s (try_claim_all_lightning_receives cfg wait d s).2
  | StepOther s s' : calm cfg (ws_world s) (ws_world s') -> receive_step s s'.

(** A wallet that has not received a payment. *)
Definition no_receives (w : W) : Prop :=
  keyed (w_db w) /\ keys_ok cfg (w_db w) /\ db_receives (w_db w) = ∅ /\ preimages_sent (w_srv w) = [].

Lemma no_receives_inv w : no_receives w -> receives_inv cfg onchain w.
Proof. intros (H1 & H2 & H3 & H4). split; [done|done|intros h row; by rewrite H3|intros p; rewrite H4; by intros ?%elem_of_nil]. Qed.

Lemma receive_step_inv s s' : receive_step s s' -> receives_inv cfg onchain (ws_world s) -> receives_inv cfg onchain (ws_world s').
Proof.
  intros [amount preimage s0|h wait token rand s0|h wait token d s0|wait d s0|s0 s1 Hc] Hi.
  - apply good_world; [apply invoice_steady|done].
  - apply (keeps_runs cfg onchain); [|done]. eapply runs_post; [apply (check_runs cfg onchain honest_chain)| |done]. intros [r|] s2; [by intros [_ []]|done].
  - by apply (try_claim_keeps cfg onchain honest_chain).
  - by apply (try_claim_all_keeps cfg onchain honest_chain).
  - by eapply inv_calm.
Qed.

(** C13. A preimage the server was told, at whatever moment and whatever the
    server and the chain answered, is one of a payment whose VTXOs the wallet
    holds: validated on a transaction the chain reported, locked by the hash of
    that preimage and by keys of the wallet, and worth the whole invoice; and the
    database says that it was revealed. *)
Theorem preimage_revealed_safely (s s' : WS) (p : bytes) : no_receives (ws_world s) -> rtc receive_step s s' ->
  p ∈ preimages_sent (w_srv (ws_world s')) ->
  let d := w_db (ws_world s') in
  exists row ids, db_receives d !! compute_payment_hash p = Some row /\ rr_preimage row = p /\ is_Some (rr_revealed_at row) /\
    rr_htlc_vtxo_ids row = Some ids /\ backed cfg onchain d (compute_payment_hash p) (rr_invoice row) ids.
Proof.
  intros H0%no_receives_inv Hr Hp. cbv zeta. assert (Hi : receives_inv cfg onchain (ws_world s')).
  { induction Hr as [s|s s1 s' Hs _ IH]; [done|]. apply IH; [|done]. by eapply receive_step_inv. }
  destruct (ri_sent _ _ _ Hi p Hp) as (row & Hrow & Hpre & Hrev). destruct (ri_rows _ _ _ Hi _ _ Hrow) as (_ & Hids & Hb).
  destruct (Hids Hrev) as [ids Hids']. exists row, ids. split_and!; auto.
Qed.

(** C38. A claim fails and the wallet gives the payment up (the record of the
    payment was open, and now it is finished).  If the preimage had been revealed
    before this attempt, all VTXOs of the payment are being exited.  But if it had
    not, they are only marked as spent and no exit is started, also when this
    very attempt has told the server the preimage. *)
Theorem failed_claim_outcome h wait token d (s s' : WS) e row row' : keyed (w_db (ws_world s)) -> NoDup (exit_ids (ws_exits s)) ->
  db_receives (w_db (ws_world s)) !! h = Some row -> rr_finished_at row = None ->
  try_claim_lightning_receive cfg h wait token d s = (Err e, s') ->
  db_receives (w_db (ws_world s')) !! h = Some row' -> is_Some (rr_finished_at row') ->
  exists ids, rr_htlc_vtxo_ids row' = Some ids /\
    match rr_revealed_at row with
    | Some _ => forall id, id ∈ ids -> id ∈ exit_ids (ws_exits s')
    | None => ws_exits s' = ws_exits s /\ forall id, id ∈ ids -> spent_in (w_db (ws_world s')) id
    end.
Proof.
  intros Hk Hnd Hrow Hf Hrun Hrow' Hfin'. pose proof (try_claim_outcome cfg h row (ws_exits s) wait token d Hf Hnd s) as H.
  rewrite Hrun in H. destruct H as [H|(r & vs & Hrev & Hg & row2 & Hrow2 & Hids)]; [by split|..].
  - exfalso. destruct H as (ids & row2 & [_ Hrow2] & Hf2 & _). pose proof (eq_trans (eq_sym Hrow') Hrow2) as [= <-]. by rewrite Hf2 in Hfin'; destruct Hfin'.
  - pose proof (eq_trans (eq_sym Hrow') Hrow2) as [= <-]. eexists. split; [exact Hids|]. unfold given_up in Hg. rewrite Hrev in Hg.
    assert (Hel : forall id, id ∈ (fun v => vtxo_id (wv_vtxo v)) <$> vs -> exists v, id = vtxo_id (wv_vtxo v) /\ v ∈ vs) by (intros id; by rewrite list_elem_of_fmap).
    destruct (rr_revealed_at row); [|split; [apply Hg|]]; intros id (v & -> & Hv)%Hel; by apply Hg.
Qed.

End Reach.

(** ** A payment in the model

    A server that gives the HTLC VTXOs it has been set up with and fails every
    claim, after it has learned the preimage. *)
Record SampleReceiver := mkSampleReceiver { sr_htlcs : list bytes; sr_preimages : list bytes }.

#[export] Instance sample_receiver : RoundServer (B := ser_model) SampleReceiver := {|
  require_server s := (inr tt, s);
  get_ark_info s := (inr (mkArkInfo (B := ser_model) Byte.x09 4 12 144 6 1 250 1000 1), s);
  submit_payment _ s := (inr tt, s);
  provide_vtxo_signatures _ _ s := (inr tt, s);
  provide_forfeit_signatures _ s := (inr tt, s);
  last_round_event s := (inl "no event"%string, s);
  forfeits_sent _ := [] |}.

#[export] Instance sample_receives : ReceiveServer (B := ser_model) SampleReceiver := {|
  start_lightning_receive _ _ _ s := (inr "lnbc30u"%string, s);
  check_receive_status _ _ s := (inr (Some LrsHtlcsReady), s);
  prepare_lightning_receive_claim _ s := (inr (sr_htlcs s), s);
  send_claim c s := (inl "timeout"%string, mkSampleReceiver (sr_htlcs s) (sr_preimages s ++ [cr_payment_preimage c]));
  preimages_sent := sr_preimages |}.

#[export] Instance sample_receives_laws : ReceiveServerLaws (B := ser_model) SampleReceiver.
Proof. split; try done. intros c s. by right. Qed.

(** Invoices of 3000 sat. *)
#[export] Instance sample_invoices : LightningTypes (PT := sample_types) := {|
  Bolt11Invoice := unit; parse_bolt11 := fun _ => Some tt; amount_milli_satoshis := fun _ => Some 3000000; bolt11_payment_hash := fun _ => [];
  invoice_bolt11 := fun _ => (tt : @Invoice sample_types); invoice_payment_hash := fun _ => [] |}.

#[local] Existing Instance sample_types.

Definition sample_preimage : bytes := [Byte.x55].
Definition sample_hash : bytes := compute_payment_hash (B := ser_model) sample_preimage.

(** A VTXO on a transaction of the chain, locked by the hash and by the first key of the wallet. *)
Definition htlc_anchor_tx : Transaction :=
  mkTx 2 0 [] [ok_value (mkTxOut 0 []) (input_txout (B := ser_model) (E := unit) (Cosigned (B := ser_model) [Byte.x01; Byte.x09] Byte.x33) 3000 Byte.x09 2000 144)].
Definition htlc_vtxo : Vtxo (B := ser_model) :=
  mkVtxo (B := ser_model) (ServerHtlcRecv (B := ser_model) (mkHtlcRecvPolicy (B := ser_model) Byte.x00 sample_hash 12 1000)) 3000 2000 Byte.x09 144
    (mkOutPoint (compute_txid (Bitcoin := ser_model) htlc_anchor_tx) 0)
    [mkItem (B := ser_model) (Cosigned (B := ser_model) [Byte.x01; Byte.x09] Byte.x33) 0 []] (mkOutPoint (Concrete.hash [Byte.x56]) 0).

Definition receive_cfg : WalletConfig (B := ser_model) :=
  mkWalletConfig (B := ser_model) 6 12 12 18 Esplora (fun _ => 0) (fun i => match Byte.of_N (Z.to_N i) with Some b => b | None => Byte.x00 end).

#[local] Instance ser_signing : Signing ser_model := Build_Signing ser_model (fun _ _ _ => Byte.x33) (fun kp _ => Some kp)
  (fun tx i os => Concrete.hash (tx_bytes (strip tx) ++ int_bytes (Z.of_nat i))).

(** A chain on which that is the only transaction. *)
Definition ReceiveNet : Type := Z.
#[local] Instance receive_chain : ChainSource ReceiveNet := {|
  fee_rates _ := mkFeeRates 1 1 1;
  chain_tip n := (inr n, n);
  block_ref h n := (inr (mkBlockRef h []), n);
  chain_tx_status _ n := (inr TxStatus.NotFound, n);
  txs_spending_inputs _ _ n := (inr ∅, n);
  get_tx _ n := (inr (Some htlc_anchor_tx), n);
  mempool_ancestor_info _ n := (inl "not found"%string, n);
  broadcast_txs _ n := (inr tt, n) |}.
#[local] Instance receive_round_chain : RoundChain ReceiveNet := {|
  get_output_status _ _ n := (inr None, n); get_tx_out _ _ n := (inr None, n); broadcast_tx _ n := (inr tt, n); clock _ := 0 |}.

Notation ReceiveWorld := (World (PT := sample_types) (db := WalletTables (B := ser_model)) (net := ReceiveNet) (srv := SampleReceiver) (mdb := MovTables (PT := sample_types))).
Notation ReceiveState := (WalletState (PT := sample_types) (db := WalletTables (B := ser_model)) (net := ReceiveNet) (srv := SampleReceiver) (mdb := MovTables (PT := sample_types))).

Definition receive_w0 : ReceiveWorld :=
  mkWorld (PT := sample_types) (mkWalletTables (B := ser_model) (mkRoundTables (B := ser_model) (mkSqlite (B := ser_model) ∅ ∅ ∅ []) ∅ 0 ∅) ∅ ∅ ∅)
    (100 : ReceiveNet) (mkSampleReceiver (match serialize htlc_vtxo with Ok b => [b] | _ => [] end) [])
    (mkManager {[ 0 := "bark.lightning"%string ]} ∅, mkTables ∅ 0 []).
Definition receive_s0 : ReceiveState := mkState (PT := sample_types) receive_w0 [] manager_new.

Definition receive_d : ReceiveDraws := mkReceiveDraws 5 (fun i => Z.of_nat i).
Definition receive_s1 := (in_world (make_bolt11_invoice (B := ser_model) receive_cfg 3000 sample_preimage) receive_s0).2.
Notation try_claim := (try_claim_lightning_receive (B := ser_model) (C := model_consensus) receive_cfg sample_hash true (Some "token"%string) receive_d).

Definition sent_s : ReceiveState := (try_claim receive_s1).2.

Lemma receive_started : no_receives (B := ser_model) receive_cfg (ws_world receive_s0).
Proof.
  split; [|split; [|split; reflexivity]].
  { intros id v. cbn [db_vtxos wallet_tables_persister round_tables_persister sqlite wt_rt rt_db receive_s0 receive_w0 ws_world w_db sq_vtxos].
    rewrite lookup_fmap, lookup_empty. discriminate. }
  exists 0. split; [lia|]. intros i. rewrite decide_False by lia. reflexivity.
Qed.

(** The server learned the preimage, and the wallet has the VTXO for it. *)
Lemma sent_reached : rtc (receive_step (B := ser_model) (C := model_consensus) receive_cfg) receive_s0 sent_s.
Proof.
  unfold sent_s. apply (rtc_l _ _ receive_s1).
  - exact (StepInvoice (B := ser_model) (C := model_consensus) receive_cfg 3000 sample_preimage receive_s0).
  - apply rtc_once. exact (StepClaim (B := ser_model) (C := model_consensus) receive_cfg sample_hash true (Some "token"%string) receive_d receive_s1).
Qed.

Definition only_tx (txid : bytes) (tx : Transaction) : Prop := tx = htlc_anchor_tx.
Lemma only_tx_honest txid (n : ReceiveNet) tx : (get_tx txid n).1 = inr (Some tx) -> only_tx txid tx.
Proof. by intros [= <-]. Qed.

(** The server learned the preimage, and the wallet has the VTXO for it. *)
Lemma preimage_revealed_safely_witness : exists row ids, db_receives (w_db (ws_world sent_s)) !! sample_hash = Some row /\
  rr_preimage row = sample_preimage /\ rr_htlc_vtxo_ids row = Some ids /\
  backed (B := ser_model) receive_cfg only_tx (w_db (ws_world sent_s)) sample_hash (rr_invoice row) ids.
Proof.
  assert (Hp : sample_preimage ∈ preimages_sent (B := ser_model) (w_srv (ws_world sent_s))).
  { assert (H : sr_preimages (w_srv (ws_world sent_s)) = [sample_preimage]) by vm_eq. refine (eq_ind_r (fun l => sample_preimage ∈ l) _ H). by left. }
  pose proof (preimage_revealed_safely (B := ser_model) (C := model_consensus) receive_cfg only_tx only_tx_honest receive_s0 sent_s sample_preimage
    receive_started sent_reached Hp) as (row & ids & H1 & H2 & _ & H3 & H4).
  exists row, ids. split; [exact H1|]. split; [exact H2|]. split; [exact H3|exact H4].
Defined.

(** Much later the wallet claims for the first time: the server learns the
    preimage, the claim fails, and no exit is started. *)
Definition late_s : ReceiveState :=
  let s := (check_lightning_receive (B := ser_model) (C := model_consensus) receive_cfg sample_hash true (Some "token"%string) 5 receive_s1).2 in
  mkState (PT := sample_types) (mkWorld (w_db (ws_world s)) (1000 : ReceiveNet) (w_srv (ws_world s)) (w_mov (ws_world s))) (ws_exits s) (ws_txs s).
Definition late_row : ReceiveRow := default (receive_new [] tt 0 0) (db_receives (w_db (ws_world late_s)) !! sample_hash).
Definition late_row' : ReceiveRow := default (receive_new [] tt 0 0) (db_receives (w_db (ws_world (try_claim late_s).2)) !! sample_hash).

Lemma late_keyed : keyed (B := ser_model) (w_db (ws_world late_s)).
Proof.
  pose proof (no_receives_inv (B := ser_model) receive_cfg only_tx _ receive_started) as H0.
  pose proof (receive_step_inv (B := ser_model) (C := model_consensus) receive_cfg only_tx only_tx_honest _ _
    (StepInvoice (B := ser_model) (C := model_consensus) receive_cfg 3000 sample_preimage receive_s0) H0) as H1.
  pose proof (receive_step_inv (B := ser_model) (C := model_consensus) receive_cfg only_tx only_tx_honest _ _
    (StepCheck (B := ser_model) (C := model_consensus) receive_cfg sample_hash true (Some "token"%string) 5 receive_s1) H1) as H2.
  exact (ri_keyed _ _ _ H2).
Qed.

Lemma known_row (m : gmap bytes ReceiveRow) (h : bytes) d : bool_decide (is_Some (m !! h)) = true -> m !! h = Some (default d (m !! h)).
Proof. intros [r Hr]%bool_decide_eq_true. by rewrite Hr. Qed.

Lemma failed_claim_outcome_witness : sr_preimages (w_srv (ws_world (try_claim late_s).2)) = [sample_preimage] /\
  exists ids, rr_htlc_vtxo_ids late_row' = Some ids /\ ws_exits (try_claim late_s).2 = [] /\
  forall id, id ∈ ids -> spent_in (B := ser_model) (w_db (ws_world (try_claim late_s).2)) id.
Proof.
  split; [vm_eq|].
  assert (H0 : db_receives (w_db (ws_world late_s)) !! sample_hash = Some late_row) by (apply known_row; vm_eq).
  assert (H1 : db_receives (w_db (ws_world (try_claim late_s).2)) !! sample_hash = Some late_row') by (apply known_row; vm_eq).
  assert (H2 : rr_finished_at late_row = None) by vm_eq.
  assert (H3 : (try_claim late_s).1 = Err "timeout"%string) by vm_eq.
  assert (H4 : rr_finished_at late_row' = Some 0) by vm_eq.
  assert (H5 : rr_revealed_at late_row = None) by vm_eq.
  assert (H6 : ws_exits late_s = []) by vm_eq.
  pose proof (failed_claim_outcome (B := ser_model) (C := model_consensus) receive_cfg sample_hash true (Some "token"%string) receive_d late_s
    (try_claim late_s).2 "timeout"%string late_row late_row' late_keyed) as Hw.
  rewrite H6 in Hw. specialize (Hw (NoDup_nil_2 (A := bytes)) H0 H2).
  destruct Hw as (ids & Hids & Hout); [by rewrite <- H3, <- surjective_pairing|exact H1|rewrite H4; by eexists|].
  rewrite H5 in Hout. exists ids. split; [exact Hids|exact Hout].
Defined.
