(* ===== verification/LightningPay.v ===== *)
(** * Paying over lightning (bark/src/lightning/pay.rs)

    The wallet selects VTXOs, turns them with the server's help into VTXOs that
    are locked by the payment hash (HTLC VTXOs), and tells the server to pay.
    Later it asks how the payment went: with a preimage the HTLC VTXOs are spent;
    without one the server helps to turn them back into the wallet's own, or the
    wallet exits them.  Nothing is assumed about what the server answers. *)
From stdpp Require Import gmap.
From S2P Require Import Prelude Effects Bitcoin Encode Concrete Policy Vtxo VtxoEncoding Validation Arkoor ArkoorPackage ChainSource ExitStates.
From S2P Require Import Persist ExitManager ExitProgress ExitVtxo Movement Rounds SignedTree Connectors WalletRoundState WalletRound.
From S2P Require Import WalletKeys Selection WalletTables WalletState LightningReceive.

Open Scope Z_scope.

(** ** Invoices (lib/src/lightning.rs)

    [bitcoin::Network], and what the wallet asks of invoices and offers. *)
Inductive Network := NetBitcoin | NetTestnet | NetTestnet4 | NetSignet | NetRegtest.
#[export] Instance network_dec : EqDecision Network.
Proof. solve_decision. Defined.

Class InvoiceTypes `{B : Bitcoin} `{LT : LightningTypes} := {
  Bolt12Invoice : Type;
  invoice_kind : Invoice -> Bolt11Invoice + Bolt12Invoice;
  invoice_bolt12 : Bolt12Invoice -> Invoice;
  parse_invoice : string -> option Invoice;
  parse_bolt12 : bytes -> option Bolt12Invoice;
  bolt11_network : Bolt11Invoice -> Network;
  bolt11_check_signature : Bolt11Invoice -> bool;
  bolt12_chain : Bolt12Invoice -> bytes;
  amount_msats : Bolt12Invoice -> Z;
  signable_hash : Bolt12Invoice -> bytes;
  bolt12_signature : Bolt12Invoice -> Signature;
  issuer_signing_pubkey : Bolt12Invoice -> option PublicKey;
  offer_issuer : Offer -> option PublicKey;
  offer_write : Offer -> bytes;
  CHAIN_BITCOIN : bytes; CHAIN_TESTNET3 : bytes; CHAIN_TESTNET4 : bytes; CHAIN_SIGNET : bytes; CHAIN_REGTEST : bytes;
}.

Section Invoices.
Context `{B : Bitcoin} `{LT : LightningTypes} `{IT : !InvoiceTypes}.

Definition invoice_network (i : Invoice) : outcome string Network :=
  match invoice_kind i with
  | inl invoice => Ok (bolt11_network invoice)
  | inr invoice =>
      let chain := bolt12_chain invoice in
      if bool_decide (chain = CHAIN_BITCOIN) then Ok NetBitcoin
      else if bool_decide (chain = CHAIN_TESTNET3) then Ok NetTestnet
      else if bool_decide (chain = CHAIN_TESTNET4) then Ok NetTestnet4
      else if bool_decide (chain = CHAIN_SIGNET) then Ok NetSignet
      else if bool_decide (chain = CHAIN_REGTEST) then Ok NetRegtest
      else Panic
  end.

(** [Amount::from_msat_ceil]. *)
Definition from_msat_ceil (msat : Z) : outcome string Z := v ← u_add 64 msat 999; Ok (v / 1000).

Definition get_invoice_final_amount (invoice_amount user_amount : option Z) : outcome string Z :=
  match invoice_amount, user_amount with
  | Some invoice_amount, Some user_amount =>
      if user_amount <? invoice_amount then Err "invalid user amount"%string
      else most ← u_mul 64 invoice_amount 2;
           if user_amount <=? most then Ok user_amount else Err "invalid user amount"%string
  | Some invoice_amount, None => Ok invoice_amount
  | None, Some user_amount => Ok user_amount
  | None, None => Err "user amount required"%string
  end.

Definition get_final_amount (i : Invoice) (user_amount : option Z) : outcome string Z :=
  match invoice_kind i with
  | inl invoice =>
      invoice_amount ← (match amount_milli_satoshis invoice with Some m => a ← from_msat_ceil m; Ok (Some a) | None => Ok None end);
      get_invoice_final_amount invoice_amount user_amount
  | inr invoice => invoice_amount ← from_msat_ceil (amount_msats invoice); get_invoice_final_amount (Some invoice_amount) user_amount
  end.

Definition check_signature (i : Invoice) : outcome string unit :=
  match invoice_kind i with
  | inl invoice => ensure (bolt11_check_signature invoice) "invalid invoice signature"%string
  | inr invoice =>
      match issuer_signing_pubkey invoice with
      | Some pubkey => ensure (verify_schnorr (bolt12_signature invoice) (signable_hash invoice) (x_only_public_key pubkey)) "invalid signature"%string
      | None => Err "no pubkey on offer, cannot verify signature"%string
      end
  end.

Definition validate_issuance (i : Bolt12Invoice) (offer : Offer) : outcome string unit :=
  ensure (bool_decide (issuer_signing_pubkey i = offer_issuer offer)) "public keys mismatch"%string.

Definition is_lightning (m : PaymentMethod) : bool :=
  match m with PmInvoice _ | PmOffer _ | PmLightningAddress _ => true | _ => false end.
Definition is_custom (m : PaymentMethod) : bool := match m with PmCustom _ => true | _ => false end.
End Invoices.

(** ** The server and the configuration *)
Inductive PaymentStatus := PsPending | PsSuccess (preimage : bytes) | PsFailed.

Section Messages.
Context `{B : Bitcoin} `{LT : LightningTypes}.

Record HtlcCosignRequest := mkHtlcCosign {
  hq_invoice : Invoice; hq_user_amount : option Z; hq_input_vtxo_ids : list bytes; hq_user_nonces : list PublicNonce; hq_user_pubkey : PublicKey }.

Class PayServer (srv : Type) := {
  request_lightning_pay_htlc_cosign : HtlcCosignRequest -> ext srv string (list ArkoorCosignResponse * bytes);
  request_lightning_pay_htlc_revocation : list bytes -> list PublicNonce -> ext srv string (list ArkoorCosignResponse);
  server_check_lightning_payment : bytes -> bool -> ext srv string (option PaymentStatus);
  initiate_lightning_payment : Invoice -> list bytes -> ext srv string unit;
  fetch_bolt12_invoice : bytes -> option Z -> ext srv string bytes;
}.

(** [read_properties], of which the network matters here. *)
Class PropertyPersister (db : Type) := { read_network : ext db string (option Network) }.
End Messages.

Section Pay.
Context `{B : Bitcoin} `{C : !Consensus} `{PT : !PaymentTypes} `{LT : !LightningTypes} `{IT : !InvoiceTypes}.
Context {db net srv mdb : Type} `{!Persister db, !RoundPersister db, !KeyPersister db, !LightningPersister db, !PropertyPersister db, !ChainSource net,
  !RoundChain net, !RoundServer srv, !PayServer srv, !MovementDb mdb}.
Notation W := (World (db := db) (net := net) (srv := srv) (mdb := mdb)).
Notation X := (M W string).
Notation Y := (M (WalletState (db := db) (net := net) (srv := srv) (mdb := mdb)) string).
Context (cfg : WalletConfig).

(** ** Revocation *)
Definition process_lightning_revocation (payment : LightningSend) (rand : nat -> Z) : X unit :=
  _ ← on_srv require_server;
  let htlc_vtxos := wv_vtxo <$> ls_htlc_vtxos payment in
  kn ← claim_nonces cfg htlc_vtxos rand;
  let keypairs := kn.1 in let secs := kn.2.*1 in let pubs := kn.2.*2 in
  revocation ← Effects.lift (map_err (fun _ => "arkoor package error"%string) (new_htlc_revocation htlc_vtxos pubs));
  cosign_resp ← on_srv (request_lightning_pay_htlc_revocation ((fun a => vtxo_id (ab_input a)) <$> arkoors revocation)
                          (ab_user_nonce <$> arkoors revocation));
  ok ← Effects.lift (package_verify_cosign_response revocation cosign_resp);
  _ ← Effects.lift (ensure ok "invalid arkoor cosignature received from server"%string);
  built ← Effects.lift (map_err (fun _ => "arkoor package error"%string) (package_build_vtxos revocation cosign_resp keypairs secs));
  let vtxos := built.1 in
  revoked ← Effects.lift (amount_sum (amount <$> vtxos));
  sent ← Effects.lift (to_signed (ls_amount payment));
  back ← Effects.lift (to_signed revoked);
  t ← now;
  _ ← on_mov (finish_movement_with_update (ls_movement_id payment) MovementStatus.Failed
        (produced_vtxos (vtxo_id <$> vtxos) (Movement.effective_balance (- sent + back) update_new)) t);
  _ ← on_wdb (fun e => e) (store_spendable_vtxos vtxos);
  _ ← on_wdb state_error (mark_vtxos_as_spent (vtxo_id <$> htlc_vtxos));
  query_db (remove_lightning_send (invoice_payment_hash (ls_invoice payment))).

(** ** The answer of the server *)

(** [Preimage::try_from]. *)
Definition PREIMAGE_SIZE : nat := 32.
Definition preimage_matches (payment_hash preimage : bytes) : bool :=
  bool_decide (length preimage = PREIMAGE_SIZE) && bool_decide (compute_payment_hash preimage = payment_hash).

Definition process_lightning_send_server_preimage (preimage : option bytes) (payment : LightningSend) : X (option bytes) :=
  let payment_hash := invoice_payment_hash (ls_invoice payment) in
  match preimage with
  | Some preimage =>
      if preimage_matches payment_hash preimage then
        t ← now;
        _ ← query_db (finish_lightning_send payment_hash (Some preimage) t);
        _ ← on_wdb state_error (mark_vtxos_as_spent ((fun v => vtxo_id (wv_vtxo v)) <$> ls_htlc_vtxos payment));
        t ← now;
        _ ← on_mov (finish_movement (ls_movement_id payment) MovementStatus.Successful t);
        mret (Some preimage)
      else mret None
  | None => mret None
  end.

(** [as_server_htlc_send]. *)
Definition as_server_htlc_send (p : VtxoPolicy) : option ServerHtlcSendVtxoPolicy :=
  match p with ServerHtlcSend p => Some p | _ => None end.

(** The exit of the HTLCs when a revocation failed and they are about to expire. *)
Definition exit_lightning_send (payment : LightningSend) : Y unit :=
  let vtxos := wv_vtxo <$> ls_htlc_vtxos payment in
  _ ← start_exits cfg vtxos;
  exited ← Effects.lift (amount_sum (amount <$> vtxos));
  sent ← Effects.lift (to_signed (ls_amount payment));
  back ← Effects.lift (to_signed exited);
  t ← in_world now;
  _ ← in_world (on_mov (finish_movement_with_update (ls_movement_id payment) MovementStatus.Failed
        (exited_vtxos (vtxo_id <$> vtxos) (Movement.effective_balance (- sent + back) update_new)) t));
  t ← in_world now;
  in_world (query_db (finish_lightning_send (invoice_payment_hash (ls_invoice payment)) None t)).

(** The branch [if should_revoke] of [check_lightning_payment]. *)
Definition revoke_or_exit (payment : LightningSend) (tip : Z) (rand : nat -> Z) : Y unit :=
  r ← try_m (F := string) (in_world (process_lightning_revocation payment rand));
  match r with
  | inr _ => mret tt
  | inl e =>
      min_expiry ← Effects.lift (expect (min_height ((fun v => expiry_height (wv_vtxo v)) <$> ls_htlc_vtxos payment)));
      _ ← (if saturating_sub min_expiry (wc_vtxo_refresh_expiry_threshold cfg) <? tip then exit_lightning_send payment else mret tt);
      throw e
  end.

Definition check_lightning_payment (payment_hash : bytes) (wait : bool) (rand : nat -> Z) : Y (option bytes) :=
  _ ← in_world (on_srv require_server);
  payment ← in_world (query_db (get_lightning_send payment_hash));
  payment ← Effects.lift (ok_or payment "no lightning send found for payment hash"%string);
  match ls_preimage payment with
  | Some preimage => mret (Some preimage)
  | None =>
      first ← Effects.lift (ok_or (head (ls_htlc_vtxos payment)) "no vtxo provided"%string);
      _ ← Effects.lift (assert (forallb (fun v => bool_decide (policy (wv_vtxo v) = policy (wv_vtxo first))) (ls_htlc_vtxos payment)));
      htlc ← Effects.lift (ok_or (as_server_htlc_send (policy (wv_vtxo first))) "VTXO is not an HTLC send"%string);
      _ ← Effects.lift (ensure (bool_decide (hs_payment_hash htlc = payment_hash)) "Payment hash mismatch"%string);
      response ← try_m (F := string) (in_world (on_srv (server_check_lightning_payment payment_hash wait)));
      tip ← in_world (on_net chain_tip);
      let expired := hs_htlc_expiry htlc <? tip in
      r ← (match response with
           | inr (Some (PsSuccess preimage)) =>
               preimage_opt ← in_world (process_lightning_send_server_preimage (Some preimage) payment);
               mret (match preimage_opt with Some preimage => inl preimage | None => inr expired end)
           | inr (Some PsFailed) => mret (inr true)
           | inr (Some PsPending) => mret (inr expired)
           | inr None | inl _ => mret (inr expired)
           end);
      match r with
      | inl preimage => mret (Some preimage)
      | inr should_revoke =>
          _ ← (if (should_revoke : bool) then revoke_or_exit payment tip rand else mret tt);
          mret None
      end
  end.

Definition pending_lightning_sends : X (list LightningSend) := query_db get_all_pending_lightning_send.

(** The first error ends the loop; an empty list ends it at once. *)
Definition sync_pending_lightning_send_vtxos (rand : bytes -> nat -> Z) : Y unit :=
  pending_payments ← in_world pending_lightning_sends;
  forM_ pending_payments (fun payment =>
    let payment_hash := invoice_payment_hash (ls_invoice payment) in
    _ ← check_lightning_payment payment_hash false (rand payment_hash); mret tt).

(** ** Paying *)
Definition check_invoice (invoice : Invoice) (payment_method : PaymentMethod) : X unit :=
  _ ← Effects.lift (ensure (is_lightning payment_method || is_custom payment_method) "Invalid original payment method for lightning payment"%string);
  _ ← on_srv require_server;
  network ← query_db read_network;
  network ← Effects.lift (ok_or network "Missing config"%string);
  invoice_net ← Effects.lift (invoice_network invoice);
  _ ← Effects.lift (ensure (bool_decide (invoice_net = network)) "Invoice is for wrong network"%string);
  known ← query_db (get_lightning_send (invoice_payment_hash invoice));
  _ ← Effects.lift (ensure (bool_decide (known = None)) "Invoice has already been paid"%string);
  Effects.lift (check_signature invoice).

(** What the server's policy has to be. *)
Definition check_send_policy (invoice : Invoice) (user_pubkey : PublicKey) (p : VtxoPolicy) : outcome string unit :=
  match p with
  | ServerHtlcSend p =>
      _ ← ensure (bool_decide (hs_user_pubkey p = user_pubkey)) "user pubkey mismatch"%string;
      ensure (bool_decide (hs_payment_hash p = invoice_payment_hash invoice)) "payment hash mismatch"%string
  | _ => Err "invalid policy returned from server"%string
  end.

(** The VTXOs of a payment with the key for its change: the inputs, and what
    they become with the server's signatures. *)
Definition cosign_htlcs (invoice : Invoice) (user_amount : option Z) (amount : Z) (change_pubkey : PublicKey) (inputs : list Vtxo) (rand : nat -> Z)
  : X (list Vtxo * option Vtxo) :=
  kn ← claim_nonces cfg inputs rand;
  let keypairs := kn.1 in let secs := kn.2.*1 in let pubs := kn.2.*2 in
  resp ← on_srv (request_lightning_pay_htlc_cosign (mkHtlcCosign invoice user_amount (vtxo_id <$> inputs) pubs change_pubkey));
  let cosign_resp := resp.1 in
  policy ← Effects.lift (map_err (fun _ => "invalid policy"%string) (deserialize resp.2 : outcome DecodingError VtxoPolicy));
  _ ← Effects.lift (check_send_policy invoice change_pubkey policy);
  builder ← Effects.lift (map_err (fun _ => "arkoor package error"%string)
              (package_new inputs pubs (mkRequest amount policy) (Some change_pubkey)));
  ok ← Effects.lift (package_verify_cosign_response builder cosign_resp);
  _ ← Effects.lift (ensure ok "invalid arkoor cosignature received from server"%string);
  Effects.lift (map_err (fun _ => "arkoor package error"%string) (package_build_vtxos builder cosign_resp keypairs secs)).

(** The change has the chain anchor of the last input. *)
Definition store_change (inputs : list Vtxo) (change : Vtxo) : X unit :=
  last_input ← Effects.lift (ok_or (last inputs) "no inputs provided"%string);
  tx ← on_net (get_tx (op_txid (anchor_point last_input)));
  tx ← Effects.lift (ok_or tx "input vtxo chain anchor not found for lightning change vtxo"%string);
  _ ← Effects.lift (map_err (fun _ => "invalid lightning change vtxo"%string) (validate change tx));
  on_wdb (fun e => e) (store_spendable_vtxos [change]).

Definition make_lightning_payment (invoice : Invoice) (original_payment_method : PaymentMethod) (user_amount : option Z) (rand : nat -> Z)
  : X LightningSend :=
  _ ← check_invoice invoice original_payment_method;
  amount ← Effects.lift (get_final_amount invoice user_amount);
  _ ← Effects.lift (ensure (negb (amount <? P2TR_DUST)) "Sent amount must be at least the dust limit"%string);
  change ← derive_store_next_keypair cfg;
  let change_pubkey := keypair_public_key change.1 in
  inputs ← select_vtxos_to_cover amount None;
  built ← cosign_htlcs invoice user_amount amount change_pubkey inputs rand;
  let htlc_vtxos := built.1 in let change_vtxo := built.2 in
  effective_balance ← foldM (fun balance vtxo =>
    _ ← validate_vtxo vtxo; Effects.lift (u_add 64 balance (Vtxo.amount vtxo))) 0 htlc_vtxos;
  intended ← Effects.lift (to_signed amount);
  effective ← Effects.lift (to_signed effective_balance);
  t ← now;
  movement_id ← on_mov (new_movement_with_update (wc_subsystem_ids cfg SubLightningSend) "send"%string
    (sent_to [mkDestination original_payment_method amount] (consumed_vtxos (vtxo_id <$> inputs)
       (Movement.effective_balance (- effective) (intended_balance (- intended) update_new)))) t);
  _ ← on_wdb (fun e => e) (store_locked_vtxos htlc_vtxos (Some movement_id));
  _ ← on_wdb state_error (mark_vtxos_as_spent (vtxo_id <$> inputs));
  _ ← (match change_vtxo with Some change => store_change inputs change | None => mret tt end);
  t ← now;
  _ ← on_mov (update_movement movement_id
    (metadata (lightning_metadata (invoice_payment_hash invoice) (vtxo_id <$> htlc_vtxos))
       (match change_vtxo with Some v => produced_vtxos [vtxo_id v] update_new | None => update_new end)) t);
  lightning_send ← query_db (store_new_pending_lightning_send invoice amount (vtxo_id <$> htlc_vtxos) movement_id);
  _ ← on_srv (initiate_lightning_payment invoice (vtxo_id <$> htlc_vtxos));
  mret lightning_send.

Definition pay_lightning_invoice (invoice : string) (user_amount : option Z) (rand : nat -> Z) : X LightningSend :=
  invoice ← Effects.lift (ok_or (parse_invoice invoice) "failed to parse invoice"%string);
  make_lightning_payment invoice (PmInvoice invoice) user_amount rand.

(** [answer]: the invoice of the lightning address's host, third-party code. *)
Definition pay_lightning_address (addr : LightningAddress) (answer : string + Bolt11Invoice) (rand : nat -> Z) : X LightningSend :=
  match answer with
  | inl e => throw "lightning address error"%string
  | inr invoice => make_lightning_payment (invoice_bolt11 invoice) (PmLightningAddress addr) None rand
  end.

Definition pay_lightning_offer (offer : Offer) (amount : option Z) (rand : nat -> Z) : X LightningSend :=
  _ ← on_srv require_server;
  resp ← on_srv (fetch_bolt12_invoice (offer_write offer) amount);
  invoice ← Effects.lift (ok_or (parse_bolt12 resp) "invalid invoice"%string);
  _ ← Effects.lift (validate_issuance invoice offer);
  make_lightning_payment (invoice_bolt12 invoice) (PmOffer offer) None rand.
End Pay.
