(* ===== verification/LightningPayFacts.v ===== *)
(** * Paying over lightning: facts

    Whatever the server answers when the wallet asks how a payment went, and
    wherever the wallet stops, an HTLC VTXO of the payment is only given up when
    it is exited on chain, when it was turned into a VTXO of the wallet that is
    as good, or when the wallet has the preimage of the payment. *)
From stdpp Require Import gmap.
From S2P Require Import Prelude Effects Bitcoin Encode Concrete Policy Vtxo VtxoEncoding Validation Arkoor ArkoorPackage PackageBuilt ChainSource ExitStates.
From S2P Require Import Persist ExitManager ExitProgress ExitVtxo Movement Rounds SignedTree Connectors WalletRoundState WalletRound.
From S2P Require Import WalletKeys Selection WalletTables WalletState LightningReceive LightningReceiveFacts LightningPay.

Open Scope Z_scope.

Section Facts.
Context `{B : Bitcoin} `{C : !Consensus} `{K : !KeyLaws B} `{Ml : !MusigLaws B} `{Wl : !WitnessLaws B}.
Context `{PT : !PaymentTypes} `{LT : !LightningTypes} `{IT : !InvoiceTypes}.
Context {db net srv mdb : Type} `{!Persister db, !RoundPersister db, !KeyPersister db, !LightningPersister db, !BoardPersister db, !PropertyPersister db,
  !ChainSource net, !RoundChain net, !RoundServer srv, !PayServer srv, !MovementDb mdb}.
Context `{!PersisterLaws db, !RoundPersisterLaws db, !KeyPersisterLaws db, !WalletDbLaws db}.
Notation W := (World (db := db) (net := net) (srv := srv) (mdb := mdb)).
Notation X := (M W string).
Notation WS := (WalletState (db := db) (net := net) (srv := srv) (mdb := mdb)).
Notation Y := (M WS string).
Context (cfg : WalletConfig).

(** ** What the table of sends promises *)

(** Payments are kept by their payment hash, and a preimage is the one of it. *)
Definition sends_ok (d : db) : Prop := forall h row, db_sends d !! h = Some row ->
  invoice_payment_hash (sr_invoice row) = h /\ forall p, sr_preimage row = Some p -> compute_payment_hash p = h.
Definition pay_inv (d : db) : Prop := keyed d /\ keys_ok cfg d /\ sends_ok d.

(** ** Code that leaves VTXOs and payments alone *)
Definition frozen : relation W := fun w w' =>
  core_tables (w_db w') = core_tables (w_db w) /\ db_sends (w_db w') = db_sends (w_db w) /\ calm_db cfg (w_db w) (w_db w').
#[export] Instance frozen_preorder : PreOrder frozen.
Proof. split; [by split|]. intros w1 w2 w3 (H1 & H2 & H3) (H4 & H5 & H6). split_and!; [congruence|congruence|by etrans]. Qed.

Lemma frozen_query {A} (f : ext db string A) : (forall s, core_tables (f s).2 = core_tables s /\ payment_tables (f s).2 = payment_tables s) ->
  keeps frozen (query_db f : X A).
Proof.
  intros H w. destruct (query_db f w) as [o w'] eqn:Hr. apply query_db_run in Hr as [-> _]. destruct (H (w_db w)) as [Hc Hp]. cbn.
  split; [exact Hc|]. split; [exact (f_equal (fun t => t.1.2) Hp)|]. by apply calm_core; [|apply payments_receives].
Qed.
Lemma frozen_reads {A} (f : ext db string A) : (forall s, exists P, only_reads (f s) s P) -> keeps frozen (query_db f : X A).
Proof. intros H. apply frozen_query. intros s. destruct (H s) as (P & H1 & H2 & _). done. Qed.
Lemma frozen_key_idx pk : keeps frozen (query_db (get_public_key_idx pk) : X _).
Proof.
  apply frozen_query. intros s. destruct (get_public_key_idx_db pk s) as [H1 H2], (get_key_idx_db pk s) as [H3 _], (key_idx_frame pk s) as [H4 H5].
  split; [unfold core_tables; congruence|done].
Qed.
Lemma frozen_net {A} (f : ext net string A) : keeps frozen (on_net f : X A).
Proof. by intros w. Qed.
Lemma frozen_srv {A} (f : ext srv string A) : keeps frozen (on_srv f : X A).
Proof. by intros w. Qed.
Lemma frozen_mov {A} (m : M (MovementManager * mdb) MovementError A) : keeps frozen (on_mov m : X A).
Proof. by intros w. Qed.
Lemma frozen_now : keeps frozen (now : X Z).
Proof. by intros w. Qed.
Hint Resolve frozen_key_idx frozen_net frozen_srv frozen_mov frozen_now : effects.
Hint Extern 2 (keeps frozen (query_db (get_lightning_send _))) => apply frozen_reads; intros; eexists; apply get_send_law : effects.
Hint Extern 2 (keeps frozen (query_db get_all_pending_lightning_send)) => apply frozen_reads; intros; eexists; apply pending_sends_law : effects.

Lemma frozen_get_key v : keeps frozen (get_vtxo_key cfg v : X Keypair).
Proof. unfold get_vtxo_key. solve_keeps. Qed.
Hint Resolve frozen_get_key : effects.
Lemma frozen_nonces vs rand : keeps frozen (claim_nonces cfg vs rand : X _).
Proof. unfold claim_nonces. solve_keeps. Qed.
Hint Resolve frozen_nonces : effects.

(** *** Keys and nonces in the order of the VTXOs *)
Lemma key_loop (vs : list Vtxo) : forall l (w w' : W) ks, keys_ok cfg (w_db w) ->
  foldM (fun l v => k ← get_vtxo_key cfg v; mret (l ++ [k])) l vs w = (Ok ks, w') ->
  exists new, ks = l ++ new /\ Forall2 (fun k v => keypair_public_key k = vtxo_user_pubkey v) new vs.
Proof.
  induction vs as [|v vs IH]; intros l w w' ks Hk H; cbn [foldM] in H.
  { injection H as <- <-. exists []. by rewrite app_nil_r. }
  apply bind_run_Ok in H as (l' & w1 & H1 & H). apply bind_run_Ok in H1 as (k & w2 & H2 & H1). injection H1 as <- <-.
  destruct (get_vtxo_key_spec cfg _ _ _ _ Hk H2) as (Hpk & _ & _ & Hk2 & _). destruct (IH _ _ _ _ Hk2 H) as (new & -> & Hf).
  exists (k :: new). split; [by rewrite <- app_assoc|]. by constructor.
Qed.

Lemma nonces_run vs rand (w w' : W) kn : keys_ok cfg (w_db w) -> claim_nonces cfg vs rand w = (Ok kn, w') ->
  Forall2 (fun k v => keypair_public_key k = vtxo_user_pubkey v) kn.1 vs /\ length kn.2.*1 = length vs /\ kn.2.*2 = sec_to_pub_nonce <$> kn.2.*1.
Proof.
  intros Hk H. unfold claim_nonces in H. apply bind_run_Ok in H as (ks & w1 & H1 & H). injection H as <- <-.
  destruct (key_loop _ _ _ _ _ Hk H1) as (new & -> & Hf). cbn [fst snd app]. split; [done|].
  split; [rewrite length_fmap, length_imap; by eapply Forall2_length|].
  rewrite !fmap_imap. apply list_eq. intros i. rewrite !list_lookup_imap. destruct (new !! i) as [k|]; [|done]. cbn. f_equal.
  apply new_nonce_pair_pub.
Qed.

(** ** Code that spends some VTXOs *)
Definition spent_row (v : WalletVtxo) : WalletVtxo := mkWalletVtxo _ (wv_vtxo v) VtxoState.Spent.

(** Only these VTXOs are spent; with [exits], each of them is then an exit. *)
Definition touched (exits : Prop) (ids : list bytes) : relation db := fun d d' =>
  db_sends d' = db_sends d /\ (forall id, is_Some (db_exits d !! id) -> is_Some (db_exits d' !! id)) /\ calm_db cfg d d' /\
  forall id, db_vtxos d' !! id = db_vtxos d !! id \/
    id ∈ ids /\ exists v, db_vtxos d !! id = Some v /\ db_vtxos d' !! id = Some (spent_row v) /\ (exits -> is_Some (db_exits d' !! id)).
#[export] Instance touched_preorder exits ids : PreOrder (touched exits ids).
Proof.
  split; [intros d; split; [done|]; split; [auto|]; split; [reflexivity|by left]|]. intros d1 d2 d3 (A1 & A2 & A3 & A4) (B1 & B2 & B3 & B4).
  split; [congruence|]. split; [auto|]. split; [by etrans|].
  intros id. destruct (A4 id) as [Ha|(Hi & v & Hv & Ha & He)], (B4 id) as [Hb|(Hi' & v' & Hv' & Hb & He')].
  - left. congruence.
  - right. split; [done|]. exists v'. split; [congruence|done].
  - right. split; [done|]. exists v. split; [done|]. split; [congruence|auto].
  - right. split; [done|]. exists v. split; [done|]. split; [|done]. rewrite Ha in Hv'. injection Hv' as <-. exact Hb.
Qed.

Lemma keeps_foldM_in {St E A A'} (R : relation St) `{!PreOrder R} (f : A' -> A -> M St E A') l : forall b,
  (forall b a, a ∈ l -> keeps R (f b a)) -> keeps R (foldM f b l).
Proof.
  induction l as [|a l IH]; intros b Hf; cbn [foldM]; [apply keeps_ret, _|]. apply keeps_bind; [apply _|apply Hf; left|].
  intros b'. apply IH. intros b2 a' Ha. apply Hf. by right.
Qed.

Lemma touched_update (exits : Prop) ids id s : id ∈ ids -> (exits -> is_Some (db_exits s !! id)) ->
  touched exits ids s (update_vtxo_state_checked id VtxoState.Spent UNSPENT_STATES s).2.
Proof.
  intros Hid He. destruct (update_vtxo_state_db id VtxoState.Spent UNSPENT_STATES s) as [Hx Hv].
  pose proof (update_state_frame id VtxoState.Spent UNSPENT_STATES s) as Hp. pose proof (calm_update cfg id VtxoState.Spent UNSPENT_STATES s) as Hcalm.
  destruct (update_vtxo_state_checked id VtxoState.Spent UNSPENT_STATES s) as [o s']. cbn [fst snd] in *.
  split; [exact (f_equal (fun t => t.1.2) Hp)|]. split; [by rewrite Hx|]. split; [done|]. rewrite Hx.
  assert (Hc : db_vtxos s' = db_vtxos s \/ exists v, db_vtxos s !! id = Some v /\ db_vtxos s' = <[id := spent_row v]> (db_vtxos s)).
  { destruct o as [e|w]; [destruct Hv as [Hv|(v & Hv & _ & Hs)]; [by left|right; by exists v]|].
    destruct Hv as (v & Hv & _ & -> & Hs). right. by exists v. }
  intros i. destruct Hc as [->|(v & Hv' & ->)]; [by left|]. destruct (decide (id = i)) as [<-|Hne]; [|left; by rewrite lookup_insert_ne].
  right. split; [done|]. exists v. by rewrite lookup_insert_eq.
Qed.

Lemma touched_mark ids : keeps (touched False ids) (mark_vtxos_as_spent ids : M db (list bytes) unit).
Proof.
  unfold mark_vtxos_as_spent, set_vtxo_states. apply keeps_bind; [apply _| |intros; apply keeps_lift, _].
  assert (H : forall l b, (forall id, id ∈ l -> id ∈ ids) -> keeps (touched False ids) (foldM (fun problematic id =>
    r ← try_m (call (update_vtxo_state_checked id VtxoState.Spent UNSPENT_STATES));
    mret (match r with inl _ => problematic ++ [id] | inr _ => problematic end)) b l : M db (list bytes) _)).
  { induction l as [|id l IH]; intros b Hl; cbn [foldM]; [apply keeps_ret, _|]. apply keeps_bind; [apply _| |intros b'; apply IH; intros; apply Hl; by right].
    apply keeps_bind; [apply _| |intros; apply keeps_ret, _]. apply keeps_try. intros s. apply touched_update; [apply Hl; left|done]. }
  by apply H.
Qed.

(** *** Exits *)
Notation EW := (ExitManager.World net (MovementManager * mdb) db).
Definition exits_touched (ids : list bytes) : relation (list ExitVtxo * EW) := fun s s' =>
  touched True ids (ExitManager.w_db s.2) (ExitManager.w_db s'.2).
#[export] Instance exits_touched_preorder ids : PreOrder (exits_touched ids).
Proof. unfold exits_touched. split; [intros s|intros s1 s2 s3 H1 H2]; [reflexivity|by etrans]. Qed.

Lemma touched_store_exit (exits : Prop) ids e s : touched exits ids s (store_exit_vtxo_entry e s).2 /\
  ((store_exit_vtxo_entry e s).1 = inr tt -> is_Some (db_exits (store_exit_vtxo_entry e s).2 !! se_vtxo_id e)).
Proof.
  destruct (store_exit_vtxo_entry_db e s) as [Hv Hx]. pose proof (store_exit_frame e s) as [Hp _]. pose proof (calm_store_exit cfg e s) as Hcalm.
  destruct (store_exit_vtxo_entry e s) as [o s']. cbn [fst snd] in *. split.
  - split; [exact (f_equal (fun t => t.1.2) Hp)|]. split; [|split; [done|intros id; left; by rewrite Hv]].
    intros id. destruct o as [e'|[]]; rewrite Hx; [done|]. destruct (decide (se_vtxo_id e = id)) as [->|Hne]; [by rewrite lookup_insert_eq|by rewrite lookup_insert_ne].
  - intros ->. rewrite Hx, lookup_insert_eq. by eexists.
Qed.

Lemma exits_db_run {E A} (f : string -> E) (c : ext db string A) (s : list ExitVtxo * EW) :
  on_all (ExitManager.on_db f c) s = (match (c (ExitManager.w_db s.2)).1 with inr a => Ok a | inl e => Err (f e) end,
    (s.1, ExitManager.set_db (c (ExitManager.w_db s.2)).2 s.2)).
Proof. unfold on_all, ExitManager.on_db, map_err_m, zoom, call. cbn [fst snd]. by destruct (c _) as [[e|a] d]. Qed.

Lemma touched_register ids vtxo : keeps (exits_touched ids) (on_all (register_exit_movement cfg vtxo)).
Proof.
  assert (Hk : keeps (fun w w' : EW => ExitManager.w_db w' = ExitManager.w_db w) (register_exit_movement cfg vtxo)).
  { unfold register_exit_movement. assert (PreOrder (fun w w' : EW => ExitManager.w_db w' = ExitManager.w_db w)).
    { split; [by intros w|]. intros w1 w2 w3 H1 H2. congruence. }
    solve_keeps. by intros w. }
  intros s. unfold exits_touched, on_all, zoom. cbn [snd]. rewrite Hk. reflexivity.
Qed.

Lemma touched_start_one ids tip vtxo : vtxo_id vtxo ∈ ids -> keeps (exits_touched ids) (start_exit_for_vtxo (register_exit_movement cfg) tip vtxo).
Proof.
  intros Hid s. unfold start_exit_for_vtxo, mbind at 1, M_bind at 1, gets. destruct (existsb _ s.1); [reflexivity|].
  set (e := stored_exit_new (exit_vtxo_new vtxo tip)). destruct (touched_store_exit True ids e (ExitManager.w_db s.2)) as [H1 He].
  unfold mbind at 1, M_bind at 1. rewrite exits_db_run.
  destruct (store_exit_vtxo_entry e (ExitManager.w_db s.2)) as [[e1|[]] d1]; cbn [fst snd] in *; [exact H1|]. specialize (He eq_refl).
  apply (transitivity (R := touched True ids) (y := d1)); [exact H1|].
  assert (Hd : touched True ids d1 (update_vtxo_state_checked (vtxo_id vtxo) VtxoState.Spent UNSPENT_STATES d1).2) by by apply touched_update.
  unfold mbind at 1, M_bind at 1. rewrite exits_db_run. cbn [ExitManager.w_db ExitManager.set_db snd].
  destruct (update_vtxo_state_checked _ _ _ d1) as [[e2|v2] d2]; cbn [fst snd] in *; [exact Hd|].
  apply (transitivity (R := touched True ids) (y := d2)); [exact Hd|]. match goal with |- touched _ _ _ (ExitManager.w_db (?m ?x).2.2) => change (exits_touched ids x (m x).2) end.
  apply keeps_bind; [apply _| |intros; apply touched_register]. intros s3. unfold exits_touched. cbn. reflexivity.
Qed.

Lemma touched_start_exits vtxos (s : WS) : touched True (vtxo_id <$> vtxos) (w_db (ws_world s)) (w_db (ws_world (start_exits cfg vtxos s).2)).
Proof.
  assert (Hk : keeps (exits_touched (vtxo_id <$> vtxos)) (start_exit_for_vtxos (register_exit_movement cfg) vtxos)).
  { unfold start_exit_for_vtxos. destruct vtxos as [|v vtxos]; [apply keeps_ret, _|].
    apply keeps_bind; [apply _|intros s'; unfold exits_touched; cbn; reflexivity|intros tip].
    unfold forM_. apply (keeps_foldM_in (exits_touched _)). intros _ v' Hv'. apply touched_start_one, list_elem_of_fmap. by exists v'. }
  exact (Hk (exit_world s)).
Qed.

(** ** What happens to the HTLCs of a payment *)

(** New VTXOs of the wallet for all of them. *)
Definition revoked (d : db) (vs : list WalletVtxo) (d' : db) : Prop := exists news, Forall2 replaces (wv_vtxo <$> vs) news /\
  Forall (fun n => db_vtxos d !! vtxo_id n = None /\ db_vtxos d' !! vtxo_id n = Some (mkWalletVtxo _ n VtxoState.Spendable)) news.
(** The preimage of the payment. *)
Definition preimage_known (h : bytes) (d : db) : Prop := exists row p, db_sends d !! h = Some row /\ sr_preimage row = Some p /\ compute_payment_hash p = h.

Section Payment.
Context (d0 : db) (h : bytes) (payment : LightningSend) (row0 : SendRow).
Context (Hinv : pay_inv d0) (Hrow0 : db_sends d0 !! h = Some row0).
Context (Hread : payment = send_record row0 (ls_htlc_vtxos payment) /\ vtxos_of d0 (sr_htlc_vtxo_ids row0) = Some (ls_htlc_vtxos payment)).
Notation htlcs := (wv_vtxo <$> ls_htlc_vtxos payment).
Notation ids := (sr_htlc_vtxo_ids row0).

Definition only_htlcs (why : bytes -> Prop) (d : db) : Prop := forall id v, db_vtxos d0 !! id = Some v ->
  db_vtxos d !! id = Some v \/ id ∈ ids /\ db_vtxos d !! id = Some (spent_row v) /\ why id.
Definition returned (d : db) (id : bytes) : Prop := is_Some (db_exits d !! id) \/ revoked d0 (ls_htlc_vtxos payment) d.
Definition fated (d : db) : Prop := sends_ok d /\ calm_db cfg d0 d /\ only_htlcs (returned d) d.
Definition settled (d : db) : Prop := sends_ok d /\ calm_db cfg d0 d /\ only_htlcs (fun id => returned d id \/ preimage_known h d) d.
Notation fate := (fun w : W => fated (w_db w)).
Definition begun (w : W) : Prop := core_tables (w_db w) = core_tables d0 /\ db_sends (w_db w) = db_sends d0 /\ calm_db cfg d0 (w_db w).

Lemma ids_of_htlcs : vtxo_id <$> htlcs = ids.
Proof.
  destruct Hread as [_ Hv]. destruct Hinv as [Hk _]. unfold vtxos_of in Hv. apply mapM_Some_1 in Hv. clear -Hv Hk.
  induction Hv as [|id v l vs Hid _ IH]; [done|]. cbn. f_equal; [by eapply Hk|done].
Qed.
Lemma htlcs_known id : id ∈ ids -> is_Some (db_vtxos d0 !! id).
Proof.
  destruct Hread as [_ Hv]. unfold vtxos_of in Hv. apply mapM_Some_1 in Hv. intros (i & Hi)%list_elem_of_lookup.
  destruct (Forall2_lookup_l _ _ _ _ _ Hv Hi) as (v & _ & Hl). by exists v.
Qed.
Lemma payment_hash : invoice_payment_hash (ls_invoice payment) = h.
Proof. destruct Hread as [-> _]. destruct Hinv as (_ & _ & Hs). by destruct (Hs _ _ Hrow0). Qed.

Lemma begun_frozen w w' : begun w -> frozen w w' -> begun w'.
Proof. intros (H1 & H2 & H3) (H4 & H5 & H6). split_and!; [congruence|congruence|by etrans]. Qed.
Lemma begun_fate w : begun w -> fate w.
Proof.
  intros (H1 & H2 & H3). split; [destruct Hinv as (_ & _ & Hs); unfold sends_ok; by rewrite H2|]. split; [done|].
  intros id v Hv. left. pose proof (f_equal (fun t => t.1.1.1) H1) as Hd. cbn in Hd. by rewrite Hd.
Qed.

(** A change of the payments only. *)
Lemma fated_sends d d' : fated d -> core_tables d' = core_tables d -> db_receives d' = db_receives d -> sends_ok d' -> fated d'.
Proof.
  intros (Hs & Hc & Hf) H1 H2 H3. pose proof (f_equal (fun t => t.1.1.1) H1) as Hd. pose proof (f_equal (fun t => t.1.1.2) H1) as He. cbn in Hd, He.
  split; [done|]. split; [etrans; [done|by apply calm_core]|]. unfold only_htlcs, returned, revoked. by rewrite Hd, He.
Qed.
Lemma fate_frozen w w' : fate w -> frozen w w' -> fate w'.
Proof.
  intros Hf (H1 & H2 & H3). apply (fated_sends (w_db w)); [done|done|by apply H3|]. destruct Hf as [Hs _]. unfold sends_ok. by rewrite H2.
Qed.
Lemma runs_begun {A} (m : X A) : keeps frozen m -> runs begun m (fun _ => begun) fate.
Proof. intros H. apply (runs_keeps frozen); [done|by eapply begun_frozen|apply begun_fate]. Qed.
Lemma runs_fate {A} (m : X A) : keeps frozen m -> runs fate m (fun _ => fate) fate.
Proof. intros H. apply (runs_keeps frozen); [done|by eapply fate_frozen|done]. Qed.

(** HTLCs are spent. *)
Lemma revoked_touched exits d d' : revoked d0 (ls_htlc_vtxos payment) d -> touched exits ids d d' -> revoked d0 (ls_htlc_vtxos payment) d'.
Proof.
  intros (news & Hr & Hn) (_ & _ & _ & Ht). exists news. split; [done|]. eapply Forall_impl; [exact Hn|]. cbn. intros n [H1 H2]. split; [done|].
  destruct (Ht (vtxo_id n)) as [He|[Hin _]]; [exact (eq_trans He H2)|]. apply htlcs_known in Hin as [v Hv]. by pose proof (eq_trans (eq_sym Hv) H1).
Qed.
Lemma fated_touched (exits : Prop) d d' : fated d -> touched exits ids d d' -> exits \/ revoked d0 (ls_htlc_vtxos payment) d -> fated d'.
Proof.
  intros (Hs & Hc & Hf) Ht Hwhy. pose proof (revoked_touched exits d d') as Hrev. destruct Ht as (H1 & H2 & H3 & H4).
  split; [unfold sends_ok; by rewrite H1|]. split; [by etrans|]. specialize (fun H => Hrev H (conj H1 (conj H2 (conj H3 H4)))).
  assert (Hret : forall id, returned d id -> returned d' id) by (intros id [?|?]; [left|right]; auto).
  intros id v Hv. destruct (H4 id) as [->|(Hin & v' & Hv' & -> & He)].
  - destruct (Hf id v Hv) as [?|(? & ? & ?)]; auto.
  - right. split; [done|]. destruct (Hf id v Hv) as [Hd|(_ & Hd & Hret')]; rewrite Hv' in Hd; injection Hd as ->; (split; [done|]); [|by apply Hret].
    destruct Hwhy as [Hx|Hr]; [left; by apply He|right; by apply Hrev].
Qed.

(** *** Revocation *)
Lemma runs_store_news news : Forall2 replaces htlcs news ->
  runs begun (on_wdb (fun e => e) (store_spendable_vtxos news) : X unit) (fun _ w => fated (w_db w) /\ revoked d0 (ls_htlc_vtxos payment) (w_db w)) fate.
Proof.
  intros Hn w (Hc & Hs & Hcalm). unfold on_wdb, map_err_m, zoom, store_spendable_vtxos, wallet_store_vtxos, call. cbn [fst snd].
  set (l := (fun v => (v, VtxoState.Spendable)) <$> news). destruct (store_vtxos_db l (w_db w)) as [_ Hst]. pose proof (store_vtxos_frame l (w_db w)) as [Hp Hx].
  pose proof (calm_store cfg l (w_db w)) as Hc'.
  assert (Hok : sends_ok (store_vtxos l (w_db w)).2).
  { unfold sends_ok. pose proof (f_equal (fun t => t.1.2) Hp) as Hq. cbn in Hq. rewrite Hq, Hs. apply Hinv. }
  pose proof (f_equal (fun t => t.1.1.1) Hc) as Hd. cbn in Hd.
  destruct (store_vtxos l (w_db w)) as [[e|[]] d]; cbn [fst snd map_err w_db] in *.
  { split; [done|]. split; [by etrans|]. intros id v Hv. left. by rewrite Hst, Hd. }
  destruct Hst as (H1 & H2 & H3). assert (Hrev : revoked d0 (ls_htlc_vtxos payment) d).
  { exists news. split; [done|]. apply Forall_forall. intros n Hin. rewrite <- Hd.
    assert ((n, VtxoState.Spendable) ∈ l) as Hl by (apply list_elem_of_fmap; by exists n). split; [exact (H1 _ Hl)|exact (H2 _ Hl)]. }
  split; [|done]. split; [done|]. split; [by etrans|].
  intros id v Hv. left. rewrite H3; [by rewrite Hd|]. intros (q & -> & Hq)%list_elem_of_fmap. specialize (H1 _ Hq). rewrite Hd in H1.
  by pose proof (eq_trans (eq_sym Hv) H1).
Qed.

Lemma runs_mark P : (forall d d', P d -> touched False ids d d' -> fated d') ->
  runs (fun w => P (w_db w)) (on_wdb state_error (mark_vtxos_as_spent ids) : X unit) (fun _ => fate) fate.
Proof.
  intros HP w Hw. pose proof (touched_mark ids (w_db w)) as Ht. unfold on_wdb, map_err_m, zoom. cbn [fst snd].
  destruct (mark_vtxos_as_spent ids (w_db w)) as [o d]. cbn [fst snd] in *. specialize (HP _ _ Hw Ht). by destruct o.
Qed.

Lemma runs_remove : runs fate (query_db (remove_lightning_send h) : X unit) (fun _ => fate) fate.
Proof.
  intros w Hf. destruct (query_db _ w) as [o w'] eqn:Hr. apply query_db_run in Hr as [-> _]. destruct (remove_send_law h (w_db w)) as (H1 & H2 & _ & H4).
  assert (fated (remove_lightning_send h (w_db w)).2); [|by destruct o]. apply (fated_sends (w_db w)); [done..|]. destruct Hf as [Hs _].
  intros i row. rewrite H4. destruct (remove_lightning_send h (w_db w)).1; [apply Hs|]. intros [_ Hl]%lookup_delete_Some. by apply Hs.
Qed.

Lemma revocation_runs rand : runs begun (process_lightning_revocation cfg payment rand : X unit) (fun _ => fate) fate.
Proof.
  unfold process_lightning_revocation. eapply runs_bind; [apply runs_begun; solve_keeps|intros ?; cbv beta zeta].
  apply (runs_bind _ _ _ (fun kn w => (Forall2 (fun k v => keypair_public_key k = vtxo_user_pubkey v) kn.1 htlcs /\
    length kn.2.*1 = length htlcs /\ kn.2.*2 = sec_to_pub_nonce <$> kn.2.*1) /\ begun w)).
  { intros w Hw. pose proof (runs_begun _ (frozen_nonces htlcs rand) w Hw) as H. destruct (claim_nonces cfg htlcs rand w) as [[kn|e|] w'] eqn:Hr; [|exact H..].
    split; [|exact H]. eapply nonces_run; [|exact Hr]. apply Hw. apply Hinv. }
  intros kn. apply runs_pure. intros (Hk & Hlen & Hpub). rewrite Hpub.
  eapply runs_bind; [apply runs_lift, begun_fate|intros revocation; cbv beta]. apply runs_pure. intros Hrev%map_err_Ok.
  eapply runs_bind; [apply runs_begun; solve_keeps|intros resp; cbv beta].
  eapply runs_bind; [apply runs_lift, begun_fate|intros ok; cbv beta]. apply runs_pure. intros Hver.
  eapply runs_bind; [apply runs_lift, begun_fate|intros ?; cbv beta]. apply runs_pure. intros ->%ensure_Ok.
  eapply runs_bind; [apply runs_lift, begun_fate|intros built; cbv beta zeta]. apply runs_pure. intros Hb%map_err_Ok. destruct built as [news ch].
  pose proof (revocation_built _ _ _ _ _ _ _ Hrev Hlen Hk Hver Hb) as Hnews. cbn [fst].
  do 5 (eapply runs_bind; [apply runs_begun; solve_keeps|intros ?; cbv beta]).
  eapply runs_bind; [by apply runs_store_news|intros ?; cbv beta].
  rewrite ids_of_htlcs, payment_hash. eapply runs_bind; [apply (runs_mark (fun d => fated d /\ revoked d0 (ls_htlc_vtxos payment) d))|intros ?; apply runs_remove].
  intros d d' [Hf Hr] Ht. by eapply fated_touched; [..|right].
Qed.

(** *** Exits *)
Lemma runs_lift_same {St A} (P : St -> Prop) (o : outcome string A) : runs P (Effects.lift o : M St string A) (fun _ => P) P.
Proof. intros s Hs. by destruct o. Qed.

Lemma runs_finish_send p t : (forall q, p = Some q -> compute_payment_hash q = h) ->
  runs fate (query_db (finish_lightning_send h p t) : X unit) (fun _ => fate) fate.
Proof.
  intros Hp w Hf. destruct (query_db _ w) as [o w'] eqn:Hr. apply query_db_run in Hr as [-> _]. destruct (finish_send_law h p t (w_db w)) as (H1 & H2 & _ & H4).
  assert (fated (finish_lightning_send h p t (w_db w)).2); [|by destruct o]. apply (fated_sends (w_db w)); [done..|]. destruct Hf as [Hs _].
  intros i row. rewrite H4. destruct (finish_lightning_send h p t (w_db w)).1; [apply Hs|].
  intros [(<- & row' & Hrow & ->)|[_ Hrow]]%lookup_alter_Some; [|by apply Hs]. split; [exact (proj1 (Hs _ _ Hrow))|exact Hp].
Qed.

Lemma exit_runs : runs (fun s : WS => fate (ws_world s)) (exit_lightning_send cfg payment : Y unit) (fun _ s => fate (ws_world s)) (fun s => fate (ws_world s)).
Proof.
  assert (Hk : forall {A} (m : X A), keeps frozen m -> runs (fun s : WS => fate (ws_world s)) (in_world m) (fun _ s => fate (ws_world s)) (fun s => fate (ws_world s))).
  { intros A m Hm. by apply (runs_in_world fate m (fun _ => fate) fate), runs_fate. }
  unfold exit_lightning_send. cbv zeta. eapply (runs_bind _ _ _ (fun _ s => fate (ws_world s))).
  { intros s Hs. pose proof (touched_start_exits htlcs s) as Ht. rewrite ids_of_htlcs in Ht.
    pose proof (fated_touched True _ _ Hs Ht (or_introl I)) as Hf. by destruct (start_exits cfg htlcs s) as [[[]|e|] s']. }
  intros ?. do 3 (eapply runs_bind; [apply (runs_lift_same (fun s : WS => fate (ws_world s)))|intros ?; cbv beta]).
  do 3 (eapply runs_bind; [apply Hk; solve_keeps|intros ?; cbv beta]). rewrite payment_hash.
  apply (runs_in_world fate _ (fun _ => fate) fate). by apply runs_finish_send.
Qed.

Lemma revoke_or_exit_runs tip rand : runs (fun s : WS => begun (ws_world s)) (revoke_or_exit cfg payment tip rand : Y unit)
  (fun _ s => fate (ws_world s)) (fun s => fate (ws_world s)).
Proof.
  unfold revoke_or_exit. apply (runs_bind _ _ _ (fun _ s => fate (ws_world s))).
  { intros s Hs. pose proof (runs_in_world _ _ _ _ (revocation_runs rand) s Hs) as H. unfold try_m. by destruct (in_world _ s) as [[[]|e|] s']. }
  intros [e|?]; [|by apply runs_ret]. eapply runs_bind; [apply (runs_lift_same (fun s : WS => fate (ws_world s)))|intros e2; cbv beta].
  apply (runs_bind _ _ _ (fun _ s => fate (ws_world s))); [|by intros ? s].
  destruct (_ <? tip); [apply exit_runs|by apply runs_ret].
Qed.

(** *** The preimage *)
Lemma fated_settled d : fated d -> settled d.
Proof.
  intros (H1 & H2 & H3). split; [done|]. split; [done|]. intros id v Hv. destruct (H3 id v Hv) as [?|(? & ? & ?)]; [by left|right]. by split_and!; [..|left].
Qed.

Lemma paid_settled (w w' : W) d : begun w -> core_tables (w_db w') = core_tables (w_db w) -> db_receives (w_db w') = db_receives (w_db w) ->
  sends_ok (w_db w') -> preimage_known h (w_db w') -> touched False ids (w_db w') d -> settled d /\ preimage_known h d.
Proof.
  intros (Hc & _ & Hcalm) Hc' Hr Hs (row & p & Hp) (T1 & _ & T3 & T4). assert (Hpd : preimage_known h d) by (exists row, p; by rewrite T1). split; [|done].
  split; [unfold sends_ok; by rewrite T1|]. split; [etrans; [exact Hcalm|]; etrans; [by apply calm_core|done]|].
  intros id v Hv. pose proof (f_equal (fun t => t.1.1.1) Hc) as Hd. pose proof (f_equal (fun t => t.1.1.1) Hc') as Hd'. cbn in Hd, Hd'.
  destruct (T4 id) as [->|(Hin & v' & Hv' & -> & _)]; rewrite Hd', Hd in *; [by left|]. rewrite Hv in Hv'. injection Hv' as <-.
  right. split_and!; [done..|by right].
Qed.

Lemma preimage_runs pre : runs begun (process_lightning_send_server_preimage pre payment : X _)
  (fun o w => match o with Some p => compute_payment_hash p = h /\ settled (w_db w) | None => begun w end) (fun w => settled (w_db w)).
Proof.
  unfold process_lightning_send_server_preimage. rewrite payment_hash. destruct pre as [p|]; [|by apply runs_ret].
  destruct (preimage_matches h p) eqn:Hp; [|by apply runs_ret]. unfold preimage_matches in Hp. apply andb_true_iff in Hp as [_ Hp%bool_decide_eq_true].
  assert (HF : forall w, begun w -> settled (w_db w)) by (intros w Hw; by apply fated_settled, begun_fate).
  apply (runs_bind _ _ _ (fun _ => begun)); [by intros w Hw|intros t].
  set (mid := fun w : W => exists w0, begun w0 /\ core_tables (w_db w) = core_tables (w_db w0) /\ db_receives (w_db w) = db_receives (w_db w0) /\
    sends_ok (w_db w) /\ preimage_known h (w_db w)).
  apply (runs_bind _ _ _ (fun _ => mid)).
  { intros w Hw. pose proof (runs_finish_send (Some p) t ltac:(by intros q [= <-]) w (begun_fate w Hw)) as H.
    destruct (query_db _ w) as [o w'] eqn:Hr. apply query_db_run in Hr as [Hw' Ho]. destruct (finish_send_law h (Some p) t (w_db w)) as (H1 & H2 & _ & H4).
    destruct o as [[]|e|]; [|by apply fated_settled|done]. exists w. rewrite Ho in H4. rewrite Hw'. cbn [w_db]. split; [done|]. split; [done|]. split; [done|].
    rewrite Hw' in H. cbn [w_db] in H. split; [apply H|]. exists (set_send_finished (Some p) t row0), p. destruct Hw as (_ & Hsends & _).
    split; [by rewrite H4, Hsends, lookup_alter_eq, Hrow0|done]. }
  intros ?. apply (runs_bind _ _ _ (fun _ w => settled (w_db w))).
  { intros w (w0 & Hw0 & H1 & H2 & H3 & H4). replace ((fun v => vtxo_id (wv_vtxo v)) <$> ls_htlc_vtxos payment) with ids
      by (rewrite <- ids_of_htlcs, <- list_fmap_compose; done).
    pose proof (touched_mark ids (w_db w)) as Ht. unfold on_wdb, map_err_m, zoom. cbn [fst snd].
    destruct (mark_vtxos_as_spent ids (w_db w)) as [o d]. cbn [fst snd] in *. destruct (paid_settled w0 w d Hw0 H1 H2 H3 H4 Ht) as [Hd _]. by destruct o. }
  intros ?. apply (runs_bind _ _ _ (fun _ w => settled (w_db w))); [by intros w|intros t'].
  apply (runs_bind _ _ _ (fun _ w => settled (w_db w))); [|intros ?; by apply runs_ret].
  intros w Hw. unfold on_mov, zoom, map_err_m. cbn [fst snd]. by destruct (finish_movement _ _ _ _) as [[[]|e|] m].
Qed.
End Payment.

(** ** A check of a payment *)

(** Why an HTLC VTXO of the payment may be given up. *)
Definition htlc_fate (d : db) (h : bytes) (d' : db) (id : bytes) : Prop := exists row vs,
  db_sends d !! h = Some row /\ vtxos_of d (sr_htlc_vtxo_ids row) = Some vs /\ id ∈ sr_htlc_vtxo_ids row /\
  (is_Some (db_exits d' !! id) \/ revoked d vs d' \/ preimage_known h d').
Definition none_lost (d : db) (h : bytes) (d' : db) : Prop := forall id v, db_vtxos d !! id = Some v ->
  db_vtxos d' !! id = Some v \/ db_vtxos d' !! id = Some (spent_row v) /\ htlc_fate d h d' id.
Definition ends (d : db) (h : bytes) (s : WS) : Prop := pay_inv (w_db (ws_world s)) /\ none_lost d h (w_db (ws_world s)).

Lemma frozen_ends (w : W) h (s : WS) : pay_inv (w_db w) -> frozen w (ws_world s) -> ends (w_db w) h s.
Proof.
  intros (H1 & H2 & H3) (F1 & F2 & F3). pose proof (f_equal (fun t => t.1.1.1) F1) as Hd. cbn in Hd. split.
  - split; [by apply F3|]. split; [by apply F3|]. unfold sends_ok. by rewrite F2.
  - intros id v Hv. left. by rewrite Hd.
Qed.

Lemma settled_ends d h payment row (s : WS) : pay_inv d -> db_sends d !! h = Some row -> vtxos_of d (sr_htlc_vtxo_ids row) = Some (ls_htlc_vtxos payment) ->
  settled d h payment row (w_db (ws_world s)) -> ends d h s.
Proof.
  intros (H1 & H2 & H3) Hrow Hvs (S1 & S2 & S3). split; [split; [by apply S2|split; [by apply S2|done]]|].
  intros id v Hv. destruct (S3 id v Hv) as [?|(Hin & Hs & Hw)]; [by left|right]. split; [done|]. exists row, (ls_htlc_vtxos payment). split_and!; [done..|].
  unfold returned in Hw. tauto.
Qed.

Lemma check_send_runs h wait rand (s0 : WS) : pay_inv (w_db (ws_world s0)) ->
  runs (fun s => s = s0) (check_lightning_payment cfg h wait rand : Y _)
    (fun o s => (forall p, o = Some p -> compute_payment_hash p = h) /\ ends (w_db (ws_world s0)) h s) (ends (w_db (ws_world s0)) h).
Proof.
  intros Hinv. set (d := w_db (ws_world s0)) in *. set (F := ends d h).
  set (P := fun s : WS => frozen (ws_world s0) (ws_world s)).
  assert (HF : forall s, P s -> F s) by (intros s Hs; by apply frozen_ends).
  assert (Hk : forall {A} (m : X A), keeps frozen m -> runs P (in_world m) (fun _ => P) F).
  { intros A m Hm s Hs. specialize (Hm (ws_world s)). unfold in_world, zoom. cbn [fst snd]. destruct (m (ws_world s)) as [o w']. cbn [fst snd] in *.
    assert (Hs' : P (mkState w' (ws_exits s) (ws_txs s))) by (unfold P; cbn [ws_world]; by etrans). destruct o; [done|by apply HF..]. }
  apply (runs_pre _ P); [intros s ->; unfold P; reflexivity|]. unfold check_lightning_payment.
  eapply runs_bind; [apply Hk; solve_keeps|intros ?; cbv beta].
  apply (runs_bind _ _ _ (fun o s => (forall r, o = Some r -> send_read d h r) /\ P s)).
  { intros s Hs. pose proof (Hk _ (query_db (get_lightning_send h)) ltac:(solve_keeps) s Hs) as H. unfold in_world, zoom in *.
    destruct (query_db _ (ws_world s)) as [o w'] eqn:Hr. cbn [fst snd] in *. apply query_db_run in Hr as [_ Ho]. destruct o as [o|e|]; [|exact H..].
    split; [|exact H]. intros r ->. destruct (get_send_law h (w_db (ws_world s))) as (_ & _ & Hl). destruct (Hl _ Ho) as (row & Hrow & Hrr & Hv).
    destruct Hs as (H1 & H2 & _). fold d in H1, H2. pose proof (f_equal (fun t => t.1.1.1) H1) as Hd. cbn in Hd. exists row. rewrite <- H2. split; [done|]. split; [done|].
    unfold vtxos_of in *. by rewrite <- Hd. }
  intros o. apply runs_pure. intros Ho. eapply runs_bind; [apply (runs_lift P); exact HF|intros payment; cbv beta]. apply runs_pure. intros ->%ok_or_Ok.
  destruct (Ho payment eq_refl) as (row & Hrow & Hr & Hvs). clear Ho. pose proof (conj Hr Hvs) as Hread.
  destruct (ls_preimage payment) as [p|] eqn:Hpre.
  { apply runs_ret. intros s Hs. split; [|by apply HF]. intros q [= <-]. destruct Hinv as (_ & _ & Hok). destruct (Hok _ _ Hrow) as [_ Hq]. apply Hq.
    rewrite Hr in Hpre. exact Hpre. }
  assert (HB : forall s, P s -> begun d (ws_world s)).
  { intros s (H1 & H2 & H3). split; [exact H1|]. split; [exact H2|exact H3]. }
  do 4 (eapply runs_bind; [apply (runs_post _ _ (fun _ => P) (fun _ => P) P F); [apply runs_lift_same|done|exact HF]|intros ?; cbv beta]).
  apply (runs_bind _ _ _ (fun _ => P)).
  { intros s Hs. specialize (Hk _ (on_srv (server_check_lightning_payment h wait)) ltac:(solve_keeps) s Hs). unfold try_m.
    destruct (in_world _ s) as [[r|e|] s'] eqn:He; cbn [fst snd]; [exact Hk| |exact Hk]. unfold in_world, zoom in He. injection He as _ <-.
    unfold P in *. cbn [ws_world]. etrans; [exact Hs|]. apply (frozen_srv (server_check_lightning_payment h wait) (ws_world s)). }
  intros response. eapply runs_bind; [apply Hk; solve_keeps|intros tip; cbv beta zeta].
  apply (runs_bind _ _ _ (fun r s => match r with inl p => compute_payment_hash p = h /\ F s | inr _ => P s end)).
  { destruct response as [?|[[|p|]|]]; try (apply runs_ret; exact (fun s H => H)).
    apply (runs_bind _ _ _ (fun o s => match o with Some p => compute_payment_hash p = h /\ F s | None => P s end)); [|intros [q|]; apply runs_ret; exact (fun s H => H)].
    intros s Hs. pose proof (runs_in_world _ _ _ _ (preimage_runs d h payment row Hinv Hrow Hread (Some p)) s (HB s Hs)) as H.
    destruct (in_world _ s) as [[[q|]|e|] s'].
    - destruct H as [Hq H]. split; [done|]. by eapply settled_ends.
    - destruct H as (H1 & H2 & H3). by split_and!.
    - by eapply settled_ends.
    - by eapply settled_ends. }
  intros [p|should_revoke]; [apply runs_ret; intros s [Hp Hs]; split; [by intros q [= <-]|done]|].
  apply (runs_bind _ _ _ (fun _ => F)); [|intros ?; by apply runs_ret]. destruct should_revoke; [|apply runs_ret; exact HF].
  apply (runs_pre _ (fun s => begun d (ws_world s))); [exact HB|].
  eapply runs_post; [exact (revoke_or_exit_runs d h payment row Hinv Hrow Hread tip rand)|intros ? s Hs|intros s Hs];
    eapply settled_ends; eauto using fated_settled.
Qed.
End Facts.
