(* ===== verification/LightningPaySend.v ===== *)
(** * Paying over lightning: the VTXOs of a payment

    However far the start of a payment gets and whatever the server answers, the
    wallet only spends VTXOs of its own when it holds HTLC VTXOs for them: valid
    ones that are locked by the payment hash and by a key of the wallet, and that
    are worth what is paid. *)
From stdpp Require Import gmap.
From S2P Require Import Prelude Effects Bitcoin Encode Concrete Policy Vtxo VtxoEncoding Validation Arkoor ArkoorPackage PackageBuilt ChainSource ExitStates.
From S2P Require Import Persist ExitManager ExitProgress ExitVtxo Movement Rounds SignedTree Connectors WalletRoundState WalletRound.
From S2P Require Import WalletKeys Selection SelectionFacts WalletTables WalletState LightningReceive LightningReceiveFacts LightningPay LightningPayFacts.

Open Scope Z_scope.

(** Reading the properties changes nothing. *)
Class PropertyLaws `{B : Bitcoin} `{LT : LightningTypes} (db : Type) `{!Persister db, !RoundPersister db, !KeyPersister db, !LightningPersister db, !BoardPersister db, !PropertyPersister db} :=
  read_network_frame : forall s, core_tables (read_network s).2 = core_tables s /\ payment_tables (read_network s).2 = payment_tables s.

Section Send.
Context `{B : Bitcoin} `{C : !Consensus} `{PT : !PaymentTypes} `{LT : !LightningTypes} `{IT : !InvoiceTypes}.
Context {db net srv mdb : Type} `{!Persister db, !RoundPersister db, !KeyPersister db, !LightningPersister db, !BoardPersister db, !PropertyPersister db,
  !ChainSource net, !RoundChain net, !RoundServer srv, !PayServer srv, !MovementDb mdb}.
Context `{!PersisterLaws db, !RoundPersisterLaws db, !KeyPersisterLaws db, !WalletDbLaws db, !PropertyLaws db}.
Notation W := (World (db := db) (net := net) (srv := srv) (mdb := mdb)).
Notation X := (M W string).
Context (cfg : WalletConfig).
Context (onchain : bytes -> Transaction -> Prop).
Context (honest_chain : forall txid (n : net) tx, (get_tx txid n).1 = inr (Some tx) -> onchain txid tx).

(** ** Code that reads *)
Notation frozen := (frozen cfg).
Hint Resolve frozen_key_idx frozen_net frozen_srv frozen_mov frozen_now frozen_get_key frozen_nonces : effects.
Hint Extern 2 (keeps _ (query_db (get_lightning_send _))) => apply frozen_reads; intros; eexists; apply get_send_law : effects.
Hint Extern 2 (keeps _ (query_db read_network)) => apply frozen_query; intros; apply read_network_frame : effects.

Lemma frozen_by_state ks : keeps frozen (query_db (get_vtxos_by_state ks) : X _).
Proof.
  apply frozen_query. intros s. destruct (get_vtxos_by_state_db ks s) as [H1 H2], (get_by_state_db ks s) as (H3 & H4 & _).
  split; [unfold core_tables; congruence|apply get_by_state_frame].
Qed.
Hint Resolve frozen_by_state : effects.
Lemma frozen_filter_kind k i vtxos : keeps frozen (filter_loop (T := VtxoStateKind.t) k i vtxos : X _).
Proof. revert vtxos. induction i as [|i IH]; intros vtxos; cbn [filter_loop]; solve_keeps. Qed.
Lemma frozen_select req th : keeps frozen (select_vtxos_to_cover req th : X _).
Proof. unfold select_vtxos_to_cover, spendable_vtxos, vtxos_with, unspent_vtxos, filter_vtxos. solve_keeps. apply frozen_filter_kind. Qed.
Lemma frozen_validate v : keeps frozen (validate_vtxo v : X unit).
Proof. unfold validate_vtxo. solve_keeps. Qed.
Lemma frozen_check_invoice inv m : keeps frozen (check_invoice inv m : X unit).
Proof. unfold check_invoice. solve_keeps. Qed.
Lemma frozen_cosign inv ua a pk ins rand : keeps frozen (cosign_htlcs cfg inv ua a pk ins rand : X _).
Proof. unfold cosign_htlcs. solve_keeps. Qed.
Hint Resolve frozen_select frozen_validate frozen_check_invoice frozen_cosign : effects.

(** ** The VTXOs of a payment *)
Definition good_send (h : bytes) (d : db) (v : Vtxo) : Prop :=
  (exists tx, onchain (op_txid (anchor_point v)) tx /\ validate v tx = Ok tt) /\
  exists p, policy v = ServerHtlcSend p /\ hs_payment_hash p = h /\ own_key cfg d (hs_user_pubkey p).

Definition funded (invoice : Invoice) (amount : Z) (vs : list Vtxo) (mid : Z) (d : db) : Prop :=
  NoDup (vtxo_id <$> vs) /\ sum_Z (Vtxo.amount <$> vs) = amount /\
  Forall (fun v => good_send (invoice_payment_hash invoice) d v /\ db_vtxos d !! vtxo_id v = Some (mkWalletVtxo _ v (VtxoState.Locked (Some mid)))) vs.

Lemma cosign_run invoice ua a pk ins rand (w w' : W) vs ch : 0 <= a -> Forall (fun v => 0 <= amount v) ins ->
  cosign_htlcs cfg invoice ua a pk ins rand w = (Ok (vs, ch), w') ->
  sum_Z (amount <$> vs) = Z.min a (sum_Z (amount <$> ins)) /\
  Forall (fun v => exists p, policy v = ServerHtlcSend p /\ hs_payment_hash p = invoice_payment_hash invoice /\ hs_user_pubkey p = pk) vs.
Proof.
  intros Ha Hi H. unfold cosign_htlcs in H. apply bind_run_Ok in H as (kn & w1 & _ & H). apply bind_run_Ok in H as (resp & w2 & _ & H).
  apply bind_run_Ok in H as (pol & w3 & H3 & H). apply bind_run_Ok in H as ([] & w4 & H4 & H). apply bind_run_Ok in H as (b & w5 & H5 & H).
  apply bind_run_Ok in H as (ok & w6 & _ & H). apply bind_run_Ok in H as ([] & w7 & _ & H).
  unfold Effects.lift in H4, H5, H. injection H4 as H4 <-. injection H5 as H5%map_err_Ok <-. injection H as H%map_err_Ok <-.
  destruct (package_new_built _ _ _ _ _ _ _ _ _ _ H5 Ha Hi H) as [Hp Hs]. split; [exact Hs|]. eapply Forall_impl; [exact Hp|]. cbn. intros v ->.
  unfold check_send_policy in H4. destruct pol as [?|p|?|?]; try done. apply bind_Ok in H4 as ([] & H1%ensure_Ok%bool_decide_eq_true & H4).
  apply ensure_Ok, bool_decide_eq_true in H4. by exists p.
Qed.

Definition cosigned (invoice : Invoice) (a : Z) (pk : PublicKey) (vs : list Vtxo) : Prop := sum_Z (amount <$> vs) = a /\
  Forall (fun v => exists p, policy v = ServerHtlcSend p /\ hs_payment_hash p = invoice_payment_hash invoice /\ hs_user_pubkey p = pk) vs.

(** ** The start of a payment *)
Section Payment.
Context (invoice : Invoice) (user_amount : option Z) (d0 : db).
Context (Hrows : rows_ok d0) (Hkeys : keys_ok cfg d0) (Hsends : sends_ok d0).

(** What the wallet gave up, and what it has for it. *)
Definition only_funded (d : db) : Prop := forall id v, db_vtxos d0 !! id = Some v ->
  db_vtxos d !! id = Some v \/
  wv_state v = VtxoState.Spendable /\ db_vtxos d !! id = Some (spent_row v) /\
  exists amount vs mid, get_final_amount invoice user_amount = Ok amount /\ funded invoice amount vs mid d.
Definition safe (w : W) : Prop := sends_ok (w_db w) /\ calm_db cfg d0 (w_db w) /\ only_funded (w_db w).

Definition early (w : W) : Prop := db_vtxos (w_db w) = db_vtxos d0 /\ sends_ok (w_db w) /\ calm_db cfg d0 (w_db w).
Lemma early_safe w : early w -> safe w.
Proof. intros (H1 & H2 & H3). split; [done|]. split; [done|]. intros id v Hv. left. by rewrite H1. Qed.
Lemma early_frozen w w' : early w -> frozen w w' -> early w'.
Proof.
  intros (H1 & H2 & H3) (F1 & F2 & F3). pose proof (f_equal (fun t => t.1.1.1) F1) as Hd. cbn in Hd.
  split; [congruence|]. split; [unfold sends_ok; by rewrite F2|by etrans].
Qed.
Lemma runs_early {A} (m : X A) : keeps frozen m -> runs early m (fun _ => early) safe.
Proof. intros H. apply (runs_keeps frozen); [done|by eapply early_frozen|apply early_safe]. Qed.
Lemma early_rows w : early w -> rows_ok (w_db w).
Proof. intros (H & _). destruct Hrows as [R1 R2]. split; by rewrite H. Qed.

Lemma runs_derive : runs early (derive_store_next_keypair cfg : X _) (fun k w => own_key cfg (w_db w) (keypair_public_key k.1) /\ early w) safe.
Proof.
  intros w Hw. destruct Hw as (H1 & H2 & H3). pose proof (cd_keys_ok _ _ _ H3 Hkeys) as Hk. destruct (derive_store_next_keypair cfg w) as [o w'] eqn:Hr.
  destruct (derive_keys_spec cfg _ _ _ Hk Hr) as (Hk' & Hv & _ & _ & _ & _ & Hkk).
  assert (Hp : payment_tables (w_db w') = payment_tables (w_db w)).
  { unfold derive_store_next_keypair, mbind at 1, M_bind at 1 in Hr. destruct (query_db _ w) as [o1 w1] eqn:Hq. apply query_db_run in Hq as [-> _].
    pose proof (last_index_frame (w_db w)) as [F1 _]. destruct o1 as [l|e|]; [|injection Hr as _ <-; exact F1..].
    unfold mbind at 1, M_bind at 1, Effects.lift at 1 in Hr. destruct (match l with Some i => _ | None => _ end) as [i|e|]; [|injection Hr as _ <-; exact F1..].
    unfold mbind at 1, M_bind at 1 in Hr. destruct (query_db _ _) as [o2 w2] eqn:Hq2. apply query_db_run in Hq2 as [-> _]. cbn [w_db] in Hr.
    destruct (store_key_frame i (keypair_public_key (wc_derive_keypair cfg i)) (get_last_vtxo_key_index (w_db w)).2) as [F2 _]. rewrite F1 in F2.
    destruct o2 as [[]|e|]; injection Hr as _ <-; exact F2. }
  assert (Hpk : forall i pk, db_keys (w_db w) !! i = Some pk -> db_keys (w_db w') !! i = Some pk).
  { intros i pk Hi. destruct o as [[kp idx]|e|]; [|by rewrite Hkk..]. destruct Hkk as (_ & _ & Hn & ->). rewrite lookup_insert_ne; [done|]. intros <-. by rewrite Hn in Hi. }
  assert (He : early w').
  { split; [congruence|]. split; [unfold sends_ok; by rewrite (f_equal (fun t => t.1.2) Hp : db_sends (w_db w') = _)|]. etrans; [exact H3|].
    split; [|unfold keyed; by rewrite Hv|exact Hpk|by intros _|by apply payments_receives]. intros id v. rewrite Hv. eauto. }
  destruct o as [[kp i]|e|]; [|by apply early_safe..]. split; [|done]. exists i. cbn [fst]. destruct Hkk as (-> & _ & _ & ->). by rewrite lookup_insert_eq.
Qed.

Definition selected (amount : Z) (ins : list Vtxo) : Prop := amount <= sum_Z (Vtxo.amount <$> ins) /\ Forall (fun v => 0 <= Vtxo.amount v) ins /\
  forall v, v ∈ ins -> db_vtxos d0 !! vtxo_id v = Some (mkWalletVtxo _ v VtxoState.Spendable).
Lemma runs_select amount : runs early (select_vtxos_to_cover amount None : X _) (fun ins w => selected amount ins /\ early w) safe.
Proof.
  intros w Hw. pose proof (runs_early _ (frozen_select amount None) w Hw) as H. destruct (select_vtxos_to_cover amount None w) as [[ins|e|] w'] eqn:Hr; [|exact H..].
  split; [|exact H]. apply select_vtxos_spec in Hr as [_ (Hs & _ & _ & Hin)]; [|by apply early_rows]. destruct Hw as (Hv & _). rewrite Hv in Hin.
  split; [exact Hs|]. split; [|intros v Hvi; by apply Hin]. apply Forall_forall. intros v Hvi. destruct (Hin v Hvi) as [Hl _].
  destruct Hrows as [_ Ha]. exact (Ha _ _ Hl).
Qed.

(** The loop that validates. *)
Lemma runs_validate vs : forall balance, runs early (foldM (fun balance vtxo => _ ← validate_vtxo vtxo; Effects.lift (u_add 64 balance (Vtxo.amount vtxo))) balance vs : X Z)
  (fun _ w => Forall (fun v => exists tx, onchain (op_txid (anchor_point v)) tx /\ validate v tx = Ok tt) vs /\ early w) safe.
Proof.
  induction vs as [|v vs IH]; intros balance; cbn [foldM]; [by apply runs_ret|].
  apply (runs_bind _ _ _ (fun _ w => (exists tx, onchain (op_txid (anchor_point v)) tx /\ validate v tx = Ok tt) /\ early w)).
  - apply (runs_bind _ _ _ (fun _ w => (exists tx, onchain (op_txid (anchor_point v)) tx /\ validate v tx = Ok tt) /\ early w)).
    + intros w Hw. pose proof (runs_early _ (frozen_validate v) w Hw) as H. destruct (validate_vtxo v w) as [[[]|e|] w'] eqn:Hr; [|exact H..].
      split; [|exact H]. by eapply validate_run.
    + intros ? w [Hv Hw]. unfold Effects.lift. destruct (u_add _ _ _); [by split|by apply early_safe..].
  - intros b. apply runs_pure. intros Hv. eapply runs_post; [apply IH| |done]. intros ? w [Hf Hw]. split; [by constructor|done].
Qed.

(** *** The HTLC VTXOs are stored, and the inputs spent *)
Definition held (amount : Z) (vs : list Vtxo) (mid : Z) (w : W) : Prop := sends_ok (w_db w) /\ calm_db cfg d0 (w_db w) /\
  funded invoice amount vs mid (w_db w) /\ Forall (fun v => db_vtxos d0 !! vtxo_id v = None) vs /\
  forall id v, db_vtxos d0 !! id = Some v -> db_vtxos (w_db w) !! id = Some v.
Definition done (amount : Z) (vs : list Vtxo) (mid : Z) (w : W) : Prop := safe w /\ funded invoice amount vs mid (w_db w).

Lemma held_safe amount vs mid w : held amount vs mid w -> safe w.
Proof. intros (H1 & H2 & _ & _ & H3). split; [exact H1|]. split; [exact H2|]. intros id v Hv. left. by apply H3. Qed.

Lemma runs_store_htlcs amount vs mid pk : sum_Z (Vtxo.amount <$> vs) = amount ->
  Forall (fun v => exists p, policy v = ServerHtlcSend p /\ hs_payment_hash p = invoice_payment_hash invoice /\ hs_user_pubkey p = pk) vs ->
  Forall (fun v => exists tx, onchain (op_txid (anchor_point v)) tx /\ validate v tx = Ok tt) vs ->
  runs (fun w => own_key cfg (w_db w) pk /\ early w) (on_wdb (fun e => e) (store_locked_vtxos vs (Some mid)) : X unit) (fun _ => held amount vs mid) safe.
Proof.
  intros Hsum Hpol Hval w [Hown (Hv & Hs & Hc)]. unfold on_wdb, map_err_m, zoom, store_locked_vtxos, wallet_store_vtxos, call. cbn [fst snd].
  set (l := (fun v => (v, VtxoState.Locked (Some mid))) <$> vs). destruct (store_vtxos_db l (w_db w)) as [_ Hst].
  pose proof (store_vtxos_frame l (w_db w)) as [Hp _]. pose proof (calm_store cfg l (w_db w)) as Hc'. pose proof (store_vtxos_once l (w_db w)) as Hnd.
  assert (Hs' : sends_ok (store_vtxos l (w_db w)).2) by (unfold sends_ok; rewrite (f_equal (fun t => t.1.2) Hp : db_sends _ = _); exact Hs).
  destruct (store_vtxos l (w_db w)) as [[e|[]] d]; cbn [fst snd map_err w_db] in *.
  { split; [done|]. split; [by etrans|]. intros id v Hid. left. cbn [w_db]. by rewrite Hst, Hv. }
  destruct Hst as (H1 & H2 & H3). assert (Hl : forall v, v ∈ vs -> (v, VtxoState.Locked (Some mid)) ∈ l) by (intros v Hin; apply list_elem_of_fmap; by exists v).
  split; [done|]. cbn [w_db]. split; [by etrans|]. split; [|split].
  - split; [specialize (Hnd eq_refl); unfold l in Hnd; by rewrite <- list_fmap_compose in Hnd|]. split; [done|]. rewrite Forall_forall in Hpol, Hval |- *.
    intros v Hin. split; [|exact (H2 _ (Hl v Hin))]. split; [by apply Hval|]. destruct (Hpol v Hin) as (q & Hq & Hh & Hk). exists q. rewrite Hk. split_and!; [done|done|].
    by apply (own_key_calm cfg (w_db w)).
  - apply Forall_forall. intros v Hin. rewrite <- Hv. exact (H1 _ (Hl v Hin)).
  - intros id v Hid. rewrite H3; [by rewrite Hv|]. intros (q & -> & Hq)%list_elem_of_fmap. specialize (H1 _ Hq). rewrite Hv in H1.
    by pose proof (eq_trans (eq_sym Hid) H1).
Qed.

Lemma funded_change amount vs mid (d d' : db) : calm_db cfg d d' -> funded invoice amount vs mid d ->
  Forall (fun v => db_vtxos d' !! vtxo_id v = db_vtxos d !! vtxo_id v) vs -> funded invoice amount vs mid d'.
Proof.
  intros Hc (H1 & H2 & H3) Hsame. split; [done|]. split; [done|]. rewrite Forall_forall in H3, Hsame |- *. intros v Hin. destruct (H3 v Hin) as [[Hv (q & Hq & Hh & Hk)] Hl].
  split; [split; [done|]; exists q; split_and!; [done..|]; by apply (own_key_calm cfg d)|]. exact (eq_trans (Hsame v Hin) Hl).
Qed.

Lemma runs_mark_inputs amount vs mid ins : get_final_amount invoice user_amount = Ok amount -> selected amount ins ->
  runs (held amount vs mid) (on_wdb state_error (mark_vtxos_as_spent (vtxo_id <$> ins)) : X unit) (fun _ => done amount vs mid) safe.
Proof.
  intros Ha (_ & _ & Hin) w (H1 & H2 & H3 & H4 & H5). pose proof (touched_mark cfg (vtxo_id <$> ins) (w_db w)) as (T1 & _ & T3 & T4).
  unfold on_wdb, map_err_m, zoom. cbn [fst snd]. destruct (mark_vtxos_as_spent (vtxo_id <$> ins) (w_db w)) as [o d]. cbn [fst snd] in *.
  set (w' := mkWorld d _ _ _). assert (Hf : funded invoice amount vs mid d).
  { apply (funded_change amount vs mid (w_db w)); [done..|]. eapply Forall_impl; [exact H4|]. cbn. intros v Hv. destruct (T4 (vtxo_id v)) as [?|[Hi _]]; [done|].
    apply list_elem_of_fmap in Hi as (x & Hx & Hxi). specialize (Hin x Hxi). rewrite <- Hx in Hin. by pose proof (eq_trans (eq_sym Hin) Hv). }
  assert (Hd : done amount vs mid w').
  { split; [|done]. split; [unfold sends_ok, w'; cbn [w_db]; by rewrite T1|]. split; [by etrans|]. intros id v Hid. cbn [w' w_db].
    destruct (T4 id) as [->|(Hi & x & Hx & -> & _)]; [left; by apply H5|]. right. apply list_elem_of_fmap in Hi as (y & -> & Hy). specialize (Hin y Hy).
    pose proof (eq_trans (eq_sym Hid) Hin) as [= ->]. specialize (H5 _ _ Hin). pose proof (eq_trans (eq_sym H5) Hx) as [= <-].
    split; [done|]. split; [done|]. by exists amount, vs, mid. }
  destruct o; [exact Hd|apply Hd..].
Qed.

(** *** The rest only adds *)
Definition grows : relation W := fun w w' => calm_db cfg (w_db w) (w_db w') /\ (sends_ok (w_db w) -> sends_ok (w_db w')) /\
  forall id v, db_vtxos (w_db w) !! id = Some v -> db_vtxos (w_db w') !! id = Some v.
#[export] Instance grows_preorder : PreOrder grows.
Proof. split; [intros w; split; [reflexivity|by split]|]. intros w1 w2 w3 (A1 & A2 & A3) (B1 & B2 & B3). split; [by etrans|]. split; auto. Qed.

Lemma funded_grows amount vs mid w w' : grows w w' -> funded invoice amount vs mid (w_db w) -> funded invoice amount vs mid (w_db w').
Proof.
  intros (H1 & _ & H2) Hf. apply (funded_change amount vs mid (w_db w)); [done..|]. destruct Hf as (_ & _ & Hf). eapply Forall_impl; [exact Hf|]. cbn. intros v [_ Hl].
  rewrite Hl. by apply H2.
Qed.
Lemma done_grows amount vs mid w w' : done amount vs mid w -> grows w w' -> done amount vs mid w'.
Proof.
  intros [(Hs & Hc & Ho) Hf] Hg. split; [|by eapply funded_grows]. pose proof Hg as (G1 & G2 & G3). split; [by apply G2|]. split; [by etrans|].
  intros id v Hid. destruct (Ho id v Hid) as [Hd|(Hst & Hd & a & vs' & mid' & Ha & Hf')]; [left; by apply G3|right]. split; [done|]. split; [by apply G3|].
  exists a, vs', mid'. split; [done|]. by apply (funded_grows a vs' mid' w).
Qed.
Lemma keeps_grows {A} (m : X A) : keeps frozen m -> keeps grows m.
Proof.
  intros H w. destruct (H w) as (F1 & F2 & F3). pose proof (f_equal (fun t => t.1.1.1) F1) as Hd. cbn in Hd.
  split; [done|]. split; [unfold sends_ok; by rewrite F2|]. intros id v. by rewrite Hd.
Qed.
Lemma runs_done {A} amount vs mid (m : X A) : keeps grows m -> runs (done amount vs mid) m (fun _ => done amount vs mid) safe.
Proof. intros H. apply (runs_keeps grows); [done|by eapply done_grows|by intros w []]. Qed.

Lemma grows_store news st : keeps grows (on_wdb (fun e => e) (wallet_store_vtxos news st) : X unit).
Proof.
  intros w. unfold on_wdb, map_err_m, zoom, wallet_store_vtxos, call. cbn [fst snd]. set (l := _ <$> news). destruct (store_vtxos_db l (w_db w)) as [_ Hst].
  pose proof (store_vtxos_frame l (w_db w)) as [Hp _]. pose proof (calm_store cfg l (w_db w)) as Hc'. unfold grows. cbn [w_db].
  destruct (store_vtxos l (w_db w)) as [o d]. cbn [fst snd w_db] in *. split; [done|].
  split; [unfold sends_ok; by rewrite (f_equal (fun t => t.1.2) Hp : db_sends d = _)|].
  destruct o as [e|[]]; [by rewrite Hst|]. destruct Hst as (H1 & _ & H3). intros id v Hid. rewrite H3; [done|].
  intros (q & -> & Hq)%list_elem_of_fmap. by pose proof (eq_trans (eq_sym Hid) (H1 _ Hq)).
Qed.

Lemma grows_change ins ch : keeps grows (store_change ins ch : X unit).
Proof.
  unfold store_change. apply keeps_bind; [apply _|apply keeps_lift, _|intros lst]. apply keeps_bind; [apply _|apply keeps_grows; solve_keeps|intros tx].
  apply keeps_bind; [apply _|apply keeps_lift, _|intros t]. apply keeps_bind; [apply _|apply keeps_lift, _|intros ?]. apply grows_store.
Qed.

(** The record of the payment. *)
Definition recorded (amount : Z) (vs : list Vtxo) (mid : Z) (r : LightningSend) (d : db) : Prop :=
  db_sends d !! invoice_payment_hash invoice = Some (mkSendRow invoice amount (vtxo_id <$> vs) mid None None) /\
  r = mkSend invoice amount ((fun v => mkWalletVtxo _ v (VtxoState.Locked (Some mid))) <$> vs) mid None.

Lemma runs_store_send amount vs mid : runs (done amount vs mid) (query_db (store_new_pending_lightning_send invoice amount (vtxo_id <$> vs) mid) : X _)
  (fun r w => recorded amount vs mid r (w_db w) /\ done amount vs mid w) safe.
Proof.
  intros w Hd. destruct (query_db _ w) as [o w'] eqn:Hr. apply query_db_run in Hr as [Hw' Ho].
  destruct (store_send_law invoice amount (vtxo_id <$> vs) mid (w_db w)) as ((Hc & Hrec & _ & Hsd) & Hnew).
  assert (Hg : grows w w').
  { rewrite Hw'. split; [by apply calm_core|]. pose proof (f_equal (fun t => t.1.1.1) Hc) as Hd1. cbn in Hd1. split; [|intros id v; cbn [w_db]; by rewrite Hd1].
    intros Hs i row. cbn [w_db]. rewrite Hsd. destruct (store_new_pending_lightning_send _ _ _ _ _).1; [apply Hs|]. intros [[<- <-]|[_ Hl]]%lookup_insert_Some; [|by apply Hs].
    by split. }
  pose proof (done_grows _ _ _ _ _ Hd Hg) as Hd'. destruct o as [r|e|]; [|apply Hd'..]. split; [|done]. destruct (Hnew r Ho) as (_ & ws & Hws & ->). split.
  - rewrite Hw'. cbn [w_db]. rewrite Hsd, Ho. by rewrite lookup_insert_eq.
  - f_equal. destruct Hd as [_ (_ & _ & Hf)]. unfold vtxos_of in Hws. apply mapM_Some_1 in Hws. clear -Hws Hf. revert ws Hws.
    induction vs as [|v l IH]; intros ws Hws; cbn in Hws; [by apply Forall2_nil_inv_l in Hws as ->|]. apply Forall_cons in Hf as [[_ Hv] Hf].
    apply Forall2_cons_inv_l in Hws as (x & k & Hx & Hk & ->). cbn. f_equal; [|by apply IH]. pose proof (eq_trans (eq_sym Hx) Hv) as H. by injection H.
Qed.

Lemma send_runs method rand : runs early (make_lightning_payment cfg invoice method user_amount rand : X _)
  (fun r w => safe w /\ exists amount vs mid, get_final_amount invoice user_amount = Ok amount /\ funded invoice amount vs mid (w_db w) /\
     recorded amount vs mid r (w_db w)) safe.
Proof.
  unfold make_lightning_payment. eapply runs_bind; [apply runs_early; solve_keeps|intros ?; cbv beta].
  eapply runs_bind; [apply runs_lift, early_safe|intros amount; cbv beta]. apply runs_pure. intros Ha.
  eapply runs_bind; [apply runs_lift, early_safe|intros ?; cbv beta]. apply runs_pure. intros Hdust%ensure_Ok%negb_true_iff%Z.ltb_ge.
  eapply runs_bind; [apply runs_derive|intros change; cbv beta zeta]. set (pk := keypair_public_key change.1).
  set (P := fun w : W => own_key cfg (w_db w) pk /\ early w).
  assert (HP : forall w w' : W, own_key cfg (w_db w) pk -> calm_db cfg (w_db w) (w_db w') -> own_key cfg (w_db w') pk) by (intros w w' Ho Hc; by eapply own_key_calm).
  assert (Hk : forall {A} (m : X A) Q, keeps frozen m -> runs early m (fun a w => Q a /\ early w) safe -> runs P m (fun a w => Q a /\ P w) safe).
  { intros A m Q Hm HQ w [Ho He]. specialize (HQ w He). destruct (Hm w) as (_ & _ & Hc). destruct (m w) as [[x|e|] w']; [|exact HQ..]. destruct HQ as [? ?].
    split; [done|]. split; [by eapply HP|done]. }
  assert (Hk' : forall {A} (m : X A), keeps frozen m -> runs P m (fun _ => P) safe).
  { intros A m Hm w [Ho He]. pose proof (runs_early m Hm w He) as H. destruct (Hm w) as (_ & _ & Hc). destruct (m w) as [[x|e|] w']; [|exact H..]. split; [by eapply HP|done]. }
  eapply runs_bind; [apply Hk, runs_select; apply frozen_select|intros ins; cbv beta]. apply runs_pure. intros Hsel. pose proof Hsel as (Hge & Hpos & _).
  eapply runs_bind; [apply (Hk _ _ (fun built => cosigned invoice amount pk built.1) (frozen_cosign _ _ _ _ _ _))|intros [vs ch]; cbv beta zeta].
  { intros w He. pose proof (runs_early _ (frozen_cosign invoice user_amount amount pk ins rand) w He) as H.
    destruct (cosign_htlcs _ _ _ _ _ _ _ w) as [[[vs ch]|e|] w'] eqn:Hr; [|exact H..]. split; [|exact H].
    apply cosign_run in Hr as [Hs Hp]; [|unfold P2TR_DUST in Hdust; lia|done]. split; [cbn [fst]; rewrite Hs; by apply Z.min_l|exact Hp]. }
  apply runs_pure. intros [Hsum Hpol]. cbn [fst snd] in *.
  eapply runs_bind; [apply (Hk _ _ (fun _ => Forall (fun v => exists tx, onchain (op_txid (anchor_point v)) tx /\ validate v tx = Ok tt) vs)); [solve_keeps|apply runs_validate]|intros total; cbv beta].
  apply runs_pure. intros Hval. do 4 (eapply runs_bind; [apply Hk'; solve_keeps|intros ?; cbv beta]).
  eapply runs_bind; [by apply (runs_store_htlcs amount vs _ pk)|intros ?; cbv beta].
  eapply runs_bind; [by apply runs_mark_inputs|intros ?; cbv beta].
  eapply runs_bind; [apply runs_done; destruct ch; [apply grows_change|apply keeps_ret, _]|intros ?; cbv beta].
  do 2 (eapply runs_bind; [apply runs_done, keeps_grows; solve_keeps|intros ?; cbv beta]).
  eapply runs_bind; [apply runs_store_send|intros r; cbv beta]. intros w [Hrec Hd]. unfold mbind, M_bind.
  destruct (on_srv _ w) as [o w'] eqn:Hr. apply on_srv_run in Hr as [-> _]. destruct o as [[]|e|]; [|apply Hd..].
  split; [apply Hd|]. exists amount, vs. eexists. split; [done|]. split; [apply Hd|exact Hrec].
Qed.
End Payment.
End Send.
