(* ===== verification/LightningPayReach.v ===== *)
(** * Paying over lightning: what the wallet risks

    [payment_funded]: what a started payment may cost.  [htlcs_never_lost]: what
    a check of a payment may do to its HTLC VTXOs.  [change_lost] is a run in
    which the wallet keeps the HTLC VTXOs and loses its change. *)
From stdpp Require Import gmap.
From S2P Require Import Prelude Effects Bitcoin Encode Concrete Policy Vtxo VtxoEncoding Validation Board Arkoor ArkoorPackage PackageBuilt ChainSource ExitStates.
From S2P Require Import Persist ExitManager ExitProgress ExitVtxo Movement MovementFacts Rounds SignedTree Connectors WalletRoundState WalletRound.
From S2P Require Import WalletKeys Selection SelectionFacts WalletTables WalletState LightningReceive LightningReceiveFacts LightningPay LightningPayFacts LightningPaySend.

Open Scope Z_scope.

Section Reach.
Context `{B : Bitcoin} `{C : !Consensus} `{K : !KeyLaws B} `{Ml : !MusigLaws B} `{Wl : !WitnessLaws B}.
Context `{PT : !PaymentTypes} `{LT : !LightningTypes} `{IT : !InvoiceTypes}.
Context {db net srv mdb : Type} `{!Persister db, !RoundPersister db, !KeyPersister db, !LightningPersister db, !BoardPersister db, !PropertyPersister db,
  !ChainSource net, !RoundChain net, !RoundServer srv, !PayServer srv, !MovementDb mdb}.
Context `{!PersisterLaws db, !RoundPersisterLaws db, !KeyPersisterLaws db, !WalletDbLaws db, !PropertyLaws db}.
Notation W := (World (db := db) (net := net) (srv := srv) (mdb := mdb)).
Notation WS := (WalletState (db := db) (net := net) (srv := srv) (mdb := mdb)).
Context (cfg : WalletConfig).
Context (onchain : bytes -> Transaction -> Prop).
Context (honest_chain : forall txid (n : net) tx, (get_tx txid n).1 = inr (Some tx) -> onchain txid tx).

Lemma safe_inv invoice user_amount d0 (w : W) : rows_ok d0 -> keys_ok cfg d0 -> safe cfg onchain invoice user_amount d0 w -> pay_inv cfg (w_db w).
Proof. intros Hr Hk (H1 & H2 & _). split; [exact (cd_keyed _ _ _ H2 (ro_keyed _ Hr))|]. split; [exact (cd_keys_ok _ _ _ H2 Hk)|done]. Qed.

(** C15. However far the start of a payment gets, whatever the server and the chain
    answer, and whichever call of the database fails, every VTXO of the wallet is
    untouched, or it was spendable, is now spent, and the database holds for it
    new, different HTLC VTXOs, locked for the payment, that are worth exactly the
    amount of the invoice: each was validated on a transaction the chain reported
    and is locked by the payment hash and by a key of the wallet.  A payment
    that was started is on record with these VTXOs. *)
Theorem payment_funded invoice method user_amount rand (w w' : W) o : rows_ok (w_db w) -> keys_ok cfg (w_db w) -> sends_ok (w_db w) ->
  make_lightning_payment cfg invoice method user_amount rand w = (o, w') ->
  let d := w_db w' in
  pay_inv cfg d /\
  (forall id v, db_vtxos (w_db w) !! id = Some v ->
     db_vtxos d !! id = Some v \/
     wv_state v = VtxoState.Spendable /\ db_vtxos d !! id = Some (spent_row v) /\
     exists amount vs mid, get_final_amount invoice user_amount = Ok amount /\ funded cfg onchain invoice amount vs mid d) /\
  (forall r, o = Ok r -> exists amount vs mid, get_final_amount invoice user_amount = Ok amount /\
     funded cfg onchain invoice amount vs mid d /\ recorded invoice amount vs mid r d).
Proof.
  intros Hr Hk Hs Hrun. cbv zeta. assert (He : early cfg (w_db w) w) by by split; [|split].
  pose proof (send_runs cfg onchain honest_chain invoice user_amount (w_db w) Hr Hk method rand w He) as H. rewrite Hrun in H.
  assert (Hsafe : safe cfg onchain invoice user_amount (w_db w) w') by (destruct o; [apply H|exact H..]).
  split; [by apply (safe_inv invoice user_amount (w_db w))|]. split; [apply Hsafe|]. intros r ->. apply H.
Qed.

(** C14. When the wallet asks how a payment went, whatever the server and the
    chain answer, wherever the wallet stops, and whichever call of the database
    fails: every VTXO is untouched, or it is an HTLC VTXO of this payment that is
    marked as spent because its exit is on record, because the wallet has stored
    spendable VTXOs of its own that replace all HTLC VTXOs of the payment, one by
    one with the same amounts and as good as they were, or because the
    preimage of the payment is on record.  A preimage that is returned is the one
    of the payment. *)
Theorem htlcs_never_lost h wait rand (s s' : WS) o : pay_inv cfg (w_db (ws_world s)) ->
  check_lightning_payment cfg h wait rand s = (o, s') ->
  let d := w_db (ws_world s) in let d' := w_db (ws_world s') in
  pay_inv cfg d' /\ (forall p, o = Ok (Some p) -> compute_payment_hash p = h) /\
  forall id v, db_vtxos d !! id = Some v ->
    db_vtxos d' !! id = Some v \/
    db_vtxos d' !! id = Some (spent_row v) /\ exists row vs, db_sends d !! h = Some row /\ vtxos_of d (sr_htlc_vtxo_ids row) = Some vs /\
      id ∈ sr_htlc_vtxo_ids row /\ (is_Some (db_exits d' !! id) \/ revoked d vs d' \/ preimage_known h d').
Proof.
  intros Hinv Hrun. cbv zeta. pose proof (check_send_runs cfg h wait rand s Hinv s eq_refl) as H. rewrite Hrun in H.
  destruct o as [o|e|]; [|destruct H as [H1 H2]; split; [exact H1|]; split; [done|exact H2]..].
  destruct H as (Hp & H1 & H2). split; [exact H1|]. split; [|exact H2]. intros p [= ->]. by apply Hp.
Qed.

(** Checking all payments keeps the tables right. *)
Lemma sync_sends_inv rand (s : WS) : pay_inv cfg (w_db (ws_world s)) ->
  pay_inv cfg (w_db (ws_world (sync_pending_lightning_send_vtxos cfg rand s).2)).
Proof.
  intros Hinv. unfold sync_pending_lightning_send_vtxos, mbind at 1, M_bind at 1, in_world at 1, zoom at 1.
  assert (Hf : keeps (frozen cfg) (pending_lightning_sends : M W string _)).
  { apply frozen_reads. intros. eexists. apply pending_sends_law. }
  specialize (Hf (ws_world s)). destruct (pending_lightning_sends (ws_world s)) as [o w]. cbn [fst snd] in *.
  assert (Hw : pay_inv cfg (w_db w)).
  { destruct Hf as (F1 & F2 & F3), Hinv as (H1 & H2 & H3). split; [by apply F3|]. split; [by apply F3|]. unfold sends_ok. by rewrite F2. }
  destruct o as [l|e|]; [|exact Hw..]. set (s0 := mkState w _ _). change (pay_inv cfg (w_db (ws_world s0))) in Hw. clearbody s0. revert s0 Hw.
  unfold forM_. induction l as [|r l IH]; intros s0 Hw; [exact Hw|]. cbn [foldM]. unfold mbind at 1, M_bind at 1. unfold mbind at 1, M_bind at 1.
  pose proof (check_send_runs cfg (invoice_payment_hash (ls_invoice r)) false (rand (invoice_payment_hash (ls_invoice r))) s0 Hw s0 eq_refl) as H.
  destruct (check_lightning_payment _ _ _ _ s0) as [[p|e|] s1]; [destruct H as [_ [H _]]; exact (IH s1 H)|apply H..].
Qed.
End Reach.

(** ** A payment in the model

    The wallet has one VTXO of 10000 sat and pays 6000.  The server signs what
    it is asked to, and answers as it was set up. *)
Definition pay_preimage : bytes := replicate 32 Byte.x55.
Definition pay_hash : bytes := compute_payment_hash (B := model) pay_preimage.

#[local] Existing Instance sample_types.
#[local] Instance pay_invoices : LightningTypes (PT := sample_types) := {|
  Bolt11Invoice := unit; parse_bolt11 := fun _ => Some tt; amount_milli_satoshis := fun _ => Some 6000000; bolt11_payment_hash := fun _ => pay_hash;
  invoice_bolt11 := fun _ => (tt : @Invoice sample_types); invoice_payment_hash := fun _ => pay_hash |}.
#[local] Instance pay_invoice_types : InvoiceTypes (B := model) := {|
  Bolt12Invoice := unit; invoice_kind := fun _ => inl tt; invoice_bolt12 := fun _ => (tt : @Invoice sample_types); parse_invoice := fun _ => Some (tt : @Invoice sample_types);
  parse_bolt12 := fun _ => Some tt; bolt11_network := fun _ => NetRegtest; bolt11_check_signature := fun _ => true; bolt12_chain := fun _ => [];
  amount_msats := fun _ => 0; signable_hash := fun _ => []; bolt12_signature := fun _ => ([] : bytes, [] : bytes) : @Signature model; issuer_signing_pubkey := fun _ => None; offer_issuer := fun _ => None; offer_write := fun _ => [];
  CHAIN_BITCOIN := []; CHAIN_TESTNET3 := []; CHAIN_TESTNET4 := []; CHAIN_SIGNET := []; CHAIN_REGTEST := [] |}.
#[local] Instance pay_properties : PropertyPersister (WalletTables (B := model)) := {| read_network s := (inr (Some NetRegtest), s) |}.
#[local] Instance pay_properties_laws : PropertyLaws (B := model) (WalletTables (B := model)).
Proof. by intros s. Qed.

(** The VTXOs the server knows, and its answer to the question how a payment went. *)
Record PayTestServer := mkPayTest { pt_vtxos : list (Vtxo (B := model)); pt_status : option PaymentStatus }.
#[local] Instance pay_round_server : RoundServer (B := model) PayTestServer := {|
  require_server s := (inr tt, s);
  get_ark_info s := (inr (mkArkInfo (B := model) Byte.x09 4 12 144 6 1 250 1000 1), s);
  submit_payment _ s := (inr tt, s);
  provide_vtxo_signatures _ _ s := (inr tt, s);
  provide_forfeit_signatures _ s := (inr tt, s);
  last_round_event s := (inl "no event"%string, s);
  forfeits_sent _ := [] |}.

Definition known_vtxos (s : PayTestServer) (ids : list bytes) : list (Vtxo (B := model)) :=
  omap (fun id => List.find (fun v => bool_decide (vtxo_id v = id)) (pt_vtxos s)) ids.
Definition cosign_package (p : outcome (@ArkoorPackageError model) (ArkoorPackageBuilder (B := model))) : string + list (ArkoorCosignResponse (B := model)) :=
  match p with
  | Ok p => match package_server_cosign (E := unit) p Byte.x09 [11; 12; 13] with Ok l => inr l | _ => inl "cannot sign"%string end
  | _ => inl "bad package"%string
  end.
Definition pay_policy (pk : @PublicKey model) : VtxoPolicy (B := model) := new_server_htlc_send (B := model) pk pay_hash 500.
#[local] Instance pay_server : PayServer (B := model) PayTestServer := {|
  request_lightning_pay_htlc_cosign r s :=
    match cosign_package (package_new (known_vtxos s (hq_input_vtxo_ids r)) (hq_user_nonces r) (mkRequest (B := model) 6000 (pay_policy (hq_user_pubkey r)))
                            (Some (hq_user_pubkey r))), serialize (pay_policy (hq_user_pubkey r)) with
    | inr l, Ok b => (inr (l, b), s)
    | _, _ => (inl "refused"%string, s)
    end;
  request_lightning_pay_htlc_revocation ids nonces s := (cosign_package (new_htlc_revocation (known_vtxos s ids) nonces), s);
  server_check_lightning_payment _ _ s := (inr (pt_status s), s);
  initiate_lightning_payment _ _ s := (inr tt, s);
  fetch_bolt12_invoice _ _ s := (inl "no offers"%string, s) |}.

(** A chain with one transaction, which answers so many questions about it. *)
Definition PayNet : Type := nat.
#[local] Instance pay_chain : ChainSource PayNet := {|
  fee_rates _ := mkFeeRates 1 1 1;
  chain_tip n := (inr 100, n);
  block_ref h n := (inr (mkBlockRef h []), n);
  chain_tx_status _ n := (inr TxStatus.NotFound, n);
  txs_spending_inputs _ _ n := (inr ∅, n);
  get_tx _ n := match n with O => (inl "timeout"%string, n) | S n => (inr (Some board_funding_tx), n) end;
  mempool_ancestor_info _ n := (inl "not found"%string, n);
  broadcast_txs _ n := (inr tt, n) |}.
#[local] Instance pay_round_chain : RoundChain PayNet := {|
  get_output_status _ _ n := (inr None, n); get_tx_out _ _ n := (inr None, n); broadcast_tx _ n := (inr tt, n); clock _ := 0 |}.

Definition pay_cfg : WalletConfig (B := model) :=
  mkWalletConfig (B := model) 6 12 12 18 Esplora (fun _ => 0) (fun i => match Byte.of_N (Z.to_N (i + 5)) with Some b => b | None => Byte.x00 end).

Notation PayWorld := (World (PT := sample_types) (db := WalletTables (B := model)) (net := PayNet) (srv := PayTestServer) (mdb := MovTables (PT := sample_types))).
Notation PayState := (WalletState (PT := sample_types) (db := WalletTables (B := model)) (net := PayNet) (srv := PayTestServer) (mdb := MovTables (PT := sample_types))).

Definition pay_tables : WalletTables (B := model) :=
  mkWalletTables (B := model) (mkRoundTables (B := model) (mkSqlite (B := model) {[ vtxo_id board_vtxo := (board_vtxo, VtxoState.Spendable, []) ]} ∅ ∅ []) ∅ 0 {[ 0 := Byte.x05 ]}) ∅ ∅ ∅.
Definition pay_w0 (questions : nat) : PayWorld :=
  mkWorld (PT := sample_types) pay_tables (questions : PayNet) (mkPayTest [board_vtxo] None) (mkManager {[ 0 := "bark.lightning"%string ]} ∅, mkTables ∅ 0 []).
Notation pay_run questions := (make_lightning_payment (B := model) pay_cfg (tt : @Invoice sample_types) (PmInvoice (tt : @Invoice sample_types)) None (fun _ => 4) (pay_w0 questions)).

Lemma pay_rows : rows_ok (B := model) pay_tables.
Proof.
  assert (H : forall id v, db_vtxos pay_tables !! id = Some v -> id = vtxo_id (wv_vtxo v) /\ 0 <= amount (wv_vtxo v)).
  { intros id v. cbn [db_vtxos wallet_tables_persister round_tables_persister sqlite wt_rt rt_db pay_tables sq_vtxos]. rewrite lookup_fmap.
    intros (row & Hrow & ->)%fmap_Some. apply lookup_singleton_Some in Hrow as [<- <-]. split; [reflexivity|]. apply Z.leb_le. vm_eq. }
  split; intros id v Hv; [symmetry; by apply H|by eapply H].
Qed.

Lemma pay_keys : keys_ok (B := model) pay_cfg pay_tables.
Proof.
  exists 1. split; [lia|]. intros i. cbn [db_keys wallet_tables_keys round_tables_keys wt_rt pay_tables rt_keys]. case_decide as H.
  - assert (i = 0) as -> by lia. vm_eq.
  - rewrite lookup_singleton_ne; [done|]. lia.
Qed.

Lemma pay_no_sends : sends_ok (B := model) pay_tables.
Proof. intros h row. cbn [db_sends wallet_tables_lightning pay_tables wt_sends]. rewrite lookup_empty. discriminate. Qed.

Definition pay_onchain (txid : bytes) (tx : Transaction) : Prop := tx = board_funding_tx.
Lemma pay_onchain_honest txid (n : PayNet) tx : (get_tx txid n).1 = inr (Some tx) -> pay_onchain txid tx.
Proof. destruct n as [|n]; cbn; [discriminate|]. by intros [= <-]. Qed.

Lemma state_of_row (m : gmap bytes (WalletVtxo (B := model))) id v w : m !! id = Some v -> m !! id = Some w -> wv_state v = wv_state w.
Proof. by intros -> [= ->]. Qed.

Lemma lookup_absent {A} (m : gmap bytes A) (id : bytes) a : m !! id = None -> m !! id = Some a -> False.
Proof. by intros ->. Qed.
Lemma row_state (m : gmap bytes (WalletVtxo (B := model))) (id : bytes) st : wv_state (B := model) <$> m !! id = Some st -> exists v, m !! id = Some v /\ wv_state v = st.
Proof. intros (v & Hv & ->)%fmap_Some. by exists v. Qed.

(** The chain fails when the change is checked: the HTLC VTXOs are there, and the
    VTXO of the wallet is spent. *)
Lemma payment_funded_witness : exists vs mid,
  db_vtxos (w_db (pay_run 1%nat).2) !! vtxo_id board_vtxo = Some (spent_row (B := model) (mkWalletVtxo model board_vtxo VtxoState.Spendable)) /\
  funded (B := model) pay_cfg pay_onchain (tt : @Invoice sample_types) 6000 vs mid (w_db (pay_run 1%nat).2).
Proof.
  pose proof (payment_funded (B := model) pay_cfg pay_onchain pay_onchain_honest (tt : @Invoice sample_types) (PmInvoice (tt : @Invoice sample_types)) None (fun _ => 4)
    (pay_w0 1%nat) (pay_run 1%nat).2 (pay_run 1%nat).1 pay_rows pay_keys pay_no_sends (surjective_pairing _)) as (_ & Hf & _).
  assert (H0 : db_vtxos (w_db (pay_w0 1%nat)) !! vtxo_id board_vtxo = Some (mkWalletVtxo model board_vtxo VtxoState.Spendable)) by vm_eq.
  assert (H1 : db_vtxos (w_db (pay_run 1%nat).2) !! vtxo_id board_vtxo = Some (spent_row (B := model) (mkWalletVtxo model board_vtxo VtxoState.Spendable))) by vm_eq.
  destruct (Hf _ _ H0) as [Hu|(_ & Hs & a & vs & mid & Ha & Hfd)]; [by pose proof (state_of_row _ _ _ _ H1 Hu)|].
  assert (Ha' : get_final_amount (B := model) (tt : @Invoice sample_types) None = Ok 6000) by vm_eq. pose proof (eq_trans (eq_sym Ha) Ha') as [= ->].
  exists vs, mid. split; [exact H1|exact Hfd].
Defined.

(** *** The change is lost

    When the chain cannot be asked for the anchor of the change, the payment ends
    with an error after the inputs were marked as spent: of 10000 sat there are
    HTLC VTXOs of 6000 and nothing else, and the payment itself is not on record. *)
Definition rows_of (d : WalletTables (B := model)) : list (Z * VtxoState.t) := 
  (fun p : bytes * WalletVtxo (B := model) => (amount (wv_vtxo p.2), wv_state p.2)) <$> map_to_list (db_vtxos (B := model) d).
Lemma change_lost : (pay_run 1%nat).1 = Err "timeout"%string /\ wt_sends (w_db (pay_run 1%nat).2) !! pay_hash = None /\
  rows_of (w_db (pay_w0 1%nat)) = [(10000, VtxoState.Spendable)] /\
  rows_of (w_db (pay_run 1%nat).2) ≡ₚ [(10000, VtxoState.Spent); (6000, VtxoState.Locked (Some 1))].
Proof. split; [vm_eq|]. split; [vm_eq|]. split; [vm_eq|]. apply (bool_decide_unpack _). vm_compute. exact I. Qed.

(** ** A payment that failed

    The wallet asks, is told that the payment failed, and gets its VTXOs back. *)
Definition pay_htlcs : list (Vtxo (B := model)) := match (pay_run 5%nat).1 with Ok r => wv_vtxo <$> ls_htlc_vtxos r | _ => [] end.
Definition fail_state (w : PayWorld) : PayState :=
  mkState (PT := sample_types) (mkWorld (w_db w) (5%nat : PayNet) (mkPayTest pay_htlcs (Some PsFailed)) (w_mov w)) [] manager_new.
Lemma fail_inv w : pay_inv (B := model) pay_cfg (w_db w) -> pay_inv (B := model) pay_cfg (w_db (ws_world (fail_state w))).
Proof. exact (fun H => H). Qed.
Definition failed_s : PayState := fail_state (pay_run 5%nat).2.
Notation pay_check := (check_lightning_payment (B := model) pay_cfg pay_hash true (fun _ => 7) failed_s).
Definition pay_htlc_id : bytes := default [] (vtxo_id <$> head pay_htlcs).

Lemma failed_inv : pay_inv (B := model) pay_cfg (w_db (ws_world failed_s)).
Proof.
  pose proof (send_runs (B := model) pay_cfg pay_onchain pay_onchain_honest (tt : @Invoice sample_types) None pay_tables pay_rows pay_keys
    (PmInvoice (tt : @Invoice sample_types)) (fun _ => 4) (pay_w0 5%nat)) as H.
  assert (He : early (B := model) pay_cfg pay_tables (pay_w0 5%nat)) by (split; [reflexivity|]; split; [exact pay_no_sends|reflexivity]). specialize (H He).
  assert (Hs : safe (B := model) pay_cfg pay_onchain (tt : @Invoice sample_types) None pay_tables (pay_run 5%nat).2).
  { destruct (pay_run 5%nat) as [[r|e|] w]; [apply H|exact H..]. }
  apply fail_inv.
  exact (safe_inv (B := model) pay_cfg pay_onchain (tt : @Invoice sample_types) None pay_tables (pay_run 5%nat).2 pay_rows pay_keys Hs).
Qed.

Lemma htlcs_never_lost_witness : pay_check.1 = Ok None /\
  db_vtxos (w_db (ws_world pay_check.2)) !! pay_htlc_id = Some (spent_row (B := model) (default (mkWalletVtxo model sample_vtxo VtxoState.Spent) (db_vtxos (w_db (ws_world failed_s)) !! pay_htlc_id))) /\
  exists vs, revoked (B := model) (w_db (ws_world failed_s)) vs (w_db (ws_world pay_check.2)).
Proof.
  split; [vm_eq|]. assert (H1 : db_vtxos (w_db (ws_world pay_check.2)) !! pay_htlc_id =
    Some (spent_row (B := model) (default (mkWalletVtxo model sample_vtxo VtxoState.Spent) (db_vtxos (w_db (ws_world failed_s)) !! pay_htlc_id)))) by vm_eq.
  split; [exact H1|]. pose proof (htlcs_never_lost (B := model) pay_cfg pay_hash true (fun _ => 7) failed_s pay_check.2 pay_check.1 failed_inv (surjective_pairing _)) as (_ & _ & Hf).
  destruct (row_state (db_vtxos (B := model) (w_db (ws_world failed_s))) pay_htlc_id (VtxoState.Locked (Some 1))) as (v & Hv & Hst); [vm_eq|].
  destruct (Hf _ _ Hv) as [Hu|(_ & row & vs & _ & _ & _ & Hw)].
  - pose proof (state_of_row _ _ _ _ Hu H1) as Hs. rewrite Hst in Hs. discriminate Hs.
  - exists vs. destruct Hw as [[e He]|[Hr|(r & p & Hr & _)]]; [|exact Hr|].
    + refine (False_ind _ (lookup_absent _ _ _ _ He)). vm_eq.
    + refine (False_ind _ (lookup_absent _ _ _ _ Hr)). vm_eq.
Defined.
