(* ===== verification/Mailbox.v ===== *)
(** * Mailboxes (lib/src/mailbox.rs)

    A mailbox is named by a public key.  Addresses carry the name blinded with
    the Diffie-Hellman secret of the server and of the VTXO key, so that only
    the server can tell which mailbox an address belongs to.  The arithmetic of
    curve points is a third-party function, given by [Curve]. *)
From S2P Require Import Prelude Bitcoin Encode Concrete Connectors.

Open Scope Z_scope.

(** [ecdh::shared_secret_point], [PublicKey::combine_keys] of two keys (it fails
    when the sum is the point at infinity), [PublicKey::negate], and the
    timestamps chrono can represent. *)
Class Curve (B : Bitcoin) := {
  shared_secret_point : PublicKey -> Keypair -> bytes;
  combine_points : PublicKey -> PublicKey -> option PublicKey;
  negate_point : PublicKey -> PublicKey;
  valid_timestamp : Z -> bool;
}.

(** The shared secret is a point and both sides compute the same one; adding a
    point and then its negation gives back the point one started with. *)
Class CurveLaws (B : Bitcoin) {C : Curve B} := {
  shared_secret_sym : forall a b : Keypair,
    shared_secret_point (keypair_public_key a) b = shared_secret_point (keypair_public_key b) a;
  shared_secret_valid : forall (p : PublicKey) (b : Keypair), is_Some (pk_from_slice (Byte.x04 :: shared_secret_point p b));
  combine_negate : forall p q r : PublicKey, combine_points p q = Some r -> combine_points r (negate_point q) = Some p;
  timestamps_i64 : forall t, valid_timestamp t = true -> - 2 ^ 63 <= t < 2 ^ 63;
}.

(** [i64::to_le_bytes] and [i64::from_le_bytes]. *)
Definition emit_i64 (v : Z) : bytes := emit_int 8 (v mod 2 ^ 64).
Definition i64_from_le_bytes (bs : bytes) : Z := let v := le_combine bs in if v <? 2 ^ 63 then v else v - 2 ^ 64.

Lemma i64_roundtrip v : - 2 ^ 63 <= v < 2 ^ 63 -> i64_from_le_bytes (emit_i64 v) = v.
Proof.
  intros Hv. unfold i64_from_le_bytes, emit_i64, emit_int. rewrite le_combine_split.
  change (2 ^ (Z.of_nat 8 * 8)) with (2 ^ 64). rewrite Z.mod_mod by lia.
  destruct (Z.leb_spec 0 v).
  - rewrite Z.mod_small by lia. destruct (Z.ltb_spec v (2 ^ 63)); lia.
  - replace (v mod 2 ^ 64) with (v + 2 ^ 64) by (apply (Z.mod_unique v (2 ^ 64) (-1)); lia).
    destruct (Z.ltb_spec (v + 2 ^ 64) (2 ^ 63)); lia.
Qed.

Section Mailbox.
Context `{B : Bitcoin} `{C : !Curve B} `{S : !Signing B}.

(** ** Identifiers: the 33 bytes of a key, which need not be one *)
Definition MailboxIdentifier : Type := bytes.
Definition BlindedMailboxIdentifier : Type := bytes.

(** [from_slice] of both. *)
Definition identifier_from_slice (bs : bytes) : option bytes := if bool_decide (length bs = 33%nat) then Some bs else None.
Definition as_pubkey {E} (id : bytes) : outcome E PublicKey := expect (pk_from_slice id).
Definition from_pubkey (pubkey : PublicKey) : bytes := pk_serialize pubkey.

Definition point_to_pubkey {E} (point : bytes) : outcome E PublicKey := expect (pk_from_slice (Byte.x04 :: point)).

Definition blinded_new {E} (mailbox_id : MailboxIdentifier) (server_pubkey : PublicKey) (vtxo_key : Keypair)
  : outcome E BlindedMailboxIdentifier :=
  let dh := shared_secret_point server_pubkey vtxo_key in
  dh_pk ← point_to_pubkey dh;
  pk ← as_pubkey mailbox_id;
  ret ← expect (combine_points pk dh_pk);
  Ok (pk_serialize ret).
Definition to_blinded {E} (id : MailboxIdentifier) (server_pubkey : PublicKey) (vtxo_key : Keypair)
  : outcome E BlindedMailboxIdentifier := blinded_new id server_pubkey vtxo_key.

Definition from_blinded {E} (blinded : BlindedMailboxIdentifier) (vtxo_pubkey : PublicKey) (server_key : Keypair)
  : outcome E MailboxIdentifier :=
  let dh := shared_secret_point vtxo_pubkey server_key in
  dh_pk ← point_to_pubkey dh;
  let neg_dh_pk := negate_point dh_pk in
  pk ← as_pubkey blinded;
  ret ← expect (combine_points pk neg_dh_pk);
  Ok (pk_serialize ret).

Definition encode_identifier (id : bytes) : outcome DecodingError bytes := Ok id.
Definition decode_identifier : reader bytes := read_exact 33.

(** ** Authorizations *)
Record MailboxAuthorization := mkAuthorization { ma_id : MailboxIdentifier; ma_expiry : Z; ma_sig : Signature }.

Definition CHALENGE_MESSAGE_PREFIX : bytes := Stdlib.Strings.String.list_byte_of_string "Ark VTXO mailbox authorization: ".

Definition signable_message (expiry : Z) : bytes := sha256 (CHALENGE_MESSAGE_PREFIX ++ emit_i64 expiry).

(** [expiry] in seconds. *)
Definition authorization_new (mailbox_key : Keypair) (expiry : Z) (rand : Z) : MailboxAuthorization :=
  mkAuthorization (from_pubkey (keypair_public_key mailbox_key)) expiry (sign_schnorr (signable_message expiry) mailbox_key rand).

Definition authorization_verify {E} (a : MailboxAuthorization) : outcome E bool :=
  pk ← as_pubkey (ma_id a);
  Ok (verify_schnorr (ma_sig a) (signable_message (ma_expiry a)) (x_only_public_key pk)).

#[export] Instance MailboxAuthorization_encoding : ProtocolEncoding MailboxAuthorization := {
  encode a := id ← encode_identifier (ma_id a); s ← encode (ma_sig a); Ok (id ++ emit_i64 (ma_expiry a) ++ s);
  decode :=
    id ← decode_identifier;
    buf ← read_exact 8;
    let timestamp := i64_from_le_bytes buf in
    if valid_timestamp timestamp then sig ← decode; mret (mkAuthorization id timestamp sig)
    else fail (Invalid "invalid timestamp");
}.

(** ** Facts *)
Context `{!CurveLaws B} `{!SerializeLaws B} `{!SigningLaws B}.

(** The server can undo the blinding of a mailbox in an address, and finds
    the mailbox it belongs to. *)
Theorem unblind_blinded {E F} (mailbox : PublicKey) (vtxo_key server_key : Keypair) b :
  to_blinded (E := E) (from_pubkey mailbox) (keypair_public_key server_key) vtxo_key = Ok b ->
  from_blinded (E := F) b (keypair_public_key vtxo_key) server_key = Ok (from_pubkey mailbox).
Proof.
  unfold to_blinded, blinded_new, from_blinded, as_pubkey, from_pubkey, point_to_pubkey. rewrite (shared_secret_sym vtxo_key server_key).
  destruct (shared_secret_valid (keypair_public_key server_key) vtxo_key) as [dh Hdh]. rewrite Hdh, pk_roundtrip. cbn.
  destruct (combine_points mailbox dh) as [r|] eqn:Hr; [|done]. intros [= <-]. rewrite pk_roundtrip. cbn.
  by rewrite (combine_negate _ _ _ Hr).
Qed.

Definition valid_authorization (a : MailboxAuthorization) : Prop := length (ma_id a) = 33%nat /\ valid_timestamp (ma_expiry a) = true.

#[export] Instance MailboxAuthorization_laws : EncodingLaws MailboxAuthorization valid_authorization.
Proof.
  split.
  - intros a _. destruct (encode_total (valid := fun _ => True) (ma_sig a) I) as [s Hs]. eexists. cbn [encode MailboxAuthorization_encoding].
    unfold encode_identifier. cbn [mbind outcome_bind]. by rewrite Hs.
  - intros a bs rest [Hl Ht] Henc. cbn [encode decode MailboxAuthorization_encoding] in *. unfold encode_identifier in Henc. cbn [mbind outcome_bind] in Henc.
    apply bind_Ok in Henc as (s & Hs & [= <-]). unfold decode_identifier. rewrite <- !app_assoc. read_step.
    erewrite bind_reader_Ok by (apply (read_exact_app (emit_i64 (ma_expiry a)) (s ++ rest)), length_le_split).
    cbv zeta. rewrite i64_roundtrip by (by apply timestamps_i64). rewrite Ht. read_step. by destruct a.
Qed.

(** An authorization that was made for a key is accepted, names its mailbox,
    and survives the wire. *)
Theorem authorization_accepted (mailbox_key : Keypair) (expiry rand : Z) : valid_timestamp expiry = true ->
  let a := authorization_new mailbox_key expiry rand in
  authorization_verify (E := string) a = Ok true /\ ma_id a = from_pubkey (keypair_public_key mailbox_key) /\
  exists bs, serialize a = Ok bs /\ deserialize bs = Ok a.
Proof.
  intros Ht a. split_and!; [|done|].
  - unfold authorization_verify, as_pubkey, a, authorization_new, from_pubkey. cbn. rewrite pk_roundtrip. cbn. by rewrite sign_verifies.
  - assert (Hv : valid_authorization a) by (split; [apply pk_serialize_length|done]).
    destruct (encode_total a Hv) as [bs Hbs]. exists bs. split; [done|]. unfold deserialize.
    pose proof (decode_encode a bs [] Hv Hbs) as Hd. rewrite app_nil_r in Hd. by rewrite Hd.
Qed.

(** An identifier is not checked when it is read: one that is no point makes
    everything that uses its key panic. *)
Theorem bad_identifier_panics {E} (id : bytes) (vtxo_pubkey : PublicKey) (server_key : Keypair) expiry (sig : Signature) :
  length id = 33%nat -> pk_from_slice id = None ->
  identifier_from_slice id = Some id /\ from_blinded (E := E) id vtxo_pubkey server_key = Panic /\
  authorization_verify (E := E) (mkAuthorization id expiry sig) = Panic.
Proof.
  intros Hl Hn. unfold identifier_from_slice, from_blinded, authorization_verify, as_pubkey, point_to_pubkey. cbn. rewrite bool_decide_true, Hn by done.
  split_and!; [done| |done]. destruct (shared_secret_valid vtxo_pubkey server_key) as [dh ->]. done.
Qed.
End Mailbox.

(** *** The model with one-byte keys, as the group of integers modulo 256 *)
Definition byte_add (a b : Byte.byte) : Byte.byte := byte.of_Z (byte.unsigned a + byte.unsigned b).
Definition byte_opp (a : Byte.byte) : Byte.byte := byte.of_Z (- byte.unsigned a).

#[export] Instance ser_model_curve : Curve ser_model := {
  shared_secret_point p k := replicate 63 Byte.x00 ++ [byte_add p k];
  combine_points p q := Some (byte_add p q);
  negate_point := byte_opp;
  valid_timestamp t := (- 2 ^ 43 <=? t) && (t <? 2 ^ 43);
}.

#[export] Instance ser_model_curve_laws : CurveLaws ser_model.
Proof.
  split; cbn [shared_secret_point combine_points negate_point ser_model_curve keypair_public_key ser_model pk_from_slice valid_timestamp PublicKey].
  - intros a b. do 2 f_equal. unfold byte_add. by rewrite Z.add_comm.
  - intros p b. rewrite app_comm_cons, last_snoc. by eexists.
  - intros p q r [= <-]. f_equal. apply byte.unsigned_inj. unfold byte_add, byte_opp. rewrite !byte.unsigned_of_Z. unfold byte.wrap.
    rewrite Z.add_mod_idemp_l, Z.add_mod_idemp_r by lia. rewrite <- (byte.wrap_unsigned p) at 2. unfold byte.wrap. f_equal. lia.
  - intros t H. apply andb_true_iff in H as [H1%Z.leb_le H2%Z.ltb_lt]. lia.
Qed.
