(* ===== verification/Address.v ===== *)
(** * Addresses (lib/src/address.rs)

    An address names a server, the policy under which its owner wants to be paid
    and the ways in which VTXOs reach the owner.  Bech32 is third-party code,
    given by [Bech32]; strings are their bytes. *)
From S2P Require Import Prelude Bitcoin Encode Concrete Policy Vtxo VtxoEncoding Connectors Mailbox.

Open Scope Z_scope.

Definition str (s : string) : bytes := Stdlib.Strings.String.list_byte_of_string s.

Definition HRP_MAINNET : bytes := str "ark".
Definition HRP_TESTNET : bytes := str "tark".
Definition VERSION_ARKADE : Z := 0.
Definition VERSION_POLICY : Z := 1.

(** [UncheckedHrpstring], its human-readable part, the check and removal of the
    Bech32m checksum, the string with a checksum, and the conversions between
    bytes and values of five bits. *)
Class Bech32 := {
  HrpString : Type;
  unchecked_hrpstring : bytes -> option HrpString;
  hs_hrp : HrpString -> bytes;
  hs_validate : HrpString -> option (list Z);
  with_checksum : bytes -> list Z -> bytes;
  bytes_to_fes : bytes -> list Z;
  fes_to_bytes : list Z -> bytes;
}.

(** A string within the length of the code is parsed back. *)
Class Bech32Laws (B32 : Bech32) := {
  bech32_roundtrip : forall hrp fes, hrp = HRP_MAINNET \/ hrp = HRP_TESTNET -> Forall (fun x => 0 <= x < 32) fes ->
    Z.of_nat (length hrp) + 1 + Z.of_nat (length fes) + 6 <= 1023 ->
    exists h, unchecked_hrpstring (with_checksum hrp fes) = Some h /\ hs_hrp h = hrp /\ hs_validate h = Some fes;
  fes_range : forall bs, Forall (fun x => 0 <= x < 32) (bytes_to_fes bs);
  fes_roundtrip : forall bs, fes_to_bytes (bytes_to_fes bs) = bs;
}.

Inductive ParseAddressError :=
  | Bech32Error | HrpError (hrp : bytes) | Arkade | UnknownVersion (version : Z) | Eof
  | VtxoPolicyError (e : DecodingError) | InvalidAddress (msg : string).

(** [From<io::Error>]. *)
Definition io_error (e : DecodingError) : ParseAddressError :=
  match e with
  | Io => Eof
  | NonMinimalVarint => InvalidAddress "invalid encoding"
  | Invalid _ => InvalidAddress "unexpected I/O error"
  end.

Section Address.
Context `{B : Bitcoin} `{B32 : Bech32}.

(** ** [ArkId] *)
Definition ark_id_from_server_pubkey (server_pubkey : PublicKey) : bytes := take 4 (sha256 (pk_serialize server_pubkey)).
Definition is_for_server (ark_id : bytes) (server_pubkey : PublicKey) : bool :=
  bool_decide (ark_id = ark_id_from_server_pubkey server_pubkey).

(** ** [VtxoDelivery] *)
Inductive VtxoDelivery :=
  | ServerBuiltin
  | ServerMailbox (blinded_id : BlindedMailboxIdentifier)
  | UnknownDelivery (delivery_type : Byte.byte) (data : bytes).

Definition DELIVERY_BUILTIN : Byte.byte := Byte.x00.
Definition DELIVERY_MAILBOX : Byte.byte := Byte.x01.

Definition is_unknown (d : VtxoDelivery) : bool := match d with UnknownDelivery _ _ => true | _ => false end.

Definition encoded_length (d : VtxoDelivery) : Z :=
  match d with
  | ServerBuiltin => 1
  | ServerMailbox _ => 1 + 33
  | UnknownDelivery _ data => 1 + Z.of_nat (length data)
  end.

Definition delivery_encode (d : VtxoDelivery) : bytes :=
  match d with
  | ServerBuiltin => [DELIVERY_BUILTIN]
  | ServerMailbox blinded_id => DELIVERY_MAILBOX :: blinded_id
  | UnknownDelivery delivery_type data => delivery_type :: data
  end.

Definition delivery_decode (payload : bytes) : outcome ParseAddressError VtxoDelivery :=
  match payload with
  | [] => Err Eof
  | t :: data =>
      if bool_decide (t = DELIVERY_BUILTIN) then Ok ServerBuiltin
      else if bool_decide (t = DELIVERY_MAILBOX) then
        id ← ok_or (identifier_from_slice data) (InvalidAddress "invalid blinded mailbox identifier");
        Ok (ServerMailbox id)
      else Ok (UnknownDelivery t data)
  end.

(** ** [Address] *)
Record Address := mkAddress { ad_testnet : bool; ad_ark_id : bytes; ad_policy : VtxoPolicy; ad_delivery : list VtxoDelivery }.

Definition encode_payload (a : Address) : outcome DecodingError bytes :=
  buf ← encode (ad_policy a);
  Ok (ad_ark_id a ++ emit_compact_size (Z.of_nat (length buf)) ++ buf ++
      concat ((fun d => emit_compact_size (encoded_length d) ++ delivery_encode d) <$> ad_delivery a)).

(** [buf.resize(len, 0)] panics when [len] exceeds what a vector can hold (an
    allocation that the system refuses is not modelled). *)
Definition resize (len : Z) : outcome ParseAddressError unit := if len <=? 2 ^ 63 - 1 then Ok tt else Panic.

(** A length and as many bytes. *)
Definition read_field (inp : bytes) : outcome ParseAddressError (bytes * bytes) :=
  r ← map_err io_error (read_compact_size inp);
  _ ← resize r.1;
  map_err io_error (read_exact (Z.to_nat r.1) r.2).

(** [while reader.0.peek().is_some()]; a field takes at least one byte. *)
Fixpoint decode_deliveries (fuel : nat) (inp : bytes) : outcome ParseAddressError (list VtxoDelivery) :=
  match inp, fuel with
  | [], _ => Ok []
  | _, O => Err (InvalidAddress "out of fuel")
  | _, Datatypes.S fuel =>
      r ← read_field inp;
      d ← delivery_decode r.1;
      l ← decode_deliveries fuel r.2;
      Ok (d :: l)
  end.

Definition decode_payload (testnet : bool) (inp : bytes) : outcome ParseAddressError Address :=
  r ← map_err (fun _ => Eof) (read_exact 4 inp);
  let ark_id := r.1 in
  f ← read_field r.2;
  policy ← map_err VtxoPolicyError (deserialize f.1);
  delivery ← decode_deliveries (length f.2) f.2;
  Ok (mkAddress testnet ark_id policy delivery).

(** ** Display and parsing *)

(** The characters are written in chunks of 128. *)
Definition BUF_LENGTH : nat := 128.
Fixpoint write_chars (buf out chars : bytes) : bytes :=
  match chars with
  | [] => out ++ buf
  | c :: chars =>
      let buf := buf ++ [c] in
      if bool_decide (length buf = BUF_LENGTH) then write_chars [] (out ++ buf) chars else write_chars buf out chars
  end.

Definition address_to_string {E} (a : Address) : outcome E bytes :=
  let hrp := if ad_testnet a then HRP_TESTNET else HRP_MAINNET in
  payload ← expect (match encode_payload a with Ok p => Some p | _ => None end);
  Ok (write_chars [] [] (with_checksum hrp (VERSION_POLICY :: bytes_to_fes payload))).

Definition address_from_str (s : bytes) : outcome ParseAddressError Address :=
  raw ← ok_or (unchecked_hrpstring s) Bech32Error;
  testnet ← (if bool_decide (hs_hrp raw = HRP_MAINNET) then Ok false
             else if bool_decide (hs_hrp raw = HRP_TESTNET) then Ok true
             else Err (HrpError (hs_hrp raw)));
  fes ← ok_or (hs_validate raw) Bech32Error;
  match fes with
  | [] => Err (InvalidAddress "empty address")
  | ver :: fes =>
      if ver =? VERSION_POLICY then decode_payload testnet (fes_to_bytes fes)
      else if ver =? VERSION_ARKADE then Err Arkade
      else Err (UnknownVersion ver)
  end.

(** ** [Builder] *)
Context `{C : !Curve B}.

Record Builder := mkAddressBuilder {
  ab_testnet : bool; ab_server_pubkey : option PublicKey; ab_policy : option VtxoPolicy; ab_delivery : list VtxoDelivery;
  ab_mailbox_id : option BlindedMailboxIdentifier; ab_add_builtin_delivery : bool }.

Definition builder_new : Builder := mkAddressBuilder false None None [] None true.
Definition with_testnet (testnet : bool) (b : Builder) : Builder :=
  mkAddressBuilder testnet (ab_server_pubkey b) (ab_policy b) (ab_delivery b) (ab_mailbox_id b) (ab_add_builtin_delivery b).
Definition with_server_pubkey (server_pubkey : PublicKey) (b : Builder) : Builder :=
  mkAddressBuilder (ab_testnet b) (Some server_pubkey) (ab_policy b) (ab_delivery b) (ab_mailbox_id b) (ab_add_builtin_delivery b).
Definition with_policy (policy : VtxoPolicy) (b : Builder) : Builder :=
  mkAddressBuilder (ab_testnet b) (ab_server_pubkey b) (Some policy) (ab_delivery b) (ab_mailbox_id b) (ab_add_builtin_delivery b).
Definition with_pubkey_policy (user_pubkey : PublicKey) (b : Builder) : Builder := with_policy (new_pubkey user_pubkey) b.
Definition with_delivery (delivery : VtxoDelivery) (b : Builder) : Builder :=
  mkAddressBuilder (ab_testnet b) (ab_server_pubkey b) (ab_policy b) (ab_delivery b ++ [delivery]) (ab_mailbox_id b) (ab_add_builtin_delivery b).
Definition no_delivery (b : Builder) : Builder :=
  mkAddressBuilder (ab_testnet b) (ab_server_pubkey b) (ab_policy b) [] (ab_mailbox_id b) false.

Definition with_mailbox (server_mailbox_pubkey : PublicKey) (mailbox : MailboxIdentifier) (vtxo_key : Keypair) (b : Builder)
  : outcome string Builder :=
  pol ← ok_or (ab_policy b) "set policy first"%string;
  _ ← ensure (bool_decide (keypair_public_key vtxo_key = user_pubkey pol)) "VTXO key does not match policy"%string;
  blinded ← to_blinded mailbox server_mailbox_pubkey vtxo_key;
  Ok (mkAddressBuilder (ab_testnet b) (ab_server_pubkey b) (ab_policy b) (ab_delivery b) (Some blinded) false).

Definition into_address (b : Builder) : outcome string Address :=
  server_pubkey ← ok_or (ab_server_pubkey b) "missing server pubkey"%string;
  policy ← ok_or (ab_policy b) "missing policy"%string;
  let builtin := if bool_decide (ab_delivery b = []) && ab_add_builtin_delivery b then [ServerBuiltin] else [] in
  let mailbox := match ab_mailbox_id b with Some blinded_id => [ServerMailbox blinded_id] | None => [] end in
  Ok (mkAddress (ab_testnet b) (ark_id_from_server_pubkey server_pubkey) policy (builtin ++ mailbox ++ ab_delivery b)).

(** ** Facts *)
Context `{!Bech32Laws B32} `{!SerializeLaws B}.

Lemma write_chars_all buf out chars : write_chars buf out chars = out ++ buf ++ chars.
Proof.
  revert buf out. induction chars as [|c chars IH]; intros buf out; cbn [write_chars]; [by rewrite app_nil_r|].
  case_bool_decide; rewrite IH; by rewrite <- ?app_assoc.
Qed.

(** Deliveries that are read back as they are. *)
Definition valid_delivery (d : VtxoDelivery) : Prop :=
  match d with
  | ServerBuiltin => True
  | ServerMailbox id => length id = 33%nat
  | UnknownDelivery t data => t <> DELIVERY_BUILTIN /\ t <> DELIVERY_MAILBOX
  end.

Lemma delivery_roundtrip d : valid_delivery d -> delivery_decode (delivery_encode d) = Ok d.
Proof.
  destruct d as [|id|t data]; cbn [valid_delivery delivery_encode delivery_decode]; [done| |].
  - intros Hl. unfold identifier_from_slice. by rewrite (bool_decide_true (length id = 33%nat)).
  - intros [H1 H2]. by rewrite !bool_decide_false.
Qed.

Lemma encoded_length_eq d : valid_delivery d -> encoded_length d = Z.of_nat (length (delivery_encode d)).
Proof. destruct d as [|id|t data]; cbn; [done| |]; [intros ->; lia|lia]. Qed.

Lemma read_field_app n bs rest : n = Z.of_nat (length bs) -> n < 2 ^ 63 -> read_field (emit_compact_size n ++ bs ++ rest) = Ok (bs, rest).
Proof.
  intros -> Hn. unfold read_field. rewrite read_compact_size_emit by (apply in_width_spec; lia). cbn [map_err mbind outcome_bind fst snd].
  unfold resize. rewrite (proj2 (Z.leb_le _ _)) by lia. cbn [mbind outcome_bind]. rewrite Nat2Z.id, read_exact_app by done. done.
Qed.

Lemma read_field_shorter inp bs rest : read_field inp = Ok (bs, rest) -> (length rest < length inp)%nat.
Proof.
  unfold read_field. intros H. apply bind_Ok in H as ([n i1] & H1 & H). apply bind_Ok in H as ([] & _ & H).
  apply map_err_Ok in H1. apply map_err_Ok in H. cbn [fst snd] in H. apply compact_size_canonical in H1 as [-> _].
  unfold read_exact in H. case_bool_decide as Hl; [|done]. injection H as _ <-. rewrite length_drop, length_app.
  assert (0 < length (emit_compact_size n))%nat; [|lia]. unfold emit_compact_size, emit_compact_size_counted.
  repeat destruct (_ <=? _); cbn [fst]; unfold emit_u8, emit_int; rewrite ?length_app, ?length_le_split; lia.
Qed.

(** More fuel than bytes changes nothing: the loop always ends. *)
Lemma deliveries_fuel n m inp : (length inp <= n)%nat -> (length inp <= m)%nat -> decode_deliveries n inp = decode_deliveries m inp.
Proof.
  revert m inp. induction n as [|n IH]; intros m inp Hn Hm.
  { destruct inp; [by destruct m|cbn in Hn; lia]. }
  destruct inp as [|b inp]; [by destruct m|]. destruct m as [|m]; [cbn in Hm; lia|]. cbn [decode_deliveries].
  destruct (read_field (b :: inp)) as [[bs rest]|e|] eqn:Hr; cbn [mbind outcome_bind fst snd]; [|done..].
  apply read_field_shorter in Hr. destruct (delivery_decode bs) as [d|e|]; cbn [mbind outcome_bind]; [|done..].
  rewrite (IH m rest); [done|cbn in *; lia..].
Qed.

Lemma deliveries_roundtrip ds : Forall valid_delivery ds -> Forall (fun d => encoded_length d < 2 ^ 63) ds ->
  forall fuel, (length (concat ((fun d => emit_compact_size (encoded_length d) ++ delivery_encode d) <$> ds)) <= fuel)%nat ->
  decode_deliveries fuel (concat ((fun d => emit_compact_size (encoded_length d) ++ delivery_encode d) <$> ds)) = Ok ds.
Proof.
  intros Hv Hl. induction ds as [|d ds IH]; intros fuel Hfuel; [by destruct fuel|].
  apply Forall_cons in Hv as [Hd Hv]. apply Forall_cons in Hl as [Hld Hl]. cbn [fmap list_fmap concat] in *.
  set (rest := concat _) in *. rewrite <- app_assoc in *.
  pose proof (read_field_app (encoded_length d) (delivery_encode d) rest (encoded_length_eq d Hd) Hld) as Hr.
  pose proof (read_field_shorter _ _ _ Hr) as Hs.
  destruct (emit_compact_size (encoded_length d) ++ delivery_encode d ++ rest) as [|b inp] eqn:Hinp; [cbn in Hs; lia|].
  destruct fuel as [|fuel]; [cbn in Hfuel; lia|]. cbn [decode_deliveries]. rewrite Hr. cbn [mbind outcome_bind fst snd].
  rewrite (delivery_roundtrip d Hd). cbn [mbind outcome_bind]. rewrite IH; [done|done|done|]. cbn in Hs, Hfuel. lia.
Qed.

(** Addresses of a size that fits. *)
Definition valid_address (a : Address) : Prop :=
  length (ad_ark_id a) = 4%nat /\ valid_policy (ad_policy a) /\ Forall valid_delivery (ad_delivery a) /\
  Forall (fun d => encoded_length d < 2 ^ 63) (ad_delivery a) /\
  forall p, encode_payload a = Ok p -> 5 + Z.of_nat (length (bytes_to_fes p)) + 7 <= 1023.

Lemma policy_length p bs : encode_policy p = Ok bs -> valid_policy p -> Z.of_nat (length bs) < 2 ^ 63.
Proof.
  intros H Hv. destruct p as [p|p|p|p]; cbn in H, Hv; injection H as <-;
    rewrite ?length_app; unfold encode_hash, emit_u8, emit_u16, emit_u32, emit_int; rewrite ?length_cons, ?length_app, ?length_le_split, ?pk_serialize_length;
    try (destruct Hv as [-> _]); cbn [length]; rewrite ?length_le_split; lia.
Qed.

Lemma payload_roundtrip a : valid_address a -> exists p, encode_payload a = Ok p /\ decode_payload (ad_testnet a) p = Ok a.
Proof.
  intros (Hi & Hp & Hd & Hl & _). destruct (encode_total (ad_policy a) Hp) as [bs Hbs]. unfold encode_payload. rewrite Hbs. cbn [mbind outcome_bind].
  eexists. split; [done|]. unfold decode_payload. rewrite read_exact_app by done. cbn [map_err mbind outcome_bind fst snd].
  rewrite read_field_app by (done || exact (policy_length _ _ Hbs Hp)). cbn [mbind outcome_bind fst snd].
  assert (deserialize bs = Ok (ad_policy a)) as ->.
  { unfold deserialize. pose proof (decode_encode (ad_policy a) bs [] Hp Hbs) as Hx. rewrite app_nil_r in Hx. by rewrite Hx. }
  cbn [map_err mbind outcome_bind]. rewrite deliveries_roundtrip by done. cbn. by destruct a.
Qed.

(** C35. Writing an address as a string and parsing the string gives the
    address back: the server, the policy and all ways of delivery in order, also
    those this version does not know. *)
Theorem address_roundtrip {E} (a : Address) : valid_address a ->
  exists s, address_to_string (E := E) a = Ok s /\ address_from_str s = Ok a.
Proof.
  intros Ha. destruct (payload_roundtrip a Ha) as (p & Hp & Hdec). destruct Ha as (_ & _ & _ & _ & Hlen). specialize (Hlen p Hp).
  unfold address_to_string, address_from_str. rewrite Hp. cbn [mbind outcome_bind expect]. eexists. split; [done|]. rewrite write_chars_all. cbn [app].
  set (hrp := if ad_testnet a then HRP_TESTNET else HRP_MAINNET).
  destruct (bech32_roundtrip hrp (VERSION_POLICY :: bytes_to_fes p)) as (h & Hu & Hh & Hv).
  - unfold hrp. destruct (ad_testnet a); auto.
  - constructor; [unfold VERSION_POLICY; lia|apply fes_range].
  - assert (length hrp <= 4)%nat by (unfold hrp; by destruct (ad_testnet a); cbn; lia). cbn [length]. lia.
  - rewrite Hu. cbn [ok_or mbind outcome_bind]. rewrite Hh, Hv. unfold hrp.
    destruct (ad_testnet a) eqn:Ht; cbn; by rewrite fes_roundtrip.
Qed.

(** A string from outside can make the parser panic: a length that no vector
    can have is used to reserve memory. *)
Theorem address_length_panics testnet ark_id n rest : length ark_id = 4%nat -> 2 ^ 63 <= n < 2 ^ 64 ->
  decode_payload testnet (ark_id ++ emit_compact_size n ++ rest) = Panic.
Proof.
  intros Hi Hn. unfold decode_payload. rewrite read_exact_app by done. cbn [map_err mbind outcome_bind fst snd].
  unfold read_field. rewrite read_compact_size_emit by (apply in_width_spec; lia). cbn [map_err mbind outcome_bind fst snd].
  unfold resize. by rewrite (proj2 (Z.leb_gt _ _)) by lia.
Qed.

Context `{!CurveLaws B}.

(** An address that was built for a mailbox delivers to this mailbox, and to
    nothing the builder was not told. *)
Theorem mailbox_address_delivers b (server_key vtxo_key : Keypair) (mailbox : PublicKey) b' a :
  with_mailbox (keypair_public_key server_key) (from_pubkey mailbox) vtxo_key b = Ok b' -> into_address b' = Ok a ->
  exists blinded, ad_delivery a = ServerMailbox blinded :: ab_delivery b /\
    from_blinded (E := string) blinded (user_pubkey (ad_policy a)) server_key = Ok (from_pubkey mailbox).
Proof.
  unfold with_mailbox, into_address. intros H H'. apply bind_Ok in H as (pol & Hpol%ok_or_Ok & H). apply bind_Ok in H as ([] & Hk%ensure_Ok%bool_decide_eq_true & H).
  apply bind_Ok in H as (blinded & Hb & [= <-]). cbn in H'. apply bind_Ok in H' as (spk & _ & H'). rewrite Hpol in H'. cbn in H'.
  rewrite andb_false_r in H'. injection H' as <-. exists blinded. split; [done|]. cbn. rewrite <- Hk. exact (unblind_blinded _ _ _ _ Hb).
Qed.
End Address.

(** ** Witnesses: a string is its prefix, a separator and one byte per value;
    a byte is two values. *)
Definition fe_byte (x : Z) : Byte.byte := byte.of_Z x.
Definition sample_unchecked (s : bytes) : option (bytes * list Z) :=
  match s with
  | a :: b :: c :: rest =>
      if bool_decide ([a; b; c] = HRP_MAINNET) then Some (HRP_MAINNET, byte.unsigned <$> drop 1 rest)
      else Some (HRP_TESTNET, byte.unsigned <$> drop 2 rest)
  | _ => None
  end.
Fixpoint pair_bytes (l : list Z) : bytes :=
  match l with a :: b :: l => byte.of_Z (16 * a + b) :: pair_bytes l | _ => [] end.

#[export] Instance sample_bech32 : Bech32 := {
  HrpString := bytes * list Z; unchecked_hrpstring := sample_unchecked; hs_hrp := fst; hs_validate h := Some h.2;
  with_checksum hrp fes := hrp ++ [Byte.x31] ++ (fe_byte <$> fes);
  bytes_to_fes bs := bs ≫= fun b => [byte.unsigned b / 16; byte.unsigned b mod 16];
  fes_to_bytes := pair_bytes;
}.

#[export] Instance sample_bech32_laws : Bech32Laws sample_bech32.
Proof.
  split; cbn [sample_bech32 unchecked_hrpstring hs_hrp hs_validate with_checksum bytes_to_fes fes_to_bytes HrpString].
  - intros hrp fes Hh Hr _. exists (hrp, fes). split; [|done].
    assert (byte.unsigned <$> (fe_byte <$> fes) = fes) as Hf.
    { rewrite <- list_fmap_compose. rewrite <- (list_fmap_id fes) at 2. apply list_fmap_ext. intros i x Hx. cbn.
      rewrite Forall_lookup in Hr. specialize (Hr i x Hx). unfold fe_byte. rewrite byte.unsigned_of_Z. apply Z.mod_small. lia. }
    destruct Hh as [->| ->]; [change (Some (HRP_MAINNET, byte.unsigned <$> (fe_byte <$> fes)) = Some (HRP_MAINNET, fes))
      |change (Some (HRP_TESTNET, byte.unsigned <$> (fe_byte <$> fes)) = Some (HRP_TESTNET, fes))]; by rewrite Hf.
  - intros bs. apply Forall_forall. intros x (b & Hx & _)%list_elem_of_bind. pose proof (byte.unsigned_range b).
    assert (0 <= byte.unsigned b / 16 < 16) by (split; [apply Z.div_pos; lia|apply Z.div_lt_upper_bound; lia]).
    assert (0 <= byte.unsigned b mod 16 < 16) by (apply Z.mod_pos_bound; lia). set_unfold. destruct Hx as [->|[->|[]]]; lia.
  - intros bs. induction bs as [|b bs IH]; [done|]. cbn. f_equal; [|exact IH]. rewrite <- Z.div_mod by lia. apply byte.of_Z_unsigned.
Qed.

Definition alice_key : Byte.byte := Byte.x21.
Definition mailbox_builder : outcome string (Builder (B := ser_model)) :=
  with_mailbox (B := ser_model) Byte.x77 (from_pubkey (B := ser_model) Byte.x0b) alice_key
    (with_delivery (UnknownDelivery Byte.x09 [Byte.x01; Byte.x02]) (with_pubkey_policy (B := ser_model) alice_key
      (with_server_pubkey (B := ser_model) Byte.x09 (builder_new (B := ser_model))))).
Definition alice_builder : Builder (B := ser_model) := match mailbox_builder with Ok b => b | _ => builder_new (B := ser_model) end.
Definition alice_address : Address (B := ser_model) :=
  match into_address alice_builder with Ok a => a | _ => mkAddress (B := ser_model) false [] (new_pubkey (B := ser_model) alice_key) [] end.

Lemma address_roundtrip_witness : length (ad_delivery alice_address) = 2%nat /\
  exists s, address_to_string (B := ser_model) (E := string) alice_address = Ok s /\ address_from_str (B := ser_model) s = Ok alice_address.
Proof.
  split; [vm_eq|]. apply (address_roundtrip (B := ser_model)). split; [reflexivity|]. split; [exact I|]. split; [|split].
  - apply Forall_cons. split; [reflexivity|]. apply Forall_cons. split; [split; discriminate|apply Forall_nil; exact I].
  - apply Forall_cons. split; [reflexivity|]. apply Forall_cons. split; [reflexivity|apply Forall_nil; exact I].
  - intros p Hp. assert (H : encode_payload alice_address = Ok (match encode_payload alice_address with Ok p => p | _ => [] end)) by vm_eq.
    pose proof (eq_trans (eq_sym Hp) H) as [= ->]. vm_compute. discriminate.
Defined.

Lemma mailbox_address_delivers_witness : exists blinded, ad_delivery alice_address = [ServerMailbox blinded; UnknownDelivery Byte.x09 [Byte.x01; Byte.x02]] /\
  from_blinded (B := ser_model) (E := string) blinded (user_pubkey (ad_policy alice_address)) Byte.x77 = Ok (from_pubkey (B := ser_model) Byte.x0b).
Proof.
  apply (mailbox_address_delivers (B := ser_model) (with_delivery (UnknownDelivery Byte.x09 [Byte.x01; Byte.x02]) (with_pubkey_policy (B := ser_model) alice_key
      (with_server_pubkey (B := ser_model) Byte.x09 (builder_new (B := ser_model))))) Byte.x77 alice_key Byte.x0b alice_builder alice_address).
  - vm_eq.
  - vm_eq.
Defined.
