(* ===== verification/ServerMailbox.v ===== *)
(** * The mailboxes of the server (server/src/rpcserver/mailbox.rs,
      server/src/mailbox_manager.rs, server/src/database/mod.rs)

    A sender posts VTXOs for a blinded mailbox; the server unblinds it, stores
    the VTXOs under a new checkpoint and wakes the streams of the mailbox.  The
    owner reads everything after a checkpoint, or follows a stream.  The older
    mailboxes are named by the keys of the VTXOs and emptied by who asks for
    them.  Requests are tasks that interleave between their database calls;
    streams, the clock and the other services are the environment. *)
From stdpp Require Import gmap sorting.
From S2P Require Import Prelude Effects Bitcoin Encode Concrete Policy Vtxo VtxoEncoding Connectors Mailbox Flux Threads ServerDb ServerOor.

Open Scope Z_scope.

(** tokio's watch channels, seen from the sender: [channel init] has no receiver
    left, [ch_send] refuses when nobody listens. *)
Class Watch := {
  Chan : Type;
  Recv : Type;
  channel : Z -> Chan;
  ch_subscribe : Chan -> Recv * Chan;
  ch_send : Z -> Chan -> option Chan;
  ch_drop : Recv -> Chan -> Chan;
  is_closed : Chan -> bool;
  mark_changed : Recv -> Recv;
  has_changed : Recv -> Chan -> bool;
  borrow_and_update : Recv -> Chan -> Z * Recv;
}.

(** What is borrowed is the value sent last. *)
Class WatchLaws (W : Watch) := {
  ch_value : Chan -> Z;
  value_channel : forall v, ch_value (channel v) = v;
  value_subscribe : forall ch, ch_value (ch_subscribe ch).2 = ch_value ch;
  value_send : forall v ch ch', ch_send v ch = Some ch' -> ch_value ch' = v;
  value_borrow : forall rx ch, (borrow_and_update rx ch).1 = ch_value ch;
  marked_changed : forall rx ch, has_changed (mark_changed rx) ch = true;
}.

(** ** Checkpoints (migrations/V21__blinded_mailbox.sql) *)
Record CheckpointState := mkCheckpointState { last_time : Z; last_counter : Z; max_time : Z }.

(** [u64 as i64]. *)
Definition as_i64 (v : Z) : Z := let v := v mod 2 ^ 64 in if v <? 2 ^ 63 then v else v - 2 ^ 64.

(** The loop keeps the row locked while it sleeps, and does not read the clock
    again. *)
Fixpoint checkpoint_loop (fuel : nat) (now_ms : Z) (rec : CheckpointState) : option (Z * CheckpointState) :=
  match fuel with
  | O => None
  | Datatypes.S fuel =>
      let new_time := Z.max now_ms (max_time rec) in
      let new_counter := if last_time rec <? new_time then 0 else last_counter rec + 1 in
      if negb (last_time rec <? new_time) && (1048576 <=? new_counter) then checkpoint_loop fuel now_ms rec
      else Some (as_i64 (Z.lor (Z.shiftl new_time 20) new_counter),
                 mkCheckpointState new_time new_counter (Z.max (max_time rec) now_ms))
  end.

Definition next_checkpoint (now_ms : Z) (rec : CheckpointState) : option (Z * CheckpointState) := checkpoint_loop 1 now_ms rec.

(** When one round of the loop finds no checkpoint none ever does. *)
Lemma checkpoint_loop_hangs fuel now_ms rec : next_checkpoint now_ms rec = None -> checkpoint_loop fuel now_ms rec = None.
Proof.
  unfold next_checkpoint. cbn [checkpoint_loop]. destruct (_ && _) eqn:Hb; [|done]. intros _.
  induction fuel as [|fuel IH]; [done|]. cbn [checkpoint_loop]. by rewrite Hb.
Qed.

Section Mailboxes.
Context `{B : Bitcoin} `{C : !Curve B} `{S : !Signing B} `{W : Watch}.
(** The server's mailbox key, and the order the database gives to rows. *)
Context (mailbox_key : Keypair).

(** ** Tables *)
Record MailboxRow := mkMailboxRow { mr_mailbox : MailboxIdentifier; mr_vtxo : Vtxo; mr_checkpoint : Z }.
Record ArkoorRow := mkArkoorRow { ar_pubkey : bytes; ar_vtxo : Vtxo; ar_package : bytes; ar_processed : bool }.
Definition mr_id (r : MailboxRow) : VtxoId := vtxo_id (mr_vtxo r).
Definition ar_id (r : ArkoorRow) : VtxoId := vtxo_id (ar_vtxo r).

Context (order_by_checkpoint : list MailboxRow -> list MailboxRow).

(** A stream of [subscribe_mailbox]: the checkpoint it has processed, whether it
    is about to read the database, and what it has yielded. *)
Record MailboxStream := mkStream {
  ms_mailbox : MailboxIdentifier; ms_rx : Recv; ms_processed : Z; ms_reading : bool; ms_out : list (Z * list Vtxo) }.

(** The ids in the table [vtxo], both mailbox tables, the state of the
    checkpoints, the clock, whether the database answers, the map of
    [MailboxManager], and the open streams. *)
Record Mailboxes := mkMailboxes {
  mb_vtxos : gset VtxoId; mb_rows : list MailboxRow; mb_arkoors : list ArkoorRow; mb_checkpoints : CheckpointState;
  mb_clock : Z; mb_up : bool; mb_manager : gmap MailboxIdentifier Chan; mb_streams : gmap nat MailboxStream }.

Definition set_rows (f : list MailboxRow -> list MailboxRow) (s : Mailboxes) : Mailboxes :=
  mkMailboxes (mb_vtxos s) (f (mb_rows s)) (mb_arkoors s) (mb_checkpoints s) (mb_clock s) (mb_up s) (mb_manager s) (mb_streams s).
Definition set_arkoors (f : list ArkoorRow -> list ArkoorRow) (s : Mailboxes) : Mailboxes :=
  mkMailboxes (mb_vtxos s) (mb_rows s) (f (mb_arkoors s)) (mb_checkpoints s) (mb_clock s) (mb_up s) (mb_manager s) (mb_streams s).
Definition set_checkpoints (c : CheckpointState) (s : Mailboxes) : Mailboxes :=
  mkMailboxes (mb_vtxos s) (mb_rows s) (mb_arkoors s) c (mb_clock s) (mb_up s) (mb_manager s) (mb_streams s).
Definition set_manager (f : gmap MailboxIdentifier Chan -> gmap MailboxIdentifier Chan) (s : Mailboxes) : Mailboxes :=
  mkMailboxes (mb_vtxos s) (mb_rows s) (mb_arkoors s) (mb_checkpoints s) (mb_clock s) (mb_up s) (f (mb_manager s)) (mb_streams s).
Definition set_streams (f : gmap nat MailboxStream -> gmap nat MailboxStream) (s : Mailboxes) : Mailboxes :=
  mkMailboxes (mb_vtxos s) (mb_rows s) (mb_arkoors s) (mb_checkpoints s) (mb_clock s) (mb_up s) (mb_manager s) (f (mb_streams s)).

Abbreviation Task := (Code Mailboxes SrvError).

(** A statement: it fails when the database does not answer. *)
Definition db_query {A} (m : M Mailboxes SrvError A) : Task A :=
  atomic (fun s => if mb_up s then m s else (Err (Bail "db error"%string), s)).

Definition bad {A} (msg : string) : Task A := local (Err (BadArgument msg)).
Definition arg {A} (o : option A) (msg : string) : Task A := local (ok_or o (BadArgument msg)).
Definition decoded {A E} (o : outcome E A) : option A := match o with Ok a => Some a | _ => None end.

(** ** The mailboxes of keys (deprecated) *)

(** [INSERT .. SELECT .. FROM vtxo WHERE vtxo_id = $4]: nothing is inserted for
    an unknown VTXO, a second row for one is refused. *)
Definition store_arkoor_by_vtxo_pubkey (pubkey : PublicKey) (arkoor_package_id : bytes) (vtxo : Vtxo) : Task unit :=
  db_query (fun s =>
    if negb (bool_decide (vtxo_id vtxo ∈ mb_vtxos s)) then (Ok tt, s)
    else if bool_decide (vtxo_id vtxo ∈ ar_id <$> mb_arkoors s) then (Err (Bail "duplicate key"%string), s)
    else (Ok tt, set_arkoors (fun l => l ++ [mkArkoorRow (pk_serialize pubkey) vtxo arkoor_package_id false]) s)).

Definition pending_for (keys : list bytes) (r : ArkoorRow) : bool := bool_decide (ar_pubkey r ∈ keys) && negb (ar_processed r).

Definition by_package (rows : list ArkoorRow) : gmap bytes (list Vtxo) :=
  foldl (fun m r => <[ar_package r := default [] (m !! ar_package r) ++ [ar_vtxo r]]> m) ∅ rows.

Definition set_processed (keys : list bytes) (r : ArkoorRow) : ArkoorRow :=
  if pending_for keys r then mkArkoorRow (ar_pubkey r) (ar_vtxo r) (ar_package r) true else r.

Definition pull_oors (pubkeys : list PublicKey) : Task (gmap bytes (list Vtxo)) :=
  let keys := pk_serialize <$> pubkeys in
  rows ← db_query (gets (fun s => filter (pending_for keys) (mb_arkoors s)));
  result ← db_query (fun s => (Ok (length (filter (pending_for keys) (mb_arkoors s))), set_arkoors (fmap (set_processed keys)) s));
  _ ← local (if bool_decide (result = length rows) then Ok tt else Panic);
  mret (by_package rows).

(** ** The tables of mailboxes *)

(** [SELECT next_checkpoint();] *)
Definition query_checkpoint : Task Z :=
  db_query (fun s => match next_checkpoint (mb_clock s) (mb_checkpoints s) with
    | Some (cp, c) => (Ok cp, set_checkpoints c s)
    | None => (Err (Bail "next_checkpoint does not return"%string), s)
    end).

(** The table refers to [vtxo] and has at most one row for a VTXO. *)
Definition insert_mailbox (mailbox_id : MailboxIdentifier) (checkpoint : Z) (vtxo : Vtxo) : Task unit :=
  db_query (fun s =>
    if negb (bool_decide (vtxo_id vtxo ∈ mb_vtxos s)) then (Err (Bail "foreign key"%string), s)
    else if bool_decide (vtxo_id vtxo ∈ mr_id <$> mb_rows s) then (Err (Bail "duplicate key"%string), s)
    else (Ok tt, set_rows (fun l => l ++ [mkMailboxRow mailbox_id vtxo checkpoint]) s)).

Definition store_vtxos_in_mailbox (mailbox_id : MailboxIdentifier) (vtxos : list Vtxo) : Task (option Z) :=
  match vtxos with
  | [] => mret None
  | _ =>
      checkpoint ← query_checkpoint;
      _ ← for_each vtxos (insert_mailbox mailbox_id checkpoint);
      if checkpoint <? 0 then local (Err (Bail "out of range"%string)) else mret (Some checkpoint)
  end.

(** The rows in the order of the table, and the loop that groups them. *)
Definition after_checkpoint (mailbox_id : MailboxIdentifier) (checkpoint : Z) (r : MailboxRow) : bool :=
  bool_decide (mr_mailbox r = mailbox_id) && (checkpoint <? mr_checkpoint r).

Fixpoint group_rows (rows : list MailboxRow) (res : list (Z * list Vtxo)) (vtxos : list Vtxo) (last_checkpoint : Z) : list (Z * list Vtxo) :=
  match rows with
  | [] => res ++ [(last_checkpoint, vtxos)]
  | row :: rows =>
      let checkpoint := mr_checkpoint row mod 2 ^ 64 in
      let last_checkpoint := if bool_decide (vtxos = []) then checkpoint else last_checkpoint in
      if bool_decide (last_checkpoint <> checkpoint) then group_rows rows (res ++ [(last_checkpoint, vtxos)]) [mr_vtxo row] checkpoint
      else group_rows rows res (vtxos ++ [mr_vtxo row]) last_checkpoint
  end.

Definition select_mailbox (mailbox_id : MailboxIdentifier) (checkpoint : Z) (s : Mailboxes) : list (Z * list Vtxo) :=
  let rows := order_by_checkpoint (filter (after_checkpoint mailbox_id (as_i64 checkpoint)) (mb_rows s)) in
  if bool_decide (rows = []) then [] else group_rows rows [] [] 0.

Definition get_vtxos_mailbox (mailbox_id : MailboxIdentifier) (checkpoint : Z) : Task (list (Z * list Vtxo)) :=
  db_query (gets (select_mailbox mailbox_id checkpoint)).

(** ** [MailboxManager] *)
Definition manager_subscribe (id : MailboxIdentifier) (init : Z) : Task Recv :=
  found ← atomic (fun s => match mb_manager s !! id with
    | Some sender => (Ok (Some (ch_subscribe sender).1), set_manager <[id := (ch_subscribe sender).2]> s)
    | None => (Ok None, s)
    end);
  match found with
  | Some rx => mret rx
  | None => atomic (fun s => let sender := default (channel init) (mb_manager s !! id) in
      (Ok (ch_subscribe sender).1, set_manager <[id := (ch_subscribe sender).2]> s))
  end.

Definition notify (id : MailboxIdentifier) (cp : Z) : Task unit :=
  failed ← atomic (fun s => match mb_manager s !! id with
    | Some sender => match ch_send cp sender with
        | Some sender => (Ok false, set_manager <[id := sender]> s)
        | None => (Ok true, s)
        end
    | None => (Ok false, s)
    end);
  if failed : bool then atomic (fun s => (Ok tt, match mb_manager s !! id with
    | Some sender => if is_closed sender then set_manager (delete id) s else s
    | None => s
    end))
  else mret tt.

(** ** Handlers *)
Definition unblind_mailbox_id (blinded : BlindedMailboxIdentifier) (vtxo_pubkey : PublicKey) : outcome SrvError MailboxIdentifier :=
  from_blinded blinded vtxo_pubkey mailbox_key.

Definition post_vtxos_mailbox (vtxos : list bytes) (blinded_id : bytes) : Task unit :=
  vtxos ← arg (mapM (fun v => decoded (deserialize (A := Vtxo) v)) vtxos) "invalid VTXO"%string;
  match vtxos with
  | [] => bad "no vtxos provided"%string
  | vtxo :: rest =>
      r ← arg (decoded (decode_identifier blinded_id)) "invalid a blinded VTXO mailbox identifier"%string;
      let vtxo_pubkey := vtxo_user_pubkey vtxo in
      if negb (forallb (fun v => bool_decide (vtxo_user_pubkey v = vtxo_pubkey)) rest)
      then bad "all vtxos should share vtxo pubkey when mailbox is provided"%string
      else
        mailbox_id ← local (unblind_mailbox_id r.1 vtxo_pubkey);
        stored ← store_vtxos_in_mailbox mailbox_id vtxos;
        checkpoint ← arg stored "nothing was stored"%string;
        notify mailbox_id checkpoint
  end.

(** The part [read_mailbox] and [subscribe_mailbox] share. *)
Definition check_mailbox (unblinded_id : bytes) (authorization : option bytes) : Task MailboxIdentifier :=
  id ← arg (identifier_from_slice unblinded_id) "invalid unblinded mailbox id"%string;
  match authorization with
  | Some auth =>
      auth ← arg (decoded (deserialize (A := MailboxAuthorization) auth)) "invalid mailbox authorization"%string;
      if negb (bool_decide (ma_id auth = id)) then bad "authorization doesn't match mailbox id"%string else mret id
  | None => mret id
  end.

Definition read_mailbox (unblinded_id : bytes) (authorization : option bytes) (checkpoint : Z) : Task (list (Z * list Vtxo)) :=
  id ← check_mailbox unblinded_id authorization;
  get_vtxos_mailbox id checkpoint.

Definition subscribe_mailbox (unblinded_id : bytes) (authorization : option bytes) (checkpoint : Z) : Task nat :=
  mailbox_id ← check_mailbox unblinded_id authorization;
  let starting_checkpoint := Z.max checkpoint 0 in
  mailbox_tip_rx ← manager_subscribe mailbox_id 0;
  let mailbox_tip_rx := mark_changed mailbox_tip_rx in
  atomic (fun s => let k := fresh (dom (mb_streams s)) in
    (Ok k, set_streams <[k := mkStream mailbox_id mailbox_tip_rx starting_checkpoint false []]> s)).

Definition post_arkoor_package_mailbox (arkoors : list (bytes * bytes)) (arkoor_package_id : bytes) : Task unit :=
  for_each arkoors (fun a =>
    pubkey ← arg (pk_from_slice a.1) "invalid public key"%string;
    vtxo ← arg (decoded (deserialize (A := Vtxo) a.2)) "invalid VTXO"%string;
    store_arkoor_by_vtxo_pubkey pubkey arkoor_package_id vtxo).

Definition MAX_NB_MAILBOX_PUBKEYS : Z := 100.

Definition empty_arkoor_mailbox (pubkeys : list bytes) : Task (gmap bytes (list Vtxo)) :=
  if MAX_NB_MAILBOX_PUBKEYS <? Z.of_nat (length pubkeys) then bad "too many pubkeys"%string else
  pubkeys ← arg (mapM pk_from_slice pubkeys) "invalid public key"%string;
  pull_oors pubkeys.

Inductive MailboxRequest :=
  | PostVtxos (vtxos : list bytes) (blinded_id : bytes)
  | ReadMailbox (unblinded_id : bytes) (authorization : option bytes) (checkpoint : Z)
  | SubscribeMailbox (unblinded_id : bytes) (authorization : option bytes) (checkpoint : Z)
  | PostArkoorPackage (arkoors : list (bytes * bytes)) (arkoor_package_id : bytes)
  | EmptyArkoorMailbox (pubkeys : list bytes).

Inductive MailboxReply :=
  | Posted
  | Messages (messages : list (Z * list Vtxo))
  | Stream (k : nat)
  | Packages (packages : gmap bytes (list Vtxo)).

Definition handle_mailbox (r : MailboxRequest) : Task MailboxReply :=
  match r with
  | PostVtxos vtxos blinded_id => _ ← post_vtxos_mailbox vtxos blinded_id; mret Posted
  | ReadMailbox id auth cp => l ← read_mailbox id auth cp; mret (Messages l)
  | SubscribeMailbox id auth cp => k ← subscribe_mailbox id auth cp; mret (Stream k)
  | PostArkoorPackage arkoors package_id => _ ← post_arkoor_package_mailbox arkoors package_id; mret Posted
  | EmptyArkoorMailbox pubkeys => m ← empty_arkoor_mailbox pubkeys; mret (Packages m)
  end.

(** ** Streams

    [stream_wake]: the loop after [changed().await]; it goes on to read the
    database or waits again.  [stream_read]: the query and the messages. *)
Definition stream_wake (ch : Chan) (m : MailboxStream) : MailboxStream :=
  let '(new_cp, rx) := borrow_and_update (ms_rx m) ch in
  mkStream (ms_mailbox m) rx (ms_processed m) (negb (new_cp <=? ms_processed m)) (ms_out m).

Definition stream_read (s : Mailboxes) (m : MailboxStream) : MailboxStream :=
  let entries := select_mailbox (ms_mailbox m) (ms_processed m) s in
  mkStream (ms_mailbox m) (ms_rx m) (List.last (fst <$> entries) (ms_processed m)) false (ms_out m ++ entries).

Definition with_clock (t : Z) (up : bool) (ids : gset VtxoId) (s : Mailboxes) : Mailboxes :=
  mkMailboxes ids (mb_rows s) (mb_arkoors s) (mb_checkpoints s) t up (mb_manager s) (mb_streams s).

(** A stream whose query fails ends, as does one whose channel is gone; a client
    may close any stream.  The clock may be set to any time before the year
    2248; VTXOs are never removed from their table. *)
Inductive mailbox_env (s : Mailboxes) : Mailboxes -> Prop :=
  | me_wake k m ch : mb_streams s !! k = Some m -> ms_reading m = false -> mb_manager s !! ms_mailbox m = Some ch ->
      has_changed (ms_rx m) ch = true -> mailbox_env s (set_streams <[k := stream_wake ch m]> s)
  | me_read k m : mb_streams s !! k = Some m -> ms_reading m = true -> mb_up s = true ->
      mailbox_env s (set_streams <[k := stream_read s m]> s)
  | me_close k m : mb_streams s !! k = Some m ->
      mailbox_env s (set_manager (alter (ch_drop (ms_rx m)) (ms_mailbox m)) (set_streams (delete k) s))
  | me_world t up ids : 0 <= t < 2 ^ 43 -> mb_vtxos s ⊆ ids -> mailbox_env s (with_clock t up ids s).

Definition mailboxes_init (t : Z) : Mailboxes := mkMailboxes ∅ [] [] (mkCheckpointState 0 0 0) t true ∅ ∅.

Definition mailbox_step : relation (Pool Mailboxes SrvError MailboxRequest MailboxReply) := pool_step handle_mailbox mailbox_env.
End Mailboxes.
