(* ===== verification/ServerMailboxReach.v ===== *)
(** * A sample server with mailboxes

    Concrete histories of the server: a reader that misses nothing, one that
    misses a message whose post was under way, and a request that loses the
    VTXOs of a key. *)
From stdpp Require Import gmap sorting.
From S2P Require Import Prelude Effects Bitcoin Encode Concrete Policy Vtxo VtxoEncoding Connectors Mailbox Flux Threads ServerDb ServerOor ServerMailbox ServerMailboxFacts.

Open Scope Z_scope.

(** A channel is a value, its version and the number of receivers; a receiver
    is the version it has seen. *)
#[export] Instance sample_watch : Watch := {
  Chan := Z * nat * nat; Recv := option nat;
  channel v := (v, 0, 0)%nat;
  ch_subscribe ch := (Some ch.1.2, (ch.1, Datatypes.S ch.2));
  ch_send v ch := if bool_decide (ch.2 = 0%nat) then None else Some (v, Datatypes.S ch.1.2, ch.2);
  ch_drop _ ch := (ch.1, pred ch.2);
  is_closed ch := bool_decide (ch.2 = 0%nat);
  mark_changed _ := None;
  has_changed rx ch := bool_decide (rx <> Some ch.1.2);
  borrow_and_update _ ch := (ch.1.1, Some ch.1.2);
}.

#[export] Instance sample_watch_laws : WatchLaws sample_watch.
Proof.
  refine (@Build_WatchLaws sample_watch (fun ch => ch.1.1) _ _ _ _ _).
  - done.
  - done.
  - intros v ch ch'. cbn. case_bool_decide; [done|]. by intros [= <-].
  - done.
  - done.
Qed.

#[export] Instance ser_model_signing : Signing ser_model := {
  sign_schnorr _ _ _ := Byte.x33; add_xonly_tweak kp _ := Some kp; prevouts_sighash _ _ _ := hash []; }.

(** ** The order of rows *)
Definition row_before (a b : MailboxRow (B := ser_model)) : Prop := mr_checkpoint a <= mr_checkpoint b.
#[export] Instance row_before_dec : RelDecision row_before.
Proof. intros a b. apply Z.le_dec. Defined.
#[export] Instance row_before_total : Total row_before.
Proof. intros a b. unfold row_before. lia. Qed.
#[export] Instance row_before_trans : Transitive row_before.
Proof. intros a b c. unfold row_before. lia. Qed.
#[export] Instance sample_order : OrderLaws (B := ser_model) (merge_sort row_before).
Proof. split; intros l; [apply merge_sort_Permutation|apply (StronglySorted_merge_sort row_before)]. Qed.

(** ** Senders and their VTXOs *)
Definition owner : Byte.byte := Byte.x21.
Definition mail_vtxo (b : Byte.byte) : Vtxo (B := ser_model) :=
  mkVtxo (B := ser_model) (new_pubkey (B := ser_model) owner) 3000 2000 Byte.x09 144 (mkOutPoint (hash []) 0)
    [mkItem (Cosigned (B := ser_model) [Byte.x01; Byte.x09] Byte.x33) 1 [mkTxOut 5000 [Byte.x51]]] (mkOutPoint (hash [b]) 0).
Definition mail_bytes (b : Byte.byte) : bytes := match serialize (mail_vtxo b) with Ok bs => bs | _ => [] end.
Definition mail_id : bytes := from_pubkey (B := ser_model) Byte.x0b.
Definition mail_blinded : bytes :=
  match to_blinded (B := ser_model) (E := string) mail_id (@keypair_public_key ser_model Byte.x77) owner with Ok b => b | _ => [] end.
Definition owner_bytes : bytes := @pk_serialize ser_model owner.

Abbreviation SampleServer := (Pool (Mailboxes (B := ser_model)) SrvError MailboxRequest (MailboxReply (B := ser_model))).
Abbreviation sample_step := (mailbox_step (B := ser_model) (Byte.x77 : @Keypair ser_model) (merge_sort row_before)).
Abbreviation sample_exec := (exec (handle_mailbox (B := ser_model) (Byte.x77 : @Keypair ser_model) (merge_sort row_before))).

(** The server knows two VTXOs. *)
Definition sample_mailboxes : Mailboxes (B := ser_model) :=
  with_clock 1000 true {[ vtxo_id (mail_vtxo Byte.x01); vtxo_id (mail_vtxo Byte.x02) ]} (mailboxes_init 1000).
Definition sample_server : SampleServer := pool_init sample_mailboxes.

Definition post (i : nat) (b : Byte.byte) : list (sched (Req := MailboxRequest)) := [Spawn i (PostVtxos [mail_bytes b] mail_blinded); Go i].
Definition finish_post (i : nat) : list (sched (Req := MailboxRequest)) := [Go i; Go i; Go i].
Definition read (i : nat) (cp : Z) : list (sched (Req := MailboxRequest)) := [Spawn i (ReadMailbox mail_id None cp); Go i; Go i].

Lemma sample_server_reach (l : list (sched (Req := MailboxRequest))) :
  mailbox_reach (B := ser_model) (merge_sort row_before) (Byte.x77 : @Keypair ser_model) (sample_exec l sample_server).
Proof.
  exists 1000. split; [done|]. eapply rtc_l; [|apply exec_steps]. apply pl_env. by constructor.
Qed.

(** A message can get lost: its sender took the first checkpoint and stored the
    VTXO only after another message, with the second checkpoint, was stored and
    read.  Who goes on from the second checkpoint never gets the first message,
    though a read from the start has it. *)
Theorem late_message_lost : exists q,
  mailbox_reach (B := ser_model) (merge_sort row_before) (Byte.x77 : @Keypair ser_model) q /\
  p_log q = [
    (PostVtxos [mail_bytes Byte.x02] mail_blinded, Ok Posted);
    (ReadMailbox mail_id None 0, Ok (Messages [(1048576001, [mail_vtxo Byte.x02])]));
    (PostVtxos [mail_bytes Byte.x01] mail_blinded, Ok Posted);
    (ReadMailbox mail_id None 1048576001, Ok (Messages []));
    (ReadMailbox mail_id None 0, Ok (Messages [(1048576000, [mail_vtxo Byte.x01]); (1048576001, [mail_vtxo Byte.x02])]))].
Proof.
  exists (sample_exec (post 0 Byte.x01 ++ post 1 Byte.x02 ++ finish_post 1 ++ read 2 0 ++ finish_post 0 ++
    read 3 1048576001 ++ read 4 0) sample_server). split; [apply sample_server_reach|vm_eq].
Qed.

(** The older mailboxes can lose all VTXOs of a key: a VTXO that arrives between
    the query and the update of [pull_oors] is marked as processed with the
    others, the assertion panics, and nobody ever gets any of them. *)
Theorem late_arkoor_lost : exists q,
  mailbox_reach (B := ser_model) (merge_sort row_before) (Byte.x77 : @Keypair ser_model) q /\
  p_log q = [
    (PostArkoorPackage [(owner_bytes, mail_bytes Byte.x01)] (hash [Byte.x01]), Ok Posted);
    (PostArkoorPackage [(owner_bytes, mail_bytes Byte.x02)] (hash [Byte.x02]), Ok Posted);
    (EmptyArkoorMailbox [owner_bytes], Panic);
    (EmptyArkoorMailbox [owner_bytes], Ok (Packages ∅))].
Proof.
  exists (sample_exec [
    Spawn 0 (PostArkoorPackage [(owner_bytes, mail_bytes Byte.x01)] (hash [Byte.x01])); Go 0; Go 0;
    Spawn 1 (EmptyArkoorMailbox [owner_bytes]); Go 1;
    Spawn 2 (PostArkoorPackage [(owner_bytes, mail_bytes Byte.x02)] (hash [Byte.x02])); Go 2; Go 2; Go 1; Go 1;
    Spawn 3 (EmptyArkoorMailbox [owner_bytes]); Go 3; Go 3; Go 3] sample_server). split; [apply sample_server_reach|vm_eq].
Qed.

(** Two messages with a read in between: the reader gets both. *)
Definition sample_before : SampleServer := sample_exec (post 0 Byte.x01 ++ finish_post 0) sample_server.
Definition sample_after : SampleServer := sample_exec (post 1 Byte.x02 ++ finish_post 1) sample_before.

Lemma mailbox_read_continues_witness :
  let first := select_mailbox (B := ser_model) (merge_sort row_before) mail_id 0 (p_state sample_before) in
  let second := select_mailbox (B := ser_model) (merge_sort row_before) mail_id (next_cursor 0 first) (p_state sample_after) in
  first ++ second = [(1048576000, [mail_vtxo Byte.x01]); (1048576001, [mail_vtxo Byte.x02])] /\
  NoDup (vtxo_id <$> (flat (first ++ second)).*2).
Proof.
  intros first second. split; [vm_eq|].
  apply (mailbox_read_continues (B := ser_model) (merge_sort row_before) (Byte.x77 : @Keypair ser_model) sample_before sample_after mail_id 0).
  - apply sample_server_reach.
  - apply exec_steps.
  - split; [discriminate|reflexivity].
  - intros i r k Hi. assert (He : p_tasks sample_before = ∅) by vm_eq. pose proof (eq_trans (f_equal (lookup i) (eq_sym He)) Hi) as H.
    by rewrite lookup_empty in H.
Defined.
